(* ===== verification/_CoqProject ===== *)
-Q . S2P
Prelude.v
Numbers.v
JsRuntime.v
Json.v
StableId.v
Domain.v
Zod.v
ZodJson.v
N8n.v
Harness.v
Sql.v
Workflow.v
Outbox.v
Http.v
Subjects.v
ControlPlane.v
Signals.v
SignalWorker.v
SignalRoutes.v
Experiments.v
ExperimentRoutes.v
PgExperiments.v
Approvals.v
ControlPlaneRoutes.v
Proposals.v
ProposalRoutes.v
Health.v
Incidents.v
ExternalActions.v
ActionLife.v
ActionProps.v
Publisher.v
WorkflowEvents.v
WorkflowRoutes.v
N8nRoutes.v
Provisioning.v
Playbooks.v
Learning.v
Handoff.v
Critique.v
