(* ===== verification/Prelude.v ===== *)
(** * GrowthOS: verification of the governed GTM control plane

    GrowthOS is a TypeScript monorepo ([apps/], [packages/]) that runs a
    tenant's go-to-market motions under control: signals come in and are
    routed to agents, experiments collect evidence, a promotion gate decides
    which learned playbook changes go live, external actions are dispatched
    to n8n under a lease and settled by signed callbacks, workflows provision
    tenants, and every announcement leaves through a transactional outbox.
    This library translates that core, file by file, and proves what the
    parts promise each other.

    ** How the code is written here

    - A method of a repository or a worker is a program of the monad [M]
      below: it reads and writes its state and either returns or throws
      ([js_error] lists what is thrown). A throw keeps what was written, as
      in JavaScript; [transaction] rolls it back, as the database does.
    - What other tasks do while a call awaits is a function [others] given to
      the program, and [await] applies it: theorems that mention [others]
      hold for every such function, or for those that keep a stated
      invariant. [faulty] is a call to the database that fails before it is
      run or after it was committed.
    - Where the sequence of the outside world's answers matters (the times,
      the generated ids, the faults, the answers of clients), it is a script:
      a function from the number of the call to what that call meets
      ([Provisioning.v], [Learning.v]). A theorem that needs distinct ids
      asks for them among the first [N] calls and for a database out of reach
      afterwards, so that a script is one finite run of any length.
    - A number is a binary64 float ([Numbers.v]); counts and times are
      integers; a string is a list of code units below 256 ([JsRuntime.v],
      with [Map], [trim], sorting and ISO dates); JSON is printed and digested
      as ECMAScript writes it ([Json.v]).
    - Each zod schema is a parser ([Zod.v], [ZodJson.v]): it returns the
      value it makes, trimmed and defaulted, or [ZodError].
    - A Postgres repository works over the class [SqlEngine] of tables
      ([Sql.v]): tables are bags of rows, [WHERE] clauses are three-valued,
      one statement is one step and [others] runs between two of them.

    ** The files

    Groundwork: [Prelude], [Numbers], [JsRuntime], [Json], [Sql], [Zod],
    [ZodJson]; [Domain] (the closed vocabularies of [db/src/schema.ts]),
    [StableId] ([core/src/stable-id.ts]) and [Subjects]
    ([db/src/tenant-context.ts]).

    Learning: [Harness] is [core/src/adaptive-gtm-harness.ts], the promotion
    gate and the healing decision. [Experiments] and [PgExperiments],
    [Proposals], [Health] and [Incidents] are the five parts of
    [db/src/adaptive-control-plane-repository.ts] over the layout of
    [ControlPlane], each with its in-memory and its Postgres repository.
    [Playbooks] is [db/src/playbook-versions-repository.ts]. [Learning] is
    [apps/worker-learning/src/learning-worker.ts], which runs over all of
    them: it turns critiques into proposals, asks the gate, claims the
    promotion, creates the playbook version, announces it and records it.

    [Handoff] is [core/src/handoff-contracts.ts], what the agent workers hand
    to each other; [Critique] is [apps/worker-critique/src/], which scores
    their drafts, with the playbooks that the learning worker wrote, and
    announces the verdicts that the learning worker reads.

    Delivery: [Outbox] is [db/src/outbox-repository.ts] with its Postgres
    twin, behind the class [OutboxPort] that every other component writes
    through, so that their theorems hold for any outbox that keeps
    [OutboxLaws]. [ExternalActions], [ActionLife] and [ActionProps] are
    [db/src/external-actions-repository.ts]: the dispatch lease, the ledger
    and the outcome callbacks of an action. [N8n] is [packages/n8n/src/].
    [Publisher] is [apps/worker-outbox-publisher/src/outbox-publisher.ts],
    which drains the outbox to the broker and to n8n.

    Signals: [Signals] is [db/src/signal-events-repository.ts], [SignalWorker]
    is [apps/worker-signal-router/src/]. [SignalRoutes] is [signals.ts] of
    [apps/api/src/routes/] with [llm-harness/src/signal-grade.ts], the grading
    that the router is given.

    Workflows: [Workflow] is [core/src/workflow-state.ts] and
    [db/src/workflow-run-repository.ts]; [WorkflowEvents] is
    [core/src/workflows.ts]; [WorkflowRoutes] and [N8nRoutes] are
    [workflows.ts] and [n8n.ts] of [apps/api/src/routes/]; [Provisioning] is
    [core/src/tenant-provisioning.ts] with
    [apps/worker-workflow-callback/src/].

    Founder: [Http] is what every route of [apps/api/src/] shares:
    [error-middleware.ts], [auth-middleware.ts], the readers of headers,
    paths, queries and bodies. [ProposalRoutes], [ExperimentRoutes],
    [ControlPlaneRoutes] are [learning-proposals.ts], [experiments.ts] and
    [control-plane.ts] of its [routes/], over [Proposals], [Experiments] and
    the stores of the other files; [Approvals] is [approvals.ts] with
    [db/src/approval-feedback-repository.ts], behind a class that both its
    repositories implement. A route file that repeats a reader of another
    one is read from [Http] as well.

    A definition has the name of the function it translates; a class becomes
    a Module whose [State] (or [Db]) holds its fields (or tables).

    ** What is proved

    - Policy: the gate promotes exactly under its six conditions
      ([evaluate_promotes_iff]); a proposal is promoted only with a license
      and under an unexpired lease ([promotion_needs_license_and_lease],
      [active_lease_is_exclusive]); a new playbook version has such a license
      ([new_version_is_licensed]).
    - Exactly once, or at least the effect of it: one version per critique,
      however often messages are delivered and wherever a worker dies
      ([one_version_per_critique]); an outcome callback is applied once
      ([callback_applied_once]); a request is idempotent
      ([action_request_idempotent], [redelivery_adds_no_events],
      [n8n_redelivery_changes_nothing]).
    - Composition: what the critique worker announces is what the learning
      worker's schema accepts, with the same lineage
      ([critique_reaches_the_learner]); contracts survive the second parse
      ([handoff_contract_round_trip], [typed_request_round_trip]).
    - Mutual exclusion of leases: promotions, dispatches and signals
      ([dispatch_lease_is_exclusive], [signal_claim_is_exclusive],
      [postgres_claim_is_exclusive]).
    - Nothing is marked done before it is announced: outbox events, signals,
      runs, promotions, callbacks ([acknowledged_only_when_delivered],
      [processed_only_when_announced], [run_over_is_announced],
      [promotion_is_announced], [accepted_callback_is_announced]), whichever
      call fails in between.
    - State machines: incidents, experiments, workflow runs and actions move
      along their tables only ([incident_lifecycle],
      [evidence_is_append_only], [settled_action_is_final],
      [ledger_explains_action]).
    - Refinement: on every history of calls whose ids are written as the
      database prints them (a predicate [.._call_ok] states this and the other
      conditions), the Postgres repositories answer as the in-memory ones the
      tests use, errors included and [jsonb] columns up to the order of their
      keys ([.._postgres_refines_memory]), where one call runs at a time; the
      races that break this are stated as theorems of their own.
    - Progress: a pass over the inbox settles every signal it claims, those it
      fails on are given back and reported ([pass_drains_the_inbox]); a pass
      over the outbox publishes in order ([pass_publishes_in_order]); direct
      provisioning completes when nothing fails any more
      ([smooth_attempt_completes]).
    - The founder's requests: an approval is applied to what awaits it at the
      moment of the write, and announced ([founder_approval_takes_effect]); a
      decision and its learning signal are stored together
      ([decision_and_signal_are_atomic]); every well-formed request is decided
      ([approval_requests_are_decided], [transition_requests_are_decided]);
      an internal error tells of an outage ([internal_errors_are_outages]);
      every section of the summary shows what its store answered, and one that
      could not be read is marked as such, never shown as an empty one
      ([summary_never_guesses]); a draft leaves the queue with its decision
      ([decided_artifacts_leave_the_queue]).
    - Trust: nothing is written without the signature of the text that was
      sent ([n8n_writes_are_signed], [forged_callback_is_refused]), and a
      caller reads and changes its own tenant only
      ([reads_reveal_own_proposals], [experiment_requests_stay_in_tenant],
      [dispatch_stays_in_tenant], [request_stays_in_its_tenant]).
    - Errors: forged callbacks change nothing; the defects that modelling
      found are closed theorems about concrete runs
      ([stale_worker_creates_a_second_version], [outage_fails_the_run],
      [upper_case_issue_stays_queued], [rejected_creation_leaves_a_gap], ...).

    ** Assumptions and parameters

    JavaScript's clock and the database's [now()] are one clock, read once per
    call ([call_env]), which also gives the call's random UUID and the row's
    serial number.

    A [uuid] column reads an id whatever its case and gives it back in lower
    case, while zod and the in-memory repositories keep it as it is written;
    a [jsonb] column gives an object back with its keys reordered. Both are
    operations of [SqlEngine] ([uuid_in], [jsonb_in]) and every Postgres
    repository parses the ids of a call and stores its objects through them,
    but for two simplifications: [PostgresOutbox.enqueue] and
    [PostgresActions] take the tenant ids they are given to be in lower case,
    and keep payloads in order. Where an id in upper case makes the two
    repositories differ, the refinements ask for ids in lower case, and
    [upper_case_issue_stays_queued] and [upper_case_tenant_fails] show what
    happens otherwise.

    SHA-256, HMAC, the formats zod checks, the rounding of
    numeric columns, the broker, n8n, the language models, the identity,
    billing, git and storage clients are parameters with the laws the code
    relies on. The session variables of row-level security, [pg_notify],
    telemetry and logging have no effect in the model, foreign keys are not
    modelled, and strings are assumed to hold no NUL.
    The recursion of the program is over lists, so no fuel is needed; where a
    worker loops until it is stopped, one cycle is modelled.

    ** Not modelled

    Of the API, the routes of digests, motions, settings, the Paperclip bridge
    and the command console, and the wiring of the application: their state
    is in repositories and services outside the model. Response headers are
    left out of every route. Not modelled either are the web application, the
    workers that only ask a language model or a metric and publish the answer
    ([worker-intel-director], [worker-content-strategist],
    [worker-blog-draft], [worker-paperclip-heartbeat], [worker-attribution],
    [worker-warmth]), the entry points and NATS loops of all workers, the
    repositories of motion stacks and tenant settings,
    schema DDL, migrations and command lines, the HTTP clients of identity,
    billing, secrets and storage, the language model harness, telemetry, the
    adapter, skills and smoke tests. *)

From stdpp Require Export base tactics list strings pretty gmap sorting.
From Stdlib Require Export ZArith Lia.

#[global] Open Scope Z_scope.
Set Default Goal Selector "!".

Declare Scope js_scope.
Delimit Scope js_scope with js.
Open Scope js_scope.

(** ** Errors, results and the state-and-error monad *)

(** Every [throw] of the modelled code: a zod [parse] failure, a plain
    [Error] with its message, the three error classes of
    [external-actions-repository.ts] and the [HttpError]s of the API. *)
Inductive js_error :=
  | ZodError
  | JsError (message : string)
  | ExternalActionNotFoundError (actionId : string)
  | ExternalActionConflictError (message : string)
  | ExternalActionStateError (message : string)
  | HttpError (status : Z) (message : string).

#[export] Instance js_error_eq_dec : EqDecision js_error.
Proof. solve_decision. Defined.

Inductive result (A : Type) :=
  | Ok (a : A)
  | Err (e : js_error).
Arguments Ok {A} a.
Arguments Err {A} e.

#[export] Instance result_ret : MRet result := fun A a => Ok a.
#[export] Instance result_bind : MBind result := fun A B k m =>
  match m with Ok a => k a | Err e => Err e end.

Definition is_Ok {A} (r : result A) : Prop := exists a, r = Ok a.

(** A method body: it reads and writes the fields of its object, and either
    returns or throws.  A throw keeps the writes made before it, as in
    JavaScript. *)
Definition M (S A : Type) : Type := S -> result A * S.

#[export] Instance M_ret {S} : MRet (M S) := fun A a s => (Ok a, s).
#[export] Instance M_bind {S} : MBind (M S) := fun A B k m s =>
  match m s with
  | (Ok a, s') => k a s'
  | (Err e, s') => (Err e, s')
  end.

Section monad_ops.
Context {S : Type}.

Definition throw {A} (e : js_error) : M S A := fun s => (Err e, s).
Definition lift {A} (r : result A) : M S A := fun s => (r, s).
Definition gets {A} (f : S -> A) : M S A := fun s => (Ok (f s), s).
Definition modify (f : S -> S) : M S unit := fun s => (Ok tt, f s).

(** [db.transaction(async (tx) => ...)]: a body that throws is rolled back. *)
Definition transaction {A} (m : M S A) : M S A := fun s =>
  match m s with
  | (Ok a, s') => (Ok a, s')
  | (Err e, _) => (Err e, s)
  end.

(** The same at READ COMMITTED: [others] is what concurrent transactions
    commit between two statements of the body, and it stays when the body
    rolls back. *)
Definition transaction_with {A} (others : S -> S) (m : M S A) : M S A := fun s =>
  match m s with
  | (Ok a, s') => (Ok a, s')
  | (Err e, _) => (Err e, others s)
  end.

(** [try { m } catch (error) { h; throw error }] *)
Definition on_throw {A} (m : M S A) (h : S -> S) : M S A := fun s =>
  match m s with
  | (Ok a, s') => (Ok a, s')
  | (Err e, s') => (Err e, h s')
  end.

(** [try { m } catch (error) { ... }], with the outcome of [m] as a value. *)
Definition catching {A} (m : M S A) : M S (result A) := fun s =>
  let '(r, s') := m s in (Ok r, s').

(** How a call to a database may go wrong: the connection fails before the
    statement is run, or after it was committed and before the answer is in. *)
Inductive fault := NoFault | FailBefore (e : js_error) | FailAfter (e : js_error).

Definition faulty {A} (f : fault) (m : M S A) : M S A :=
  match f with
  | NoFault => m
  | FailBefore e => throw e
  | FailAfter e => m ≫= (fun _ => throw e)
  end.

(** [await]: the caller gives up control, and [others] is what the other
    tasks do to the object before it resumes. *)
Definition await (others : S -> S) : M S unit := modify others.

(** [await m]: the others run once [m] has settled, whether it returned or
    threw, and before the caller sees the outcome. *)
Definition awaited {A} (others : S -> S) (m : M S A) : M S A := fun s =>
  let '(r, s') := m s in (r, others s').

Lemma bind_ok {A B} (m : M S A) (k : A -> M S B) s b s'' :
  (a ← m; k a) s = (Ok b, s'') ->
  exists a s', m s = (Ok a, s') /\ k a s' = (Ok b, s'').
Proof. unfold mbind, M_bind. intros H. destruct (m s) as [[a|e] s']; eauto. done. Qed.

Lemma bind_eq {A B} (m : M S A) (k : A -> M S B) s a s' :
  m s = (Ok a, s') -> (x ← m; k x) s = k a s'.
Proof. unfold mbind, M_bind. by intros ->. Qed.

Lemma gets_bind {A B} (f : S -> A) (k : A -> M S B) s : (x ← gets f; k x) s = k (f s) s.
Proof. done. Qed.

Lemma bind_err {A B} (m : M S A) (k : A -> M S B) s e s' :
  m s = (Err e, s') -> (x ← m; k x) s = (Err e, s').
Proof. unfold mbind, M_bind. by intros ->. Qed.

(** What holds of the final state, whether or not the first part threw. *)
Lemma bind_post {A B} (G : S -> Prop) (m : M S A) (k : A -> M S B) s :
  (forall e s', m s = (Err e, s') -> G s') -> (forall a s', m s = (Ok a, s') -> G (k a s').2) ->
  G ((a ← m; k a) s).2.
Proof. unfold mbind, M_bind. intros He Hk. destruct (m s) as [[a|e] s'] eqn:H; [by apply Hk|by eapply He]. Qed.

Lemma faulty_ok {A} f (m : M S A) s a s' : faulty f m s = (Ok a, s') -> f = NoFault /\ m s = (Ok a, s').
Proof. destruct f; simpl; [done|done|]. intros (? & ? & _ & H)%bind_ok. done. Qed.

(** A faulty call changes nothing, or what the call changes. *)
Lemma faulty_state {A} f (m : M S A) s : (faulty f m s).2 = s \/ (faulty f m s).2 = (m s).2.
Proof.
  destruct f; simpl; auto. unfold mbind, M_bind. destruct (m s) as [[?|?] ?]; auto.
Qed.

(** A faulty call to something that only reads. *)
Lemma faulty_read {A} f (m : M S A) s : (m s).2 = s -> (faulty f m s).2 = s.
Proof. intros Hm. destruct f; simpl; [done|done|]. unfold mbind, M_bind. destruct (m s) as [[?|?] ?]; done. Qed.

Lemma transaction_err {A} (m : M S A) s e s' :
  transaction m s = (Err e, s') -> s' = s.
Proof. unfold transaction. destruct (m s) as [[?|?] ?]; naive_solver. Qed.
Lemma answered_state {A B} (m : M S A) (f : A -> B) s : ((a ← m; mret (f a)) s).2 = (m s).2.
Proof. unfold mbind, M_bind. by destruct (m s) as [[]]. Qed.
End monad_ops.

(** ** Programs that keep a relation between the states before and after *)

Definition preserves {S A} (R : S -> S -> Prop) (m : M S A) : Prop := forall s, R s (m s).2.

Section preserves.
Context {S : Type} (R : S -> S -> Prop) {HR : PreOrder R}.

Lemma preserves_same {A} (m : M S A) : (forall s, (m s).2 = s) -> preserves R m.
Proof. intros Hm s. by rewrite Hm. Qed.

Lemma preserves_bind {A B} (m : M S A) (k : A -> M S B) :
  preserves R m -> (forall a, preserves R (k a)) -> preserves R (a ← m; k a).
Proof.
  intros Hm Hk s. unfold mbind, M_bind. specialize (Hm s). destruct (m s) as [[a|e] s']; [|done].
  simpl in *. etrans; [exact Hm|apply Hk].
Qed.

(** The same at one state, knowing what the first part answered. *)
Lemma preserves_bind_at {A B} (m : M S A) (k : A -> M S B) s : R s (m s).2 ->
  (forall a s', m s = (Ok a, s') -> R s' (k a s').2) -> R s ((a ← m; k a) s).2.
Proof.
  intros Hm Hk. unfold mbind, M_bind. destruct (m s) as [[a|e] s']; [|done].
  simpl in *. etrans; [exact Hm|by apply Hk].
Qed.

Lemma preserves_faulty {A} f (m : M S A) : preserves R m -> preserves R (faulty f m).
Proof.
  intros Hm. destruct f; simpl; [done|by intros s|]. apply preserves_bind; [done|]. by intros _ s.
Qed.

Lemma preserves_catching {A} (m : M S A) : preserves R m -> preserves R (catching m).
Proof. intros Hm s. specialize (Hm s). unfold catching. by destruct (m s). Qed.

Lemma preserves_modify f : (forall s, R s (f s)) -> preserves R (modify f).
Proof. intros Hf s. apply Hf. Qed.
End preserves.

(** Reduce [preserves] of a program to its calls: [calls] solves those. *)
Ltac solve_preserves calls :=
  repeat first
    [ calls
    | apply preserves_bind; [apply _| |intros ?]
    | apply preserves_same; [apply _|reflexivity]
    | case_match ].

(** [apps/api/src/http-errors.ts] *)
Definition UnauthorizedError (message : string) : js_error := HttpError 401 message.
Definition NotFoundError (message : string) : js_error := HttpError 404 message.
Definition ConflictError (message : string) : js_error := HttpError 409 message.
Definition ServiceUnavailableError (message : string) : js_error := HttpError 503 message.

(** The message of an error ([err.message]); a zod error lists its issues in
    a text of the library's own. *)
Class ErrorText := { zod_error_message : string }.
Definition error_message `{ErrorText} (e : js_error) : string :=
  match e with
  | ZodError => zod_error_message
  | JsError m | ExternalActionConflictError m | ExternalActionStateError m | HttpError _ m => m
  | ExternalActionNotFoundError actionId => ("External action not found: " ++ actionId)%string
  end.

(** What the environment supplies to one call: [new Date()] (in milliseconds),
    [crypto.randomUUID()] (the database's [gen_random_uuid()] for a row) and
    the next value of the database's id sequence. *)
Record call_env := { env_now : Z; env_uuid : string; env_serial : N }.

(** A call to the database: its environment and its fault. *)
Definition db_call : Type := call_env * fault.

(** The answers of a history of calls, and the final state. *)
Fixpoint history {C S A} (exec : C -> call_env -> M S A) (cs : list (C * call_env)) (s : S) :
    list (result A) * S :=
  match cs with
  | [] => ([], s)
  | (c, env) :: cs' =>
      let '(r, s') := exec c env s in
      let '(rs, s'') := history exec cs' s' in (r :: rs, s'')
  end.

(** ** JavaScript operators *)

Definition nullish {A} (a : option A) (b : A) : A := default b a.
Definition nullish_opt {A} (a b : option A) : option A :=
  match a with Some _ => a | None => b end.

Notation "a ?: b" := (nullish a b) (at level 40, left associativity) : js_scope.
Notation "a ?:? b" := (nullish_opt a b) (at level 40, left associativity) : js_scope.

(** Truthiness of a string that may be [null] or [undefined]. *)
Definition truthy (s : option string) : bool :=
  match s with Some "" | None => false | Some _ => true end.

Lemma find_snoc {A} (p : A -> bool) l x :
  List.find p (l ++ [x]) = match List.find p l with Some y => Some y | None => if p x then Some x else None end.
Proof. induction l as [|y l IH]; simpl; [done|]. by destruct (p y). Qed.

Lemma truthy_some s : truthy (Some s) = negb (String.eqb s "").
Proof. destruct s; done. Qed.

(** ** Functional record update: [r <| field := v |>] is [{ ...r, field: v }] *)

Class Eta (R : Type) := eta : R -> R.
Class Upd {R T : Type} (proj : R -> T) := upd : (T -> T) -> R -> R.
Arguments upd {R T} proj {_} f r.

Ltac derive_upd :=
  lazymatch goal with
  | |- @Upd ?R ?T ?proj =>
      let i := constr:(_ : Eta R) in
      let e := eval hnf in i in
      match eval pattern proj in e with
      | ?F _ => let t := eval cbv beta in (fun (g : T -> T) (r : R) => F (fun r' => g (proj r')) r) in exact t
      end
  end.
#[export] Hint Extern 1 (Upd _) => derive_upd : typeclass_instances.

Notation "r <| proj := v |>" := (upd proj (fun _ => v) r)
  (at level 12, proj at next level, left associativity,
   format "r  <| proj  :=  v |>") : js_scope.

(** ** Proof automation *)

Create HintDb growth discriminated.

(** Unfold a functional update and reduce the projections around it. *)
Ltac upd_simpl := unfold upd in *; cbn in *.

(** Case analysis on every [match]/[if] of the goal and the hypotheses, then
    clean up: the work-horse for guards written as early returns. *)
Ltac step_cases :=
  repeat (case_match; simplify_eq/=; try done).

(** Run the monad: unfold its operations and reduce. *)
Ltac msimpl :=
  unfold mret, mbind, result_ret, result_bind, M_ret, M_bind, throw, lift, gets, modify in *;
  simpl in *.

(** Turn boolean guards into propositions. *)
Ltac b2p :=
  rewrite ?andb_true_iff, ?orb_true_iff, ?negb_true_iff, ?andb_false_iff,
    ?orb_false_iff, ?negb_false_iff, ?bool_decide_eq_true, ?bool_decide_eq_false,
    ?Z.ltb_lt, ?Z.leb_le, ?Z.ltb_ge, ?Z.leb_gt, ?Z.eqb_eq, ?Z.eqb_neq in *.
