(* ===== verification/Numbers.v ===== *)
(** * JavaScript numbers

    A [number] is an IEEE 754 binary64 value, computed with the Standard
    Library's specification floats at precision 53.  The lemmas are what the
    policy gates need: comparisons of numbers that are not [NaN] are total,
    and the operations they use do not produce [NaN]. *)

From S2P Require Import Prelude.
From Corelib Require Export SpecFloat.

Definition num : Type := spec_float.

Definition num_add : num -> num -> num := SFadd 53 1024.
Definition num_sub : num -> num -> num := SFsub 53 1024.
Definition num_mul : num -> num -> num := SFmul 53 1024.
Definition num_div : num -> num -> num := SFdiv 53 1024.
Definition num_ltb : num -> num -> bool := SFltb.
Definition num_leb : num -> num -> bool := SFleb.
Definition num_abs : num -> num := SFabs.

Definition num_of_Z (z : Z) : num := binary_normalize 53 1024 z 0 false.
(** The decimal literal [n / d] for [d] a power of ten: both are exact below
    2^53, so the quotient is the correctly rounded literal. *)
Definition num_lit (n d : Z) : num := num_div (num_of_Z n) (num_of_Z d).

Definition num_zero : num := S754_zero false.
Definition num_one : num := num_of_Z 1.

Definition is_nan (x : num) : bool := match x with S754_nan => true | _ => false end.
(** [Number.isFinite] *)
Definition is_finite (x : num) : bool :=
  match x with S754_zero _ | S754_finite _ _ _ => true | _ => false end.
(** [Math.max(a, b)] for arguments that are not [NaN] (no signed-zero rule is
    needed: the code only compares the result). *)
Definition num_max (a b : num) : num :=
  if is_nan a || is_nan b then S754_nan else if num_ltb a b then b else a.

(** [Math.min(a, b)], likewise. *)
Definition num_min (a b : num) : num :=
  if is_nan a || is_nan b then S754_nan else if num_ltb b a then b else a.

(** The value of a number that [Number.isInteger] accepts. *)
Definition num_to_Z (x : num) : option Z :=
  match x with
  | S754_zero _ => Some 0
  | S754_finite sx m e =>
      let sign z := if sx then - z else z in
      if 0 <=? e then Some (sign (Z.pos m * 2 ^ e))
      else if Z.pos m mod 2 ^ (- e) =? 0 then Some (sign (Z.pos m / 2 ^ (- e))) else None
  | _ => None
  end.

#[export] Instance num_eq_dec : EqDecision num.
Proof. solve_decision. Defined.

(** ** Comparison *)

Lemma num_ltb_nan_l x : num_ltb S754_nan x = false.
Proof. done. Qed.

Lemma num_leb_not_nan x y : num_leb x y = true -> is_nan x = false /\ is_nan y = false.
Proof. destruct x, y; done. Qed.

Lemma num_ltb_not_nan x y : num_ltb x y = true -> is_nan x = false /\ is_nan y = false.
Proof. destruct x, y; done. Qed.

Lemma Pos_compare_cont_antisym m n :
  Pos.compare_cont Eq m n = CompOpp (Pos.compare_cont Eq n m).
Proof. symmetry. exact (Pos.compare_cont_antisym n m Eq). Qed.

(** Swapping the arguments mirrors the comparison. *)
Lemma SFcompare_swap x y : SFcompare y x = CompOpp <$> SFcompare x y.
Proof.
  destruct x as [sx|sx| |sx mx ex], y as [sy|sy| |sy my ey]; simpl;
    try done; try (destruct sx; done); try (destruct sy; done);
    try (destruct sx, sy; done).
  destruct sx, sy; simpl; try done.
  - rewrite (Z.compare_antisym ex ey). destruct (ex ?= ey) eqn:E; simpl; try done.
    rewrite Pos_compare_cont_antisym. by destruct (Pos.compare_cont Eq mx my).
  - rewrite (Z.compare_antisym ex ey). destruct (ex ?= ey) eqn:E; simpl; try done.
    by rewrite Pos_compare_cont_antisym.
Qed.

Lemma SFcompare_not_nan x y : is_nan x = false -> is_nan y = false ->
  exists c, SFcompare x y = Some c.
Proof. destruct x, y; simpl; eauto; done. Qed.

(** [!(x < y)] is [y <= x] away from [NaN]. *)
Lemma num_ltb_false x y : is_nan x = false -> is_nan y = false ->
  num_ltb x y = false <-> num_leb y x = true.
Proof.
  intros Hx Hy. unfold num_ltb, num_leb, SFltb, SFleb.
  rewrite (SFcompare_swap x y). destruct (SFcompare_not_nan x y Hx Hy) as [c ->].
  by destruct c.
Qed.

Lemma num_ltb_asym x y : num_ltb x y = true -> num_leb y x = false.
Proof.
  unfold num_ltb, num_leb, SFltb, SFleb. rewrite (SFcompare_swap x y).
  destruct (SFcompare x y) as [[]|]; done.
Qed.

(** ** Rounding never produces [NaN] *)

Lemma shr_1_nonneg mrs : 0 <= shr_m mrs -> 0 <= shr_m (shr_1 mrs).
Proof. destruct mrs as [m r s]; simpl. destruct m as [|[]|[]]; simpl; lia. Qed.

Lemma iter_pos_shr_nonneg p mrs :
  0 <= shr_m mrs -> 0 <= shr_m (SpecFloat.iter_pos shr_1 p mrs).
Proof. revert mrs. induction p; simpl; intros; auto using shr_1_nonneg. Qed.

Lemma shr_fexp_nonneg m e l : 0 <= m -> 0 <= shr_m (fst (shr_fexp 53 1024 m e l)).
Proof.
  intros H. unfold shr_fexp, shr.
  assert (0 <= shr_m (shr_record_of_loc m l)) by (by destruct l as [|[]]).
  case_match; simpl; auto using iter_pos_shr_nonneg.
Qed.

Lemma round_nearest_even_nonneg m l : 0 <= m -> 0 <= round_nearest_even m l.
Proof. intros H. destruct l as [|[]]; simpl; try lia. case_match; lia. Qed.

Lemma binary_round_aux_not_nan sx m e l :
  0 <= m -> is_nan (binary_round_aux 53 1024 sx m e l) = false.
Proof.
  intros Hm. unfold binary_round_aux.
  pose proof (shr_fexp_nonneg m e l Hm) as H1.
  destruct (shr_fexp 53 1024 m e l) as [mrs e']. simpl in H1.
  match goal with |- context [shr_fexp 53 1024 ?x ?y ?z] =>
    pose proof (shr_fexp_nonneg x y z (round_nearest_even_nonneg _ _ H1));
    destruct (shr_fexp 53 1024 x y z) as [mrs2 e2] end.
  simpl in *. destruct (shr_m mrs2); simpl; [done| |lia]. by case_match.
Qed.

Lemma binary_normalize_not_nan m e z : is_nan (binary_normalize 53 1024 m e z) = false.
Proof.
  unfold binary_normalize, binary_round. destruct m as [|m|m]; [done| |];
    destruct (shl_align _ _ _); by apply binary_round_aux_not_nan.
Qed.

Lemma num_of_Z_not_nan z : is_nan (num_of_Z z) = false.
Proof. apply binary_normalize_not_nan. Qed.

(** The difference of two finite numbers is a number (perhaps infinite). *)
Lemma num_sub_not_nan x y : is_finite x = true -> is_finite y = true ->
  is_nan (num_sub x y) = false.
Proof.
  destruct x, y; simpl; intros; try done; unfold num_sub; simpl.
  - by repeat case_match.
  - apply binary_normalize_not_nan.
Qed.

Lemma num_div_not_nan x y : is_nan x = false -> is_finite y = true -> num_ltb num_zero y = true ->
  is_nan (num_div x y) = false.
Proof.
  destruct x as [| | |sx mx ex], y as [| | |sy my ey]; simpl; intros; try done.
  unfold num_div, SFdiv, SFdiv_core_binary. cbv zeta.
  set (m' := match _ with Z0 => _ | Zpos _ => _ | Zneg _ => _ end).
  assert (0 <= m') as Hm'.
  { unfold m'. case_match; try lia. apply Z.shiftl_nonneg. lia. }
  pose proof (Z_div_pos m' (Zpos my) ltac:(lia) Hm') as Hq. unfold Z.div in Hq.
  destruct (Z.div_eucl m' (Zpos my)). by apply binary_round_aux_not_nan.
Qed.

(** ** Sums and quotients of nonnegative numbers *)

Lemma binary_round_aux_nonneg m e l :
  0 <= m -> num_leb num_zero (binary_round_aux 53 1024 false m e l) = true.
Proof.
  intros Hm. unfold binary_round_aux.
  pose proof (shr_fexp_nonneg m e l Hm) as H1.
  destruct (shr_fexp 53 1024 m e l) as [mrs e']. simpl in H1.
  match goal with |- context [shr_fexp 53 1024 ?x ?y ?z] =>
    pose proof (shr_fexp_nonneg x y z (round_nearest_even_nonneg _ _ H1));
    destruct (shr_fexp 53 1024 x y z) as [mrs2 e2] end.
  simpl in *. destruct (shr_m mrs2); simpl; [done| |lia]. by case_match.
Qed.

Lemma binary_normalize_nonneg m e : 0 < m -> num_leb num_zero (binary_normalize 53 1024 m e false) = true.
Proof.
  intros Hm. unfold binary_normalize, binary_round. destruct m as [|m|m]; [done| |lia].
  destruct (shl_align _ _ _). by apply binary_round_aux_nonneg.
Qed.

Lemma num_add_nonneg x y : num_leb num_zero x = true -> num_leb num_zero y = true ->
  num_leb num_zero (num_add x y) = true.
Proof.
  intros Hx Hy. unfold num_add.
  destruct x as [sx|[]| |[] mx ex], y as [sy|[]| |[] my ey]; try done.
  - by destruct sx, sy.
  - apply binary_normalize_nonneg. simpl. lia.
Qed.

Lemma num_div_nonneg x y : is_finite x = true -> num_leb num_zero x = true -> num_ltb num_zero y = true ->
  num_leb num_zero (num_div x y) = true.
Proof.
  intros Hf Hx Hy. destruct x as [sx|[]| |[] mx ex], y as [sy|[]| |[] my ey]; try done.
  unfold num_div, SFdiv, SFdiv_core_binary. cbv zeta.
  set (m' := match _ with Z0 => _ | Zpos _ => _ | Zneg _ => _ end).
  assert (0 <= m') as Hm'.
  { unfold m'. case_match; try lia. apply Z.shiftl_nonneg. lia. }
  pose proof (Z_div_pos m' (Zpos my) ltac:(lia) Hm') as Hq. unfold Z.div in Hq.
  destruct (Z.div_eucl m' (Zpos my)). by apply binary_round_aux_nonneg.
Qed.

Lemma num_leb_one_finite x : num_leb num_zero x = true -> num_leb x num_one = true -> is_finite x = true.
Proof. destruct x as [|[]| |]; done. Qed.

(** Clamping to the unit interval. *)
Lemma num_clamp_unit x : num_leb num_zero x = true ->
  let y := num_min num_one (num_max num_zero x) in
  num_leb num_zero y = true /\ num_leb y num_one = true.
Proof.
  intros Hx. assert (is_nan x = false) as Hn by (by apply num_leb_not_nan in Hx as [_ ?]).
  unfold num_min, num_max. change (is_nan num_zero) with false. change (is_nan num_one) with false.
  rewrite Hn. cbn [orb]. destruct (num_ltb num_zero x) eqn:H0; rewrite ?Hn; cbn [orb].
  - destruct (num_ltb x num_one) eqn:H1; [|done]. split; [done|].
    revert H1. unfold num_ltb, num_leb, SFltb, SFleb. by destruct (SFcompare x num_one) as [[]|].
  - done.
Qed.
