(* ===== verification/JsRuntime.v ===== *)
(** * The JavaScript standard library the program uses

    [Map] with its insertion order, the stable [Array.prototype.sort],
    [slice(0, n)], [String.prototype.trim], template-literal keys and JSON
    values.  A string is a list of code units below 256. *)

From S2P Require Import Prelude Numbers.
From Stdlib Require DecimalString DecimalN.

(** ** [Map<string, V>]

    Iteration follows insertion order; [set] on a present key keeps its place. *)

Section jsmap.
Context {V : Type}.
Implicit Types (m : list (string * V)) (k : string) (v : V).

Fixpoint mapGet k m : option V :=
  match m with
  | [] => None
  | (k', v) :: m' => if bool_decide (k = k') then Some v else mapGet k m'
  end.

Fixpoint mapSet k v m : list (string * V) :=
  match m with
  | [] => [(k, v)]
  | (k', v') :: m' =>
      if bool_decide (k = k') then (k, v) :: m' else (k', v') :: mapSet k v m'
  end.

Definition mapValues m : list V := m.*2.

(** No two entries share a key: every map built by [set] has this. *)
Definition mapWf m : Prop := NoDup m.*1.

Lemma mapGet_set_eq k v m : mapGet k (mapSet k v m) = Some v.
Proof.
  induction m as [|[k' v'] m IH]; simpl; [by rewrite bool_decide_true|].
  case_bool_decide as H; simpl; [by rewrite bool_decide_true|].
  by rewrite bool_decide_false.
Qed.

Lemma mapGet_set_ne k k' v m : k ≠ k' -> mapGet k' (mapSet k v m) = mapGet k' m.
Proof.
  intros Hne. induction m as [|[j w] m IH]; simpl.
  { by rewrite bool_decide_false by congruence. }
  case_bool_decide as H; simpl; [subst|by rewrite IH].
  by rewrite !(bool_decide_false (k' = j)) by congruence.
Qed.

Lemma mapGet_set k k' v m :
  mapGet k' (mapSet k v m) = if bool_decide (k = k') then Some v else mapGet k' m.
Proof.
  case_bool_decide as H; [subst; apply mapGet_set_eq|by apply mapGet_set_ne].
Qed.

Lemma mapGet_None k m : mapGet k m = None <-> k ∉ m.*1.
Proof.
  induction m as [|[j w] m IH]; simpl; [set_solver|].
  case_bool_decide; set_solver.
Qed.

Lemma mapSet_keys_new k v m : mapGet k m = None -> (mapSet k v m).*1 = m.*1 ++ [k].
Proof.
  induction m as [|[j w] m IH]; simpl; [done|].
  case_bool_decide; [done|]. intros Hg. simpl. f_equal. by apply IH.
Qed.

Lemma mapSet_keys_old k v w m : mapGet k m = Some w -> (mapSet k v m).*1 = m.*1.
Proof.
  induction m as [|[j u] m IH]; simpl; [done|].
  case_bool_decide; simpl; [by subst|]. intros Hg. f_equal. by apply IH.
Qed.

Lemma mapSet_wf k v m : mapWf m -> mapWf (mapSet k v m).
Proof.
  unfold mapWf. intros H. destruct (mapGet k m) eqn:E.
  - by erewrite mapSet_keys_old.
  - rewrite mapSet_keys_new by done. apply NoDup_app. split_and!; [done| |apply NoDup_singleton].
    apply mapGet_None in E. intros x Hx ->%list_elem_of_singleton. done.
Qed.

Lemma mapWf_nil : mapWf [].
Proof. apply NoDup_nil_2. Qed.

Lemma mapGet_elem k v m : mapWf m -> (k, v) ∈ m <-> mapGet k m = Some v.
Proof.
  unfold mapWf. induction m as [|[j w] m IH]; simpl; [set_solver|].
  intros [Hj Hm]%NoDup_cons. specialize (IH Hm). rewrite elem_of_cons.
  case_bool_decide as E; [subst|naive_solver].
  split; [|naive_solver]. intros [?|Hin]; [naive_solver|].
  exfalso. apply Hj, list_elem_of_fmap. by exists (j, v).
Qed.

Lemma elem_of_mapValues v m : mapWf m -> v ∈ mapValues m <-> exists k, mapGet k m = Some v.
Proof.
  intros Hm. unfold mapValues. rewrite list_elem_of_fmap. split.
  - intros ([k ?] & -> & H). exists k. by apply mapGet_elem.
  - intros [k H%mapGet_elem]; [|done]. by exists (k, v).
Qed.

Lemma mapValues_set_new k v m :
  mapGet k m = None -> mapValues (mapSet k v m) = mapValues m ++ [v].
Proof.
  unfold mapValues. induction m as [|[j w] m IH]; simpl; [done|].
  case_bool_decide; [done|]. intros Hg. simpl. f_equal. by apply IH.
Qed.

(** On a map keyed by a field of its values, [set] on a present key is the
    row-wise update of the table of values. *)
Lemma mapValues_set_old (kf : V -> string) k v m w :
  mapWf m -> (forall j u, mapGet j m = Some u -> kf u = j) ->
  mapGet k m = Some w ->
  mapValues (mapSet k v m) =
    (fun u => if String.eqb (kf u) k then v else u) <$> mapValues m.
Proof.
  unfold mapValues, mapWf. intros Hwf Hk. revert Hwf Hk.
  induction m as [|[j u] m IH]; simpl; [done|].
  intros [Hj Hm]%NoDup_cons Hk Hget.
  assert (kf u = j) as Hu by (apply Hk; by rewrite bool_decide_true).
  assert (forall i x, mapGet i m = Some x -> kf x = i) as Hk'.
  { intros i x Hi. apply Hk. rewrite bool_decide_false; [done|].
    intros ->. apply mapGet_None in Hj. congruence. }
  case_bool_decide as E; simpl.
  - rewrite Hu, <- E, String.eqb_refl. f_equal. symmetry.
    rewrite <- E in Hj. clear IH Hget Hk Hu. induction m as [|[i x] m IHm]; [done|].
    simpl in *. apply NoDup_cons in Hm as [Hi Hm].
    rewrite (Hk' i x) by (by rewrite bool_decide_true).
    replace (String.eqb i k) with false by (symmetry; apply String.eqb_neq; set_solver).
    f_equal. apply IHm; [set_solver|done|].
    intros i' x' Hi'. apply Hk'. rewrite bool_decide_false; [done|].
    intros ->. apply mapGet_None in Hi. congruence.
  - rewrite Hu. replace (String.eqb j k) with false by (symmetry; apply String.eqb_neq; congruence).
    f_equal. by apply IH.
Qed.
End jsmap.

Abbreviation jsmap V := (list (string * V)).

#[export] Hint Resolve mapSet_wf mapWf_nil : growth.
#[export] Hint Rewrite @mapGet_set_eq : growth.

(** ** [Array.prototype.sort], stable, with [le a b] for [compare(a, b) <= 0] *)

Section sorting.
Context {A : Type} (le : A -> A -> bool).

Fixpoint insert_by (x : A) (l : list A) : list A :=
  match l with
  | [] => [x]
  | y :: l' => if le x y then x :: l else y :: insert_by x l'
  end.

Fixpoint sort_by (l : list A) : list A :=
  match l with
  | [] => []
  | x :: l' => insert_by x (sort_by l')
  end.

Lemma insert_by_perm x l : insert_by x l ≡ₚ x :: l.
Proof.
  induction l as [|y l IH]; simpl; [done|]. case_match; [done|].
  rewrite IH. apply Permutation_swap.
Qed.

Lemma sort_by_perm l : sort_by l ≡ₚ l.
Proof. induction l as [|x l IH]; simpl; [done|]. by rewrite insert_by_perm, IH. Qed.

Lemma elem_of_sort_by x l : x ∈ sort_by l <-> x ∈ l.
Proof. by rewrite sort_by_perm. Qed.

Context (le_total : forall a b, le a b = true \/ le b a = true).
Context (le_trans : forall a b c, le a b = true -> le b c = true -> le a c = true).

Lemma sort_by_sorted l : StronglySorted le (sort_by l).
Proof.
  induction l as [|x l IH]; simpl; [constructor|].
  induction IH as [|y l' Hs IHs Hf]; simpl; [repeat constructor|].
  destruct (le x y) eqn:E.
  - constructor; [by constructor|]. constructor; [by rewrite E|].
    eapply Forall_impl; [exact Hf|]. intros z Hz. apply Is_true_eq_true in Hz.
    by rewrite (le_trans x y z).
  - constructor; [done|]. rewrite insert_by_perm. constructor; [|done].
    destruct (le_total x y) as [H|H]; [congruence|by rewrite H].
Qed.
End sorting.

(** An ordered list cut at [n]: what is kept precedes what is dropped. *)
Lemma StronglySorted_app_inv {A} (R : A -> A -> Prop) l1 l2 x y :
  StronglySorted R (l1 ++ l2) -> x ∈ l1 -> y ∈ l2 -> R x y.
Proof.
  induction l1 as [|a l1 IH]; simpl; [set_solver|].
  intros Hs%StronglySorted_inv [->|Hx]%elem_of_cons Hy; destruct Hs as [Hs Hf].
  - rewrite Forall_forall in Hf. apply Hf. set_solver.
  - by apply IH.
Qed.

Lemma StronglySorted_take {A} (R : A -> A -> Prop) n l :
  StronglySorted R l -> StronglySorted R (take n l).
Proof.
  intros H. revert n. induction H as [|a l H IH Hf]; intros [|n]; simpl; try constructor; auto.
  by apply Forall_take.
Qed.

Lemma StronglySorted_filter {A} (R : A -> A -> Prop) (P : A -> Prop) `{forall a, Decision (P a)} l :
  StronglySorted R l -> StronglySorted R (filter P l).
Proof.
  induction 1 as [|a l Hl IH Hf]; [constructor|]. rewrite filter_cons. case_decide; [|done].
  constructor; [done|]. rewrite Forall_forall in *. intros b [_ Hb]%list_elem_of_filter. auto.
Qed.

Add Parametric Morphism {A} (le : A -> A -> bool) : (sort_by le)
  with signature (≡ₚ) ==> (≡ₚ) as sort_by_perm_morphism.
Proof. intros l l' H. by rewrite !sort_by_perm. Qed.

(** [slice(0, n)]: a negative end counts from the back. *)
Definition slice0 {A} (n : Z) (l : list A) : list A :=
  if n <? 0 then take (length l - Z.to_nat (- n)) l else take (Z.to_nat n) l.

Lemma slice0_length {A} n (l : list A) : 0 <= n -> Z.of_nat (length (slice0 n l)) <= n.
Proof. intros H. unfold slice0. case_match; b2p; rewrite ?length_take; lia. Qed.

Lemma slice0_take {A} n (l : list A) : exists k, slice0 n l = take k l.
Proof. unfold slice0. case_match; eauto. Qed.

Lemma slice0_subseteq {A} n (l : list A) : slice0 n l ⊆ l.
Proof. unfold slice0. case_match; apply subseteq_take. Qed.

(** ** Strings *)

Definition is_space (c : Ascii.ascii) : bool :=
  let n := Ascii.nat_of_ascii c in
  ((9 <=? n) && (n <=? 13) || (n =? 32) || (n =? 160))%nat.

Fixpoint drop_spaces (l : list Ascii.ascii) : list Ascii.ascii :=
  match l with
  | [] => []
  | c :: l' => if is_space c then drop_spaces l' else l
  end.

Definition trim_list (l : list Ascii.ascii) : list Ascii.ascii :=
  rev (drop_spaces (rev (drop_spaces l))).

(** [String.prototype.trim] *)
Definition trim (s : string) : string :=
  String.string_of_list_ascii (trim_list (String.list_ascii_of_string s)).

Lemma drop_spaces_idem l : drop_spaces (drop_spaces l) = drop_spaces l.
Proof.
  induction l as [|c l IH]; simpl; [done|].
  destruct (is_space c) eqn:E; [done|]. simpl. by rewrite E.
Qed.

Lemma drop_spaces_suffix l : exists p, l = p ++ drop_spaces l.
Proof.
  induction l as [|c l [p IH]]; simpl; [by exists []|].
  case_match; [exists (c :: p); simpl; congruence|by exists []].
Qed.

(** A prefix of a list that starts with a non-space also does. *)
Lemma drop_spaces_prefix l p q : drop_spaces l = l -> l = p ++ q -> drop_spaces p = p.
Proof.
  intros H ->. destruct p as [|c p]; [done|]. simpl in *.
  destruct (is_space c); [|done]. exfalso.
  destruct (drop_spaces_suffix (p ++ q)) as [x Hx].
  rewrite H in Hx. apply (f_equal length) in Hx. rewrite !length_app in Hx. simpl in Hx. rewrite length_app in Hx. lia.
Qed.

Lemma trim_list_idem l : trim_list (trim_list l) = trim_list l.
Proof.
  unfold trim_list. set (a := drop_spaces l). set (b := drop_spaces (rev a)).
  assert (drop_spaces (rev b) = rev b) as ->.
  { destruct (drop_spaces_suffix (rev a)) as [p Hp]. fold b in Hp.
    apply (drop_spaces_prefix a _ (rev p)); [apply drop_spaces_idem|].
    rewrite <- rev_app_distr, <- Hp. by rewrite rev_involutive. }
  rewrite rev_involutive. unfold b. by rewrite drop_spaces_idem.
Qed.

Lemma trim_idem s : trim (trim s) = trim s.
Proof.
  unfold trim. by rewrite String.list_ascii_of_string_of_list_ascii, trim_list_idem.
Qed.

Lemma drop_spaces_none l : forallb (fun c => negb (is_space c)) l = true -> drop_spaces l = l.
Proof. destruct l as [|c l]; simpl; [done|]. by intros [->%negb_true_iff _]%andb_true_iff. Qed.

Lemma trim_none s : forallb (fun c => negb (is_space c)) (String.list_ascii_of_string s) = true ->
  trim s = s.
Proof.
  intros H. unfold trim, trim_list. rewrite (drop_spaces_none _ H), drop_spaces_none.
  - by rewrite rev_involutive, String.string_of_list_ascii_of_string.
  - rewrite forallb_forall in *. intros c Hc%in_rev. by apply H.
Qed.

(** [String.prototype.toLowerCase] of an ASCII character *)
Definition to_lower (c : Ascii.ascii) : Ascii.ascii :=
  let n := Ascii.nat_of_ascii c in
  if ((65 <=? n) && (n <=? 90))%nat then Ascii.ascii_of_nat (n + 32) else c.

(** [s.toLowerCase()] of ASCII text *)
Definition lower (s : string) : string :=
  String.string_of_list_ascii (to_lower <$> String.list_ascii_of_string s).

(** *** Template-literal keys *)

Definition colon : Ascii.ascii := Eval cbv in Ascii.ascii_of_nat 58.

Definition dot : Ascii.ascii := Eval cbv in Ascii.ascii_of_nat 46.

Fixpoint no_colon (s : string) : bool :=
  match s with
  | EmptyString => true
  | String c s' => negb (Ascii.eqb c colon) && no_colon s'
  end.

(** [`${a}:${b}`] determines [a] and [b] when [a] holds no colon. *)
Lemma colon_key_inj a a' b b' :
  no_colon a = true -> no_colon a' = true ->
  (a +:+ ":" +:+ b) = (a' +:+ ":" +:+ b') -> a = a' /\ b = b'.
Proof.
  revert a'. induction a as [|c a IH]; intros [|c' a']; simpl; intros Ha Ha' H; simplify_eq; try done.
  b2p. destruct Ha as [_ Ha], Ha' as [_ Ha'].
  by destruct (IH a' Ha Ha' ltac:(eassumption)) as [-> ->].
Qed.

(** *** [String(n)] for a natural number, and [Number(s)] on such strings *)

Definition string_of_N (n : N) : string :=
  DecimalString.NilZero.string_of_uint (N.to_uint n).

(** [None] is [NaN]: the string is not a run of decimal digits. *)
Definition number_of_string (s : string) : option N :=
  N.of_uint <$> DecimalString.NilZero.uint_of_string s.

Lemma number_of_string_of_N n : number_of_string (string_of_N n) = Some n.
Proof.
  unfold number_of_string, string_of_N. rewrite DecimalString.NilZero.usu.
  - simpl. by rewrite DecimalN.Unsigned.of_to.
  - intros H. apply (f_equal N.of_uint) in H as H0. rewrite DecimalN.Unsigned.of_to in H0.
    simpl in H0. by subst.
Qed.

#[export] Instance string_of_N_inj : Inj (=) (=) string_of_N.
Proof.
  intros a b H. apply (f_equal number_of_string) in H.
  rewrite !number_of_string_of_N in H. congruence.
Qed.

Lemma string_of_N_nonempty n : string_of_N n ≠ "".
Proof. intros H. apply (f_equal number_of_string) in H. by rewrite number_of_string_of_N in H. Qed.

(** *** [Date.prototype.toISOString], from milliseconds since the epoch *)

Fixpoint pad_digits (n : nat) (z : Z) : string :=
  match n with
  | O => ""
  | S n' => pad_digits n' (z / 10) +:+ String (Ascii.ascii_of_nat (48 + Z.to_nat (z mod 10))) ""
  end.

(** The civil date of a day number, in the proleptic Gregorian calendar. *)
Definition civil_of_days (days : Z) : Z * Z * Z :=
  let z := days + 719468 in
  let era := z / 146097 in
  let doe := z mod 146097 in
  let yoe := (doe - doe / 1460 + doe / 36524 - doe / 146096) / 365 in
  let doy := doe - (365 * yoe + yoe / 4 - yoe / 100) in
  let mp := (5 * doy + 2) / 153 in
  let m := if mp <? 10 then mp + 3 else mp - 9 in
  (yoe + era * 400 + (if m <=? 2 then 1 else 0), m, doy - (153 * mp + 2) / 5 + 1).

Definition toISOString (ms : Z) : string :=
  let '(y, m, d) := civil_of_days (ms / 86400000) in
  let t := ms mod 86400000 in
  (if (0 <=? y) && (y <=? 9999) then pad_digits 4 y
   else (if y <? 0 then "-" else "+") +:+ pad_digits 6 (Z.abs y)) +:+ "-" +:+
  pad_digits 2 m +:+ "-" +:+ pad_digits 2 d +:+ "T" +:+ pad_digits 2 (t / 3600000) +:+ ":" +:+
  pad_digits 2 (t / 60000 mod 60) +:+ ":" +:+ pad_digits 2 (t / 1000 mod 60) +:+ "." +:+
  pad_digits 3 (t mod 1000) +:+ "Z".

Example toISOString_leap : toISOString 1709210096789 = "2024-02-29T12:34:56.789Z".
Proof. reflexivity. Qed.

(** *** [new Date(text).getTime()] of an ISO date and time, [None] when invalid *)

Fixpoint read_digits (n : nat) (acc : Z) (l : list Ascii.ascii) : option (Z * list Ascii.ascii) :=
  match n, l with
  | O, _ => Some (acc, l)
  | S n', c :: l' =>
      let k := Z.of_nat (Ascii.nat_of_ascii c) - 48 in
      if (0 <=? k) && (k <=? 9) then read_digits n' (acc * 10 + k) l' else None
  | _, [] => None
  end.

Definition read_char (c : nat) (l : list Ascii.ascii) : option (list Ascii.ascii) :=
  match l with
  | d :: l' => if (Ascii.nat_of_ascii d =? c)%nat then Some l' else None
  | [] => None
  end.

(** The digits of a fraction of a second: its milliseconds; later digits are
    dropped. *)
Fixpoint read_fraction (scale acc : Z) (l : list Ascii.ascii) : Z * list Ascii.ascii :=
  match l with
  | c :: l' =>
      let k := Z.of_nat (Ascii.nat_of_ascii c) - 48 in
      if (0 <=? k) && (k <=? 9) then read_fraction (scale / 10) (acc + k * scale) l' else (acc, l)
  | [] => (acc, [])
  end.

(** The day number of a civil date. *)
Definition days_of_civil (y m d : Z) : Z :=
  let y' := if m <=? 2 then y - 1 else y in
  let yoe := y' mod 400 in
  let doy := (153 * (if m <=? 2 then m + 9 else m - 3) + 2) / 5 + d - 1 in
  y' / 400 * 146097 + yoe * 365 + yoe / 4 - yoe / 100 + doy - 719468.

(** [Z], or [+hh:mm] or [-hh:mm], in minutes *)
Definition read_offset (l : list Ascii.ascii) : option Z :=
  match read_char 90 l with
  | Some [] => Some 0
  | Some _ => None
  | None =>
      '(sign, l) ← (match read_char 43 l with
                    | Some l => Some (1, l)
                    | None => (fun l => (-1, l)) <$> read_char 45 l
                    end);
      '(h, l) ← read_digits 2 0 l; l ← read_char 58 l; '(m, l) ← read_digits 2 0 l;
      match l with
      | [] => if (h <=? 23) && (m <=? 59) then Some (sign * (h * 60 + m)) else None
      | _ => None
      end
  end.

Definition date_of (text : string) : option Z :=
  '(y, l) ← read_digits 4 0 (String.list_ascii_of_string text); l ← read_char 45 l;
  '(m, l) ← read_digits 2 0 l; l ← read_char 45 l; '(d, l) ← read_digits 2 0 l; l ← read_char 84 l;
  '(hh, l) ← read_digits 2 0 l; l ← read_char 58 l; '(mm, l) ← read_digits 2 0 l;
  '(ss, l) ← (match read_char 58 l with Some l => read_digits 2 0 l | None => Some (0, l) end);
  let '(ms, l) := match read_char 46 l with Some l => read_fraction 100 0 l | None => (0, l) end in
  offset ← read_offset l;
  if (1 <=? m) && (m <=? 12) && (1 <=? d) && (d <=? 31) && (hh <=? 23) && (mm <=? 59) && (ss <=? 59)
  then Some (((days_of_civil y m d * 24 + hh) * 60 + mm - offset) * 60000 + ss * 1000 + ms)
  else None.

Example date_of_offset : date_of "2024-02-29T14:34:56.7894+02:00" = Some 1709210096789.
Proof. reflexivity. Qed.
Example date_of_iso : date_of (toISOString 1709210096789) = Some 1709210096789.
Proof. reflexivity. Qed.

(** ** JSON values and [Record<string, unknown>] objects *)

Inductive json :=
  | JNull
  | JBool (b : bool)
  | JNum (n : num)
  | JStr (s : string)
  | JArr (l : list json)
  | JObj (fields : list (string * json)).

Abbreviation jobject := (list (string * json)).

Definition jint (z : Z) : json := JNum (num_of_Z z).
Definition jstr_or_null (s : option string) : json :=
  match s with Some s => JStr s | None => JNull end.
(** [...(v ? { k: v } : {})] for a string-valued field. *)
Definition spread_truthy (k : string) (v : option string) : jobject :=
  match v with Some (String _ _ as s) => [(k, JStr s)] | _ => [] end.
