(* ===== verification/Json.v ===== *)
(** * [JSON.stringify]

    The text of a JSON value as the ECMAScript standard writes it: decimal
    numerals of binary64 numbers ([Number::toString]), quoted strings, and
    [undefined]-free objects in field order. *)

From S2P Require Import Prelude Numbers JsRuntime.

(** ** [Number::toString] *)

(** The binary64 number nearest to [s * 10^p], for [0 < s]. *)
Definition num_of_decimal (s p : Z) : num :=
  if 0 <=? p then binary_normalize 53 1024 (s * 10 ^ p) 0 false
  else let '(q, e, l) := SFdiv_core_binary 53 1024 s 0 (10 ^ (- p)) 0 in
       binary_round_aux 53 1024 false q e l.

Definition digits10 (z : Z) : Z := Z.of_nat (String.length (string_of_N (Z.to_N z))).

(** The [k]-digit decimal [s * 10^(n-k)] that reads back as [x = a/b], if
    there is one; when both neighbours do, the closer.  The result is
    [(s, k, n)]. *)
Definition decimal_at (x : num) (a b n k : Z) : option (Z * Z * Z) :=
  let '(a', b') := if k <? n then (a, b * 10 ^ (n - k)) else (a * 10 ^ (k - n), b) in
  let f := a' / b' in
  let low := bool_decide (num_of_decimal f (n - k) = x) && (10 ^ (k - 1) <=? f) in
  let high := bool_decide (num_of_decimal (f + 1) (n - k) = x) in
  let up := if f + 1 =? 10 ^ k then (1, 1, n + 1) else (f + 1, k, n) in
  match low, high with
  | true, true => Some (if 2 * (a' mod b') <=? b' then (f, k, n) else up)
  | true, false => Some (f, k, n)
  | false, true => Some up
  | false, false => None
  end.

Fixpoint shortest (x : num) (a b n k : Z) (fuel : nat) : Z * Z * Z :=
  match decimal_at x a b n k, fuel with
  | Some r, _ => r
  | None, O => (a / b, digits10 (a / b), digits10 (a / b))
  | None, S fuel' => shortest x a b n (k + 1) fuel'
  end.

(** [5e-324] is the least positive number, so [x * 10^324 >= 1]. *)
Definition decimal_of (x : num) (m : positive) (e : Z) : Z * Z * Z :=
  let a := Z.pos m * 2 ^ (Z.max e 0) in
  let b := 2 ^ (Z.max (- e) 0) in
  shortest x a b (digits10 (a * 10 ^ 324 / b) - 324) 1 17.

Fixpoint zeros (n : nat) : string := match n with O => "" | S n' => "0" +:+ zeros n' end.

Definition string_of_nonneg (z : Z) : string := string_of_N (Z.to_N z).

Definition format_decimal (s k n : Z) : string :=
  let d := string_of_nonneg s in
  if (k <=? n) && (n <=? 21) then d +:+ zeros (Z.to_nat (n - k))
  else if (0 <? n) && (n <=? 21) then
    String.substring 0 (Z.to_nat n) d +:+ "." +:+ String.substring (Z.to_nat n) (Z.to_nat (k - n)) d
  else if (-6 <? n) && (n <=? 0) then "0." +:+ zeros (Z.to_nat (- n)) +:+ d
  else
    let e := (if n - 1 <? 0 then "-" else "+") +:+ string_of_nonneg (Z.abs (n - 1)) in
    if k =? 1 then d +:+ "e" +:+ e
    else String.substring 0 1 d +:+ "." +:+ String.substring 1 (Z.to_nat (k - 1)) d +:+ "e" +:+ e.

Definition num_to_string (x : num) : string :=
  match x with
  | S754_zero _ => "0"
  | S754_nan => "NaN"
  | S754_infinity sx => if sx then "-Infinity" else "Infinity"
  | S754_finite sx m e =>
      let '(s, k, n) := decimal_of (S754_finite false m e) m e in
      (if sx then "-" else "") +:+ format_decimal s k n
  end.

Example print_int : num_to_string (num_of_Z (-120)) = "-120".
Proof. vm_compute. reflexivity. Qed.
Example print_tenth : num_to_string (num_lit 1 10) = "0.1".
Proof. vm_compute. reflexivity. Qed.
Example print_sum : num_to_string (num_add (num_lit 1 10) (num_lit 2 10)) = "0.30000000000000004".
Proof. vm_compute. reflexivity. Qed.
Example print_1e23 : num_to_string (num_of_decimal 1 23) = "1e+23".
Proof. vm_compute. reflexivity. Qed.
Example print_1e21 : num_to_string (num_of_decimal 1 21) = "1e+21".
Proof. vm_compute. reflexivity. Qed.
Example print_123e18 : num_to_string (num_of_decimal 123 18) = "123000000000000000000".
Proof. vm_compute. reflexivity. Qed.
Example print_least : num_to_string (S754_finite false 1 (-1074)) = "5e-324".
Proof. vm_compute. reflexivity. Qed.
Example print_greatest :
  num_to_string (S754_finite false (2 ^ 53 - 1) 971) = "1.7976931348623157e+308".
Proof. vm_compute. reflexivity. Qed.
Example print_small : num_to_string (num_of_decimal 15 (-8)) = "1.5e-7".
Proof. vm_compute. reflexivity. Qed.

(** ** Decimal numerals have as many digits as their value allows *)

Lemma of_uint_acc_ge d acc :
  (Pos.to_nat acc * 10 ^ Decimal.nb_digits d <= Pos.to_nat (Pos.of_uint_acc d acc))%nat.
Proof.
  revert acc. induction d as [|d IH|d IH|d IH|d IH|d IH|d IH|d IH|d IH|d IH|d IH]; intros acc; simpl;
    [lia|..]; (etrans; [|apply IH]); generalize (10 ^ Decimal.nb_digits d)%nat; nia.
Qed.

Lemma of_uint_ge d : d ≠ Decimal.Nil -> Decimal.nzhead d = d ->
  (10 ^ (Decimal.nb_digits d - 1) <= N.to_nat (N.of_uint d))%nat.
Proof.
  destruct d as [|d|d|d|d|d|d|d|d|d|d]; intros Hne Hn; [done| |simpl; rewrite Nat.sub_0_r..].
  - exfalso. simpl in Hn. pose proof (DecimalFacts.nb_digits_nzhead d) as Hl. rewrite Hn in Hl. simpl in Hl. lia.
  - pose proof (of_uint_acc_ge d 1). simpl in *. lia.
  - pose proof (of_uint_acc_ge d 2). simpl in *. lia.
  - pose proof (of_uint_acc_ge d 3). simpl in *. lia.
  - pose proof (of_uint_acc_ge d 4). simpl in *. lia.
  - pose proof (of_uint_acc_ge d 5). simpl in *. lia.
  - pose proof (of_uint_acc_ge d 6). simpl in *. lia.
  - pose proof (of_uint_acc_ge d 7). simpl in *. lia.
  - pose proof (of_uint_acc_ge d 8). simpl in *. lia.
  - pose proof (of_uint_acc_ge d 9). simpl in *. lia.
Qed.

Lemma string_of_uint_length d :
  String.length (DecimalString.NilEmpty.string_of_uint d) = Decimal.nb_digits d.
Proof. induction d; simpl; auto. Qed.

Lemma string_of_N_length n : (n < 10 ^ 12)%N -> (String.length (string_of_N n) <= 12)%nat.
Proof.
  intros Hn. unfold string_of_N, DecimalString.NilZero.string_of_uint.
  pose proof (DecimalN.Unsigned.of_to n) as Hv. pose proof (DecimalN.Unsigned.to_of (N.to_uint n)) as Hu.
  rewrite Hv in Hu. set (d := N.to_uint n) in *. unfold Decimal.unorm in Hu.
  destruct (Decimal.nzhead d) eqn:Ez; [by rewrite Hu; simpl; lia| |..];
    (destruct (decide (Decimal.nb_digits d <= 12)%nat) as [|Hgt];
      [rewrite Hu; rewrite Hu in l; simpl in *; rewrite string_of_uint_length; lia|exfalso]).
  all: assert (10 ^ (Decimal.nb_digits d - 1) <= N.to_nat n)%nat as Hge
    by (rewrite <- Hv; apply of_uint_ge; congruence).
  all: assert (10 ^ 12 <= 10 ^ (Decimal.nb_digits d - 1))%nat by (apply Nat.pow_le_mono_r; lia).
  all: assert (N.to_nat (10 ^ 12) = 10 ^ 12)%nat by (by rewrite N2Nat.inj_pow).
  all: lia.
Qed.

Lemma string_length_app s t : String.length (s +:+ t) = (String.length s + String.length t)%nat.
Proof. induction s as [|c s IH]; simpl; [done|]. by rewrite IH. Qed.

Lemma zeros_length k : String.length (zeros k) = k.
Proof. induction k; simpl; auto. Qed.

(** ** Strings *)

Definition hex_digit (n : nat) : Ascii.ascii :=
  Ascii.ascii_of_nat (if (n <? 10)%nat then 48 + n else 87 + n).

Definition quote_char (c : Ascii.ascii) : string :=
  let n := Ascii.nat_of_ascii c in
  if (n =? 34)%nat then "\" +:+ String c ""
  else if (n =? 92)%nat then "\\"
  else if (n =? 8)%nat then "\b"
  else if (n =? 9)%nat then "\t"
  else if (n =? 10)%nat then "\n"
  else if (n =? 12)%nat then "\f"
  else if (n =? 13)%nat then "\r"
  else if (n <? 32)%nat then
    "\u00" +:+ String (hex_digit (n / 16)) (String (hex_digit (n mod 16)) "")
  else String c "".

Fixpoint quote_body (s : string) : string :=
  match s with
  | EmptyString => ""
  | String c s' => quote_char c +:+ quote_body s'
  end.

Definition double_quote : string := Eval cbv in String (Ascii.ascii_of_nat 34) "".
Definition json_quote (s : string) : string := double_quote +:+ quote_body s +:+ double_quote.

(** [JSON.stringify] of a value that is not an object or an array. *)
Definition json_scalar (v : json) : string :=
  match v with
  | JNull => "null"
  | JBool b => if b then "true" else "false"
  | JNum n => if is_finite n then num_to_string n else "null"
  | JStr s => json_quote s
  | JArr _ | JObj _ => ""
  end.

(** [parts.join(",")] *)
Fixpoint join_comma (parts : list string) : string :=
  match parts with
  | [] => ""
  | [s] => s
  | s :: parts' => s +:+ "," +:+ join_comma parts'
  end.

(** ** [JSON.stringify], in the order of the fields *)

Fixpoint jsonStringify (v : json) : string :=
  match v with
  | JArr l => "[" +:+ join_comma (jsonStringify <$> l) +:+ "]"
  | JObj fs =>
      "{" +:+ join_comma ((fun kv => json_quote kv.1 +:+ ":" +:+ jsonStringify kv.2) <$> fs) +:+ "}"
  | _ => json_scalar v
  end.

(** [JSON.stringify(value, null, 2)]: [indent] is the indentation of the line
    the value starts on. *)
Definition new_line : string := String (Ascii.ascii_of_nat 10) "".
Definition json_block (open close indent : string) (parts : list string) : string :=
  match parts with
  | [] => open +:+ close
  | _ =>
      let inner := new_line +:+ indent +:+ "  " in
      open +:+ inner +:+ String.concat ("," +:+ inner) parts +:+ new_line +:+ indent +:+ close
  end.

Fixpoint jsonPretty (indent : string) (v : json) : string :=
  let inner := indent +:+ "  " in
  match v with
  | JArr l => json_block "[" "]" indent (jsonPretty inner <$> l)
  | JObj fs =>
      json_block "{" "}" indent ((fun kv => json_quote kv.1 +:+ ": " +:+ jsonPretty inner kv.2) <$> fs)
  | _ => json_scalar v
  end.

(** ** Finding the JSON in a text *)

Definition char_is (code : nat) (c : Ascii.ascii) : bool := (Ascii.nat_of_ascii c =? code)%nat.

(** [content.match(/\{[\s\S]*\}/)]: from the first brace to the last one. *)
Fixpoint drop_until (code : nat) (l : list Ascii.ascii) : list Ascii.ascii :=
  match l with
  | c :: l' => if char_is code c then l else drop_until code l'
  | [] => []
  end.
Definition json_part (content : string) : option string :=
  match rev (drop_until 125 (rev (drop_until 123 (String.list_ascii_of_string content)))) with
  | [] => None
  | l => Some (String.string_of_list_ascii l)
  end.

(** ** [stableJson] of [packages/db/src/external-actions-repository.ts]

    Fields are sorted by key, by code units as [Array.prototype.sort] compares
    strings; an object has no duplicate keys, so sorting the printed fields by
    key is sorting the keys. *)

Definition field_leb {A} (a b : string * A) : bool := String.leb a.1 b.1.

Fixpoint stableJson (v : json) : string :=
  match v with
  | JArr l => "[" +:+ join_comma (stableJson <$> l) +:+ "]"
  | JObj fs =>
      "{" +:+ join_comma ((fun kv => json_quote kv.1 +:+ ":" +:+ kv.2) <$>
        sort_by field_leb ((fun kv => (kv.1, stableJson kv.2)) <$> fs)) +:+ "}"
  | v => json_scalar v
  end.

Section json_ind.
Context (P : json -> Prop).
Context (Hscalar : forall v, (forall l, v ≠ JArr l) -> (forall fs, v ≠ JObj fs) -> P v).
Context (Harr : forall l, Forall P l -> P (JArr l)).
Context (Hobj : forall fs, Forall (fun kv => P kv.2) fs -> P (JObj fs)).

(** Induction over the elements of arrays and the fields of objects. *)
Lemma json_rect v : P v.
Proof.
  revert v. fix IH 1. intros [|b|n|s|l|fs]; try by apply Hscalar.
  - apply Harr. induction l as [|v l IHl]; constructor; [apply IH|done].
  - apply Hobj. induction fs as [|[k v] fs IHl]; constructor; [apply IH|done].
Qed.
End json_ind.

(** The same JSON value up to the order of the fields of its objects, whose
    keys are distinct. *)
Inductive same_json : json -> json -> Prop :=
  | same_refl v : same_json v v
  | same_arr l l' : Forall2 same_json l l' -> same_json (JArr l) (JArr l')
  | same_obj fs gs fs' :
      NoDup fs.*1 -> Forall2 (fun a b => a.1 = b.1 /\ same_json a.2 b.2) fs gs -> gs ≡ₚ fs' ->
      same_json (JObj fs) (JObj fs').

Lemma ascii_compare_trans a b c :
  Ascii.compare a b = Lt -> Ascii.compare b c = Lt -> Ascii.compare a c = Lt.
Proof. unfold Ascii.compare. rewrite !N.compare_lt_iff. lia. Qed.

Lemma ascii_compare_refl a : Ascii.compare a a = Eq.
Proof. apply N.compare_refl. Qed.

Lemma string_leb_trans a b c : String.leb a b = true -> String.leb b c = true ->
  String.leb a c = true.
Proof.
  unfold String.leb. revert b c. induction a as [|x a IH]; intros [|y b] [|z c]; simpl; try done.
  destruct (Ascii.compare x y) eqn:E1; [apply Ascii.compare_eq_iff in E1 as ->| |done].
  - destruct (Ascii.compare y z); [|done..]. apply IH.
  - intros _. destruct (Ascii.compare y z) eqn:E2; [apply Ascii.compare_eq_iff in E2 as <-| |done].
    + by rewrite E1.
    + by rewrite (ascii_compare_trans x y z).
Qed.

Lemma field_leb_sorted {A} (l : list (string * A)) : StronglySorted field_leb (sort_by field_leb l).
Proof.
  apply sort_by_sorted; unfold field_leb.
  - intros a b. apply String.leb_total.
  - intros a b c. apply string_leb_trans.
Qed.

(** Two readings of the same fields sort to the same list. *)
Lemma sort_fields_unique {A} (l l' : list (string * A)) : NoDup l.*1 -> l ≡ₚ l' ->
  sort_by field_leb l = sort_by field_leb l'.
Proof.
  intros Hnd Hp. apply (StronglySorted_unique_strong field_leb).
  - intros x y Hx Hy H1 H2. apply Is_true_eq_true in H1, H2.
    assert (x.1 = y.1) as Hk by (by apply String.leb_antisym).
    apply elem_of_sort_by in Hx, Hy. rewrite <- Hp in Hy.
    destruct x as [k v], y as [k' w]. simpl in Hk. subst k'.
    apply mapGet_elem in Hx, Hy; [|done..]. congruence.
  - apply field_leb_sorted.
  - apply field_leb_sorted.
  - by rewrite !sort_by_perm.
Qed.

(** [stableJson] does not depend on the order of the fields. *)
Lemma stableJson_same v w : same_json v w -> stableJson v = stableJson w.
Proof.
  revert w. induction v as [v Ha Ho|l IH|fs IH] using json_rect; intros w H.
  - inversion H; subst; [done|by destruct (Ha l)|by destruct (Ho fs)].
  - inversion H as [|l0 l' Hl|]; subst; [done|]. simpl. do 3 f_equal.
    clear H. induction Hl as [|a b l l' Hab Hl IHl]; simpl; [done|].
    apply Forall_cons in IH as [IHa IH]. f_equal; auto.
  - inversion H as [| |fs0 gs fs' Hnd Hf Hp]; subst; [done|]. simpl. do 4 f_equal.
    assert ((fun kv => (kv.1, stableJson kv.2)) <$> fs = (fun kv => (kv.1, stableJson kv.2)) <$> gs)
      as Hfg.
    { clear Hnd Hp H. induction Hf as [|a b fs gs [Hk Hab] Hf IHf]; simpl; [done|].
      apply Forall_cons in IH as [IHa IH]. rewrite Hk. f_equal; [f_equal; auto|auto]. }
    apply sort_fields_unique; [by rewrite <- list_fmap_compose|]. rewrite Hfg. by rewrite Hp.
Qed.
