(* ===== verification/StableId.v ===== *)
(** * Digests and stable identifiers

    [packages/core/src/stable-id.ts].  SHA-256 belongs to [node:crypto]: it is
    the parameter of the class [Sha256], and [Sha256Laws] is what the program
    relies on: a digest is 64 lower-case hexadecimal digits. *)

From S2P Require Import Prelude Numbers JsRuntime Json.

Definition lower_hex (c : Ascii.ascii) : bool :=
  let n := Ascii.nat_of_ascii c in ((48 <=? n) && (n <=? 57) || (97 <=? n) && (n <=? 102))%nat.

Definition all_lower_hex (s : string) : bool := forallb lower_hex (String.list_ascii_of_string s).

(** [createHash("sha256").update(s).digest("hex")] *)
Class Sha256 := { sha256_hex : string -> string }.

Class Sha256Laws (H : Sha256) := {
  sha256_length s : String.length (sha256_hex s) = 64%nat;
  sha256_digits s : all_lower_hex (sha256_hex s) = true;
}.

(** [s.slice(i, j)] for [0 <= i <= j] *)
Definition slice (i j : nat) (s : string) : string := String.substring i (j - i) s.

(** [Number.parseInt(c, 16)] of one character; [None] is [NaN]. *)
Definition parse_hex_digit (c : Ascii.ascii) : option N :=
  let n := Ascii.nat_of_ascii c in
  if ((48 <=? n) && (n <=? 57))%nat then Some (N.of_nat (n - 48))
  else if ((97 <=? n) && (n <=? 102))%nat then Some (N.of_nat (n - 87))
  else if ((65 <=? n) && (n <=? 70))%nat then Some (N.of_nat (n - 55))
  else None.

(** [n.toString(16)] of a number below 16 *)
Definition hex_digit (n : N) : string :=
  String (Ascii.ascii_of_N (if (n <? 10)%N then 48 + n else 87 + n)) "".

(** [hash[16] ?? "8"] *)
Definition char_at (i : nat) (s : string) : Ascii.ascii :=
  nullish (String.get i s) (Ascii.ascii_of_nat 56).

Definition deterministicUuid `{Sha256} (namespace : string) : string :=
  let hash := sha256_hex namespace in
  let variant := N.lor (N.land (default 0%N (parse_hex_digit (char_at 16 hash))) 3) 8 in
  slice 0 8 hash +:+ "-" +:+ slice 8 12 hash +:+ "-" +:+ ("5" +:+ slice 13 16 hash) +:+ "-" +:+
  (hex_digit variant +:+ slice 17 20 hash) +:+ "-" +:+ slice 20 32 hash.

(** ** The shape of a version-5 UUID *)

Definition dash : Ascii.ascii := Eval cbv in Ascii.ascii_of_nat 45.

(** What the [i]th character of a version-5 UUID of the RFC 4122 variant may be. *)
Definition uuid5_char (i : nat) (c : Ascii.ascii) : bool :=
  if bool_decide (i ∈ [8; 13; 18; 23]%nat) then Ascii.eqb c dash
  else if Nat.eqb i 14 then Ascii.eqb c (Ascii.ascii_of_nat 53)
  else if Nat.eqb i 19 then
    bool_decide (Ascii.nat_of_ascii c ∈ [56; 57; 97; 98]%nat)
  else lower_hex c.

Fixpoint uuid5_from (i : nat) (s : string) : bool :=
  match s with
  | EmptyString => Nat.eqb i 36
  | String c s' => uuid5_char i c && uuid5_from (S i) s'
  end.

Lemma string_cons_of_length k s : String.length s = S k ->
  exists c t, s = String c t /\ String.length t = k.
Proof. destruct s as [|c t]; [done|]. intros [= H]. by exists c, t. Qed.

(** The four variant digits. *)
Lemma variant_digit n : exists c, hex_digit (N.lor (N.land n 3) 8) = String c "" /\
  Ascii.nat_of_ascii c ∈ [56; 57; 97; 98]%nat.
Proof.
  assert (N.land n 3 = n mod 4)%N as -> by (apply (N.land_ones n 2)).
  assert (n mod 4 < 4)%N as Hlt by (by apply N.mod_lt).
  destruct (n mod 4)%N as [|p]; [by eexists; split; [reflexivity|left]|].
  destruct p as [[p|p|]|[p|p|]|]; try lia; eexists; (split; [reflexivity|]).
  - right. right. right. left.
  - right. right. left.
  - right. left.
Qed.

Section theorems.
Context `{H : Sha256} {HL : Sha256Laws H}.

(** Every id [deterministicUuid] makes has the shape of a version-5 UUID
    of the RFC 4122 variant: 36 characters, dashes at 8, 13, 18 and 23, the
    version digit 5, a variant digit among 8, 9, a and b, and lower-case
    hexadecimal digits elsewhere. *)
Theorem deterministic_uuid_shape namespace : uuid5_from 0 (deterministicUuid namespace) = true.
Proof.
  unfold deterministicUuid, slice. pose proof (sha256_length namespace) as Hl.
  pose proof (sha256_digits namespace) as Hd. revert Hl Hd. generalize (sha256_hex namespace) as h.
  intros h Hl Hd. cbv zeta.
  destruct (variant_digit (default 0%N (parse_hex_digit (char_at 16 h)))) as (v & -> & Hv).
  do 64 (apply string_cons_of_length in Hl as (? & ? & -> & Hl)).
  unfold all_lower_hex in Hd. cbn [String.list_ascii_of_string forallb] in Hd.
  repeat (apply andb_true_iff in Hd as [? Hd]).
  cbn -[lower_hex uuid5_char].
  repeat (apply andb_true_intro; split); try done.
  by apply bool_decide_eq_true.
Qed.
End theorems.

(** ** A digest of the right shape, for the witnesses *)

Module ShaExample.
(** The low four bits of each of the first 64 characters, padded. *)
Fixpoint nibbles (k : nat) (s : string) : string :=
  match k with
  | O => ""
  | S k' =>
      match s with
      | EmptyString => String (Ascii.ascii_of_nat 48) (nibbles k' "")
      | String c s' => hex_digit (N.land (Ascii.N_of_ascii c) 15) +:+ nibbles k' s'
      end
  end.

#[export] Instance example_sha : Sha256 := {| sha256_hex := nibbles 64 |}.

Lemma nibble_digit n : exists c, hex_digit (N.land n 15) = String c "" /\ lower_hex c = true.
Proof.
  assert (N.land n 15 = n mod 16)%N as -> by (apply (N.land_ones n 4)).
  assert (n mod 16 < 16)%N as Hlt by (by apply N.mod_lt).
  eexists. split; [reflexivity|].
  destruct (n mod 16)%N as [|[[[[]|[]|]|[[]|[]|]|]|[[[]|[]|]|[[]|[]|]|]|]]; try reflexivity; lia.
Qed.

Lemma nibbles_spec k s : String.length (nibbles k s) = k /\ all_lower_hex (nibbles k s) = true.
Proof.
  revert s. induction k as [|k IH]; intros s; [done|]. destruct s as [|c s]; cbn [nibbles].
  - destruct (IH "") as [Hl Hd]. split; [exact (f_equal S Hl)|exact Hd].
  - destruct (nibble_digit (Ascii.N_of_ascii c)) as (d & -> & Hx), (IH s) as [Hl Hd].
    split; [exact (f_equal S Hl)|].
    change (lower_hex d && all_lower_hex (nibbles k s) = true). by rewrite Hx, Hd.
Qed.

#[export] Instance example_sha_laws : Sha256Laws example_sha.
Proof. split; intros s; apply (nibbles_spec 64 s). Qed.
End ShaExample.

Lemma deterministic_uuid_shape_witness :
  uuid5_from 0 (deterministicUuid (H := ShaExample.example_sha) "tenant:signal:42") = true.
Proof. exact (deterministic_uuid_shape (HL := ShaExample.example_sha_laws) "tenant:signal:42"). Defined.
