(* ===== verification/Domain.v ===== *)
(** * The closed vocabularies of the control plane

    One inductive type per [as const] array of [packages/db/src/schema.ts]
    (and the two enums of [packages/core/src/workflow-state.ts]), with its
    decidable equality and its database spelling. *)

From S2P Require Import Prelude.

Inductive WorkflowRunState :=
  | run_requested
  | run_in_progress
  | run_completed
  | run_failed.

#[export] Instance WorkflowRunState_eq_dec : EqDecision WorkflowRunState.
Proof. solve_decision. Defined.

Definition WorkflowRunState_str (x : WorkflowRunState) : string :=
  match x with
  | run_requested => "requested"
  | run_in_progress => "in_progress"
  | run_completed => "completed"
  | run_failed => "failed"
  end.

Inductive CallbackType :=
  | cb_progress
  | cb_completed
  | cb_failed.

#[export] Instance CallbackType_eq_dec : EqDecision CallbackType.
Proof. solve_decision. Defined.

Definition CallbackType_str (x : CallbackType) : string :=
  match x with
  | cb_progress => "progress"
  | cb_completed => "completed"
  | cb_failed => "failed"
  end.

Inductive SignalType :=
  | sig_competitive
  | sig_community
  | sig_icp
  | sig_product
  | sig_market
  | sig_internal.

#[export] Instance SignalType_eq_dec : EqDecision SignalType.
Proof. solve_decision. Defined.

Definition SignalType_str (x : SignalType) : string :=
  match x with
  | sig_competitive => "competitive"
  | sig_community => "community"
  | sig_icp => "icp"
  | sig_product => "product"
  | sig_market => "market"
  | sig_internal => "internal"
  end.

Inductive ExperimentStatus :=
  | exp_draft
  | exp_running
  | exp_paused
  | exp_concluded
  | exp_abandoned
  | exp_promoted
  | exp_rolled_back.

#[export] Instance ExperimentStatus_eq_dec : EqDecision ExperimentStatus.
Proof. solve_decision. Defined.

Definition ExperimentStatus_str (x : ExperimentStatus) : string :=
  match x with
  | exp_draft => "draft"
  | exp_running => "running"
  | exp_paused => "paused"
  | exp_concluded => "concluded"
  | exp_abandoned => "abandoned"
  | exp_promoted => "promoted"
  | exp_rolled_back => "rolled_back"
  end.

Inductive ExperimentWinner :=
  | win_a
  | win_b
  | win_inconclusive.

#[export] Instance ExperimentWinner_eq_dec : EqDecision ExperimentWinner.
Proof. solve_decision. Defined.

Definition ExperimentWinner_str (x : ExperimentWinner) : string :=
  match x with
  | win_a => "a"
  | win_b => "b"
  | win_inconclusive => "inconclusive"
  end.

Inductive MetricDirection :=
  | dir_increase
  | dir_decrease.

#[export] Instance MetricDirection_eq_dec : EqDecision MetricDirection.
Proof. solve_decision. Defined.

Definition MetricDirection_str (x : MetricDirection) : string :=
  match x with
  | dir_increase => "increase"
  | dir_decrease => "decrease"
  end.

Inductive ExperimentVariant :=
  | var_a
  | var_b.

#[export] Instance ExperimentVariant_eq_dec : EqDecision ExperimentVariant.
Proof. solve_decision. Defined.

Definition ExperimentVariant_str (x : ExperimentVariant) : string :=
  match x with
  | var_a => "a"
  | var_b => "b"
  end.

Inductive LearningProposalStatus :=
  | prop_awaiting_evidence
  | prop_evaluating
  | prop_requires_approval
  | prop_approved
  | prop_rejected
  | prop_promoted
  | prop_rolled_back.

#[export] Instance LearningProposalStatus_eq_dec : EqDecision LearningProposalStatus.
Proof. solve_decision. Defined.

Definition LearningProposalStatus_str (x : LearningProposalStatus) : string :=
  match x with
  | prop_awaiting_evidence => "awaiting_evidence"
  | prop_evaluating => "evaluating"
  | prop_requires_approval => "requires_approval"
  | prop_approved => "approved"
  | prop_rejected => "rejected"
  | prop_promoted => "promoted"
  | prop_rolled_back => "rolled_back"
  end.

Inductive ChangeRisk :=
  | risk_low
  | risk_medium
  | risk_high
  | risk_critical.

#[export] Instance ChangeRisk_eq_dec : EqDecision ChangeRisk.
Proof. solve_decision. Defined.

Definition ChangeRisk_str (x : ChangeRisk) : string :=
  match x with
  | risk_low => "low"
  | risk_medium => "medium"
  | risk_high => "high"
  | risk_critical => "critical"
  end.

Inductive LearningDecisionKind :=
  | dec_continue_experiment
  | dec_reject
  | dec_requires_approval
  | dec_promote.

#[export] Instance LearningDecisionKind_eq_dec : EqDecision LearningDecisionKind.
Proof. solve_decision. Defined.

Definition LearningDecisionKind_str (x : LearningDecisionKind) : string :=
  match x with
  | dec_continue_experiment => "continue_experiment"
  | dec_reject => "reject"
  | dec_requires_approval => "requires_approval"
  | dec_promote => "promote"
  end.

Inductive RuntimeHealthState :=
  | hs_healthy
  | hs_degraded
  | hs_recovering
  | hs_quarantined.

#[export] Instance RuntimeHealthState_eq_dec : EqDecision RuntimeHealthState.
Proof. solve_decision. Defined.

Definition RuntimeHealthState_str (x : RuntimeHealthState) : string :=
  match x with
  | hs_healthy => "healthy"
  | hs_degraded => "degraded"
  | hs_recovering => "recovering"
  | hs_quarantined => "quarantined"
  end.

Inductive HealingAction :=
  | act_none
  | act_resume
  | act_retry_with_backoff
  | act_use_fallback
  | act_rollback
  | act_quarantine_and_escalate.

#[export] Instance HealingAction_eq_dec : EqDecision HealingAction.
Proof. solve_decision. Defined.

Definition HealingAction_str (x : HealingAction) : string :=
  match x with
  | act_none => "none"
  | act_resume => "resume"
  | act_retry_with_backoff => "retry_with_backoff"
  | act_use_fallback => "use_fallback"
  | act_rollback => "rollback"
  | act_quarantine_and_escalate => "quarantine_and_escalate"
  end.

Inductive IncidentSeverity :=
  | sev_low
  | sev_medium
  | sev_high
  | sev_critical.

#[export] Instance IncidentSeverity_eq_dec : EqDecision IncidentSeverity.
Proof. solve_decision. Defined.

Definition IncidentSeverity_str (x : IncidentSeverity) : string :=
  match x with
  | sev_low => "low"
  | sev_medium => "medium"
  | sev_high => "high"
  | sev_critical => "critical"
  end.

Inductive IncidentStatus :=
  | inc_open
  | inc_acknowledged
  | inc_mitigated
  | inc_resolved.

#[export] Instance IncidentStatus_eq_dec : EqDecision IncidentStatus.
Proof. solve_decision. Defined.

Definition IncidentStatus_str (x : IncidentStatus) : string :=
  match x with
  | inc_open => "open"
  | inc_acknowledged => "acknowledged"
  | inc_mitigated => "mitigated"
  | inc_resolved => "resolved"
  end.

Inductive ExternalActionState :=
  | ea_requested
  | ea_dispatching
  | ea_retry_scheduled
  | ea_dispatched
  | ea_completed
  | ea_failed.

#[export] Instance ExternalActionState_eq_dec : EqDecision ExternalActionState.
Proof. solve_decision. Defined.

Definition ExternalActionState_str (x : ExternalActionState) : string :=
  match x with
  | ea_requested => "requested"
  | ea_dispatching => "dispatching"
  | ea_retry_scheduled => "retry_scheduled"
  | ea_dispatched => "dispatched"
  | ea_completed => "completed"
  | ea_failed => "failed"
  end.
