(* ===== verification/Zod.v ===== *)
(** * Schema validation

    The [zod] schemas of the repositories, as parsers into [result].  The
    UUID format is the validation library's own: it is the parameter
    [zod_uuid] of the class [Zod], and what the code relies on about it (a
    UUID has 36 characters, none of them a colon or a dot) is the class [ZodLaws].
    The [typeof] tests of zod are discharged by the types of the model. *)

From S2P Require Import Prelude Numbers JsRuntime.

Class Zod := { zod_uuid : string -> bool }.

Class ZodLaws (Z : Zod) := {
  zod_uuid_no_colon s : zod_uuid s = true -> no_colon s = true;
  zod_uuid_no_dot s : zod_uuid s = true -> dot ∉ String.list_ascii_of_string s;
  zod_uuid_no_space s : zod_uuid s = true ->
    forallb (fun c => negb (is_space c)) (String.list_ascii_of_string s) = true;
  zod_uuid_length s : zod_uuid s = true -> String.length s = 36%nat;
}.

(** ** Schema combinators *)

(** A refinement that fails the parse when the test does not hold. *)
Definition refine {A} (p : A -> bool) (a : A) : result A :=
  if p a then Ok a else Err ZodError.

(** [.optional()] and [.nullable()] *)
Definition zod_optional {A} (p : A -> result A) (o : option A) : result (option A) :=
  match o with Some a => a' ← p a; mret (Some a') | None => mret None end.

(** [z.array(p)] *)
Fixpoint zod_array {A} (p : A -> result A) (l : list A) : result (list A) :=
  match l with
  | [] => mret []
  | a :: l' => a' ← p a; l'' ← zod_array p l'; mret (a' :: l'')
  end.

(** [rows.map(parse)]: the first row that does not parse throws. *)
Fixpoint zod_array_map {A B} (p : A -> result B) (l : list A) : result (list B) :=
  match l with
  | [] => mret []
  | a :: l' => b ← p a; bs ← zod_array_map p l'; mret (b :: bs)
  end.

Definition length_in (lo hi : nat) (s : string) : bool :=
  ((lo <=? String.length s) && (String.length s <=? hi))%nat.

(** [z.string().min(lo).max(hi)] *)
Definition bounded_text (lo hi : nat) : string -> result string := refine (length_in lo hi).
(** [z.string().min(1)] *)
Definition min1_text : string -> result string := refine (fun s => (1 <=? String.length s)%nat).
(** [z.string().trim().min(1)] *)
Definition nonEmptyText (s : string) : result string := min1_text (trim s).
(** [z.number().min(lo).max(hi)], which also rejects [NaN] *)
Definition number_in (lo hi : num) : num -> result num :=
  refine (fun x => num_leb lo x && num_leb x hi).
(** [z.number().min(0).max(1)] *)
Definition unit_number : num -> result num := number_in num_zero num_one.
(** [z.number()] *)
Definition any_number : num -> result num := refine (fun x => negb (is_nan x)).
(** [z.number().finite()] *)
Definition finite_number : num -> result num := refine is_finite.
(** [z.number().nonnegative()] and [z.number().positive()] *)
Definition nonneg_number : num -> result num := refine (num_leb num_zero).
Definition positive_number : num -> result num := refine (num_ltb num_zero).
(** [z.number().int().nonnegative()] and [z.number().int().positive()] *)
Definition nonneg_int : Z -> result Z := refine (Z.leb 0).
Definition positive_int : Z -> result Z := refine (Z.ltb 0).
Definition int_in (lo hi : Z) : Z -> result Z := refine (fun n => (lo <=? n) && (n <=? hi)).

Section uuid.
Context `{Zod}.

(** [z.string().uuid()], the [tenantIdSchema] of [contracts.ts] *)
Definition uuid : string -> result string := refine zod_uuid.
Definition tenantIdSchema : string -> result string := uuid.
End uuid.

(** ** Parsers that accept their own output *)

Class IdemParse {A} (p : A -> result A) := idem_parse a b : p a = Ok b -> p b = Ok b.

#[export] Instance refine_idem {A} (p : A -> bool) : IdemParse (refine p).
Proof. unfold refine. intros a b. destruct (p a) eqn:E; intros; simplify_eq. by rewrite E. Qed.

#[export] Instance nonEmptyText_idem : IdemParse nonEmptyText.
Proof.
  intros a b H. unfold nonEmptyText, min1_text, refine in *.
  destruct (1 <=? _)%nat eqn:E; simplify_eq. by rewrite trim_idem, E.
Qed.

#[export] Instance zod_optional_idem {A} (p : A -> result A) `{!IdemParse p} :
  IdemParse (zod_optional p).
Proof.
  intros [a|] b; msimpl; [|by intros [= <-]].
  destruct (p a) as [a'|] eqn:E; intros [= <-].
  simpl. by rewrite (idem_parse _ _ E).
Qed.

#[export] Instance zod_array_idem {A} (p : A -> result A) `{!IdemParse p} :
  IdemParse (zod_array p).
Proof.
  intros l. induction l as [|a l IH]; msimpl; intros b; [by intros [= <-]|].
  destruct (p a) as [a'|] eqn:E; [|done].
  destruct (zod_array p l) as [l'|] eqn:El; [|done]. intros [= <-].
  simpl. rewrite (idem_parse _ _ E). simpl. by rewrite (IH _ eq_refl).
Qed.

#[export] Hint Unfold bounded_text min1_text number_in unit_number any_number finite_number
  nonneg_number positive_number nonneg_int positive_int int_in uuid tenantIdSchema : growth.

#[export] Instance unit_number_idem : IdemParse unit_number := refine_idem _.
#[export] Instance finite_number_idem : IdemParse finite_number := refine_idem _.
#[export] Instance nonneg_number_idem : IdemParse nonneg_number := refine_idem _.
#[export] Instance any_number_idem : IdemParse any_number := refine_idem _.
#[export] Instance min1_text_idem : IdemParse min1_text := refine_idem _.
#[export] Instance bounded_text_idem lo hi : IdemParse (bounded_text lo hi) := refine_idem _.
#[export] Instance nonneg_int_idem : IdemParse nonneg_int := refine_idem _.
#[export] Instance positive_int_idem : IdemParse positive_int := refine_idem _.
#[export] Instance uuid_idem `{Zod} : IdemParse uuid := refine_idem _.
#[export] Instance tenantIdSchema_idem `{Zod} : IdemParse tenantIdSchema := refine_idem _.

Lemma refine_ok {A} (p : A -> bool) a b : refine p a = Ok b <-> p a = true /\ b = a.
Proof. unfold refine. case_match; naive_solver. Qed.

Lemma zod_array_map_ok {A} (p : A -> result A) f (l : list A) :
  (forall a, a ∈ l -> p (f a) = Ok (f a)) -> zod_array_map (fun a => p (f a)) l = Ok (f <$> l).
Proof.
  induction l as [|a l IH]; intros Hp; [done|]. simpl. rewrite Hp by (by left). simpl.
  rewrite IH; [done|]. intros b Hb. apply Hp. by right.
Qed.

Lemma zod_array_map_id {A} (p : A -> result A) (l : list A) :
  (forall a, a ∈ l -> p a = Ok a) -> zod_array_map p l = Ok l.
Proof. intros Hp. rewrite <- (list_fmap_id l) at 2. by apply (zod_array_map_ok p id). Qed.

Lemma min1_text_ok s t : min1_text s = Ok t <-> s ≠ "" /\ t = s.
Proof. unfold min1_text. rewrite refine_ok. destruct s; simpl; naive_solver. Qed.

Lemma optional_min1 o : o ≠ Some "" -> zod_optional min1_text o = Ok o.
Proof.
  destruct o as [s|]; [|done]. intros Hs. simpl. unfold mbind, result_bind.
  by rewrite (proj2 (min1_text_ok s s)) by (split; [congruence|done]).
Qed.

Lemma tenantIdSchema_ok `{Zod} s t : tenantIdSchema s = Ok t <-> zod_uuid s = true /\ t = s.
Proof. apply refine_ok. Qed.

Lemma tenantIdSchema_same `{Zod} s t : tenantIdSchema s = Ok t -> t = s.
Proof. rewrite tenantIdSchema_ok. naive_solver. Qed.

(** Solve [IdemParse] for a record schema written as a chain of field parsers
    that ends by rebuilding the record: each field was accepted once, so it
    is accepted again. *)
Ltac solve_idem_record :=
  let r := fresh "r" in let r' := fresh "r'" in let H := fresh "H" in
  intros r r' H; cbv beta delta [mret result_ret mbind result_bind] in H;
  repeat match type of H with
  | context [match ?p ?a with Ok _ => _ | Err _ => _ end] =>
      let E := fresh "E" in destruct (p a) eqn:E; [|discriminate H]
  end;
  injection H as <-; cbn;
  repeat match goal with
  | E : ?p ?a = Ok ?b |- _ =>
      first [constr_eq a b; fail 1 | apply (idem_parse a b) in E]
  end;
  cbv beta delta [mret result_ret mbind result_bind];
  repeat match goal with E : ?p ?b = Ok ?b |- context [?p ?b] => rewrite E end;
  reflexivity.

(** ** Parsers that return their input *)

Class SameParse {A} (p : A -> result A) := same_parse a b : p a = Ok b -> b = a.

#[export] Instance refine_same {A} (p : A -> bool) : SameParse (refine p).
Proof. intros a b [_ ->]%refine_ok. done. Qed.
#[export] Instance zod_optional_same {A} (p : A -> result A) `{!SameParse p} :
  SameParse (zod_optional p).
Proof.
intros [a|] b; msimpl; [|by intros [= <-]].
destruct (p a) as [a'|] eqn:E; intros [= <-]. by rewrite (same_parse _ _ E).
Qed.

#[export] Instance unit_number_same : SameParse unit_number := refine_same _.
#[export] Instance finite_number_same : SameParse finite_number := refine_same _.
#[export] Instance nonneg_number_same : SameParse nonneg_number := refine_same _.
#[export] Instance any_number_same : SameParse any_number := refine_same _.
#[export] Instance min1_text_same : SameParse min1_text := refine_same _.
#[export] Instance bounded_text_same lo hi : SameParse (bounded_text lo hi) := refine_same _.
#[export] Instance nonneg_int_same : SameParse nonneg_int := refine_same _.
#[export] Instance positive_int_same : SameParse positive_int := refine_same _.
#[export] Instance int_in_same lo hi : SameParse (int_in lo hi) := refine_same _.
#[export] Instance uuid_same `{Zod} : SameParse uuid := refine_same _.
#[export] Instance tenantIdSchema_same' `{Zod} : SameParse tenantIdSchema := refine_same _.

Lemma nonEmptyText_ok s t : nonEmptyText s = Ok t <-> trim s ≠ "" /\ t = trim s.
Proof. unfold nonEmptyText. apply min1_text_ok. Qed.

Lemma uuid_ok `{Zod} s t : uuid s = Ok t <-> zod_uuid s = true /\ t = s.
Proof. apply refine_ok. Qed.

Lemma uuid_nonempty `{Z : Zod} {ZL : ZodLaws Z} s : zod_uuid s = true -> s ≠ "".
Proof. intros Hs ->. by apply zod_uuid_length in Hs. Qed.

Lemma uuid_trim `{Z : Zod} {ZL : ZodLaws Z} s : zod_uuid s = true -> trim s = s.
Proof. intros Hs. by apply trim_none, zod_uuid_no_space. Qed.

(** [zod_optional nonEmptyText] trims what is there. *)
Lemma optional_text_ok o o' : zod_optional nonEmptyText o = Ok o' -> o' = trim <$> o.
Proof.
destruct o as [s|]; msimpl; [|by intros [= <-]].
destruct (nonEmptyText s) eqn:E; [|done]. intros [= <-]. by apply nonEmptyText_ok in E as [_ ->].
Qed.

Lemma array_text_ok l l' : zod_array nonEmptyText l = Ok l' -> l' = trim <$> l.
Proof.
  revert l'. induction l as [|s l IH]; msimpl; intros l'; [by intros [= <-]|].
  destruct (nonEmptyText s) eqn:E; [|done]. destruct (zod_array nonEmptyText l) eqn:El; [|done].
  intros [= <-]. apply nonEmptyText_ok in E as [_ ->]. by rewrite (IH _ eq_refl).
Qed.

(** Open the success of a schema: every field parser succeeded, and its value
    is the input's, trimmed where the schema trims. *)
Ltac schema_fields H :=
  cbv beta delta [mret result_ret mbind result_bind] in H;
  repeat match type of H with
  | context [match ?p ?a with Ok _ => _ | Err _ => _ end] =>
      let E := fresh "E" in let b := fresh "b" in let F := fresh "F" in
      destruct (p a) as [b|] eqn:E; [|discriminate H];
      first
        [ pose proof (same_parse _ _ E) as F; subst b
        | pose proof (proj2 (proj1 (nonEmptyText_ok _ _) E)) as F; subst b
        | pose proof (optional_text_ok _ _ E) as F; subst b
        | pose proof (array_text_ok _ _ E) as F; subst b
        | idtac ]
  end;
  injection H as H.

(** Invert the success of a schema written as a chain of refinements: every
    test held and every value came back unchanged. *)
Ltac schema_inv :=
  unfold bounded_text, min1_text, unit_number, number_in, any_number, finite_number,
    nonneg_number, positive_number, nonneg_int, positive_int, int_in, uuid, tenantIdSchema,
    refine in *;
  msimpl; repeat (case_match; try discriminate); simplify_eq/=; b2p; destruct_and?.

(** *** A concrete UUID test, to instantiate the class in witnesses *)

Module ZodExample.
Definition is_hex (c : Ascii.ascii) : bool :=
  let n := Ascii.nat_of_ascii c in
  ((48 <=? n) && (n <=? 57) || (65 <=? n) && (n <=? 70) || (97 <=? n) && (n <=? 102))%nat.

(** [i] characters read so far; the dashes sit at 8, 13, 18 and 23. *)
Fixpoint uuid_from (i : nat) (s : string) : bool :=
  match s with
  | EmptyString => Nat.eqb i 36
  | String c s' =>
      (if bool_decide (i ∈ [8; 13; 18; 23]%nat) then Nat.eqb (Ascii.nat_of_ascii c) 45
       else is_hex c) && uuid_from (S i) s'
  end.

#[export] Instance zod_example : Zod := {| zod_uuid := uuid_from 0 |}.

Lemma uuid_from_shape i s : uuid_from i s = true ->
  no_colon s = true /\ dot ∉ String.list_ascii_of_string s /\
  forallb (fun c => negb (is_space c)) (String.list_ascii_of_string s) = true /\ (i + String.length s = 36)%nat.
Proof.
  revert i. induction s as [|c s IH]; intros i; simpl; [rewrite Nat.eqb_eq; intros Hi; split_and!; [done|apply not_elem_of_nil|done|lia]|].
  intros [Hc Hs]%andb_true_iff. destruct (IH _ Hs) as (Hn & Hd & Hw & Hl). split_and!; [| | |lia].
  - rewrite Hn, andb_true_r, negb_true_iff. apply Ascii.eqb_neq. intros ->. revert Hc. by case_match.
  - apply not_elem_of_cons. split; [|done]. intros <-. revert Hc. by case_match.
  - rewrite Hw, andb_true_r. revert Hc. case_bool_decide.
    + intros Hc%Nat.eqb_eq. unfold is_space. by rewrite Hc.
    + unfold is_hex, is_space. intros Hc. apply negb_true_iff. apply not_true_iff_false. intros Hsp.
      rewrite !orb_true_iff, !andb_true_iff, !Nat.leb_le, !Nat.eqb_eq in *. lia.
Qed.

#[export] Instance zod_example_laws : ZodLaws zod_example.
Proof.
  split; intros s Hs; destruct (uuid_from_shape 0 s Hs) as (? & ? & ? & ?); done || lia.
Qed.

Definition tenant : string := "7c9e6679-7425-40de-944b-e07fc1f90ae7".
Definition other_tenant : string := "16fd2706-8baf-433b-82eb-8c7fada847da".
Definition id1 : string := "3f333df6-90a4-4fda-8dd3-9485d27cee36".
Definition id2 : string := "9a8b7c6d-5e4f-4a3b-8c2d-1e0f9a8b7c6d".
Definition id3 : string := "0b1c2d3e-4f50-4617-8293-a4b5c6d7e8f9".
Definition env1 : call_env := {| env_now := 1000; env_uuid := id1; env_serial := 7 |}.
Definition env2 : call_env := {| env_now := 2000; env_uuid := id2; env_serial := 8 |}.
Definition env3 : call_env := {| env_now := 3000; env_uuid := id3; env_serial := 9 |}.
End ZodExample.
