(* ===== verification/ZodJson.v ===== *)
(** * Schemas over untyped JSON

    The [zod] combinators the integration contracts are written with, as
    parsers of a property that may be missing.  The URL, e-mail and date-time
    formats are the validation library's own: they are the parameters of the
    class [ZodFormats].  [IdemSchema] is the round trip a schema is used
    with: what it produced it accepts again, unchanged. *)

From S2P Require Import Prelude Numbers JsRuntime Zod.

Class ZodFormats := {
  zod_url : string -> bool;
  zod_email : string -> bool;
  zod_datetime_offset : string -> bool;
  zod_datetime : string -> bool;
}.

(** [None] is a missing property. *)
Abbreviation schema := (option json -> result (option json)).

Definition j_refine (p : json -> bool) : schema := fun v =>
  match v with
  | Some j => if p j then Ok (Some j) else Err ZodError
  | None => Err ZodError
  end.

Definition j_text (p : string -> bool) : schema :=
  j_refine (fun j => match j with JStr s => p s | _ => false end).
(** [z.string().min(lo).max(hi)] *)
Definition j_string (lo hi : nat) : schema := j_text (length_in lo hi).
(** [z.string().min(lo)] *)
Definition j_string_min (lo : nat) : schema := j_text (fun s => lo <=? String.length s)%nat.
Definition j_uuid `{Zod} : schema := j_text zod_uuid.
Definition j_url `{ZodFormats} : schema := j_text zod_url.
Definition j_email `{ZodFormats} : schema := j_text zod_email.
Definition j_datetime `{ZodFormats} : schema := j_text zod_datetime_offset.
(** [z.enum(values)] and [z.literal(value)] *)
Definition j_enum (values : list string) : schema := j_text (fun s => bool_decide (s ∈ values)).
Definition j_literal (value : string) : schema := j_text (String.eqb value).
Definition j_boolean : schema := j_refine (fun j => match j with JBool _ => true | _ => false end).
Definition j_number (p : num -> bool) : schema :=
  j_refine (fun j => match j with JNum n => p n | _ => false end).
(** [z.record(z.unknown())] *)
Definition j_record_unknown : schema := j_refine (fun j => match j with JObj _ => true | _ => false end).

(** [p.optional()] and [p.default(d)] *)
Definition j_optional (p : schema) : schema := fun v => match v with None => Ok None | Some _ => p v end.
Definition j_default (d : json) (p : schema) : schema := fun v =>
  match v with None => Ok (Some d) | Some _ => p v end.

Fixpoint j_elements (p : schema) (l : list json) : result (list json) :=
  match l with
  | [] => mret []
  | v :: l' =>
      w ← p (Some v); l'' ← j_elements p l';
      mret (match w with Some x => x :: l'' | None => l'' end)
  end.

(** [z.array(p).min(lo)] *)
Definition j_array (lo : nat) (p : schema) : schema := fun v =>
  match v with
  | Some (JArr l) =>
      if (lo <=? length l)%nat then l' ← j_elements p l; mret (Some (JArr l')) else Err ZodError
  | _ => Err ZodError
  end.

(** [z.record(p)] *)
Fixpoint j_values (p : schema) (fs : jobject) : result jobject :=
  match fs with
  | [] => mret []
  | (k, v) :: fs' =>
      w ← p (Some v); fs'' ← j_values p fs';
      mret (match w with Some x => (k, x) :: fs'' | None => fs'' end)
  end.
Definition j_record (p : schema) : schema := fun v =>
  match v with
  | Some (JObj fs) => fs' ← j_values p fs; mret (Some (JObj fs'))
  | _ => Err ZodError
  end.

(** The declared properties, in the order of the schema; others are dropped. *)
Fixpoint j_fields (shape : list (string * schema)) (fs : jobject) : result jobject :=
  match shape with
  | [] => mret []
  | (k, p) :: shape' =>
      w ← p (mapGet k fs); rest ← j_fields shape' fs;
      mret (match w with Some x => (k, x) :: rest | None => rest end)
  end.

(** [z.object(shape)] *)
Definition j_object (shape : list (string * schema)) : schema := fun v =>
  match v with
  | Some (JObj fs) => fs' ← j_fields shape fs; mret (Some (JObj fs'))
  | _ => Err ZodError
  end.

(** ** Properties read into typed values *)

(** [z.string().trim().min(1).max(hi)] of a property *)
Definition text_field (hi : nat) (v : option json) : result string :=
  match v with Some (JStr s) => bounded_text 1 hi (trim s) | _ => Err ZodError end.
(** [z.enum(values)] of a property, as the member it names *)
Definition enum_field {A} (values : list A) (str : A -> string) (v : option json) : result A :=
  match v with
  | Some (JStr s) =>
      match List.find (fun a => String.eqb (str a) s) values with Some a => Ok a | None => Err ZodError end
  | _ => Err ZodError
  end.
Definition optional_field {A} (p : option json -> result A) (v : option json) : result (option A) :=
  match v with None => mret None | Some _ => a ← p v; mret (Some a) end.
(** [z.record(z.unknown())] of a property *)
Definition record_field (v : option json) : result jobject :=
  match v with Some (JObj fs) => Ok fs | _ => Err ZodError end.
(** [z.number().int().nonnegative()] of a property *)
Definition count_field (v : option json) : result Z :=
  match v with
  | Some (JNum n) => match num_to_Z n with Some z => nonneg_int z | None => Err ZodError end
  | _ => Err ZodError
  end.
(** [z.union([z.string().min(1), z.number().int().nonnegative()])] of a property *)
Definition sequence_field (v : option json) : result json :=
  match v with
  | Some (JStr s) => s' ← min1_text s; mret (JStr s')
  | Some (JNum n) => count_field v;; mret (JNum n)
  | _ => Err ZodError
  end.
(** [z.string()] of a property, with the other tests of its schema *)
Definition string_field (p : string -> result string) (v : option json) : result string :=
  match v with Some (JStr s) => p s | _ => Err ZodError end.
(** [z.number()] of a property *)
Definition number_field (p : num -> result num) (v : option json) : result num :=
  match v with Some (JNum n) => p n | _ => Err ZodError end.

(** [z.boolean()] of a property *)
Definition boolean_field (v : option json) : result bool :=
  match v with Some (JBool b) => Ok b | _ => Err ZodError end.
(** [p.default(d)] and [p.nullable().optional()] *)
Definition default_field {A} (d : A) (p : option json -> result A) (v : option json) : result A :=
  match v with None => Ok d | Some _ => p v end.
Definition nullish_field {A} (p : option json -> result A) (v : option json) : result (option A) :=
  match v with None | Some JNull => mret None | Some _ => a ← p v; mret (Some a) end.
(** [z.array(p)] of a property *)
Definition array_field {A} (p : json -> result A) (v : option json) : result (list A) :=
  match v with Some (JArr l) => zod_array_map p l | _ => Err ZodError end.
(** [z.number().int().positive()] of a property *)
Definition positive_field : option json -> result num :=
  number_field (refine (fun n => match num_to_Z n with Some z => 0 <? z | None => false end)).

Lemma string_field_ok p `{!SameParse p} v s : string_field p v = Ok s ->
  v = Some (JStr s) /\ p s = Ok s.
Proof.
  unfold string_field. destruct v as [[]|]; try done. intros H. pose proof (same_parse _ _ H) as ->. done.
Qed.

(** ** What a schema produced it accepts again *)

Class IdemSchema (p : schema) := idem_schema v w : p v = Ok w -> p w = Ok w.

(** A schema that succeeds on a present value produces a present value. *)
Class TotalSchema (p : schema) := total_schema v w : p (Some v) = Ok w -> is_Some w.

#[export] Instance j_refine_idem p : IdemSchema (j_refine p).
Proof. intros [v|] w; simpl; [|done]. destruct (p v) eqn:E; [|done]. intros [= <-]. simpl. by rewrite E. Qed.
#[export] Instance j_refine_total p : TotalSchema (j_refine p).
Proof. intros v w. simpl. case_match; [|done]. intros [= <-]. eauto. Qed.

#[export] Instance j_optional_idem p `{!IdemSchema p} : IdemSchema (j_optional p).
Proof.
  intros [v|] w; simpl; [|by intros [= <-]]. intros H. apply idem_schema in H. by destruct w.
Qed.
#[export] Instance j_optional_total p (Hp : TotalSchema p) : TotalSchema (j_optional p).
Proof. exact Hp. Qed.

Lemma j_default_idem d p : IdemSchema p -> TotalSchema p -> p (Some d) = Ok (Some d) ->
  IdemSchema (j_default d p).
Proof.
  intros Hp Ht Hd [v|] w; simpl; [|by intros [= <-]]. intros H.
  destruct (total_schema _ _ H) as [x ->]. by apply idem_schema in H.
Qed.
#[export] Instance j_default_total d p (Hp : TotalSchema p) : TotalSchema (j_default d p).
Proof. exact Hp. Qed.

Lemma j_elements_idem p `{!IdemSchema p, !TotalSchema p} l l' :
  j_elements p l = Ok l' -> j_elements p l' = Ok l' /\ length l' = length l.
Proof.
  revert l'. induction l as [|v l IH]; intros l'; msimpl; [by intros [= <-]|].
  destruct (p (Some v)) as [w|] eqn:E; [|done]. destruct (j_elements p l) as [m|]; [|done].
  destruct (total_schema _ _ E) as [x ->]. intros [= <-]. destruct (IH m eq_refl) as [Hm Hl].
  apply idem_schema in E. simpl. rewrite E. simpl. rewrite Hm. simpl. by rewrite Hl.
Qed.

#[export] Instance j_array_idem lo p `{!IdemSchema p, !TotalSchema p} : IdemSchema (j_array lo p).
Proof.
  intros [[]|] w; simpl; try done. case_match eqn:Hlo; [|done]. msimpl.
  destruct (j_elements p l) as [l'|] eqn:E; [|done]. intros [= <-].
  destruct (j_elements_idem p _ _ E) as [H1 H2]. simpl. rewrite H2, Hlo. msimpl. by rewrite H1.
Qed.
#[export] Instance j_array_total lo p : TotalSchema (j_array lo p).
Proof.
  intros [] w; simpl; try done. case_match; [|done]. msimpl.
  destruct (j_elements p l); [|done]. intros [= <-]. eauto.
Qed.

Lemma j_values_idem p `{!IdemSchema p, !TotalSchema p} fs gs :
  j_values p fs = Ok gs -> j_values p gs = Ok gs.
Proof.
  revert gs. induction fs as [|[k v] fs IH]; intros gs; msimpl; [by intros [= <-]|].
  destruct (p (Some v)) as [w|] eqn:E; [|done]. destruct (j_values p fs) as [m|]; [|done].
  destruct (total_schema _ _ E) as [x ->]. intros [= <-].
  apply idem_schema in E. simpl. rewrite E. simpl. by rewrite (IH m eq_refl).
Qed.
#[export] Instance j_record_idem p `{!IdemSchema p, !TotalSchema p} : IdemSchema (j_record p).
Proof.
  intros [[]|] w; simpl; try done. msimpl. destruct (j_values p fields) as [gs|] eqn:E; [|done].
  intros [= <-]. simpl. by rewrite (j_values_idem p _ _ E).
Qed.
#[export] Instance j_record_total p : TotalSchema (j_record p).
Proof. intros [] w; simpl; try done. msimpl. destruct (j_values p fields); [|done]. intros [= <-]. eauto. Qed.

(** *** Objects *)

Lemma j_fields_keys shape fs gs k : j_fields shape fs = Ok gs -> k ∉ shape.*1 -> mapGet k gs = None.
Proof.
  revert gs. induction shape as [|[k' p] shape IH]; intros gs; msimpl; [by intros [= <-]|].
  destruct (p (mapGet k' fs)) as [w|]; [|done]. destruct (j_fields shape fs) as [m|]; [|done].
  intros [= <-] Hk. apply not_elem_of_cons in Hk as [Hne Hk].
  destruct w; simpl; [rewrite bool_decide_false by done|]; by apply IH.
Qed.

Lemma j_fields_irrelevant shape k x fs : k ∉ shape.*1 ->
  j_fields shape ((k, x) :: fs) = j_fields shape fs.
Proof.
  induction shape as [|[k' p] shape IH]; intros Hk; [done|]. msimpl.
  apply not_elem_of_cons in Hk as [Hne Hk]. rewrite bool_decide_false by done. by rewrite IH.
Qed.

Lemma j_object_some shape v w : j_object shape v = Ok w ->
  exists o fs, v = Some (JObj o) /\ j_fields shape o = Ok fs /\ w = Some (JObj fs).
Proof.
  unfold j_object, mbind, result_bind, mret, result_ret. destruct v as [[]|]; try done.
  destruct (j_fields _ _) eqn:Hf; [|done]. intros [= <-]. eauto.
Qed.

(** Reading a property of the result is parsing that property. *)
Lemma j_fields_get shape fs gs k p : NoDup shape.*1 -> j_fields shape fs = Ok gs ->
  (k, p) ∈ shape -> p (mapGet k fs) = Ok (mapGet k gs).
Proof.
  revert gs. induction shape as [|[k' p'] shape IH]; intros gs Hd; msimpl; [set_solver|].
  apply NoDup_cons in Hd as [Hk' Hd].
  destruct (p' (mapGet k' fs)) as [w|] eqn:Ew; [|done].
  destruct (j_fields shape fs) as [m|] eqn:Em; [|done]. intros [= <-] [[= -> ->]|Hin]%elem_of_cons.
  - rewrite Ew. pose proof (j_fields_keys _ _ _ _ Em Hk') as Hn.
    destruct w; simpl; [by rewrite bool_decide_true|by rewrite Hn].
  - rewrite (IH m Hd eq_refl Hin). assert (k ≠ k') as Hne.
    { intros ->. apply Hk'. by apply (list_elem_of_fmap_2 fst _ (k', p)). }
    destruct w; simpl; [by rewrite bool_decide_false|done].
Qed.

Lemma j_fields_idem shape fs gs : NoDup shape.*1 -> (forall k p, (k, p) ∈ shape -> IdemSchema p) ->
  j_fields shape fs = Ok gs -> j_fields shape gs = Ok gs.
Proof.
  intros Hd Hp He. assert (forall k p, (k, p) ∈ shape -> p (mapGet k gs) = Ok (mapGet k gs)) as Hg.
  { intros k p Hin. eapply Hp; [exact Hin|]. by eapply j_fields_get. }
  clear Hp. revert gs Hd He Hg. induction shape as [|[k p] shape IH]; intros gs Hd; msimpl.
  { by intros [= <-] _. }
  apply NoDup_cons in Hd as [Hk Hd]. destruct (p (mapGet k fs)) as [w|] eqn:Ew; [|done].
  destruct (j_fields shape fs) as [m|] eqn:Em; [|done]. intros [= <-] Hg.
  rewrite (Hg k p) by (by left). pose proof (j_fields_keys _ _ _ _ Em Hk) as Hn.
  assert (j_fields shape m = Ok m) as Hm.
  { apply IH; [done|done|]. intros k' p' Hin. assert (k' ≠ k) as Hne.
    { intros ->. apply Hk. by apply (list_elem_of_fmap_2 fst _ (k, p')). }
    specialize (Hg k' p' ltac:(by right)). destruct w; simpl in Hg; [|done].
    by rewrite bool_decide_false in Hg. }
  destruct w as [x|]; simpl.
  - rewrite bool_decide_true by done. by rewrite j_fields_irrelevant, Hm.
  - by rewrite Hn, Hm.
Qed.

Lemma j_object_idem shape : NoDup shape.*1 -> (forall k p, (k, p) ∈ shape -> IdemSchema p) ->
  IdemSchema (j_object shape).
Proof.
  intros Hd Hp [[]|] w; simpl; try done. msimpl. destruct (j_fields shape fields) as [gs|] eqn:E; [|done].
  intros [= <-]. simpl. by rewrite (j_fields_idem _ _ _ Hd Hp E).
Qed.
#[export] Instance j_object_total shape : TotalSchema (j_object shape).
Proof. intros [] w; simpl; try done. msimpl. destruct (j_fields shape fields); [|done]. intros [= <-]. eauto. Qed.

(** Prove [IdemSchema] of a composed schema by following its structure. *)
Ltac solve_schema :=
  repeat match goal with
  | |- IdemSchema (j_object _) =>
      apply j_object_idem; [apply (bool_decide_unpack _); vm_compute; exact I|intros ? ? Hin;
        repeat (apply elem_of_cons in Hin as [Hin|Hin]; [injection Hin as -> ->|]);
        try (by apply not_elem_of_nil in Hin)]
  | |- IdemSchema (j_default _ _) => apply j_default_idem; [|apply _|try reflexivity]
  | |- IdemSchema (j_optional _) => apply j_optional_idem
  | |- IdemSchema (j_array _ _) => apply j_array_idem
  | |- IdemSchema (j_record _) => apply j_record_idem
  | |- IdemSchema _ => apply j_refine_idem
  | |- TotalSchema _ => apply _
  end.
