(* ===== verification/N8n.v ===== *)
(** * The n8n integration

    [packages/n8n/src/]: the channel contracts of [channel-contracts.ts], and
    from [index.ts] the signatures of incoming webhooks, the receipt metadata
    and the classification of a dispatch's outcome.  HMAC-SHA256 belongs to
    [node:crypto] and is the parameter of the class [Hmac]; the HTTP exchange
    is the argument [fetch] of [dispatch]. *)

From S2P Require Import Prelude Numbers JsRuntime Json StableId Domain Zod ZodJson.

(** ** Signatures *)

(** [createHmac("sha256", secret).update(body).digest("hex")] *)
Class Hmac := { hmac_hex : string -> string -> string }.

Class HmacLaws (H : Hmac) := {
  hmac_length k s : String.length (hmac_hex k s) = 64%nat;
  hmac_digits k s : all_lower_hex (hmac_hex k s) = true;
}.

Definition normalizeSignature (signature : string) : string :=
  if String.prefix "sha256=" (trim signature)
  then String.substring 7 (String.length (trim signature) - 7) (trim signature)
  else trim signature.

Definition signN8nPayload `{Hmac} (rawBody secret : string) : string := hmac_hex secret rawBody.

Definition any_hex (c : Ascii.ascii) : bool := bool_decide (is_Some (parse_hex_digit c)).

(** [/^[a-fA-F0-9]{64}$/] *)
Definition hex64 (s : string) : bool :=
  Nat.eqb (String.length s) 64 && forallb any_hex (String.list_ascii_of_string s).

(** [Buffer.from(s, "hex")]: it stops at the first pair that is not hexadecimal. *)
Fixpoint hex_bytes (l : list Ascii.ascii) : list N :=
  match l with
  | a :: b :: l' =>
      match parse_hex_digit a, parse_hex_digit b with
      | Some x, Some y => (16 * x + y)%N :: hex_bytes l'
      | _, _ => []
      end
  | _ => []
  end.

(** [signature: string | null | undefined] *)
Definition verifyN8nSignature `{Hmac} (rawBody : string) (signature : option string)
    (secret : string) : bool :=
  if negb (truthy signature) || String.eqb secret "" then false
  else
    let normalized := normalizeSignature (signature ?: "") in
    if negb (hex64 normalized) then false
    else
      let expected := hex_bytes (String.list_ascii_of_string (signN8nPayload rawBody secret)) in
      let actual := hex_bytes (String.list_ascii_of_string normalized) in
      if negb (Nat.eqb (length actual) (length expected)) then false
      else bool_decide (actual = expected).

(** ** Receipts *)

Definition nonEmptyJson (v : option json) : option string :=
  match v with Some (JStr s) => if String.eqb s "" then None else Some s | _ => None end.

Definition json_record (v : option json) : jobject :=
  match v with Some (JObj fields) => fields | _ => [] end.

Record N8nDispatchReceiptMetadata := mkReceiptMetadata {
  rm_workflowId : option string;
  rm_executionId : option string;
  rm_providerReference : option string;
}.

(** [get(...keys)]: per key, the root first. *)
Fixpoint first_of (root nested : jobject) (keys : list string) : option string :=
  match keys with
  | [] => None
  | key :: keys' =>
      match nonEmptyJson (mapGet key root) ?:? nonEmptyJson (mapGet key nested) with
      | Some value => Some value
      | None => first_of root nested keys'
      end
  end.

Definition extractN8nDispatchReceiptMetadata (body : json) : N8nDispatchReceiptMetadata :=
  let root := json_record (Some body) in
  let nested := json_record (mapGet "data" root) in
  mkReceiptMetadata
    (first_of root nested ["workflowId"; "workflow_id"])
    (first_of root nested ["executionId"; "execution_id"])
    (first_of root nested ["providerReference"; "provider_reference"; "messageId"; "message_id"]).

(** ** Channel contracts *)

Section contracts.
Context `{Zod} `{ZodFormats}.

Definition n8nCanonicalSignalTypeValues : list string :=
  ["competitive"; "community"; "icp"; "product"; "market"; "internal"].
Definition growthosIntegrationChannelValues : list string :=
  ["reddit"; "linkedin"; "email"; "crm"; "analytics"; "cms"; "search"; "support"; "community"; "custom"].
Definition n8nActionTypeValues : list string :=
  ["reddit.post.submit"; "reddit.comment.submit"; "linkedin.post.create"; "linkedin.dm.send";
   "email.send"; "crm.note.create"; "cms.post.publish"; "analytics.event.record"; "custom.execute"].

Definition growthosIntegrationChannelSchema : schema := j_enum growthosIntegrationChannelValues.
Definition n8nActionTypeSchema : schema := j_enum n8nActionTypeValues.

Definition n8nDispatchCallbackSchema : schema := j_object [("url", j_url)].

Definition n8nTraceContextSchema : schema := j_object
  [("runId", j_optional (j_string 1 255)); ("issueId", j_optional (j_string 1 255));
   ("workflowId", j_optional (j_string 1 255)); ("executionId", j_optional (j_string 1 255))].

Definition n8nEvidenceRefSchema : schema := j_object
  [("type", j_default (JStr "url")
      (j_enum ["url"; "object"; "crm_record"; "screenshot"; "transcript"]));
   ("uri", j_string 1 2000); ("label", j_optional (j_string 1 255))].

Definition n8nCanonicalSignalPayloadSchema : schema := j_object
  [("channel", growthosIntegrationChannelSchema);
   ("sourceRecordId", j_string 1 255);
   ("sourceUrl", j_optional j_url);
   ("actor", j_optional (j_object
      [("id", j_optional (j_string 1 255)); ("name", j_optional (j_string 1 255));
       ("handle", j_optional (j_string 1 255)); ("company", j_optional (j_string 1 255))]));
   ("subject", j_optional (j_string 1 500));
   ("text", j_optional (j_string 0 10000));
   ("engagement", j_optional (j_object
      [("kind", j_string 1 100);
       ("score", j_optional (j_number (fun x => num_leb num_zero x && num_leb x num_one)));
       ("counts", j_optional (j_record (j_number (num_leb num_zero))))]));
   ("evidence", j_default (JArr []) (j_array 0 n8nEvidenceRefSchema));
   ("trace", j_optional n8nTraceContextSchema);
   ("metadata", j_default (JObj []) j_record_unknown)].

(** [dispatchBasePayloadSchema.extend({ channel: z.literal(channel), ...more })] *)
Definition dispatchPayload (channel : string) (more : list (string * schema)) : schema := j_object
  ([("channel", j_literal channel); ("dryRun", j_default (JBool false) j_boolean);
    ("trace", j_optional n8nTraceContextSchema); ("metadata", j_default (JObj []) j_record_unknown)] ++
   more).

Definition redditPostSubmitPayloadSchema : schema := dispatchPayload "reddit"
  [("subreddit", j_string 1 100); ("title", j_string 1 300);
   ("text", j_optional (j_string 0 10000)); ("url", j_optional j_url)].
Definition redditCommentSubmitPayloadSchema : schema := dispatchPayload "reddit"
  [("subreddit", j_optional (j_string 1 100)); ("parentId", j_string 1 255);
   ("text", j_string 1 10000); ("sourceUrl", j_optional j_url)].
Definition linkedinPostCreatePayloadSchema : schema := dispatchPayload "linkedin"
  [("postAs", j_enum ["person"; "organization"]); ("ownerId", j_string 1 255);
   ("text", j_string 1 3000); ("mediaUrls", j_default (JArr []) (j_array 0 j_url))].
Definition linkedinDmSendPayloadSchema : schema := dispatchPayload "linkedin"
  [("recipientId", j_string 1 255); ("text", j_string 1 3000)].
Definition emailSendPayloadSchema : schema := dispatchPayload "email"
  [("to", j_array 1 j_email); ("subject", j_string 1 300); ("text", j_string 1 20000);
   ("html", j_optional (j_string 0 50000))].

(** The payload schema the discriminated union [n8nDispatchActionSchema] picks
    for an action type. *)
Definition n8nDispatchActionSchema (actionType : string) : option schema :=
  mapGet actionType
    [("reddit.post.submit", redditPostSubmitPayloadSchema);
     ("reddit.comment.submit", redditCommentSubmitPayloadSchema);
     ("linkedin.post.create", linkedinPostCreatePayloadSchema);
     ("linkedin.dm.send", linkedinDmSendPayloadSchema);
     ("email.send", emailSendPayloadSchema);
     ("crm.note.create", dispatchPayload "crm"
        [("recordId", j_string 1 255); ("note", j_string 1 20000)]);
     ("cms.post.publish", dispatchPayload "cms"
        [("title", j_string 1 300); ("bodyMarkdown", j_string_min 1);
         ("slug", j_optional (j_string 1 255))]);
     ("analytics.event.record", dispatchPayload "analytics"
        [("eventName", j_string 1 255); ("properties", j_default (JObj []) j_record_unknown)]);
     ("custom.execute", dispatchPayload "custom"
        [("operation", j_string 1 255); ("input", j_default (JObj []) j_record_unknown)])].

(** The object under [superRefine] and [transform]. *)
Definition dispatchRequestShape : list (string * schema) :=
  [("tenantId", j_uuid); ("actionId", j_string 1 255); ("actionType", j_string 1 100);
   ("approvedBy", j_string 1 255); ("idempotencyKey", j_string 1 255);
   ("payload", j_default (JObj []) j_record_unknown); ("callback", j_optional n8nDispatchCallbackSchema)].

(** [{ ...request, payload }]: the property keeps its place. *)
Definition with_payload (payload : option json) (request : jobject) : jobject :=
  match payload with Some p => mapSet "payload" p request | None => request end.

Definition n8nTypedDispatchRequestSchema (v : jobject) : result jobject :=
  request ← j_fields dispatchRequestShape v;
  match mapGet "actionType" request with
  | Some (JStr actionType) =>
      match n8nDispatchActionSchema actionType with
      | None => Err ZodError
      | Some payloadSchema =>
          payload ← payloadSchema (mapGet "payload" request);
          mret (with_payload payload request)
      end
  | _ => Err ZodError
  end.

Definition n8nDispatchResultCallbackSchema : schema := j_object
  [("tenantId", j_uuid); ("actionId", j_string 1 255); ("idempotencyKey", j_string 1 255);
   ("callbackId", j_string 1 255); ("status", j_enum ["completed"; "failed"]);
   ("workflowId", j_optional (j_string 1 255)); ("executionId", j_optional (j_string 1 255));
   ("providerReference", j_optional (j_string 1 255)); ("outcome", j_default (JObj []) j_record_unknown);
   ("errorCode", j_optional (j_string 1 255)); ("errorMessage", j_optional (j_string 1 2000));
   ("occurredAt", j_optional j_datetime)].

(** [/^[a-zA-Z0-9._:-]+$/] with at most 100 characters *)
Definition source_char (c : Ascii.ascii) : bool :=
  let n := Ascii.nat_of_ascii c in
  ((97 <=? n) && (n <=? 122) || (65 <=? n) && (n <=? 90) || (48 <=? n) && (n <=? 57) ||
   bool_decide (n ∈ [46; 95; 58; 45]))%nat.
Definition j_source : schema := j_text (fun s =>
  length_in 1 100 s && forallb source_char (String.list_ascii_of_string s)).

Definition n8nCanonicalSignalEnvelopeSchema : schema := j_object
  [("eventId", j_string 1 255); ("source", j_source); ("signalType", j_enum n8nCanonicalSignalTypeValues);
   ("occurredAt", j_datetime); ("workflowId", j_optional (j_string 1 255));
   ("executionId", j_optional (j_string 1 255)); ("payload", n8nCanonicalSignalPayloadSchema)].

(** [{ ...input, payload: schema.parse(input.payload) }], parsed again. *)
Definition buildCanonicalN8nSignalEnvelope (input : jobject) : result (option json) :=
  payload ← n8nCanonicalSignalPayloadSchema (mapGet "payload" input);
  n8nCanonicalSignalEnvelopeSchema (Some (JObj (with_payload payload input))).
End contracts.

(** ** Dispatching *)

Inductive N8nDispatchResult :=
  | DispatchOk (status : Z) (body : json)
  | DispatchFailed (status : option Z) (error : string) (retryable : bool) (body : option json).

(** What the HTTP exchange ends with: a response, its body read as JSON
    ([null] when empty, its text when not JSON), or an exception. *)
Inductive FetchOutcome :=
  | FetchResponse (status : Z) (body : json)
  | FetchError (message : string) (aborted : bool).

(** [response.ok] *)
Definition response_ok (status : Z) : bool := (200 <=? status) && (status <=? 299).

Definition dispatch_result (outcome : FetchOutcome) : N8nDispatchResult :=
  match outcome with
  | FetchResponse status body =>
      if response_ok status then DispatchOk status body
      else DispatchFailed (Some status)
        ("n8n dispatch failed with HTTP " +:+ num_to_string (num_of_Z status))
        ((status =? 429) || (500 <=? status))
        (match body with JNull => None | _ => Some body end)
  | FetchError message aborted =>
      DispatchFailed None message true
        (if aborted then Some (JObj [("reason", JStr "timeout")]) else None)
  end.

(** [N8nDispatchClient.dispatch], with [fetch] applied to the request it sends. *)
Definition dispatch `{Zod} `{ZodFormats} (fetch : jobject -> FetchOutcome) (input : jobject) :
    result N8nDispatchResult :=
  request ← n8nTypedDispatchRequestSchema input;
  mret (dispatch_result (fetch request)).

(** ** Typed requests are stable *)

Section typed.
Context `{Zod} `{ZodFormats}.

(** The declared properties that are present, in the order of the schema. *)
Definition pick (shape : list (string * schema)) (fs : jobject) : jobject :=
  omap (fun kp : string * schema => (fun v => (kp.1, v)) <$> mapGet kp.1 fs) shape.

Lemma j_fields_pick shape fs : (forall k p, (k, p) ∈ shape -> p (mapGet k fs) = Ok (mapGet k fs)) ->
  j_fields shape fs = Ok (pick shape fs).
Proof.
  induction shape as [|[k p] shape IH]; intros Hp; [done|]. msimpl.
  rewrite (Hp k p) by (by left). rewrite IH by (intros; apply Hp; by right).
  unfold pick. simpl. by destruct (mapGet k fs).
Qed.

Lemma dispatchPayload_idem channel more : NoDup (["channel"; "dryRun"; "trace"; "metadata"] ++ more.*1) ->
  (forall k p, (k, p) ∈ more -> IdemSchema p) -> IdemSchema (dispatchPayload channel more).
Proof.
  intros Hd Hm. apply j_object_idem; [by rewrite fmap_app|].
  intros k p [Hin|Hin]%elem_of_app; [|by eapply Hm].
  repeat (apply elem_of_cons in Hin as [Hin|Hin]; [injection Hin as -> ->|]);
    [..|by apply not_elem_of_nil in Hin]; unfold n8nTraceContextSchema; solve_schema.
Qed.

(** Every action's payload schema accepts what it produced, and produces an object. *)
Definition object_schema (p : schema) : Prop :=
  IdemSchema p /\ forall v w, p v = Ok w -> exists fs, w = Some (JObj fs).

Lemma dispatchPayload_object channel more :
  NoDup (["channel"; "dryRun"; "trace"; "metadata"] ++ more.*1) ->
  (forall k p, (k, p) ∈ more -> IdemSchema p) -> object_schema (dispatchPayload channel more).
Proof.
  intros Hd Hm. split; [by apply dispatchPayload_idem|].
  intros [[]|] w; unfold dispatchPayload, j_object; msimpl; try done.
  case_match; [|done]. intros [= <-]. eauto.
Qed.

Lemma action_schema_object ty p : n8nDispatchActionSchema ty = Some p -> object_schema p.
Proof.
  unfold n8nDispatchActionSchema. cbn [mapGet].
  repeat (case_bool_decide; [intros [= <-]|]); [..|done];
    (apply dispatchPayload_object; [apply (bool_decide_unpack _); vm_compute; exact I|]);
    intros k q Hin;
    repeat (apply elem_of_cons in Hin as [Hin|Hin]; [injection Hin as -> ->; solve_schema|]);
    by apply not_elem_of_nil in Hin.
Qed.

Lemma action_schema_required ty p w : n8nDispatchActionSchema ty = Some p -> p None = Ok w -> False.
Proof.
  unfold n8nDispatchActionSchema. cbn [mapGet].
  by repeat (case_bool_decide; [intros [= <-]|]).
Qed.

Lemma shape_keys : NoDup (dispatchRequestShape.*1).
Proof. apply (bool_decide_unpack _). vm_compute. exact I. Qed.

Lemma shape_idem k p : (k, p) ∈ dispatchRequestShape -> IdemSchema p.
Proof.
  intros Hin. repeat (apply elem_of_cons in Hin as [Hin|Hin];
    [injection Hin as -> ->; unfold n8nDispatchCallbackSchema; solve_schema|]).
  by apply not_elem_of_nil in Hin.
Qed.

(** What a successful parse has established. *)
Lemma typed_inv v r : n8nTypedDispatchRequestSchema v = Ok r ->
  exists request ty q payload, j_fields dispatchRequestShape v = Ok request /\
    mapGet "actionType" request = Some (JStr ty) /\ n8nDispatchActionSchema ty = Some q /\
    q (mapGet "payload" request) = Ok (Some (JObj payload)) /\
    r = mapSet "payload" (JObj payload) request.
Proof.
  unfold n8nTypedDispatchRequestSchema, mbind, result_bind, mret, result_ret.
  destruct (j_fields dispatchRequestShape v) as [request|] eqn:Er; [|done].
  destruct (mapGet "actionType" request) as [[| | |ty| |]|] eqn:Ea; try done.
  destruct (n8nDispatchActionSchema ty) as [q|] eqn:Eq; [|done].
  destruct (q _) as [w|] eqn:Ew; [|done]. intros [= <-].
  destruct (proj2 (action_schema_object ty q Eq) _ _ Ew) as [payload ->]. by exists request, ty, q, payload.
Qed.

Lemma j_text_some p v w : j_text p v = Ok w -> exists s, v = Some (JStr s) /\ w = v.
Proof. destruct v as [[]|]; simpl; try done. destruct (p s); [|done]. intros [= <-]. eauto. Qed.

(** A typed request, spelled out. *)
Definition request_of (tn aid ty by_ ik payload : json) (callback : option json) : jobject :=
  [("tenantId", tn); ("actionId", aid); ("actionType", ty); ("approvedBy", by_);
   ("idempotencyKey", ik); ("payload", payload)] ++
  match callback with Some c => [("callback", c)] | None => [] end.

Lemma typed_shape v r : n8nTypedDispatchRequestSchema v = Ok r ->
  exists tn aid ty by_ ik payload cb q,
    r = request_of tn aid (JStr ty) by_ ik (JObj payload) cb /\
    j_uuid (Some tn) = Ok (Some tn) /\ j_string 1 255 (Some aid) = Ok (Some aid) /\
    j_string 1 100 (Some (JStr ty)) = Ok (Some (JStr ty)) /\
    j_string 1 255 (Some by_) = Ok (Some by_) /\ j_string 1 255 (Some ik) = Ok (Some ik) /\
    j_optional n8nDispatchCallbackSchema cb = Ok cb /\
    n8nDispatchActionSchema ty = Some q /\ q (Some (JObj payload)) = Ok (Some (JObj payload)) /\
    mapGet "tenantId" v = Some tn /\ mapGet "actionId" v = Some aid /\
    mapGet "actionType" v = Some (JStr ty) /\ mapGet "idempotencyKey" v = Some ik.
Proof.
  intros (request & ty & q & payload & Hr & Hty & Hq & Hp & ->)%typed_inv.
  assert (forall k p, (k, p) ∈ dispatchRequestShape -> p (mapGet k v) = Ok (mapGet k request)) as Hget.
  { intros k p Hin. by apply (j_fields_get dispatchRequestShape v request k p shape_keys). }
  pose proof (j_fields_idem _ _ _ shape_keys shape_idem Hr) as Hidem.
  assert (forall k p, (k, p) ∈ dispatchRequestShape -> p (mapGet k request) = Ok (mapGet k request)) as Hok.
  { intros k p Hin. by apply (j_fields_get dispatchRequestShape request request k p shape_keys). }
  pose proof (j_fields_pick dispatchRequestShape request Hok) as Hpick.
  rewrite Hidem in Hpick. injection Hpick as Hpick.
  assert (forall k p, (k, j_text p) ∈ dispatchRequestShape ->
    exists s, mapGet k v = Some (JStr s) /\ mapGet k request = Some (JStr s)) as Htext.
  { intros k p Hin. destruct (j_text_some _ _ _ (Hget k _ Hin)) as (s & H1 & H2).
    exists s. by rewrite H2. }
  destruct (Htext "tenantId" zod_uuid) as (tn & Hv1 & H1); [left|].
  destruct (Htext "actionId" (length_in 1 255)) as (aid & Hv2 & H2); [right; left|].
  destruct (Htext "actionType" (length_in 1 100)) as (ty' & Hv3 & H3); [right; right; left|].
  rewrite Hty in H3. injection H3 as <-.
  destruct (Htext "approvedBy" (length_in 1 255)) as (by_ & Hv4 & H4); [right; right; right; left|].
  destruct (Htext "idempotencyKey" (length_in 1 255)) as (ik & Hv5 & H5);
    [right; right; right; right; left|].
  destruct (proj2 (action_schema_object ty q Hq) _ _ Hp) as [fs [= <-]].
  destruct (mapGet "payload" request) as [pl|] eqn:H6.
  2: { by apply (action_schema_required ty q) in Hp. }
  exists (JStr tn), (JStr aid), ty, (JStr by_), (JStr ik), payload, (mapGet "callback" request), q.
  pose proof (Hok "tenantId" j_uuid ltac:(left)) as G1. rewrite H1 in G1.
  pose proof (Hok "actionId" (j_string 1 255) ltac:(right; left)) as G2. rewrite H2 in G2.
  pose proof (Hok "actionType" (j_string 1 100) ltac:(right; right; left)) as G3. rewrite Hty in G3.
  pose proof (Hok "approvedBy" (j_string 1 255) ltac:(right; right; right; left)) as G4. rewrite H4 in G4.
  pose proof (Hok "idempotencyKey" (j_string 1 255) ltac:(right; right; right; right; left)) as G5.
  rewrite H5 in G5.
  split_and!; try done.
  - rewrite Hpick. unfold pick, dispatchRequestShape. 
    repeat (progress (cbn -[mapGet]; rewrite ?H1, ?H2, ?Hty, ?H4, ?H5, ?H6)).
    by destruct (mapGet "callback" request).
  - apply (Hok "callback" (j_optional n8nDispatchCallbackSchema)). do 6 right. left.
  - by apply (proj1 (action_schema_object ty q Hq)) in Hp.
Qed.

(** A request spelled out with accepted parts is accepted unchanged. *)
Lemma request_of_typed tn aid ty by_ ik payload cb q :
  j_uuid (Some tn) = Ok (Some tn) -> j_string 1 255 (Some aid) = Ok (Some aid) ->
  j_string 1 100 (Some (JStr ty)) = Ok (Some (JStr ty)) ->
  j_string 1 255 (Some by_) = Ok (Some by_) -> j_string 1 255 (Some ik) = Ok (Some ik) ->
  j_optional n8nDispatchCallbackSchema cb = Ok cb ->
  n8nDispatchActionSchema ty = Some q -> q (Some (JObj payload)) = Ok (Some (JObj payload)) ->
  let r := request_of tn aid (JStr ty) by_ ik (JObj payload) cb in
  n8nTypedDispatchRequestSchema r = Ok r.
Proof.
  intros G1 G2 G3 G4 G5 G6 Hq Hp r.
  assert (j_fields dispatchRequestShape r = Ok r) as Hr.
  { rewrite j_fields_pick.
    - unfold r, request_of. by destruct cb.
    - intros k p Hin. repeat (apply elem_of_cons in Hin as [Hin|Hin]; [injection Hin as -> ->|]);
        [exact G1|exact G2|exact G3|exact G4|exact G5|reflexivity| |by apply not_elem_of_nil in Hin].
      unfold r. by destruct cb. }
  unfold n8nTypedDispatchRequestSchema, mbind, result_bind, mret, result_ret. rewrite Hr.
  change (mapGet "actionType" r) with (Some (JStr ty)). cbv beta iota. rewrite Hq.
  change (mapGet "payload" r) with (Some (JObj payload)). by rewrite Hp.
Qed.
End typed.

(** ** Signatures and hexadecimal *)

(** [s.toLowerCase()] on ASCII *)
Definition lower_string (s : string) : string :=
  String.string_of_list_ascii (to_lower <$> String.list_ascii_of_string s).

Definition digit_char (n : N) : Ascii.ascii := Ascii.ascii_of_N (if (n <? 10)%N then 48 + n else 87 + n).

(** A test that holds of the 256 characters. *)
Lemma all_ascii (p : Ascii.ascii -> bool) :
  forallb (fun n => p (Ascii.ascii_of_nat n)) (seq 0 256) = true -> forall c, p c = true.
Proof.
  rewrite forallb_forall. intros H c. rewrite <- (Ascii.ascii_nat_embedding c). apply H.
  apply in_seq. pose proof (Ascii.nat_ascii_bounded c). lia.
Qed.

Lemma parse_hex_lower c n : parse_hex_digit c = Some n -> (n < 16)%N /\ to_lower c = digit_char n.
Proof.
  intros Hc. pose proof (all_ascii (fun c => match parse_hex_digit c with
    | Some n => (n <? 16)%N && Ascii.eqb (to_lower c) (digit_char n) | None => true end)
    ltac:(vm_compute; reflexivity) c) as H.
  cbv beta in H. rewrite Hc in H. apply andb_true_iff in H as [H1%N.ltb_lt H2%Ascii.eqb_eq]. done.
Qed.

Lemma lower_hex_parse c : lower_hex c = true ->
  exists n, parse_hex_digit c = Some n /\ c = digit_char n /\ is_space c = false /\
    Ascii.nat_of_ascii c ≠ 115%nat.
Proof.
  intros Hc. pose proof (all_ascii (fun c => negb (lower_hex c) || match parse_hex_digit c with
    | Some n => Ascii.eqb c (digit_char n) && negb (is_space c) && negb (Nat.eqb (Ascii.nat_of_ascii c) 115)
    | None => false end) ltac:(vm_compute; reflexivity) c) as H.
  cbv beta in H. rewrite Hc in H. destruct (parse_hex_digit c) as [n|]; [|done]. simpl in H.
  rewrite !andb_true_iff, !negb_true_iff in H. destruct H as [[H1%Ascii.eqb_eq H2] H3%Nat.eqb_neq].
  by exists n.
Qed.

(** Equal bytes are equal digits. *)
Lemma hex_bytes_lower k l l' : length l = (2 * k)%nat -> length l' = (2 * k)%nat ->
  forallb any_hex l = true -> forallb lower_hex l' = true -> hex_bytes l = hex_bytes l' ->
  to_lower <$> l = l'.
Proof.
  revert l l'. induction k as [|k IH]; intros l l' Hl Hl' Ha Hb He.
  { destruct l, l'; done. }
  destruct l as [|a [|b l]]; simpl in Hl; [lia..|]. destruct l' as [|a' [|b' l']]; simpl in Hl'; [lia..|].
  simpl in Ha, Hb. rewrite !andb_true_iff in Ha, Hb. destruct Ha as (Ha1 & Ha2 & Ha), Hb as (Hb1 & Hb2 & Hb).
  apply bool_decide_eq_true in Ha1 as [x Hx], Ha2 as [y Hy].
  destruct (lower_hex_parse _ Hb1) as (x' & Hx' & Hcx & _), (lower_hex_parse _ Hb2) as (y' & Hy' & Hcy & _).
  simpl in He. rewrite Hx, Hy, Hx', Hy' in He. injection He as Hxy He.
  destruct (parse_hex_lower _ _ Hx) as [? Lx], (parse_hex_lower _ _ Hy) as [? Ly].
  destruct (parse_hex_lower _ _ Hx') as [? _], (parse_hex_lower _ _ Hy') as [? _].
  assert (x = x' /\ y = y') as [-> ->] by lia.
  csimpl. rewrite Lx, Ly, <- Hcx, <- Hcy. do 2 f_equal. apply IH; try done; lia.
Qed.

Lemma forallb_lower_any l : forallb lower_hex l = true -> forallb any_hex l = true.
Proof.
  rewrite !forallb_forall. intros H c Hc. destruct (lower_hex_parse c (H c Hc)) as (n & Hn & _).
  apply bool_decide_eq_true. rewrite Hn. eauto.
Qed.

Lemma forallb_lower_space l : forallb lower_hex l = true -> forallb (fun c => negb (is_space c)) l = true.
Proof.
  rewrite !forallb_forall. intros H c Hc.
  destruct (lower_hex_parse c (H c Hc)) as (_ & _ & _ & Hs & _). by rewrite Hs.
Qed.

Lemma substring_full s : String.substring 0 (String.length s) s = s.
Proof. induction s as [|c s IH]; simpl; [done|]. by rewrite IH. Qed.

Lemma prefix_head c p s : String.prefix (String c p) s = true -> exists t, s = String c t.
Proof. destruct s as [|d s]; simpl; [done|]. destruct (Ascii.ascii_dec c d) as [->|]; [eauto|done]. Qed.

(** A digest normalizes to itself, with and without its prefix. *)
Lemma normalize_digest h : all_lower_hex h = true ->
  normalizeSignature h = h /\ normalizeSignature ("sha256=" +:+ h) = h.
Proof.
  intros Hh. pose proof (forallb_lower_space _ Hh) as Hsp. split; unfold normalizeSignature.
  - rewrite (trim_none h Hsp). destruct (String.prefix "sha256=" h) eqn:Hp; [|done]. exfalso.
    apply prefix_head in Hp as [t ->]. done.
  - rewrite (trim_none ("sha256=" +:+ h)) by (simpl; exact Hsp).
    change (String.prefix "sha256=" ("sha256=" +:+ h)) with (String.prefix "" h).
    assert (String.prefix "" h = true) as -> by (by destruct h).
    change (String.substring 7 (String.length ("sha256=" +:+ h) - 7) ("sha256=" +:+ h))
      with (String.substring 0 (String.length h - 0) h).
    rewrite Nat.sub_0_r. apply substring_full.
Qed.

Lemma list_ascii_length s : length (String.list_ascii_of_string s) = String.length s.
Proof. induction s as [|c s IH]; simpl; [done|]. by rewrite IH. Qed.

Section theorems.
Context `{H : Hmac} {HL : HmacLaws H}.

Lemma signature_hex body secret : hex64 (signN8nPayload body secret) = true.
Proof.
  unfold hex64, signN8nPayload. rewrite hmac_length. simpl.
  apply forallb_lower_any. apply hmac_digits.
Qed.

(** A signature that verifies is the body's own, however it is written. *)
Lemma verified_signature body secret sg : verifyN8nSignature body (Some sg) secret = true ->
  lower_string (normalizeSignature sg) = signN8nPayload body secret.
Proof.
  unfold verifyN8nSignature. destruct (_ || _); [done|]. simpl (_ ?: _).
  destruct (hex64 (normalizeSignature sg)) eqn:Hx; [|done]. simpl.
  destruct (Nat.eqb _ _); [|done]. simpl. intros He%bool_decide_eq_true.
  unfold hex64 in Hx. apply andb_true_iff in Hx as [Hlen%Nat.eqb_eq Hany].
  unfold lower_string.
  pose proof (hmac_length secret body) as Hlen'. fold (signN8nPayload body secret) in Hlen'.
  rewrite (hex_bytes_lower 32 _ (String.list_ascii_of_string (signN8nPayload body secret)));
    [apply String.string_of_list_ascii_of_string|by rewrite list_ascii_length..|done|apply hmac_digits|done].
Qed.

(** A webhook signature verifies exactly when it is the HMAC of the body:
    what [signN8nPayload] produced verifies, bare or with the [sha256=]
    prefix; a signature that verifies is, after trimming, dropping the prefix
    and lowering its case, the signature of that body under that secret; and
    nothing verifies without a secret or a signature. *)
Theorem signature_round_trip body secret :
  (secret ≠ "" ->
     verifyN8nSignature body (Some (signN8nPayload body secret)) secret = true /\
     verifyN8nSignature body (Some ("sha256=" +:+ signN8nPayload body secret)) secret = true) /\
  (forall sg, verifyN8nSignature body (Some sg) secret = true ->
     lower_string (normalizeSignature sg) = signN8nPayload body secret) /\
  (forall sg, verifyN8nSignature body sg "" = false) /\
  verifyN8nSignature body None secret = false /\ verifyN8nSignature body (Some "") secret = false.
Proof.
  assert (all_lower_hex (signN8nPayload body secret) = true) as Hl by apply hmac_digits.
  destruct (normalize_digest _ Hl) as [N1 N2]. split_and!; try done.
  - intros Hs.
    assert (signN8nPayload body secret ≠ "") as Hne.
    { intros He. pose proof (hmac_length secret body) as Hlen. unfold signN8nPayload in He.
      by rewrite He in Hlen. }
    assert (forall sg, truthy (Some sg) = true -> normalizeSignature sg = signN8nPayload body secret ->
      verifyN8nSignature body (Some sg) secret = true) as Hv.
    { intros sg Ht Hn. unfold verifyN8nSignature. rewrite Ht, (proj2 (String.eqb_neq _ _) Hs).
      simpl (_ ?: _). rewrite Hn, signature_hex, Nat.eqb_refl. by apply bool_decide_eq_true. }
    split; apply Hv; try done. rewrite truthy_some. by rewrite (proj2 (String.eqb_neq _ _) Hne).
  - apply verified_signature.
  - intros [sg|]; unfold verifyN8nSignature; simpl; [|done]. by rewrite orb_true_r.
Qed.
End theorems.

Section typed_theorems.
Context `{Zod} `{ZodFormats}.

(** A typed dispatch request survives the second parse of the dispatch
    client unchanged: what the publisher's parse produced is accepted again
    as it is, also with a callback URL added, so the client sends exactly
    that request, with the tenant, action and idempotency key it came with. *)
Theorem typed_request_round_trip v r url fetch : n8nTypedDispatchRequestSchema v = Ok r ->
  zod_url url = true ->
  let with_callback := mapSet "callback" (JObj [("url", JStr url)]) r in
  n8nTypedDispatchRequestSchema r = Ok r /\
  dispatch fetch r = Ok (dispatch_result (fetch r)) /\
  dispatch fetch with_callback = Ok (dispatch_result (fetch with_callback)) /\
  (forall k, k ∈ ["tenantId"; "actionId"; "actionType"; "idempotencyKey"] ->
     mapGet k r = mapGet k v /\ mapGet k with_callback = mapGet k v).
Proof.
  intros (tn & aid & ty & by_ & ik & payload & cb & q & -> & G1 & G2 & G3 & G4 & G5 & G6 & Hq & Hp &
    V1 & V2 & V3 & V4)%typed_shape Hurl with_callback.
  pose proof (request_of_typed tn aid ty by_ ik payload cb q G1 G2 G3 G4 G5 G6 Hq Hp) as Hr.
  assert (with_callback = request_of tn aid (JStr ty) by_ ik (JObj payload) (Some (JObj [("url", JStr url)])))
    as Hw by (by destruct cb).
  pose proof (request_of_typed tn aid ty by_ ik payload (Some (JObj [("url", JStr url)])) q G1 G2 G3 G4 G5)
    as Hc. rewrite <- Hw in Hc.
  unfold dispatch, mbind, result_bind. split_and!; [exact Hr|by rewrite Hr| |].
  - rewrite Hc; [done| |done|done]. unfold j_optional, n8nDispatchCallbackSchema, j_object, j_fields.
    msimpl. unfold j_url. simpl. by rewrite Hurl.
  - intros k Hk. rewrite Hw.
    repeat (apply elem_of_cons in Hk as [->|Hk]; [by rewrite ?V1, ?V2, ?V3, ?V4|]).
    by apply not_elem_of_nil in Hk.
Qed.
End typed_theorems.

(** ** Witnesses *)

Module N8nExample.
#[export] Instance example_hmac : Hmac := {| hmac_hex k s := ShaExample.nibbles 64 (k +:+ s) |}.
#[export] Instance example_hmac_laws : HmacLaws example_hmac.
Proof. split; intros k s; apply (ShaExample.nibbles_spec 64). Qed.

#[export] Instance example_formats : ZodFormats := {|
  zod_url := String.prefix "https://"; zod_email s := String.eqb s "a@b.c";
  zod_datetime_offset s := negb (String.eqb s "");
  zod_datetime s := negb (String.eqb s "") |}.

Definition payload : jobject :=
  [("tenantId", JStr ZodExample.tenant); ("actionId", JStr "a1"); ("actionType", JStr "email.send");
   ("approvedBy", JStr "founder"); ("idempotencyKey", JStr "k1"); ("unknown", JNull);
   ("payload", JObj [("channel", JStr "email"); ("to", JArr [JStr "a@b.c"]); ("subject", JStr "hi");
      ("text", JStr "hello"); ("cc", JNull)])].
Definition typed : jobject :=
  [("tenantId", JStr ZodExample.tenant); ("actionId", JStr "a1"); ("actionType", JStr "email.send");
   ("approvedBy", JStr "founder"); ("idempotencyKey", JStr "k1");
   ("payload", JObj [("channel", JStr "email"); ("dryRun", JBool false); ("metadata", JObj []);
      ("to", JArr [JStr "a@b.c"]); ("subject", JStr "hi"); ("text", JStr "hello")])].
End N8nExample.

Lemma signature_round_trip_witness :
  verifyN8nSignature (H := N8nExample.example_hmac) "body"
    (Some ("sha256=" +:+ signN8nPayload (H := N8nExample.example_hmac) "body" "s3cret")) "s3cret" = true.
Proof.
  refine (proj2 (proj1 (signature_round_trip (HL := N8nExample.example_hmac_laws) "body" "s3cret") _)).
  discriminate.
Defined.

Lemma typed_request_round_trip_witness :
  n8nTypedDispatchRequestSchema (H := ZodExample.zod_example) (H0 := N8nExample.example_formats)
    N8nExample.typed = Ok N8nExample.typed.
Proof.
  apply (typed_request_round_trip (H := ZodExample.zod_example) (H0 := N8nExample.example_formats)
    N8nExample.payload N8nExample.typed "https://x" (fun _ => FetchError "" false)); vm_compute; reflexivity.
Defined.
