(* ===== verification/Harness.v ===== *)
(** * The adaptive GTM harness

    [packages/core/src/adaptive-gtm-harness.ts]: the promotion gate
    [evaluateLearningProposal] and the self-healing decision
    [decideHealingAction], with their policies, their schemas and their
    defaults.  Measured quantities are binary64 numbers; counts are integers
    (zod's [.int()] refuses everything else). *)

From S2P Require Import Prelude Numbers JsRuntime Domain Zod.

(** ** The promotion gate *)

Record PartialLearningPolicy := {
  raw_minEvidence : option Z;
  raw_minUniqueEntities : option Z;
  raw_minConfidence : option num;
  raw_minRelativeLift : option num;
  raw_maxGuardrailRegression : option num;
  raw_humanApprovalFor : option (list ChangeRisk);
}.

Record AdaptiveLearningPolicy := {
  minEvidence : Z;
  minUniqueEntities : Z;
  minConfidence : num;
  minRelativeLift : num;
  maxGuardrailRegression : num;
  humanApprovalFor : list ChangeRisk;
}.

Definition adaptiveLearningPolicySchema (raw : PartialLearningPolicy) :
    result AdaptiveLearningPolicy :=
  me ← positive_int (raw_minEvidence raw ?: 20);
  mu ← positive_int (raw_minUniqueEntities raw ?: 5);
  mc ← unit_number (raw_minConfidence raw ?: num_lit 8 10);
  ml ← positive_number (raw_minRelativeLift raw ?: num_lit 5 100);
  mg ← unit_number (raw_maxGuardrailRegression raw ?: num_lit 2 100);
  mret {| minEvidence := me; minUniqueEntities := mu; minConfidence := mc;
          minRelativeLift := ml; maxGuardrailRegression := mg;
          humanApprovalFor := raw_humanApprovalFor raw ?: [risk_high; risk_critical] |}.

Definition defaultLearningPolicy : PartialLearningPolicy :=
  {| raw_minEvidence := None; raw_minUniqueEntities := None; raw_minConfidence := None;
     raw_minRelativeLift := None; raw_maxGuardrailRegression := None;
     raw_humanApprovalFor := None |}.

Record LearningProposalEvaluation := mkEvaluation {
  proposalId : string;
  risk : ChangeRisk;
  evidenceCount : Z;
  uniqueEntities : Z;
  confidence : num;
  metricDirection : MetricDirection;
  baselineMetric : num;
  candidateMetric : num;
  worstGuardrailRegression : num;
  humanApproved : bool;
}.

#[export] Instance evaluation_eta : Eta LearningProposalEvaluation := fun e =>
  mkEvaluation (proposalId e) (risk e) (evidenceCount e) (uniqueEntities e) (confidence e)
    (metricDirection e) (baselineMetric e) (candidateMetric e) (worstGuardrailRegression e)
    (humanApproved e).

Definition learningProposalEvaluationSchema (e : LearningProposalEvaluation) :
    result LearningProposalEvaluation :=
  pid ← min1_text (proposalId e);
  ec ← nonneg_int (evidenceCount e);
  ue ← nonneg_int (uniqueEntities e);
  cf ← unit_number (confidence e);
  bm ← finite_number (baselineMetric e);
  cm ← finite_number (candidateMetric e);
  wg ← unit_number (worstGuardrailRegression e);
  mret (mkEvaluation pid (risk e) ec ue cf (metricDirection e) bm cm wg (humanApproved e)).

Record LearningDecision := mkDecision {
  decision : LearningDecisionKind;
  relativeLift : num;
  reasons : list string;
}.

(** [z.array(z.string().min(1)).min(1)] *)
Definition reasons_array (l : list string) : result (list string) :=
  l' ← zod_array min1_text l; refine (fun l => negb (bool_decide (l = []))) l'.

Definition learningDecisionSchema (d : LearningDecision) : result LearningDecision :=
  lift ← any_number (relativeLift d);
  rs ← reasons_array (reasons d);
  mret (mkDecision (decision d) lift rs).

(** [policy.humanApprovalFor.includes(risk)] *)
Definition needsApproval (p : AdaptiveLearningPolicy) (r : ChangeRisk) : bool :=
  bool_decide (r ∈ humanApprovalFor p).

Definition measuredLift (e : LearningProposalEvaluation) : num :=
  let denominator := num_max (num_abs (baselineMetric e)) (num_lit 1 1000000000) in
  let improvement :=
    match metricDirection e with
    | dir_increase => num_sub (candidateMetric e) (baselineMetric e)
    | dir_decrease => num_sub (baselineMetric e) (candidateMetric e)
    end in
  num_div improvement denominator.

Definition missingEvidence (e : LearningProposalEvaluation) (p : AdaptiveLearningPolicy) :
    list string :=
  (if evidenceCount e <? minEvidence p
   then ["Need " +:+ pretty (minEvidence p - evidenceCount e) +:+ " more observations."] else []) ++
  (if uniqueEntities e <? minUniqueEntities p
   then ["Need " +:+ pretty (minUniqueEntities p - uniqueEntities e) +:+ " more unique entities."]
   else []) ++
  (if num_ltb (confidence e) (minConfidence p)
   then ["Confidence is below the promotion threshold."] else []).

Definition evaluateLearningProposal (input : LearningProposalEvaluation)
    (rawPolicy : PartialLearningPolicy) : result LearningDecision :=
  evaluation ← learningProposalEvaluationSchema input;
  policy ← adaptiveLearningPolicySchema rawPolicy;
  let lift := measuredLift evaluation in
  if num_ltb (maxGuardrailRegression policy) (worstGuardrailRegression evaluation) then
    learningDecisionSchema
      (mkDecision dec_reject lift ["Candidate breached a configured business guardrail."])
  else match missingEvidence evaluation policy with
  | (_ :: _) as missing =>
      learningDecisionSchema (mkDecision dec_continue_experiment lift missing)
  | [] =>
    if num_ltb lift (minRelativeLift policy) then
      learningDecisionSchema
        (mkDecision dec_reject lift ["Measured lift is below the promotion threshold."])
    else if needsApproval policy (risk evaluation) && negb (humanApproved evaluation) then
      learningDecisionSchema
        (mkDecision dec_requires_approval lift
           ["The change passed evidence gates but its risk requires approval."])
    else
      learningDecisionSchema
        (mkDecision dec_promote lift
           ["Candidate passed evidence, lift, confidence, and guardrail gates."])
  end.

(** ** The self-healing decision *)

Record PartialHealingPolicy := {
  raw_maxErrorRate : option num;
  raw_maxConsecutiveFailures : option Z;
  raw_maxP95LatencyMs : option num;
  raw_maxStalenessSeconds : option Z;
  raw_maxRecoveryAttempts : option Z;
  raw_baseBackoffSeconds : option Z;
}.

Record HealingPolicy := {
  maxErrorRate : num;
  maxConsecutiveFailures : Z;
  maxP95LatencyMs : num;
  maxStalenessSeconds : Z;
  maxRecoveryAttempts : Z;
  baseBackoffSeconds : Z;
}.

Definition healingPolicySchema (raw : PartialHealingPolicy) : result HealingPolicy :=
  er ← unit_number (raw_maxErrorRate raw ?: num_lit 5 100);
  cf ← positive_int (raw_maxConsecutiveFailures raw ?: 3);
  lat ← positive_number (raw_maxP95LatencyMs raw ?: num_of_Z 10000);
  st ← positive_int (raw_maxStalenessSeconds raw ?: 900);
  ra ← positive_int (raw_maxRecoveryAttempts raw ?: 3);
  bb ← positive_int (raw_baseBackoffSeconds raw ?: 30);
  mret {| maxErrorRate := er; maxConsecutiveFailures := cf; maxP95LatencyMs := lat;
          maxStalenessSeconds := st; maxRecoveryAttempts := ra; baseBackoffSeconds := bb |}.

Definition defaultHealingPolicy : PartialHealingPolicy :=
  {| raw_maxErrorRate := None; raw_maxConsecutiveFailures := None; raw_maxP95LatencyMs := None;
     raw_maxStalenessSeconds := None; raw_maxRecoveryAttempts := None;
     raw_baseBackoffSeconds := None |}.

Record RuntimeHealthObservation := mkObservation {
  obs_componentId : string;
  currentState : RuntimeHealthState;
  errorRate : num;
  consecutiveFailures : Z;
  p95LatencyMs : num;
  stalenessSeconds : Z;
  dependencyAvailable : bool;
  fallbackAvailable : bool;
  lastKnownGoodAvailable : bool;
  recoveryAttempts : Z;
  guardrailBreached : bool;
}.

Definition runtimeHealthObservationSchema (o : RuntimeHealthObservation) :
    result RuntimeHealthObservation :=
  cid ← min1_text (obs_componentId o);
  er ← unit_number (errorRate o);
  cf ← nonneg_int (consecutiveFailures o);
  lat ← nonneg_number (p95LatencyMs o);
  st ← nonneg_int (stalenessSeconds o);
  ra ← nonneg_int (recoveryAttempts o);
  mret (mkObservation cid (currentState o) er cf lat st (dependencyAvailable o)
          (fallbackAvailable o) (lastKnownGoodAvailable o) ra (guardrailBreached o)).

Record HealingDecision := mkHealing {
  nextState : RuntimeHealthState;
  action : HealingAction;
  allowExternalActions : bool;
  retryAfterSeconds : option Z;
  healing_reasons : list string;
}.

Definition healingDecisionSchema (d : HealingDecision) : result HealingDecision :=
  ra ← zod_optional positive_int (retryAfterSeconds d);
  rs ← reasons_array (healing_reasons d);
  mret (mkHealing (nextState d) (action d) (allowExternalActions d) ra rs).

Definition unhealthyReasons (h : RuntimeHealthObservation) (p : HealingPolicy) : list string :=
  (if negb (dependencyAvailable h) then ["Dependency is unavailable."] else []) ++
  (if num_ltb (maxErrorRate p) (errorRate h) then ["Error rate exceeds policy."] else []) ++
  (if maxConsecutiveFailures p <=? consecutiveFailures h
   then ["Consecutive failure limit reached."] else []) ++
  (if num_ltb (maxP95LatencyMs p) (p95LatencyMs h) then ["Latency exceeds policy."] else []) ++
  (if maxStalenessSeconds p <? stalenessSeconds h then ["Component data is stale."] else []).

Definition decideHealingAction (input : RuntimeHealthObservation)
    (rawPolicy : PartialHealingPolicy) : result HealingDecision :=
  health ← runtimeHealthObservationSchema input;
  policy ← healingPolicySchema rawPolicy;
  let rollbackOrEscalate :=
    if lastKnownGoodAvailable health then act_rollback else act_quarantine_and_escalate in
  let unhealthy := unhealthyReasons health policy in
  if guardrailBreached health then
    healingDecisionSchema (mkHealing hs_quarantined rollbackOrEscalate false None
      ["A business or safety guardrail was breached."])
  else match unhealthy with
  | [] =>
      healingDecisionSchema (mkHealing hs_healthy
        (if bool_decide (currentState health = hs_healthy) then act_none else act_resume)
        true None
        [if bool_decide (currentState health = hs_healthy)
         then "Component is within all health thresholds."
         else "Recovery checks passed; normal execution can resume."])
  | _ :: _ =>
    if maxRecoveryAttempts policy <=? recoveryAttempts health then
      healingDecisionSchema (mkHealing hs_quarantined rollbackOrEscalate false None
        ("Automated recovery attempts were exhausted." :: unhealthy))
    else if fallbackAvailable health then
      healingDecisionSchema (mkHealing hs_degraded act_use_fallback true
        (Some (baseBackoffSeconds policy)) unhealthy)
    else
      healingDecisionSchema (mkHealing hs_recovering act_retry_with_backoff false
        (Some (baseBackoffSeconds policy * 2 ^ Z.min (recoveryAttempts health) 8)) unhealthy)
  end.

(** ** Abstract specifications *)

(** The order of the gates: guardrails first, then evidence, then lift, then
    human approval. *)
Definition gate (e : LearningProposalEvaluation) (p : AdaptiveLearningPolicy) :
    LearningDecisionKind :=
  if num_ltb (maxGuardrailRegression p) (worstGuardrailRegression e) then dec_reject
  else if bool_decide (missingEvidence e p ≠ []) then dec_continue_experiment
  else if num_ltb (measuredLift e) (minRelativeLift p) then dec_reject
  else if needsApproval p (risk e) && negb (humanApproved e) then dec_requires_approval
  else dec_promote.

(** Everything a promotion needs, as inequalities on the measurements. *)
Record promotable (e : LearningProposalEvaluation) (p : AdaptiveLearningPolicy) : Prop := {
  pr_guardrail : num_leb (worstGuardrailRegression e) (maxGuardrailRegression p) = true;
  pr_evidence : minEvidence p <= evidenceCount e;
  pr_entities : minUniqueEntities p <= uniqueEntities e;
  pr_confidence : num_leb (minConfidence p) (confidence e) = true;
  pr_lift : num_leb (minRelativeLift p) (measuredLift e) = true;
  pr_approval : humanApproved e = true \/ risk e ∉ humanApprovalFor p;
}.

(** ** Schema lemmas *)

Lemma reasons_array_ok l : l ≠ [] -> Forall (fun s => s ≠ "") l -> reasons_array l = Ok l.
Proof.
  intros Hne Hl. unfold reasons_array.
  assert (zod_array min1_text l = Ok l) as ->.
  { clear Hne. induction Hl as [|s l Hs Hl IH]; [done|]. msimpl.
    assert (min1_text s = Ok s) as -> by (by destruct s). by rewrite IH. }
  msimpl. unfold refine. by rewrite bool_decide_false.
Qed.

Lemma learningDecisionSchema_ok k lift l :
  is_nan lift = false -> l ≠ [] -> Forall (fun s => s ≠ "") l ->
  learningDecisionSchema (mkDecision k lift l) = Ok (mkDecision k lift l).
Proof.
  intros Hn Hl Hf. unfold learningDecisionSchema, any_number, refine. simpl. rewrite Hn.
  msimpl. by rewrite reasons_array_ok.
Qed.

Lemma missingEvidence_nonempty e p : Forall (fun s => s ≠ "") (missingEvidence e p).
Proof. unfold missingEvidence. repeat case_match; repeat constructor; done. Qed.

Lemma missingEvidence_nil e p : missingEvidence e p = [] <->
  minEvidence p <= evidenceCount e /\ minUniqueEntities p <= uniqueEntities e /\
  num_ltb (confidence e) (minConfidence p) = false.
Proof.
  unfold missingEvidence.
  destruct (Z.ltb_spec (evidenceCount e) (minEvidence p)),
    (Z.ltb_spec (uniqueEntities e) (minUniqueEntities p)),
    (num_ltb (confidence e) (minConfidence p)); simpl; split;
    try (intros H'; discriminate H'); intros; destruct_and?; split_and?; done || lia.
Qed.

(** What a successful parse of the inputs says. *)
Lemma evaluation_valid e e' : learningProposalEvaluationSchema e = Ok e' ->
  e' = e /\ is_nan (confidence e) = false /\ is_nan (worstGuardrailRegression e) = false /\
  is_finite (baselineMetric e) = true /\ is_finite (candidateMetric e) = true.
Proof.
  unfold learningProposalEvaluationSchema. intros H. schema_inv.
  split; [by destruct e|].
  repeat match goal with H : num_leb _ _ = true |- _ => apply num_leb_not_nan in H as [??] end.
  done.
Qed.

Lemma policy_valid raw p : adaptiveLearningPolicySchema raw = Ok p ->
  is_nan (minConfidence p) = false /\ is_nan (minRelativeLift p) = false /\
  is_nan (maxGuardrailRegression p) = false.
Proof.
  unfold adaptiveLearningPolicySchema. intros H. schema_inv.
  repeat match goal with
    | H : num_leb _ _ = true |- _ => apply num_leb_not_nan in H as [??]
    | H : num_ltb _ _ = true |- _ => apply num_ltb_not_nan in H as [??] end.
  done.
Qed.

(** The denominator of the lift is a positive finite number. *)
Lemma lift_denominator x : is_finite x = true ->
  let d := num_max (num_abs x) (num_lit 1 1000000000) in
  is_finite d = true /\ num_ltb num_zero d = true.
Proof.
  intros Hx d. subst d. unfold num_max.
  assert (is_nan (num_abs x) = false) as -> by (by destruct x).
  assert (exists m k, num_lit 1 1000000000 = S754_finite false m k) as (m & k & ->)
    by (vm_compute; eauto).
  simpl. destruct (num_ltb (num_abs x) _) eqn:E; [done|]. by destruct x.
Qed.

Lemma measuredLift_not_nan e : is_finite (baselineMetric e) = true ->
  is_finite (candidateMetric e) = true -> is_nan (measuredLift e) = false.
Proof.
  intros Hb Hc. unfold measuredLift.
  destruct (lift_denominator (baselineMetric e) Hb) as [Hf Hp].
  apply num_div_not_nan; [|done|done]. case_match; by apply num_sub_not_nan.
Qed.

(** The shared functional lemma: on inputs the schemas accept, the gate
    returns, and its decision is the specification's. *)
Lemma evaluate_gate e e' raw p :
  learningProposalEvaluationSchema e = Ok e' -> adaptiveLearningPolicySchema raw = Ok p ->
  exists rs, evaluateLearningProposal e raw = Ok (mkDecision (gate e p) (measuredLift e) rs).
Proof.
  intros He Hp. destruct (evaluation_valid _ _ He) as (-> & _ & _ & Hb & Hc).
  pose proof (measuredLift_not_nan _ Hb Hc) as Hn. pose proof (missingEvidence_nonempty e p) as Hm.
  unfold evaluateLearningProposal, gate. rewrite He, Hp. msimpl.
  case_match; [eexists; apply learningDecisionSchema_ok; by repeat constructor|].
  destruct (missingEvidence e p) as [|m ms].
  - rewrite bool_decide_false by naive_solver.
    repeat case_match; eexists; apply learningDecisionSchema_ok; by repeat constructor.
  - rewrite bool_decide_true by done. eexists. by apply learningDecisionSchema_ok.
Qed.

Lemma evaluate_ok_inv e raw d : evaluateLearningProposal e raw = Ok d ->
  exists e' p, learningProposalEvaluationSchema e = Ok e' /\
    adaptiveLearningPolicySchema raw = Ok p /\ decision d = gate e p.
Proof.
  intros H. destruct (learningProposalEvaluationSchema e) as [e'|] eqn:He.
  2: { unfold evaluateLearningProposal in H. by rewrite He in H. }
  destruct (adaptiveLearningPolicySchema raw) as [p|] eqn:Hp.
  2: { unfold evaluateLearningProposal in H. by rewrite He, Hp in H. }
  destruct (evaluate_gate _ _ _ _ He Hp) as [rs Hr]. exists e', p.
  rewrite Hr in H. by injection H as <-.
Qed.

Lemma gate_promote e p :
  is_nan (confidence e) = false -> is_nan (worstGuardrailRegression e) = false ->
  is_nan (measuredLift e) = false -> is_nan (minConfidence p) = false ->
  is_nan (minRelativeLift p) = false -> is_nan (maxGuardrailRegression p) = false ->
  gate e p = dec_promote <-> promotable e p.
Proof.
  intros Hc Hw Hl Hmc Hml Hmg. unfold gate, needsApproval.
  assert (promotable e p <->
    num_ltb (maxGuardrailRegression p) (worstGuardrailRegression e) = false /\
    missingEvidence e p = [] /\ num_ltb (measuredLift e) (minRelativeLift p) = false /\
    (humanApproved e = true \/ risk e ∉ humanApprovalFor p)) as ->.
  { rewrite missingEvidence_nil, !num_ltb_false by done. split.
    - intros [? ? ? ? ? ?]. by split_and!.
    - intros (? & (? & ? & ?) & ? & ?). by constructor. }
  destruct (num_ltb (maxGuardrailRegression p) _); [naive_solver|].
  case_bool_decide as Hm; [naive_solver|].
  destruct (num_ltb (measuredLift e) _); [naive_solver|].
  case_bool_decide as Hr; destruct (humanApproved e); simpl; naive_solver.
Qed.

(** The approval flag enters the gate only in its last test. *)
Lemma gate_approval e p b :
  gate (e <| humanApproved := b |>) p =
    if num_ltb (maxGuardrailRegression p) (worstGuardrailRegression e) then dec_reject
    else if bool_decide (missingEvidence e p ≠ []) then dec_continue_experiment
    else if num_ltb (measuredLift e) (minRelativeLift p) then dec_reject
    else if needsApproval p (risk e) && negb b then dec_requires_approval
    else dec_promote.
Proof. reflexivity. Qed.

(** *** The healing decision *)

Lemma observation_valid h h' : runtimeHealthObservationSchema h = Ok h' ->
  h' = h /\ 0 <= recoveryAttempts h.
Proof.
  unfold runtimeHealthObservationSchema. intros H. schema_inv. split; [by destruct h|lia].
Qed.

Lemma healing_policy_base raw p : healingPolicySchema raw = Ok p -> 0 < baseBackoffSeconds p.
Proof.
  unfold healingPolicySchema. intros H. schema_inv. lia.
Qed.

Lemma healingDecisionSchema_ok s a x o l :
  (forall n, o = Some n -> 0 < n) -> l ≠ [] -> Forall (fun s => s ≠ "") l ->
  healingDecisionSchema (mkHealing s a x o l) = Ok (mkHealing s a x o l).
Proof.
  intros Ho Hl Hf. unfold healingDecisionSchema. simpl. rewrite (reasons_array_ok l) by done.
  destruct o as [n|]; [|done]. simpl. unfold positive_int, refine.
  by rewrite (proj2 (Z.ltb_lt 0 n) (Ho n eq_refl)).
Qed.

Lemma unhealthyReasons_nonempty h p : Forall (fun s => s ≠ "") (unhealthyReasons h p).
Proof.
  unfold unhealthyReasons. repeat (apply Forall_app; split); case_match; repeat constructor; done.
Qed.

Lemma backoff_range base n : 0 < base -> 0 <= n ->
  base <= base * 2 ^ Z.min n 8 <= base * 256.
Proof.
  intros Hb Hn. pose proof (Z.pow_le_mono_r 2 0 (Z.min n 8) ltac:(lia) ltac:(lia)) as H0.
  pose proof (Z.pow_le_mono_r 2 (Z.min n 8) 8 ltac:(lia) ltac:(lia)) as H8.
  change (2 ^ 0) with 1 in H0. change (2 ^ 8) with 256 in H8. nia.
Qed.

(** The health decision as a function of three facts: a breached guardrail,
    exhausted recovery and an available fallback. *)
Definition healing (h : RuntimeHealthObservation) (p : HealingPolicy) :
    RuntimeHealthState * bool * option Z :=
  let bad := bool_decide (unhealthyReasons h p ≠ []) in
  if guardrailBreached h || (bad && (maxRecoveryAttempts p <=? recoveryAttempts h))
  then (hs_quarantined, false, None)
  else if negb bad then (hs_healthy, true, None)
  else if fallbackAvailable h then (hs_degraded, true, Some (baseBackoffSeconds p))
  else (hs_recovering, false,
        Some (baseBackoffSeconds p * 2 ^ Z.min (recoveryAttempts h) 8)).

Lemma decide_healing h h' raw p :
  runtimeHealthObservationSchema h = Ok h' -> healingPolicySchema raw = Ok p ->
  exists d, decideHealingAction h raw = Ok d /\
    (nextState d, allowExternalActions d, retryAfterSeconds d) = healing h p.
Proof.
  intros Hh Hp. destruct (observation_valid _ _ Hh) as [-> Hra].
  pose proof (healing_policy_base _ _ Hp) as Hb.
  pose proof (backoff_range _ _ Hb Hra) as Hr. pose proof (unhealthyReasons_nonempty h p) as Hu.
  unfold decideHealingAction, healing. rewrite Hh, Hp. msimpl.
  destruct (guardrailBreached h); simpl.
  { rewrite healingDecisionSchema_ok by (done || by repeat constructor). eauto. }
  destruct (unhealthyReasons h p) as [|u us]; simpl.
  { rewrite healingDecisionSchema_ok by (done || (constructor; [by case_bool_decide|constructor])). eauto. }
  destruct (maxRecoveryAttempts p <=? _); simpl.
  { rewrite healingDecisionSchema_ok by (done || by constructor). eauto. }
  destruct (fallbackAvailable h);
    rewrite healingDecisionSchema_ok by (done || (intros ? [= <-]; lia)); eauto.
Qed.

Lemma retry_delay h raw p d n :
  healingPolicySchema raw = Ok p -> decideHealingAction h raw = Ok d ->
  nextState d = hs_recovering -> retryAfterSeconds d = Some n ->
  n = baseBackoffSeconds p * 2 ^ Z.min (recoveryAttempts h) 8 /\ 0 <= recoveryAttempts h.
Proof.
  intros Hp Hd Hs Hn. destruct (runtimeHealthObservationSchema h) as [h'|] eqn:Hh.
  2: { unfold decideHealingAction in Hd. by rewrite Hh in Hd. }
  destruct (decide_healing _ _ _ _ Hh Hp) as (d' & Hd' & Hq). rewrite Hd in Hd'.
  injection Hd' as <-. split; [|by apply (observation_valid _ _ Hh)].
  rewrite Hs, Hn in Hq. revert Hq. unfold healing. by repeat case_match; intros [= _ ->].
Qed.

(** ** Theorems *)

(** C1. The promotion gate promotes exactly when the measured evidence passes
    every threshold of the policy (guardrail regression, observation count,
    unique entities, confidence, relative lift) and the change is approved by
    a human whenever its risk tier needs it; and on inputs its schemas accept
    it always returns a decision. *)
Theorem evaluate_promotes_iff e e' raw p :
  learningProposalEvaluationSchema e = Ok e' ->
  adaptiveLearningPolicySchema raw = Ok p ->
  exists d, evaluateLearningProposal e raw = Ok d /\
    (decision d = dec_promote <-> promotable e p).
Proof.
  intros He Hp. destruct (evaluate_gate _ _ _ _ He Hp) as [rs Hr].
  destruct (evaluation_valid _ _ He) as (_ & ? & ? & ? & ?).
  destruct (policy_valid _ _ Hp) as (? & ? & ?).
  eexists. split; [exact Hr|]. apply gate_promote; auto using measuredLift_not_nan.
Qed.

(** A human approval is consulted only by the last gate: it turns
    "requires approval" into a promotion and changes no other decision, so it
    never waives a guardrail breach, missing evidence or a missing lift. *)
Theorem approval_is_not_a_waiver e raw d d' :
  evaluateLearningProposal (e <| humanApproved := false |>) raw = Ok d ->
  evaluateLearningProposal (e <| humanApproved := true |>) raw = Ok d' ->
  decision d' =
    match decision d with dec_requires_approval => dec_promote | k => k end.
Proof.
  intros (e1 & p & He1 & Hp & ->)%evaluate_ok_inv (e2 & p' & He2 & Hp' & ->)%evaluate_ok_inv.
  assert (p' = p) as -> by congruence. rewrite !gate_approval.
  destruct (num_ltb (maxGuardrailRegression p) _); [done|].
  destruct (bool_decide _); [done|]. destruct (num_ltb (measuredLift e) _); [done|].
  by destruct (needsApproval p _).
Qed.

(** With the default policy a change of high or critical risk is never
    promoted without a human approval. *)
Theorem high_risk_needs_human e d :
  evaluateLearningProposal e defaultLearningPolicy = Ok d ->
  decision d = dec_promote -> risk e = risk_high \/ risk e = risk_critical ->
  humanApproved e = true.
Proof.
  intros (e1 & p & He1 & Hp & ->)%evaluate_ok_inv Hk Hr.
  assert (humanApprovalFor p = [risk_high; risk_critical]) as Ha.
  { revert Hp. vm_compute. by intros [= <-]. }
  destruct (humanApproved e) eqn:Hh; [done|]. exfalso. revert Hk. unfold gate.
  assert (needsApproval p (risk e) = true) as ->.
  { unfold needsApproval. rewrite Ha. by destruct Hr as [-> | ->]. }
  rewrite Hh. destruct (num_ltb (maxGuardrailRegression p) _); [done|].
  destruct (bool_decide _); [done|]. by destruct (num_ltb (measuredLift e) _).
Qed.

(** A guardrail regression above 1 is not rejected by the promotion gate:
    the schema of its input refuses it and the call throws. *)
Theorem large_regression_throws e raw :
  num_ltb num_one (worstGuardrailRegression e) = true ->
  evaluateLearningProposal e raw = Err ZodError.
Proof.
  intros H. unfold evaluateLearningProposal.
  assert (learningProposalEvaluationSchema e = Err ZodError) as ->; [|done].
  unfold learningProposalEvaluationSchema.
  assert (unit_number (worstGuardrailRegression e) = Err ZodError) as ->.
  { unfold unit_number, number_in, refine. by rewrite (num_ltb_asym _ _ H), andb_false_r. }
  unfold min1_text, nonneg_int, unit_number, number_in, finite_number, refine. msimpl.
  repeat (match goal with |- context [if ?b then _ else _] => destruct b end; try done).
Qed.

(** On inputs its schemas accept the healing decision always returns, and
    it allows external actions exactly when no guardrail is breached and the
    component is either within all thresholds or has a fallback and recovery
    attempts left. *)
Theorem healing_allows_iff h h' raw p :
  runtimeHealthObservationSchema h = Ok h' -> healingPolicySchema raw = Ok p ->
  exists d, decideHealingAction h raw = Ok d /\
    (allowExternalActions d = true <->
     guardrailBreached h = false /\
     (unhealthyReasons h p = [] \/
      (fallbackAvailable h = true /\ recoveryAttempts h < maxRecoveryAttempts p))).
Proof.
  intros Hh Hp. destruct (decide_healing _ _ _ _ Hh Hp) as (d & Hd & Hs).
  exists d. split; [done|]. assert (allowExternalActions d = (healing h p).1.2) as -> by (by rewrite <- Hs).
  unfold healing. destruct (guardrailBreached h); simpl; [naive_solver|].
  destruct (unhealthyReasons h p); simpl; [naive_solver|].
  destruct (Z.leb_spec (maxRecoveryAttempts p) (recoveryAttempts h)); simpl; [naive_solver lia|].
  destruct (fallbackAvailable h); naive_solver.
Qed.

(** A component is quarantined exactly when a guardrail is breached or it
    is unhealthy with its recovery attempts exhausted; quarantine never
    schedules a retry. *)
Theorem healing_quarantine_iff h raw d p :
  decideHealingAction h raw = Ok d -> healingPolicySchema raw = Ok p ->
  (nextState d = hs_quarantined <->
   guardrailBreached h = true \/
   (unhealthyReasons h p ≠ [] /\ maxRecoveryAttempts p <= recoveryAttempts h)) /\
  (nextState d = hs_quarantined ->
   retryAfterSeconds d = None /\ allowExternalActions d = false).
Proof.
  intros Hd Hp. destruct (runtimeHealthObservationSchema h) as [h'|] eqn:Hh.
  2: { unfold decideHealingAction in Hd. by rewrite Hh in Hd. }
  destruct (decide_healing _ _ _ _ Hh Hp) as (d' & Hd' & Hs). rewrite Hd in Hd'.
  injection Hd' as <-. revert Hs. unfold healing.
  destruct (guardrailBreached h); simpl; [intros [= -> -> ->]; naive_solver|].
  destruct (unhealthyReasons h p); simpl; [intros [= -> -> ->]; naive_solver|].
  destruct (Z.leb_spec (maxRecoveryAttempts p) (recoveryAttempts h)); simpl;
    [intros [= -> -> ->]; naive_solver|].
  destruct (fallbackAvailable h); intros [= -> -> ->]; (split; [split; [done|naive_solver lia]|done]).
Qed.

(** A retry waits between the base backoff and 256 times the base, and
    never less than a retry with fewer recovery attempts under the same
    policy. *)
Theorem healing_backoff_bounds h1 h2 raw p d1 d2 n1 n2 :
  healingPolicySchema raw = Ok p ->
  decideHealingAction h1 raw = Ok d1 -> nextState d1 = hs_recovering ->
  decideHealingAction h2 raw = Ok d2 -> nextState d2 = hs_recovering ->
  retryAfterSeconds d1 = Some n1 -> retryAfterSeconds d2 = Some n2 ->
  recoveryAttempts h1 <= recoveryAttempts h2 ->
  baseBackoffSeconds p <= n1 <= baseBackoffSeconds p * 256 /\ n1 <= n2.
Proof.
  intros Hp Hd1 Hs1 Hd2 Hs2 Hn1 Hn2 Hle.
  destruct (retry_delay _ _ _ _ _ Hp Hd1 Hs1 Hn1) as [-> H1].
  destruct (retry_delay _ _ _ _ _ Hp Hd2 Hs2 Hn2) as [-> H2].
  pose proof (healing_policy_base _ _ Hp). split; [by apply backoff_range|].
  apply Z.mul_le_mono_nonneg_l; [lia|]. apply Z.pow_le_mono_r; lia.
Qed.

(** ** Witnesses *)

Module HarnessExample.
Definition evaluation : LearningProposalEvaluation :=
  mkEvaluation "p1" risk_high 40 12 (num_lit 9 10) dir_increase (num_of_Z 10) (num_of_Z 12)
    num_zero true.
Definition policy : AdaptiveLearningPolicy :=
  {| minEvidence := 20; minUniqueEntities := 5; minConfidence := num_lit 8 10;
     minRelativeLift := num_lit 5 100; maxGuardrailRegression := num_lit 2 100;
     humanApprovalFor := [risk_high; risk_critical] |}.
Definition ask : LearningDecision :=
  mkDecision dec_requires_approval (measuredLift evaluation)
    ["The change passed evidence gates but its risk requires approval."].
Definition promote : LearningDecision :=
  mkDecision dec_promote (measuredLift evaluation)
    ["Candidate passed evidence, lift, confidence, and guardrail gates."].

(** A component that keeps failing after [n] recovery attempts. *)
Definition failing (n : Z) : RuntimeHealthObservation :=
  mkObservation "crm" hs_degraded (num_lit 5 10) 5 (num_of_Z 100) 10 false false false n false.
Definition healing_policy : HealingPolicy :=
  {| maxErrorRate := num_lit 5 100; maxConsecutiveFailures := 3;
     maxP95LatencyMs := num_of_Z 10000; maxStalenessSeconds := 900;
     maxRecoveryAttempts := 3; baseBackoffSeconds := 30 |}.
Definition quarantine : HealingDecision :=
  mkHealing hs_quarantined act_quarantine_and_escalate false None
    ["Automated recovery attempts were exhausted."; "Dependency is unavailable.";
     "Error rate exceeds policy."; "Consecutive failure limit reached."].
Definition retry (n : Z) : HealingDecision :=
  mkHealing hs_recovering act_retry_with_backoff false (Some n)
    ["Dependency is unavailable."; "Error rate exceeds policy.";
     "Consecutive failure limit reached."].
End HarnessExample.

Section witnesses.
Import HarnessExample.

Lemma evaluate_promotes_iff_witness :
  exists d, evaluateLearningProposal evaluation defaultLearningPolicy = Ok d /\
    (decision d = dec_promote <-> promotable evaluation policy).
Proof. eapply evaluate_promotes_iff; vm_compute; reflexivity. Defined.

Lemma approval_is_not_a_waiver_witness : decision promote = dec_promote.
Proof.
  apply (approval_is_not_a_waiver evaluation defaultLearningPolicy ask promote);
    vm_compute; reflexivity.
Defined.

Lemma high_risk_needs_human_witness : humanApproved evaluation = true.
Proof.
  apply (high_risk_needs_human evaluation promote);
    [vm_compute; reflexivity|reflexivity|left; reflexivity].
Defined.

Lemma large_regression_throws_witness :
  evaluateLearningProposal
    (evaluation <| worstGuardrailRegression := num_of_Z 3 |>) defaultLearningPolicy = Err ZodError.
Proof. apply large_regression_throws. vm_compute. reflexivity. Defined.

Lemma healing_allows_iff_witness :
  exists d, decideHealingAction (failing 1) defaultHealingPolicy = Ok d /\
    (allowExternalActions d = true <->
     guardrailBreached (failing 1) = false /\
     (unhealthyReasons (failing 1) healing_policy = [] \/
      (fallbackAvailable (failing 1) = true /\
       recoveryAttempts (failing 1) < maxRecoveryAttempts healing_policy))).
Proof. eapply healing_allows_iff; vm_compute; reflexivity. Defined.

Lemma healing_quarantine_iff_witness : retryAfterSeconds quarantine = None.
Proof.
  eapply (healing_quarantine_iff (failing 3) defaultHealingPolicy quarantine healing_policy);
    vm_compute; reflexivity.
Defined.

Lemma healing_backoff_bounds_witness : 60 <= 120.
Proof.
  eapply (healing_backoff_bounds (failing 1) (failing 2) defaultHealingPolicy healing_policy
    (retry 60) (retry 120) 60 120); vm_compute; (reflexivity || discriminate).
Defined.
End witnesses.
