(* ===== verification/Sql.v ===== *)
(** * The SQL interface of the Postgres repositories

    The database is not part of the repository: it is the class [SqlEngine]
    of table operations, and what the code relies on is [SqlLaws].  A table
    holds a bag of rows, so every law is up to permutation.  [WHERE] clauses
    are written with SQL's three-valued logic: a comparison with [NULL] is
    unknown and keeps no row.  One statement is one atomic step.  Two column
    types change what they are given: a [uuid] is compared whatever its case
    and printed in lower case ([uuid_in]), and a [jsonb] object comes back
    with its keys in another order ([jsonb_in]). *)

From S2P Require Import Prelude Numbers JsRuntime Zod.

(** ** Three-valued conditions *)

Abbreviation tri := (option bool).

Definition holds (t : tri) : bool := match t with Some true => true | _ => false end.

Definition col_eq {A} `{EqDecision A} (c v : A) : tri := Some (bool_decide (c = v)).
Definition null_eq {A} `{EqDecision A} (c : option A) (v : A) : tri :=
  (fun x => bool_decide (x = v)) <$> c.
Definition is_null {A} (c : option A) : tri := Some (match c with None => true | _ => false end).
Definition null_lte (c : option Z) (v : Z) : tri := (fun x => x <=? v) <$> c.
Definition null_gt (c : option Z) (v : Z) : tri := (fun x => v <? x) <$> c.
Definition col_in {A} `{EqDecision A} (c : A) (vs : list A) : tri := Some (bool_decide (c ∈ vs)).
Definition col_not_in {A} `{EqDecision A} (c : A) (vs : list A) : tri :=
  Some (bool_decide (c ∉ vs)).

Definition sql_and (a b : tri) : tri :=
  match a, b with
  | Some false, _ | _, Some false => Some false
  | Some true, Some true => Some true
  | _, _ => None
  end.
Definition sql_or (a b : tri) : tri :=
  match a, b with
  | Some true, _ | _, Some true => Some true
  | Some false, Some false => Some false
  | _, _ => None
  end.

Fixpoint sql_all (cs : list tri) : tri :=
  match cs with [] => Some true | c :: cs' => sql_and c (sql_all cs') end.

Lemma holds_and a b : holds (sql_and a b) = holds a && holds b.
Proof. by destruct a as [[]|], b as [[]|]. Qed.
Lemma holds_or a b : holds (sql_or a b) = holds a || holds b.
Proof. by destruct a as [[]|], b as [[]|]. Qed.
Lemma holds_all cs : holds (sql_all cs) = forallb holds cs.
Proof. induction cs as [|c cs IH]; simpl; [done|]. by rewrite holds_and, IH. Qed.

Lemma holds_some b : holds (Some b) = b.
Proof. by destruct b. Qed.
Lemma holds_col_eq {A} `{EqDecision A} (a b : A) : holds (col_eq a b) = bool_decide (a = b).
Proof. apply holds_some. Qed.
Lemma holds_col_in {A} `{EqDecision A} (a : A) l : holds (col_in a l) = bool_decide (a ∈ l).
Proof. apply holds_some. Qed.
Lemma holds_col_not_in {A} `{EqDecision A} (a : A) l :
  holds (col_not_in a l) = bool_decide (a ∉ l).
Proof. apply holds_some. Qed.
Lemma holds_null_eq {A} `{EqDecision A} (a : option A) (b : A) :
  holds (null_eq a b) = bool_decide (a = Some b).
Proof.
  destruct a as [a|]; [|done]. change (holds (Some (bool_decide (a = b))) = bool_decide (Some a = Some b)).
  rewrite holds_some. apply bool_decide_ext. naive_solver.
Qed.

Lemma holds_is_null {A} `{EqDecision A} (a : option A) : holds (is_null a) = bool_decide (a = None).
Proof. destruct a; [by rewrite bool_decide_false|done]. Qed.
Lemma holds_null_lte a v : holds (null_lte a v) = match a with Some x => x <=? v | None => false end.
Proof. destruct a; [apply holds_some|done]. Qed.

#[global] Arguments holds : simpl never.
#[global] Arguments sql_all : simpl never.
#[global] Arguments sql_and : simpl never.
#[global] Arguments sql_or : simpl never.

(** Turn a [WHERE] clause into a boolean condition. *)
Ltac sql_simpl :=
  repeat first [rewrite holds_all in * | rewrite holds_and in * | rewrite holds_or in *
    | rewrite holds_col_eq in * | rewrite holds_col_in in * | rewrite holds_col_not_in in *
    | rewrite holds_null_eq in * | progress cbn [forallb] in * | rewrite andb_true_r in *].

(** ** Tables *)

Definition bfilter {R} (p : R -> bool) (l : list R) : list R := filter (fun r => p r = true) l.

Class SqlEngine := {
  table : Type -> Type;
  rows {R} : table R -> list R;
  select {R} : (R -> bool) -> table R -> list R;
  (** [UPDATE ... SET f WHERE p RETURNING *] *)
  update {R} : (R -> bool) -> (R -> R) -> table R -> list R * table R;
  (** [INSERT ... ON CONFLICT (key) DO NOTHING RETURNING *], where [conflict]
      compares the conflict target of two rows *)
  insert {R} : (R -> R -> bool) -> R -> table R -> list R * table R;
  (** the value a text stands for where a [uuid] is expected, printed: a uuid
      is read whatever its case and printed in lower case *)
  uuid_in : string -> result string;
  (** what a [jsonb] column gives back of an object: its keys are reordered *)
  jsonb_in : jobject -> jobject;
}.

Class SqlLaws (E : SqlEngine) := {
  select_rows {R} p (t : table R) : select p t ≡ₚ bfilter p (rows t);
  update_returning {R} p f (t : table R) : (update p f t).1 ≡ₚ f <$> bfilter p (rows t);
  update_rows {R} p f (t : table R) :
    rows (update p f t).2 ≡ₚ (fun r => if p r then f r else r) <$> rows t;
  insert_conflict {R} (c : R -> R -> bool) r t :
    existsb (c r) (rows t) = true -> insert c r t = ([], t);
  insert_fresh {R} (c : R -> R -> bool) r t :
    existsb (c r) (rows t) = false ->
    (insert c r t).1 = [r] /\ rows (insert c r t).2 ≡ₚ r :: rows t;
}.

(** *** An engine that keeps its rows in a list, for the witnesses *)

Module ListEngine.
(** [jsonb] orders keys by length, then by bytes. *)
Definition jsonb_before {A} (a b : string * A) : bool :=
  (String.length a.1 <? String.length b.1)%nat ||
  ((String.length a.1 =? String.length b.1)%nat && String.leb a.1 b.1).
Fixpoint jsonb_value (v : json) : json :=
  match v with
  | JArr l => JArr (jsonb_value <$> l)
  | JObj fs => JObj (sort_by jsonb_before ((fun kv => (kv.1, jsonb_value kv.2)) <$> fs))
  | v => v
  end.
Definition jsonb_object (fs : jobject) : jobject :=
  sort_by jsonb_before ((fun kv => (kv.1, jsonb_value kv.2)) <$> fs).

#[export] Instance list_engine : SqlEngine := {|
  table := list;
  rows R t := t;
  select R p t := bfilter p t;
  update R p f t := (f <$> bfilter p t, (fun r => if p r then f r else r) <$> t);
  insert R c r t := if existsb (c r) t then ([], t) else ([r], r :: t);
  uuid_in s := Ok (lower s);
  jsonb_in := jsonb_object;
|}.

#[export] Instance list_laws : SqlLaws list_engine.
Proof. split; simpl; intros; try done; by rewrite H. Qed.
End ListEngine.

(** *** Parameters of a statement *)

Section columns.
Context `{Zod} {E : SqlEngine}.

(** A UUID that zod has accepted, as a parameter of type [uuid]. *)
Definition db_uuid (s : string) : result string := t ← uuid s; uuid_in t.
Definition db_uuid_or_null (o : option string) : result (option string) :=
  match o with Some s => t ← uuid_in s; mret (Some t) | None => mret None end.

(** A UUID as the database prints it. *)
Definition canonical (s : string) : Prop := zod_uuid s = true /\ uuid_in s = Ok s.

(** When it is a UUID at all. *)
Definition as_printed (s : string) : Prop := zod_uuid s = true -> canonical s.

Lemma db_uuid_printed s : as_printed s -> db_uuid s = uuid s.
Proof.
  unfold as_printed, canonical, db_uuid, uuid, refine. msimpl.
  destruct (zod_uuid s); [|done]. intros Hs. by destruct (Hs eq_refl) as [_ ->].
Qed.

Definition printed_or_null (o : option string) : Prop :=
  match o with Some s => as_printed s | None => True end.

Lemma db_uuid_or_null_printed o : printed_or_null o -> zod_optional uuid o = Ok o ->
  db_uuid_or_null o = Ok o.
Proof.
  destruct o as [s|]; [|done]. simpl. unfold as_printed, canonical, uuid, refine. msimpl.
  destruct (zod_uuid s); [|done]. intros Hs _. by destruct (Hs eq_refl) as [_ ->].
Qed.

Lemma db_uuid_canonical s : canonical s -> db_uuid s = Ok s.
Proof. intros [Hz Hc]. unfold db_uuid, uuid, refine. rewrite Hz. exact Hc. Qed.
Lemma canonical_uuid s : canonical s -> zod_uuid s = true.
Proof. by intros [? _]. Qed.
End columns.
#[export] Hint Resolve canonical_uuid : growth.

Section tx.
Context {E : SqlEngine} {R : Type}.

Definition tx_select (p : R -> bool) : M (table R) (list R) := gets (select p).
Definition tx_update (p : R -> bool) (f : R -> R) : M (table R) (list R) :=
  fun t => let '(rs, t') := update p f t in (Ok rs, t').
Definition tx_insert (c : R -> R -> bool) (r : R) : M (table R) (list R) :=
  fun t => let '(rs, t') := insert c r t in (Ok rs, t').
End tx.

(** ** Rows with a primary key *)

Lemma bfilter_cons {R} (p : R -> bool) r l :
  bfilter p (r :: l) = if p r then r :: bfilter p l else bfilter p l.
Proof.
  unfold bfilter. destruct (p r) eqn:E1; [by rewrite filter_cons_True|].
  rewrite filter_cons_False; [done|congruence].
Qed.

Lemma elem_of_bfilter {R} (p : R -> bool) r l : r ∈ bfilter p l <-> p r = true /\ r ∈ l.
Proof. unfold bfilter. by rewrite list_elem_of_filter. Qed.

Lemma bfilter_ext {R} (p q : R -> bool) l :
  (forall r, r ∈ l -> p r = q r) -> bfilter p l = bfilter q l.
Proof.
  induction l as [|r l IH]; intros H; [done|]. rewrite !bfilter_cons, (H r) by set_solver.
  rewrite IH; [done|]. intros; apply H; set_solver.
Qed.

Lemma bfilter_true {R} (l : list R) : bfilter (fun _ => true) l = l.
Proof. induction l as [|r l IH]; [done|]. by rewrite bfilter_cons, IH. Qed.

Lemma bfilter_none {R} (p : R -> bool) l : (forall r, r ∈ l -> p r = false) -> bfilter p l = [].
Proof.
  induction l as [|r l IH]; intros H; [done|]. rewrite bfilter_cons, (H r) by set_solver.
  apply IH. intros; apply H; set_solver.
Qed.

Lemma bfilter_fmap {A B} (p : B -> bool) (g : A -> B) l :
  bfilter p (g <$> l) = g <$> bfilter (fun a => p (g a)) l.
Proof.
  induction l as [|a l IH]; [done|]. csimpl. rewrite !bfilter_cons, IH. by destruct (p (g a)).
Qed.

Lemma bfilter_app {R} (p : R -> bool) l l' : bfilter p (l ++ l') = bfilter p l ++ bfilter p l'.
Proof. apply filter_app. Qed.

Lemma bfilter_bfilter {R} (p q : R -> bool) l :
  bfilter p (bfilter q l) = bfilter (fun r => q r && p r) l.
Proof.
  induction l as [|r l IH]; [done|]. rewrite !bfilter_cons. destruct (q r); simpl; [|done].
  by rewrite bfilter_cons, IH.
Qed.

Lemma existsb_elem {R} (p : R -> bool) l : existsb p l = true <-> exists r, r ∈ l /\ p r = true.
Proof. rewrite existsb_exists. setoid_rewrite list_elem_of_In. done. Qed.

Lemma existsb_perm {R} (p : R -> bool) l l' : l ≡ₚ l' -> existsb p l = existsb p l'.
Proof.
  intros H. apply eq_true_iff_eq. rewrite !existsb_elem. by setoid_rewrite H.
Qed.

#[export] Instance bfilter_perm {R} (p : R -> bool) : Proper ((≡ₚ) ==> (≡ₚ)) (bfilter p).
Proof. intros l l' H. unfold bfilter. by rewrite H. Qed.

Section keyed.
Context {R K : Type} `{EqDecision K} (idf : R -> K).

(** The rows that satisfy [q] among those with one id: at most one. *)
Lemma bfilter_key l x (q : R -> bool) :
  NoDup (idf <$> l) ->
  bfilter (fun r => bool_decide (idf r = x) && q r) l =
    match list_find (fun r => idf r = x) l with
    | Some (_, r) => if q r then [r] else []
    | None => []
    end.
Proof.
  induction l as [|r l IH]; csimpl; [done|].
  intros [Hr Hl]%NoDup_cons. rewrite bfilter_cons.
  destruct (decide (idf r = x)) as [Hx|Hx].
  - rewrite bool_decide_true by done. simpl.
    rewrite bfilter_none; [by destruct (q r)|].
    intros r' Hr'. rewrite bool_decide_false; [done|]. intros Hb.
    apply Hr. rewrite Hx, <- Hb. by apply list_elem_of_fmap_2.
  - rewrite bool_decide_false by done. simpl.
    rewrite IH by done. destruct (list_find _ l) as [[i y]|]; done.
Qed.

Lemma nodup_key_inj l r r' : NoDup (idf <$> l) -> r ∈ l -> r' ∈ l -> idf r' = idf r -> r' = r.
Proof.
  intros Hd [i Hi]%list_elem_of_lookup [j Hj]%list_elem_of_lookup Hk.
  assert (i = j) as -> by (eapply NoDup_lookup; [exact Hd| |];
    rewrite list_lookup_fmap, ?Hi, ?Hj; simpl; by rewrite ?Hk).
  congruence.
Qed.

Lemma bfilter_key_elem l r (p : R -> bool) : NoDup (idf <$> l) -> r ∈ l ->
  (forall x, x ∈ l -> p x = bool_decide (idf x = idf r)) -> bfilter p l = [r].
Proof.
  intros Hd Hr Hp. rewrite (bfilter_ext _ (fun x => bool_decide (idf x = idf r) && true))
    by (intros; rewrite andb_true_r; auto).
  rewrite bfilter_key by done. destruct (list_find _ l) as [[i y]|] eqn:Hf.
  - apply list_find_Some in Hf as (Hi & Hy & _). f_equal.
    apply (nodup_key_inj l); try done. by eapply list_elem_of_lookup_2.
  - apply list_find_None in Hf. rewrite Forall_forall in Hf. by destruct (Hf r Hr).
Qed.

Context {E : SqlEngine} {L : SqlLaws E}.

(** [SELECT ... LIMIT 1] by a unique key. *)
Lemma select_unique (t : table R) r (p : R -> bool) : NoDup (idf <$> rows t) -> r ∈ rows t ->
  (forall x, x ∈ rows t -> p x = bool_decide (idf x = idf r)) -> select p t = [r].
Proof.
  intros Hd Hr Hp. pose proof (select_rows p t) as Hs.
  rewrite (bfilter_key_elem _ r) in Hs by done. by apply Permutation_singleton_r in Hs.
Qed.
End keyed.

(** A map whose keys are the ids of its values: the in-memory counterpart of
    a table with a primary key. *)
Definition keyed {R} (idf : R -> string) (m : jsmap R) : Prop :=
  mapWf m /\ forall k r, mapGet k m = Some r -> idf r = k.

Section refine_table.
Context {E : SqlEngine} {L : SqlLaws E} {R : Type} (idf : R -> string).
Implicit Types (m : jsmap R) (t : table R).

Lemma keyed_nil : keyed idf [].
Proof. split; [apply mapWf_nil|done]. Qed.

Lemma keyed_set m r : keyed idf m -> keyed idf (mapSet (idf r) r m).
Proof.
  intros [Hw Hk]. split; [by apply mapSet_wf|]. intros k r'. rewrite mapGet_set.
  case_bool_decide; [naive_solver|apply Hk].
Qed.

Lemma keyed_update m k r r' :
  keyed idf m -> mapGet k m = Some r -> idf r' = idf r -> keyed idf (mapSet k r' m).
Proof. intros Hm Hr He. rewrite <- (proj2 Hm _ _ Hr), <- He. by apply keyed_set. Qed.

Lemma keyed_values m r : keyed idf m -> r ∈ mapValues m <-> mapGet (idf r) m = Some r.
Proof.
  intros [Hw Hk]. rewrite elem_of_mapValues by done. split; [|eauto].
  intros [k Hr]. by rewrite (Hk _ _ Hr).
Qed.

Lemma keyed_nodup m : keyed idf m -> NoDup (idf <$> mapValues m).
Proof.
  intros [Hw Hk]. unfold mapWf in Hw.
  assert (idf <$> mapValues m = m.*1) as ->; [|done].
  unfold mapValues. rewrite <- list_fmap_compose. apply list_fmap_ext.
  intros i [k r] Hi. simpl. apply Hk, mapGet_elem; [done|]. by eapply list_elem_of_lookup_2.
Qed.

(** The rows of a keyed map selected by an id and a test. *)
Lemma bfilter_keyed m x (q : R -> bool) : keyed idf m ->
  bfilter (fun r => bool_decide (idf r = x) && q r) (mapValues m) =
    match mapGet x m with Some r => if q r then [r] else [] | None => [] end.
Proof.
  intros Hm. rewrite bfilter_key by (by apply keyed_nodup).
  destruct (list_find _ _) as [[i r]|] eqn:E1.
  - apply list_find_Some in E1 as (Hi & Hx & _). apply list_elem_of_lookup_2 in Hi.
    apply keyed_values in Hi; [|done]. rewrite Hx in Hi. by rewrite Hi.
  - destruct (mapGet x m) as [r|] eqn:E2; [|done]. exfalso.
    apply list_find_None in E1. rewrite Forall_forall in E1.
    apply (E1 r); [|by apply Hm]. apply elem_of_mapValues; [apply Hm|eauto].
Qed.

(** [rows t] and the values of the map are the same bag. *)
Definition table_rel m t : Prop := rows t ≡ₚ mapValues m.

(** Compare-and-swap: a guarded [mapSet] and [UPDATE ... WHERE id = x AND
    guard RETURNING] give the same answer and stay related. *)
Lemma cas_refines m t x (p q : R -> bool) f :
  keyed idf m -> table_rel m t ->
  (forall r, r ∈ mapValues m -> p r = bool_decide (idf r = x) && q r) ->
  (forall r, idf (f r) = idf r) ->
  match mapGet x m with
  | Some r =>
      if q r
      then (update p f t).1 = [f r] /\ table_rel (mapSet x (f r) m) (update p f t).2
      else (update p f t).1 = [] /\ table_rel m (update p f t).2
  | None => (update p f t).1 = [] /\ table_rel m (update p f t).2
  end.
Proof.
  intros Hm Ht Hp Hf. unfold table_rel in *.
  assert (bfilter p (mapValues m) =
    match mapGet x m with Some r => if q r then [r] else [] | None => [] end) as Hb.
  { rewrite <- bfilter_keyed by done. by apply bfilter_ext. }
  pose proof (update_returning p f t) as Hret. rewrite Ht, Hb in Hret.
  pose proof (update_rows p f t) as Hrows. rewrite Ht in Hrows.
  assert (forall P : Prop, bfilter p (mapValues m) = [] ->
    rows (update p f t).2 ≡ₚ mapValues m) as Hsame.
  { intros _ Hnil. rewrite Hrows. rewrite (list_fmap_ext _ id); [by rewrite list_fmap_id|].
    intros i r Hi. apply list_elem_of_lookup_2 in Hi. destruct (p r) eqn:Epr; [|done]. exfalso.
    apply (not_elem_of_nil r). rewrite <- Hnil. by apply elem_of_bfilter. }
  destruct (mapGet x m) as [r|] eqn:E1; [|].
  - destruct (q r) eqn:E2.
    + simpl in Hret. apply Permutation_singleton_r in Hret as ->. split; [done|].
      rewrite Hrows.
      rewrite (mapValues_set_old idf x (f r) m r) by (done || apply Hm).
      erewrite list_fmap_ext; [reflexivity|].
      intros i u Hi. apply list_elem_of_lookup_2 in Hi. rewrite Hp by done.
      destruct (String.eqb_spec (idf u) x) as [Hu|Hu].
      * rewrite bool_decide_true by done. simpl.
        assert (u = r) as -> by (apply keyed_values in Hi; [|done]; rewrite Hu in Hi; congruence).
        by rewrite E2.
      * by rewrite bool_decide_false.
    + split; [by apply Permutation_nil_r in Hret|by apply (Hsame True)].
  - split; [by apply Permutation_nil_r in Hret|by apply (Hsame True)].
Qed.

(** A fresh row goes to the end of the map and into the table. *)
Lemma set_new_rel m t r (c : R -> R -> bool) :
  mapGet (idf r) m = None -> table_rel m t -> existsb (c r) (mapValues m) = false ->
  (insert c r t).1 = [r] /\ table_rel (mapSet (idf r) r m) (insert c r t).2.
Proof.
  unfold table_rel. intros Hn Ht Hc.
  destruct (insert_fresh c r t) as [-> ->]; [by rewrite (existsb_perm _ _ _ Ht)|].
  split; [done|]. rewrite mapValues_set_new by done. rewrite Ht. by rewrite Permutation_cons_append.
Qed.

(** [SELECT ... WHERE p LIMIT 1] for a condition on the id. *)
Lemma select_keyed m t x (p q : R -> bool) :
  keyed idf m -> table_rel m t ->
  (forall r, r ∈ mapValues m -> p r = bool_decide (idf r = x) && q r) ->
  select p t = match mapGet x m with Some r => if q r then [r] else [] | None => [] end.
Proof.
  intros Hm Ht Hp. pose proof (select_rows p t) as Hs. rewrite Ht in Hs.
  assert (bfilter p (mapValues m) =
    match mapGet x m with Some r => if q r then [r] else [] | None => [] end) as Hb.
  { rewrite <- bfilter_keyed by done. by apply bfilter_ext. }
  rewrite Hb in Hs. destruct (mapGet x m) as [r|]; [destruct (q r)|].
  - by apply Permutation_singleton_r in Hs.
  - by apply Permutation_nil_r in Hs.
  - by apply Permutation_nil_r in Hs.
Qed.
End refine_table.
