(* ===== verification/Workflow.v ===== *)
(** * Workflow runs

    [packages/core/src/workflow-state.ts] (module [WorkflowState]) and
    [packages/db/src/workflow-run-repository.ts] (modules [InMemoryRuns] and
    [PostgresRuns]), with the observational equivalence of the two
    repositories. *)

From S2P Require Import Prelude Numbers JsRuntime Domain Zod Sql.

(** ** The workflow state machine *)

Module WorkflowState.
Definition TERMINAL_STATES : list WorkflowRunState := [run_completed; run_failed].

Definition ALLOWED_TRANSITIONS (from : WorkflowRunState) : list WorkflowRunState :=
  match from with
  | run_requested => [run_in_progress; run_completed; run_failed]
  | run_in_progress => [run_in_progress; run_completed; run_failed]
  | run_completed => []
  | run_failed => []
  end.

Definition isTerminalState (s : WorkflowRunState) : bool := bool_decide (s ∈ TERMINAL_STATES).

Inductive WorkflowTransitionResult :=
  | TransitionOk (toState : WorkflowRunState)
  | TransitionError (reason : string) (fromState toState : WorkflowRunState).

Definition transition_ok (r : WorkflowTransitionResult) : bool :=
  match r with TransitionOk _ => true | TransitionError _ _ _ => false end.

Definition validateWorkflowTransition (from to : WorkflowRunState) : WorkflowTransitionResult :=
  if bool_decide (to ∈ ALLOWED_TRANSITIONS from) then TransitionOk to
  else TransitionError
    ("Illegal workflow state transition: '" +:+ WorkflowRunState_str from +:+ "' → '" +:+
     WorkflowRunState_str to +:+ "'. Terminal states accept no further transitions.") from to.

Definition callbackTypeToState (c : CallbackType) : WorkflowRunState :=
  match c with
  | cb_progress => run_in_progress
  | cb_completed => run_completed
  | cb_failed => run_failed
  end.

Definition isCallbackLegalFromState (s : WorkflowRunState) (c : CallbackType) : bool :=
  transition_ok (validateWorkflowTransition s (callbackTypeToState c)).
End WorkflowState.
Import WorkflowState.

(** ** Records *)

Record WorkflowRun := mkRun {
  run_id : string;
  run_tenantId : string;
  run_workflowId : string;
  run_dedupeKey : string;
  run_state : WorkflowRunState;
  run_failureCode : option string;
  run_createdAt : Z;
  run_updatedAt : Z;
}.

#[export] Instance run_eta : Eta WorkflowRun := fun r =>
  mkRun (run_id r) (run_tenantId r) (run_workflowId r) (run_dedupeKey r) (run_state r)
    (run_failureCode r) (run_createdAt r) (run_updatedAt r).

Definition workflowRunSchema `{Zod} (r : WorkflowRun) : result WorkflowRun :=
  id ← uuid (run_id r);
  tn ← uuid (run_tenantId r);
  wf ← min1_text (run_workflowId r);
  dk ← min1_text (run_dedupeKey r);
  mret (mkRun id tn wf dk (run_state r) (run_failureCode r) (run_createdAt r) (run_updatedAt r)).

Definition run_key (tenantId workflowId : string) : string := tenantId +:+ ":" +:+ workflowId.

(** ** The in-memory repository *)

Module InMemoryRuns.
Section ops.
Context `{Zod}.

Definition upsertRequested (env : call_env) (tenantId workflowId dedupeKey : string) :
    M (jsmap WorkflowRun) WorkflowRun :=
  existing ← gets (mapGet (run_key tenantId workflowId));
  match existing with
  | Some run => mret run
  | None =>
      run ← lift (workflowRunSchema
        (mkRun (env_uuid env) tenantId workflowId dedupeKey run_requested None
           (env_now env) (env_now env)));
      modify (mapSet (run_key tenantId workflowId) run);;
      mret run
  end.

Definition transitionState (env : call_env) (tenantId workflowId : string)
    (fromState toState : WorkflowRunState) (failureCode : option string) :
    M (jsmap WorkflowRun) (option WorkflowRun) :=
  existing ← gets (mapGet (run_key tenantId workflowId));
  match existing with
  | None => mret None
  | Some run =>
      if negb (bool_decide (run_state run = fromState)) ||
         bool_decide (run_state run = run_completed) ||
         bool_decide (run_state run = run_failed)
      then mret None
      else
        updated ← lift (workflowRunSchema
          (run <| run_state := toState |>
               <| run_failureCode := failureCode ?:? run_failureCode run |>
               <| run_updatedAt := env_now env |>));
        modify (mapSet (run_key tenantId workflowId) updated);;
        mret (Some updated)
  end.

Definition getByWorkflowId (tenantId workflowId : string) :
    M (jsmap WorkflowRun) (option WorkflowRun) :=
  gets (mapGet (run_key tenantId workflowId)).
End ops.
End InMemoryRuns.

(** ** The Postgres repository *)

Module PostgresRuns.
Section ops.
Context `{Zod} {E : SqlEngine}.

Definition TERMINAL_STATES : list WorkflowRunState := [run_completed; run_failed].

(** [unique (tenant_id, workflow_id)] *)
Definition same_workflow (a b : WorkflowRun) : bool :=
  bool_decide (run_tenantId a = run_tenantId b) &&
  bool_decide (run_workflowId a = run_workflowId b).

Definition where_workflow (tenantId workflowId : string) (r : WorkflowRun) : bool :=
  holds (sql_all [col_eq (run_tenantId r) tenantId; col_eq (run_workflowId r) workflowId]).

Definition upsertRequested (env : call_env) (tenantId workflowId dedupeKey : string) :
    M (table WorkflowRun) WorkflowRun :=
  parsedTenantId ← lift (db_uuid tenantId);
  transaction (
    tx_insert same_workflow
      (mkRun (env_uuid env) parsedTenantId workflowId dedupeKey run_requested None
         (env_now env) (env_now env));;
    found ← tx_select (where_workflow parsedTenantId workflowId);
    match found with
    | [] => throw (JsError "Failed to upsert workflow run.")
    | row :: _ => lift (workflowRunSchema row)
    end).

Definition transitionState (env : call_env) (tenantId workflowId : string)
    (fromState toState : WorkflowRunState) (failureCode : option string) :
    M (table WorkflowRun) (option WorkflowRun) :=
  parsedTenantId ← lift (db_uuid tenantId);
  transaction (
    updated ← tx_update
      (fun r => holds (sql_all
         [col_eq (run_tenantId r) parsedTenantId; col_eq (run_workflowId r) workflowId;
          col_eq (run_state r) fromState; col_not_in (run_state r) TERMINAL_STATES]))
      (fun r => r <| run_state := toState |>
                  <| run_failureCode := failureCode ?:? run_failureCode r |>
                  <| run_updatedAt := env_now env |>);
    match updated with
    | [] => mret None
    | row :: _ => run ← lift (workflowRunSchema row); mret (Some run)
    end).

Definition getByWorkflowId (tenantId workflowId : string) :
    M (table WorkflowRun) (option WorkflowRun) :=
  parsedTenantId ← lift (db_uuid tenantId);
  transaction (
    found ← tx_select (where_workflow parsedTenantId workflowId);
    match found with
    | [] => mret None
    | row :: _ => run ← lift (workflowRunSchema row); mret (Some run)
    end).
End ops.
End PostgresRuns.

(** ** Calls and histories *)

Inductive run_call :=
  | UpsertRequested (tenantId workflowId dedupeKey : string)
  | TransitionState (tenantId workflowId : string) (fromState toState : WorkflowRunState)
      (failureCode : option string)
  | GetByWorkflowId (tenantId workflowId : string).

Definition call_tenant (c : run_call) : string :=
  match c with
  | UpsertRequested t _ _ | TransitionState t _ _ _ _ | GetByWorkflowId t _ => t
  end.

Section histories.
Context `{Zod} {E : SqlEngine}.

Definition memory_call (c : run_call) (env : call_env) :
    M (jsmap WorkflowRun) (option WorkflowRun) :=
  match c with
  | UpsertRequested t w d => run ← InMemoryRuns.upsertRequested env t w d; mret (Some run)
  | TransitionState t w f to code => InMemoryRuns.transitionState env t w f to code
  | GetByWorkflowId t w => InMemoryRuns.getByWorkflowId t w
  end.

Definition postgres_call (c : run_call) (env : call_env) :
    M (table WorkflowRun) (option WorkflowRun) :=
  match c with
  | UpsertRequested t w d => run ← PostgresRuns.upsertRequested env t w d; mret (Some run)
  | TransitionState t w f to code => PostgresRuns.transitionState env t w f to code
  | GetByWorkflowId t w => PostgresRuns.getByWorkflowId t w
  end.
End histories.

(** ** Invariants *)

Definition run_kf (r : WorkflowRun) : string := run_key (run_tenantId r) (run_workflowId r).

(** Every stored run sits under its own key and satisfies its schema. *)
Definition runs_inv `{Zod} (m : jsmap WorkflowRun) : Prop :=
  keyed run_kf m /\ forall k r, mapGet k m = Some r -> workflowRunSchema r = Ok r.

Section lemmas.
Context `{Z : Zod} {ZL : ZodLaws Z}.

#[local] Instance workflowRunSchema_idem : IdemParse workflowRunSchema.
Proof. unfold workflowRunSchema. solve_idem_record. Qed.

Lemma workflowRunSchema_fields r r' : workflowRunSchema r = Ok r' ->
  r' = r /\ zod_uuid (run_tenantId r) = true.
Proof. unfold workflowRunSchema. intros H. schema_inv. split; [by destruct r|done]. Qed.

(** The schema looks only at the four identifying fields. *)
Lemma workflowRunSchema_update r s c n :
  workflowRunSchema r = Ok r ->
  workflowRunSchema (r <| run_state := s |> <| run_failureCode := c |> <| run_updatedAt := n |>)
  = Ok (r <| run_state := s |> <| run_failureCode := c |> <| run_updatedAt := n |>).
Proof. unfold workflowRunSchema, upd. intros H. by schema_inv. Qed.

Lemma run_key_inj t w t' w' : zod_uuid t = true -> zod_uuid t' = true ->
  run_key t w = run_key t' w' <-> t = t' /\ w = w'.
Proof.
  intros Ht Ht'. split; [|by intros [-> ->]].
  apply colon_key_inj; by apply zod_uuid_no_colon.
Qed.

Lemma runs_inv_set m k r : runs_inv m -> run_kf r = k -> workflowRunSchema r = Ok r ->
  runs_inv (mapSet k r m).
Proof.
  intros [Hk Hs] <- Hr. split; [by apply (keyed_set run_kf)|]. intros k r'. rewrite mapGet_set.
  case_bool_decide; [by intros [= <-]|apply Hs].
Qed.

Lemma memory_call_inv c env m : runs_inv m -> runs_inv (memory_call c env m).2.
Proof.
  intros Hm. destruct c as [t w d|t w f to code|t w]; simpl.
  - unfold InMemoryRuns.upsertRequested. msimpl.
    destruct (mapGet _ m); [done|]. destruct (workflowRunSchema _) as [r|] eqn:Hr; [|done].
    pose proof (idem_parse _ _ Hr) as Hr'. apply workflowRunSchema_fields in Hr as [-> _].
    by apply runs_inv_set.
  - unfold InMemoryRuns.transitionState. msimpl.
    destruct (mapGet _ m) as [r|] eqn:Hr; [|done]. case_match; [done|].
    pose proof (proj2 Hm _ _ Hr) as Hs. rewrite workflowRunSchema_update by done. simpl.
    apply runs_inv_set; [done|exact (proj2 (proj1 Hm) _ _ Hr)|by apply workflowRunSchema_update].
  - done.
Qed.

(** A terminal run is never written again. *)
Lemma memory_call_terminal c env m k r :
  mapGet k m = Some r -> isTerminalState (run_state r) = true ->
  mapGet k (memory_call c env m).2 = Some r.
Proof.
  intros Hr Ht. destruct c as [t w d|t w f to code|t w]; simpl; [| |done].
  - unfold InMemoryRuns.upsertRequested. msimpl.
    destruct (mapGet (run_key t w) m) eqn:E1; [done|].
    destruct (workflowRunSchema _); [|done]. simpl. rewrite mapGet_set_ne; [done|congruence].
  - unfold InMemoryRuns.transitionState. msimpl.
    destruct (mapGet (run_key t w) m) as [r'|] eqn:E1; [|done].
    destruct (decide (run_key t w = k)) as [<-|Hk].
    + assert (r' = r) as -> by congruence. unfold isTerminalState, TERMINAL_STATES in Ht.
      destruct (run_state r); try done; rewrite orb_true_r; done.
    + case_match; [done|]. destruct (workflowRunSchema _); [|done]. simpl.
      by rewrite mapGet_set_ne.
Qed.

Context {E : SqlEngine} {L : SqlLaws E}.

Lemma where_workflow_key t w r : zod_uuid t = true -> zod_uuid (run_tenantId r) = true ->
  PostgresRuns.where_workflow t w r = bool_decide (run_kf r = run_key t w).
Proof.
  intros Ht Hr. unfold PostgresRuns.where_workflow. sql_simpl.
  apply eq_true_iff_eq. unfold run_kf.
  rewrite andb_true_iff, !bool_decide_eq_true, run_key_inj by done. done.
Qed.

Lemma runs_tenant_valid m r : runs_inv m -> r ∈ mapValues m -> zod_uuid (run_tenantId r) = true.
Proof.
  intros [Hk Hs] Hr. apply (keyed_values run_kf) in Hr; [|done].
  by destruct (workflowRunSchema_fields _ _ (Hs _ _ Hr)).
Qed.

Lemma select_run m t tn w : runs_inv m -> table_rel m t -> zod_uuid tn = true ->
  select (PostgresRuns.where_workflow tn w) t =
    match mapGet (run_key tn w) m with Some r => [r] | None => [] end.
Proof.
  intros Hm Ht Hz.
  rewrite (select_keyed run_kf m t (run_key tn w) _ (fun _ => true)); [done|apply Hm|done|].
  intros r Hr. rewrite andb_true_r. apply where_workflow_key; [done|by eapply runs_tenant_valid].
Qed.

Lemma same_workflow_key a b : zod_uuid (run_tenantId a) = true ->
  zod_uuid (run_tenantId b) = true ->
  PostgresRuns.same_workflow a b = bool_decide (run_kf b = run_kf a).
Proof.
  intros Ha Hb. unfold PostgresRuns.same_workflow, run_kf. apply eq_true_iff_eq.
  rewrite andb_true_iff, !bool_decide_eq_true, run_key_inj by done. naive_solver.
Qed.

Lemma upsert_refines env tn w d m t :
  runs_inv m -> table_rel m t -> canonical tn ->
  let '(r1, m') := InMemoryRuns.upsertRequested env tn w d m in
  let '(r2, t') := PostgresRuns.upsertRequested env tn w d t in
  r1 = r2 /\ table_rel m' t'.
Proof.
  intros Hm Ht Hz. pose proof (canonical_uuid _ Hz). unfold InMemoryRuns.upsertRequested, PostgresRuns.upsertRequested.
  rewrite db_uuid_canonical by done. unfold transaction, tx_insert, tx_select. msimpl.
  set (new := mkRun (env_uuid env) tn w d run_requested None (env_now env) (env_now env)).
  assert (run_kf new = run_key tn w) as Hnew by done.
  assert (existsb (PostgresRuns.same_workflow new) (mapValues m) =
    match mapGet (run_key tn w) m with Some _ => true | None => false end) as Hex.
  { apply eq_true_iff_eq. rewrite existsb_elem. split.
    - intros (r & Hr & Hs). rewrite same_workflow_key in Hs by (done || by eapply runs_tenant_valid).
      apply bool_decide_eq_true in Hs. apply (keyed_values run_kf) in Hr; [|apply Hm].
      rewrite Hs in Hr. change (run_key tn w) with (run_kf new). by rewrite Hr.
    - destruct (mapGet _ m) as [r|] eqn:Hr; [|done]. intros _. exists r.
      assert (r ∈ mapValues m) as Hin by (apply elem_of_mapValues; [apply Hm|eauto]).
      split; [done|]. rewrite same_workflow_key by (done || by eapply runs_tenant_valid).
      apply bool_decide_eq_true. exact (proj2 (proj1 Hm) _ _ Hr). }
  destruct (mapGet (run_key tn w) m) as [r|] eqn:Hr.
  - rewrite insert_conflict by (by rewrite (existsb_perm _ _ _ Ht)).
    rewrite (select_run m t) by done. rewrite Hr. by rewrite (proj2 Hm _ _ Hr).
  - destruct (set_new_rel run_kf m t new PostgresRuns.same_workflow Hr Ht Hex) as [Hi Hrel].
    destruct (insert _ new t) as [ins t']. simpl in Hi, Hrel. subst ins.
    assert (select (PostgresRuns.where_workflow tn w) t' = [new]) as ->.
    { rewrite (select_keyed run_kf (mapSet (run_kf new) new m) t' (run_key tn w) _ (fun _ => true)).
      - by rewrite mapGet_set_eq.
      - apply keyed_set, Hm.
      - done.
      - intros r Hin. rewrite andb_true_r. apply where_workflow_key; [done|].
        rewrite mapValues_set_new in Hin by done. apply elem_of_app in Hin as [Hin|Hin].
        + by eapply runs_tenant_valid.
        + by apply list_elem_of_singleton in Hin as ->. }
    destruct (workflowRunSchema new) as [r|] eqn:Hs; [|done].
    by apply workflowRunSchema_fields in Hs as [-> _].
Qed.

Lemma transition_refines env tn w f to code m t :
  runs_inv m -> table_rel m t -> canonical tn ->
  let '(r1, m') := InMemoryRuns.transitionState env tn w f to code m in
  let '(r2, t') := PostgresRuns.transitionState env tn w f to code t in
  r1 = r2 /\ table_rel m' t'.
Proof.
  intros Hm Ht Hz. pose proof (canonical_uuid _ Hz). unfold InMemoryRuns.transitionState, PostgresRuns.transitionState.
  rewrite db_uuid_canonical by done. unfold transaction, tx_update. msimpl.
  set (upd_run := fun r : WorkflowRun => _ <| run_updatedAt := _ |>).
  set (p := fun r : WorkflowRun => holds _).
  set (q := fun r : WorkflowRun =>
    bool_decide (run_state r = f) && bool_decide (run_state r ∉ PostgresRuns.TERMINAL_STATES)).
  assert (forall r, r ∈ mapValues m -> p r = bool_decide (run_kf r = run_key tn w) && q r) as Hp.
  { intros r Hr. unfold p, q. sql_simpl.
    rewrite <- (where_workflow_key tn w r) by (done || by eapply runs_tenant_valid).
    unfold PostgresRuns.where_workflow. sql_simpl. by rewrite !andb_assoc. }
  pose proof (cas_refines run_kf m t (run_key tn w) p q upd_run (proj1 Hm) Ht Hp
    (fun r => eq_refl)) as Hc.
  destruct (mapGet (run_key tn w) m) as [r|] eqn:Hr.
  - pose proof (proj2 Hm _ _ Hr) as Hs.
    assert (negb (bool_decide (run_state r = f)) || bool_decide (run_state r = run_completed) ||
      bool_decide (run_state r = run_failed) =
      negb (q r)) as ->.
    { unfold q. destruct (run_state r), f; done. }
    destruct (q r); simpl in *; destruct (update p upd_run t) as [rs t'];
      simpl in *; destruct Hc as [-> Hrel].
    + rewrite (workflowRunSchema_update r) by done.
      change (workflowRunSchema (upd_run r)) with (workflowRunSchema
        (r <| run_state := to |> <| run_failureCode := code ?:? run_failureCode r |>
           <| run_updatedAt := env_now env |>)).
      by rewrite workflowRunSchema_update.
    + done.
  - destruct (update p upd_run t) as [rs t']. simpl in Hc. by destruct Hc as [-> Hrel].
Qed.

(** One call of either repository, from related states. *)
Lemma call_refines c env m t :
  runs_inv m -> table_rel m t -> canonical (call_tenant c) ->
  let '(r1, m') := memory_call c env m in
  let '(r2, t') := postgres_call c env t in
  r1 = r2 /\ table_rel m' t'.
Proof.
  intros Hm Ht Hz. destruct c as [tn w d|tn w f to code|tn w]; simpl in *.
  - pose proof (upsert_refines env tn w d m t Hm Ht Hz) as H. msimpl.
    destruct (InMemoryRuns.upsertRequested _ _ _ _ m) as [r1 m'],
      (PostgresRuns.upsertRequested _ _ _ _ t) as [r2 t'].
    destruct H as [<- H]. by destruct r1.
  - by apply transition_refines.
  - pose proof (canonical_uuid _ Hz). unfold InMemoryRuns.getByWorkflowId, PostgresRuns.getByWorkflowId.
    rewrite db_uuid_canonical by done. unfold transaction, tx_select. msimpl.
    rewrite (select_run m t) by done. destruct (mapGet _ m) as [r|] eqn:Hr; [|done].
    by rewrite (proj2 Hm _ _ Hr).
Qed.
End lemmas.

(** ** Theorems *)

Section theorems.
Context `{Z : Zod} {ZL : ZodLaws Z} {E : SqlEngine} {L : SqlLaws E}.

(** C32. On every history of calls, one at a time, with tenant ids that are UUIDs
    written as the database prints them (in lower case; it reads a UUID in
    any case), the Postgres repository gives the same answers (errors
    included) as the in-memory one, and ends with the same bag of rows. *)
Theorem runs_postgres_refines_memory cs m t :
  runs_inv m -> table_rel m t ->
  Forall (fun ce => canonical (call_tenant ce.1)) cs ->
  (history memory_call cs m).1 = (history postgres_call cs t).1 /\
  table_rel (history memory_call cs m).2 (history postgres_call cs t).2.
Proof.
  intros Hm Ht Hcs. revert m t Hm Ht.
  induction Hcs as [|[c env] cs Hc Hcs IH]; intros m t Hm Ht; simpl; [done|].
  pose proof (call_refines c env m t Hm Ht Hc) as Hr. pose proof (memory_call_inv c env m Hm) as Hm'.
  destruct (memory_call c env m) as [r1 m'], (postgres_call c env t) as [r2 t'].
  destruct Hr as [<- Ht']. destruct (IH m' t' Hm' Ht') as [IH1 IH2].
  destruct (history memory_call cs m'), (history postgres_call cs t'); simpl in *.
  by subst.
Qed.

(** A run that has completed or failed is never written again: whatever
    calls follow, the stored record stays exactly what it was. *)
Theorem terminal_run_is_final cs m k r :
  mapGet k m = Some r -> isTerminalState (run_state r) = true ->
  mapGet k (history memory_call cs m).2 = Some r.
Proof.
  revert m. induction cs as [|[c env] cs IH]; intros m Hr Ht; simpl; [done|].
  pose proof (memory_call_terminal c env m k r Hr Ht) as H.
  destruct (memory_call c env m) as [o m']. specialize (IH m' H Ht).
  by destruct (history memory_call cs m').
Qed.

(** The state transition is a compare-and-swap: of two callers that move
    a run out of the same state, the second one gets [null] and changes
    nothing. *)
Theorem run_transition_one_winner env env' tn w f to to' code code' m m1 r :
  InMemoryRuns.transitionState env tn w f to code m = (Ok (Some r), m1) -> to ≠ f ->
  InMemoryRuns.transitionState env' tn w f to' code' m1 = (Ok None, m1).
Proof.
  unfold InMemoryRuns.transitionState. intros H Hne. msimpl.
  destruct (mapGet (run_key tn w) m) as [r0|]; [|done]. case_match; [done|].
  destruct (workflowRunSchema _) as [r1|] eqn:Hs; [|done]. injection H as -> <-.
  rewrite mapGet_set_eq. apply workflowRunSchema_fields in Hs as [-> _]. simpl.
  by rewrite (bool_decide_false (to = f)).
Qed.

(** A callback of any kind is legal exactly from a state that is not
    terminal. *)
Theorem callback_legal_iff_not_terminal s c :
  isCallbackLegalFromState s c = negb (isTerminalState s).
Proof. by destruct s, c. Qed.
End theorems.

(** ** Witnesses *)

Module RunsExample.
Import ZodExample.

Definition requested : WorkflowRun :=
  mkRun id1 tenant "wf-1" "dedupe-1" run_requested None 1000 1000.
Definition finished : WorkflowRun :=
  mkRun id1 tenant "wf-1" "dedupe-1" run_completed None 1000 2000.
Definition calls : list (run_call * call_env) :=
  [(UpsertRequested tenant "wf-1" "dedupe-1", env1);
   (TransitionState tenant "wf-1" run_requested run_in_progress None, env2);
   (TransitionState tenant "wf-1" run_requested run_failed (Some "late"), env3);
   (GetByWorkflowId tenant "wf-1", env3)].
End RunsExample.

Section witnesses.
Import ZodExample ListEngine RunsExample.

Lemma runs_postgres_refines_memory_witness :
  (history memory_call calls []).1 = (history postgres_call calls []).1.
Proof.
  apply (runs_postgres_refines_memory (E := list_engine) calls [] []).
  - split; [apply keyed_nil|done].
  - constructor.
  - repeat constructor.
Defined.

Lemma terminal_run_is_final_witness :
  mapGet (run_key tenant "wf-1")
    (history memory_call calls [(run_key tenant "wf-1", finished)]).2 = Some finished.
Proof. apply terminal_run_is_final; vm_compute; reflexivity. Defined.

Lemma run_transition_one_winner_witness :
  exists m1, InMemoryRuns.transitionState env3 tenant "wf-1" run_requested run_failed None m1
    = (Ok None, m1).
Proof.
  eexists. eapply (run_transition_one_winner env2 env3 tenant "wf-1" run_requested run_completed
    run_failed None None [(run_key tenant "wf-1", requested)] _ finished);
    [vm_compute; reflexivity|discriminate].
Defined.
End witnesses.
