(* ===== verification/Outbox.v ===== *)
(** * The transactional outbox

    [packages/db/src/contracts.ts] (the command and event schemas),
    [packages/db/src/outbox-repository.ts] (module [InMemoryOutbox]) and
    [packages/db/src/postgres-outbox-repository.ts] (module [PostgresOutbox]).
    The class [OutboxPort] is what the other repositories see of it. *)

From S2P Require Import Prelude Numbers JsRuntime Domain Zod Sql.

(** ** Commands and events *)

Definition is_lower (c : Ascii.ascii) : bool :=
  let n := Ascii.nat_of_ascii c in ((97 <=? n) && (n <=? 122))%nat.
Definition is_digit (c : Ascii.ascii) : bool :=
  let n := Ascii.nat_of_ascii c in ((48 <=? n) && (n <=? 57))%nat.
(** [[a-z0-9._-]] *)
Definition type_char (c : Ascii.ascii) : bool :=
  is_lower c || is_digit c || bool_decide (Ascii.nat_of_ascii c ∈ [46; 95; 45]%nat).

Fixpoint span_digits (l : list Ascii.ascii) : list Ascii.ascii * list Ascii.ascii :=
  match l with
  | [] => ([], [])
  | c :: l' => if is_digit c then let '(d, r) := span_digits l' in (c :: d, r) else ([], l)
  end.

(** [/^[a-z][a-z0-9._-]+\.v[0-9]+$/], read from the end: the version digits
    are the longest run of digits, since a [v] must precede them. *)
Definition event_type_ok (s : string) : bool :=
  let '(ds, rest) := span_digits (rev (String.list_ascii_of_string s)) in
  match ds, rest with
  | _ :: _, v :: dot :: body =>
      Nat.eqb (Ascii.nat_of_ascii v) 118 && Nat.eqb (Ascii.nat_of_ascii dot) 46 &&
      match rev body with
      | c :: (_ :: _) as mid => is_lower c && forallb type_char mid
      | _ => false
      end
  | _, _ => false
  end.

Definition outboxEventTypeSchema : string -> result string :=
  refine (fun s => (1 <=? String.length s)%nat && event_type_ok s).

Record EnqueueOutboxEvent := mkEnqueue {
  oc_tenantId : string;
  oc_eventType : string;
  oc_idempotencyKey : string;
  oc_payload : jobject;
}.

Definition enqueueOutboxEventSchema `{Zod} (c : EnqueueOutboxEvent) : result EnqueueOutboxEvent :=
  tn ← tenantIdSchema (oc_tenantId c);
  ty ← outboxEventTypeSchema (oc_eventType c);
  ik ← min1_text (oc_idempotencyKey c);
  mret (mkEnqueue tn ty ik (oc_payload c)).

Record StoredOutboxEvent := mkStored {
  oe_tenantId : string;
  oe_eventType : string;
  oe_idempotencyKey : string;
  oe_payload : jobject;
  oe_id : string;
  oe_createdAt : Z;
  oe_consumedAt : option Z;
}.

#[export] Instance stored_eta : Eta StoredOutboxEvent := fun e =>
  mkStored (oe_tenantId e) (oe_eventType e) (oe_idempotencyKey e) (oe_payload e) (oe_id e)
    (oe_createdAt e) (oe_consumedAt e).

Definition storedOutboxEventSchema `{Zod} (e : StoredOutboxEvent) : result StoredOutboxEvent :=
  tn ← tenantIdSchema (oe_tenantId e);
  ty ← outboxEventTypeSchema (oe_eventType e);
  ik ← min1_text (oe_idempotencyKey e);
  id ← min1_text (oe_id e);
  mret (mkStored tn ty ik (oe_payload e) id (oe_createdAt e) (oe_consumedAt e)).

(** What the other repositories use of an outbox kept in [S]. *)
Class OutboxPort (S : Type) := {
  outbox_enqueue : call_env -> EnqueueOutboxEvent -> M S StoredOutboxEvent
}.

(** ** The in-memory repository *)

Module InMemoryOutbox.
Record State := mkState {
  eventsById : jsmap StoredOutboxEvent;
  idsByIdempotencyKey : jsmap string;
  sequence : N;
}.

#[export] Instance state_eta : Eta State := fun s =>
  mkState (eventsById s) (idsByIdempotencyKey s) (sequence s).

Definition init : State := mkState [] [] 0%N.

Definition key_of (tenantId eventType idempotencyKey : string) : string :=
  tenantId +:+ ":" +:+ eventType +:+ ":" +:+ idempotencyKey.

Definition outboxIdempotencyKey (c : EnqueueOutboxEvent) : string :=
  key_of (oc_tenantId c) (oc_eventType c) (oc_idempotencyKey c).

Section ops.
Context `{Zod}.

Definition enqueue (env : call_env) (command : EnqueueOutboxEvent) :
    M State StoredOutboxEvent :=
  parsed ← lift (enqueueOutboxEventSchema command);
  existingId ← gets (fun s => mapGet (outboxIdempotencyKey parsed) (idsByIdempotencyKey s));
  if truthy existingId then
    let id := existingId ?: "" in
    existing ← gets (fun s => mapGet id (eventsById s));
    match existing with
    | None => throw (JsError ("Outbox idempotency index is corrupt for " +:+ id))
    | Some event => mret event
    end
  else
    modify (fun s => s <| sequence := (sequence s + 1)%N |>);;
    seq ← gets sequence;
    event ← lift (storedOutboxEventSchema
      (mkStored (oc_tenantId parsed) (oc_eventType parsed) (oc_idempotencyKey parsed)
         (oc_payload parsed) (string_of_N seq) (env_now env) None));
    modify (fun s => s <| eventsById := mapSet (oe_id event) event (eventsById s) |>);;
    modify (fun s => s <| idsByIdempotencyKey :=
      mapSet (outboxIdempotencyKey parsed) (oe_id event) (idsByIdempotencyKey s) |>);;
    mret event.

Definition markConsumed (env : call_env) (tenantId eventId : string)
    (consumedAt : option Z) : M State StoredOutboxEvent :=
  found ← gets (fun s => mapGet eventId (eventsById s));
  match found with
  | None => throw (JsError ("Outbox event not found: " +:+ eventId))
  | Some event =>
      if negb (bool_decide (oe_tenantId event = tenantId))
      then throw (JsError ("Outbox event not found for tenant: " +:+ eventId))
      else
        consumed ← lift (storedOutboxEventSchema
          (event <| oe_consumedAt := Some (consumedAt ?: env_now env) |>));
        modify (fun s => s <| eventsById := mapSet eventId consumed (eventsById s) |>);;
        mret consumed
  end.
End ops.

(** [Number(a.id) - Number(b.id) <= 0]; a [NaN] difference compares equal. *)
Definition id_le (a b : StoredOutboxEvent) : bool :=
  match number_of_string (oe_id a), number_of_string (oe_id b) with
  | Some x, Some y => (x <=? y)%N
  | _, _ => true
  end.

Definition is_unconsumed (tenantId : string) (e : StoredOutboxEvent) : bool :=
  bool_decide (oe_tenantId e = tenantId) && bool_decide (oe_consumedAt e = None).

Definition listUnconsumed (tenantId : string) (limit : Z) : M State (list StoredOutboxEvent) :=
  gets (fun s => slice0 limit
    (sort_by id_le (bfilter (is_unconsumed tenantId) (mapValues (eventsById s))))).

Definition listByEventType (tenantId eventType : string) (limit : Z) :
    M State (list StoredOutboxEvent) :=
  gets (fun s => slice0 limit
    (sort_by (fun a b => id_le b a)
      (bfilter (fun e => bool_decide (oe_tenantId e = tenantId) &&
                         bool_decide (oe_eventType e = eventType))
         (mapValues (eventsById s))))).
End InMemoryOutbox.

#[export] Instance in_memory_outbox_port `{Zod} : OutboxPort InMemoryOutbox.State :=
  {| outbox_enqueue := InMemoryOutbox.enqueue |}.

(** ** The Postgres repository *)

(** A row of [event_outbox]; its [bigserial] id comes from the database.  The
    readers parse the tenant id as the [uuid] column does; [enqueue] takes
    that of its command to be written as the database prints it, and the
    payload comes back as it was written, its keys in order. *)
Record OutboxRow := mkOutboxRow {
  or_id : N;
  or_tenantId : string;
  or_eventType : string;
  or_idempotencyKey : string;
  or_payload : jobject;
  or_createdAt : Z;
  or_consumedAt : option Z;
}.

#[export] Instance outbox_row_eta : Eta OutboxRow := fun r =>
  mkOutboxRow (or_id r) (or_tenantId r) (or_eventType r) (or_idempotencyKey r) (or_payload r)
    (or_createdAt r) (or_consumedAt r).

Module PostgresOutbox.
Section ops.
Context `{Zod} {E : SqlEngine}.

Definition mapRow (row : OutboxRow) : result StoredOutboxEvent :=
  storedOutboxEventSchema
    (mkStored (or_tenantId row) (or_eventType row) (or_idempotencyKey row) (or_payload row)
       (string_of_N (or_id row)) (or_createdAt row) (or_consumedAt row)).

(** [unique (tenant_id, event_type, idempotency_key)] *)
Definition same_event (a b : OutboxRow) : bool :=
  bool_decide (or_tenantId a = or_tenantId b) &&
  bool_decide (or_eventType a = or_eventType b) &&
  bool_decide (or_idempotencyKey a = or_idempotencyKey b).

Definition where_event (c : EnqueueOutboxEvent) (r : OutboxRow) : bool :=
  holds (sql_all [col_eq (or_tenantId r) (oc_tenantId c); col_eq (or_eventType r) (oc_eventType c);
                  col_eq (or_idempotencyKey r) (oc_idempotencyKey c)]).

Definition enqueue (env : call_env) (command : EnqueueOutboxEvent) :
    M (table OutboxRow) StoredOutboxEvent :=
  parsed ← lift (enqueueOutboxEventSchema command);
  transaction (
    tx_insert same_event
      (mkOutboxRow (env_serial env) (oc_tenantId parsed) (oc_eventType parsed)
         (oc_idempotencyKey parsed) (oc_payload parsed) (env_now env) None);;
    found ← tx_select (where_event parsed);
    match found with
    | [] => throw (JsError "Failed to enqueue or load outbox event.")
    | row :: _ => lift (mapRow row)
    end).

(** [BigInt(eventId)] *)
Definition markConsumed (env : call_env) (tenantId eventId : string) (consumedAt : option Z) :
    M (table OutboxRow) StoredOutboxEvent :=
  parsedTenantId ← lift (db_uuid tenantId);
  transaction (
    match number_of_string eventId with
    | None => throw (JsError ("Cannot convert " +:+ eventId +:+ " to a BigInt"))
    | Some id =>
        updated ← tx_update
          (fun r => holds (sql_all [col_eq (or_tenantId r) parsedTenantId; col_eq (or_id r) id]))
          (fun r => r <| or_consumedAt := Some (consumedAt ?: env_now env) |>);
        match updated with
        | [] => throw (JsError ("Outbox event not found for tenant: " +:+ eventId))
        | row :: _ => lift (mapRow row)
        end
    end).

(** [ORDER BY ... LIMIT n] over the selected rows. *)
Definition listUnconsumed (tenantId : string) (limit : Z) :
    M (table OutboxRow) (list StoredOutboxEvent) :=
  parsedTenantId ← lift (db_uuid tenantId);
  transaction (
    found ← tx_select (fun r =>
      holds (sql_all [col_eq (or_tenantId r) parsedTenantId; is_null (or_consumedAt r)]));
    lift (zod_array_map mapRow
      (take (Z.to_nat limit) (sort_by (fun a b => (or_id a <=? or_id b)%N) found)))).

Definition listByEventType (tenantId eventType : string) (limit : Z) :
    M (table OutboxRow) (list StoredOutboxEvent) :=
  parsedTenantId ← lift (db_uuid tenantId);
  transaction (
    found ← tx_select (fun r =>
      holds (sql_all [col_eq (or_tenantId r) parsedTenantId; col_eq (or_eventType r) eventType]));
    lift (zod_array_map mapRow
      (take (Z.to_nat limit)
         (sort_by (fun a b =>
            (or_createdAt b <? or_createdAt a) ||
            ((or_createdAt b =? or_createdAt a) && (or_id b <=? or_id a)%N)) found)))).
End ops.
End PostgresOutbox.

(** ** The idempotency key *)

Lemma no_colon_elem s :
  no_colon s = true <-> colon ∉ String.list_ascii_of_string s.
Proof.
  induction s as [|c s IH]; simpl; [set_solver|].
  rewrite andb_true_iff, negb_true_iff, Ascii.eqb_neq, IH, not_elem_of_cons. naive_solver.
Qed.

Lemma type_char_no_colon l : forallb type_char l = true -> colon ∉ l.
Proof.
  induction l as [|c l IH]; simpl; [set_solver|]. intros [Hc Hl]%andb_true_iff.
  apply not_elem_of_cons. split; [|by apply IH]. intros <-. revert Hc. by vm_compute.
Qed.

Lemma span_digits_app l d r : span_digits l = (d, r) -> l = d ++ r /\ forallb is_digit d = true.
Proof.
  revert d r. induction l as [|c l IH]; simpl; intros d r; [by intros [= <- <-]|].
  destruct (is_digit c) eqn:E; [|by intros [= <- <-]].
  destruct (span_digits l) as [d' r']. intros [= <- <-].
  destruct (IH d' r' eq_refl) as [-> H]. simpl. by rewrite E, H.
Qed.

Lemma forallb_impl {A} (p q : A -> bool) l :
  (forall a, p a = true -> q a = true) -> forallb p l = true -> forallb q l = true.
Proof. intros H. rewrite !forallb_forall. auto. Qed.

(** An event type holds no colon, so the composite key can be read back. *)
Lemma event_type_no_colon s : event_type_ok s = true -> no_colon s = true.
Proof.
  unfold event_type_ok. rewrite no_colon_elem.
  rewrite <- (rev_involutive (String.list_ascii_of_string s)) at 2.
  destruct (span_digits _) as [ds rest] eqn:E. apply span_digits_app in E as [-> Hd].
  destruct ds as [|d ds], rest as [|v [|dot body]]; try done.
  intros [[Hv Hdot]%andb_true_iff Hb]%andb_true_iff.
  apply Nat.eqb_eq in Hv, Hdot.
  rewrite <- (rev_involutive body). destruct (rev body) as [|c mid]; [done|].
  destruct mid as [|c' mid]; [done|]. apply andb_true_iff in Hb as [Hc Hm].
  assert (type_char c = true) as Hc' by (unfold type_char; by rewrite Hc).
  assert (forallb type_char (d :: ds) = true) as Hd'.
  { eapply forallb_impl; [|exact Hd]. intros a Ha. unfold type_char. by rewrite Ha, orb_true_r. }
  assert (colon ≠ v /\ colon ≠ dot) as [Hnv Hnd].
  { split; [intros <-; by vm_compute in Hv|intros <-; by vm_compute in Hdot]. }
  assert (colon ∉ c :: c' :: mid) as Hmid.
  { apply type_char_no_colon. change (type_char c && forallb type_char (c' :: mid) = true).
    by rewrite Hc', Hm. }
  apply type_char_no_colon in Hd'.
  rewrite list_elem_of_In, <- in_rev, <- list_elem_of_In.
  rewrite elem_of_app. intros [?|Hr]; [done|]. apply elem_of_cons in Hr as [?|Hr]; [done|].
  apply elem_of_cons in Hr as [?|Hr]; [done|].
  rewrite list_elem_of_In, <- in_rev, <- list_elem_of_In in Hr. done.
Qed.

Section lemmas.
Context `{Z : Zod} {ZL : ZodLaws Z}.
Import InMemoryOutbox.

Lemma outboxEventTypeSchema_ok s t :
  outboxEventTypeSchema s = Ok t <-> event_type_ok s = true /\ t = s.
Proof.
  unfold outboxEventTypeSchema. rewrite refine_ok, andb_true_iff.
  split; [naive_solver|]. intros [H ->]. by destruct s.
Qed.

(** What the command schema checks. *)
Definition command_ok (c : EnqueueOutboxEvent) : Prop :=
  zod_uuid (oc_tenantId c) = true /\ event_type_ok (oc_eventType c) = true /\
  oc_idempotencyKey c ≠ "".

Lemma enqueue_schema_ok c c' :
  enqueueOutboxEventSchema c = Ok c' <-> command_ok c /\ c' = c.
Proof.
  unfold enqueueOutboxEventSchema, command_ok. split.
  - intros H. msimpl.
    destruct (tenantIdSchema _) as [tn|] eqn:E1; [|done].
    destruct (outboxEventTypeSchema _) as [ty|] eqn:E2; [|done].
    destruct (min1_text _) as [ik|] eqn:E3; [|done]. injection H as <-.
    apply tenantIdSchema_ok in E1 as [? ->]. apply outboxEventTypeSchema_ok in E2 as [? ->].
    apply min1_text_ok in E3 as [? ->]. split; [done|by destruct c].
  - intros [(H1 & H2 & H3) ->]. msimpl.
    rewrite (proj2 (tenantIdSchema_ok _ _)) by done.
    rewrite (proj2 (outboxEventTypeSchema_ok _ _)) by done.
    rewrite (proj2 (min1_text_ok _ _)) by done. by destruct c.
Qed.

Definition event_ok (e : StoredOutboxEvent) : Prop :=
  zod_uuid (oe_tenantId e) = true /\ event_type_ok (oe_eventType e) = true /\
  oe_idempotencyKey e ≠ "" /\ oe_id e ≠ "".

Lemma stored_schema_ok e : event_ok e -> storedOutboxEventSchema e = Ok e.
Proof.
  intros (H1 & H2 & H3 & H4). unfold storedOutboxEventSchema. msimpl.
  rewrite (proj2 (tenantIdSchema_ok _ _)) by done.
  rewrite (proj2 (outboxEventTypeSchema_ok _ _)) by done.
  rewrite !(proj2 (min1_text_ok _ _)) by done. by destruct e.
Qed.

(** The composite key identifies its three parts. *)
Lemma key_of_inj t ty k t' ty' k' :
  zod_uuid t = true -> zod_uuid t' = true -> event_type_ok ty = true -> event_type_ok ty' = true ->
  key_of t ty k = key_of t' ty' k' -> t = t' /\ ty = ty' /\ k = k'.
Proof.
  intros Ht Ht' Hty Hty' H. unfold key_of in H.
  apply colon_key_inj in H as [-> H]; [|by apply zod_uuid_no_colon..].
  by apply colon_key_inj in H as [-> ->]; [|by apply event_type_no_colon..].
Qed.

(** *** The invariant of the two maps and the counter *)

Definition event_key (e : StoredOutboxEvent) : string :=
  key_of (oe_tenantId e) (oe_eventType e) (oe_idempotencyKey e).

Record outbox_inv (s : State) : Prop := {
  oi_keyed : keyed oe_id (eventsById s);
  oi_events id e : mapGet id (eventsById s) = Some e ->
    event_ok e /\ (exists n, id = string_of_N n /\ (0 < n <= sequence s)%N) /\
    mapGet (event_key e) (idsByIdempotencyKey s) = Some id;
  oi_index k id : mapGet k (idsByIdempotencyKey s) = Some id ->
    exists e, mapGet id (eventsById s) = Some e /\ event_key e = k;
}.

Lemma outbox_inv_init : outbox_inv init.
Proof. split; [apply keyed_nil|done|done]. Qed.

(** The id the counter yields next is not in use. *)
Lemma next_id_fresh s : outbox_inv s ->
  mapGet (string_of_N (sequence s + 1)) (eventsById s) = None.
Proof.
  intros Hs. destruct (mapGet _ _) as [e|] eqn:He; [|done]. exfalso.
  destruct (oi_events _ Hs _ _ He) as (_ & (n & Hn%string_of_N_inj & ?) & _). lia.
Qed.

(** The effect of [enqueue] on a valid command: either the event already
    stored under the key, or a new one. *)
Lemma enqueue_cases env c s : outbox_inv s -> command_ok c ->
  match mapGet (outboxIdempotencyKey c) (idsByIdempotencyKey s) with
  | Some id => exists e, mapGet id (eventsById s) = Some e /\
      event_key e = outboxIdempotencyKey c /\ enqueue env c s = (Ok e, s)
  | None =>
      let id := string_of_N (sequence s + 1) in
      let e := mkStored (oc_tenantId c) (oc_eventType c) (oc_idempotencyKey c) (oc_payload c)
                 id (env_now env) None in
      enqueue env c s =
        (Ok e, mkState (mapSet id e (eventsById s))
                 (mapSet (outboxIdempotencyKey c) id (idsByIdempotencyKey s)) (sequence s + 1))
  end.
Proof.
  intros Hs Hc. unfold enqueue. msimpl. rewrite (proj2 (enqueue_schema_ok c c)) by done.
  destruct (mapGet _ _) as [id|] eqn:Hid; simpl.
  - destruct (oi_index _ Hs _ _ Hid) as (e & He & Hk). exists e.
    destruct (oi_events _ Hs _ _ He) as (_ & (n & -> & _) & _).
    split_and!; [done|done|].
    destruct (string_of_N n) as [|a0 s0] eqn:Hn; [by apply string_of_N_nonempty in Hn|].
    simpl. by rewrite He.
  - rewrite stored_schema_ok; [done|]. destruct Hc as (? & ? & ?).
    split_and!; try done. apply string_of_N_nonempty.
Qed.

Lemma enqueue_inv env c s : outbox_inv s -> command_ok c -> outbox_inv (enqueue env c s).2.
Proof.
  intros Hs Hc. pose proof (enqueue_cases env c s Hs Hc) as H. pose proof (next_id_fresh s Hs) as Hf.
  destruct (mapGet _ (idsByIdempotencyKey s)) as [id|] eqn:Hid.
  { by destruct H as (e & _ & _ & ->). }
  rewrite H. clear H. simpl. destruct Hc as (Ht & Hty & Hk). split; simpl.
  - exact (keyed_set oe_id _ (mkStored _ _ _ _ (string_of_N _) _ _) (oi_keyed _ Hs)).
  - intros id e. rewrite mapGet_set. case_bool_decide as Hi.
    + intros [= <-]. split; [|split].
      * unfold event_ok; simpl. split_and!; try done. apply string_of_N_nonempty.
      * exists (sequence s + 1)%N. split; [done|lia].
      * by rewrite mapGet_set_eq, Hi.
    + intros He. destruct (oi_events _ Hs _ _ He) as (He1 & (n & -> & Hn) & Hx).
      split; [done|split; [exists n; split; [done|lia]|]].
      rewrite mapGet_set_ne; [done|]. intros Heq. by rewrite Heq, Hx in Hid.
  - intros k id. rewrite mapGet_set. case_bool_decide as Hk'.
    + intros [= <-]. eexists. rewrite mapGet_set_eq. by split; [done|].
    + intros Hx. destruct (oi_index _ Hs _ _ Hx) as (e & He & Hek). exists e.
      rewrite mapGet_set_ne; [done|]. intros Heq. by rewrite <- Heq, Hf in He.
Qed.

Lemma markConsumed_cases env tn id at_ s : outbox_inv s ->
  match mapGet id (eventsById s) with
  | Some e =>
      if bool_decide (oe_tenantId e = tn)
      then let e' := e <| oe_consumedAt := Some (at_ ?: env_now env) |> in
           markConsumed env tn id at_ s =
             (Ok e', s <| eventsById := mapSet id e' (eventsById s) |>)
      else exists m, markConsumed env tn id at_ s = (Err (JsError m), s)
  | None => exists m, markConsumed env tn id at_ s = (Err (JsError m), s)
  end.
Proof.
  intros Hs. unfold markConsumed. msimpl. destruct (mapGet id _) as [e|] eqn:He; [|eauto].
  case_bool_decide; simpl; [|eauto]. rewrite stored_schema_ok; [done|].
  apply (oi_events _ Hs _ _ He).
Qed.

Lemma markConsumed_inv env tn id at_ s :
  outbox_inv s -> outbox_inv (markConsumed env tn id at_ s).2.
Proof.
  intros Hs. pose proof (markConsumed_cases env tn id at_ s Hs) as H.
  destruct (mapGet id (eventsById s)) as [e|] eqn:He; [|by destruct H as [? ->]].
  case_bool_decide; [|by destruct H as [? ->]]. rewrite H. simpl.
  destruct (oi_events _ Hs _ _ He) as (He1 & Hn & Hx). split; simpl.
  - eapply keyed_update; [apply Hs|exact He|done].
  - intros id' e'. rewrite mapGet_set. case_bool_decide as Hi; [|apply Hs].
    intros [= <-]. subst id'. split; [exact He1|done].
  - intros k id' Hk. destruct (oi_index _ Hs _ _ Hk) as (e' & He' & Hek).
    rewrite mapGet_set. case_bool_decide as Hi; [|eauto]. subst id'. eexists. split; [done|].
    rewrite He in He'. by injection He' as <-.
Qed.

(** The states that calls can reach, valid commands or not. *)
Inductive reachable : State -> Prop :=
  | reach_init : reachable init
  | reach_enqueue env c s : reachable s -> reachable (enqueue env c s).2
  | reach_consume env tn id at_ s : reachable s -> reachable (markConsumed env tn id at_ s).2.

Lemma refine_err {A} (p : A -> bool) a e : refine p a = Err e -> e = ZodError.
Proof. unfold refine. case_match; naive_solver. Qed.

Lemma enqueue_schema_err c e : enqueueOutboxEventSchema c = Err e -> e = ZodError.
Proof.
  unfold enqueueOutboxEventSchema. msimpl.
  destruct (tenantIdSchema _) eqn:E1; [|intros [= <-]; exact (refine_err _ _ _ E1)].
  destruct (outboxEventTypeSchema _) eqn:E2; [|intros [= <-]; exact (refine_err _ _ _ E2)].
  destruct (min1_text _) eqn:E3; [done|intros [= <-]; exact (refine_err _ _ _ E3)].
Qed.

Lemma enqueue_invalid env c s : ~ command_ok c -> enqueue env c s = (Err ZodError, s).
Proof.
  intros Hc. unfold enqueue. msimpl. destruct (enqueueOutboxEventSchema c) as [c'|e] eqn:E1.
  - apply enqueue_schema_ok in E1 as [? _]. done.
  - by rewrite (enqueue_schema_err _ _ E1).
Qed.

#[local] Instance command_ok_dec c : Decision (command_ok c).
Proof. unfold command_ok. apply _. Defined.

Lemma reachable_inv s : reachable s -> outbox_inv s.
Proof.
  induction 1 as [|env c s _ IH|env tn id at_ s _ IH].
  - apply outbox_inv_init.
  - destruct (decide (command_ok c)); [by apply enqueue_inv|by rewrite enqueue_invalid].
  - by apply markConsumed_inv.
Qed.

Lemma enqueue_ok_inv env c s e s' : outbox_inv s -> enqueue env c s = (Ok e, s') ->
  command_ok c /\ event_key e = outboxIdempotencyKey c /\ event_ok e /\
  mapGet (outboxIdempotencyKey c) (idsByIdempotencyKey s') = Some (oe_id e) /\
  mapGet (oe_id e) (eventsById s') = Some e.
Proof.
  intros Hs He. destruct (decide (command_ok c)) as [Hc|Hc]; [|by rewrite enqueue_invalid in He].
  pose proof (enqueue_cases env c s Hs Hc) as H. pose proof (enqueue_inv env c s Hs Hc) as Hs'.
  rewrite He in Hs'. simpl in Hs'. split; [done|].
  assert (event_key e = outboxIdempotencyKey c /\ mapGet (oe_id e) (eventsById s') = Some e)
    as [Hk Hg].
  { destruct (mapGet _ (idsByIdempotencyKey s)) as [id|].
    - destruct H as (e' & Hg & Hk & Heq). rewrite Heq in He. injection He as -> <-.
      split; [done|]. by rewrite (proj2 (oi_keyed _ Hs) _ _ Hg).
    - rewrite H in He. injection He as <- <-. simpl. split; [done|apply mapGet_set_eq]. }
  destruct (oi_events _ Hs' _ _ Hg) as (Hok & _ & Hx). by rewrite <- Hk.
Qed.

(** A repeated command finds the event of the first one. *)
Lemma enqueue_again s env env' c c' e s' : outbox_inv s -> enqueue env c s = (Ok e, s') ->
  oc_tenantId c' = oc_tenantId c -> oc_eventType c' = oc_eventType c ->
  oc_idempotencyKey c' = oc_idempotencyKey c ->
  enqueue env' c' s' = (Ok e, s').
Proof.
  intros Hs He H1 H2 H3.
  destruct (enqueue_ok_inv _ _ _ _ _ Hs He) as (Hc & Hk & _ & Hx & Hg).
  assert (command_ok c') as Hc' by (unfold command_ok; by rewrite H1, H2, H3).
  assert (outboxIdempotencyKey c' = outboxIdempotencyKey c) as Hkc
    by (unfold outboxIdempotencyKey; by rewrite H1, H2, H3).
  pose proof (enqueue_inv env c s Hs Hc) as Hs'. rewrite He in Hs'. simpl in Hs'.
  pose proof (enqueue_cases env' c' s' Hs' Hc') as H. rewrite Hkc, Hx in H.
  destruct H as (e' & He' & _ & ->). congruence.
Qed.

Lemma number_of_event s e : outbox_inv s -> e ∈ mapValues (eventsById s) ->
  exists n, number_of_string (oe_id e) = Some n /\ oe_id e = string_of_N n.
Proof.
  intros Hs He. apply (keyed_values oe_id) in He; [|apply Hs].
  destruct (oi_events _ Hs _ _ He) as (_ & (n & -> & _) & _).
  exists n. by rewrite number_of_string_of_N.
Qed.

(** Over the stored events, [id_le] compares sequence numbers. *)
Definition event_number (e : StoredOutboxEvent) : N := number_of_string (oe_id e) ?: 0%N.

Lemma sort_events_sorted s (p : StoredOutboxEvent -> bool) : outbox_inv s ->
  StronglySorted (fun a b => event_number a <= event_number b)%N
    (sort_by id_le (bfilter p (mapValues (eventsById s)))).
Proof.
  intros Hs. set (l := bfilter p _).
  assert (Forall (fun e => exists n, number_of_string (oe_id e) = Some n) l) as Hl.
  { apply Forall_forall. intros e He. apply elem_of_bfilter in He as [_ He].
    destruct (number_of_event s e Hs He) as (n & Hn & _). eauto. }
  clearbody l. clear Hs p.
  assert (forall x (q : list StoredOutboxEvent), (exists n, number_of_string (oe_id x) = Some n) ->
    Forall (fun e => exists n, number_of_string (oe_id e) = Some n) q ->
    StronglySorted (fun a b => event_number a <= event_number b)%N q ->
    StronglySorted (fun a b => event_number a <= event_number b)%N (insert_by id_le x q)) as Hins.
  { intros x q [nx Hx] Hq Hs. induction Hs as [|y q Hs IH Hf]; simpl; [repeat constructor|].
    apply Forall_cons in Hq as [[ny Hy] Hq]. unfold id_le at 1. rewrite Hx, Hy.
    destruct (N.leb_spec nx ny).
    - constructor; [by constructor|]. assert (event_number x <= event_number y)%N.
      { unfold event_number. by rewrite Hx, Hy. }
      constructor; [done|]. eapply Forall_impl; [exact Hf|]. simpl. lia.
    - constructor; [by apply IH|]. rewrite insert_by_perm. constructor; [|done].
      unfold event_number. rewrite Hx, Hy. simpl. lia. }
  induction Hl as [|x l Hx Hl IH]; simpl; [constructor|].
  apply Hins; [done| |done]. by rewrite sort_by_perm.
Qed.
End lemmas.

(** ** The port and its contract *)

(** What a client may rely on: a well-formed command is accepted, its event
    carries the command's identity, and a repeated command gets the same
    event and writes nothing. *)
Class OutboxLaws `{Z : Zod} (S : Type) (P : OutboxPort S) := {
  outbox_wf : S -> Prop;
  outbox_accepts env c s : outbox_wf s -> command_ok c ->
    exists e s', outbox_enqueue env c s = (Ok e, s') /\ outbox_wf s' /\
      oe_tenantId e = oc_tenantId c /\ oe_eventType e = oc_eventType c /\
      oe_idempotencyKey e = oc_idempotencyKey c;
  outbox_again env env' c c' s e s' : outbox_wf s -> outbox_enqueue env c s = (Ok e, s') ->
    oc_tenantId c' = oc_tenantId c -> oc_eventType c' = oc_eventType c ->
    oc_idempotencyKey c' = oc_idempotencyKey c ->
    outbox_enqueue env' c' s' = (Ok e, s');
}.

#[export] Instance in_memory_outbox_laws `{Z : Zod} {ZL : ZodLaws Z} :
  OutboxLaws InMemoryOutbox.State in_memory_outbox_port.
Proof.
  refine {| outbox_wf := outbox_inv |}.
  - intros env c s Hs Hc. pose proof (enqueue_cases env c s Hs Hc) as H.
    pose proof (enqueue_inv env c s Hs Hc) as Hs'. simpl.
    destruct (InMemoryOutbox.enqueue env c s) as [[e|x] s'] eqn:He.
    + destruct (enqueue_ok_inv _ _ _ _ _ Hs He) as ((? & ? & _) & Hk & (? & ? & _) & _).
      apply key_of_inj in Hk as (? & ? & ?); try done. by exists e, s'.
    + destruct (mapGet _ _); [by destruct H as (? & _ & _ & ?)|done].
  - intros env env' c c' s e s' Hs He. exact (enqueue_again s env env' c c' e s' Hs He).
Defined.

(** *** The Postgres outbox keeps the same contract *)

#[export] Instance postgres_outbox_port `{Zod} `{SqlEngine} : OutboxPort (table OutboxRow) :=
  {| outbox_enqueue := PostgresOutbox.enqueue |}.

Section postgres_port.
Context `{Z : Zod} {ZL : ZodLaws Z} {E : SqlEngine} {L : SqlLaws E}.

Definition row_key (r : OutboxRow) : string * string * string :=
  (or_tenantId r, or_eventType r, or_idempotencyKey r).
Definition command_key (c : EnqueueOutboxEvent) : string * string * string :=
  (oc_tenantId c, oc_eventType c, oc_idempotencyKey c).

(** Every row is a valid event, and the unique constraint holds. *)
Record outbox_table_inv (t : table OutboxRow) : Prop := {
  ot_unique : NoDup (row_key <$> rows t);
  ot_valid r : r ∈ rows t -> zod_uuid (or_tenantId r) = true /\
    event_type_ok (or_eventType r) = true /\ or_idempotencyKey r ≠ "";
}.

Lemma same_event_key a b : PostgresOutbox.same_event a b = bool_decide (row_key a = row_key b).
Proof.
  unfold PostgresOutbox.same_event, row_key. apply eq_true_iff_eq.
  rewrite !andb_true_iff, !bool_decide_eq_true. naive_solver congruence.
Qed.

Lemma where_event_key c r :
  PostgresOutbox.where_event c r = bool_decide (row_key r = command_key c).
Proof.
  unfold PostgresOutbox.where_event, row_key, command_key. sql_simpl. apply eq_true_iff_eq.
  rewrite !andb_true_iff, !bool_decide_eq_true. naive_solver congruence.
Qed.

Lemma mapRow_ok r : zod_uuid (or_tenantId r) = true -> event_type_ok (or_eventType r) = true ->
  or_idempotencyKey r ≠ "" ->
  PostgresOutbox.mapRow r = Ok (mkStored (or_tenantId r) (or_eventType r) (or_idempotencyKey r)
    (or_payload r) (string_of_N (or_id r)) (or_createdAt r) (or_consumedAt r)).
Proof.
  intros. unfold PostgresOutbox.mapRow. apply stored_schema_ok. split_and!; try done.
  apply string_of_N_nonempty.
Qed.

(** The row a valid command ends up with: the one already there, or its own. *)
Lemma pg_enqueue_cases env c t : outbox_table_inv t -> command_ok c ->
  exists r t', row_key r = command_key c /\ outbox_table_inv t' /\ r ∈ rows t' /\
    ((r ∈ rows t /\ t' = t) \/
     (row_key r ∉ (row_key <$> rows t) /\ rows t' ≡ₚ r :: rows t /\ or_payload r = oc_payload c)) /\
    PostgresOutbox.enqueue env c t = (PostgresOutbox.mapRow r, t').
Proof.
  intros Ht Hc. unfold PostgresOutbox.enqueue, transaction, tx_insert, tx_select. msimpl.
  rewrite (proj2 (enqueue_schema_ok c c)) by done.
  set (new := mkOutboxRow _ _ _ _ _ _ _).
  destruct (existsb (PostgresOutbox.same_event new) (rows t)) eqn:Hx.
  - apply existsb_elem in Hx as Hx'. destruct Hx' as (r & Hr & Hk).
    rewrite same_event_key in Hk. apply bool_decide_eq_true in Hk.
    rewrite (insert_conflict _ _ _ Hx). exists r, t. split_and!; try done; [by left|].
    rewrite (select_unique row_key t r) by
      (done || apply Ht || (intros; rewrite where_event_key, <- Hk; done)).
    destruct (ot_valid _ Ht r Hr) as (? & ? & ?). by rewrite mapRow_ok.
  - destruct (insert_fresh _ _ _ Hx) as [_ Hrows].
    destruct (insert _ new t) as [ins t']. simpl in Hrows.
    assert (row_key new ∉ (row_key <$> rows t)) as Hkey.
    { intros (r & Hk & Hr)%list_elem_of_fmap. apply not_true_iff_false in Hx. apply Hx.
      apply existsb_elem. exists r. split; [done|]. rewrite same_event_key. by apply bool_decide_eq_true. }
    assert (outbox_table_inv t') as Ht'.
    { split; [rewrite Hrows; csimpl; constructor; [done|apply Ht]|].
      intros r. rewrite Hrows. intros [->|Hr]%elem_of_cons; [|by apply Ht].
      by destruct Hc as (? & ? & ?). }
    assert (new ∈ rows t') as Hin by (rewrite Hrows; by left).
    exists new, t'. split_and!; try done; [by right|].
    rewrite (select_unique row_key t' new) by
      (done || apply Ht' || (intros; by rewrite where_event_key)).
    destruct (ot_valid _ Ht' new Hin) as (? & ? & ?). by rewrite mapRow_ok.
Qed.

Lemma pg_enqueue_row env c t : outbox_table_inv t -> command_ok c ->
  exists r t', row_key r = command_key c /\ outbox_table_inv t' /\ r ∈ rows t' /\
    ((r ∈ rows t /\ t' = t) \/ row_key r ∉ (row_key <$> rows t)) /\
    PostgresOutbox.enqueue env c t = (PostgresOutbox.mapRow r, t').
Proof.
  intros Ht Hc. destruct (pg_enqueue_cases env c t Ht Hc) as (r & t' & ? & ? & ? & Hcase & ?).
  exists r, t'. split_and!; [done..| |done]. destruct Hcase as [?|[? _]]; [by left|by right].
Qed.

#[export] Instance postgres_outbox_laws : OutboxLaws (table OutboxRow) postgres_outbox_port.
Proof.
  refine {| outbox_wf := outbox_table_inv |}.
  - intros env c t Ht Hc. simpl.
    destruct (pg_enqueue_row env c t Ht Hc) as (r & t' & Hk & Ht' & Hr & _ & ->).
    destruct (ot_valid _ Ht' r Hr) as (? & ? & ?). rewrite mapRow_ok by done.
    unfold row_key, command_key in Hk. injection Hk as <- <- <-. by eexists _, t'.
  - intros env env' c c' t e t1 Ht He H1 H2 H3. simpl in *.
    destruct (decide (command_ok c)) as [Hc|Hc].
    2: { exfalso. revert He. unfold PostgresOutbox.enqueue. msimpl.
         destruct (enqueueOutboxEventSchema c) eqn:Es; [|done].
         by apply enqueue_schema_ok in Es as [? _]. }
    assert (command_ok c') as Hc' by (unfold command_ok; by rewrite H1, H2, H3).
    destruct (pg_enqueue_row env c t Ht Hc) as (r & t' & Hk & Ht' & Hr & _ & Heq).
    rewrite Heq in He. injection He as He <-.
    destruct (pg_enqueue_row env' c' t' Ht' Hc') as (r' & t2 & Hk' & Ht2 & Hr' & Hsame & ->).
    assert (command_key c' = command_key c) as Hcc by (unfold command_key; by rewrite H1, H2, H3).
    rewrite Hcc, <- Hk in Hk'. destruct Hsame as [[Hr2 ->]|Hn].
    + rewrite (nodup_key_inj row_key (rows t') r r'); try done; [by rewrite He|apply Ht'].
    + exfalso. apply Hn. rewrite Hk'. by apply list_elem_of_fmap_2.
Defined.
End postgres_port.

(** ** The outbox as a store

    A finer contract, for clients that reason about several commands: the
    outbox is a partial map from (tenant, event type, idempotency key) to
    events, and enqueueing adds the command's event unless there is one. *)

Definition outbox_key : Type := string * string * string.

Class OutboxStore `{Z : Zod} (S : Type) (P : OutboxPort S) := {
  store_wf : S -> Prop;
  stored_event : S -> outbox_key -> option StoredOutboxEvent;
  store_enqueue env c s : store_wf s -> command_ok c ->
    exists e s', outbox_enqueue env c s = (Ok e, s') /\ store_wf s' /\
      (forall k, stored_event s' k =
         if bool_decide (k = command_key c) then Some e else stored_event s k) /\
      (forall e0, stored_event s (command_key c) = Some e0 -> e = e0 /\ s' = s);
}.

Section growth.
Context `{Z : Zod} {S : Type} {P : OutboxPort S} {OS : OutboxStore S P}.

(** Events stay as they are; more may be there. *)
Definition outbox_grows (o o' : S) : Prop :=
  forall k e, stored_event o k = Some e -> stored_event o' k = Some e.

#[export] Instance outbox_grows_preorder : PreOrder outbox_grows.
Proof. split; [by intros o k e|]. intros o1 o2 o3 H1 H2 k e He. by apply H2, H1. Qed.

Lemma enqueue_stored env c s : store_wf s -> command_ok c ->
  exists e s', outbox_enqueue env c s = (Ok e, s') /\ store_wf s' /\ outbox_grows s s' /\
    stored_event s' (command_key c) = Some e /\
    (forall k, is_Some (stored_event s' k) -> is_Some (stored_event s k) \/ k = command_key c).
Proof.
  intros Hs Hc. destruct (store_enqueue env c s Hs Hc) as (e & s' & He & Hs' & Hk & Hold).
  exists e, s'. split_and!; [done|done| | |].
  - intros k x Hx. rewrite Hk. case_bool_decide as Hkk; [|done]. subst k. by destruct (Hold _ Hx) as [-> _].
  - by rewrite Hk, bool_decide_true.
  - intros k. rewrite Hk. case_bool_decide; auto.
Qed.
End growth.

Section find_key.
Context {R K : Type} `{EqDecision K} (kf : R -> K).

Lemma find_key_spec l k r : NoDup (kf <$> l) ->
  find (fun x => bool_decide (kf x = k)) l = Some r <-> r ∈ l /\ kf r = k.
Proof.
  intros Hd. split.
  - intros [Hr Hk]%find_some. apply bool_decide_eq_true in Hk. by rewrite list_elem_of_In.
  - intros [Hr Hk]. destruct (find _ l) as [x|] eqn:Hf.
    + apply find_some in Hf as [Hx Hkx]. apply bool_decide_eq_true in Hkx.
      apply list_elem_of_In in Hx. f_equal. apply (nodup_key_inj kf l r x); congruence.
    + eapply find_none in Hf; [|by apply list_elem_of_In]. by apply bool_decide_eq_false in Hf.
Qed.

(** Adding a record under a key that is not there. *)
Lemma find_key_add l l' new k : NoDup (kf <$> l) -> kf new ∉ (kf <$> l) -> l' ≡ₚ new :: l ->
  find (fun x => bool_decide (kf x = k)) l' =
    if bool_decide (k = kf new) then Some new else find (fun x => bool_decide (kf x = k)) l.
Proof.
  intros Hd Hn Hl. apply option_eq. intros r.
  assert (NoDup (kf <$> l')) as Hd' by (rewrite Hl; csimpl; by apply NoDup_cons).
  rewrite find_key_spec, Hl, elem_of_cons by done. case_bool_decide as Hk.
  - split; [|naive_solver]. intros [[->|Hr] Hkr]; [done|]. exfalso. apply Hn.
    rewrite <- Hk, <- Hkr. by apply list_elem_of_fmap_2.
  - rewrite find_key_spec by done. naive_solver.
Qed.
End find_key.

Definition event_triple (e : StoredOutboxEvent) : outbox_key :=
  (oe_tenantId e, oe_eventType e, oe_idempotencyKey e).

Section in_memory_store.
Context `{Z : Zod} {ZL : ZodLaws Z}.
Import InMemoryOutbox.

Lemma event_triples_unique s : outbox_inv s -> NoDup (event_triple <$> mapValues (eventsById s)).
Proof.
  intros Hs. apply NoDup_fmap_2_strong.
  2: { eapply NoDup_fmap_1. apply (keyed_nodup oe_id), Hs. }
  intros a b Ha Hb He. apply (keyed_values oe_id) in Ha, Hb; [|apply Hs..].
  destruct (oi_events _ Hs _ _ Ha) as (_ & _ & Hia), (oi_events _ Hs _ _ Hb) as (_ & _ & Hib).
  assert (event_key a = event_key b) as Hk by (unfold event_key; by injection He as -> -> ->).
  rewrite Hk, Hib in Hia. congruence.
Qed.

#[export] Instance in_memory_outbox_store : OutboxStore InMemoryOutbox.State in_memory_outbox_port.
Proof.
  refine {| store_wf := outbox_inv;
    stored_event s k := find (fun e => bool_decide (event_triple e = k)) (mapValues (eventsById s)) |}.
  intros env c s Hs Hc. pose proof (enqueue_cases env c s Hs Hc) as H.
  pose proof (enqueue_inv env c s Hs Hc) as Hs'. pose proof (event_triples_unique s Hs) as Hd. simpl.
  destruct (mapGet (outboxIdempotencyKey c) _) as [id|] eqn:Hid.
  - destruct H as (e & He & Hk & Henq). exists e, s.
    destruct (oi_events _ Hs _ _ He) as ((? & ? & ? & ?) & _). destruct Hc as (? & ? & ?).
    apply key_of_inj in Hk as (E1 & E2 & E3); try done.
    assert (event_triple e = command_key c) as Ht by (unfold event_triple, command_key; congruence).
    assert (find (fun x => bool_decide (event_triple x = command_key c)) (mapValues (eventsById s)) = Some e)
      as Hf.
    { apply find_key_spec; [done|]. split; [|done]. apply elem_of_mapValues; [apply Hs|eauto]. }
    split_and!; [done|done| |rewrite Hf; naive_solver].
    intros k. case_bool_decide as Hkk; [by subst|done].
  - cbv zeta in H. rewrite H in Hs' |- *. set (e := mkStored _ _ _ _ _ _ _) in *.
    eexists e, _. split_and!; [done|exact Hs'| |].
    + intros k. simpl. rewrite mapValues_set_new by (by apply next_id_fresh).
      rewrite (find_key_add event_triple (mapValues (eventsById s)) _ e k Hd);
        [reflexivity| |symmetry; apply Permutation_cons_append].
      intros (e0 & Hk & He)%list_elem_of_fmap. apply (keyed_values oe_id) in He; [|apply Hs].
      destruct (oi_events _ Hs _ _ He) as (_ & _ & Hx).
      assert (event_key e0 = outboxIdempotencyKey c) as Hek.
      { unfold event_key, outboxIdempotencyKey. unfold event_triple in Hk. simpl in Hk.
        by injection Hk as <- <- <-. }
      congruence.
    + intros e0 [He0 Hk]%find_key_spec; [|done]. exfalso.
      apply (keyed_values oe_id) in He0; [|apply Hs].
      destruct (oi_events _ Hs _ _ He0) as (_ & _ & Hx).
      assert (event_key e0 = outboxIdempotencyKey c) as Hek.
      { unfold event_key, outboxIdempotencyKey. unfold event_triple, command_key in Hk.
        by injection Hk as -> -> ->. }
      congruence.
Defined.
End in_memory_store.

Section postgres_store.
Context `{Z : Zod} {ZL : ZodLaws Z} {E : SqlEngine} {L : SqlLaws E}.

Definition row_event (r : OutboxRow) : StoredOutboxEvent :=
  mkStored (or_tenantId r) (or_eventType r) (or_idempotencyKey r) (or_payload r)
    (string_of_N (or_id r)) (or_createdAt r) (or_consumedAt r).

#[export] Instance postgres_outbox_store : OutboxStore (table OutboxRow) postgres_outbox_port.
Proof.
  refine {| store_wf := outbox_table_inv;
    stored_event t k := row_event <$> find (fun r => bool_decide (row_key r = k)) (rows t) |}.
  intros env c t Ht Hc. pose proof (ot_unique _ Ht) as Hd. simpl.
  destruct (pg_enqueue_cases env c t Ht Hc) as (r & t' & Hk & Ht' & Hr & Hcase & Heq).
  destruct (ot_valid _ Ht' r Hr) as (? & ? & ?). rewrite mapRow_ok in Heq by done.
  exists (row_event r), t'. split_and!; [exact Heq|done| |].
  - intros k. destruct Hcase as [[Hin ->]|(Hn & Hrows & _)].
    + case_bool_decide as Hkk; [|done]. subst k.
      by rewrite (proj2 (find_key_spec row_key (rows t) (command_key c) r Hd) (conj Hin Hk)).
    + rewrite (find_key_add row_key (rows t) (rows t') r k Hd Hn Hrows), Hk.
      by repeat case_bool_decide.
  - intros e0 Hf. destruct (find _ (rows t)) as [r0|] eqn:Hf0; [|done]. injection Hf as <-.
    apply find_key_spec in Hf0 as [Hr0 Hk0]; [|done]. destruct Hcase as [[Hin ->]|[Hn _]].
    + split; [|done]. by rewrite (nodup_key_inj row_key (rows t) r r0) by (done || congruence).
    + exfalso. apply Hn. rewrite Hk, <- Hk0. by apply list_elem_of_fmap_2.
Defined.
End postgres_store.

(** What an event announces: the payload of the first command under its key. *)
Class OutboxPayloads `{Z : Zod} (S : Type) (P : OutboxPort S) {OS : OutboxStore S P} :=
  store_payload env c s e s' : store_wf s -> command_ok c -> stored_event s (command_key c) = None ->
    outbox_enqueue env c s = (Ok e, s') -> oe_payload e = oc_payload c.

#[export] Instance in_memory_outbox_payloads `{Z : Zod} {ZL : ZodLaws Z} :
  OutboxPayloads InMemoryOutbox.State in_memory_outbox_port.
Proof.
  intros env c s e s' Hs Hc Hn He. pose proof (enqueue_cases env c s Hs Hc) as H. simpl in He, Hn.
  destruct (mapGet _ _) as [id|] eqn:Hid.
  - exfalso. destruct H as (e0 & He0 & Hk & _).
    destruct (oi_events _ Hs _ _ He0) as ((? & ? & ? & ?) & _). destruct Hc as (? & ? & ?).
    apply key_of_inj in Hk as (E1 & E2 & E3); try done.
    eapply find_none in Hn; [|apply list_elem_of_In, elem_of_mapValues; [apply Hs|eauto]].
    apply bool_decide_eq_false in Hn. apply Hn. unfold event_triple, command_key. congruence.
  - cbv zeta in H. rewrite H in He. by injection He as <- _.
Qed.

#[export] Instance postgres_outbox_payloads `{Z : Zod} {ZL : ZodLaws Z} {E : SqlEngine} {L : SqlLaws E} :
  OutboxPayloads (table OutboxRow) postgres_outbox_port.
Proof.
  intros env c t e t' Ht Hc Hn He. simpl in *.
  destruct (pg_enqueue_cases env c t Ht Hc) as (r & t1 & Hk & Ht' & Hr & Hcase & Heq).
  destruct (ot_valid _ Ht' r Hr) as (? & ? & ?). rewrite mapRow_ok in Heq by done.
  rewrite Heq in He. injection He as <- _. simpl. destruct Hcase as [[Hin _]|(_ & _ & Hp)]; [|done].
  exfalso. pose proof (proj2 (find_key_spec row_key (rows t) (command_key c) r (ot_unique _ Ht)) (conj Hin Hk)) as Hf.
  by rewrite Hf in Hn.
Qed.

(** ** Theorems *)

Section theorems.
Context `{Z : Zod} {ZL : ZodLaws Z}.
Import InMemoryOutbox.

(** The idempotency index never points to a missing event: in every
    reachable state [enqueue] returns an event for a well-formed command and
    throws only schema errors. *)
Theorem outbox_index_never_corrupt s env c : reachable s ->
  (command_ok c -> exists e s', enqueue env c s = (Ok e, s')) /\
  (~ command_ok c -> enqueue env c s = (Err ZodError, s)).
Proof.
  intros Hs%reachable_inv. split; [|apply enqueue_invalid].
  intros Hc. pose proof (enqueue_cases env c s Hs Hc) as H.
  destruct (mapGet _ _); [destruct H as (? & _ & _ & H)|]; eauto.
Qed.

(** Enqueueing is idempotent per (tenant, event type, idempotency key):
    a second command with the same three parts, whatever its payload,
    returns the first event and leaves the outbox as it was. *)
Theorem enqueue_idempotent s env env' c c' e s' : reachable s ->
  enqueue env c s = (Ok e, s') ->
  oc_tenantId c' = oc_tenantId c -> oc_eventType c' = oc_eventType c ->
  oc_idempotencyKey c' = oc_idempotencyKey c ->
  enqueue env' c' s' = (Ok e, s').
Proof. intros Hs%reachable_inv He H1 H2 H3. by apply (enqueue_again s env env' c). Qed.

(** The event a command gets back is its own: it carries the command's
    tenant, event type and idempotency key, so two commands share an event
    only when all three agree (the composite string key cannot collide). *)
Theorem enqueue_returns_own_event s env c e s' : reachable s ->
  enqueue env c s = (Ok e, s') ->
  oe_tenantId e = oc_tenantId c /\ oe_eventType e = oc_eventType c /\
  oe_idempotencyKey e = oc_idempotencyKey c.
Proof.
  intros Hs%reachable_inv He.
  destruct (enqueue_ok_inv _ _ _ _ _ Hs He) as ((? & ? & _) & Hk & (? & ? & _) & _).
  by apply key_of_inj in Hk.
Qed.

(** Draining is first-in first-out: [listUnconsumed] returns at most
    [limit] events, all unconsumed events of that tenant, in increasing
    sequence order, and every unconsumed event it leaves out comes after all
    the events it returns. *)
Theorem list_unconsumed_fifo s tn limit l : reachable s -> 0 <= limit ->
  listUnconsumed tn limit s = (Ok l, s) ->
  (Z.of_nat (length l) <= limit) /\
  StronglySorted (fun a b => event_number a <= event_number b)%N l /\
  (forall e, e ∈ l -> is_unconsumed tn e = true /\ e ∈ mapValues (eventsById s)) /\
  (forall e e', e ∈ l -> e' ∈ mapValues (eventsById s) -> is_unconsumed tn e' = true ->
     e' ∉ l -> (event_number e <= event_number e')%N).
Proof.
  intros Hs%reachable_inv Hl [= <-].
  pose proof (sort_events_sorted s (is_unconsumed tn) Hs) as Hsort.
  set (q := sort_by _ _) in *. split; [by apply slice0_length|].
  assert (slice0 limit q = take (Z.to_nat limit) q) as Hsl.
  { unfold slice0. by rewrite (proj2 (Z.ltb_ge _ _)). }
  rewrite Hsl. split; [by apply StronglySorted_take|]. split.
  - intros e He%subseteq_take. apply elem_of_sort_by, elem_of_bfilter in He. naive_solver.
  - intros e e' He He' Hu Hn. rewrite <- (take_drop (Z.to_nat limit) q) in Hsort.
    apply (StronglySorted_app_inv _ _ _ e e' Hsort He).
    assert (e' ∈ q) as Hq by (by apply elem_of_sort_by, elem_of_bfilter).
    rewrite <- (take_drop (Z.to_nat limit) q) in Hq. by apply elem_of_app in Hq as [?|?].
Qed.

(** Consuming is scoped to the tenant: with another tenant's id it throws
    and changes nothing; with the owner's id the event leaves the
    unconsumed list and no other event changes. *)
Theorem mark_consumed_scoped s env tn id at_ e : reachable s ->
  mapGet id (eventsById s) = Some e ->
  (oe_tenantId e ≠ tn -> exists m, markConsumed env tn id at_ s = (Err (JsError m), s)) /\
  (oe_tenantId e = tn -> exists e' s', markConsumed env tn id at_ s = (Ok e', s') /\
     is_unconsumed tn e' = false /\ mapGet id (eventsById s') = Some e' /\
     forall id', id' ≠ id -> mapGet id' (eventsById s') = mapGet id' (eventsById s)).
Proof.
  intros Hs%reachable_inv He. pose proof (markConsumed_cases env tn id at_ s Hs) as H.
  rewrite He in H. case_bool_decide as Ht; [|done]. split; [done|]. intros _.
  eexists _, _. split; [exact H|]. split_and!.
  - unfold is_unconsumed, upd. simpl. by rewrite andb_false_r.
  - apply mapGet_set_eq.
  - intros id' Hne. by apply mapGet_set_ne.
Qed.

(** The Postgres outbox keeps the same contract on every table that
    satisfies its unique constraint: a well-formed command is accepted, the
    event it gets carries its tenant, type and key, the constraint still
    holds, and a second command with the same three parts gets the same event
    and leaves the table as it was. *)
Theorem postgres_enqueue_idempotent {E : SqlEngine} {L : SqlLaws E} env env' c c' t :
  outbox_table_inv t -> command_ok c ->
  oc_tenantId c' = oc_tenantId c -> oc_eventType c' = oc_eventType c ->
  oc_idempotencyKey c' = oc_idempotencyKey c ->
  exists e t', PostgresOutbox.enqueue env c t = (Ok e, t') /\ outbox_table_inv t' /\
    (oe_tenantId e, oe_eventType e, oe_idempotencyKey e) = command_key c /\
    PostgresOutbox.enqueue env' c' t' = (Ok e, t').
Proof.
  intros Ht Hc H1 H2 H3.
  destruct (outbox_accepts (OutboxLaws := postgres_outbox_laws) env c t Ht Hc) as (e & t' & He & Ht' & Hk1 & Hk2 & Hk3).
  exists e, t'. split_and!; [done|done|by rewrite Hk1, Hk2, Hk3|].
  exact (outbox_again (OutboxLaws := postgres_outbox_laws) env env' c c' t e t' Ht He H1 H2 H3).
Qed.
End theorems.

(** ** Witnesses *)

Module OutboxExample.
Import ZodExample InMemoryOutbox.

Definition command : EnqueueOutboxEvent :=
  mkEnqueue tenant "signal.stored.v1" "k1" [("payload", JNull)].
Definition command2 : EnqueueOutboxEvent := mkEnqueue tenant "signal.stored.v1" "k1" [].
Definition stored : State := (enqueue env1 command init).2.
Definition event1 : StoredOutboxEvent :=
  mkStored tenant "signal.stored.v1" "k1" [("payload", JNull)] "1" 1000 None.

Lemma stored_reachable : reachable stored.
Proof. apply reach_enqueue, reach_init. Qed.
End OutboxExample.

Section witnesses.
Import ZodExample InMemoryOutbox OutboxExample.

Lemma outbox_index_never_corrupt_witness :
  exists e s', enqueue env2 command stored = (Ok e, s').
Proof.
  apply (outbox_index_never_corrupt stored env2 command stored_reachable).
  unfold command_ok. split_and!; [reflexivity..|discriminate].
Defined.

Lemma enqueue_idempotent_witness :
  enqueue env2 command2 stored = (Ok event1, stored).
Proof.
  apply (enqueue_idempotent init env1 env2 command command2 event1 stored reach_init);
    vm_compute; reflexivity.
Defined.

Lemma enqueue_returns_own_event_witness : oe_idempotencyKey event1 = "k1".
Proof.
  apply (enqueue_returns_own_event init env1 command event1 stored reach_init).
  vm_compute. reflexivity.
Defined.

Lemma list_unconsumed_fifo_witness : Z.of_nat (length [event1]) <= 5.
Proof.
  apply (list_unconsumed_fifo stored tenant 5 [event1] stored_reachable);
    [discriminate|vm_compute; reflexivity].
Defined.

Lemma mark_consumed_scoped_witness :
  exists m, markConsumed env2 other_tenant "1" None stored = (Err (JsError m), stored).
Proof.
  apply (mark_consumed_scoped stored env2 other_tenant "1" None event1 stored_reachable);
    [vm_compute; reflexivity|vm_compute; discriminate].
Defined.

Lemma postgres_enqueue_idempotent_witness :
  exists e t', PostgresOutbox.enqueue (E := ListEngine.list_engine) env1 command [] = (Ok e, t') /\
    outbox_table_inv (E := ListEngine.list_engine) t' /\
    (oe_tenantId e, oe_eventType e, oe_idempotencyKey e) = command_key command /\
    PostgresOutbox.enqueue (E := ListEngine.list_engine) env2 command2 t' = (Ok e, t').
Proof.
  apply (postgres_enqueue_idempotent (E := ListEngine.list_engine) (L := ListEngine.list_laws)); try reflexivity.
  - split; [constructor|]. intros r Hr. inversion Hr.
  - split_and!; [reflexivity..|discriminate].
Defined.
End witnesses.
