(* ===== verification/Http.v ===== *)
(** * Requests, answers and the access control of the API

    What the routes of [apps/api] share: the answer of a handler, how an error
    that leaves a handler is answered ([error-middleware.ts]), the service
    token that guards the routes ([auth-middleware.ts]), and the readers of a
    header, a path parameter, a query parameter and a body, which
    [learning-proposals.ts], [experiments.ts] and [control-plane.ts] each
    declare.  [Number(text)] is modelled exactly: a decimal is rounded once,
    to the nearest binary64 number. *)

From S2P Require Import Prelude Numbers JsRuntime Json Zod Outbox.

(** [c.json(body, status)] *)
Record Response := mkResponse { rsp_status : Z; rsp_body : jobject }.

(** [c.json({ error }, status)] *)
Definition refusal (status : Z) (error : string) : Response := mkResponse status [("error", JStr error)].

(** [date.toISOString()], and [date?.toISOString() ?? null] *)
Definition json_date (at_ : Z) : json := JStr (toISOString at_).
Definition json_date_or_null (at_ : option Z) : json := jstr_or_null (toISOString <$> at_).

(** ** [Number(text)] *)

(** The value of digits in a radix; [None] when there are none, or when a
    character is not a digit. *)
Definition digit_value (c : Ascii.ascii) : Z :=
  let n := Z.of_nat (Ascii.nat_of_ascii (to_lower c)) in
  if (48 <=? n) && (n <=? 57) then n - 48
  else if (97 <=? n) && (n <=? 122) then n - 87 else 36.

Fixpoint digits_value (radix acc : Z) (l : list Ascii.ascii) : option Z :=
  match l with
  | [] => Some acc
  | c :: l' =>
      if digit_value c <? radix then digits_value radix (acc * radix + digit_value c) l' else None
  end.

Definition radix_number (radix : Z) (l : list Ascii.ascii) : num :=
  match l with
  | [] => S754_nan
  | _ => match digits_value radix 0 l with Some z => num_of_Z z | None => S754_nan end
  end.

(** [±m * 10^e], correctly rounded: both operands of the division are exact. *)
Definition decimal_number (neg : bool) (m e : Z) : num :=
  match m with
  | Z0 => S754_zero neg
  | _ =>
      if 0 <=? e
      then binary_normalize 53 1024 ((if neg then -1 else 1) * (m * 10 ^ e)) 0 neg
      else num_div (S754_finite neg (Z.to_pos m) 0) (S754_finite false (Z.to_pos (10 ^ (- e))) 0)
  end.


(** [+], [-] or nothing *)
Definition read_sign (l : list Ascii.ascii) : bool * list Ascii.ascii :=
  match l with
  | c :: l' => if char_is 43 c then (false, l') else if char_is 45 c then (true, l') else (false, l)
  | [] => (false, l)
  end.

(** [e] or [E] and an integer, up to the end *)
Definition read_exponent (l : list Ascii.ascii) : option Z :=
  match l with
  | [] => Some 0
  | c :: l' =>
      if char_is 101 (to_lower c) then
        let '(neg, ds) := read_sign l' in
        match ds with
        | [] => None
        | _ => e ← digits_value 10 0 ds; Some (if neg then - e else e)
        end
      else None
  end.

(** A decimal literal: digits, a fraction, an exponent. *)
Definition decimal_literal (neg : bool) (l : list Ascii.ascii) : num :=
  let '(ip, l1) := span_digits l in
  let '(fp, l2) :=
    match l1 with
    | c :: l' => if char_is 46 c then span_digits l' else ([], l1)
    | [] => ([], l1)
    end in
  match ip ++ fp, digits_value 10 0 (ip ++ fp), read_exponent l2 with
  | _ :: _, Some m, Some e => decimal_number neg m (e - Z.of_nat (length fp))
  | _, _, _ => S754_nan
  end.

Definition number_of_text (text : string) : num :=
  match String.list_ascii_of_string (trim text) with
  | [] => num_zero
  | (z :: c :: l') as l =>
      let radix :=
        if negb (char_is 48 z) then None
        else if char_is 120 (to_lower c) then Some 16
        else if char_is 111 (to_lower c) then Some 8
        else if char_is 98 (to_lower c) then Some 2 else None in
      match radix with
      | Some r => radix_number r l'
      | None =>
          let '(neg, digits) := read_sign l in
          if String.eqb (String.string_of_list_ascii digits) "Infinity" then S754_infinity neg
          else decimal_literal neg digits
      end
  | l => decimal_literal false l
  end.

Example number_exact : number_of_text " 1.00000000000000000001" = num_one.
Proof. reflexivity. Qed.
Example number_tenth : number_of_text "0.1" = num_lit 1 10 /\ number_of_text "1e-1" = num_lit 1 10.
Proof. split; reflexivity. Qed.
Example number_forms : (num_to_Z ∘ number_of_text) <$> [""; "0x1F"; "+5."; "1e2"; ".5e1"] =
  [Some 0; Some 31; Some 5; Some 100; Some 5].
Proof. reflexivity. Qed.
Example number_nan : number_of_text <$> ["12px"; "-0x1"; "."; "1e"; "--1"] = repeat S754_nan 5.
Proof. reflexivity. Qed.

(** ** Errors and the service token *)

(** What zod reports about a value it refuses, for [error.issues] and for
    [error.flatten().fieldErrors]: texts of the library's own. *)
Class ZodReport := { zod_issues : json; zod_field_errors : json -> json }.

(** [mapErrorToResponse]; the details of the [HttpError]s of the program are
    [undefined], which JSON drops. *)
Definition mapErrorToResponse `{ZodReport} (error : js_error) : Response :=
  match error with
  | ZodError => mkResponse 400 [("error", JStr "Request validation failed"); ("details", zod_issues)]
  | HttpError status message => refusal status message
  | _ => refusal 500 "Internal server error"
  end.

(** [Buffer.from(text)]: the UTF-8 bytes of code units below 256 *)
Definition utf8_bytes (n : Z) : list Z :=
  if n <? 128 then [n] else [192 + n / 64; 128 + n mod 64].
Fixpoint utf8 (s : string) : list Z :=
  match s with
  | EmptyString => []
  | String c s' => utf8_bytes (Z.of_nat (Ascii.nat_of_ascii c)) ++ utf8 s'
  end.

Definition safeCompare (a b : string) : bool :=
  let bufA := utf8 a in
  let bufB := utf8 b in
  if negb (length bufA =? length bufB)%nat then false else bool_decide (bufA = bufB).

Definition bearer : string := "Bearer ".

Section middleware.
Context {S : Type}.
Implicit Types (next : M S Response).

(** [createApiTokenMiddleware] *)
Definition requireToken (serviceToken authorization : option string) next : M S Response :=
  if negb (truthy serviceToken) then next
  else
    match authorization with
    | Some auth =>
        if String.prefix bearer auth then
          let provided := String.substring (String.length bearer) (String.length auth) auth in
          if negb (safeCompare provided (serviceToken ?: "")) then mret (refusal 401 "Invalid token")
          else next
        else mret (refusal 401 "Authorization required")
    | None => mret (refusal 401 "Authorization required")
    end.

(** [app.onError((error, c) => mapErrorToResponse(error, c))] *)
Definition answered `{ZodReport} next : M S Response :=
  outcome ← catching next;
  mret (match outcome with Ok response => response | Err error => mapErrorToResponse error end).

(** A guarded route of the application. *)
Definition guarded_route `{ZodReport} (serviceToken authorization : option string) next : M S Response :=
  answered (requireToken serviceToken authorization next).
End middleware.

(** ** Reading a request *)

(** [X-Tenant-Id], the session's only source of the tenant *)
Definition requireTenantId `{Zod} (header : option string) : string + Response :=
  match header with
  | Some (String _ _ as value) =>
      match tenantIdSchema value with
      | Ok tenantId => inl tenantId
      | Err _ => inr (refusal 400 "X-Tenant-Id must be a valid UUID")
      end
  | _ => inr (refusal 400 "X-Tenant-Id header is required")
  end.

(** The [:id] of the path, a UUID *)
Definition requireResourceId `{Zod} (what param : string) : string + Response :=
  match uuid param with
  | Ok id => inl id
  | Err _ => inr (refusal 400 (what +:+ " id must be a valid UUID"))
  end.

(** [!value] *)
Definition falsy (v : json) : bool :=
  match v with
  | JNull | JBool false => true
  | JStr s => String.eqb s ""
  | JNum n => is_nan n || match n with S754_zero _ => true | _ => false end
  | _ => false
  end.

(** [c.req.json()] yields the body or throws on what is not JSON. *)
Definition parseJsonBody `{ZodReport} {A} (body : result json) (schema : json -> result A) : A + Response :=
  match body with
  | Err _ => inr (refusal 400 "Request body must be valid JSON")
  | Ok raw =>
      match schema raw with
      | Ok data => inl data
      | Err _ => inr (mkResponse 400 [("error", JStr "Request validation failed");
          ("details", zod_field_errors raw)])
      end
  end.

(** [z.coerce.number().int().min(1).max(max).default(dflt)] of a query parameter *)
Definition queryLimitSchema (dflt max : Z) (query : option string) : result Z :=
  match query with
  | None => mret dflt
  | Some text =>
      match num_to_Z (number_of_text text) with
      | Some n => int_in 1 max n
      | None => Err ZodError
      end
  end.

(** [z.object(shape).strict()]: no property outside the shape *)
Definition strict_object (keys : list string) (raw : json) : result jobject :=
  match raw with
  | JObj fs => if forallb (fun kv => bool_decide (kv.1 ∈ keys)) fs then mret fs else Err ZodError
  | _ => Err ZodError
  end.

(** [if ("response" in part) return part.response;] *)
Definition or_respond {S A} (part : A + Response) (k : A -> M S Response) : M S Response :=
  match part with inl a => k a | inr response => mret response end.

Notation "x ←? p ; k" := (or_respond p (fun x => k))
  (at level 20, p at level 100, k at level 200, only parsing) : js_scope.

(** ** Lemmas *)

Lemma utf8_bytes_inj n m a b : 0 <= n -> 0 <= m -> utf8_bytes n ++ a = utf8_bytes m ++ b -> n = m /\ a = b.
Proof.
  intros Hn Hm. unfold utf8_bytes. pose proof (Z.div_pos n 64). pose proof (Z.div_pos m 64).
  destruct (Z.ltb_spec n 128), (Z.ltb_spec m 128); cbn [app]; intros E.
  - by injection E.
  - injection E as E1. lia.
  - injection E as E1. lia.
  - injection E as E1 E2 ->. split; [|done]. rewrite (Z.div_mod n 64), (Z.div_mod m 64) by done. lia.
Qed.

Lemma utf8_bytes_nonempty n : utf8_bytes n ≠ [].
Proof. unfold utf8_bytes. by case_match. Qed.

Lemma utf8_inj a b : utf8 a = utf8 b -> a = b.
Proof.
  revert b. induction a as [|c a IH]; intros [|d b]; cbn [utf8]; intros H; [done| | |].
  { symmetry in H. apply app_eq_nil in H as [H _]. by apply utf8_bytes_nonempty in H. }
  { apply app_eq_nil in H as [H _]. by apply utf8_bytes_nonempty in H. }
  apply utf8_bytes_inj in H as [E Ht]; [|lia..]. f_equal; [|by apply IH].
  rewrite <- (Ascii.ascii_nat_embedding c), <- (Ascii.ascii_nat_embedding d). f_equal. lia.
Qed.

(** The constant-time comparison decides equality. *)
Lemma safeCompare_spec a b : safeCompare a b = String.eqb a b.
Proof.
  unfold safeCompare. destruct (String.eqb_spec a b) as [->|Hne].
  - by rewrite Nat.eqb_refl, bool_decide_true.
  - case_match; [done|]. apply bool_decide_eq_false. intros Hb. by apply utf8_inj in Hb.
Qed.

Lemma prefix_substring p s : String.prefix p s = true ->
  s = p +:+ String.substring (String.length p) (String.length s) s.
Proof.
  assert (forall t n, (String.length t <= n)%nat -> String.substring 0 n t = t) as Hall.
  { induction t as [|c t IH]; intros [|n] Hn; simpl in *; try done; [lia|]. f_equal. apply IH. lia. }
  assert (forall q t n, String.prefix q t = true -> (String.length t <= n)%nat ->
    t = q +:+ String.substring (String.length q) n t) as H.
  { induction q as [|c q IH]; intros t n Hp Hn; [simpl; by rewrite Hall|].
    destruct t as [|d t]; [discriminate Hp|]. simpl in *.
    destruct (Ascii.ascii_dec c d) as [->|]; [|done].
    change (String d q +:+ ?r) with (String d (q +:+ r)). f_equal. apply IH; [done|lia]. }
  intros Hp. by apply H.
Qed.

Section lemmas.
Context `{ZodReport} {S : Type}.
Implicit Types (next : M S Response) (s : S).

(** No token is configured, or the request carries it. *)
Definition authorized (token auth : option string) : Prop :=
  truthy token = false \/ exists t, token = Some t /\ auth = Some (bearer +:+ t).

(** The token middleware passes on exactly the authorized requests. *)
Lemma requireToken_cases token auth next s :
  (requireToken token auth next s = next s /\ authorized token auth) \/
  (truthy token = true /\ auth ≠ Some (bearer +:+ (token ?: "")) /\
    exists error, requireToken token auth next s = (Ok (refusal 401 error), s)).
Proof.
  unfold requireToken. destruct (truthy token) eqn:Ht; cbn [negb]; [|left; split; [done|by left]].
  destruct token as [t|]; [|done]. change (Some t ?: "") with t.
  destruct auth as [a|]; [|right; split_and!; [done|done|by eexists]].
  destruct (String.prefix bearer a) eqn:Hp.
  - rewrite safeCompare_spec. apply prefix_substring in Hp. revert Hp.
    generalize (String.substring (String.length bearer) (String.length a) a). intros p ->.
    destruct (String.eqb_spec p t) as [->|Hne]; simpl; [left; split; [done|right; by exists t]|].
    right. split_and!; [done| |by eexists]. intros [= E]. by apply Hne, (inj (String.append bearer)).
  - right. split_and!; [done| |by eexists]. intros [= ->]. by destruct t.
Qed.

Lemma answered_state_eq next s : (answered next s).2 = (next s).2.
Proof. unfold answered, catching. msimpl. by destruct (next s). Qed.

(** An answer is the handler's, or an error's. *)
Lemma answered_ok next s resp s' : answered next s = (Ok resp, s') ->
  next s = (Ok resp, s') \/ exists e, next s = (Err e, s') /\ resp = mapErrorToResponse e.
Proof.
  unfold answered, catching. msimpl. destruct (next s) as [[r|e] s1]; intros [= <- <-]; eauto.
Qed.

Lemma answered_never_throws next s : exists resp, (answered next s).1 = Ok resp.
Proof. unfold answered, catching. msimpl. destruct (next s) as [[r|e] s1]; simpl; eauto. Qed.

(** *** Answers that tell of success

    An error is answered with at most two properties, so an answer that
    carries any other comes from the end of a handler. *)

Definition error_body (resp : Response) : Prop := (rsp_body resp).*1 ⊆ ["error"; "details"].
Definition carries (key : string) (resp : Response) : Prop :=
  key ∉ ["error"; "details"] /\ is_Some (mapGet key (rsp_body resp)).

Lemma carries_not_error key resp : carries key resp -> ~ error_body resp.
Proof.
  intros [Hk [v Hv]] He. apply Hk, He. destruct (decide (key ∈ (rsp_body resp).*1)) as [|Hn]; [done|].
  apply mapGet_None in Hn. congruence.
Qed.

Lemma refusal_error status error : error_body (refusal status error).
Proof. unfold error_body. set_solver. Qed.
Lemma mapped_error e : error_body (mapErrorToResponse e).
Proof. destruct e; unfold error_body; set_solver. Qed.

(** A reader that refuses does so with an error. *)
Class Refuses {A} (part : A + Response) := refuses r : part = inr r -> error_body r.

Lemma or_respond_carries {A} (part : A + Response) `{!Refuses part} (k : A -> M S Response) key s resp s' :
  carries key resp -> or_respond part k s = (Ok resp, s') ->
  exists a, part = inl a /\ k a s = (Ok resp, s').
Proof.
  intros Hc. destruct part as [a|r]; simpl; [eauto|]. intros [= -> ->].
  by destruct (carries_not_error _ _ Hc (refuses _ eq_refl)).
Qed.

Lemma guarded_carries token auth next key s resp s' : carries key resp ->
  guarded_route token auth next s = (Ok resp, s') -> authorized token auth /\ next s = (Ok resp, s').
Proof.
  intros Hc [Hr|(e & _ & ->)]%answered_ok; [|by destruct (carries_not_error _ _ Hc (mapped_error e))].
  destruct (requireToken_cases token auth next s) as [[Heq Ha]|(_ & _ & error & Heq)]; rewrite Heq in Hr.
  - done.
  - injection Hr as <- <-. by destruct (carries_not_error _ _ Hc (refusal_error 401 error)).
Qed.

(** What a guarded route answers and does when the token is right. *)
Lemma guarded_ok token auth next s resp s' : authorized token auth ->
  next s = (Ok resp, s') -> guarded_route token auth next s = (Ok resp, s').
Proof.
  intros Ha Hn. unfold guarded_route, answered, catching. msimpl.
  destruct (requireToken_cases token auth next s) as [[-> _]|(Ht & Hne & _)]; [by rewrite Hn|].
  destruct Ha as [Ha|(t & -> & ->)]; [congruence|done].
Qed.

Lemma guarded_err token auth next s e s' : authorized token auth ->
  next s = (Err e, s') -> guarded_route token auth next s = (Ok (mapErrorToResponse e), s').
Proof.
  intros Ha Hn. unfold guarded_route, answered, catching. msimpl.
  destruct (requireToken_cases token auth next s) as [[-> _]|(Ht & Hne & _)]; [by rewrite Hn|].
  destruct Ha as [Ha|(t & -> & ->)]; [congruence|done].
Qed.

(** A guarded route changes what its handler changes, if that. *)
Lemma guarded_state token auth next s :
  (guarded_route token auth next s).2 = s \/ (guarded_route token auth next s).2 = (next s).2.
Proof.
  unfold guarded_route. rewrite answered_state_eq.
  destruct (requireToken_cases token auth next s) as [[-> _]|(_ & _ & error & ->)]; auto.
Qed.

(** Two handlers with the same answers have the same guarded answers. *)
Lemma guarded_answer token auth next s s' : (next s).1 = (next s').1 ->
  (guarded_route token auth next s).1 = (guarded_route token auth next s').1.
Proof.
  intros Hn. unfold guarded_route, answered, catching, requireToken. msimpl.
  destruct (negb (truthy token)); [|destruct auth as [a|]; [|done];
    destruct (String.prefix bearer a); [|done]; destruct (negb (safeCompare _ _)); [done|]];
    revert Hn; destruct (next s) as [[?|?] ?], (next s') as [[?|?] ?]; simpl; congruence.
Qed.
End lemmas.

#[export] Instance requireTenantId_refuses `{Zod} h : Refuses (requireTenantId h).
Proof. intros r. unfold requireTenantId. repeat case_match; intros [= <-]; apply refusal_error. Qed.
#[export] Instance requireResourceId_refuses `{Zod} what p : Refuses (requireResourceId what p).
Proof. intros r. unfold requireResourceId. repeat case_match; intros [= <-]; apply refusal_error. Qed.
#[export] Instance parseJsonBody_refuses `{ZodReport} {A} body (schema : json -> result A) :
  Refuses (parseJsonBody body schema).
Proof.
  intros r. unfold parseJsonBody. repeat case_match; intros [= <-]; [|apply refusal_error].
  unfold error_body. set_solver.
Qed.

Section reading_lemmas.
Context `{Z : Zod} {ZL : ZodLaws Z}.

Lemma parseJsonBody_inl `{ZodReport} {A} body (schema : json -> result A) data :
  parseJsonBody body schema = inl data -> exists raw, body = Ok raw /\ schema raw = Ok data.
Proof. unfold parseJsonBody. repeat case_match; intros [= <-]. eauto. Qed.

Lemma requireTenantId_inl h tn : requireTenantId h = inl tn -> h = Some tn /\ zod_uuid tn = true.
Proof.
  unfold requireTenantId. destruct h as [[|c h]|]; try done.
  destruct (tenantIdSchema _) as [t|] eqn:Ht; [|done]. intros [= <-].
  by apply tenantIdSchema_ok in Ht as [? ->].
Qed.

Lemma requireTenantId_uuid tn : zod_uuid tn = true -> requireTenantId (Some tn) = inl tn.
Proof.
  intros Hz. unfold requireTenantId. destruct tn as [|c tn2] eqn:Et.
  - apply zod_uuid_length in Hz. done.
  - by rewrite (proj2 (tenantIdSchema_ok _ _) (conj Hz eq_refl)).
Qed.

Lemma requireResourceId_inl what p id : requireResourceId what p = inl id -> id = p /\ zod_uuid p = true.
Proof.
  unfold requireResourceId. destruct (uuid p) as [t|] eqn:Ht; [|done]. intros [= <-].
  by apply uuid_ok in Ht as [? ->].
Qed.
End reading_lemmas.

(** ** What a program may throw *)

(** Every error of a parse, and of a program in any state, satisfies [P]. *)
Class Fails (P : js_error -> Prop) {A} (r : result A) := fails e : r = Err e -> P e.
Class Raises (P : js_error -> Prop) {S A} (m : M S A) := raises s e s' : m s = (Err e, s') -> P e.

Section raises.
Context (P : js_error -> Prop) {S : Type}.

#[export] Instance fails_ret {A} (a : A) : Fails P (mret a).
Proof. by intros e. Qed.
#[export] Instance fails_bind {A B} (r : result A) (k : A -> result B) :
  Fails P r -> (forall a, Fails P (k a)) -> Fails P (a ← r; k a).
Proof. intros Hr Hk e. unfold mbind, result_bind. destruct r as [a|x]; [apply Hk|]. intros [= <-]. by apply Hr. Qed.

#[export] Instance raises_ret {A} (a : A) : Raises P (mret a : M S A).
Proof. by intros s e s'. Qed.
#[export] Instance raises_bind {A B} (m : M S A) (k : A -> M S B) :
  Raises P m -> (forall a, Raises P (k a)) -> Raises P (a ← m; k a).
Proof.
  intros Hm Hk s e s'. unfold mbind, M_bind. destruct (m s) as [[a|x] s1] eqn:E; [apply Hk|].
  intros [= <- _]. by eapply Hm.
Qed.
#[export] Instance raises_lift {A} (r : result A) : Fails P r -> Raises P (lift r : M S A).
Proof. intros Hr s e s' [= -> _]. by apply Hr. Qed.
#[export] Instance raises_gets {A} (f : S -> A) : Raises P (gets f).
Proof. by intros s e s'. Qed.
#[export] Instance raises_modify (f : S -> S) : Raises P (modify f).
Proof. by intros s e s'. Qed.
#[export] Instance raises_await (f : S -> S) : Raises P (await f).
Proof. by intros s e s'. Qed.
Lemma raises_throw {A} x : P x -> Raises P (throw x : M S A).
Proof. by intros Hx s e s' [= <- _]. Qed.
End raises.

(** Parsers of the schemas throw zod errors. *)
Abbreviation zod_only := (fun e => e = ZodError).
#[export] Instance refine_zod_only {A} (p : A -> bool) a : Fails zod_only (refine p a).
Proof. intros e. apply refine_err. Qed.
#[export] Instance optional_zod_only {A} (p : A -> result A) o :
  (forall a, Fails zod_only (p a)) -> Fails zod_only (zod_optional p o).
Proof. intros Hp. unfold zod_optional. destruct o; apply _. Qed.
#[export] Instance nonEmptyText_zod_only s : Fails zod_only (nonEmptyText s).
Proof. apply refine_zod_only. Qed.

Lemma fails_weaken (P Q : js_error -> Prop) {A} (r : result A) :
  (forall e, P e -> Q e) -> Fails P r -> Fails Q r.
Proof. intros H Hr e He. by apply H, Hr. Qed.

(** Follow a program to its throws. *)
Ltac solve_raises :=
  repeat match goal with
  | |- Raises _ (throw _) => apply raises_throw
  | |- Raises _ (lift _) => apply raises_lift
  | |- Raises _ (mbind _ _) => apply raises_bind; [|intros ?]
  | |- Raises _ (match ?x with _ => _ end) => destruct x
  | |- Raises _ (let '_ := ?x in _) => destruct x
  | |- Raises _ _ => apply _
  | |- Fails _ _ => apply _
  end.
