(* ===== verification/Subjects.v ===== *)
(** * Tenant-scoped subjects

    [packages/db/src/tenant-context.ts] builds the subject an event is
    published under; the consumers read the tenant back from it
    ([tenantIdFromTenantScopedSubject] of
    [apps/worker-workflow-callback/src/tenant-provisioning-request.ts] and the
    same function of the learning worker). *)

From S2P Require Import Prelude Numbers JsRuntime Zod Sql Outbox.

Definition starts_with_dot (s : string) : bool :=
  match s with String c _ => Ascii.eqb c dot | EmptyString => false end.
Fixpoint ends_with_dot (s : string) : bool :=
  match s with
  | EmptyString => false
  | String c EmptyString => Ascii.eqb c dot
  | String _ s' => ends_with_dot s'
  end.

Definition tenantScopedSubject `{Zod} (tenantId subject : string) : result string :=
  parsedTenantId ← tenantIdSchema tenantId;
  if String.eqb subject "" || starts_with_dot subject || ends_with_dot subject
  then Err (JsError "Subject must be a non-empty dot-delimited suffix.")
  else mret ("t." +:+ parsedTenantId +:+ "." +:+ subject).

(** [subject.split(".")] *)
Fixpoint split_dots (s : string) : list string :=
  match s with
  | EmptyString => [""]
  | String c s' =>
      match split_dots s' with
      | part :: rest => if Ascii.eqb c dot then "" :: part :: rest else String c part :: rest
      | [] => []
      end
  end.

Definition tenantIdFromTenantScopedSubject `{Zod} (subject : string) : result string :=
  let parts := split_dots subject in
  if negb (bool_decide (parts !! 0%nat = Some "t")) || negb (truthy (parts !! 1%nat))
  then Err (JsError ("Invalid tenant-scoped workflow subject: " +:+ subject))
  else tenantIdSchema (parts !! 1%nat ?: "").

(** ** Lemmas *)

Lemma ends_with_dot_last s :
  ends_with_dot s = match last (String.list_ascii_of_string s) with Some c => Ascii.eqb c dot | None => false end.
Proof. induction s as [|c [|d s] IH]; simpl; done. Qed.

(** A stored event type is a suffix NATS accepts. *)
Lemma event_type_subject s : event_type_ok s = true ->
  s ≠ "" /\ starts_with_dot s = false /\ ends_with_dot s = false.
Proof.
  unfold event_type_ok. destruct (span_digits _) as [ds rest] eqn:E. apply span_digits_app in E as [El Hd].
  destruct ds as [|d ds], rest as [|v [|dt body]]; try done.
  intros [_ Hb]%andb_true_iff. apply (f_equal (@rev _)) in El. rewrite rev_involutive in El.
  rewrite ends_with_dot_last, El. rewrite !rev_app_distr in El |- *. simpl in El |- *.
  destruct (rev body) as [|c mid] eqn:Eb; [done|]. destruct mid as [|c' mid]; [done|].
  apply andb_true_iff in Hb as [Hc _]. simpl in El.
  assert (s ≠ "" /\ starts_with_dot s = false) as [Hs1 Hs2].
  { destruct s as [|a s]; [done|]. split; [done|]. simpl in El |- *. injection El as -> _.
    apply not_true_iff_false. intros ->%Ascii.eqb_eq. done. }
  split_and!; [done|done|]. rewrite <- !(assoc_L (++)).
  replace (last _) with (Some d).
  - simpl in Hd. apply andb_true_iff in Hd as [Hd _]. apply not_true_iff_false.
    intros ->%Ascii.eqb_eq. done.
  - symmetry. rewrite !(assoc_L (++)). apply last_snoc.
Qed.

Lemma split_dots_cons s : exists part rest, split_dots s = part :: rest.
Proof.
  induction s as [|c s (part & rest & IH)]; simpl; [eauto|]. rewrite IH. destruct (Ascii.eqb c dot); eauto.
Qed.

(** A part without a dot is read back whole. *)
Lemma split_dots_part a s : dot ∉ String.list_ascii_of_string a ->
  split_dots (a +:+ String dot s) = a :: split_dots s.
Proof.
  intros Ha. destruct (split_dots_cons s) as (part & rest & Es).
  induction a as [|c a IH]; simpl in *; [by rewrite Es|].
  apply not_elem_of_cons in Ha as [Hc Ha]. rewrite (IH Ha).
  rewrite (proj2 (Ascii.eqb_neq c dot)) by congruence. done.
Qed.

Section lemmas.
Context `{Z : Zod} {ZL : ZodLaws Z}.

Lemma subject_tenant tn s : zod_uuid tn = true ->
  tenantIdFromTenantScopedSubject ("t." +:+ tn +:+ "." +:+ s) = Ok tn.
Proof.
  intros Ht. unfold tenantIdFromTenantScopedSubject.
  change ("t." +:+ tn +:+ "." +:+ s) with ("t" +:+ String dot (tn +:+ String dot s)).
  rewrite split_dots_part by (by apply (bool_decide_unpack _)).
  rewrite split_dots_part by (by apply zod_uuid_no_dot).
  destruct tn as [|c tn]; [by apply uuid_nonempty in Ht|]. by apply tenantIdSchema_ok.
Qed.

(** The tenant of a subject is the tenant it was built for: whatever
    event type follows, the consumers read back the id the publisher wrote. *)
Theorem subject_round_trip tn s subject : tenantScopedSubject tn s = Ok subject ->
  tenantIdFromTenantScopedSubject subject = Ok tn.
Proof.
  unfold tenantScopedSubject, mbind, result_bind. destruct (tenantIdSchema tn) as [t|] eqn:Et; [|done].
  apply tenantIdSchema_ok in Et as [Ht ->]. destruct (_ || _); [done|]. intros [= <-].
  by apply subject_tenant.
Qed.
End lemmas.

(** ** Witnesses *)

Section witnesses.
Import ZodExample.

Lemma subject_round_trip_witness :
  tenantIdFromTenantScopedSubject ("t." +:+ tenant +:+ ".signal.routed.v1") = Ok tenant.
Proof. apply (subject_round_trip tenant "signal.routed.v1"). vm_compute. reflexivity. Defined.
End witnesses.
