(* ===== verification/ControlPlane.v ===== *)
(** * What the control-plane repositories share

    The list limit of [packages/db/src/adaptive-control-plane-repository.ts],
    the two-map layout its in-memory repositories use (records by id, ids by
    an idempotency key) with its invariant, and updates that keep both. *)

From S2P Require Import Prelude Numbers JsRuntime Zod Sql.

Definition DEFAULT_LIMIT : Z := 50.
Definition MAX_LIMIT : Z := 250.
Definition limitSchema : Z -> result Z := refine (fun n => (0 <? n) && (n <=? MAX_LIMIT)).
Definition normalizeLimit (limit : option Z) : result Z := limitSchema (limit ?: DEFAULT_LIMIT).

Lemma normalizeLimit_ok l n : normalizeLimit l = Ok n -> 0 < n <= 250.
Proof. unfold normalizeLimit, limitSchema. intros [H ->]%refine_ok. unfold MAX_LIMIT in *. b2p. lia. Qed.

(** [String.prototype.toUpperCase] on code units below 256: the sharp s
    doubles; the two letters whose capitals lie above 255 are left alone. *)
Definition upper_char (c : Ascii.ascii) : list Ascii.ascii :=
  let n := Ascii.nat_of_ascii c in
  if ((97 <=? n) && (n <=? 122) || (224 <=? n) && (n <=? 254) && negb (n =? 247))%nat
  then [Ascii.ascii_of_nat (n - 32)]
  else if (n =? 223)%nat then [Ascii.ascii_of_nat 83; Ascii.ascii_of_nat 83]
  else [c].
Definition toUpperCase (s : string) : string :=
  String.string_of_list_ascii (concat (upper_char <$> String.list_ascii_of_string s)).

(** [z.string().trim().length(3).transform((value) => value.toUpperCase())] *)
Definition isoCurrencySchema (s : string) : result string :=
  s' ← bounded_text 3 3 (trim s); mret (toUpperCase s').

(** ** Records by id, ids by key *)

Section index.
Context {V : Type}.
Implicit Types (byId : jsmap V) (ids : jsmap string).

(** [const id = ids.get(key); if (id) { const v = byId.get(id); if (v) ... }] *)
Definition indexed byId ids (key : string) : option V :=
  let existingId := mapGet key ids in
  if truthy existingId then mapGet (existingId ?: "") byId else None.

Context (idf kf : V -> string).

Record index_inv byId ids : Prop := {
  ix_keyed : keyed idf byId;
  ix_records id v : mapGet id byId = Some v -> id ≠ "" /\ mapGet (kf v) ids = Some id;
  ix_ids k id : mapGet k ids = Some id -> exists v, mapGet id byId = Some v /\ kf v = k;
}.

Lemma index_inv_nil : index_inv [] [].
Proof. split; [apply keyed_nil|done|done]. Qed.

(** Under the invariant the lookup by key finds the record with that key. *)
Lemma indexed_some byId ids k v : index_inv byId ids ->
  indexed byId ids k = Some v <-> mapGet (idf v) byId = Some v /\ kf v = k.
Proof.
  intros Hi. unfold indexed. split.
  - destruct (mapGet k ids) as [id|] eqn:Hk; [|done].
    destruct (ix_ids _ _ Hi _ _ Hk) as (w & Hw & <-).
    destruct (ix_records _ _ Hi _ _ Hw) as [Hne _]. rewrite truthy_some.
    rewrite (proj2 (String.eqb_neq id "")) by done. simpl. rewrite Hw. intros [= ->].
    by rewrite (proj2 (ix_keyed _ _ Hi) _ _ Hw).
  - intros [Hv <-]. destruct (ix_records _ _ Hi _ _ Hv) as [Hne ->]. rewrite truthy_some.
    by rewrite (proj2 (String.eqb_neq _ "")).
Qed.

Lemma indexed_none byId ids k : index_inv byId ids ->
  indexed byId ids k = None -> mapGet k ids = None.
Proof.
  intros Hi Hn. destruct (mapGet k ids) as [id|] eqn:Hk; [|done]. exfalso.
  destruct (ix_ids _ _ Hi _ _ Hk) as (v & Hv & Hkv).
  assert (indexed byId ids k = Some v) as Hs; [|congruence].
  apply indexed_some; [done|]. by rewrite (proj2 (ix_keyed _ _ Hi) _ _ Hv).
Qed.

(** Inserting a record under a fresh id and a fresh key. *)
Lemma index_insert byId ids v : index_inv byId ids ->
  idf v ≠ "" -> mapGet (idf v) byId = None -> mapGet (kf v) ids = None ->
  index_inv (mapSet (idf v) v byId) (mapSet (kf v) (idf v) ids).
Proof.
  intros Hi Hne Hid Hk. split.
  - by apply keyed_set, Hi.
  - intros id w. rewrite mapGet_set. case_bool_decide as E.
    + intros [= <-]. rewrite mapGet_set_eq, <- E. done.
    + intros Hw. destruct (ix_records _ _ Hi _ _ Hw) as [? Hx]. split; [done|].
      rewrite mapGet_set_ne; [done|congruence].
  - intros k id. rewrite mapGet_set. case_bool_decide as E.
    + intros [= <-]. exists v. by rewrite mapGet_set_eq.
    + intros Hx. destruct (ix_ids _ _ Hi _ _ Hx) as (w & Hw & Hkw). exists w.
      rewrite mapGet_set_ne; [done|congruence].
Qed.

(** Replacing a record by one with the same id and key. *)
Lemma index_update byId ids id v v' : index_inv byId ids ->
  mapGet id byId = Some v -> idf v' = idf v -> kf v' = kf v ->
  index_inv (mapSet id v' byId) ids.
Proof.
  intros Hi Hv He Hk. split.
  - eapply keyed_update; [apply Hi|done|done].
  - intros id' w. rewrite mapGet_set. case_bool_decide as E; [|apply Hi].
    intros [= <-]. subst id'. rewrite Hk. by apply Hi.
  - intros k id' Hx. destruct (ix_ids _ _ Hi _ _ Hx) as (w & Hw & Hkw).
    rewrite mapGet_set. case_bool_decide as E; [|eauto]. subst id'. exists v'.
    split; [done|]. congruence.
Qed.

(** A lookup by key is unchanged by an insertion elsewhere. *)
Lemma indexed_insert_same byId ids v : index_inv byId ids ->
  idf v ≠ "" -> mapGet (idf v) byId = None -> mapGet (kf v) ids = None ->
  indexed (mapSet (idf v) v byId) (mapSet (kf v) (idf v) ids) (kf v) = Some v.
Proof.
  intros Hi Hne Hid Hk. apply indexed_some; [by apply index_insert|].
  by rewrite mapGet_set_eq.
Qed.

(** [INSERT ... ON CONFLICT DO NOTHING] on the key, followed by a selection by
    key when nothing was inserted, against the lookup by key. *)
Lemma index_conflict `{E : SqlEngine, !SqlLaws E} byId ids (t : table V) new (same : V -> V -> bool)
    (wk : V -> bool) : index_inv byId ids -> table_rel byId t ->
  (forall v, v ∈ mapValues byId -> same new v = bool_decide (kf v = kf new)) ->
  (forall v, v ∈ mapValues byId -> wk v = bool_decide (kf v = kf new)) ->
  match indexed byId ids (kf new) with
  | Some v => insert same new t = ([], t) /\ select wk t = [v] /\ v ∈ mapValues byId
  | None => mapGet (kf new) ids = None /\ (mapGet (idf new) byId = None ->
      (insert same new t).1 = [new] /\
      table_rel (mapSet (idf new) new byId) (insert same new t).2)
  end.
Proof.
  intros Hi Ht Hsame Hwk. destruct (indexed byId ids (kf new)) as [r|] eqn:Hix.
  - apply indexed_some in Hix as [Hr Hk]; [|done].
    assert (r ∈ mapValues byId) as Hin by (by apply (keyed_values idf); [apply Hi|]).
    split_and!; [|pose proof (select_rows wk t) as Hsel|done].
    + apply insert_conflict. rewrite (existsb_perm _ _ _ Ht). apply existsb_elem. exists r.
      split; [done|]. rewrite Hsame by done. by apply bool_decide_eq_true.
    + rewrite Ht, (bfilter_ext _ (fun x => bool_decide (idf x = idf r) && true)) in Hsel.
      2: { intros x Hx. rewrite andb_true_r, Hwk, <- Hk by done. apply bool_decide_ext.
           apply (keyed_values idf) in Hx; [|apply Hi]. split; intros He.
           - destruct (ix_records _ _ Hi _ _ Hx) as [_ H1].
             destruct (ix_records _ _ Hi _ _ Hr) as [_ H2]. rewrite He, H2 in H1. congruence.
           - rewrite He, Hr in Hx. by injection Hx as ->. }
      rewrite (bfilter_keyed idf) in Hsel by apply Hi. rewrite Hr in Hsel.
      by apply Permutation_singleton_r in Hsel.
  - apply indexed_none in Hix; [|done]. split; [done|]. intros Hnid.
    apply set_new_rel; [done|done|]. apply not_true_iff_false. rewrite existsb_elem.
    intros (r & Hr & Hk). rewrite Hsame in Hk by done. apply bool_decide_eq_true in Hk.
    apply (keyed_values idf) in Hr; [|apply Hi].
    destruct (ix_records _ _ Hi _ _ Hr) as [_ H1]. congruence.
Qed.
End index.
