(* ===== verification/Signals.v ===== *)
(** * The signal inbox

    [packages/db/src/signal-events-repository.ts]: signals deduplicated by
    (tenant, source, external id), claimed in batches under a lease and marked
    processed.  Module [InMemorySignals] is the in-memory repository, module
    [PostgresSignals] the database one; [signal_call] and the two [exec]
    functions give every method of both. *)

From S2P Require Import Prelude Numbers JsRuntime Domain Zod Sql ControlPlane.

(** ** Records and schemas *)

(** Also the row of [signal_events]. *)
Record SignalEventRecord := mkSignal {
  sg_id : N;
  sg_tenantId : string;
  sg_signalType : SignalType;
  sg_source : string;
  sg_externalId : option string;
  sg_payload : jobject;
  sg_processedAt : option Z;
  sg_leaseOwner : option string;
  sg_leaseExpiresAt : option Z;
  sg_attempts : Z;
  sg_createdAt : Z;
}.

Record IngestSignalParams := mkIngestParams {
  ip_tenantId : string;
  ip_signalType : SignalType;
  ip_source : string;
  ip_externalId : option string;
  ip_payload : jobject;
}.

Record IngestSignalResult := mkIngestResult {
  ir_event : SignalEventRecord;
  ir_isDuplicate : bool;
}.

Record SignalProcessingClaim := mkSignalClaim { sc_owner : string; sc_leaseMs : Z }.

Section schemas.
Context `{Zod}.

Definition signalEventRecordSchema (r : SignalEventRecord) : result SignalEventRecord :=
  tenantId ← uuid (sg_tenantId r);
  source ← min1_text (sg_source r);
  attempts ← nonneg_int (sg_attempts r);
  mret (mkSignal (sg_id r) tenantId (sg_signalType r) source (sg_externalId r) (sg_payload r)
    (sg_processedAt r) (sg_leaseOwner r) (sg_leaseExpiresAt r) attempts (sg_createdAt r)).

Definition signalProcessingClaimSchema (c : SignalProcessingClaim) :
    result SignalProcessingClaim :=
  owner ← bounded_text 1 255 (sc_owner c);
  leaseMs ← int_in 1000 (15 * 60000) (sc_leaseMs c);
  mret (mkSignalClaim owner leaseMs).
End schemas.

(** The record [ingest] stores. *)
Definition new_signal (id : N) (p : IngestSignalParams) (now : Z) : SignalEventRecord :=
  mkSignal id (ip_tenantId p) (ip_signalType p) (ip_source p) (ip_externalId p) (ip_payload p)
    None None None 0 now.

(** [{ ...record, processingLeaseOwner, processingLeaseExpiresAt, processingAttempts }] *)
Definition leased (owner : string) (expiresAt : Z) (r : SignalEventRecord) : SignalEventRecord :=
  mkSignal (sg_id r) (sg_tenantId r) (sg_signalType r) (sg_source r) (sg_externalId r)
    (sg_payload r) (sg_processedAt r) (Some owner) (Some expiresAt) (sg_attempts r + 1)
    (sg_createdAt r).

(** [{ ...r, processedAt: now, processingLeaseOwner: null, processingLeaseExpiresAt: null }] *)
Definition processed (now : Z) (r : SignalEventRecord) : SignalEventRecord :=
  mkSignal (sg_id r) (sg_tenantId r) (sg_signalType r) (sg_source r) (sg_externalId r)
    (sg_payload r) (Some now) None None (sg_attempts r) (sg_createdAt r).

Definition released (r : SignalEventRecord) : SignalEventRecord :=
  mkSignal (sg_id r) (sg_tenantId r) (sg_signalType r) (sg_source r) (sg_externalId r)
    (sg_payload r) (sg_processedAt r) None None (sg_attempts r) (sg_createdAt r).

(** [(a, b) => a.id < b.id ? -1 : a.id > b.id ? 1 : 0] *)
Definition by_id (a b : SignalEventRecord) : bool := (sg_id a <=? sg_id b)%N.

(** ** The in-memory repository *)

Module InMemorySignals.
Record State := mkState {
  records : list SignalEventRecord;
  sequence : N;
  externalIdIndex : list string;
}.
#[export] Instance state_eta : Eta State := fun s =>
  mkState (records s) (sequence s) (externalIdIndex s).
Definition init : State := mkState [] 0 [].

Definition externalKey (tenantId source externalId : string) : string :=
  tenantId +:+ ":" +:+ source +:+ ":" +:+ externalId.

(** The predicate of [records.find] in [ingest]. *)
Definition same_external (p : IngestSignalParams) (r : SignalEventRecord) : bool :=
  bool_decide (sg_tenantId r = ip_tenantId p) && bool_decide (sg_source r = ip_source p) &&
  bool_decide (sg_externalId r = ip_externalId p).

Definition unprocessed (tenantId : string) (signalType : SignalType) (r : SignalEventRecord) : bool :=
  bool_decide (sg_tenantId r = tenantId) && bool_decide (sg_signalType r = signalType) &&
  bool_decide (sg_processedAt r = None).

Definition unleased (now : Z) (r : SignalEventRecord) : bool :=
  match sg_leaseExpiresAt r with None => true | Some t => t <=? now end.

Section ops.
Context `{Zod}.

Definition ingest (env : call_env) (params : IngestSignalParams) : M State IngestSignalResult :=
  lift (tenantIdSchema (ip_tenantId params));;
  existing ← (if truthy (ip_externalId params) then
    let key := externalKey (ip_tenantId params) (ip_source params) (ip_externalId params ?: "") in
    has ← gets (fun s => bool_decide (key ∈ externalIdIndex s));
    found ← gets (fun s => find (same_external params) (records s));
    match (if has : bool then found else None) with
    | Some r => mret (Some r)
    | None => modify (fun s => s <| externalIdIndex := key :: externalIdIndex s |>);; mret None
    end
    else mret None);
  match existing with
  | Some r => mret (mkIngestResult r true)
  | None =>
      modify (fun s => s <| sequence := (sequence s + 1)%N |>);;
      id ← gets sequence;
      record ← lift (signalEventRecordSchema (new_signal id params (env_now env)));
      modify (fun s => s <| records := records s ++ [record] |>);;
      mret (mkIngestResult record false)
  end.

Definition listUnprocessed (tenantId : string) (signalType : SignalType) (limit : Z) :
    M State (list SignalEventRecord) :=
  gets (fun s => slice0 limit (sort_by by_id (bfilter (unprocessed tenantId signalType) (records s)))).

(** [for (const record of claimed) { ... this.records[index] = updated; }] *)
Fixpoint write_claims (f : SignalEventRecord -> SignalEventRecord)
    (claimed : list SignalEventRecord) : M State unit :=
  match claimed with
  | [] => mret tt
  | record :: rest =>
      index ← gets (fun s => list_find (fun c => sg_id c = sg_id record) (records s));
      match index with
      | None => write_claims f rest
      | Some (i, _) =>
          updated ← lift (signalEventRecordSchema (f record));
          modify (fun s => s <| records := <[i := updated]> (records s) |>);;
          write_claims f rest
      end
  end.

Definition claimUnprocessed (env : call_env) (tenantId : string) (signalType : SignalType)
    (limit : Z) (claimInput : SignalProcessingClaim) : M State (list SignalEventRecord) :=
  lift (tenantIdSchema tenantId);;
  claim ← lift (signalProcessingClaimSchema claimInput);
  let now := env_now env in
  let leaseExpiresAt := now + sc_leaseMs claim in
  claimed ← gets (fun s => slice0 limit (sort_by by_id
    (bfilter (fun r => unprocessed tenantId signalType r && unleased now r) (records s))));
  write_claims (leased (sc_owner claim) leaseExpiresAt) claimed;;
  lift (zod_array_map (fun r => signalEventRecordSchema (leased (sc_owner claim) leaseExpiresAt r))
    claimed).

Definition countSince (tenantId : string) (since : Z) : M State Z :=
  gets (fun s => Z.of_nat (length (bfilter
    (fun r => bool_decide (sg_tenantId r = tenantId) && (since <=? sg_createdAt r)) (records s)))).

Definition markProcessed (env : call_env) (tenantId : string) (ids : list N) : M State unit :=
  modify (fun s => s <| records := (fun r =>
    if bool_decide (sg_tenantId r = tenantId) && bool_decide (sg_id r ∈ ids) &&
       bool_decide (sg_processedAt r = None)
    then processed (env_now env) r else r) <$> records s |>).

Definition releaseClaims (tenantId : string) (ids : list N) (owner : string) : M State unit :=
  modify (fun s => s <| records := (fun r =>
    if bool_decide (sg_tenantId r = tenantId) && bool_decide (sg_id r ∈ ids) &&
       bool_decide (sg_processedAt r = None) && bool_decide (sg_leaseOwner r = Some owner)
    then released r else r) <$> records s |>).
End ops.
End InMemorySignals.

(** ** The Postgres repository *)

Module PostgresSignals.
Section ops.
Context `{Zod} {E : SqlEngine}.

Definition mapRow := signalEventRecordSchema.

(** The partial unique index on (tenant, source, external id), where the
    external id is not null; the primary key comes from a sequence. *)
Definition conflicting (a b : SignalEventRecord) : bool :=
  bool_decide (sg_tenantId a = sg_tenantId b) && bool_decide (sg_source a = sg_source b) &&
  match sg_externalId a with
  | None => false
  | Some x => bool_decide (sg_externalId b = Some x)
  end.

(** The parameters of a signal's row, as its columns keep them. *)
Definition signal_columns (p : IngestSignalParams) : result IngestSignalParams :=
  tenantId ← db_uuid (ip_tenantId p);
  mret (mkIngestParams tenantId (ip_signalType p) (ip_source p) (ip_externalId p) (jsonb_in (ip_payload p))).

Definition ingest (env : call_env) (input : IngestSignalParams) :
    M (table SignalEventRecord) IngestSignalResult :=
  params ← lift (signal_columns input);
  transaction (
    inserted ← tx_insert conflicting (new_signal (env_serial env) params (env_now env));
    match inserted with
    | row :: _ => event ← lift (mapRow row); mret (mkIngestResult event false)
    | [] =>
        found ← (if truthy (ip_externalId params)
          then tx_select (fun r => holds (sql_all [col_eq (sg_tenantId r) (ip_tenantId params);
                 col_eq (sg_source r) (ip_source params);
                 null_eq (sg_externalId r) (ip_externalId params ?: "")]))
          else mret []);
        match found with
        | row :: _ => event ← lift (mapRow row); mret (mkIngestResult event true)
        | [] => throw (JsError "signal_events ingest: insert returned no rows unexpectedly")
        end
    end).

(** [LIMIT n] *)
Definition sql_limit {A} (limit : Z) (l : list A) : M (table SignalEventRecord) (list A) :=
  if limit <? 0 then throw (JsError "LIMIT must not be negative")
  else mret (take (Z.to_nat limit) l).

Definition listUnprocessed (tenantId : string) (signalType : SignalType) (limit : Z) :
    M (table SignalEventRecord) (list SignalEventRecord) :=
  parsedTenantId ← lift (db_uuid tenantId);
  transaction (
    found ← tx_select (fun r => holds (sql_all [col_eq (sg_tenantId r) parsedTenantId;
      col_eq (sg_signalType r) signalType; is_null (sg_processedAt r)]));
    rows ← sql_limit limit (sort_by by_id found);
    lift (zod_array_map mapRow rows)).

(** [locked] are the rows another transaction holds locked when the
    selection runs: [FOR UPDATE SKIP LOCKED] passes over them, and holds the
    ones it returns until the update that follows. *)
Definition claimUnprocessed (locked : SignalEventRecord -> bool) (env : call_env)
    (tenantId : string) (signalType : SignalType) (limit : Z)
    (claimInput : SignalProcessingClaim) : M (table SignalEventRecord) (list SignalEventRecord) :=
  parsedTenantId ← lift (db_uuid tenantId);
  claim ← lift (signalProcessingClaimSchema claimInput);
  let now := env_now env in
  let leaseExpiresAt := now + sc_leaseMs claim in
  transaction (
    found ← tx_select (fun r => holds (sql_all [col_eq (sg_tenantId r) parsedTenantId;
      col_eq (sg_signalType r) signalType; is_null (sg_processedAt r);
      sql_or (is_null (sg_leaseExpiresAt r)) (null_lte (sg_leaseExpiresAt r) now)]));
    claimable ← sql_limit limit (sort_by by_id (bfilter (fun r => negb (locked r)) found));
    match claimable with
    | [] => mret []
    | _ =>
        rows ← tx_update (fun r => holds (sql_all [col_eq (sg_tenantId r) parsedTenantId;
            col_in (sg_id r) (sg_id <$> claimable); is_null (sg_processedAt r)]))
          (leased (sc_owner claim) leaseExpiresAt);
        lift (zod_array_map mapRow rows)
    end).

Definition markProcessed (env : call_env) (tenantId : string) (ids : list N) :
    M (table SignalEventRecord) unit :=
  match ids with
  | [] => mret tt
  | _ =>
      parsedTenantId ← lift (db_uuid tenantId);
      transaction (
        tx_update (fun r => holds (sql_all [col_eq (sg_tenantId r) parsedTenantId;
            col_in (sg_id r) ids; is_null (sg_processedAt r)]))
          (processed (env_now env));;
        mret tt)
  end.

Definition releaseClaims (tenantId : string) (ids : list N) (owner : string) :
    M (table SignalEventRecord) unit :=
  match ids with
  | [] => mret tt
  | _ =>
      parsedTenantId ← lift (db_uuid tenantId);
      transaction (
        tx_update (fun r => holds (sql_all [col_eq (sg_tenantId r) parsedTenantId;
            col_in (sg_id r) ids; null_eq (sg_leaseOwner r) owner; is_null (sg_processedAt r)]))
          released;;
        mret tt)
  end.

Definition countSince (tenantId : string) (since : Z) : M (table SignalEventRecord) Z :=
  parsedTenantId ← lift (db_uuid tenantId);
  transaction (
    found ← tx_select (fun r => holds (sql_all [col_eq (sg_tenantId r) parsedTenantId;
      Some (since <=? sg_createdAt r)]));
    mret (Z.of_nat (length found))).
End ops.
End PostgresSignals.

(** ** Calls *)

Inductive signal_call :=
  | SIngest (p : IngestSignalParams)
  | SList (tenantId : string) (ty : SignalType) (limit : Z)
  | SClaim (tenantId : string) (ty : SignalType) (limit : Z) (claim : SignalProcessingClaim)
  | SCount (tenantId : string) (since : Z)
  | SMark (tenantId : string) (ids : list N)
  | SRelease (tenantId : string) (ids : list N) (owner : string).

Inductive signal_answer :=
  | AIngested (r : IngestSignalResult)
  | AListed (l : list SignalEventRecord)
  | AClaimed (l : list SignalEventRecord)
  | ACount (n : Z)
  | ADone.

Section exec.
Context `{Zod} {E : SqlEngine}.

Definition signal_memory_exec (c : signal_call) (env : call_env) :
    M InMemorySignals.State signal_answer :=
  match c with
  | SIngest p => r ← InMemorySignals.ingest env p; mret (AIngested r)
  | SList tn ty n => l ← InMemorySignals.listUnprocessed tn ty n; mret (AListed l)
  | SClaim tn ty n c => l ← InMemorySignals.claimUnprocessed env tn ty n c; mret (AClaimed l)
  | SCount tn t => n ← InMemorySignals.countSince tn t; mret (ACount n)
  | SMark tn ids => InMemorySignals.markProcessed env tn ids;; mret ADone
  | SRelease tn ids o => InMemorySignals.releaseClaims tn ids o;; mret ADone
  end.

(** Without rows locked by others. *)
Definition signal_postgres_exec (c : signal_call) (env : call_env) :
    M (table SignalEventRecord) signal_answer :=
  match c with
  | SIngest p => r ← PostgresSignals.ingest env p; mret (AIngested r)
  | SList tn ty n => l ← PostgresSignals.listUnprocessed tn ty n; mret (AListed l)
  | SClaim tn ty n c =>
      l ← PostgresSignals.claimUnprocessed (fun _ => false) env tn ty n c; mret (AClaimed l)
  | SCount tn t => n ← PostgresSignals.countSince tn t; mret (ACount n)
  | SMark tn ids => PostgresSignals.markProcessed env tn ids;; mret ADone
  | SRelease tn ids o => PostgresSignals.releaseClaims tn ids o;; mret ADone
  end.
End exec.

(** ** The state invariant *)

Definition signal_ids (l : list SignalEventRecord) : list N := sg_id <$> l.

Section lemmas.
Context `{Z : Zod} {ZL : ZodLaws Z}.
Import InMemorySignals.
Implicit Types (s : State) (r : SignalEventRecord) (l : list SignalEventRecord).

Definition valid_signal r : Prop :=
  zod_uuid (sg_tenantId r) = true /\ sg_source r ≠ "" /\ 0 <= sg_attempts r.

Definition external_key_of r : string * string * option string :=
  (sg_tenantId r, sg_source r, sg_externalId r).

Record signal_inv (s : State) : Prop := {
  si_ids : NoDup (signal_ids (records s));
  si_bound r : r ∈ records s -> (sg_id r <= sequence s)%N;
  si_valid r : r ∈ records s -> valid_signal r;
  si_index r : r ∈ records s -> truthy (sg_externalId r) = true ->
    externalKey (sg_tenantId r) (sg_source r) (sg_externalId r ?: "") ∈ externalIdIndex s;
  si_unique r r' : r ∈ records s -> r' ∈ records s -> truthy (sg_externalId r) = true ->
    external_key_of r' = external_key_of r -> r' = r;
}.

Lemma signal_inv_init : signal_inv init.
Proof. split; [constructor|..]; intros r; intros; set_solver. Qed.

Lemma signalSchema_ok r r' :
  signalEventRecordSchema r = Ok r' <-> valid_signal r /\ r' = r.
Proof.
  unfold signalEventRecordSchema, valid_signal, nonneg_int. msimpl. split.
  - destruct (uuid _) as [tn|] eqn:E1; [|done]. apply uuid_ok in E1 as [? ->].
    destruct (min1_text _) as [so|] eqn:E2; [|done]. apply min1_text_ok in E2 as [? ->].
    destruct (refine _ _) as [n|] eqn:E3; [|done]. apply refine_ok in E3 as [E3 ->]. b2p.
    intros [= <-]. by destruct r.
  - intros [(H1 & H2 & H3) ->]. rewrite (proj2 (uuid_ok _ _) (conj H1 eq_refl)).
    rewrite (proj2 (min1_text_ok _ _) (conj H2 eq_refl)).
    rewrite (proj2 (refine_ok _ _ _) (conj (proj2 (Z.leb_le _ _) H3) eq_refl)). by destruct r.
Qed.

Lemma claimSchema_ok c c' : signalProcessingClaimSchema c = Ok c' ->
  c' = c /\ 1000 <= sc_leaseMs c <= 900000 /\ sc_owner c ≠ "".
Proof.
  unfold signalProcessingClaimSchema, bounded_text, int_in. msimpl.
  destruct (refine _ (sc_owner c)) as [o|] eqn:E1; [|done]. apply refine_ok in E1 as [E1 ->].
  destruct (refine _ (sc_leaseMs c)) as [n|] eqn:E2; [|done]. apply refine_ok in E2 as [E2 ->].
  intros [= <-]. b2p. split_and!; [by destruct c|lia..|].
  unfold length_in in E1. by destruct (sc_owner c).
Qed.

(** An update of the records that keeps what the invariant speaks of. *)
Definition keeps (f : SignalEventRecord -> SignalEventRecord) : Prop := forall r,
  sg_id (f r) = sg_id r /\ external_key_of (f r) = external_key_of r /\
  sg_attempts r <= sg_attempts (f r).

Definition with_records s l : State := mkState l (sequence s) (externalIdIndex s).

Lemma keeps_ids f l : keeps f -> signal_ids (f <$> l) = signal_ids l.
Proof. intros Hf. unfold signal_ids. rewrite <- list_fmap_compose. apply list_fmap_ext. intros. apply Hf. Qed.

Lemma signal_inv_update f s : keeps f -> signal_inv s ->
  signal_inv (with_records s (f <$> records s)).
Proof.
  intros Hf Hs. split; simpl.
  - rewrite keeps_ids by done. apply Hs.
  - intros r (x & -> & Hx)%list_elem_of_fmap. destruct (Hf x) as (-> & _). by apply Hs.
  - intros r (x & -> & Hx)%list_elem_of_fmap. destruct (Hf x) as (_ & [= E1 E2 _] & Ha).
    destruct (si_valid _ Hs _ Hx) as (? & ? & ?). unfold valid_signal. rewrite E1, E2. split_and!; [done..|lia].
  - intros r (x & -> & Hx)%list_elem_of_fmap. destruct (Hf x) as (_ & [= -> -> ->] & _). by apply Hs.
  - intros r r' (x & -> & Hx)%list_elem_of_fmap (y & -> & Hy)%list_elem_of_fmap.
    destruct (Hf x) as (_ & Ex & _), (Hf y) as (_ & Ey & _). rewrite Ex, Ey. intros Ht He.
    assert (sg_externalId (f x) = sg_externalId x) as Hext by (by injection Ex).
    rewrite Hext in Ht. by rewrite (si_unique _ Hs x y).
Qed.

Lemma keeps_if (p : SignalEventRecord -> bool) f : keeps f -> keeps (fun r => if p r then f r else r).
Proof. intros Hf r. destruct (p r); [apply Hf|]. split_and!; [done..|lia]. Qed.

Lemma keeps_id : keeps Datatypes.id.
Proof. intros r. split_and!; [done..|simpl; lia]. Qed.
Lemma leased_keeps o t : keeps (leased o t).
Proof. intros r. split_and!; [done..|simpl; lia]. Qed.
Lemma processed_keeps t : keeps (processed t).
Proof. intros r. split_and!; [done..|simpl; lia]. Qed.
Lemma released_keeps : keeps released.
Proof. intros r. split_and!; [done..|simpl; lia]. Qed.

(** ** Claims *)

Definition among l r : bool := bool_decide (sg_id r ∈ signal_ids l).

Lemma write_claims_eq f l s : keeps f -> NoDup (signal_ids (records s)) ->
  NoDup (signal_ids l) -> (forall r, r ∈ l -> r ∈ records s) ->
  (forall r, r ∈ l -> valid_signal (f r)) ->
  write_claims f l s =
    (Ok tt, with_records s ((fun r => if among l r then f r else r) <$> records s)).
Proof.
  intros Hf. revert s. induction l as [|r l IH]; intros s Hd Hdl Hin Hv.
  { simpl. msimpl. rewrite (list_fmap_ext _ Datatypes.id) by done. rewrite list_fmap_id. by destruct s. }
  simpl. msimpl. destruct (list_find _ (records s)) as [[i x]|] eqn:Hfind.
  2: { apply list_find_None in Hfind. rewrite Forall_forall in Hfind.
       by destruct (Hfind r (Hin r ltac:(by left))). }
  apply list_find_Some in Hfind as (Hi & Hx & _).
  assert (x = r) as ->.
  { apply (nodup_key_inj sg_id (records s) r x); [done|apply Hin; by left| |done].
    by eapply list_elem_of_lookup_2. }
  rewrite (proj2 (signalSchema_ok _ _) (conj (Hv r ltac:(by left)) eq_refl)). simpl.
  apply NoDup_cons in Hdl as [Hr Hdl].
  assert (<[i:=f r]> (records s) = (fun x => if bool_decide (sg_id x = sg_id r) then f x else x) <$> records s)
    as Heq.
  { apply list_eq. intros j. rewrite list_lookup_fmap. destruct (decide (j = i)) as [->|Hj].
    - rewrite list_lookup_insert_eq by (by eapply lookup_lt_Some). rewrite Hi. simpl.
      by rewrite bool_decide_true.
    - rewrite list_lookup_insert_ne by done. destruct (records s !! j) as [y|] eqn:Hy; [|done].
      simpl. rewrite bool_decide_false; [done|]. intros He. apply Hj.
      apply (NoDup_lookup (signal_ids (records s)) j i (sg_id r)); [done| |];
        unfold signal_ids; rewrite list_lookup_fmap, ?Hy, ?Hi; simpl; congruence. }
  unfold upd. simpl. rewrite Heq.
  match goal with |- write_claims f l ?s' = _ => specialize (IH s') end. simpl in IH.
  rewrite IH; clear IH; [|..].
  - unfold with_records. simpl. do 2 f_equal. rewrite <- list_fmap_compose. apply list_fmap_ext.
    intros j y Hy. apply list_elem_of_lookup_2 in Hy. unfold among, compose.
    destruct (decide (sg_id y = sg_id r)) as [He|He].
    + assert (y = r) as -> by
        (apply (nodup_key_inj sg_id (records s) r y); [done|apply Hin; by left|done|done]).
      rewrite (bool_decide_true (sg_id r = sg_id r)) by done.
      destruct (Hf r) as (-> & _). rewrite bool_decide_false by done.
      rewrite bool_decide_true; [done|]. by left.
    + rewrite (bool_decide_false (sg_id y = sg_id r)) by done.
      assert (bool_decide (sg_id y ∈ signal_ids (r :: l)) = bool_decide (sg_id y ∈ signal_ids l)) as ->;
        [|done]. apply bool_decide_ext. unfold signal_ids. csimpl. rewrite elem_of_cons. naive_solver.
  - rewrite keeps_ids; [done|]. by apply (keeps_if (fun x => bool_decide (sg_id x = sg_id r))).
  - done.
  - intros y Hy. apply list_elem_of_fmap. exists y. split; [|by apply Hin; right].
    rewrite bool_decide_false; [done|]. intros He. apply Hr. rewrite <- He.
    by apply list_elem_of_fmap_2.
  - intros y Hy. apply Hv. by right.
Qed.

Definition claimable tn ty now r : bool := unprocessed tn ty r && unleased now r.

(** The signals a claim takes: the oldest [limit] claimable ones. *)
Definition batch tn ty limit now s : list SignalEventRecord :=
  slice0 limit (sort_by by_id (bfilter (claimable tn ty now) (records s))).

Lemma batch_elem tn ty limit now s r : r ∈ batch tn ty limit now s ->
  r ∈ records s /\ claimable tn ty now r = true.
Proof. intros Hr%slice0_subseteq. apply elem_of_sort_by, elem_of_bfilter in Hr. naive_solver. Qed.

Lemma ids_sorted l : NoDup (signal_ids (sort_by by_id l)) ->
  StronglySorted (fun a b => sg_id a < sg_id b)%N (sort_by by_id l).
Proof.
  intros Hd. assert (StronglySorted by_id (sort_by by_id l)) as Hs.
  { apply sort_by_sorted; unfold by_id; intros *; rewrite !N.leb_le; lia. }
  induction Hs as [|x q Hs IH Hf]; [constructor|]. apply NoDup_cons in Hd as [Hx Hd].
  constructor; [by apply IH|]. rewrite Forall_forall in Hf |- *. intros y Hy.
  pose proof (Hf y Hy) as Hle%Is_true_eq_true. unfold by_id in Hle. apply N.leb_le in Hle.
  assert (sg_id x ≠ sg_id y); [|lia]. intros He. apply Hx. rewrite He. by apply list_elem_of_fmap_2.
Qed.

Lemma nodup_signal_ids p l : NoDup (signal_ids l) -> NoDup (signal_ids (sort_by by_id (bfilter p l))).
Proof.
  intros Hd. unfold signal_ids in *. rewrite sort_by_perm. revert Hd.
  induction l as [|r l IH]; csimpl; [done|]. intros [Hr Hl]%NoDup_cons. rewrite bfilter_cons.
  destruct (p r); [|by apply IH]. csimpl. apply NoDup_cons. split; [|by apply IH].
  intros (x & Hx & [_ Hin]%elem_of_bfilter)%list_elem_of_fmap. apply Hr. rewrite Hx.
  by apply list_elem_of_fmap_2.
Qed.

Lemma batch_nodup tn ty limit now s : signal_inv s -> NoDup (signal_ids (batch tn ty limit now s)).
Proof.
  intros Hs. unfold batch, signal_ids. destruct (slice0_take limit (sort_by by_id
    (bfilter (claimable tn ty now) (records s)))) as [k ->].
  rewrite fmap_take. eapply sublist_NoDup; [apply nodup_signal_ids, Hs|apply sublist_take].
Qed.

Lemma leased_valid o t r : valid_signal r -> valid_signal (leased o t r).
Proof. intros (? & ? & ?). split_and!; [done..|simpl; lia]. Qed.

Lemma claim_eq env tn ty limit c s : signal_inv s -> zod_uuid tn = true ->
  signalProcessingClaimSchema c = Ok c ->
  let b := batch tn ty limit (env_now env) s in
  let f := leased (sc_owner c) (env_now env + sc_leaseMs c) in
  claimUnprocessed env tn ty limit c s =
    (Ok (f <$> b), with_records s ((fun r => if among b r then f r else r) <$> records s)).
Proof.
  intros Hs Ht Hc b f. unfold claimUnprocessed. msimpl.
  rewrite (proj2 (tenantIdSchema_ok _ _) (conj Ht eq_refl)), Hc. cbn beta iota.
  change (slice0 limit _) with b. fold f.
  assert (forall r, r ∈ b -> r ∈ records s) as Hin by (by intros r [Hr _]%batch_elem).
  assert (forall r, r ∈ b -> valid_signal (f r)) as Hv.
  { intros r Hr. by apply leased_valid, Hs, Hin. }
  rewrite (write_claims_eq f b s) by (done || apply leased_keeps || apply Hs || by apply batch_nodup).
  rewrite zod_array_map_ok; [done|]. intros r Hr. apply signalSchema_ok. split; [by apply Hv|done].
Qed.

(** ** Ingestion *)

Definition found_external p s : option SignalEventRecord :=
  if truthy (ip_externalId p) then find (same_external p) (records s) else None.

Lemma same_external_spec p r : same_external p r = true <->
  external_key_of r = (ip_tenantId p, ip_source p, ip_externalId p).
Proof.
  unfold same_external, external_key_of. rewrite !andb_true_iff, !bool_decide_eq_true.
  naive_solver congruence.
Qed.

Definition key_added p s : State :=
  mkState (records s) (sequence s)
    (if truthy (ip_externalId p)
     then externalKey (ip_tenantId p) (ip_source p) (ip_externalId p ?: "") :: externalIdIndex s
     else externalIdIndex s).

Lemma ingest_eq env p s : signal_inv s -> zod_uuid (ip_tenantId p) = true ->
  ingest env p s =
    match found_external p s with
    | Some r => (Ok (mkIngestResult r true), s)
    | None =>
        let s1 := key_added p s in
        let r := new_signal (sequence s + 1) p (env_now env) in
        if String.eqb (ip_source p) ""
        then (Err ZodError, mkState (records s) (sequence s + 1) (externalIdIndex s1))
        else (Ok (mkIngestResult r false),
              mkState (records s ++ [r]) (sequence s + 1) (externalIdIndex s1))
    end.
Proof.
  intros Hs Ht. unfold ingest, found_external, key_added. msimpl.
  rewrite (proj2 (tenantIdSchema_ok _ _) (conj Ht eq_refl)). simpl.
  set (new := new_signal _ _ _).
  assert (signalEventRecordSchema new = if String.eqb (ip_source p) "" then Err ZodError else Ok new) as Hnew.
  { destruct (String.eqb_spec (ip_source p) "") as [He|He].
    - unfold signalEventRecordSchema. msimpl. simpl. unfold new, new_signal. simpl.
      rewrite (proj2 (uuid_ok _ _) (conj Ht eq_refl)). by rewrite He.
    - apply signalSchema_ok. split; [|done]. split_and!; simpl; [done..|lia]. }
  destruct (truthy (ip_externalId p)) eqn:Hx.
  - destruct (find _ _) as [r|] eqn:Hf.
    + apply find_some in Hf as [Hr Hk]. apply list_elem_of_In in Hr.
      apply same_external_spec in Hk. injection Hk as E1 E2 E3.
      pose proof (si_index _ Hs r Hr) as Hi. rewrite E1, E2, E3 in Hi.
      by rewrite (bool_decide_true _ (Hi Hx)).
    + assert (forall b : bool, (if b then None else None) = @None SignalEventRecord) as Hb by (by intros []).
      rewrite Hb. simpl. fold new. rewrite Hnew. by destruct (String.eqb _ _).
  - simpl. fold new. rewrite Hnew. by destruct (String.eqb _ _).
Qed.

(** ** What one call does to a stored signal *)

Inductive touch (c : signal_call) (env : call_env) r : SignalEventRecord -> Prop :=
  | touch_none : touch c env r r
  | touch_claim tn ty n k : c = SClaim tn ty n k ->
      claimable tn ty (env_now env) r = true ->
      touch c env r (leased (sc_owner k) (env_now env + sc_leaseMs k) r)
  | touch_mark tn ids : c = SMark tn ids -> sg_tenantId r = tn -> sg_id r ∈ ids ->
      sg_processedAt r = None -> touch c env r (processed (env_now env) r)
  | touch_release tn ids o : c = SRelease tn ids o -> sg_tenantId r = tn -> sg_id r ∈ ids ->
      sg_processedAt r = None -> sg_leaseOwner r = Some o -> touch c env r (released r).

(** [s'] holds the signals of [s], each touched at most once, and newer ones. *)
Definition stepped c env s s' : Prop :=
  signal_inv s' /\ (sequence s <= sequence s')%N /\
  exists f new, records s' = (f <$> records s) ++ new /\ keeps f /\
    (forall r, r ∈ new -> (sequence s < sg_id r)%N) /\
    forall r, r ∈ records s -> touch c env r (f r).

Lemma stepped_same c env s : signal_inv s -> stepped c env s s.
Proof.
  intros Hs. split_and!; [done|lia|]. exists Datatypes.id, []. rewrite list_fmap_id, app_nil_r.
  split_and!; [done|apply keeps_id|set_solver|constructor].
Qed.

Lemma stepped_update c env s (p : SignalEventRecord -> bool) g : signal_inv s -> keeps g ->
  (forall r, r ∈ records s -> p r = true -> touch c env r (g r)) ->
  stepped c env s (with_records s ((fun r => if p r then g r else r) <$> records s)).
Proof.
  intros Hs Hg Ht. split_and!; [|simpl; lia|].
  - apply signal_inv_update; [by apply keeps_if|done].
  - eexists _, []. rewrite app_nil_r. split_and!; [reflexivity|by apply keeps_if|set_solver|].
    intros r Hr. pose proof (Ht r Hr). simpl. destruct (p r); [auto|constructor].
Qed.

Lemma key_added_inv p s n l : signal_inv s -> zod_uuid (ip_tenantId p) = true ->
  (sequence s <= n)%N ->
  (forall r, r ∈ l -> external_key_of r = (ip_tenantId p, ip_source p, ip_externalId p) /\
     valid_signal r /\ (sequence s < sg_id r <= n)%N) -> NoDup (signal_ids l) ->
  (length l <= 1)%nat -> found_external p s = None ->
  signal_inv (mkState (records s ++ l) n (externalIdIndex (key_added p s))).
Proof.
  intros Hs Ht Hn Hl Hd Hlen Hnone. unfold found_external in Hnone.
  assert (forall r, r ∈ records s -> truthy (sg_externalId r) = true ->
    external_key_of r ≠ (ip_tenantId p, ip_source p, ip_externalId p)) as Hfresh.
  { intros r Hr Hx Hk. assert (sg_externalId r = ip_externalId p) as He by (by injection Hk).
    rewrite <- He, Hx in Hnone. eapply find_none in Hnone; [|by apply list_elem_of_In].
    apply same_external_spec in Hk. congruence. }
  split; simpl.
  - unfold signal_ids. rewrite fmap_app. apply NoDup_app. split_and!; [apply Hs| |done].
    intros i (r & -> & Hr)%list_elem_of_fmap (r' & He & Hr')%list_elem_of_fmap.
    pose proof (si_bound _ Hs r Hr). apply Hl in Hr' as (_ & _ & ?). lia.
  - intros r [Hr|Hr]%elem_of_app; [pose proof (si_bound _ Hs r Hr); lia|].
    apply Hl in Hr as (_ & _ & ?). lia.
  - intros r [Hr|Hr]%elem_of_app; [by apply Hs|]. by apply Hl.
  - intros r [Hr|Hr]%elem_of_app Hx.
    + pose proof (si_index _ Hs r Hr Hx). destruct (truthy (ip_externalId p)); [by right|done].
    + destruct (Hl r Hr) as ([= E1 E2 E3] & _). rewrite E3 in Hx. rewrite Hx, E1, E2, E3. by left.
  - intros r r' [Hr|Hr]%elem_of_app [Hr'|Hr']%elem_of_app Hx Hk.
    + by apply (si_unique _ Hs).
    + apply Hl in Hr' as (Hk' & _). exfalso. apply (Hfresh r Hr Hx). by rewrite <- Hk.
    + apply Hl in Hr as (Hk' & _). exfalso. apply (Hfresh r' Hr'); [|by rewrite Hk].
      assert (sg_externalId r' = sg_externalId r) as -> by (by injection Hk). done.
    + destruct l as [|a [|b l]]; simpl in Hlen; [set_solver| |lia].
      apply list_elem_of_singleton in Hr, Hr'. by subst.
Qed.

Lemma signal_exec_effect c env s : signal_inv s -> stepped c env s (signal_memory_exec c env s).2.
Proof.
  intros Hs. destruct c as [p|tn ty n|tn ty n k|tn t|tn ids|tn ids o]; simpl.
  - destruct (zod_uuid (ip_tenantId p)) eqn:Ht.
    2: { unfold ingest, tenantIdSchema, uuid, refine. msimpl. rewrite Ht. simpl. by apply stepped_same. }
    unfold mbind, M_bind. rewrite (ingest_eq env p s Hs Ht).
    destruct (found_external p s) as [r|] eqn:Hf; [by apply stepped_same|].
    destruct (String.eqb_spec (ip_source p) "") as [He|He]; simpl.
    + split_and!; [|simpl; lia|].
      * rewrite <- (app_nil_r (records s)). apply key_added_inv; try done; [lia|set_solver|constructor|simpl; lia].
      * exists Datatypes.id, []. simpl. rewrite list_fmap_id, app_nil_r.
        split_and!; [done|apply keeps_id|set_solver|constructor].
    + set (new := new_signal _ _ _). split_and!; [|simpl; lia|].
      * apply key_added_inv; [done|done|lia| |apply NoDup_singleton|simpl; lia|done].
        intros r ->%list_elem_of_singleton. simpl. split_and!; [done| |lia|lia].
        split_and!; simpl; done || lia.
      * exists Datatypes.id, [new]. simpl. rewrite list_fmap_id.
        split_and!; [done|apply keeps_id| |constructor].
        intros r ->%list_elem_of_singleton. simpl. lia.
  - by apply stepped_same.
  - destruct (zod_uuid tn) eqn:Ht.
    2: { unfold claimUnprocessed, tenantIdSchema, uuid, refine. msimpl. rewrite Ht. simpl. by apply stepped_same. }
    destruct (signalProcessingClaimSchema k) as [k'|x] eqn:Hk.
    2: { unfold claimUnprocessed. msimpl. rewrite (proj2 (tenantIdSchema_ok _ _) (conj Ht eq_refl)).
         rewrite Hk. simpl. by apply stepped_same. }
    destruct (claimSchema_ok _ _ Hk) as [-> _]. unfold mbind, M_bind.
    rewrite (claim_eq env tn ty n k s Hs Ht Hk). simpl.
    apply stepped_update; [done|apply leased_keeps|]. intros r Hr Hb.
    apply bool_decide_eq_true, list_elem_of_fmap in Hb as (x & Hx & Hin).
    apply batch_elem in Hin as [Hxr Hc].
    assert (x = r) as -> by (by apply (nodup_key_inj sg_id (records s) r x); [apply Hs|..]).
    by eapply touch_claim.
  - by apply stepped_same.
  - apply (stepped_update _ _ s (fun r => _)); [done|apply processed_keeps|].
    intros r Hr Hp. b2p. destruct Hp as [[? ?] ?]. by eapply touch_mark.
  - apply (stepped_update _ _ s (fun r => _)); [done|apply released_keeps|].
    intros r Hr Hp. b2p. destruct Hp as [[[? ?] ?] ?]. by eapply touch_release.
Qed.

(** ** Leases over a history of calls *)

(** While the lease runs, signal [id] is leased to [o] until [t], or processed. *)
Definition held (id : N) (o : string) (t : BinNums.Z) s : Prop :=
  (id <= sequence s)%N /\ forall r, r ∈ records s -> sg_id r = id ->
    sg_processedAt r ≠ None \/ (sg_leaseOwner r = Some o /\ sg_leaseExpiresAt r = Some t).

(** A call that starts before [t] and is not the owner giving [id] back. *)
Definition respects (id : N) (o : string) (t : BinNums.Z) (c : signal_call) (env : call_env) : Prop :=
  env_now env < t /\
  match c with SRelease _ ids o' => o' = o -> id ∉ ids | _ => True end.

Lemma held_not_claimable id o t tn ty now s r : held id o t s -> now < t ->
  r ∈ records s -> sg_id r = id -> claimable tn ty now r = false.
Proof.
  intros [_ Hh] Hn Hr Hid. unfold claimable, unprocessed, unleased.
  destruct (Hh r Hr Hid) as [Hp|[_ ->]].
  - by rewrite (bool_decide_false _ Hp), andb_false_r.
  - rewrite (proj2 (Z.leb_gt t now)) by lia. apply andb_false_r.
Qed.

Lemma held_step id o t c env s : signal_inv s -> held id o t s -> respects id o t c env ->
  held id o t (signal_memory_exec c env s).2.
Proof.
  intros Hs Hh [Hn Hc]. destruct (signal_exec_effect c env s Hs) as (_ & Hseq & f & new & Hr & Hf & Hnew & Ht).
  split; [destruct Hh; lia|]. intros r. rewrite Hr.
  intros [(x & -> & Hx)%list_elem_of_fmap|Hin]%elem_of_app Hid.
  2: { apply Hnew in Hin. destruct Hh. lia. }
  destruct (Hf x) as (Hxi & _). rewrite Hxi in Hid.
  destruct (Ht x Hx) as [|tn ty n k -> Hcl|tn ids -> _ Hin _|tn ids o' -> _ Hin Hp Ho].
  - by apply Hh.
  - by rewrite (held_not_claimable id o t tn ty _ s x Hh Hn Hx Hid) in Hcl.
  - by left.
  - destruct (proj2 Hh x Hx Hid) as [?|[Ho' _]]; [done|]. exfalso.
    rewrite Ho in Ho'. injection Ho' as ->. apply Hc; [done|]. by rewrite <- Hid.
Qed.

Lemma held_history id o t cs s : signal_inv s -> held id o t s ->
  Forall (fun ce => respects id o t ce.1 ce.2) cs ->
  forall l, Ok (AClaimed l) ∈ (history signal_memory_exec cs s).1 -> id ∉ signal_ids l.
Proof.
  revert s. induction cs as [|[c env] cs IH]; intros s Hs Hh Hcs l; [set_solver|].
  apply Forall_cons in Hcs as [Hc Hcs]. simpl.
  pose proof (held_step id o t c env s Hs Hh Hc) as Hh'.
  destruct (signal_exec_effect c env s Hs) as [Hs' _].
  destruct (signal_memory_exec c env s) as [a s'] eqn:He. simpl in *.
  destruct (history signal_memory_exec cs s') as [rs s''] eqn:Hhist. simpl.
  intros [<-|Hin]%elem_of_cons.
  2: { apply (IH s'); try done. by rewrite Hhist. }
  destruct c as [p|tn ty n|tn ty n k|tn u|tn ids|tn ids o']; simpl in He;
    apply bind_ok in He as (x & s1 & He & [= <- <-]).
  destruct (zod_uuid tn) eqn:Htn.
  2: { revert He. unfold claimUnprocessed, tenantIdSchema, uuid, refine. msimpl. by rewrite Htn. }
  destruct (signalProcessingClaimSchema k) as [k'|e] eqn:Hk.
  2: { revert He. unfold claimUnprocessed. msimpl.
       by rewrite (proj2 (tenantIdSchema_ok _ _) (conj Htn eq_refl)), Hk. }
  destruct (claimSchema_ok _ _ Hk) as [-> _].
  rewrite (claim_eq env tn ty n k s Hs Htn Hk) in He. injection He as <- _.
  intros (y & Hy & (r & -> & Hr)%list_elem_of_fmap)%list_elem_of_fmap. simpl in Hy.
  apply batch_elem in Hr as [Hr Hcl].
  rewrite (held_not_claimable id o t tn ty _ s r Hh) in Hcl; try done. apply Hc.
Qed.

Lemma claim_ok_inv env tn ty limit k s l s' : signal_inv s ->
  claimUnprocessed env tn ty limit k s = (Ok l, s') ->
  zod_uuid tn = true /\ 1000 <= sc_leaseMs k <= 900000 /\
  let b := batch tn ty limit (env_now env) s in
  let f := leased (sc_owner k) (env_now env + sc_leaseMs k) in
  l = f <$> b /\ s' = with_records s ((fun r => if among b r then f r else r) <$> records s).
Proof.
  intros Hs Hc. destruct (zod_uuid tn) eqn:Ht.
  2: { revert Hc. unfold claimUnprocessed, tenantIdSchema, uuid, refine. msimpl. by rewrite Ht. }
  destruct (signalProcessingClaimSchema k) as [k'|x] eqn:Hk.
  2: { revert Hc. unfold claimUnprocessed. msimpl.
       by rewrite (proj2 (tenantIdSchema_ok _ _) (conj Ht eq_refl)), Hk. }
  destruct (claimSchema_ok _ _ Hk) as (-> & Hms & _).
  rewrite (claim_eq env tn ty limit k s Hs Ht Hk) in Hc. injection Hc as <- <-. done.
Qed.

Lemma claimed_held env tn ty limit k s l s' r : signal_inv s ->
  claimUnprocessed env tn ty limit k s = (Ok l, s') -> r ∈ l ->
  held (sg_id r) (sc_owner k) (env_now env + sc_leaseMs k) s'.
Proof.
  intros Hs Hc Hr. destruct (claim_ok_inv _ _ _ _ _ _ _ _ Hs Hc) as (_ & _ & -> & ->).
  apply list_elem_of_fmap in Hr as (x & -> & Hx). simpl.
  split; [by apply batch_elem in Hx as [Hin _]; apply Hs|]. simpl. intros y (z & -> & Hz)%list_elem_of_fmap Hid.
  assert (sg_id z = sg_id x) as Hzx by (destruct (among _ z); done).
  unfold among. rewrite bool_decide_true; [by right|]. rewrite Hzx. by apply list_elem_of_fmap_2.
Qed.
End lemmas.

(** ** The Postgres repository implements the in-memory one

    Up to the ids the database hands out: [φ] sends the in-memory id of a
    signal to its row's id. *)

Definition rename (φ : N -> N) (r : SignalEventRecord) : SignalEventRecord :=
  mkSignal (φ (sg_id r)) (sg_tenantId r) (sg_signalType r) (sg_source r) (sg_externalId r)
    (sg_payload r) (sg_processedAt r) (sg_leaseOwner r) (sg_leaseExpiresAt r) (sg_attempts r)
    (sg_createdAt r).

Definition rename_call (φ : N -> N) (c : signal_call) : signal_call :=
  match c with
  | SMark tn ids => SMark tn (φ <$> ids)
  | SRelease tn ids o => SRelease tn (φ <$> ids) o
  | _ => c
  end.

(** Equal answers; the rows an [UPDATE] returns come in no particular order. *)
Definition same_answer (φ : N -> N) (a b : result signal_answer) : Prop :=
  match a, b with
  | Ok (AIngested r), Ok (AIngested r') =>
      r' = mkIngestResult (rename φ (ir_event r)) (ir_isDuplicate r)
  | Ok (AListed l), Ok (AListed l') => l' = (rename φ <$> l)
  | Ok (AClaimed l), Ok (AClaimed l') => l' ≡ₚ (rename φ <$> l)
  | Ok (ACount n), Ok (ACount n') => n' = n
  | Ok ADone, Ok ADone => True
  | Err e, Err e' => e' = e
  | _, _ => False
  end.

Section refinement.
Context `{Z : Zod} {ZL : ZodLaws Z} {E : SqlEngine} {L : SqlLaws E}.
Import InMemorySignals.
Implicit Types (s : State) (t : table SignalEventRecord) (φ : N -> N).

Definition monotone φ (n : N) : Prop := forall i j, (i < j)%N -> (j <= n)%N -> (φ i < φ j)%N.

Definition sig_rel φ s t : Prop :=
  monotone φ (sequence s) /\ rows t ≡ₚ (rename φ <$> records s).

(** A call with well-formed arguments that names only ids handed out so far. *)
Definition signal_call_ok (c : signal_call) s : Prop :=
  match c with
  | SIngest p => canonical (ip_tenantId p) /\ ip_externalId p ≠ Some "" /\ jsonb_in (ip_payload p) = ip_payload p
  | SList tn _ n | SClaim tn _ n _ => canonical tn /\ 0 <= n
  | SCount tn _ => canonical tn
  | SMark tn ids | SRelease tn ids _ => canonical tn /\ forall i, i ∈ ids -> (i <= sequence s)%N
  end.

Lemma signal_columns_ok p : canonical (ip_tenantId p) -> jsonb_in (ip_payload p) = ip_payload p ->
  PostgresSignals.signal_columns p = Ok p.
Proof.
  intros Ht Hj. unfold PostgresSignals.signal_columns. msimpl. rewrite db_uuid_canonical, Hj by done. by destruct p.
Qed.

Lemma monotone_inj φ n i j : monotone φ n -> (i <= n)%N -> (j <= n)%N -> φ i = φ j -> i = j.
Proof.
  intros Hm Hi Hj He. destruct (N.lt_trichotomy i j) as [H|[H|H]]; [|done|].
  - pose proof (Hm i j H Hj). lia.
  - pose proof (Hm j i H Hi). lia.
Qed.

Lemma select_rel φ s t p q : sig_rel φ s t ->
  (forall r, r ∈ records s -> p (rename φ r) = q r) ->
  select p t ≡ₚ (rename φ <$> bfilter q (records s)).
Proof.
  intros [_ Ht] Hp. rewrite select_rows, Ht, bfilter_fmap. by rewrite (bfilter_ext _ q).
Qed.

Lemma update_rel φ s t p q f : sig_rel φ s t ->
  (forall r, r ∈ records s -> p (rename φ r) = q r) ->
  (forall r, f (rename φ r) = rename φ (f r)) ->
  (update p f t).1 ≡ₚ (rename φ <$> (f <$> bfilter q (records s))) /\
  sig_rel φ (with_records s ((fun r => if q r then f r else r) <$> records s)) (update p f t).2.
Proof.
  intros [Hm Ht] Hp Hf. split.
  - rewrite update_returning, Ht, bfilter_fmap, (bfilter_ext _ q) by done.
    rewrite <- !list_fmap_compose. erewrite list_fmap_ext; [reflexivity|]. intros i r _. apply Hf.
  - split; [done|]. simpl. rewrite update_rows, Ht, <- !list_fmap_compose.
    erewrite list_fmap_ext; [reflexivity|]. intros i r Hr%list_elem_of_lookup_2. simpl.
    rewrite Hp by done. by destruct (q r).
Qed.

Lemma sort_rename φ n l : monotone φ n -> (forall r, r ∈ l -> (sg_id r <= n)%N) ->
  sort_by by_id (rename φ <$> l) = rename φ <$> sort_by by_id l.
Proof.
  intros Hm Hl. induction l as [|x l IH]; [done|]. csimpl. rewrite IH by (intros; apply Hl; by right).
  assert (forall y, y ∈ sort_by by_id l -> (sg_id y <= n)%N) as Hs.
  { intros y Hy%elem_of_sort_by. apply Hl. by right. }
  assert (sg_id x <= n)%N as Hx by (apply Hl; by left). clear IH Hl.
  induction (sort_by by_id l) as [|y q IH]; [done|]. csimpl.
  assert (by_id (rename φ x) (rename φ y) = by_id x y) as ->.
  { unfold by_id. simpl. apply eq_true_iff_eq. rewrite !N.leb_le.
    assert (sg_id y <= n)%N as Hy by (apply Hs; by left). split.
    - intros Hle. destruct (N.lt_ge_cases (sg_id y) (sg_id x)) as [Hlt|]; [|done].
      pose proof (Hm _ _ Hlt Hx). lia.
    - intros [Hlt| ->]%N.le_lteq; [|done]. pose proof (Hm _ _ Hlt Hy). lia. }
  destruct (by_id x y); [done|]. csimpl. f_equal. apply IH. intros; apply Hs; by right.
Qed.

Lemma sort_perm l l' : NoDup (signal_ids l) -> l' ≡ₚ l -> sort_by by_id l' = sort_by by_id l.
Proof.
  intros Hd Hl. apply (StronglySorted_unique_strong (fun a b => sg_id a < sg_id b)%N).
  - intros a b _ _. lia.
  - apply ids_sorted. unfold signal_ids in *. by rewrite sort_by_perm, Hl.
  - apply ids_sorted. unfold signal_ids in *. by rewrite sort_by_perm.
  - by rewrite Hl.
Qed.

(** [SELECT ... ORDER BY id], read back through the renaming. *)
Lemma select_sorted φ s t p q : signal_inv s -> sig_rel φ s t ->
  (forall r, r ∈ records s -> p (rename φ r) = q r) ->
  sort_by by_id (select p t) = rename φ <$> sort_by by_id (bfilter q (records s)).
Proof.
  intros Hs Hrel Hp. pose proof (select_rel φ s t p q Hrel Hp) as Hsel. destruct Hrel as [Hm _].
  assert (forall r, r ∈ bfilter q (records s) -> (sg_id r <= sequence s)%N) as Hb.
  { intros r [_ Hr]%elem_of_bfilter. by apply Hs. }
  rewrite <- (sort_rename φ (sequence s)) by done.
  apply sort_perm; [|done]. unfold signal_ids. rewrite <- list_fmap_compose.
  pose proof (nodup_signal_ids q (records s) (si_ids _ Hs)) as Hd. unfold signal_ids in Hd.
  rewrite sort_by_perm in Hd. clear Hsel. revert Hb Hd. generalize (bfilter q (records s)).
  induction l as [|r l IH]; csimpl; intros Hb Hd; [constructor|].
  apply NoDup_cons in Hd as [Hr Hd]. apply NoDup_cons. split; [|apply IH; [|done]; intros; apply Hb; by right].
  intros (x & Hx & Hin)%list_elem_of_fmap. simpl in Hx. apply Hr.
  apply (monotone_inj φ (sequence s)) in Hx; [|done|apply Hb; by left|apply Hb; by right].
  rewrite Hx. by apply list_elem_of_fmap_2.
Qed.

Lemma map_rows_ok φ l : (forall r, r ∈ l -> valid_signal r) ->
  zod_array_map PostgresSignals.mapRow (rename φ <$> l) = Ok (rename φ <$> l).
Proof.
  intros Hl. pose proof (zod_array_map_ok signalEventRecordSchema Datatypes.id (rename φ <$> l)) as Hz.
  rewrite list_fmap_id in Hz. apply Hz.
  intros r (x & -> & Hx)%list_elem_of_fmap. apply signalSchema_ok. split; [exact (Hl x Hx)|done].
Qed.

Lemma zod_array_map_same l : (forall r, r ∈ l -> valid_signal r) ->
  zod_array_map PostgresSignals.mapRow l = Ok l.
Proof.
  intros Hl. pose proof (map_rows_ok Datatypes.id l Hl) as Hm.
  rewrite (list_fmap_ext _ Datatypes.id) in Hm by (by intros ? [] ?). by rewrite list_fmap_id in Hm.
Qed.
(** The selection and update conditions, read through the renaming. *)
Ltac row_cond := sql_simpl; rewrite ?holds_is_null, ?holds_null_lte; simpl.

Lemma where_unprocessed φ tn ty r :
  holds (sql_all [col_eq (sg_tenantId (rename φ r)) tn; col_eq (sg_signalType (rename φ r)) ty;
    is_null (sg_processedAt (rename φ r))]) = unprocessed tn ty r.
Proof. row_cond. unfold unprocessed. by rewrite andb_assoc. Qed.

Lemma where_claimable φ tn ty now r :
  holds (sql_all [col_eq (sg_tenantId (rename φ r)) tn; col_eq (sg_signalType (rename φ r)) ty;
    is_null (sg_processedAt (rename φ r));
    sql_or (is_null (sg_leaseExpiresAt (rename φ r))) (null_lte (sg_leaseExpiresAt (rename φ r)) now)]) =
  claimable tn ty now r.
Proof.
  row_cond. unfold claimable, unprocessed, unleased. rewrite !andb_assoc. f_equal.
  by destruct (sg_leaseExpiresAt r).
Qed.

Lemma elem_rename φ n i (ids : list N) : monotone φ n -> (i <= n)%N -> (forall j, j ∈ ids -> (j <= n)%N) ->
  bool_decide (φ i ∈ φ <$> ids) = bool_decide (i ∈ ids).
Proof.
  intros Hm Hi Hids. apply bool_decide_ext. split; [|apply list_elem_of_fmap_2].
  intros (j & Hj & Hin)%list_elem_of_fmap. apply (monotone_inj φ n) in Hj as ->; auto.
Qed.

Lemma bfilter_among l b : NoDup (signal_ids l) -> NoDup (signal_ids b) ->
  (forall r, r ∈ b -> r ∈ l) -> bfilter (among b) l ≡ₚ b.
Proof.
  intros Hl Hb Hin. apply NoDup_Permutation.
  - unfold bfilter. apply NoDup_filter. by eapply NoDup_fmap_1.
  - by eapply NoDup_fmap_1.
  - intros r. rewrite elem_of_bfilter. split; [|intros Hr; split; [|by apply Hin]].
    + intros [(x & Hx & Hxb)%bool_decide_eq_true%list_elem_of_fmap Hr].
      by rewrite (nodup_key_inj sg_id l x r); auto.
    + apply bool_decide_eq_true. by apply list_elem_of_fmap_2.
Qed.

Lemma signal_claim_refines φ env tn ty n k s t : signal_inv s -> sig_rel φ s t ->
  canonical tn -> 0 <= n ->
  let a := signal_memory_exec (SClaim tn ty n k) env s in
  let b := signal_postgres_exec (SClaim tn ty n k) env t in
  same_answer φ a.1 b.1 /\ sig_rel φ a.2 b.2.
Proof.
  intros Hs Hrel Ht Hn. simpl. unfold PostgresSignals.claimUnprocessed.
  destruct (signalProcessingClaimSchema k) as [k'|x] eqn:Hk.
  2: { unfold claimUnprocessed. msimpl. rewrite (proj2 (tenantIdSchema_ok _ _) (conj (canonical_uuid _ Ht) eq_refl)), db_uuid_canonical, Hk by done. done. }
  destruct (claimSchema_ok _ _ Hk) as [-> _]. unfold mbind, M_bind.
  rewrite (claim_eq env tn ty n k s Hs (canonical_uuid _ Ht) Hk). unfold transaction, tx_select, tx_update, PostgresSignals.sql_limit.
  msimpl. rewrite db_uuid_canonical by done. simpl.
  rewrite (proj2 (Z.ltb_ge n 0)) by done. simpl.
  set (p := fun r => holds _). set (b := batch tn ty n (env_now env) s).
  assert (take (BinInt.Z.to_nat n) (sort_by by_id (bfilter (fun _ => true) (select p t))) = rename φ <$> b) as ->.
  { rewrite (bfilter_true (select p t)), (select_sorted φ s t p (claimable tn ty (env_now env)))
      by (done || (intros; apply where_claimable)).
    unfold b, batch, slice0. rewrite (proj2 (Z.ltb_ge n 0)) by done. by rewrite fmap_take. }
  assert (NoDup (signal_ids b)) as Hbd by (by apply batch_nodup).
  assert (forall r, r ∈ b -> r ∈ records s) as Hbin by (by intros r [Hr _]%batch_elem).
  destruct b as [|r0 b0] eqn:Hb.
  - simpl. split; [done|]. rewrite (list_fmap_ext _ Datatypes.id) by done. by rewrite list_fmap_id.
  - rewrite <- Hb in *. assert ((rename φ <$> b) = rename φ r0 :: (rename φ <$> b0)) as -> by (by rewrite Hb).
    cbn beta iota. rewrite <- (fmap_cons (rename φ) r0 b0), <- Hb. set (f := leased _ _).
    set (p2 := fun r => holds _).
    assert (forall r, r ∈ records s -> p2 (rename φ r) = among b r) as Hp2.
    { intros r Hr. unfold p2, among. row_cond.
      assert (forall x, x ∈ b -> (sg_id x <= sequence s)%N) as Hle by (intros x Hx; by apply Hs, Hbin).
      assert ((sg_id <$> (rename φ <$> b)) = φ <$> signal_ids b) as ->.
      { unfold signal_ids. by rewrite <- !list_fmap_compose. }
      rewrite (elem_rename φ (sequence s)); [|apply Hrel|by apply Hs|].
      2: { intros j (x & -> & Hx)%list_elem_of_fmap. by apply Hle. }
      destruct (bool_decide (sg_id r ∈ signal_ids b)) eqn:Hin; [|simpl; by rewrite andb_false_r].
      apply bool_decide_eq_true, list_elem_of_fmap in Hin as (x & Hx & Hxb).
      assert (r = x) as -> by (apply (nodup_key_inj sg_id (records s) x r); auto; apply Hs).
      apply batch_elem in Hxb as [_ [[[H1 _]%andb_true_iff H2]%andb_true_iff _]%andb_true_iff].
      by rewrite H1, H2. }
    destruct (update_rel φ s t p2 (among b) f Hrel Hp2) as [Hret Hrel']; [done|].
    destruct (update p2 f t) as [rs t'] eqn:Hu. simpl in Hret, Hrel'.
    rewrite (bfilter_among (records s) b) in Hret by (apply Hs || done).
    rewrite zod_array_map_same.
    + split; [|done]. simpl. by rewrite Hret.
    + intros r. rewrite Hret. intros (x & -> & (y & -> & Hy)%list_elem_of_fmap)%list_elem_of_fmap.
      exact (leased_valid _ _ y (si_valid _ Hs y (Hbin y Hy))).
Qed.

Lemma signal_update_refines φ s t p q f : sig_rel φ s t ->
  (forall r, r ∈ records s -> p (rename φ r) = q r) -> (forall r, f (rename φ r) = rename φ (f r)) ->
  exists t', transaction (tx_update p f;; mret ()) t = (Ok (), t') /\
    sig_rel φ (with_records s ((fun r => if q r then f r else r) <$> records s)) t'.
Proof.
  intros Hrel Hp Hf. destruct (update_rel φ s t p q f Hrel Hp Hf) as [_ Hrel'].
  unfold transaction, tx_update. msimpl. destruct (update p f t). by eexists.
Qed.

Lemma mark_refines φ env tn ids s t : signal_inv s -> sig_rel φ s t ->
  signal_call_ok (SMark tn ids) s ->
  let a := signal_memory_exec (SMark tn ids) env s in
  let b := signal_postgres_exec (rename_call φ (SMark tn ids)) env t in
  same_answer φ a.1 b.1 /\ sig_rel φ a.2 b.2.
Proof.
  intros Hs Hrel [Ht Hids]. simpl. unfold PostgresSignals.markProcessed, mbind, M_bind.
  destruct ids as [|i ids]; csimpl.
  { split; [done|]. unfold upd. simpl. rewrite (list_fmap_ext _ Datatypes.id).
    2: { intros k r _. simpl. by rewrite andb_false_r. }
    rewrite list_fmap_id. by destruct s. }
  rewrite db_uuid_canonical by done.
  match goal with |- context [tx_update ?p ?f] => destruct (signal_update_refines φ s t p (fun r =>
    bool_decide (sg_tenantId r = tn) && bool_decide (sg_id r ∈ i :: ids) &&
    bool_decide (sg_processedAt r = None)) f Hrel) as (t' & Heq & Hrel'); [|done|] end.
  - intros r Hr. row_cond. rewrite <- (elem_rename φ (sequence s) (sg_id r) (i :: ids)) by
      (apply Hrel || by apply Hs || done). by rewrite andb_assoc.
  - unfold mbind, M_bind in Heq. cbn beta iota in Heq. rewrite Heq. by split.
Qed.

Lemma release_refines φ env tn ids o s t : signal_inv s -> sig_rel φ s t ->
  signal_call_ok (SRelease tn ids o) s ->
  let a := signal_memory_exec (SRelease tn ids o) env s in
  let b := signal_postgres_exec (rename_call φ (SRelease tn ids o)) env t in
  same_answer φ a.1 b.1 /\ sig_rel φ a.2 b.2.
Proof.
  intros Hs Hrel [Ht Hids]. simpl. unfold PostgresSignals.releaseClaims, mbind, M_bind.
  destruct ids as [|i ids]; csimpl.
  { split; [done|]. unfold upd. simpl. rewrite (list_fmap_ext _ Datatypes.id).
    2: { intros k r _. simpl. by rewrite andb_false_r. }
    rewrite list_fmap_id. by destruct s. }
  rewrite db_uuid_canonical by done.
  match goal with |- context [tx_update ?p ?f] => destruct (signal_update_refines φ s t p (fun r =>
    bool_decide (sg_tenantId r = tn) && bool_decide (sg_id r ∈ i :: ids) &&
    bool_decide (sg_processedAt r = None) && bool_decide (sg_leaseOwner r = Some o)) f Hrel)
    as (t' & Heq & Hrel'); [|done|] end.
  - intros r Hr. row_cond. rewrite <- (elem_rename φ (sequence s) (sg_id r) (i :: ids)) by
      (apply Hrel || by apply Hs || done). rewrite <- !andb_assoc. do 2 f_equal. apply andb_comm.
  - unfold mbind, M_bind in Heq. cbn beta iota in Heq. rewrite Heq. by split.
Qed.

Lemma list_refines φ env tn ty n s t : signal_inv s -> sig_rel φ s t ->
  canonical tn -> 0 <= n ->
  let a := signal_memory_exec (SList tn ty n) env s in
  let b := signal_postgres_exec (SList tn ty n) env t in
  same_answer φ a.1 b.1 /\ sig_rel φ a.2 b.2.
Proof.
  intros Hs Hrel Ht Hn. simpl.
  unfold PostgresSignals.listUnprocessed, transaction, tx_select, PostgresSignals.sql_limit. msimpl.
  rewrite db_uuid_canonical by done. simpl.
  rewrite (proj2 (Z.ltb_ge n 0)) by done. simpl.
  rewrite (select_sorted φ s t _ (unprocessed tn ty)) by (done || (intros; apply where_unprocessed)).
  rewrite <- fmap_take. rewrite map_rows_ok.
  - simpl. split; [|done]. unfold slice0. by rewrite (proj2 (Z.ltb_ge n 0)).
  - intros r Hr%subseteq_take. apply elem_of_sort_by, elem_of_bfilter in Hr as [_ Hr]. by apply Hs.
Qed.

Lemma count_refines φ env tn u s t : sig_rel φ s t -> canonical tn ->
  let a := signal_memory_exec (SCount tn u) env s in
  let b := signal_postgres_exec (SCount tn u) env t in
  same_answer φ a.1 b.1 /\ sig_rel φ a.2 b.2.
Proof.
  intros Hrel Ht. simpl. unfold PostgresSignals.countSince, transaction, tx_select. msimpl.
  rewrite db_uuid_canonical by done. simpl. split; [|done].
  erewrite (select_rel φ s t _ _ Hrel); [by rewrite length_fmap|].
  intros r _. row_cond. by rewrite holds_some.
Qed.

Definition extend φ (n v : N) : N -> N := fun i => if (i =? n)%N then v else φ i.

Lemma found_external_some p s r : signal_inv s -> found_external p s = Some r ->
  truthy (ip_externalId p) = true /\ r ∈ records s /\
  external_key_of r = (ip_tenantId p, ip_source p, ip_externalId p) /\
  forall x, x ∈ records s -> external_key_of x = external_key_of r -> x = r.
Proof.
  unfold found_external. intros Hs. destruct (truthy _) eqn:Hx; [|done].
  intros [Hr Hk]%find_some. apply list_elem_of_In in Hr. apply same_external_spec in Hk.
  split_and!; [done..|]. intros x Hxr Hkx. apply (si_unique _ Hs r x); try done.
  by injection Hk as _ _ ->.
Qed.

Lemma select_external φ p s t r : sig_rel φ s t -> signal_inv s -> r ∈ records s ->
  truthy (ip_externalId p) = true ->
  external_key_of r = (ip_tenantId p, ip_source p, ip_externalId p) ->
  (forall x, x ∈ records s -> external_key_of x = external_key_of r -> x = r) ->
  select (fun r => holds (sql_all [col_eq (sg_tenantId r) (ip_tenantId p);
     col_eq (sg_source r) (ip_source p); null_eq (sg_externalId r) (ip_externalId p ?: "")])) t =
  [rename φ r].
Proof.
  intros Hrel Hs Hr Htr Hk Hu. apply Permutation_singleton_r.
  erewrite (select_rel φ s t _ (same_external p) Hrel).
  - rewrite (bfilter_key_elem sg_id (records s) r); [done|apply Hs|done|].
    intros x Hx. apply eq_true_iff_eq. rewrite same_external_spec, bool_decide_eq_true, <- Hk.
    split; [by intros ->%Hu|]. intros Hid. by rewrite (nodup_key_inj sg_id (records s) r x) by (done || apply Hs).
  - intros x _. row_cond. unfold same_external. destruct (ip_externalId p); [|done].
    by rewrite andb_assoc.
Qed.

Lemma mapRow_valid r : valid_signal r -> PostgresSignals.mapRow r = Ok r.
Proof. intros Hr. by apply signalSchema_ok. Qed.

Lemma mapRow_zod r e : PostgresSignals.mapRow r = Err e -> e = ZodError.
Proof.
  unfold PostgresSignals.mapRow, signalEventRecordSchema, uuid, min1_text, nonneg_int, refine. msimpl.
  repeat case_match; naive_solver.
Qed.

Lemma postgres_ingest_eq env p t : PostgresSignals.signal_columns p = Ok p ->
  PostgresSignals.ingest env p t =
    let '(rs, t') := insert PostgresSignals.conflicting (new_signal (env_serial env) p (env_now env)) t in
    match rs with
    | row :: _ =>
        match PostgresSignals.mapRow row with
        | Ok e => (Ok (mkIngestResult e false), t')
        | Err x => (Err x, t)
        end
    | [] =>
        match (if truthy (ip_externalId p) then select (fun r => holds (sql_all
            [col_eq (sg_tenantId r) (ip_tenantId p); col_eq (sg_source r) (ip_source p);
             null_eq (sg_externalId r) (ip_externalId p ?: "")])) t' else []) with
        | row :: _ =>
            match PostgresSignals.mapRow row with
            | Ok e => (Ok (mkIngestResult e true), t')
            | Err x => (Err x, t)
            end
        | [] => (Err (JsError "signal_events ingest: insert returned no rows unexpectedly"), t)
        end
    end.
Proof.
  intros Ht. unfold PostgresSignals.ingest, transaction, tx_insert, tx_select. msimpl.
  rewrite Ht. simpl.
  destruct (insert _ _ t) as [[|row rs] t'].
  - destruct (truthy _); [|done]. destruct (select _ t') as [|row rs]; [done|].
    by destruct (PostgresSignals.mapRow row).
  - by destruct (PostgresSignals.mapRow row).
Qed.

Lemma ingest_refines φ env p s t : signal_inv s -> sig_rel φ s t ->
  signal_call_ok (SIngest p) s -> (forall i, (i <= sequence s)%N -> (φ i < env_serial env)%N) ->
  let φ' := extend φ (sequence s + 1) (env_serial env) in
  let a := signal_memory_exec (SIngest p) env s in
  let b := signal_postgres_exec (SIngest p) env t in
  same_answer φ' a.1 b.1 /\ sig_rel φ' a.2 b.2.
Proof.
  intros Hs Hrel (Hc & Hx & Hjs) Hser φ'. pose proof (canonical_uuid _ Hc) as Ht.
  assert (forall i, (i <= sequence s)%N -> φ' i = φ i) as Hφ.
  { intros i Hi. unfold φ', extend. rewrite (proj2 (N.eqb_neq _ _)); [done|lia]. }
  assert (forall r, r ∈ records s -> rename φ' r = rename φ r) as Hren.
  { intros r Hr. unfold rename. by rewrite Hφ by (by apply Hs). }
  assert (rows t ≡ₚ (rename φ' <$> records s)) as Hrows.
  { rewrite (proj2 Hrel). erewrite list_fmap_ext; [reflexivity|].
    intros i r Hr%list_elem_of_lookup_2. by rewrite Hren. }
  assert (monotone φ' (sequence s + 1)) as Hm'.
  { intros i j Hij Hj. unfold φ' at 2, extend. destruct (N.eqb_spec j (sequence s + 1)) as [->|Hne].
    - rewrite Hφ by lia. apply Hser. lia.
    - rewrite Hφ by lia. apply (proj1 Hrel); lia. }
  assert (sig_rel φ' s t) as Hrel' by (split; [intros i j ??; apply Hm'; lia|done]).
  assert (φ' (sequence s + 1)%N = env_serial env) as Hnext by (unfold φ', extend; by rewrite N.eqb_refl).
  clearbody φ'. clear Hφ Hren Hser Hrel φ.
  pose proof (postgres_ingest_eq env p t (signal_columns_ok p Hc Hjs)) as Hpg. clear Hc. set (new := new_signal (env_serial env) p (env_now env)) in *.
  cbn [signal_memory_exec signal_postgres_exec]. unfold mbind, M_bind. rewrite (ingest_eq env p s Hs Ht).
  destruct (found_external p s) as [r|] eqn:Hf.
  - destruct (found_external_some p s r Hs Hf) as (Htr & Hr & Hk & Hu).
    rewrite insert_conflict in Hpg.
    2: { apply existsb_elem. exists (rename φ' r). rewrite Hrows.
         split; [by apply list_elem_of_fmap_2|]. injection Hk as E1 E2 E3.
         unfold PostgresSignals.conflicting. simpl. rewrite E1, E2, E3.
         destruct (ip_externalId p); [|done]. by rewrite !bool_decide_true. }
    rewrite Htr, (select_external φ' p s t r Hrel' Hs Hr Htr Hk Hu) in Hpg. simpl in Hpg.
    rewrite (mapRow_valid (rename φ' r) (si_valid _ Hs r Hr)) in Hpg. by rewrite Hpg.
  - assert (existsb (PostgresSignals.conflicting new) (rows t) = false) as Hc.
    { apply not_true_iff_false. rewrite existsb_elem. intros (y & Hy & Hcf). rewrite Hrows in Hy.
      apply list_elem_of_fmap in Hy as (x & -> & Hxr).
      unfold PostgresSignals.conflicting in Hcf. simpl in Hcf.
      destruct (ip_externalId p) as [e|] eqn:Hext; [|by rewrite andb_false_r in Hcf].
      unfold found_external in Hf. rewrite Hext in Hf.
      assert (truthy (Some e) = true) as Htr by (by destruct e). rewrite Htr in Hf.
      eapply find_none in Hf; [|by apply list_elem_of_In]. b2p. destruct Hcf as [[H1 H2] H3].
      apply not_true_iff_false in Hf. apply Hf, same_external_spec. unfold external_key_of. congruence. }
    destruct (insert_fresh _ _ _ Hc) as [Hi1 Hi2].
    destruct (insert _ new t) as [rs t'] eqn:Hins. simpl in Hi1, Hi2. subst rs. simpl in Hpg.
    destruct (String.eqb_spec (ip_source p) "") as [He|He].
    + destruct (PostgresSignals.mapRow new) as [x|e] eqn:Hmap.
      { apply signalSchema_ok in Hmap as [(_ & Hsrc & _) _]. by simpl in Hsrc. }
      rewrite Hpg, (mapRow_zod _ _ Hmap). by split.
    + rewrite (mapRow_valid new) in Hpg by (split_and!; simpl; done || lia). rewrite Hpg.
      split; [simpl; unfold rename; simpl; by rewrite Hnext|]. split; [done|]. simpl.
      rewrite Hi2, fmap_app, Hrows, Permutation_cons_append. csimpl.
      unfold new, new_signal, rename at 3. simpl. by rewrite Hnext.
Qed.
End refinement.

(** ** Theorems on the in-memory repository *)

Section theorems.
Context `{Z : Zod} {ZL : ZodLaws Z}.
Import InMemorySignals.

(** C33. A claimed signal is exclusive: after a claim returned [r], no later
    claim, by any owner and for any tenant and type, returns that signal
    before the lease expires, whatever other calls happen in between, unless
    the owner itself gives the signal back. *)
Theorem signal_claim_is_exclusive env tn ty limit k s l s' r cs : signal_inv s ->
  claimUnprocessed env tn ty limit k s = (Ok l, s') -> r ∈ l ->
  Forall (fun ce => env_now ce.2 < env_now env + sc_leaseMs k /\
    match ce.1 with SRelease _ ids o => o = sc_owner k -> sg_id r ∉ ids | _ => True end) cs ->
  forall l', Ok (AClaimed l') ∈ (history signal_memory_exec cs s').1 -> sg_id r ∉ signal_ids l'.
Proof.
  intros Hs Hc Hr Hcs. pose proof (claimed_held _ _ _ _ _ _ _ _ _ Hs Hc Hr) as Hh.
  destruct (claim_ok_inv _ _ _ _ _ _ _ _ Hs Hc) as (_ & _ & _ & ->).
  eapply held_history; [|exact Hh|exact Hcs].
  apply signal_inv_update; [by apply keeps_if, leased_keeps|done].
Qed.

(** A claim takes the oldest claimable signals and nothing else: it
    returns at most [limit] signals of the tenant and type, in increasing id
    order, each with the caller's lease and one more attempt; every
    claimable signal left out is younger than all of them, so with room in
    the batch an expired lease is always recovered; and signals outside the
    batch are unchanged. *)
Theorem claim_takes_the_oldest env tn ty limit k s l s' : signal_inv s -> 0 <= limit ->
  claimUnprocessed env tn ty limit k s = (Ok l, s') ->
  BinInt.Z.of_nat (length l) <= limit /\
  StronglySorted (fun a b => sg_id a < sg_id b)%N l /\
  (forall r, r ∈ l -> exists x, x ∈ records s /\ claimable tn ty (env_now env) x = true /\
     r = leased (sc_owner k) (env_now env + sc_leaseMs k) x) /\
  (forall x, x ∈ records s -> claimable tn ty (env_now env) x = true -> sg_id x ∉ signal_ids l ->
     BinInt.Z.of_nat (length l) = limit /\ forall r, r ∈ l -> (sg_id r < sg_id x)%N) /\
  (forall x, x ∈ records s -> sg_id x ∉ signal_ids l -> x ∈ records s').
Proof.
  intros Hs Hlim Hc. destruct (claim_ok_inv _ _ _ _ _ _ _ _ Hs Hc) as (_ & _ & -> & ->).
  set (b := batch tn ty limit (env_now env) s). set (f := leased _ _).
  assert (signal_ids (f <$> b) = signal_ids b) as Hids by (apply keeps_ids, leased_keeps).
  set (q := sort_by by_id (bfilter (claimable tn ty (env_now env)) (records s))).
  assert (b = take (BinInt.Z.to_nat limit) q) as Hb.
  { unfold b, batch, slice0. by rewrite (proj2 (BinInt.Z.ltb_ge _ _)). }
  assert (StronglySorted (fun a b => sg_id a < sg_id b)%N q) as Hsort.
  { apply ids_sorted. apply nodup_signal_ids, Hs. }
  assert (forall x, x ∈ q <-> x ∈ records s /\ claimable tn ty (env_now env) x = true) as Hq.
  { intros x. unfold q. rewrite elem_of_sort_by, elem_of_bfilter. naive_solver. }
  rewrite Hids, length_fmap. split_and!.
  - rewrite Hb, length_take. lia.
  - rewrite Hb, fmap_take. apply StronglySorted_take.
    clear -Hsort. induction Hsort as [|x q Hs IH Hf]; simpl; constructor; [done|].
    apply Forall_fmap. by eapply Forall_impl; [exact Hf|].
  - intros r (x & -> & Hx)%list_elem_of_fmap. exists x.
    apply batch_elem in Hx as [? ?]. done.
  - intros x Hx Hcl Hout. assert (x ∈ q) as Hxq by (by apply Hq).
    rewrite <- (take_drop (BinInt.Z.to_nat limit) q), <- Hb in Hxq, Hsort.
    apply elem_of_app in Hxq as [Hxb|Hxd].
    { exfalso. apply Hout. by apply list_elem_of_fmap_2. }
    split.
    + assert (BinInt.Z.to_nat limit < length q)%nat as Hlt.
      { destruct (decide (BinInt.Z.to_nat limit < length q)%nat) as [|Hge]; [done|].
        rewrite drop_ge in Hxd by lia. by apply not_elem_of_nil in Hxd. }
      rewrite Hb, length_take. lia.
    + intros r (y & -> & Hy)%list_elem_of_fmap. simpl.
      exact (StronglySorted_app_inv _ _ _ y x Hsort Hy Hxd).
  - intros x Hx Hout. simpl. apply list_elem_of_fmap. exists x. split; [|done].
    unfold among. by rewrite bool_decide_false.
Qed.

(** What was ingested under an external id is there to be found again. *)
Lemma ingested_again env env' p s res s' : signal_inv s -> zod_uuid (ip_tenantId p) = true ->
  truthy (ip_externalId p) = true -> ingest env p s = (Ok res, s') ->
  ingest env' p s' = (Ok (mkIngestResult (ir_event res) true), s').
Proof.
  intros Hs Ht Hx Hi.
  pose proof (signal_exec_effect (SIngest p) env s Hs) as [Hs' _]. simpl in Hs'.
  unfold mbind, M_bind in Hs'. rewrite Hi in Hs'. simpl in Hs'.
  rewrite (ingest_eq env p s Hs Ht) in Hi. rewrite (ingest_eq env' p s' Hs' Ht).
  destruct (found_external p s) as [r|] eqn:Hf; [by injection Hi as <- <-; rewrite Hf|].
  cbv zeta in Hi. destruct (String.eqb _ ""); [done|]. injection Hi as <- <-.
  unfold found_external in *. rewrite Hx in *. cbn [records] in *. rewrite find_snoc, Hf.
  by rewrite (proj2 (same_external_spec _ _)).
Qed.

(** Ingestion deduplicates exactly by (tenant, source, external id): a
    non-empty external id already stored under the same tenant and source
    gives back the stored signal, marked as a duplicate, and changes nothing
    (even though the string keys of two different triples may collide);
    otherwise a new signal is stored with the next id and its own fields;
    and no two stored signals ever share a triple. *)
Theorem signal_ingest_deduplicates env p s : signal_inv s -> zod_uuid (ip_tenantId p) = true ->
  ip_source p ≠ "" ->
  (forall r, r ∈ records s -> truthy (ip_externalId p) = true ->
     external_key_of r = (ip_tenantId p, ip_source p, ip_externalId p) ->
     ingest env p s = (Ok (mkIngestResult r true), s)) /\
  ((truthy (ip_externalId p) = true -> forall r, r ∈ records s ->
      external_key_of r ≠ (ip_tenantId p, ip_source p, ip_externalId p)) ->
   exists s', let r := new_signal (sequence s + 1) p (env_now env) in
     ingest env p s = (Ok (mkIngestResult r false), s') /\ records s' = records s ++ [r] /\
     forall r1 r2, r1 ∈ records s' -> r2 ∈ records s' -> truthy (sg_externalId r1) = true ->
       external_key_of r2 = external_key_of r1 -> r2 = r1).
Proof.
  intros Hs Ht Hsrc. pose proof (ingest_eq env p s Hs Ht) as He.
  rewrite (proj2 (String.eqb_neq _ _) Hsrc) in He. split.
  - intros r Hr Hx Hk. rewrite He. unfold found_external in *. rewrite Hx in *.
    destruct (find _ _) as [r'|] eqn:Hf.
    + apply find_some in Hf as [Hr' Hk']. apply list_elem_of_In in Hr'.
      apply same_external_spec in Hk'.
      rewrite (si_unique _ Hs r r'); try done; [|by rewrite Hk].
      by injection Hk as _ _ ->.
    + eapply find_none in Hf; [|by apply list_elem_of_In].
      apply same_external_spec in Hk. congruence.
  - intros Hfresh. pose proof (signal_exec_effect (SIngest p) env s Hs) as [Hs' _].
    simpl in Hs'. unfold mbind, M_bind in Hs'. rewrite He in Hs' |- *.
    assert (found_external p s = None) as Hn.
    { unfold found_external. destruct (truthy _) eqn:Hx; [|done].
      destruct (find _ _) as [r|] eqn:Hf; [|done]. apply find_some in Hf as [Hr Hk].
      apply list_elem_of_In in Hr. apply same_external_spec in Hk. by destruct (Hfresh eq_refl r Hr). }
    rewrite Hn in Hs' |- *. eexists. split_and!; [done|done|]. apply Hs'.
Qed.
End theorems.

Section postgres_theorems.
Context `{Z : Zod} {ZL : ZodLaws Z} {E : SqlEngine} {L : SqlLaws E}.
Import InMemorySignals.

(** C34. The Postgres signal repository refines the in-memory one, one call at a
    time and up to the ids the database hands out: from related states every
    call gives the same answer (errors included; a claim's rows in any order)
    and related states.  The sequence hands out a value above all earlier
    ones; the tenant of every call is a UUID written as the database prints
    it (in lower case); an external id, when given, is not the empty string; a
    payload's keys are in the order [jsonb] keeps; a limit is not negative; and
    marking and releasing name only ids that were handed out. *)
Theorem signals_postgres_refines_memory φ c env s t : signal_inv s -> sig_rel φ s t ->
  signal_call_ok c s -> (forall i, (i <= sequence s)%N -> (φ i < env_serial env)%N) ->
  exists φ', (forall i, (i <= sequence s)%N -> φ' i = φ i) /\
    same_answer φ' (signal_memory_exec c env s).1
      (signal_postgres_exec (rename_call φ c) env t).1 /\
    sig_rel φ' (signal_memory_exec c env s).2 (signal_postgres_exec (rename_call φ c) env t).2 /\
    signal_inv (signal_memory_exec c env s).2.
Proof.
  intros Hs Hrel Hc Hser. destruct (signal_exec_effect c env s Hs) as [Hs' _].
  destruct c as [p|tn ty n|tn ty n k|tn u|tn ids|tn ids o].
  { exists (extend φ (sequence s + 1) (env_serial env)).
    destruct (ingest_refines φ env p s t Hs Hrel Hc Hser). split_and!; try done.
    intros i Hi. unfold extend. by rewrite (proj2 (N.eqb_neq _ _)) by lia. }
  all: exists φ; split; [done|]; apply Logic.and_assoc; split; [|done].
  - by apply list_refines; try apply Hc.
  - by apply signal_claim_refines; try apply Hc.
  - by apply count_refines.
  - by apply mark_refines.
  - by apply release_refines.
Qed.
End postgres_theorems.

(** ** Witnesses *)

Module SignalExample.
Import ZodExample InMemorySignals.

Definition params : IngestSignalParams :=
  mkIngestParams tenant sig_market "rss" (Some "post-1") [].
Definition params2 : IngestSignalParams :=
  mkIngestParams tenant sig_market "rss" (Some "post-2") [].
Definition claim (owner : string) : SignalProcessingClaim := mkSignalClaim owner 60000.
Definition one : State := (signal_memory_exec (SIngest params) env1 init).2.
Definition two : State := (signal_memory_exec (SIngest params2) env2 one).2.
Definition taken : SignalEventRecord := leased "a" 63000 (new_signal 1 params 1000).
Definition claimed_state : State :=
  (signal_memory_exec (SClaim tenant sig_market 1 (claim "a")) env3 two).2.
(** Another replica claims, and releases, what it does not hold. *)
Definition others : list (signal_call * call_env) :=
  [ (SClaim tenant sig_market 10 (claim "b"), env3);
    (SRelease tenant [1%N; 2%N] "b", env3);
    (SClaim tenant sig_market 10 (claim "c"), env3) ].

Lemma one_signal_inv : signal_inv one.
Proof. apply (signal_exec_effect (SIngest params) env1 init), signal_inv_init. Qed.
Lemma two_signal_inv : signal_inv two.
Proof. apply (signal_exec_effect (SIngest params2) env2 one), one_signal_inv. Qed.

Definition row (r : SignalEventRecord) : SignalEventRecord := rename (fun i => i + 6)%N r.
Definition one_table : table (SqlEngine := ListEngine.list_engine) SignalEventRecord :=
  [row (new_signal 1 params 1000)].
End SignalExample.

Section witnesses.
Import ZodExample InMemorySignals SignalExample.

Lemma signal_claim_is_exclusive_witness :
  1%N ∉ signal_ids [leased "b" 63000 (new_signal 2 params2 2000)].
Proof.
  refine (signal_claim_is_exclusive env3 tenant sig_market 1 (claim "a") two [taken]
    claimed_state taken others two_signal_inv _ _ _ _ _).
  - vm_compute. reflexivity.
  - by left.
  - repeat constructor; simpl; try lia; intros [=].
  - vm_compute. left.
Defined.

Lemma claim_takes_the_oldest_witness :
  forall r, r ∈ [taken] -> (sg_id r < 2)%N.
Proof.
  refine (proj2 (proj1 (proj2 (proj2 (proj2 (claim_takes_the_oldest env3 tenant sig_market 1 (claim "a") two
    [taken] claimed_state two_signal_inv _ _)))) (new_signal 2 params2 2000) _ _ _)).
  - lia.
  - vm_compute. reflexivity.
  - right. left.
  - vm_compute. reflexivity.
  - intros [H|H]%elem_of_cons; [discriminate H|inversion H].
Defined.

Lemma signal_ingest_deduplicates_witness :
  ingest env3 params one = (Ok (mkIngestResult (new_signal 1 params 1000) true), one).
Proof.
  refine (proj1 (signal_ingest_deduplicates env3 params one one_signal_inv _ _)
    (new_signal 1 params 1000) _ _ _); try reflexivity; [discriminate|left].
Defined.

Lemma signals_postgres_refines_memory_witness :
  exists φ', φ' 1%N = 7%N /\
    same_answer φ' (signal_memory_exec (SIngest params2) env2 one).1
      (signal_postgres_exec (E := ListEngine.list_engine) (SIngest params2) env2 one_table).1.
Proof.
  destruct (signals_postgres_refines_memory (E := ListEngine.list_engine)
    (L := ListEngine.list_laws) (fun i => i + 6)%N (SIngest params2) env2 one one_table
    one_signal_inv) as (φ' & Hφ & Ha & _).
  - split; [intros i j ??; lia|reflexivity].
  - split; [split; reflexivity|split; [discriminate|reflexivity]].
  - intros i Hi. change (i <= 1)%N in Hi. change (i + 6 < 8)%N. lia.
  - exists φ'. split; [by apply (Hφ 1%N)|exact Ha].
Defined.
End witnesses.
