(* ===== verification/SignalWorker.v ===== *)
(** * The signal router worker

    [apps/worker-signal-router/src/]: [signal-router.ts] classifies a signal
    and announces the routing in the outbox; [signal-ingestion-worker.ts]
    claims signals, routes them, requests the target agent's work through the
    outbox and only then marks them processed.  The grading by a language
    model is the parameter [gradeSignal] ([SignalRoutes.v] gives it),
    and the outbox is any implementation of [OutboxPort]. *)

From S2P Require Import Prelude Numbers JsRuntime Json StableId Domain Zod Sql Outbox ControlPlane Signals.

(** ** Contracts *)

Inductive SignalPriority := P0 | P1 | P2 | P3.
Definition SignalPriority_str (p : SignalPriority) : string :=
  match p with P0 => "P0" | P1 => "P1" | P2 => "P2" | P3 => "P3" end.

Inductive SignalUrgency := urg_low | urg_medium | urg_high.
Definition SignalUrgency_str (u : SignalUrgency) : string :=
  match u with urg_low => "low" | urg_medium => "medium" | urg_high => "high" end.

Record SignalGrade := mkGrade {
  gr_relevance : num;
  gr_urgency : SignalUrgency;
  gr_topicCategory : string;
  gr_actionRecommendations : list string;
}.

Record IncomingSignal := mkIncoming {
  is_tenantId : string;
  is_signalId : string;
  is_dedupeKey : string;
  is_source : string;
  is_kind : string;
  is_payload : jobject;
}.

(** The fields [classifySignal] adds to a signal. *)
Record Classification := mkClass {
  cls_priority : SignalPriority;
  cls_targetAgent : string;
  cls_halfLifeMinutes : Z;
}.

Record RoutedSignal := mkRouted {
  rs_signal : IncomingSignal;
  rs_class : Classification;
  rs_routedAt : Z;
  rs_grade : option SignalGrade;
}.

Section schemas.
Context `{Zod}.

Definition signalGradeSchema (g : SignalGrade) : result SignalGrade :=
  relevance ← unit_number (gr_relevance g);
  topic ← min1_text (gr_topicCategory g);
  mret (mkGrade relevance (gr_urgency g) topic (gr_actionRecommendations g)).

Definition incomingSignalSchema (s : IncomingSignal) : result IncomingSignal :=
  tenantId ← uuid (is_tenantId s);
  signalId ← min1_text (is_signalId s);
  dedupeKey ← min1_text (is_dedupeKey s);
  source ← min1_text (is_source s);
  kind ← min1_text (is_kind s);
  mret (mkIncoming tenantId signalId dedupeKey source kind (is_payload s)).

Definition routedSignalSchema (r : RoutedSignal) : result RoutedSignal :=
  signal ← incomingSignalSchema (rs_signal r);
  targetAgent ← min1_text (cls_targetAgent (rs_class r));
  halfLife ← positive_int (cls_halfLifeMinutes (rs_class r));
  grade ← zod_optional signalGradeSchema (rs_grade r);
  mret (mkRouted signal (mkClass (cls_priority (rs_class r)) targetAgent halfLife)
    (rs_routedAt r) grade).
End schemas.

(** ** Routing *)

Definition classifySignal (signal : IncomingSignal) : Classification :=
  if String.eqb (is_kind signal) "prospect.replied" then mkClass P0 "warm_outbound_researcher" 30
  else if String.eqb (is_kind signal) "competitor.pricing_change" then mkClass P1 "intel_director" 120
  else if String.eqb (is_kind signal) "approval.rejected" then mkClass P2 "learning_director" 1440
  else mkClass P2 "intel_director" 1440.

Definition grade_json (g : SignalGrade) : json :=
  JObj [("relevance", JNum (gr_relevance g)); ("urgency", JStr (SignalUrgency_str (gr_urgency g)));
        ("topic_category", JStr (gr_topicCategory g));
        ("action_recommendations", JArr (JStr <$> gr_actionRecommendations g))].

Definition routed_payload (r : RoutedSignal) : jobject :=
  let signal := rs_signal r in
  [("signal_id", JStr (is_signalId signal)); ("source", JStr (is_source signal));
   ("kind", JStr (is_kind signal)); ("priority", JStr (SignalPriority_str (cls_priority (rs_class r))));
   ("target_agent", JStr (cls_targetAgent (rs_class r)));
   ("half_life_minutes", jint (cls_halfLifeMinutes (rs_class r)));
   ("payload", JObj (is_payload signal)); ("routed_at", JStr (toISOString (rs_routedAt r)))] ++
  match rs_grade r with Some g => [("grade", grade_json g)] | None => [] end.

(** ** Reading a signal's payload *)

(** [typeof value === "object" && value !== null && !Array.isArray(value)] *)
Definition asRecord (v : option json) : jobject :=
  match v with Some (JObj fields) => fields | _ => [] end.

Definition nonEmptyString (v : option json) : option string :=
  match v with
  | Some (JStr s) => if String.eqb (trim s) "" then None else Some (trim s)
  | _ => None
  end.

(** [a ?? b] on a property that may be missing or [null] *)
Definition json_nullish (a b : option json) : option json :=
  match a with None | Some JNull => b | Some _ => a end.

Section reading.
Context `{Zod}.

Definition resolveExperimentId (signal : SignalEventRecord) : option string :=
  let payload := sg_payload signal in
  let metadata := asRecord (mapGet "metadata" payload) in
  let candidate :=
    json_nullish (mapGet "experiment_id" payload)
      (json_nullish (mapGet "experimentId" payload)
        (json_nullish (mapGet "experiment_id" metadata) (mapGet "experimentId" metadata))) in
  match candidate with
  | Some (JStr s) => if zod_uuid s then Some s else None
  | _ => None
  end.
End reading.

Definition resolveSignalKind (signal : SignalEventRecord) : string :=
  let payload := sg_payload signal in
  let metadata := asRecord (mapGet "metadata" payload) in
  nonEmptyString (mapGet "kind" payload) ?:? nonEmptyString (mapGet "event_kind" payload)
    ?:? nonEmptyString (mapGet "kind" metadata)
    ?: ("signal." +:+ SignalType_str (sg_signalType signal)).

Definition asDateString (t : Z) : string := slice 0 10 (toISOString t).

(** ** Downstream commands *)

Section commands.
Context `{Zod} `{Sha256}.

Definition stableRequestId : string -> string := deterministicUuid.

Definition createIntelBriefRequestFromSignal (signal : SignalEventRecord) (routed : RoutedSignal) :
    EnqueueOutboxEvent :=
  let id := string_of_N (sg_id signal) in
  mkEnqueue (sg_tenantId signal) "intel_brief.requested.v1" ("intel-brief-request:" +:+ id)
    ([("schema_version", JStr "intel_brief_requested.v1");
      ("request_id", JStr (stableRequestId (sg_tenantId signal +:+ ":intel-brief:" +:+ id)));
      ("tenant_id", JStr (sg_tenantId signal))] ++
     match resolveExperimentId signal with Some e => [("experiment_id", JStr e)] | None => [] end ++
     [("period_from", JStr (asDateString (sg_createdAt signal)));
      ("period_to", JStr (asDateString (sg_createdAt signal)));
      ("requested_by", JStr "signal_router");
      ("trigger", JObj [("signal_id", JStr id);
        ("signal_type", JStr (SignalType_str (sg_signalType signal)));
        ("source", JStr (sg_source signal)); ("kind", JStr (resolveSignalKind signal));
        ("priority", JStr (SignalPriority_str (cls_priority (rs_class routed))));
        ("payload", JObj (sg_payload signal));
        ("occurred_at", JStr (toISOString (sg_createdAt signal)))])]).

Definition createAgentWorkRequestFromSignal (now : Z) (signal : SignalEventRecord)
    (routed : RoutedSignal) : EnqueueOutboxEvent :=
  let id := string_of_N (sg_id signal) in
  let agent := cls_targetAgent (rs_class routed) in
  mkEnqueue (sg_tenantId signal) "agent.work.requested.v1" ("agent-work:" +:+ agent +:+ ":" +:+ id)
    [("schema_version", JStr "agent_work_requested.v1");
     ("request_id", JStr (stableRequestId (sg_tenantId signal +:+ ":" +:+ agent +:+ ":" +:+ id)));
     ("tenant_id", JStr (sg_tenantId signal)); ("target_agent", JStr agent); ("signal_id", JStr id);
     ("source", JStr (sg_source signal)); ("kind", JStr (resolveSignalKind signal));
     ("priority", JStr (SignalPriority_str (cls_priority (rs_class routed))));
     ("half_life_minutes", jint (cls_halfLifeMinutes (rs_class routed)));
     ("payload", JObj (sg_payload signal)); ("requested_at", JStr (toISOString now))].
End commands.

(** ** The worker *)

(** The inbox and the outbox the worker connects. *)
Record World (O : Type) := mkWorld { w_signals : InMemorySignals.State; w_outbox : O }.
Arguments mkWorld {O} w_signals w_outbox.
Arguments w_signals {O} w.
Arguments w_outbox {O} w.

(** The calls made for one signal: to the outbox for the routing and for the
    request, to the inbox for the mark or the release; any of them can fail. *)
Record signal_env := mkSignalEnv {
  se_route : db_call;
  se_request : db_call;
  se_mark : db_call;
  se_release : db_call;
}.

Record SignalProcessingResult := mkProcessing {
  pr_processedSignalIds : list string;
  pr_failures : list (string * js_error);
}.

Section worker.
Context `{Zod} `{Sha256} {O : Type} `{!OutboxPort O}.
Context (gradeSignal : IncomingSignal -> option SignalGrade).
Context (claimOwner : string) (claimLeaseMs : Z).

Definition on_signals {A} (m : M InMemorySignals.State A) : M (World O) A := fun w =>
  let '(r, s) := m (w_signals w) in (r, mkWorld s (w_outbox w)).
Definition on_outbox {A} (m : M O A) : M (World O) A := fun w =>
  let '(r, o) := m (w_outbox w) in (r, mkWorld (w_signals w) o).

(** [SignalRouter.route]; the grading never throws. *)
Definition route (c : db_call) (input : IncomingSignal) : M (World O) RoutedSignal :=
  signal ← lift (incomingSignalSchema input);
  routed ← lift (routedSignalSchema
    (mkRouted signal (classifySignal signal) (env_now c.1) (gradeSignal signal)));
  faulty c.2 (on_outbox (outbox_enqueue c.1 (mkEnqueue (is_tenantId (rs_signal routed)) "signal.routed.v1"
    (is_dedupeKey (rs_signal routed)) (routed_payload routed))));;
  mret routed.

Definition incoming (signal : SignalEventRecord) : IncomingSignal :=
  let id := string_of_N (sg_id signal) in
  mkIncoming (sg_tenantId signal) id ("signal:" +:+ id) (sg_source signal) (resolveSignalKind signal)
    (sg_payload signal).

Definition downstreamCommand (now : Z) (signal : SignalEventRecord) (routed : RoutedSignal) :
    EnqueueOutboxEvent :=
  if String.eqb (cls_targetAgent (rs_class routed)) "intel_director"
  then createIntelBriefRequestFromSignal signal routed
  else createAgentWorkRequestFromSignal now signal routed.

Definition processSignal (env : signal_env) (signal : SignalEventRecord) : M (World O) unit :=
  routed ← route (se_route env) (incoming signal);
  faulty (se_request env).2 (on_outbox (outbox_enqueue (se_request env).1
    (downstreamCommand (env_now (se_request env).1) signal routed)));;
  faulty (se_mark env).2 (on_signals
    (InMemorySignals.markProcessed (se_mark env).1 (sg_tenantId signal) [sg_id signal])).

(** The body of the inner loop: a signal whose processing throws is released
    and reported. *)
Definition attempt (env : signal_env) (signal : SignalEventRecord) (acc : SignalProcessingResult) :
    M (World O) SignalProcessingResult := fun w =>
  let id := string_of_N (sg_id signal) in
  match processSignal env signal w with
  | (Ok _, w') => (Ok (mkProcessing (pr_processedSignalIds acc ++ [id]) (pr_failures acc)), w')
  | (Err e, w') =>
      (faulty (se_release env).2 (on_signals
         (InMemorySignals.releaseClaims (sg_tenantId signal) [sg_id signal] claimOwner));;
       mret (mkProcessing (pr_processedSignalIds acc) (pr_failures acc ++ [(id, e)]))) w'
  end.

Fixpoint process_batch (envs : N -> signal_env) (signals : list SignalEventRecord)
    (acc : SignalProcessingResult) : M (World O) SignalProcessingResult :=
  match signals with
  | [] => mret acc
  | signal :: rest => acc' ← attempt (envs (sg_id signal)) signal acc; process_batch envs rest acc'
  end.

Definition signalTypeValues : list SignalType :=
  [sig_competitive; sig_community; sig_icp; sig_product; sig_market; sig_internal].

(** [for (const signalType of signalTypeValues)]; [claim_env ty] is the claim
    for that type, [envs id] the calls made for signal [id]. *)
Fixpoint process_types (claim_env : SignalType -> db_call) (envs : N -> signal_env)
    (tenantId : string) (batchSize : Z) (types : list SignalType) (acc : SignalProcessingResult) :
    M (World O) SignalProcessingResult :=
  match types with
  | [] => mret acc
  | ty :: rest =>
      signals ← faulty (claim_env ty).2 (on_signals (InMemorySignals.claimUnprocessed (claim_env ty).1
        tenantId ty batchSize (mkSignalClaim claimOwner claimLeaseMs)));
      acc' ← process_batch envs signals acc;
      process_types claim_env envs tenantId batchSize rest acc'
  end.

Definition processTenant (claim_env : SignalType -> db_call) (envs : N -> signal_env)
    (tenantId : string) (batchSizePerSignalType : Z) : M (World O) SignalProcessingResult :=
  process_types claim_env envs tenantId batchSizePerSignalType signalTypeValues (mkProcessing [] []).
End worker.

(** ** Processing one signal *)

Section lemmas.
Context `{Z : Zod} {ZL : ZodLaws Z} `{Sha256} {O : Type} {P : OutboxPort O} {OS : OutboxStore O P}.
Import InMemorySignals.
Implicit Types (g : IncomingSignal -> option SignalGrade) (r : SignalEventRecord) (o : O).

(** The keys of the two events a signal leads to. *)
Definition route_key r : outbox_key :=
  (sg_tenantId r, "signal.routed.v1", "signal:" +:+ string_of_N (sg_id r)).
Definition target_of r : string := cls_targetAgent (classifySignal (incoming r)).
Definition request_key r : outbox_key :=
  if String.eqb (target_of r) "intel_director"
  then (sg_tenantId r, "intel_brief.requested.v1", "intel-brief-request:" +:+ string_of_N (sg_id r))
  else (sg_tenantId r, "agent.work.requested.v1",
        "agent-work:" +:+ target_of r +:+ ":" +:+ string_of_N (sg_id r)).

(** Both events are in the outbox. *)
Definition announced r o : Prop :=
  is_Some (stored_event o (route_key r)) /\ is_Some (stored_event o (request_key r)).

Lemma announced_grows r o o' : outbox_grows o o' -> announced r o -> announced r o'.
Proof. intros Hg [[a Ha] [b Hb]]. split; [exists a|exists b]; by apply Hg. Qed.

Lemma nonEmptyString_nonempty v s : nonEmptyString v = Some s -> s ≠ "".
Proof.
  destruct v as [[]|]; simpl; try done. destruct (String.eqb_spec (trim s0) "") as [|Hn]; [done|].
  by intros [= <-].
Qed.

Lemma nullish_opt_nonempty (a b : option string) s :
  (forall x, a = Some x -> x ≠ "") -> (forall x, b = Some x -> x ≠ "") -> a ?:? b = Some s -> s ≠ "".
Proof. destruct a; simpl; auto. Qed.

Lemma signal_kind_nonempty r : resolveSignalKind r ≠ "".
Proof.
  unfold resolveSignalKind. set (a := _ ?:? nonEmptyString (mapGet "kind" (asRecord _))).
  assert (forall x, a = Some x -> x ≠ "") as Ha.
  { intros x. apply nullish_opt_nonempty; intros y; [apply nullish_opt_nonempty; intros z|];
      apply nonEmptyString_nonempty. }
  clearbody a. unfold nullish. destruct a as [x|]; [by apply Ha|done].
Qed.

Lemma min1_ok s : s ≠ "" -> min1_text s = Ok s.
Proof. intros Hs. by apply min1_text_ok. Qed.

Lemma incoming_ok r : valid_signal r -> incomingSignalSchema (incoming r) = Ok (incoming r).
Proof.
  intros (Ht & Hs & _). unfold incomingSignalSchema, incoming. msimpl.
  rewrite (proj2 (uuid_ok _ _) (conj Ht eq_refl)).
  by rewrite !min1_ok by (done || apply string_of_N_nonempty || apply signal_kind_nonempty).
Qed.

Lemma classify_ok s : cls_targetAgent (classifySignal s) ≠ "" /\
  0 < cls_halfLifeMinutes (classifySignal s).
Proof. unfold classifySignal. repeat case_match; simpl; split; done || lia. Qed.

(** What the router makes of a valid signal. *)
Lemma routed_result r g now : valid_signal r ->
  routedSignalSchema (mkRouted (incoming r) (classifySignal (incoming r)) now (g (incoming r))) =
    match zod_optional signalGradeSchema (g (incoming r)) with
    | Ok grade => Ok (mkRouted (incoming r) (classifySignal (incoming r)) now grade)
    | Err e => Err e
    end.
Proof.
  intros Hv. unfold routedSignalSchema. msimpl. rewrite (incoming_ok r Hv).
  destruct (classify_ok (incoming r)) as [Ha Hl].
  rewrite (min1_ok _ Ha).
  unfold positive_int. rewrite (proj2 (refine_ok _ _ _) (conj (proj2 (Z.ltb_lt _ _) Hl) eq_refl)).
  destruct (zod_optional _ _); [|done]. by destruct (classifySignal (incoming r)).
Qed.

Lemma downstream_key now r rt : rs_class rt = classifySignal (incoming r) ->
  command_key (downstreamCommand now r rt) = request_key r.
Proof.
  intros Hc. unfold downstreamCommand, request_key, target_of, createIntelBriefRequestFromSignal,
    createAgentWorkRequestFromSignal, command_key. rewrite Hc. by destruct (String.eqb _ _).
Qed.

Lemma downstream_ok now r rt : valid_signal r -> command_ok (downstreamCommand now r rt).
Proof.
  intros (Ht & _). unfold downstreamCommand. destruct (String.eqb _ _); split_and!; try done.
Qed.

(** The error a call ends in, if any. *)
Definition call_error (f : fault) : option js_error :=
  match f with NoFault => None | FailBefore e | FailAfter e => Some e end.

(** Enqueueing through the worker, whether the call fails or not. *)
Lemma enqueue_call_effect (c : db_call) cmd w : store_wf (w_outbox w) -> command_ok cmd ->
  exists o', store_wf o' /\ outbox_grows (w_outbox w) o' /\
    (forall k e, stored_event o' k = Some e -> stored_event (w_outbox w) k = Some e \/ k = command_key cmd) /\
    (is_Some (stored_event (w_outbox w) (command_key cmd)) -> o' = w_outbox w) /\
    match call_error c.2 with
    | None => is_Some (stored_event o' (command_key cmd)) /\
        exists e, faulty c.2 (on_outbox (outbox_enqueue c.1 cmd)) w = (Ok e, mkWorld (w_signals w) o')
    | Some x => faulty c.2 (on_outbox (outbox_enqueue c.1 cmd)) w = (Err x, mkWorld (w_signals w) o')
    end.
Proof.
  intros Hw Hc. destruct (store_enqueue c.1 cmd (w_outbox w) Hw Hc) as (e & o' & He & Hw' & Hk & Hsame).
  destruct c as [env f]. simpl in *.
  assert (outbox_grows (w_outbox w) o') as Hg.
  { intros k x Hx. rewrite Hk. case_bool_decide; [|done]. subst k. by destruct (Hsame _ Hx) as [-> _]. }
  assert (forall k x, stored_event o' k = Some x -> stored_event (w_outbox w) k = Some x \/ k = command_key cmd)
    as Honly.
  { intros k x. rewrite Hk. case_bool_decide; [by right|by left]. }
  assert (is_Some (stored_event (w_outbox w) (command_key cmd)) -> o' = w_outbox w) as Hsm.
  { intros [x Hx]. by destruct (Hsame _ Hx). }
  destruct f as [|x|x]; simpl.
  - exists o'. split_and!; [done..| |].
    + rewrite Hk, bool_decide_true by done. eauto.
    + exists e. unfold on_outbox. by rewrite He.
  - exists (w_outbox w). split_and!; [done|done|by left|done|]. by destruct w.
  - exists o'. split_and!; [done..|]. unfold mbind, M_bind, on_outbox. by rewrite He.
Qed.

(** *** What becomes of the inbox *)

(** The same signal, whatever its lease. *)
Definition same_signal a b : Prop :=
  sg_id a = sg_id b /\ sg_signalType a = sg_signalType b /\ incoming a = incoming b.

Lemma same_signal_keys a b : same_signal a b ->
  sg_tenantId a = sg_tenantId b /\ route_key a = route_key b /\ request_key a = request_key b.
Proof.
  intros (Hi & _ & Hin). assert (sg_tenantId a = sg_tenantId b) as Ht by exact (f_equal is_tenantId Hin).
  split; [done|]. unfold route_key, request_key, target_of. by rewrite Hi, Hin, Ht.
Qed.

Lemma same_signal_announced a b o : same_signal a b -> announced a o -> announced b o.
Proof. intros (_ & H1 & H2)%same_signal_keys. unfold announced. by rewrite H1, H2. Qed.

(** [s'] is [s] with some signals of [Q] touched, none of them reopened. *)
Definition advance (Q : SignalEventRecord -> Prop) s s' : Prop :=
  exists f, s' = with_records s (f <$> records s) /\ keeps f /\ forall r, r ∈ records s ->
    same_signal (f r) r /\ (sg_processedAt r ≠ None -> f r = r) /\ (~ Q r -> f r = r).

Lemma advance_refl Q s : advance Q s s.
Proof. exists Datatypes.id. rewrite list_fmap_id. split_and!; [by destruct s|apply keeps_id|done]. Qed.

Lemma advance_trans Q s1 s2 s3 : advance Q s1 s2 -> advance Q s2 s3 -> advance Q s1 s3.
Proof.
  intros (f & -> & Hf & H1) (g & -> & Hg & H2). exists (fun r => g (f r)). split_and!.
  - unfold with_records. simpl. by rewrite <- list_fmap_compose.
  - intros r. destruct (Hf r) as (? & ? & ?), (Hg (f r)) as (? & ? & ?).
    split_and!; [congruence..|lia].
  - intros r Hr. destruct (H1 r Hr) as ((E1 & E2 & E3) & Hp & Hn).
    destruct (H2 (f r)) as ((E1' & E2' & E3') & Hp' & Hn'); [by apply list_elem_of_fmap_2|].
    split; [split_and!; congruence|]. split.
    + intros Hpr. rewrite (Hp Hpr) in Hp' |- *. by apply Hp'.
    + intros Hq. rewrite (Hn Hq) in Hn' |- *. by apply Hn'.
Qed.

Lemma advance_weaken Q Q' s s' : (forall r, r ∈ records s -> Q r -> Q' r) -> advance Q s s' -> advance Q' s s'.
Proof.
  intros HQ (f & E & Hk & Hf). exists f. split_and!; [done..|]. intros r Hr.
  destruct (Hf r Hr) as (H1 & H2 & H3). split_and!; [done..|]. naive_solver.
Qed.

Lemma advance_inv Q s s' : advance Q s s' -> signal_inv s -> signal_inv s'.
Proof. intros (f & -> & Hf & _). by apply signal_inv_update. Qed.

(** Where a record comes from, and where it goes. *)
Lemma advance_back Q s s' z : advance Q s s' -> z ∈ records s' ->
  exists y, y ∈ records s /\ same_signal z y /\ (sg_processedAt y ≠ None -> z = y) /\ (~ Q y -> z = y).
Proof. intros (f & -> & _ & Hf) (y & -> & Hy)%list_elem_of_fmap. exists y. split; [done|]. by apply Hf. Qed.

Lemma advance_forth Q s s' y : advance Q s s' -> y ∈ records s ->
  exists z, z ∈ records s' /\ same_signal z y /\ (sg_processedAt y ≠ None -> z = y) /\ (~ Q y -> z = y).
Proof.
  intros (f & -> & _ & Hf) Hy. exists (f y). split; [by apply list_elem_of_fmap_2|]. by apply Hf.
Qed.

(** The signal is out of the inbox for good, or can be claimed at once. *)
Definition handled (id : N) s : Prop :=
  forall r, r ∈ records s -> sg_id r = id -> sg_processedAt r ≠ None.
Definition settled (id : N) s : Prop :=
  forall r, r ∈ records s -> sg_id r = id -> sg_processedAt r ≠ None \/ sg_leaseExpiresAt r = None.

Lemma advance_handled Q s s' id : advance Q s s' -> handled id s -> handled id s'.
Proof.
  intros Ha Hh z Hz Hid. destruct (advance_back _ _ _ _ Ha Hz) as (y & Hy & (E & _) & Hp & _).
  pose proof (Hh y Hy ltac:(congruence)) as Hpy. by rewrite (Hp Hpy).
Qed.

Lemma advance_settled Q s s' id : advance Q s s' -> (forall y, y ∈ records s -> sg_id y = id -> ~ Q y) ->
  settled id s -> settled id s'.
Proof.
  intros Ha Hq Hh z Hz Hid. destruct (advance_back _ _ _ _ Ha Hz) as (y & Hy & (E & _) & _ & Hn).
  rewrite (Hn (Hq y Hy ltac:(congruence))). apply Hh; [done|congruence].
Qed.

(** What a claim for another type would take is not affected. *)
Lemma advance_batch ty ty' tn n now s s' : advance (fun r => sg_signalType r = ty) s s' -> ty' ≠ ty ->
  batch tn ty' n now s' = batch tn ty' n now s.
Proof.
  intros (f & -> & Hf & Hp) Hne. unfold batch. do 2 f_equal. simpl.
  assert (forall l, (forall r, r ∈ l -> r ∈ records s) ->
    bfilter (claimable tn ty' now) (f <$> l) = bfilter (claimable tn ty' now) l) as Hl; [|by apply Hl].
  induction l as [|r l IH]; [done|]. intros Hin. csimpl. rewrite !bfilter_cons, IH by set_solver.
  destruct (Hp r) as ((_ & Ht & _) & _ & Hsame); [apply Hin; by left|].
  destruct (decide (sg_signalType r = ty)) as [He|He].
  - assert (forall x, sg_signalType x = ty -> claimable tn ty' now x = false) as Hc.
    { intros x Hx. unfold claimable, unprocessed. rewrite (bool_decide_false (sg_signalType x = ty'))
        by congruence. by rewrite andb_false_r. }
    rewrite !Hc by congruence. done.
  - by rewrite Hsame.
Qed.

(** The copy of a stored signal a claim hands out. *)
Definition copy_of r s : Prop := valid_signal r /\
  (exists z, z ∈ records s /\ sg_id z = sg_id r) /\
  forall z, z ∈ records s -> sg_id z = sg_id r -> same_signal z r.

Lemma copy_advance Q r s s' : advance Q s s' -> copy_of r s -> copy_of r s'.
Proof.
  intros Ha (Hv & (z & Hz & Hid) & Hc). split; [done|]. split.
  - destruct (advance_forth _ _ _ _ Ha Hz) as (z' & Hz' & (E & _) & _). exists z'. split; [done|congruence].
  - intros z' Hz' Hid'. destruct (advance_back _ _ _ _ Ha Hz') as (y & Hy & (E1 & E2 & E3) & _).
    destruct (Hc y Hy ltac:(congruence)) as (F1 & F2 & F3). split_and!; congruence.
Qed.

Lemma mark_advance env r s : copy_of r s ->
  let s' := (markProcessed env (sg_tenantId r) [sg_id r] s).2 in
  advance (fun x => sg_id x = sg_id r) s s' /\ handled (sg_id r) s'.
Proof.
  intros (_ & _ & Hz). simpl. split.
  - eexists. split_and!; [reflexivity|apply keeps_if, processed_keeps|]. intros x Hx. simpl. split_and!.
    + by case_match.
    + intros Hp. by rewrite (bool_decide_false _ Hp), andb_false_r.
    + intros He. rewrite (bool_decide_false (sg_id x ∈ [sg_id r])) by (by intros ?%list_elem_of_singleton).
      by rewrite andb_false_r.
  - intros x (y & -> & Hy)%list_elem_of_fmap. simpl. case_match eqn:Hc; [done|].
    intros Hid. destruct (same_signal_keys _ _ (Hz y Hy Hid)) as [Ht _].
    rewrite (bool_decide_true _ Ht), (bool_decide_true (sg_id y ∈ [sg_id r])) in Hc
      by (by apply list_elem_of_singleton).
    by apply bool_decide_eq_false in Hc.
Qed.

Lemma release_advance owner r s : copy_of r s ->
  let s' := (releaseClaims (sg_tenantId r) [sg_id r] owner s).2 in
  advance (fun x => sg_id x = sg_id r) s s' /\
  ((forall z, z ∈ records s -> sg_id z = sg_id r -> sg_processedAt z ≠ None \/ sg_leaseOwner z = Some owner) ->
   settled (sg_id r) s').
Proof.
  intros (_ & _ & Hz). simpl. split.
  - eexists. split_and!; [reflexivity|apply keeps_if, released_keeps|]. intros x Hx. simpl. split_and!.
    + by case_match.
    + intros Hp. by rewrite (bool_decide_false _ Hp), andb_false_r.
    + intros He. rewrite (bool_decide_false (sg_id x ∈ [sg_id r])) by (by intros ?%list_elem_of_singleton).
      by rewrite !andb_false_r.
  - intros Ho x (y & -> & Hy)%list_elem_of_fmap. simpl. case_match eqn:Hc; [by right|].
    intros Hid. destruct (same_signal_keys _ _ (Hz y Hy Hid)) as [Ht _].
    rewrite (bool_decide_true _ Ht), (bool_decide_true (sg_id y ∈ [sg_id r])) in Hc
      by (by apply list_elem_of_singleton).
    simpl in Hc. apply andb_false_iff in Hc as [Hc|Hc]; apply bool_decide_eq_false in Hc; [by left|].
    destruct (Ho y Hy Hid); [by left|done].
Qed.

(** *** Processing one signal *)

(** The error processing ends in, if any: of the grade's schema, or of the
    first call that fails. *)
Definition outcome g (env : signal_env) r : option js_error :=
  match zod_optional signalGradeSchema (g (incoming r)) with
  | Err e => Some e
  | Ok _ => call_error (se_route env).2 ?:? call_error (se_request env).2 ?:? call_error (se_mark env).2
  end.

Lemma outcome_same g env a b : same_signal a b -> outcome g env a = outcome g env b.
Proof. intros (_ & _ & E). unfold outcome. by rewrite E. Qed.

(** The outbox gets no event but the two of the signal, the request only
    beside the routing. *)
Definition adds r o o' : Prop := forall k e, stored_event o' k = Some e ->
  stored_event o k = Some e \/ k = route_key r \/
  k = request_key r /\ is_Some (stored_event o' (route_key r)).

Record process_effect g env r w w' (res : result unit) : Prop := {
  pe_store : store_wf (w_outbox w');
  pe_grows : outbox_grows (w_outbox w) (w_outbox w');
  pe_adds : adds r (w_outbox w) (w_outbox w');
  pe_again : announced r (w_outbox w) -> w_outbox w' = w_outbox w;
  pe_result : res = match outcome g env r with None => Ok tt | Some e => Err e end;
  pe_inbox : (w_signals w' = w_signals w /\ outcome g env r ≠ None) \/
    (announced r (w_outbox w') /\
     w_signals w' = (markProcessed (se_mark env).1 (sg_tenantId r) [sg_id r] (w_signals w)).2);
}.

Lemma mark_call (c : db_call) tn ids (w : World O) :
  let x := faulty c.2 (on_signals (markProcessed c.1 tn ids)) w in
  x.1 = match call_error c.2 with None => Ok tt | Some e => Err e end /\ w_outbox x.2 = w_outbox w /\
  ((w_signals x.2 = w_signals w /\ call_error c.2 ≠ None) \/
   w_signals x.2 = (markProcessed c.1 tn ids (w_signals w)).2).
Proof. destruct c as [env [|e|e]]; simpl; split_and!; auto. Qed.

Lemma processSignal_effect g env r w : store_wf (w_outbox w) -> valid_signal r ->
  let x := processSignal g env r w in process_effect g env r w x.2 x.1.
Proof.
  intros Hw Hv. unfold processSignal, route. rewrite (incoming_ok r Hv). msimpl.
  rewrite (routed_result r g _ Hv). destruct (zod_optional _ _) as [grade|e] eqn:Hgr.
  2: { simpl. assert (outcome g env r = Some e) as Ho by (unfold outcome; by rewrite Hgr).
       split; rewrite ?Ho; try done; [by left|by left]. }
  assert (outcome g env r = call_error (se_route env).2 ?:? call_error (se_request env).2 ?:?
    call_error (se_mark env).2) as Ho by (unfold outcome; by rewrite Hgr).
  simpl. set (rt := mkRouted _ _ _ grade). set (c1 := mkEnqueue _ _ _ _).
  destruct (enqueue_call_effect (se_route env) c1 w Hw) as (o1 & Hw1 & Hg1 & Ha1 & Hn1 & H1).
  { split_and!; [apply Hv|done|done]. }
  assert (command_key c1 = route_key r) as Hk1 by done. rewrite Hk1 in *.
  destruct (call_error (se_route env).2) as [x|] eqn:E1.
  { rewrite H1. split; simpl; try done.
    - intros k y Hy. destruct (Ha1 k y Hy) as [?| ->]; [by left|by right; left].
    - intros [? _]. by apply Hn1.
    - by rewrite Ho.
    - left. split; [done|]. by rewrite Ho. }
  destruct H1 as (Hs1 & e1 & ->). set (c2 := downstreamCommand _ r rt).
  destruct (enqueue_call_effect (se_request env) c2 (mkWorld (w_signals w) o1) Hw1)
    as (o2 & Hw2 & Hg2 & Ha2 & Hn2 & H2); [by apply downstream_ok|].
  assert (command_key c2 = request_key r) as Hk2 by (by apply downstream_key). rewrite Hk2 in *. simpl in *.
  assert (adds r (w_outbox w) o2) as Hadds.
  { intros k y Hy. destruct (Ha2 k y Hy) as [Hy1| ->].
    - destruct (Ha1 k y Hy1) as [?| ->]; [by left|by right; left].
    - right. right. split; [done|]. destruct Hs1 as [z Hz]. exists z. by apply Hg2. }
  assert (announced r (w_outbox w) -> o2 = w_outbox w) as Hagain.
  { intros [A1 A2]. rewrite (Hn1 A1) in Hn2. by rewrite Hn2. }
  assert (outbox_grows (w_outbox w) o2) as Hg by (by etrans).
  destruct (call_error (se_request env).2) as [x|] eqn:E2.
  { rewrite H2. split; simpl; try done; [by rewrite Ho|]. left. split; [done|]. by rewrite Ho. }
  destruct H2 as (Hs2 & e2 & ->).
  destruct (mark_call (se_mark env) (sg_tenantId r) [sg_id r] (mkWorld (w_signals w) o2)) as (M1 & M2 & M3).
  set (x := faulty _ _ _) in *. simpl in M2, M3. split; rewrite ?M2; try done.
  - by rewrite M1, Ho.
  - destruct M3 as [[M3 M4]|M3]; [left; split; [done|by rewrite Ho]|right].
    split; [|done]. split; [|done]. destruct Hs1 as [z Hz]. exists z. by apply Hg2.
Qed.

(** ** A pass over the inbox *)

(** Inbox and outbox are in order, and every processed signal is announced. *)
Record worker_inv w : Prop := {
  wi_inbox : signal_inv (w_signals w);
  wi_outbox : store_wf (w_outbox w);
  wi_announced r : r ∈ records (w_signals w) -> sg_processedAt r ≠ None -> announced r (w_outbox w);
}.

(** The worker inbox moves on, the outbox grows by events of its signals. *)
Record progress (Q : SignalEventRecord -> Prop) w w' : Prop := {
  pg_inv : worker_inv w';
  pg_inbox : advance Q (w_signals w) (w_signals w');
  pg_grows : outbox_grows (w_outbox w) (w_outbox w');
  pg_adds k e : stored_event (w_outbox w') k = Some e -> stored_event (w_outbox w) k = Some e \/
    exists r, r ∈ records (w_signals w') /\ (k = route_key r \/
      k = request_key r /\ is_Some (stored_event (w_outbox w') (route_key r)));
}.

Lemma progress_refl Q w : worker_inv w -> progress Q w w.
Proof. intros Hw. split; [done|apply advance_refl|done|by left]. Qed.

Lemma progress_trans Q w1 w2 w3 : progress Q w1 w2 -> progress Q w2 w3 -> progress Q w1 w3.
Proof.
  intros [_ A1 G1 N1] [I2 A2 G2 N2]. split; [done|by eapply advance_trans|by etrans|].
  intros k e He. destruct (N2 k e He) as [He2|?]; [|by right]. destruct (N1 k e He2) as [?|(r & Hr & Hk)]; [by left|].
  right. destruct (advance_forth _ _ _ _ A2 Hr) as (z & Hz & Hs & _). exists z. split; [done|].
  apply same_signal_keys in Hs as (_ & -> & ->). destruct Hk as [?|[? [x Hx]]]; [by left|].
  right. split; [done|]. exists x. by apply G2.
Qed.

Lemma progress_weaken Q Q' w w' : (forall r, r ∈ records (w_signals w) -> Q r -> Q' r) ->
  progress Q w w' -> progress Q' w w'.
Proof. intros HQ [? ? ? ?]. split; [done|by eapply advance_weaken|done|done]. Qed.

(** Marks and leases keep the invariant: only announced signals become
    processed. *)
Lemma worker_inv_advance Q w s' : worker_inv w -> advance Q (w_signals w) s' ->
  (forall r, r ∈ records s' -> sg_processedAt r ≠ None ->
     (exists y, y ∈ records (w_signals w) /\ same_signal r y /\ sg_processedAt y ≠ None) \/
     announced r (w_outbox w)) ->
  worker_inv (mkWorld s' (w_outbox w)).
Proof.
  intros [H1 H2 H3] Ha Hp. split; [by eapply advance_inv|done|]. simpl. intros r Hr Hpr.
  destruct (Hp r Hr Hpr) as [(y & Hy & (E1 & E2 & E3) & Hpy)|?]; [|done].
  eapply same_signal_announced; [|by apply (H3 y)]. by split_and!.
Qed.

Definition report_one g env r (acc : SignalProcessingResult) : SignalProcessingResult :=
  let id := string_of_N (sg_id r) in
  match outcome g env r with
  | None => mkProcessing (pr_processedSignalIds acc ++ [id]) (pr_failures acc)
  | Some e => mkProcessing (pr_processedSignalIds acc) (pr_failures acc ++ [(id, e)])
  end.

Lemma release_call (c : db_call) owner tn ids (w : World O) :
  let x := faulty c.2 (on_signals (releaseClaims tn ids owner)) w in
  x.1 = match call_error c.2 with None => Ok tt | Some e => Err e end /\ w_outbox x.2 = w_outbox w /\
  (w_signals x.2 = w_signals w \/ w_signals x.2 = (releaseClaims tn ids owner (w_signals w)).2) /\
  (call_error c.2 = None -> w_signals x.2 = (releaseClaims tn ids owner (w_signals w)).2).
Proof. destruct c as [env [|e|e]]; simpl; split_and!; auto; done. Qed.

Lemma processSignal_progress g env r w : worker_inv w -> copy_of r (w_signals w) ->
  let x := processSignal g env r w in
  progress (fun x => sg_id x = sg_id r) w x.2 /\
  (handled (sg_id r) (w_signals x.2) /\ announced r (w_outbox x.2) \/
   w_signals x.2 = w_signals w /\ outcome g env r ≠ None).
Proof.
  intros Hw Hc x. destruct (processSignal_effect g env r w (wi_outbox _ Hw) (proj1 Hc)) as [S1 G1 A1 _ _ I1].
  fold x in S1, G1, A1, I1. destruct x as [res [s' o']]. simpl in *.
  assert (worker_inv (mkWorld (w_signals w) o')) as Hw0.
  { split; [apply Hw|done|]. intros z Hz Hp. eapply announced_grows; [exact G1|by apply (wi_announced _ Hw)]. }
  assert (forall s2, advance (fun x => sg_id x = sg_id r) (w_signals w) s2 -> forall k e,
    stored_event o' k = Some e -> stored_event (w_outbox w) k = Some e \/
    exists z, z ∈ records s2 /\ (k = route_key z \/ k = request_key z /\ is_Some (stored_event o' (route_key z))))
    as Hnew.
  { intros s2 Hs2 k e He. destruct (A1 k e He) as [?|Hk]; [by left|]. right.
    destruct (copy_advance _ _ _ _ Hs2 Hc) as (_ & (z & Hz & Hid) & Hsame). exists z. split; [done|].
    destruct (same_signal_keys _ _ (Hsame z Hz Hid)) as (_ & -> & ->). done. }
  destruct I1 as [[-> Ho]|[Han ->]].
  - split; [|by right]. split; [done|apply advance_refl|done|]. apply Hnew, advance_refl.
  - destruct (mark_advance (se_mark env).1 r (w_signals w) Hc) as [Had Hh]. split; [|by left].
    split; [|done|done|by apply Hnew]. apply (worker_inv_advance _ _ _ Hw0 Had). intros z Hz Hp. simpl in *.
    destruct (decide (sg_id z = sg_id r)) as [Hid|Hid].
    + right. destruct (copy_advance _ _ _ _ Had Hc) as (_ & _ & Hsame).
      eapply same_signal_announced; [|exact Han]. destruct (Hsame z Hz Hid) as (E1 & E2 & E3). by split_and!.
    + left. destruct (advance_back _ _ _ _ Had Hz) as (y & Hy & Hs & _ & Hn). exists y. split_and!; [done..|].
      rewrite <- Hn; [done|]. destruct Hs as [E _]. congruence.
Qed.

(** One signal of a batch, whatever fails. *)
Lemma attempt_effect g owner env r acc w : worker_inv w -> copy_of r (w_signals w) ->
  let x := attempt g owner env r acc w in
  progress (fun x => sg_id x = sg_id r) w x.2 /\
  x.1 = match outcome g env r with
        | None => Ok (report_one g env r acc)
        | Some _ => match call_error (se_release env).2 with
                    | None => Ok (report_one g env r acc)
                    | Some e => Err e
                    end
        end /\
  (outcome g env r = None -> handled (sg_id r) (w_signals x.2) /\ announced r (w_outbox x.2)) /\
  ((forall z, z ∈ records (w_signals w) -> sg_id z = sg_id r -> sg_leaseOwner z = Some owner) ->
   call_error (se_release env).2 = None -> settled (sg_id r) (w_signals x.2)).
Proof.
  intros Hw Hc. unfold attempt, report_one.
  destruct (processSignal_progress g env r w Hw Hc) as [Hp Hcase].
  pose proof (pe_result _ _ _ _ _ _ (processSignal_effect g env r w (wi_outbox _ Hw) (proj1 Hc))) as Hres.
  destruct (processSignal g env r w) as [res w1]. simpl in Hp, Hcase, Hres. subst res.
  destruct (outcome g env r) as [e|] eqn:Ho.
  2: { destruct Hcase as [[Hh Han]|[_ ?]]; [|done]. cbv zeta. cbn [fst snd]. split_and!; [done..|].
       intros _ _ z Hz Hid. left. by apply Hh. }
  assert (copy_of r (w_signals w1)) as Hc1 by (eapply copy_advance; [apply Hp|done]).
  unfold mbind, M_bind.
  destruct (release_call (se_release env) owner (sg_tenantId r) [sg_id r] w1) as (R1 & R2 & R3 & R4).
  destruct (release_advance owner r (w_signals w1) Hc1) as [Had Hset].
  set (y := faulty _ _ _) in *. destruct y as [ry wy]. cbn [fst snd] in *.
  assert (progress (fun x => sg_id x = sg_id r) w1 wy) as Hp1.
  { destruct wy as [sy oy]. simpl in *. subst oy.
    assert (advance (fun x => sg_id x = sg_id r) (w_signals w1) sy) as Hady
      by (destruct R3 as [-> | ->]; [apply advance_refl|done]).
    split; [|done|done|by left]. apply (worker_inv_advance (fun x => sg_id x = sg_id r)); [apply Hp|done|].
    intros z Hz Hpz. left. destruct (advance_back _ _ _ _ Hady Hz) as (v & Hv & Hs & _ & _). exists v.
    split_and!; [done..|]. destruct R3 as [-> | ->].
    - intros Hnone. destruct (nodup_key_inj sg_id (records (w_signals w1)) v z) as []; try done.
      + apply (wi_inbox _ (pg_inv _ _ _ Hp)).
      + by destruct Hs.
    - apply list_elem_of_fmap in Hz as (u & -> & Hu). assert (sg_processedAt u ≠ None) as Hpu.
      { revert Hpz. by case_match. }
      assert (sg_id u = sg_id v) as Hid.
      { destruct Hs as [E _]. rewrite <- E. by case_match. }
      destruct (nodup_key_inj sg_id (records (w_signals w1)) u v) as []; try done.
      apply (wi_inbox _ (pg_inv _ _ _ Hp)). }
  assert (progress (fun x => sg_id x = sg_id r) w wy) as Hpw by (by eapply progress_trans).
  subst ry. destruct (call_error (se_release env).2) as [e'|] eqn:Er; cbn [fst snd]; split_and!; try done.
  intros Hown _. cbn [mret M_ret snd]. rewrite R4 by done. apply Hset. intros z Hz Hid.
  destruct Hcase as [[Hh _]|[Hsame _]]; [left; by apply Hh|right]. rewrite Hsame in Hz. by apply Hown.
Qed.

(** What has been reported as processed is. *)
Definition reported (acc : SignalProcessingResult) (w : World O) : Prop := forall t, t ∈ pr_processedSignalIds acc ->
  exists r, r ∈ records (w_signals w) /\ t = string_of_N (sg_id r) /\ sg_processedAt r ≠ None.

Lemma reported_progress Q acc w w' : progress Q w w' -> reported acc w -> reported acc w'.
Proof.
  intros Hp Hr t Ht. destruct (Hr t Ht) as (r & Hin & -> & Hpr).
  destruct (advance_forth _ _ _ _ (pg_inbox _ _ _ Hp) Hin) as (z & Hz & _ & Hsame & _).
  exists z. by rewrite (Hsame Hpr) in *.
Qed.

Lemma process_batch_safe g owner envs l acc w : worker_inv w -> (forall r, r ∈ l -> copy_of r (w_signals w)) ->
  reported acc w ->
  let x := process_batch g owner envs l acc w in
  progress (fun _ => True) w x.2 /\ forall acc', x.1 = Ok acc' -> reported acc' x.2.
Proof.
  revert acc w. induction l as [|r l IH]; intros acc w Hw Hl Hr.
  { split; [by apply progress_refl|by intros acc' [= <-]]. }
  simpl. unfold mbind, M_bind.
  destruct (attempt_effect g owner (envs (sg_id r)) r acc w Hw) as (Hp & Hres & Hdone & _); [apply Hl; by left|].
  destruct (attempt g owner (envs (sg_id r)) r acc w) as [res w1]. cbn [fst snd] in *.
  assert (progress (fun _ => True) w w1) as Hp' by (by eapply progress_weaken; [|exact Hp]).
  destruct res as [acc1|e]; [|by split].
  assert (reported acc1 w1) as Hr1.
  { pose proof (reported_progress _ _ _ _ Hp Hr) as Hr1. assert (acc1 = report_one g (envs (sg_id r)) r acc) as ->.
    { revert Hres. destruct (outcome _ _ _); [destruct (call_error _)|]; by intros [= ->]. }
    unfold report_one. destruct (outcome _ _ _) as [e|]; [done|]. intros t. simpl.
    intros [Ht|Ht%list_elem_of_singleton]%elem_of_app; [by apply Hr1|]. subst t. destruct (Hdone eq_refl) as [Hh _].
    destruct (copy_advance _ _ _ _ (pg_inbox _ _ _ Hp) (Hl r ltac:(by left))) as (_ & (z & Hz & Hid) & _).
    exists z. split_and!; [done|by rewrite Hid|by apply Hh]. }
  destruct (IH acc1 w1 (pg_inv _ _ _ Hp)) as [Hp2 Hr2].
  - intros y Hy. eapply copy_advance; [apply Hp|apply Hl; by right].
  - done.
  - split; [by eapply progress_trans|done].
Qed.

(** A claim that goes through hands out copies of what it leases. *)
Lemma claim_batch env tn ty n owner leaseMs (w : World O) : worker_inv w -> zod_uuid tn = true ->
  signalProcessingClaimSchema (mkSignalClaim owner leaseMs) = Ok (mkSignalClaim owner leaseMs) ->
  let x := on_signals (O := O) (claimUnprocessed env tn ty n (mkSignalClaim owner leaseMs)) w in
  let l := leased owner (env_now env + leaseMs) <$> batch tn ty n (env_now env) (w_signals w) in
  x.1 = Ok l /\ progress (fun r => sg_signalType r = ty) w x.2 /\
  forall r, r ∈ l -> copy_of r (w_signals x.2) /\ sg_signalType r = ty /\
    forall z, z ∈ records (w_signals x.2) -> sg_id z = sg_id r -> sg_leaseOwner z = Some owner.
Proof.
  intros Hw Ht Hcl. pose proof (wi_inbox _ Hw) as Hs. unfold on_signals.
  rewrite (claim_eq env tn ty n _ _ Hs Ht Hcl). cbv zeta. cbn [fst snd sc_owner sc_leaseMs w_signals].
  set (b := batch tn ty n (env_now env) (w_signals w)). set (t := env_now env + leaseMs).
  assert (forall r, r ∈ b -> r ∈ records (w_signals w) /\ sg_signalType r = ty /\ sg_processedAt r = None) as Hb.
  { intros r [Hr Hc]%batch_elem. unfold claimable, unprocessed in Hc. b2p. tauto. }
  assert (forall r, r ∈ records (w_signals w) -> among b r = true -> r ∈ b) as Ham.
  { intros r Hr (x & Hx & Hxb)%bool_decide_eq_true%list_elem_of_fmap.
    rewrite <- (nodup_key_inj sg_id (records (w_signals w)) r x); try done; [apply Hs|].
    by apply Hb in Hxb as [? _]. }
  set (f := fun r => if among b r then leased owner t r else r).
  assert (advance (fun r => sg_signalType r = ty) (w_signals w) (with_records (w_signals w) (f <$> records (w_signals w))))
    as Had.
  { exists f. split_and!; [reflexivity|apply keeps_if, leased_keeps|]. intros r Hr. unfold f.
    destruct (among b r) eqn:Hbr; [|done]. destruct (Hb r (Ham r Hr Hbr)) as (_ & Hty & Hp). by split_and!. }
  split_and!; [done|split; [|done|done|by left]|].
  - apply (worker_inv_advance _ _ _ Hw Had). intros r (y & -> & Hy)%list_elem_of_fmap Hp. left. exists y.
    unfold f in *. split_and!; [done| |]; by destruct (among b y).
  - intros r (x & -> & Hx)%list_elem_of_fmap. destruct (Hb x Hx) as (Hxr & Hty & _).
    assert (f x = leased owner t x) as Hfx.
    { unfold f, among. by rewrite (bool_decide_true (sg_id x ∈ signal_ids b)) by (by apply list_elem_of_fmap_2). }
    assert (forall z, z ∈ f <$> records (w_signals w) -> sg_id z = sg_id (leased owner t x) -> z = leased owner t x)
      as Hone.
    { intros z (y & -> & Hy)%list_elem_of_fmap Hid.
      assert (sg_id y = sg_id x) as Hyx by (revert Hid; unfold f; by destruct (among _ y)).
      assert (y = x) as -> by (by apply (nodup_key_inj sg_id (records (w_signals w)) x y); [apply Hs|..]). done. }
    split_and!; [split_and!|done|].
    + by apply leased_valid, Hs.
    + exists (f x). split; [by apply list_elem_of_fmap_2|by rewrite Hfx].
    + intros z Hz Hid. by rewrite (Hone z Hz Hid).
    + intros z Hz Hid. by rewrite (Hone z Hz Hid).
Qed.

(** A claim hands out copies, or leaves the inbox as it is. *)
Lemma claim_safe (c : db_call) tn ty n owner leaseMs (w : World O) : worker_inv w ->
  let x := faulty c.2 (on_signals (O := O) (claimUnprocessed c.1 tn ty n (mkSignalClaim owner leaseMs))) w in
  progress (fun r => sg_signalType r = ty) w x.2 /\
  forall l, x.1 = Ok l -> forall r, r ∈ l -> copy_of r (w_signals x.2).
Proof.
  intros Hw. set (m := on_signals _).
  enough (progress (fun r => sg_signalType r = ty) w (m w).2 /\
    forall l, (m w).1 = Ok l -> forall r, r ∈ l -> copy_of r (w_signals (m w).2)) as [H1 H2].
  { destruct c as [env [|e|e]]; simpl.
    - done.
    - split; [by apply progress_refl|done].
    - unfold mbind, M_bind. destruct (m w) as [[l|x] w1]; by split. }
  destruct (zod_uuid tn) eqn:Ht.
  2: { unfold m, on_signals, claimUnprocessed. msimpl. destruct (tenantIdSchema tn) as [t|x] eqn:E.
       { apply tenantIdSchema_ok in E as [? _]. congruence. }
       destruct w. simpl. split; [by apply progress_refl|done]. }
  destruct (signalProcessingClaimSchema (mkSignalClaim owner leaseMs)) as [cl|x] eqn:Hcl.
  2: { unfold m, on_signals, claimUnprocessed. msimpl.
       rewrite (proj2 (tenantIdSchema_ok _ _) (conj Ht eq_refl)), Hcl.
       destruct w. simpl. split; [by apply progress_refl|done]. }
  apply claimSchema_ok in Hcl as Heq. destruct Heq as [-> _].
  destruct (claim_batch c.1 tn ty n owner leaseMs w Hw Ht Hcl) as (E & Hp & Hl). fold m in E, Hp, Hl.
  split; [done|]. intros l. rewrite E. intros [= <-] r Hr. by apply Hl.
Qed.

Lemma process_types_safe g owner leaseMs claim_env envs tn n types acc w : worker_inv w -> reported acc w ->
  let x := process_types g owner leaseMs claim_env envs tn n types acc w in
  progress (fun _ => True) w x.2 /\ forall acc', x.1 = Ok acc' -> reported acc' x.2.
Proof.
  revert acc w. induction types as [|ty types IH]; intros acc w Hw Hr.
  { split; [by apply progress_refl|by intros acc' [= <-]]. }
  simpl. unfold mbind, M_bind.
  destruct (claim_safe (claim_env ty) tn ty n owner leaseMs w Hw) as [Hp Hl].
  destruct (faulty _ _ w) as [[l|e] w1]; cbn [fst snd] in *;
    assert (progress (fun _ => True) w w1) as Hp' by (by eapply progress_weaken; [|exact Hp]); [|by split].
  destruct (process_batch_safe g owner envs l acc w1 (pg_inv _ _ _ Hp) (Hl l eq_refl)) as [Hp2 Hr2].
  { by eapply reported_progress. }
  destruct (process_batch g owner envs l acc w1) as [[acc2|e] w2]; cbn [fst snd] in *;
    [|split; [by eapply progress_trans|done]].
  destruct (IH acc2 w2 (pg_inv _ _ _ Hp2) (Hr2 _ eq_refl)) as [Hp3 Hr3].
  split; [|done]. eapply progress_trans; [exact Hp'|]. by eapply progress_trans.
Qed.

(** *** A pass in which neither a claim nor a release fails *)

Definition ids_text (l : list SignalEventRecord) : list string := (fun r => string_of_N (sg_id r)) <$> l.

(** What is reported of the signals [l]. *)
Definition processes g (envs : N -> signal_env) r : bool := bool_decide (outcome g (envs (sg_id r)) r = None).
Definition failures_of g (envs : N -> signal_env) (l : list SignalEventRecord) : list (string * js_error) :=
  omap (fun r => (fun e => (string_of_N (sg_id r), e)) <$> outcome g (envs (sg_id r)) r) l.
Definition report g envs l (acc : SignalProcessingResult) : SignalProcessingResult :=
  mkProcessing (pr_processedSignalIds acc ++ ids_text (bfilter (processes g envs) l))
    (pr_failures acc ++ failures_of g envs l).
Arguments report : simpl never.

Lemma report_cons g envs r l acc :
  report g envs (r :: l) acc = report g envs l (report_one g (envs (sg_id r)) r acc).
Proof.
  unfold report, report_one, processes, failures_of. rewrite bfilter_cons. simpl.
  destruct (outcome _ _ r) as [e|]; simpl; by rewrite <- app_assoc.
Qed.

Lemma report_app g envs l1 l2 acc : report g envs (l1 ++ l2) acc = report g envs l2 (report g envs l1 acc).
Proof.
  revert acc. induction l1 as [|r l1 IH]; intros acc.
  - unfold report, failures_of, ids_text. simpl. by rewrite !app_nil_r.
  - csimpl. by rewrite !report_cons, IH.
Qed.

Lemma report_leased g envs owner t l acc : report g envs (leased owner t <$> l) acc = report g envs l acc.
Proof.
  revert acc. induction l as [|r l IH]; intros acc; [done|]. csimpl. by rewrite !report_cons, IH.
Qed.

(** What is known of the claimed signals after the pass. *)
Definition dealt_with g (envs : N -> signal_env) r (w : World O) : Prop :=
  settled (sg_id r) (w_signals w) /\
  (outcome g (envs (sg_id r)) r = None -> handled (sg_id r) (w_signals w) /\ announced r (w_outbox w)).

Lemma dealt_with_progress Q g envs r (w w' : World O) : progress Q w w' ->
  (forall y, y ∈ records (w_signals w) -> sg_id y = sg_id r -> ~ Q y) ->
  dealt_with g envs r w -> dealt_with g envs r w'.
Proof.
  intros Hp Hq [Hs Hd]. split; [by eapply advance_settled; [apply Hp|..]|]. intros [Hh Ha]%Hd.
  split; [by eapply advance_handled; [apply Hp|]|]. eapply announced_grows; [apply Hp|done].
Qed.

Section pass.
Context g (owner : string) (leaseMs : BinNums.Z) (claim_env : SignalType -> db_call) (envs : N -> signal_env).
Hypothesis Hclaim :
  signalProcessingClaimSchema (mkSignalClaim owner leaseMs) = Ok (mkSignalClaim owner leaseMs).
Hypothesis Hclaims : forall ty, (claim_env ty).2 = NoFault.
Hypothesis Hreleases : forall id, (se_release (envs id)).2 = NoFault.

Lemma process_batch_ok l acc (w : World O) : worker_inv w -> NoDup (signal_ids l) ->
  (forall r, r ∈ l -> copy_of r (w_signals w) /\
     forall z, z ∈ records (w_signals w) -> sg_id z = sg_id r -> sg_leaseOwner z = Some owner) ->
  let x := process_batch g owner envs l acc w in
  x.1 = Ok (report g envs l acc) /\ progress (fun y => sg_id y ∈ signal_ids l) w x.2 /\
  forall r, r ∈ l -> dealt_with g envs r x.2.
Proof.
  revert acc w. induction l as [|r l IH]; intros acc w Hw Hd Hl.
  { split_and!; [|by apply progress_refl|by intros r ?%elem_of_nil]. unfold report, failures_of.
    simpl. rewrite !app_nil_r. by destruct acc. }
  simpl. unfold mbind, M_bind. rewrite report_cons. apply NoDup_cons in Hd as [Hr Hd].
  destruct (Hl r ltac:(by left)) as [Hcr Hown].
  destruct (attempt_effect g owner (envs (sg_id r)) r acc w Hw Hcr) as (Hp & Hres & Hdone & Hset).
  rewrite Hreleases in Hres, Hset. specialize (Hset Hown eq_refl).
  destruct (attempt g owner (envs (sg_id r)) r acc w) as [res w1]. cbn [fst snd call_error] in *.
  assert (res = Ok (report_one g (envs (sg_id r)) r acc)) as -> by (rewrite Hres; by destruct (outcome _ _ _)).
  destruct (IH (report_one g (envs (sg_id r)) r acc) w1 (pg_inv _ _ _ Hp) Hd) as (E & Hp2 & Hall).
  { intros y Hy. destruct (Hl y ltac:(by right)) as [Hcy Hoy]. split; [by eapply copy_advance; [apply Hp|]|].
    intros z Hz Hid. destruct (advance_back _ _ _ _ (pg_inbox _ _ _ Hp) Hz) as (v & Hv & (Ev & _) & _ & Hn).
    rewrite Hn; [apply Hoy; [done|congruence]|]. intros Hvr. apply Hr. rewrite <- Hvr, <- Ev, Hid.
    by apply list_elem_of_fmap_2. }
  split_and!; [done| |].
  - eapply progress_trans; [eapply progress_weaken; [|exact Hp]|eapply progress_weaken; [|exact Hp2]];
      intros y _ Hy; [rewrite Hy; by left|by right].
  - intros y [->|Hy]%elem_of_cons; [|by apply Hall]. eapply dealt_with_progress; [exact Hp2| |by split].
    intros z _ Hid Hin. apply Hr. by rewrite <- Hid.
Qed.

(** The signals a pass claims, type by type. *)
Definition claims_of (now : SignalType -> BinNums.Z) tn n (types : list SignalType) s : list SignalEventRecord :=
  concat ((fun ty => batch tn ty n (now ty) s) <$> types).

Lemma process_types_ok tn n types acc (w : World O) : worker_inv w -> zod_uuid tn = true -> NoDup types ->
  let x := process_types g owner leaseMs claim_env envs tn n types acc w in
  let l := claims_of (fun ty => env_now (claim_env ty).1) tn n types (w_signals w) in
  x.1 = Ok (report g envs l acc) /\ progress (fun y => sg_signalType y ∈ types) w x.2 /\
  forall r, r ∈ l -> dealt_with g envs r x.2.
Proof.
  intros Hw Ht. revert acc w Hw. induction types as [|ty types IH]; intros acc w Hw Hd.
  { split_and!; [|by apply progress_refl|by intros r ?%elem_of_nil]. unfold report, failures_of.
    simpl. rewrite !app_nil_r. by destruct acc. }
  apply NoDup_cons in Hd as [Hty Hd]. simpl. unfold mbind, M_bind, claims_of. csimpl.
  fold (claims_of (fun ty => env_now (claim_env ty).1) tn n types (w_signals w)).
  rewrite Hclaims. cbn [faulty]. set (env := (claim_env ty).1) in *.
  destruct (claim_batch env tn ty n owner leaseMs w Hw Ht Hclaim) as (E & Hp & Hl).
  pose proof (batch_nodup tn ty n (env_now env) (w_signals w) (wi_inbox _ Hw)) as Hnd.
  set (b := batch tn ty n (env_now env) (w_signals w)) in *. set (l := leased _ _ <$> b) in *.
  assert (signal_ids l = signal_ids b) as Hids by (unfold l, signal_ids; by rewrite <- list_fmap_compose).
  destruct (on_signals _ w) as [res w1]. cbn [fst snd] in *. subst res.
  destruct (process_batch_ok l acc w1 (pg_inv _ _ _ Hp)) as (E2 & Hp2 & Hall).
  { by rewrite Hids. }
  { intros r Hr. split; by apply Hl. }
  destruct (process_batch g owner envs l acc w1) as [res w2]. cbn [fst snd] in *. subst res.
  assert (progress (fun y => sg_signalType y = ty) w w2) as Hp3.
  { eapply progress_trans; [exact Hp|]. eapply progress_weaken; [|exact Hp2]. intros y Hy Hin.
    apply list_elem_of_fmap in Hin as (r & Hid & Hr). destruct (Hl r Hr) as ((_ & _ & Hsame) & <- & _).
    by apply Hsame. }
  destruct (IH (report g envs l acc) w2 (pg_inv _ _ _ Hp2) Hd) as (E3 & Hp4 & Hrest).
  assert (claims_of (fun ty => env_now (claim_env ty).1) tn n types (w_signals w2) =
    claims_of (fun ty => env_now (claim_env ty).1) tn n types (w_signals w)) as Hcl.
  { unfold claims_of. f_equal. apply list_fmap_ext. intros i ty' Hi%list_elem_of_lookup_2.
    eapply advance_batch; [apply Hp3|congruence]. }
  rewrite Hcl in E3, Hrest. split_and!.
  - rewrite E3, report_app. unfold l. by rewrite report_leased.
  - eapply progress_trans; (eapply progress_weaken; [|first [exact Hp3|exact Hp4]]);
      intros y _ Hy; [rewrite Hy; by left|by right].
  - intros r [Hr|Hr]%elem_of_app; [|by apply Hrest].
    destruct (Hl (leased owner (env_now env + leaseMs) r)) as ((_ & _ & Hsame) & Hrt & _);
      [by apply list_elem_of_fmap_2|].
    eapply (dealt_with_progress _ g envs r w2); [exact Hp4| |].
    + intros y Hy Hid Hin. apply Hty. rewrite <- Hrt.
      destruct (advance_back _ _ _ _ (pg_inbox _ _ _ Hp2) Hy) as (v & Hv & (E1 & E4 & _) & _).
      destruct (Hsame v Hv) as (_ & <- & _); [simpl; congruence|]. by rewrite <- E4.
    + apply (Hall (leased owner (env_now env + leaseMs) r)). by apply list_elem_of_fmap_2.
Qed.
End pass.
End lemmas.

(** ** Theorems *)

Section theorems.
Context `{Z : Zod} {ZL : ZodLaws Z} `{Sha256} {O : Type} {P : OutboxPort O} {OS : OutboxStore O P}.
Import InMemorySignals.

(** C35. A signal leaves the inbox only after its consequences are durable.
    Let a pass run on its own, in a state where the processed signals are announced, that
    is, have both their events, the routing and the target agent's request,
    in the outbox.  Whichever calls of the pass to the inbox or the outbox
    fail, before or after they took effect, and whether the pass returns or
    throws, at its end the processed signals are announced and every id it
    reports as processed is a processed signal; no event is lost, and an
    event it added is the routing or the request of a signal of the inbox,
    the request only beside its routing.  Processing a processed signal
    again, with another grade, at another time, whatever fails, leaves the
    outbox as it is. *)
Theorem processed_only_when_announced g owner leaseMs claim_env envs tn n (w : World O) : worker_inv w ->
  let x := processTenant g owner leaseMs claim_env envs tn n w in
  (forall r, r ∈ records (w_signals x.2) -> sg_processedAt r ≠ None ->
     announced r (w_outbox x.2) /\
     forall g' env' s', w_outbox (processSignal g' env' r (mkWorld s' (w_outbox x.2))).2 = w_outbox x.2) /\
  (forall res, x.1 = Ok res -> forall t, t ∈ pr_processedSignalIds res ->
     exists r, r ∈ records (w_signals x.2) /\ t = string_of_N (sg_id r) /\ sg_processedAt r ≠ None) /\
  outbox_grows (w_outbox w) (w_outbox x.2) /\
  (forall k e, stored_event (w_outbox x.2) k = Some e -> stored_event (w_outbox w) k = Some e \/
     exists r, r ∈ records (w_signals x.2) /\ (k = route_key r \/
       k = request_key r /\ is_Some (stored_event (w_outbox x.2) (route_key r)))).
Proof.
  intros Hw x. destruct (process_types_safe g owner leaseMs claim_env envs tn n signalTypeValues
    (mkProcessing [] []) w Hw) as [[Hi _ Hg Ha] Hr].
  { by intros t ?%elem_of_nil. }
  split_and!; [|exact Hr|exact Hg|exact Ha]. intros r Hr' Hp.
  pose proof (wi_announced _ Hi r Hr' Hp) as Han. split; [exact Han|]. intros g' env' s'.
  apply (pe_again _ _ _ _ _ _ (processSignal_effect g' env' r (mkWorld s' (w_outbox x.2)) (wi_outbox _ Hi)
    (si_valid _ (wi_inbox _ Hi) r Hr'))). exact Han.
Qed.

End theorems.

(** ** Witnesses *)

Module WorkerExample.
Import ZodExample ShaExample SignalExample.

Definition no_grade : IncomingSignal -> option SignalGrade := fun _ => None.
Definition inbox : World InMemoryOutbox.State := mkWorld two InMemoryOutbox.init.
Definition first_signal : SignalEventRecord := new_signal 1 params 1000.

(** Every call of signal 1 goes through; the request of any other fails. *)
Definition lost : js_error := JsError "connection lost".
Definition envs (id : N) : signal_env :=
  mkSignalEnv (env2, NoFault) (env2, if N.eqb id 1 then NoFault else FailBefore lost) (env3, NoFault) (env3, NoFault).
Definition claims (ty : SignalType) : db_call := (env3, NoFault).

Definition pass : result SignalProcessingResult * World InMemoryOutbox.State :=
  processTenant no_grade "router" 60000 claims envs tenant 50 inbox.
Definition first_processed : SignalEventRecord :=
  mkSignal 1 tenant sig_market "rss" (Some "post-1") [] (Some 3000) None None 1 1000.
End WorkerExample.

Section witnesses.
Import ZodExample ShaExample SignalExample WorkerExample.

Lemma inbox_inv : worker_inv (OS := in_memory_outbox_store) inbox.
Proof.
  split; [exact two_signal_inv|exact outbox_inv_init|]. intros r Hr Hp. exfalso. apply Hp.
  apply elem_of_cons in Hr as [->|Hr]; [reflexivity|].
  apply elem_of_cons in Hr as [->|Hr]; [reflexivity|inversion Hr].
Qed.

Lemma processed_only_when_announced_witness :
  announced (OS := in_memory_outbox_store) first_processed (w_outbox pass.2) /\
  ~ announced (OS := in_memory_outbox_store) (new_signal 2 params2 2000) (w_outbox pass.2).
Proof.
  split.
  - refine (proj1 (proj1 (processed_only_when_announced (OS := in_memory_outbox_store) no_grade "router"
      60000 claims envs tenant 50 inbox inbox_inv) first_processed _ _)); [vm_compute; left|discriminate].
  - intros [_ [e He]]. vm_compute in He. discriminate He.
Defined.

End witnesses.
