(* ===== verification/SignalRoutes.v ===== *)
(** * Signals from outside and their grading

    [apps/api/src/routes/signals.ts] over the in-memory inbox of [Signals.v],
    and [packages/llm-harness/src/signal-grade.ts], the grading by a language
    model that the route shows and the signal router of [SignalWorker.v]
    calls through [signal-quality-grader.ts].  The answer of the model is the
    argument [run]; [parse_json] is [JSON.parse]. *)

From S2P Require Import Prelude Numbers JsRuntime Json StableId Domain Zod ZodJson Sql Outbox Http ControlPlane Signals SignalWorker.

(** ** Grading *)

(** The variables of [SIGNAL_GRADE_PROMPT]; the runner answers or throws. *)
Record GradePrompt := mkGradePrompt {
  gp_tenantId : string;
  gp_signalType : string;
  gp_source : string;
  gp_rawPayload : string;
  gp_motionContext : string;
}.
Abbreviation GradeRunner := (GradePrompt -> result string).

Record SignalGradePayloadInput := mkGradeInput {
  gi_tenantId : string;
  gi_signalType : string;
  gi_source : string;
  gi_payload : jobject;
}.

Definition urgencies : list SignalUrgency := [urg_low; urg_medium; urg_high].
Definition defaultMotionContext : string := "inbound_content, plg".

(** [z.array(z.string())] of a property *)
Definition texts_field : option json -> result (list string) :=
  array_field (fun v => string_field mret (Some v)).

Definition llmGradeResponseSchema (raw : json) : result SignalGrade :=
  fs ← record_field (Some raw);
  relevance ← number_field unit_number (mapGet "relevance" fs);
  urgency ← enum_field urgencies SignalUrgency_str (mapGet "urgency" fs);
  topic_category ← optional_field (string_field mret) (mapGet "topic_category" fs);
  topicCategory ← optional_field (string_field mret) (mapGet "topicCategory" fs);
  action_recommendations ← optional_field texts_field (mapGet "action_recommendations" fs);
  actionRecommendations ← optional_field texts_field (mapGet "actionRecommendations" fs);
  mret (mkGrade relevance urgency (topicCategory ?:? topic_category ?: "general")
    (actionRecommendations ?:? action_recommendations ?: [])).

Definition parseGrade (raw : json) : option SignalGrade :=
  match llmGradeResponseSchema raw with
  | Err _ => None
  | Ok normalised =>
      match signalGradeSchema normalised with Ok grade => Some grade | Err _ => None end
  end.

Section grading.
Context (parse_json : string -> result json).

Definition gradeSignalPayload (input : SignalGradePayloadInput) (run : GradeRunner) (motionContext : string) :
    option SignalGrade :=
  match run (mkGradePrompt (gi_tenantId input) (gi_signalType input) (gi_source input)
      (jsonPretty "" (JObj (gi_payload input))) motionContext) with
  | Err _ => None
  | Ok content =>
      match json_part content with
      | None => None
      | Some part => match parse_json part with Ok raw => parseGrade raw | Err _ => None end
      end
  end.

(** [signal-quality-grader.ts], the grader of the signal router *)
Definition gradeSignal (run : GradeRunner) (signal : IncomingSignal) : option SignalGrade :=
  gradeSignalPayload (mkGradeInput (is_tenantId signal) (is_kind signal) (is_source signal) (is_payload signal))
    run defaultMotionContext.
End grading.

(** ** Requests *)

Record IngestSignalRequest := mkIngestRequest {
  iq_externalId : option string;
  iq_signalType : SignalType;
  iq_source : string;
  iq_occurredAt : option string;
  iq_payload : option jobject;
}.

Definition ingestSignalRequestSchema `{ZodFormats} (raw : json) : result IngestSignalRequest :=
  fs ← record_field (Some raw);
  externalId ← optional_field (string_field (bounded_text 1 255)) (mapGet "externalId" fs);
  signalType ← enum_field signalTypeValues SignalType_str (mapGet "signalType" fs);
  source ← string_field (bounded_text 1 100) (mapGet "source" fs);
  occurredAt ← optional_field (string_field (refine zod_datetime_offset)) (mapGet "occurredAt" fs);
  payload ← optional_field record_field (mapGet "payload" fs);
  mret (mkIngestRequest externalId signalType source occurredAt payload).

Record SignalGradeRequest := mkGradeRequest {
  gq_signalType : string;
  gq_source : string;
  gq_payload : option jobject;
  gq_motionContext : option string;
}.

Definition signalGradeRequestSchema (raw : json) : result SignalGradeRequest :=
  fs ← record_field (Some raw);
  signalType ← string_field (bounded_text 1 100) (mapGet "signalType" fs);
  source ← string_field (bounded_text 1 100) (mapGet "source" fs);
  payload ← optional_field record_field (mapGet "payload" fs);
  motionContext ← optional_field (string_field (bounded_text 0 2000)) (mapGet "motionContext" fs);
  mret (mkGradeRequest signalType source payload motionContext).

(** ** The routes *)

Definition ingestParams (tenantId : string) (body : IngestSignalRequest) : IngestSignalParams :=
  mkIngestParams tenantId (iq_signalType body) (iq_source body) (iq_externalId body) (iq_payload body ?: []).

Definition ingestAnswer (result : IngestSignalResult) : Response :=
  mkResponse 202 [("accepted", JBool true); ("inserted", JBool (negb (ir_isDuplicate result)));
    ("signalId", JStr (string_of_N (sg_id (ir_event result))));
    ("externalId", jstr_or_null (sg_externalId (ir_event result)));
    ("tenantId", JStr (sg_tenantId (ir_event result)))].

Definition gradeJson (grade : option SignalGrade) : json :=
  match grade with
  | None => JNull
  | Some g => JObj [("relevance", JNum (gr_relevance g)); ("urgency", JStr (SignalUrgency_str (gr_urgency g)));
      ("topicCategory", JStr (gr_topicCategory g));
      ("actionRecommendations", JArr (JStr <$> gr_actionRecommendations g))]
  end.

Definition gradeAnswer (grade : option SignalGrade) : Response :=
  mkResponse 200 [("graded", JBool (match grade with Some _ => true | None => false end));
    ("grade", gradeJson grade)].

Section routes.
Context `{Zod} `{ZodFormats} `{ZodReport} (parse_json : string -> result json).
(** Whether [deps.signalEventsRepository] is there, and [deps.llmCallRunner]. *)
Context (configured : bool) (llmCallRunner : option GradeRunner).

(** [POST /v1/signals] *)
Definition postSignal (call : db_call) (tenant : option string) (body : result json) :
    M InMemorySignals.State Response :=
  if negb configured then
    throw (ServiceUnavailableError "Signal events repository is not configured. Set DATABASE_URL.")
  else
    match tenant with
    | Some (String _ _ as tenantId) =>
        raw ← lift body;
        request ← lift (ingestSignalRequestSchema raw);
        result ← faulty call.2 (InMemorySignals.ingest call.1 (ingestParams tenantId request));
        mret (ingestAnswer result)
    | _ => mret (refusal 400 "X-Tenant-Id header is required")
    end.

(** [POST /v1/signals/grade]; it reads and writes no store. *)
Definition postGrade (tenant : option string) (body : result json) : result Response :=
  match llmCallRunner with
  | None =>
      Err (ServiceUnavailableError
        "LLM runner is not configured. Set OPENAI_API_KEY for OpenAI-backed grading.")
  | Some run =>
      match tenant with
      | Some (String _ _ as tenantId) =>
          let raw := match body with Ok v => v | Err _ => JNull end in
          if falsy raw then mret (refusal 400 "Request body must be valid JSON")
          else
            match signalGradeRequestSchema raw with
            | Err _ => mret (mkResponse 422 [("error", JStr "Invalid request"); ("details", zod_field_errors raw)])
            | Ok request =>
                mret (gradeAnswer (gradeSignalPayload parse_json
                  (mkGradeInput tenantId (gq_signalType request) (gq_source request) (gq_payload request ?: []))
                  run (gq_motionContext request ?: defaultMotionContext)))
            end
      | _ => mret (refusal 400 "X-Tenant-Id header is required")
      end
  end.
End routes.

(** ** A grade is fit to be routed *)

Section grades.
Context `{Z : Zod} (parse_json : string -> result json).

(** What grading returns passes the schema of the router unchanged. *)
Lemma grade_canonical input run motionContext g :
  gradeSignalPayload parse_json input run motionContext = Some g -> signalGradeSchema g = Ok g.
Proof.
  unfold gradeSignalPayload, parseGrade. destruct (run _) as [content|]; [|done].
  destruct (json_part content) as [part|]; [|done]. destruct (parse_json part) as [raw|]; [|done].
  destruct (llmGradeResponseSchema raw) as [n|]; [|done]. destruct (signalGradeSchema n) as [g'|] eqn:E; [|done].
  intros [= ->]. revert E. unfold signalGradeSchema. msimpl.
  destruct (unit_number _) as [x|] eqn:Ex; [|done]. destruct (min1_text _) as [t|] eqn:Et; [|done].
  intros [= <-]. simpl. by rewrite (idem_parse _ _ Ex), (idem_parse _ _ Et).
Qed.

Lemma grade_of_failure input run motionContext : (forall p, exists e, run p = Err e) ->
  gradeSignalPayload parse_json input run motionContext = None.
Proof. intros Hf. unfold gradeSignalPayload. by destruct (Hf (mkGradePrompt (gi_tenantId input) (gi_signalType input)
  (gi_source input) (jsonPretty "" (JObj (gi_payload input))) motionContext)) as [e ->]. Qed.

(** Whatever the language model answers, its relevance is in the unit
    interval and its topic is not empty. *)
Theorem grade_is_canonical input run motionContext :
  match gradeSignalPayload parse_json input run motionContext with
  | Some g => num_leb num_zero (gr_relevance g) = true /\ num_leb (gr_relevance g) num_one = true /\
      gr_topicCategory g ≠ ""
  | None => True
  end.
Proof.
  destruct (gradeSignalPayload _ _ _ _) as [g|] eqn:E; [|done]. apply grade_canonical in E.
  revert E. unfold signalGradeSchema. msimpl. destruct (unit_number _) as [x|] eqn:Ex; [|done].
  destruct (min1_text _) as [t|] eqn:Et; [|done]. intros _. apply refine_ok in Ex as [Hx _].
  apply andb_true_iff in Hx as [? ?]. by apply min1_text_ok in Et as [? _].
Qed.

(** The grade of the language model never makes the routing of a signal fail
    and never changes where it goes: the router accepts the graded signal
    exactly when it accepts the signal without a grade, and then the two
    differ in the grade alone. *)
Theorem grade_never_blocks_routing run signal cls t :
  let graded := gradeSignal parse_json run signal in
  routedSignalSchema (mkRouted signal cls t graded) =
    match routedSignalSchema (mkRouted signal cls t None) with
    | Ok r => Ok (mkRouted (rs_signal r) (rs_class r) (rs_routedAt r) graded)
    | Err e => Err e
    end.
Proof.
  intros graded. assert (zod_optional signalGradeSchema graded = Ok graded) as Hg.
  { unfold graded. destruct (gradeSignal parse_json run signal) as [g|] eqn:E; [|done].
    apply grade_canonical in E. msimpl. by rewrite E. }
  clearbody graded. unfold routedSignalSchema. cbn [rs_signal rs_class rs_grade rs_routedAt]. rewrite Hg. msimpl.
  destruct (incomingSignalSchema signal) as [s|]; [|done]. destruct (min1_text _) as [a|]; [|done].
  by destruct (positive_int _) as [h|].
Qed.
End grades.

(** ** The routes *)

Section route_theorems.
Context `{Z : Zod} {ZL : ZodLaws Z} `{F : ZodFormats} `{R : ZodReport} (parse_json : string -> result json).
Context (configured : bool) (token auth : option string).
Implicit Types (s : InMemorySignals.State).

Abbreviation posted call tenant body := (guarded_route token auth (postSignal configured call tenant body)).

Lemma ingest_request_external raw q x : ingestSignalRequestSchema raw = Ok q -> iq_externalId q = Some x ->
  truthy (Some x) = true.
Proof.
  unfold ingestSignalRequestSchema. destruct raw as [| | | | |fs]; try done. cbn [record_field]. unfold mbind, result_bind.
  destruct (optional_field (string_field (bounded_text 1 255)) (mapGet "externalId" fs)) as [o|] eqn:Ho; [|done].
  destruct (enum_field _ _ _); [|done]. destruct (string_field _ (mapGet "source" fs)); [|done].
  destruct (optional_field _ (mapGet "occurredAt" fs)); [|done].
  destruct (optional_field _ (mapGet "payload" fs)); [|done]. intros [= <-]. simpl. intros ->.
  revert Ho. destruct (mapGet "externalId" fs) as [[| | |t| |]|]; try done. unfold optional_field. msimpl.
  destruct (bounded_text 1 255 t) as [t'|] eqn:Hb; [|done]. intros [= ->].
  unfold bounded_text in Hb. apply refine_ok in Hb as [Hb ->]. by destruct t.
Qed.

(** The handler, once the request is read. *)
Lemma postSignal_eq call tn raw q s : configured = true -> zod_uuid tn = true ->
  ingestSignalRequestSchema raw = Ok q ->
  postSignal configured call (Some tn) (Ok raw) s =
    (result ← faulty call.2 (InMemorySignals.ingest call.1 (ingestParams tn q)); mret (ingestAnswer result)) s.
Proof.
  intros -> Ht Hq. unfold postSignal. cbn [negb]. destruct tn as [|c tn0]; [by apply zod_uuid_length in Ht|].
  msimpl. by rewrite Hq.
Qed.

(** A signal that is accepted is its tenant's, is the one the inbox holds, and
    a caller that repeats a request with an external id, because the answer
    was lost, is answered with the same signal, not inserted, and changes
    nothing. *)
Theorem signal_request_is_idempotent call tenant body s resp s' : signal_inv s ->
  posted call tenant body s = (Ok resp, s') -> carries "inserted" resp ->
  authorized token auth /\ exists tn raw q res, tenant = Some tn /\ body = Ok raw /\
    ingestSignalRequestSchema raw = Ok q /\
    InMemorySignals.ingest call.1 (ingestParams tn q) s = (Ok res, s') /\ resp = ingestAnswer res /\
    forall x call', iq_externalId q = Some x -> call'.2 = NoFault ->
      posted call' tenant body s' = (Ok (ingestAnswer (mkIngestResult (ir_event res) true)), s').
Proof.
  intros Hs H Hc. apply (guarded_carries _ _ _ _ _ _ _ Hc) in H as [Ha H]. split; [done|].
  unfold postSignal in H. destruct (configured) eqn:Hconf; [|done]. cbn [negb] in H.
  assert (forall m, (Ok (refusal 400 m), s) = (Ok resp, s') -> False) as Hno.
  { intros m [= <- _]. by apply (carries_not_error _ _ Hc), refusal_error. }
  destruct tenant as [[|c tn0]|]; [by apply Hno in H| |by apply Hno in H]. set (tn := String c tn0) in *.
  destruct body as [raw|e]; [|done]. apply bind_ok in H as (raw' & s1 & [= <- <-] & H).
  apply bind_ok in H as (q & s2 & Hq & H). injection Hq as Hq <-.
  apply bind_ok in H as (res & s3 & [_ Hi]%faulty_ok & H). injection H as <- <-.
  exists tn, raw, q, res. split_and!; try done. intros x call' Hx Hnf.
  assert (zod_uuid tn = true) as Ht.
  { unfold InMemorySignals.ingest in Hi. apply bind_ok in Hi as (t & s4 & Hi & _). injection Hi as Hi _.
    by apply tenantIdSchema_ok in Hi as [? _]. }
  apply guarded_ok; [done|]. rewrite <- Hconf at 1. rewrite (postSignal_eq _ _ _ _ _ Hconf Ht Hq), Hnf.
  pose proof (ingest_request_external _ _ _ Hq Hx) as Hext.
  rewrite (bind_eq _ _ _ _ _ (ingested_again call.1 call'.1 (ingestParams tn q) _ _ _ Hs Ht
    ltac:(simpl; by rewrite Hx) Hi)). done.
Qed.

(** The time at which a signal occurred is checked and dropped: requests that
    differ in it alone get the same answer and store the same signal. *)
Theorem occurrence_time_is_dropped call tenant raw raw' q q' s :
  ingestSignalRequestSchema raw = Ok q -> ingestSignalRequestSchema raw' = Ok q' ->
  iq_externalId q = iq_externalId q' -> iq_signalType q = iq_signalType q' -> iq_source q = iq_source q' ->
  iq_payload q = iq_payload q' ->
  posted call tenant (Ok raw) s = posted call tenant (Ok raw') s.
Proof.
  intros Hq Hq' H1 H2 H3 H4. assert (forall tn, ingestParams tn q = ingestParams tn q') as Hp.
  { intros tn. unfold ingestParams. by rewrite H1, H2, H3, H4. }
  assert (postSignal configured call tenant (Ok raw) s = postSignal configured call tenant (Ok raw') s) as E.
  { unfold postSignal. destruct configured; [|done]. destruct tenant as [[|c tn]|]; [done| |done].
    msimpl. by rewrite Hq, Hq', Hp. }
  unfold guarded_route, answered, catching, requireToken. msimpl.
  destruct (negb (truthy token)); [by rewrite E|]. destruct auth as [a|]; [|done].
  destruct (String.prefix bearer a); [|done]. destruct (negb _); [done|by rewrite E].
Qed.

(** Every request to grade a payload is answered, and a language model that
    fails is answered as "no grade", never as an error. *)
Theorem grade_requests_are_answered run tenant body : exists resp,
  postGrade parse_json (Some run) tenant body = Ok resp /\ rsp_status resp ∈ [200; 400; 422] /\
  (rsp_status resp = 200 -> (forall p, exists e, run p = Err e) -> resp = gradeAnswer None).
Proof.
  unfold postGrade. destruct tenant as [[|c tn]|]; [|destruct (falsy _); [|destruct (signalGradeRequestSchema _) as [q|]]|];
    eexists; (split; [done|]); (split; [simpl; set_solver|]); try done.
  intros _ Hf. by rewrite grade_of_failure.
Qed.
End route_theorems.

(** ** Witnesses *)

Module SignalRoutesExample.
Import ZodExample.

#[export] Instance formats : ZodFormats :=
  {| zod_url := fun _ => true; zod_email := fun _ => true;
     zod_datetime_offset := fun s => match date_of s with Some _ => true | None => false end;
     zod_datetime := fun s => match date_of s with Some _ => true | None => false end |}.
#[export] Instance report : ZodReport := {| zod_issues := JArr []; zod_field_errors := fun _ => JObj [] |}.

Definition token : option string := Some "s3cret".
Definition auth : option string := Some "Bearer s3cret".
Definition at_noon : db_call := ({| env_now := 1709208000000; env_uuid := tenant; env_serial := 1 |}, NoFault).
Definition later : db_call := ({| env_now := 1709208060000; env_uuid := tenant; env_serial := 2 |}, NoFault).

Definition signal_body (extra : jobject) : json :=
  JObj ([("externalId", JStr "review-17"); ("signalType", JStr "product"); ("source", JStr "g2");
         ("payload", JObj [("stars", jint 4)])] ++ extra).
Definition dated_body : json := signal_body [("occurredAt", JStr "2023-11-05T08:00:00Z")].

Definition post (call : db_call) (body : json) (s : InMemorySignals.State) :
    result Response * InMemorySignals.State :=
  guarded_route token auth (postSignal true call (Some tenant) (Ok body)) s.
Definition first : InMemorySignals.State := (post at_noon dated_body InMemorySignals.init).2.
Definition first_answer : Response :=
  match (post at_noon dated_body InMemorySignals.init).1 with Ok r => r | Err _ => refusal 500 "none" end.

Lemma first_posted : post at_noon dated_body InMemorySignals.init = (Ok first_answer, first).
Proof. vm_compute. reflexivity. Qed.
Lemma first_carries : carries "inserted" first_answer.
Proof. split; [by apply (bool_decide_unpack _); vm_compute|by eexists]. Qed.

Example first_recorded : (sg_createdAt <$> InMemorySignals.records first) = [1709208000000] /\
  first_answer = mkResponse 202 [("accepted", JBool true); ("inserted", JBool true); ("signalId", JStr "1");
    ("externalId", JStr "review-17"); ("tenantId", JStr tenant)].
Proof. split; vm_compute; reflexivity. Qed.

(** A model that wraps its answer in prose. *)
Definition chatty : GradeRunner := fun _ => Ok "Sure: {} Done.".
Definition graded_json : json :=
  JObj [("relevance", JNum (num_lit 7 10)); ("urgency", JStr "medium"); ("topic_category", JStr "plg")].
Example chatty_grade :
  gradeSignalPayload (fun text => if String.eqb text "{}" then Ok graded_json else Err (JsError text))
    (mkGradeInput tenant "product" "g2" [("stars", jint 4)]) chatty defaultMotionContext =
  Some (mkGrade (num_lit 7 10) urg_medium "plg" []).
Proof. vm_compute. reflexivity. Qed.

Example pretty_payload : jsonPretty "" (JObj [("a", JArr [jint 1; JBool true]); ("b", JObj [])]) =
  "{" +:+ new_line +:+ "  " +:+ json_quote "a" +:+ ": [" +:+ new_line +:+ "    1," +:+ new_line +:+
  "    true" +:+ new_line +:+ "  ]," +:+ new_line +:+ "  " +:+ json_quote "b" +:+ ": {}" +:+ new_line +:+ "}".
Proof. vm_compute. reflexivity. Qed.
End SignalRoutesExample.

Section witnesses.
Import ZodExample SignalRoutesExample.

Lemma signal_request_is_idempotent_witness : authorized token auth /\ exists tn raw q res,
  Some tenant = Some tn /\ Ok dated_body = Ok raw /\ ingestSignalRequestSchema raw = Ok q /\
  InMemorySignals.ingest at_noon.1 (ingestParams tn q) InMemorySignals.init = (Ok res, first) /\
  first_answer = ingestAnswer res.
Proof.
  destruct (signal_request_is_idempotent true token auth at_noon (Some tenant) (Ok dated_body)
    InMemorySignals.init first_answer first signal_inv_init first_posted first_carries)
    as (H1 & tn & raw & q & res & H2 & H3 & H4 & H5 & H6 & _).
  split; [exact H1|]. exists tn, raw, q, res. split_and!; [exact H2|exact H3|exact H4|exact H5|exact H6].
Defined.

Lemma occurrence_time_is_dropped_witness :
  post at_noon dated_body InMemorySignals.init = post at_noon (signal_body []) InMemorySignals.init.
Proof.
  exact (occurrence_time_is_dropped true token auth at_noon (Some tenant) dated_body (signal_body [])
    (mkIngestRequest (Some "review-17") sig_product "g2" (Some "2023-11-05T08:00:00Z") (Some [("stars", jint 4)]))
    (mkIngestRequest (Some "review-17") sig_product "g2" None (Some [("stars", jint 4)]))
    InMemorySignals.init eq_refl eq_refl eq_refl eq_refl eq_refl eq_refl).
Defined.
End witnesses.
