(* ===== verification/Experiments.v ===== *)
(** * Experiments: assignments, observations and evidence

    The experiment part of
    [packages/db/src/adaptive-control-plane-repository.ts]: the schemas, the
    lifecycle table, [InMemoryExperimentRepository] (module
    [InMemoryExperiments]) and the evidence summary. The Postgres repository
    is in [PgExperiments.v]. *)

From S2P Require Import Prelude Numbers JsRuntime Domain Zod Sql ControlPlane.

(** ** Records and schemas *)

Record ExperimentRecord := mkExperiment {
  ex_id : string;
  ex_tenantId : string;
  ex_experimentKey : string;
  ex_motion : string;
  ex_experimentType : string;
  ex_unitType : string;
  ex_hypothesis : string;
  ex_variantA : jobject;
  ex_variantB : jobject;
  ex_metricName : string;
  ex_metricDirection : MetricDirection;
  ex_minSampleSize : Z;
  ex_status : ExperimentStatus;
  ex_winner : option ExperimentWinner;
  ex_confidence : option num;
  ex_inputSnapshot : jobject;
  ex_modelVersion : option string;
  ex_promptVersion : option string;
  ex_playbookVersion : option string;
  ex_policyVersion : option string;
  ex_createdBy : string;
  ex_startedAt : option Z;
  ex_endedAt : option Z;
  ex_createdAt : Z;
  ex_updatedAt : Z;
}.

(** [{ ...r, status, winner, confidence, startedAt, endedAt, updatedAt }] *)
Definition with_lifecycle (r : ExperimentRecord) (status : ExperimentStatus)
    (winner : option ExperimentWinner) (confidence : option num) (startedAt endedAt : option Z)
    (updatedAt : Z) : ExperimentRecord :=
  mkExperiment (ex_id r) (ex_tenantId r) (ex_experimentKey r) (ex_motion r) (ex_experimentType r)
    (ex_unitType r) (ex_hypothesis r) (ex_variantA r) (ex_variantB r) (ex_metricName r)
    (ex_metricDirection r) (ex_minSampleSize r) status winner confidence (ex_inputSnapshot r)
    (ex_modelVersion r) (ex_promptVersion r) (ex_playbookVersion r) (ex_policyVersion r)
    (ex_createdBy r) startedAt endedAt (ex_createdAt r) updatedAt.

Record CreateExperimentParams := mkCreateExperiment {
  ce_experimentKey : string;
  ce_motion : string;
  ce_experimentType : string;
  ce_unitType : string;
  ce_hypothesis : string;
  ce_variantA : jobject;
  ce_variantB : jobject;
  ce_metricName : string;
  ce_metricDirection : option MetricDirection;
  ce_minSampleSize : Z;
  (** [Some true] is "running", [Some false] is "draft" *)
  ce_initialRunning : option bool;
  ce_inputSnapshot : option jobject;
  ce_modelVersion : option string;
  ce_promptVersion : option string;
  ce_playbookVersion : option string;
  ce_policyVersion : option string;
  ce_createdBy : string;
  ce_startedAt : option Z;
}.

Record TransitionExperimentParams := mkTransitionExperiment {
  te_winner : option ExperimentWinner;
  te_confidence : option num;
  te_endedAt : option Z;
}.

Record ExperimentAssignmentRecord := mkAssignment {
  as_id : string;
  as_tenantId : string;
  as_experimentId : string;
  as_entityType : string;
  as_entityId : string;
  as_variant : ExperimentVariant;
  as_assignmentContext : jobject;
  as_assignedAt : Z;
  as_exposedAt : option Z;
  as_createdAt : Z;
}.

Record AssignExperimentParams := mkAssign {
  ap_experimentId : string;
  ap_entityType : string;
  ap_entityId : string;
  ap_variant : ExperimentVariant;
  ap_assignmentContext : option jobject;
  ap_exposedAt : option Z;
}.

Record AssignExperimentResult := mkAssignResult {
  assignment : ExperimentAssignmentRecord;
  isExisting : bool;
}.

Record ExperimentObservationRecord := mkObs {
  ob_id : string;
  ob_tenantId : string;
  ob_experimentId : string;
  ob_assignmentId : option string;
  ob_idempotencyKey : string;
  ob_entityType : string;
  ob_entityId : string;
  ob_variant : ExperimentVariant;
  ob_metricName : string;
  ob_metricValue : num;
  ob_isGuardrail : bool;
  ob_attributionConfidence : num;
  ob_attributionModel : string;
  ob_source : string;
  ob_costAmount : option num;
  ob_costCurrency : option string;
  ob_observedOutcome : jobject;
  ob_evidence : jobject;
  ob_observedAt : Z;
  ob_createdAt : Z;
}.

Record RecordExperimentObservationParams := mkRecordObs {
  ro_experimentId : string;
  ro_assignmentId : option string;
  ro_idempotencyKey : string;
  ro_entityType : string;
  ro_entityId : string;
  ro_variant : ExperimentVariant;
  ro_metricName : string;
  ro_metricValue : num;
  ro_isGuardrail : option bool;
  ro_attributionConfidence : num;
  ro_attributionModel : string;
  ro_source : string;
  ro_costAmount : option num;
  ro_costCurrency : option string;
  ro_observedOutcome : option jobject;
  ro_evidence : option jobject;
  ro_observedAt : option Z;
}.

Section schemas.
Context `{Zod}.

Definition experimentRecordSchema (r : ExperimentRecord) : result ExperimentRecord :=
  id ← uuid (ex_id r);
  tn ← tenantIdSchema (ex_tenantId r);
  key ← nonEmptyText (ex_experimentKey r);
  motion ← nonEmptyText (ex_motion r);
  ty ← nonEmptyText (ex_experimentType r);
  unit_ ← nonEmptyText (ex_unitType r);
  hyp ← nonEmptyText (ex_hypothesis r);
  metric ← nonEmptyText (ex_metricName r);
  size ← positive_int (ex_minSampleSize r);
  conf ← zod_optional unit_number (ex_confidence r);
  by_ ← nonEmptyText (ex_createdBy r);
  mret (mkExperiment id tn key motion ty unit_ hyp (ex_variantA r) (ex_variantB r) metric
    (ex_metricDirection r) size (ex_status r) (ex_winner r) conf (ex_inputSnapshot r)
    (ex_modelVersion r) (ex_promptVersion r) (ex_playbookVersion r) (ex_policyVersion r)
    by_ (ex_startedAt r) (ex_endedAt r) (ex_createdAt r) (ex_updatedAt r)).

Definition createExperimentParamsSchema (p : CreateExperimentParams) :
    result CreateExperimentParams :=
  key ← nonEmptyText (ce_experimentKey p);
  motion ← nonEmptyText (ce_motion p);
  ty ← nonEmptyText (ce_experimentType p);
  unit_ ← nonEmptyText (ce_unitType p);
  hyp ← nonEmptyText (ce_hypothesis p);
  metric ← nonEmptyText (ce_metricName p);
  size ← positive_int (ce_minSampleSize p);
  mv ← zod_optional nonEmptyText (ce_modelVersion p);
  pv ← zod_optional nonEmptyText (ce_promptVersion p);
  bv ← zod_optional nonEmptyText (ce_playbookVersion p);
  ov ← zod_optional nonEmptyText (ce_policyVersion p);
  by_ ← nonEmptyText (ce_createdBy p);
  mret (mkCreateExperiment key motion ty unit_ hyp (ce_variantA p) (ce_variantB p) metric
    (Some (ce_metricDirection p ?: dir_increase)) size (Some (ce_initialRunning p ?: false))
    (Some (ce_inputSnapshot p ?: [])) mv pv bv ov by_ (ce_startedAt p)).

Definition transitionExperimentParamsSchema (p : TransitionExperimentParams) :
    result TransitionExperimentParams :=
  conf ← zod_optional unit_number (te_confidence p);
  mret (mkTransitionExperiment (te_winner p) conf (te_endedAt p)).

Definition experimentAssignmentRecordSchema (r : ExperimentAssignmentRecord) :
    result ExperimentAssignmentRecord :=
  id ← uuid (as_id r);
  tn ← tenantIdSchema (as_tenantId r);
  ex ← uuid (as_experimentId r);
  ety ← nonEmptyText (as_entityType r);
  eid ← nonEmptyText (as_entityId r);
  mret (mkAssignment id tn ex ety eid (as_variant r) (as_assignmentContext r) (as_assignedAt r)
    (as_exposedAt r) (as_createdAt r)).

Definition assignExperimentParamsSchema (p : AssignExperimentParams) :
    result AssignExperimentParams :=
  ex ← uuid (ap_experimentId p);
  ety ← nonEmptyText (ap_entityType p);
  eid ← nonEmptyText (ap_entityId p);
  mret (mkAssign ex ety eid (ap_variant p) (Some (ap_assignmentContext p ?: [])) (ap_exposedAt p)).

Definition experimentObservationRecordSchema (r : ExperimentObservationRecord) :
    result ExperimentObservationRecord :=
  id ← uuid (ob_id r);
  tn ← tenantIdSchema (ob_tenantId r);
  ex ← uuid (ob_experimentId r);
  asg ← zod_optional uuid (ob_assignmentId r);
  ik ← nonEmptyText (ob_idempotencyKey r);
  ety ← nonEmptyText (ob_entityType r);
  eid ← nonEmptyText (ob_entityId r);
  metric ← nonEmptyText (ob_metricName r);
  value ← finite_number (ob_metricValue r);
  conf ← unit_number (ob_attributionConfidence r);
  model ← nonEmptyText (ob_attributionModel r);
  source ← nonEmptyText (ob_source r);
  cost ← zod_optional nonneg_number (ob_costAmount r);
  cur ← zod_optional (bounded_text 3 3) (ob_costCurrency r);
  mret (mkObs id tn ex asg ik ety eid (ob_variant r) metric value (ob_isGuardrail r) conf model
    source cost cur (ob_observedOutcome r) (ob_evidence r) (ob_observedAt r) (ob_createdAt r)).

Definition recordExperimentObservationParamsSchema (p : RecordExperimentObservationParams) :
    result RecordExperimentObservationParams :=
  ex ← uuid (ro_experimentId p);
  asg ← zod_optional uuid (ro_assignmentId p);
  ik ← nonEmptyText (ro_idempotencyKey p);
  ety ← nonEmptyText (ro_entityType p);
  eid ← nonEmptyText (ro_entityId p);
  metric ← nonEmptyText (ro_metricName p);
  value ← finite_number (ro_metricValue p);
  conf ← unit_number (ro_attributionConfidence p);
  model ← nonEmptyText (ro_attributionModel p);
  source ← nonEmptyText (ro_source p);
  cost ← zod_optional nonneg_number (ro_costAmount p);
  cur ← zod_optional isoCurrencySchema (ro_costCurrency p);
  mret (mkRecordObs ex asg ik ety eid (ro_variant p) metric value
    (Some (ro_isGuardrail p ?: false)) conf model source cost cur
    (Some (ro_observedOutcome p ?: [])) (Some (ro_evidence p ?: [])) (ro_observedAt p)).
End schemas.

(** *** What the creating calls write, from parsed parameters *)

Definition new_experiment (id tenantId : string) (parsed : CreateExperimentParams) (now : Z) :
    ExperimentRecord :=
  let running := ce_initialRunning parsed ?: false in
  mkExperiment id tenantId (ce_experimentKey parsed) (ce_motion parsed)
    (ce_experimentType parsed) (ce_unitType parsed) (ce_hypothesis parsed)
    (ce_variantA parsed) (ce_variantB parsed) (ce_metricName parsed)
    (ce_metricDirection parsed ?: dir_increase) (ce_minSampleSize parsed)
    (if running then exp_running else exp_draft) None None
    (ce_inputSnapshot parsed ?: []) (ce_modelVersion parsed) (ce_promptVersion parsed)
    (ce_playbookVersion parsed) (ce_policyVersion parsed) (ce_createdBy parsed)
    (ce_startedAt parsed ?:? (if running then Some now else None)) None now now.

Definition new_assignment (id tenantId : string) (parsed : AssignExperimentParams) (now : Z) :
    ExperimentAssignmentRecord :=
  mkAssignment id tenantId (ap_experimentId parsed) (ap_entityType parsed) (ap_entityId parsed)
    (ap_variant parsed) (ap_assignmentContext parsed ?: []) now (ap_exposedAt parsed) now.

Definition new_observation (id tenantId : string) (parsed : RecordExperimentObservationParams)
    (now : Z) : ExperimentObservationRecord :=
  mkObs id tenantId (ro_experimentId parsed) (ro_assignmentId parsed) (ro_idempotencyKey parsed)
    (ro_entityType parsed) (ro_entityId parsed) (ro_variant parsed) (ro_metricName parsed)
    (ro_metricValue parsed) (ro_isGuardrail parsed ?: false) (ro_attributionConfidence parsed)
    (ro_attributionModel parsed) (ro_source parsed) (ro_costAmount parsed)
    (ro_costCurrency parsed) (ro_observedOutcome parsed ?: []) (ro_evidence parsed ?: [])
    (ro_observedAt parsed ?: now) now.

(** ** The lifecycle *)

Definition experimentTransitions (from : ExperimentStatus) : list ExperimentStatus :=
  match from with
  | exp_draft => [exp_running; exp_abandoned]
  | exp_running => [exp_paused; exp_concluded; exp_abandoned]
  | exp_paused => [exp_running; exp_abandoned]
  | exp_concluded => [exp_promoted; exp_abandoned]
  | exp_abandoned => []
  | exp_promoted => [exp_rolled_back]
  | exp_rolled_back => []
  end.

Definition assertExperimentTransition (from to : ExperimentStatus) : result unit :=
  if bool_decide (to ∈ experimentTransitions from) then mret tt
  else Err (JsError ("Illegal experiment transition: " +:+ ExperimentStatus_str from +:+ " -> " +:+
    ExperimentStatus_str to)).

Record ExperimentStatusSummary := mkExperimentSummary {
  es_total : N;
  es_byStatus : ExperimentStatus -> N;
}.

Definition emptyExperimentStatusSummary : ExperimentStatusSummary :=
  mkExperimentSummary 0 (fun _ => 0%N).

(** ** Evidence *)

Record ExperimentEvidenceSummary := mkEvidence {
  ev_experimentId : string;
  ev_metricName : string;
  ev_evidenceCount : N;
  ev_uniqueEntities : N;
  ev_baselineMetric : num;
  ev_candidateMetric : num;
  ev_meanAttributionConfidence : num;
  ev_baselineGuardrailMetric : option num;
  ev_candidateGuardrailMetric : option num;
  ev_worstGuardrailRegression : num;
}.

(** [values.reduce((total, value) => total + value, 0) / values.length] *)
Definition mean (values : list num) : option num :=
  match values with
  | [] => None
  | _ => Some (num_div (fold_left num_add values num_zero) (num_of_Z (Z.of_nat (length values))))
  end.

Definition is_variant (v : ExperimentVariant) (r : ExperimentObservationRecord) : bool :=
  bool_decide (ob_variant r = v).

Definition summarizeEvidenceRecords (experimentId metricName : string)
    (records : list ExperimentObservationRecord) (guardrailMetricName : option string) :
    option ExperimentEvidenceSummary :=
  let outcomeRows := bfilter (fun r =>
    negb (ob_isGuardrail r) && bool_decide (ob_metricName r = metricName)) records in
  let metric v rows := mean (ob_metricValue <$> bfilter (is_variant v) rows) in
  match metric var_a outcomeRows, metric var_b outcomeRows with
  | Some baselineMetric, Some candidateMetric =>
      let guardrailRows :=
        if truthy guardrailMetricName
        then bfilter (fun r => ob_isGuardrail r &&
               bool_decide (Some (ob_metricName r) = guardrailMetricName)) records
        else [] in
      let baselineGuardrailMetric := metric var_a guardrailRows in
      let candidateGuardrailMetric := metric var_b guardrailRows in
      let rawRegression :=
        match baselineGuardrailMetric, candidateGuardrailMetric with
        | Some b, Some c => num_sub c b
        | _, _ => num_zero
        end in
      Some (mkEvidence experimentId metricName (N.of_nat (length outcomeRows))
        (N.of_nat (length (remove_dups
          ((fun r => ob_entityType r +:+ ":" +:+ ob_entityId r) <$> outcomeRows))))
        baselineMetric candidateMetric
        (mean (ob_attributionConfidence <$> outcomeRows) ?: num_zero)
        baselineGuardrailMetric candidateGuardrailMetric (num_max num_zero rawRegression))
  | _, _ => None
  end.

(** ** The in-memory repository *)

Module InMemoryExperiments.
Record State := mkState {
  experimentsById : jsmap ExperimentRecord;
  experimentIdByKey : jsmap string;
  assignmentsById : jsmap ExperimentAssignmentRecord;
  assignmentIdByEntity : jsmap string;
  observationsById : jsmap ExperimentObservationRecord;
  observationIdByKey : jsmap string;
}.

#[export] Instance state_eta : Eta State := fun s =>
  mkState (experimentsById s) (experimentIdByKey s) (assignmentsById s) (assignmentIdByEntity s)
    (observationsById s) (observationIdByKey s).

Definition init : State := mkState [] [] [] [] [] [].

Definition experimentKey (tenantId key : string) : string := tenantId +:+ ":" +:+ key.
Definition assignmentKey (tenantId experimentId entityType entityId : string) : string :=
  tenantId +:+ ":" +:+ experimentId +:+ ":" +:+ entityType +:+ ":" +:+ entityId.
Definition observationKey (tenantId experimentId idempotencyKey : string) : string :=
  tenantId +:+ ":" +:+ experimentId +:+ ":" +:+ idempotencyKey.

Section ops.
Context `{Zod}.

Definition create (env : call_env) (tenantId : string) (params : CreateExperimentParams) :
    M State ExperimentRecord :=
  parsedTenantId ← lift (tenantIdSchema tenantId);
  parsed ← lift (createExperimentParamsSchema params);
  let key := experimentKey parsedTenantId (ce_experimentKey parsed) in
  existing ← gets (fun s => indexed (experimentsById s) (experimentIdByKey s) key);
  match existing with
  | Some record => mret record
  | None =>
      let now := env_now env in
      record ← lift (experimentRecordSchema
        (new_experiment (env_uuid env) parsedTenantId parsed now));
      modify (fun s => s <| experimentsById := mapSet (ex_id record) record (experimentsById s) |>);;
      modify (fun s => s <| experimentIdByKey := mapSet key (ex_id record) (experimentIdByKey s) |>);;
      mret record
  end.

Definition getById (tenantId id : string) : M State (option ExperimentRecord) :=
  parsedTenantId ← lift (tenantIdSchema tenantId);
  record ← gets (fun s => mapGet id (experimentsById s));
  mret (match record with
        | Some r => if bool_decide (ex_tenantId r = parsedTenantId) then Some r else None
        | None => None
        end).

Definition listRecent (tenantId : string) (limit : option Z) : M State (list ExperimentRecord) :=
  parsedTenantId ← lift (tenantIdSchema tenantId);
  parsedLimit ← lift (normalizeLimit limit);
  gets (fun s => slice0 parsedLimit
    (sort_by (fun a b => ex_updatedAt b <=? ex_updatedAt a)
      (bfilter (fun r => bool_decide (ex_tenantId r = parsedTenantId))
        (mapValues (experimentsById s))))).

Definition getSummary (tenantId : string) : M State ExperimentStatusSummary :=
  parsedTenantId ← lift (tenantIdSchema tenantId);
  gets (fun s => fold_left (fun acc r =>
    if negb (bool_decide (ex_tenantId r = parsedTenantId)) then acc
    else mkExperimentSummary (es_total acc + 1)
      (fun st => if bool_decide (st = ex_status r) then (es_byStatus acc st + 1)%N
                 else es_byStatus acc st))
    (mapValues (experimentsById s)) emptyExperimentStatusSummary).

Definition transition (env : call_env) (tenantId id : string)
    (fromStatus toStatus : ExperimentStatus) (params : TransitionExperimentParams) :
    M State (option ExperimentRecord) :=
  parsedTenantId ← lift (tenantIdSchema tenantId);
  parsedParams ← lift (transitionExperimentParamsSchema params);
  lift (assertExperimentTransition fromStatus toStatus);;
  found ← gets (fun s => mapGet id (experimentsById s));
  match found with
  | None => mret None
  | Some existing =>
      if negb (bool_decide (ex_tenantId existing = parsedTenantId)) ||
         negb (bool_decide (ex_status existing = fromStatus))
      then mret None
      else
        let now := env_now env in
        let terminal := bool_decide (toStatus = exp_concluded) || bool_decide (toStatus = exp_abandoned) in
        updated ← lift (experimentRecordSchema
          (with_lifecycle existing toStatus
             (te_winner parsedParams ?:? ex_winner existing)
             (te_confidence parsedParams ?:? ex_confidence existing)
             (if bool_decide (toStatus = exp_running)
              then Some (ex_startedAt existing ?: now) else ex_startedAt existing)
             (if terminal then Some (te_endedAt parsedParams ?:? ex_endedAt existing ?: now)
              else ex_endedAt existing)
             now));
        modify (fun s => s <| experimentsById := mapSet id updated (experimentsById s) |>);;
        mret (Some updated)
  end.

(** [others] is what the other tasks do while the call awaits [getById]. *)
Definition assign (others : State -> State) (env : call_env) (tenantId : string)
    (params : AssignExperimentParams) : M State AssignExperimentResult :=
  parsedTenantId ← lift (tenantIdSchema tenantId);
  parsed ← lift (assignExperimentParamsSchema params);
  found ← getById parsedTenantId (ap_experimentId parsed);
  await others;;
  match found with
  | None => throw (JsError "Experiment does not exist for this tenant.")
  | Some experiment =>
      if negb (bool_decide (ex_status experiment = exp_draft)) &&
         negb (bool_decide (ex_status experiment = exp_running))
      then throw (JsError "Assignments are only allowed for draft or running experiments.")
      else
        let key := assignmentKey parsedTenantId (ap_experimentId parsed) (ap_entityType parsed)
                     (ap_entityId parsed) in
        existing ← gets (fun s => indexed (assignmentsById s) (assignmentIdByEntity s) key);
        match existing with
        | Some a => mret (mkAssignResult a true)
        | None =>
            let now := env_now env in
            a ← lift (experimentAssignmentRecordSchema
              (new_assignment (env_uuid env) parsedTenantId parsed now));
            modify (fun s => s <| assignmentsById := mapSet (as_id a) a (assignmentsById s) |>);;
            modify (fun s =>
              s <| assignmentIdByEntity := mapSet key (as_id a) (assignmentIdByEntity s) |>);;
            mret (mkAssignResult a false)
        end
  end.

(** The unit named by an observation is the one its assignment names. *)
Definition unit_matches (tenantId : string) (p : RecordExperimentObservationParams)
    (a : ExperimentAssignmentRecord) : bool :=
  bool_decide (as_tenantId a = tenantId) &&
  bool_decide (as_experimentId a = ro_experimentId p) &&
  bool_decide (as_entityType a = ro_entityType p) &&
  bool_decide (as_entityId a = ro_entityId p) &&
  bool_decide (as_variant a = ro_variant p).

Definition observable_status (s : ExperimentStatus) : bool :=
  bool_decide (s ∈ [exp_running; exp_concluded; exp_promoted; exp_rolled_back]).

Definition recordObservation (others : State -> State) (env : call_env) (tenantId : string)
    (params : RecordExperimentObservationParams) : M State ExperimentObservationRecord :=
  parsedTenantId ← lift (tenantIdSchema tenantId);
  parsed ← lift (recordExperimentObservationParamsSchema params);
  found ← getById parsedTenantId (ro_experimentId parsed);
  await others;;
  match found with
  | None => throw (JsError "Experiment does not exist for this tenant.")
  | Some experiment =>
      if negb (observable_status (ex_status experiment))
      then throw (JsError "Observations require a running or completed experiment.")
      else
        a ← gets (fun s => mapGet (ro_assignmentId parsed ?: "") (assignmentsById s));
        if truthy (ro_assignmentId parsed) &&
           negb (match a with Some a => unit_matches parsedTenantId parsed a | None => false end)
        then throw (JsError "Observation assignment does not match the experiment unit.")
        else
          let key := observationKey parsedTenantId (ro_experimentId parsed)
                       (ro_idempotencyKey parsed) in
          existing ← gets (fun s => indexed (observationsById s) (observationIdByKey s) key);
          match existing with
          | Some record => mret record
          | None =>
              let now := env_now env in
              record ← lift (experimentObservationRecordSchema
                (new_observation (env_uuid env) parsedTenantId parsed now));
              modify (fun s =>
                s <| observationsById := mapSet (ob_id record) record (observationsById s) |>);;
              modify (fun s =>
                s <| observationIdByKey := mapSet key (ob_id record) (observationIdByKey s) |>);;
              mret record
          end
  end.

Definition recordOutcome := recordObservation.

Definition listObservations (tenantId experimentId : string) (metricName : option string)
    (limit : option Z) : M State (list ExperimentObservationRecord) :=
  parsedTenantId ← lift (tenantIdSchema tenantId);
  parsedLimit ← lift (normalizeLimit limit);
  gets (fun s => slice0 parsedLimit
    (sort_by (fun a b => ob_observedAt b <=? ob_observedAt a)
      (bfilter (fun r => bool_decide (ob_tenantId r = parsedTenantId) &&
          bool_decide (ob_experimentId r = experimentId) &&
          match metricName with Some m => bool_decide (ob_metricName r = m) | None => true end)
        (mapValues (observationsById s))))).

Definition summarizeEvidence (others : State -> State) (tenantId experimentId metricName : string)
    (guardrailMetricName : option string) : M State (option ExperimentEvidenceSummary) :=
  parsedTenantId ← lift (tenantIdSchema tenantId);
  found ← getById parsedTenantId experimentId;
  await others;;
  match found with
  | None => mret None
  | Some _ =>
      gets (fun s => summarizeEvidenceRecords experimentId metricName
        (bfilter (fun r => bool_decide (ob_tenantId r = parsedTenantId) &&
                           bool_decide (ob_experimentId r = experimentId))
           (mapValues (observationsById s))) guardrailMetricName)
  end.
End ops.
End InMemoryExperiments.

(** ** Interleaved executions *)

Section steps.
Context `{Zod}.
Import InMemoryExperiments.

(** [crypto.randomUUID()] yields an id no record has. *)
Definition fresh (env : call_env) (s : State) : Prop :=
  mapGet (env_uuid env) (experimentsById s) = None /\
  mapGet (env_uuid env) (assignmentsById s) = None /\
  mapGet (env_uuid env) (observationsById s) = None.

(** What a set of tasks can do to the repository: calls in sequence, where a
    call that awaits lets the others run in the middle of it. *)
Inductive steps : State -> State -> Prop :=
  | steps_refl s : steps s s
  | steps_trans s1 s2 s3 : steps s1 s2 -> steps s2 s3 -> steps s1 s3
  | steps_create env tn p s : fresh env s -> steps s (create env tn p s).2
  | steps_transition env tn id from to p s : steps s (transition env tn id from to p s).2
  | steps_assign others env tn p s :
      steps s (others s) -> fresh env (others s) -> steps s (assign others env tn p s).2
  | steps_observe others env tn p s :
      steps s (others s) -> fresh env (others s) -> steps s (recordObservation others env tn p s).2.
End steps.

(** ** Invariants *)

Section lemmas.
Context `{Z : Zod} {ZL : ZodLaws Z}.
Import InMemoryExperiments.

Definition ex_kf (r : ExperimentRecord) : string := experimentKey (ex_tenantId r) (ex_experimentKey r).
Definition as_kf (r : ExperimentAssignmentRecord) : string :=
  assignmentKey (as_tenantId r) (as_experimentId r) (as_entityType r) (as_entityId r).
Definition ob_kf (r : ExperimentObservationRecord) : string :=
  observationKey (ob_tenantId r) (ob_experimentId r) (ob_idempotencyKey r).

#[export] Instance experimentRecordSchema_idem : IdemParse experimentRecordSchema.
Proof. unfold experimentRecordSchema. solve_idem_record. Qed.
#[export] Instance assignmentRecordSchema_idem : IdemParse experimentAssignmentRecordSchema.
Proof. unfold experimentAssignmentRecordSchema. solve_idem_record. Qed.
#[export] Instance observationRecordSchema_idem : IdemParse experimentObservationRecordSchema.
Proof. unfold experimentObservationRecordSchema. solve_idem_record. Qed.

(** What the record schemas do: the texts come back trimmed, all other fields
    as they were. *)
Definition trim_experiment (r : ExperimentRecord) : ExperimentRecord :=
  mkExperiment (ex_id r) (ex_tenantId r) (trim (ex_experimentKey r)) (trim (ex_motion r))
    (trim (ex_experimentType r)) (trim (ex_unitType r)) (trim (ex_hypothesis r)) (ex_variantA r)
    (ex_variantB r) (trim (ex_metricName r)) (ex_metricDirection r) (ex_minSampleSize r)
    (ex_status r) (ex_winner r) (ex_confidence r) (ex_inputSnapshot r) (ex_modelVersion r)
    (ex_promptVersion r) (ex_playbookVersion r) (ex_policyVersion r) (trim (ex_createdBy r))
    (ex_startedAt r) (ex_endedAt r) (ex_createdAt r) (ex_updatedAt r).

Lemma experimentRecordSchema_fields r r' : experimentRecordSchema r = Ok r' ->
  r' = trim_experiment r /\ zod_uuid (ex_id r) = true.
Proof.
  unfold experimentRecordSchema. intros H. schema_fields H. subst r'.
  split; [done|]. by apply uuid_ok in E as [? _].
Qed.

(** Of an assignment or an observation: its identity, its unit, its arm. *)
Lemma assignmentRecordSchema_fields r r' : experimentAssignmentRecordSchema r = Ok r' ->
  zod_uuid (as_id r) = true /\ as_id r' = as_id r /\ as_tenantId r' = as_tenantId r /\
  as_experimentId r' = as_experimentId r /\ as_entityType r' = trim (as_entityType r) /\
  as_entityId r' = trim (as_entityId r) /\ as_variant r' = as_variant r.
Proof.
  unfold experimentAssignmentRecordSchema. intros H. schema_fields H. subst r'.
  apply uuid_ok in E as [? _]. by split_and!.
Qed.

Lemma observationRecordSchema_fields r r' : experimentObservationRecordSchema r = Ok r' ->
  zod_uuid (ob_id r) = true /\ ob_id r' = ob_id r /\ ob_tenantId r' = ob_tenantId r /\
  ob_experimentId r' = ob_experimentId r /\ ob_assignmentId r' = ob_assignmentId r /\
  ob_idempotencyKey r' = trim (ob_idempotencyKey r) /\ ob_entityType r' = trim (ob_entityType r) /\
  ob_entityId r' = trim (ob_entityId r) /\ ob_variant r' = ob_variant r.
Proof.
  unfold experimentObservationRecordSchema. intros H. schema_fields H. subst r'.
  apply uuid_ok in E as [? _]. by split_and!.
Qed.

Lemma createParams_fields p p' : createExperimentParamsSchema p = Ok p' ->
  ce_experimentKey p' = trim (ce_experimentKey p).
Proof. unfold createExperimentParamsSchema. intros H. schema_fields H. by subst p'. Qed.

Lemma assignParams_fields p p' : assignExperimentParamsSchema p = Ok p' ->
  ap_experimentId p' = ap_experimentId p /\ ap_entityType p' = trim (ap_entityType p) /\
  ap_entityId p' = trim (ap_entityId p) /\ ap_variant p' = ap_variant p.
Proof. unfold assignExperimentParamsSchema. intros H. schema_fields H. by subst p'. Qed.

Lemma observeParams_fields p p' : recordExperimentObservationParamsSchema p = Ok p' ->
  ro_experimentId p' = ro_experimentId p /\ ro_assignmentId p' = ro_assignmentId p /\
  ro_idempotencyKey p' = trim (ro_idempotencyKey p) /\ ro_entityType p' = trim (ro_entityType p) /\
  ro_entityId p' = trim (ro_entityId p) /\ ro_variant p' = ro_variant p /\
  (forall a, ro_assignmentId p = Some a -> a ≠ "").
Proof.
  unfold recordExperimentObservationParamsSchema. intros H. schema_fields H. subst p'. simpl.
  split_and!; try done. intros a Ha. rewrite Ha in E0. msimpl.
  destruct (uuid a) eqn:Eu; [|done]. apply uuid_ok in Eu as [? _]. by apply uuid_nonempty.
Qed.

(** What is written is what the parsed parameters say: the record schemas
    leave it as it is. *)
Lemma new_experiment_same id tn p p' now r : createExperimentParamsSchema p = Ok p' ->
  experimentRecordSchema (new_experiment id tn p' now) = Ok r ->
  r = new_experiment id tn p' now.
Proof.
  unfold createExperimentParamsSchema. intros H. schema_fields H. subst p'.
  intros [-> _]%experimentRecordSchema_fields. unfold new_experiment, trim_experiment. simpl.
  by rewrite !trim_idem.
Qed.

Lemma create_params_size p p' : createExperimentParamsSchema p = Ok p' ->
  0 < ce_minSampleSize p' /\ ce_minSampleSize p' = ce_minSampleSize p.
Proof.
  unfold createExperimentParamsSchema. intros H. schema_fields H. subst p'. split; [|done].
  match goal with H : positive_int _ = _ |- _ => apply refine_ok in H as [Hp _] end. by b2p.
Qed.

Lemma new_assignment_same id tn p p' now a : assignExperimentParamsSchema p = Ok p' ->
  experimentAssignmentRecordSchema (new_assignment id tn p' now) = Ok a ->
  a = new_assignment id tn p' now.
Proof.
  unfold assignExperimentParamsSchema. intros H. schema_fields H. subst p'.
  unfold experimentAssignmentRecordSchema, new_assignment. cbn. intros H. schema_fields H.
  subst a. by rewrite !trim_idem.
Qed.

Lemma new_observation_same id tn p p' now o : recordExperimentObservationParamsSchema p = Ok p' ->
  experimentObservationRecordSchema (new_observation id tn p' now) = Ok o ->
  o = new_observation id tn p' now.
Proof.
  unfold recordExperimentObservationParamsSchema. intros H. schema_fields H. subst p'.
  unfold experimentObservationRecordSchema, new_observation. cbn. intros H. schema_fields H.
  subst o. by rewrite !trim_idem.
Qed.

(** *** The invariant of the six maps *)

(** The assignment an observation names is the one of its unit. *)
Definition assignment_matches (o : ExperimentObservationRecord) (a : ExperimentAssignmentRecord) :
    Prop :=
  as_tenantId a = ob_tenantId o /\ as_experimentId a = ob_experimentId o /\
  as_entityType a = ob_entityType o /\ as_entityId a = ob_entityId o /\ as_variant a = ob_variant o.

Record exp_inv (s : State) : Prop := {
  ei_exp : index_inv ex_id ex_kf (experimentsById s) (experimentIdByKey s);
  ei_asg : index_inv as_id as_kf (assignmentsById s) (assignmentIdByEntity s);
  ei_obs : index_inv ob_id ob_kf (observationsById s) (observationIdByKey s);
  ei_valid id r : mapGet id (experimentsById s) = Some r -> experimentRecordSchema r = Ok r;
  ei_link id o a : mapGet id (observationsById s) = Some o -> ob_assignmentId o = Some a ->
    exists asg, mapGet a (assignmentsById s) = Some asg /\ assignment_matches o asg;
}.

Lemma exp_inv_init : exp_inv init.
Proof. by split; try apply index_inv_nil. Qed.

(** One edge of the lifecycle table. *)
Definition lifecycle (from to : ExperimentStatus) : Prop := to ∈ experimentTransitions from.

Lemma lifecycle_irrefl st : ~ lifecycle st st.
Proof.
  unfold lifecycle. intros H. apply (bool_decide_eq_true_2 _) in H. by destruct st.
Qed.

(** The design of an experiment: everything but its lifecycle fields. *)
Definition design (r : ExperimentRecord) : ExperimentRecord :=
  with_lifecycle r exp_draft None None None None 0.

(** What may change with time: statuses follow the lifecycle, designs stay,
    assignments and observations are append-only. *)
Record evolves (s s' : State) : Prop := {
  el_exp id r : mapGet id (experimentsById s) = Some r ->
    exists r', mapGet id (experimentsById s') = Some r' /\ design r' = design r /\
      rtc lifecycle (ex_status r) (ex_status r');
  el_asg id a : mapGet id (assignmentsById s) = Some a -> mapGet id (assignmentsById s') = Some a;
  el_obs id o : mapGet id (observationsById s) = Some o -> mapGet id (observationsById s') = Some o;
}.

#[export] Instance evolves_refl : Reflexive evolves.
Proof. intros s. split; [|done..]. intros id r Hr. by exists r. Qed.

#[export] Instance evolves_trans : Transitive evolves.
Proof.
  intros s1 s2 s3 [A1 B1 C1] [A2 B2 C2]. split; [|eauto..].
  intros id r Hr. destruct (A1 _ _ Hr) as (r2 & Hr2 & D2 & L2).
  destruct (A2 _ _ Hr2) as (r3 & Hr3 & D3 & L3). exists r3.
  split_and!; [done|congruence|by etrans].
Qed.

(** *** Inserting a record *)

Lemma mapGet_fresh_same {V} (m : jsmap V) k v id w :
  mapGet k m = None -> mapGet id m = Some w -> mapGet id (mapSet k v m) = Some w.
Proof. intros Hk Hid. rewrite mapGet_set_ne; [done|]. intros ->. congruence. Qed.

Lemma insert_experiment s r : exp_inv s -> experimentRecordSchema r = Ok r ->
  mapGet (ex_id r) (experimentsById s) = None -> mapGet (ex_kf r) (experimentIdByKey s) = None ->
  let s' := s <| experimentsById := mapSet (ex_id r) r (experimentsById s) |>
              <| experimentIdByKey := mapSet (ex_kf r) (ex_id r) (experimentIdByKey s) |> in
  exp_inv s' /\ evolves s s'.
Proof.
  intros Hs Hr Hid Hk s'. destruct (experimentRecordSchema_fields _ _ Hr) as [_ Hu].
  split; split; try apply Hs.
  - simpl. apply index_insert; [apply Hs|by apply uuid_nonempty|done|done].
  - intros id r'. simpl. rewrite mapGet_set. case_bool_decide; [by intros [= <-]|apply Hs].
  - intros id r' Hr'. exists r'. split; [by apply mapGet_fresh_same|done].
  - done.
  - done.
Qed.

Lemma insert_assignment s a : exp_inv s -> experimentAssignmentRecordSchema a = Ok a ->
  mapGet (as_id a) (assignmentsById s) = None -> mapGet (as_kf a) (assignmentIdByEntity s) = None ->
  let s' := s <| assignmentsById := mapSet (as_id a) a (assignmentsById s) |>
              <| assignmentIdByEntity := mapSet (as_kf a) (as_id a) (assignmentIdByEntity s) |> in
  exp_inv s' /\ evolves s s'.
Proof.
  intros Hs Ha Hid Hk s'. destruct (assignmentRecordSchema_fields _ _ Ha) as [Hu _].
  split; split; try apply Hs; simpl.
  - apply index_insert; [apply Hs|by apply uuid_nonempty|done|done].
  - intros id o b Ho Hb. destruct (ei_link _ Hs _ _ _ Ho Hb) as (asg & Hg & Hm).
    exists asg. split; [by apply mapGet_fresh_same|done].
  - intros id r Hr. by exists r.
  - intros id b. by apply mapGet_fresh_same.
  - done.
Qed.

Lemma insert_observation s o : exp_inv s -> experimentObservationRecordSchema o = Ok o ->
  mapGet (ob_id o) (observationsById s) = None -> mapGet (ob_kf o) (observationIdByKey s) = None ->
  (forall a, ob_assignmentId o = Some a ->
     exists asg, mapGet a (assignmentsById s) = Some asg /\ assignment_matches o asg) ->
  let s' := s <| observationsById := mapSet (ob_id o) o (observationsById s) |>
              <| observationIdByKey := mapSet (ob_kf o) (ob_id o) (observationIdByKey s) |> in
  exp_inv s' /\ evolves s s'.
Proof.
  intros Hs Ho Hid Hk Hl s'. destruct (observationRecordSchema_fields _ _ Ho) as [Hu _].
  split; split; try apply Hs; simpl.
  - apply index_insert; [apply Hs|by apply uuid_nonempty|done|done].
  - intros id o' b. rewrite mapGet_set. case_bool_decide; [by intros [= <-]; apply Hl|apply Hs].
  - intros id r Hr. by exists r.
  - done.
  - intros id b. by apply mapGet_fresh_same.
Qed.

(** *** Each operation *)

Lemma create_steps env tn p s : exp_inv s -> fresh env s ->
  exp_inv (create env tn p s).2 /\ evolves s (create env tn p s).2.
Proof.
  intros Hs (Hf & _). unfold create. msimpl.
  destruct (tenantIdSchema tn) as [tn'|]; [|done].
  destruct (createExperimentParamsSchema p) as [p'|] eqn:Hp; [|done].
  destruct (indexed _ _ _) eqn:Hi; [done|]. apply (indexed_none _ _ _ _ _ (ei_exp _ Hs)) in Hi.
  destruct (experimentRecordSchema _) as [r|] eqn:Hr; [|done].
  pose proof (idem_parse _ _ Hr) as Hr'. apply createParams_fields in Hp.
  apply experimentRecordSchema_fields in Hr as [-> _].
  set (r := trim_experiment _) in *.
  assert (experimentKey tn' (ce_experimentKey p') = ex_kf r) as Hkf.
  { unfold ex_kf. simpl. by rewrite Hp, trim_idem. }
  rewrite Hkf in *. exact (insert_experiment s r Hs Hr' Hf Hi).
Qed.

(** A record with the design of a valid one is valid when its confidence is. *)
Lemma experimentRecordSchema_update r u : experimentRecordSchema r = Ok r ->
  design u = design r -> zod_optional unit_number (ex_confidence u) = Ok (ex_confidence u) ->
  experimentRecordSchema u = Ok u.
Proof.
  intros Hr Hd Hc. destruct r, u. unfold design, with_lifecycle in Hd. cbn in Hd, Hc.
  injection Hd. intros. subst. clear Hd. unfold experimentRecordSchema in *.
  cbv beta delta [mret result_ret mbind result_bind] in *. cbn in *.
  repeat match type of Hr with
  | match ?m with Ok _ => _ | Err _ => _ end = _ => destruct m; [|discriminate Hr]
  end.
  rewrite Hc. injection Hr. intros. by subst.
Qed.

Lemma transition_confidence r p p' : experimentRecordSchema r = Ok r ->
  transitionExperimentParamsSchema p = Ok p' ->
  zod_optional unit_number (te_confidence p' ?:? ex_confidence r) =
    Ok (te_confidence p' ?:? ex_confidence r).
Proof.
  intros Hv Hp. unfold transitionExperimentParamsSchema in Hp. msimpl.
  destruct (zod_optional unit_number (te_confidence p)) as [c|] eqn:Ec; [|done].
  injection Hp as <-. simpl. pose proof (same_parse _ _ Ec) as ->.
  destruct (te_confidence p); [done|]. simpl.
  unfold experimentRecordSchema in Hv. by schema_fields Hv.
Qed.

(** On a stored experiment in the expected status the transition succeeds. *)
Lemma transition_found env tn id from to p s r : exp_inv s ->
  mapGet id (experimentsById s) = Some r ->
  tenantIdSchema tn = Ok tn -> (exists p', transitionExperimentParamsSchema p = Ok p') ->
  to ∈ experimentTransitions from -> ex_tenantId r = tn -> ex_status r = from ->
  exists r', transition env tn id from to p s =
      (Ok (Some r'), s <| experimentsById := mapSet id r' (experimentsById s) |>) /\
    design r' = design r /\ ex_status r' = to /\ experimentRecordSchema r' = Ok r'.
Proof.
  intros Hs Hr Ht [p' Hp] Hto <- <-. unfold transition. rewrite Ht. msimpl. rewrite Hp. simpl.
  unfold assertExperimentTransition. rewrite bool_decide_true by done. simpl. rewrite Hr.
  rewrite !bool_decide_true by done. simpl.
  pose proof (ei_valid _ Hs _ _ Hr) as Hv.
  pose proof (transition_confidence r p p' Hv Hp) as Hc.
  rewrite (experimentRecordSchema_update r _ Hv); [|done|done].
  eexists. split; [reflexivity|]. split_and!; [done|done|].
  by apply (experimentRecordSchema_update r).
Qed.

(** Otherwise it changes nothing. *)
Lemma transition_cases env tn id from to p s : exp_inv s ->
  (exists r r', mapGet id (experimentsById s) = Some r /\
     transition env tn id from to p s =
       (Ok (Some r'), s <| experimentsById := mapSet id r' (experimentsById s) |>) /\
     ex_tenantId r = tn /\ ex_status r = from /\ lifecycle from to /\
     design r' = design r /\ ex_status r' = to /\ experimentRecordSchema r' = Ok r') \/
  (transition env tn id from to p s).2 = s /\
  forall r', (transition env tn id from to p s).1 ≠ Ok (Some r').
Proof.
  intros Hs. destruct (tenantIdSchema tn) as [tn'|] eqn:Ht.
  2: { right. unfold transition. rewrite Ht. msimpl. done. }
  pose proof (same_parse _ _ Ht) as ->.
  destruct (transitionExperimentParamsSchema p) as [p'|] eqn:Hp.
  2: { right. unfold transition. rewrite Ht, Hp. msimpl. done. }
  destruct (decide (to ∈ experimentTransitions from)) as [Hto|Hto].
  2: { right. unfold transition, assertExperimentTransition.
       rewrite Ht, Hp, (bool_decide_false _ Hto). msimpl. done. }
  destruct (mapGet id (experimentsById s)) as [r|] eqn:Hr.
  2: { right. unfold transition, assertExperimentTransition.
       rewrite Ht, Hp, (bool_decide_true _ Hto). msimpl. by rewrite Hr. }
  destruct (decide (ex_tenantId r = tn /\ ex_status r = from)) as [[Htn Hst]|Hno].
  - left. destruct (transition_found env tn id from to p s r Hs Hr Ht (ex_intro _ _ Hp) Hto Htn Hst)
      as (r' & He & Hd & Hs' & Hv). by exists r, r'.
  - right. unfold transition, assertExperimentTransition.
    rewrite Ht, Hp, (bool_decide_true _ Hto). msimpl. rewrite Hr.
    assert (negb (bool_decide (ex_tenantId r = tn)) || negb (bool_decide (ex_status r = from)) = true)
      as ->; [|done].
    apply not_and_l in Hno as [Hno|Hno]; rewrite (bool_decide_false _ Hno); by rewrite ?orb_true_r.
Qed.

Lemma design_key r r' : design r' = design r -> ex_id r' = ex_id r /\ ex_kf r' = ex_kf r.
Proof.
  intros Hd. split; [exact (f_equal ex_id Hd)|]. unfold ex_kf.
  by rewrite (f_equal ex_tenantId Hd : ex_tenantId r' = _),
    (f_equal ex_experimentKey Hd : ex_experimentKey r' = _).
Qed.

Lemma transition_steps env tn id from to p s : exp_inv s ->
  exp_inv (transition env tn id from to p s).2 /\ evolves s (transition env tn id from to p s).2.
Proof.
  intros Hs. destruct (transition_cases env tn id from to p s Hs)
    as [(r & r' & Hr & -> & _ & <- & Hl & Hd & Hst & Hv)|[-> _]]; [|done].
  destruct (design_key _ _ Hd) as [Hid Hkf]. simpl. split; split; try apply Hs; simpl.
  - by apply (index_update _ _ _ _ _ r r' (ei_exp _ Hs)).
  - intros id' q. rewrite mapGet_set. case_bool_decide; [by intros [= <-]|apply Hs].
  - intros id' q Hq. rewrite mapGet_set. case_bool_decide as E; [subst id'|by exists q].
    rewrite Hr in Hq. injection Hq as <-. exists r'. split_and!; [done|done|].
    rewrite Hst. by apply rtc_once.
  - done.
  - done.
Qed.

(** [assign], after its await, in state [s]: the assignment stored under the
    unit's key, or a new one. *)
Lemma assign_cases others env tn p s : exp_inv (others s) ->
  match assign others env tn p s with
  | (Ok res, s') =>
      let a := assignment res in
      as_kf a = assignmentKey tn (ap_experimentId p) (trim (ap_entityType p)) (trim (ap_entityId p)) /\
      mapGet (as_id a) (assignmentsById s') = Some a /\
      (if isExisting res then s' = others s
       else as_id a = env_uuid env /\ as_variant a = ap_variant p /\
            experimentAssignmentRecordSchema a = Ok a /\
            mapGet (as_kf a) (assignmentIdByEntity (others s)) = None /\
            s' = others s <| assignmentsById := mapSet (as_id a) a (assignmentsById (others s)) |>
              <| assignmentIdByEntity :=
                   mapSet (as_kf a) (as_id a) (assignmentIdByEntity (others s)) |>)
  | (Err _, s') => s' = s \/ s' = others s
  end.
Proof.
  intros Hs. unfold assign, getById, await. msimpl.
  destruct (tenantIdSchema tn) as [tn'|] eqn:Ht; [|by left]. pose proof (same_parse _ _ Ht) as ->.
  destruct (assignExperimentParamsSchema p) as [p'|] eqn:Hp; [|by left].
  apply assignParams_fields in Hp as (He & Hty & Hid & Hv). rewrite Ht. simpl.
  destruct (match mapGet _ (experimentsById s) with Some _ => _ | None => _ end); [|by right].
  destruct (_ && _); [by right|]. rewrite He, Hty, Hid.
  destruct (indexed _ _ _) as [a|] eqn:Hi.
  - apply (indexed_some _ _ _ _ _ _ (ei_asg _ Hs)) in Hi as [Hi Hk]. simpl. done.
  - apply (indexed_none _ _ _ _ _ (ei_asg _ Hs)) in Hi.
    destruct (experimentAssignmentRecordSchema _) as [a|] eqn:Ha; [|by right]. simpl.
    pose proof (idem_parse _ _ Ha) as Ha'.
    apply assignmentRecordSchema_fields in Ha as (_ & Hid' & Htn' & Hex' & Hty' & Heid' & Hv').
    simpl in *.
    assert (as_kf a = assignmentKey tn (ap_experimentId p) (trim (ap_entityType p))
      (trim (ap_entityId p))) as Hk.
    { unfold as_kf. by rewrite Htn', Hex', Hty', Heid', He, Hty, Hid, !trim_idem. }
    rewrite mapGet_set_eq, <- Hk in *. split_and!; congruence || done.
Qed.

Lemma assign_steps others env tn p s : exp_inv s -> exp_inv (others s) -> evolves s (others s) ->
  fresh env (others s) ->
  exp_inv (assign others env tn p s).2 /\ evolves s (assign others env tn p s).2.
Proof.
  intros Hs0 Hs He (_ & Hf & _). pose proof (assign_cases others env tn p s Hs) as H.
  destruct (assign others env tn p s) as [[[a []]|e] s']; simpl in *.
  - by destruct H as (_ & _ & ->).
  - destruct H as (_ & _ & Hid & _ & Ha & Hk & ->). rewrite <- Hid in Hf.
    destruct (insert_assignment _ _ Hs Ha Hf Hk). split; [done|by etrans].
  - by destruct H as [-> | ->].
Qed.

Lemma unit_matches_spec tn p o a : unit_matches tn p a = true ->
  ob_tenantId o = tn -> ob_experimentId o = ro_experimentId p ->
  ob_entityType o = ro_entityType p -> ob_entityId o = ro_entityId p ->
  ob_variant o = ro_variant p -> assignment_matches o a.
Proof.
  unfold unit_matches, assignment_matches. rewrite !andb_true_iff, !bool_decide_eq_true.
  intros [[[[? ?] ?] ?] ?]. intros. split_and!; congruence.
Qed.

Lemma observe_cases others env tn p s : exp_inv (others s) ->
  match recordObservation others env tn p s with
  | (Ok o, s') =>
      ob_kf o = observationKey tn (ro_experimentId p) (trim (ro_idempotencyKey p)) /\
      mapGet (ob_id o) (observationsById s') = Some o /\
      (s' = others s \/
       ob_id o = env_uuid env /\ experimentObservationRecordSchema o = Ok o /\
       mapGet (ob_kf o) (observationIdByKey (others s)) = None /\
       (forall a, ob_assignmentId o = Some a ->
          exists asg, mapGet a (assignmentsById (others s)) = Some asg /\ assignment_matches o asg) /\
       s' = others s <| observationsById := mapSet (ob_id o) o (observationsById (others s)) |>
              <| observationIdByKey := mapSet (ob_kf o) (ob_id o) (observationIdByKey (others s)) |>)
  | (Err _, s') => s' = s \/ s' = others s
  end.
Proof.
  intros Hs. unfold recordObservation, getById, await. msimpl.
  destruct (tenantIdSchema tn) as [tn'|] eqn:Ht; [|by left]. pose proof (same_parse _ _ Ht) as ->.
  destruct (recordExperimentObservationParamsSchema p) as [p'|] eqn:Hp; [|by left].
  apply observeParams_fields in Hp as (He & Hasg & Hik & Hty & Hid & Hv & Hne). rewrite Ht. simpl.
  destruct (match mapGet _ (experimentsById s) with Some _ => _ | None => _ end); [|by right].
  destruct (negb _); [by right|].
  match goal with |- context [truthy ?a && negb ?b] => destruct (truthy a && negb b) eqn:Hm end;
    [by right|].
  destruct (indexed _ _ _) as [o|] eqn:Hi.
  { rewrite He, Hik in Hi. apply (indexed_some _ _ _ _ _ _ (ei_obs _ Hs)) in Hi as [Hi Hk].
    simpl. split_and!; [done|done|by left]. }
  apply (indexed_none _ _ _ _ _ (ei_obs _ Hs)) in Hi.
  destruct (experimentObservationRecordSchema _) as [o|] eqn:Ho; [|by right]. simpl.
  pose proof (idem_parse _ _ Ho) as Ho'.
  apply observationRecordSchema_fields in Ho as (_ & Hid' & Htn' & Hex' & Has' & Hik' & Hty' & Heid' & Hv').
  simpl in *.
  assert (ob_kf o = observationKey tn (ro_experimentId p') (ro_idempotencyKey p')) as Hk.
  { unfold ob_kf. by rewrite Htn', Hex', Hik', Hik, trim_idem. }
  rewrite mapGet_set_eq, <- He, <- Hik, <- Hk in *. split_and!; [done|done|]. right.
  split_and!; [done|done|done| |done]. intros a Ha. rewrite Has' in Ha. rewrite Ha in Hm. simpl in Hm.
  rewrite Hasg in Ha. pose proof (Hne _ Ha) as Hne'.
  assert (match a with "" => false | _ => true end = true) as Hta by (by destruct a).
  rewrite Hta in Hm. simpl in Hm. apply negb_false_iff in Hm.
  destruct (mapGet a (assignmentsById (others s))) as [asg|]; [|done]. exists asg. split; [done|].
  apply (unit_matches_spec tn p'); try done.
  - by rewrite Hty', Hty, trim_idem.
  - by rewrite Heid', Hid, trim_idem.
Qed.

Lemma observe_steps others env tn p s : exp_inv s -> exp_inv (others s) -> evolves s (others s) ->
  fresh env (others s) ->
  exp_inv (recordObservation others env tn p s).2 /\
  evolves s (recordObservation others env tn p s).2.
Proof.
  intros Hs0 Hs He (_ & _ & Hf). pose proof (observe_cases others env tn p s Hs) as H.
  destruct (recordObservation others env tn p s) as [[o|e] s']; simpl in *.
  - destruct H as (_ & _ & [->|(Hid & Ho & Hk & Hl & ->)]); [done|]. rewrite <- Hid in Hf.
    destruct (insert_observation _ _ Hs Ho Hf Hk Hl). split; [done|by etrans].
  - by destruct H as [-> | ->].
Qed.

Lemma steps_sound s s' : steps s s' -> exp_inv s -> exp_inv s' /\ evolves s s'.
Proof.
  induction 1 as [s|s1 s2 s3 _ IH1 _ IH2|env tn p s Hf|env tn id from to p s
    |others env tn p s _ IH Hf|others env tn p s _ IH Hf]; intros Hs.
  - done.
  - destruct (IH1 Hs) as [H2 ?]. destruct (IH2 H2) as [H3 ?]. split; [done|by etrans].
  - by apply create_steps.
  - by apply transition_steps.
  - destruct (IH Hs). by apply assign_steps.
  - destruct (IH Hs). by apply observe_steps.
Qed.

Lemma steps_init_inv s : steps init s -> exp_inv s.
Proof. intros H. by destruct (steps_sound _ _ H exp_inv_init). Qed.

(** *** The summary *)

Lemma summary_fold tn l acc :
  let f := fun acc r =>
    if negb (bool_decide (ex_tenantId r = tn)) then acc
    else mkExperimentSummary (es_total acc + 1)
      (fun st => if bool_decide (st = ex_status r) then (es_byStatus acc st + 1)%N
                 else es_byStatus acc st) in
  es_total (fold_left f l acc) =
    (es_total acc + N.of_nat (length (bfilter (fun r => bool_decide (ex_tenantId r = tn)) l)))%N /\
  forall st, es_byStatus (fold_left f l acc) st =
    (es_byStatus acc st + N.of_nat (length (bfilter (fun r =>
       bool_decide (ex_tenantId r = tn) && bool_decide (ex_status r = st)) l)))%N.
Proof.
  intros f. revert acc. induction l as [|r l IH]; intros acc; [split; intros; simpl; lia|].
  rewrite bfilter_cons. cbn [fold_left]. destruct (IH (f acc r)) as [IHt IHs]. split.
  - rewrite IHt. unfold f. case_bool_decide; simpl; lia.
  - intros st. rewrite bfilter_cons, IHs. unfold f.
    case_bool_decide; simpl; [|lia]. rewrite (bool_decide_ext (ex_status r = st) (st = ex_status r)) by naive_solver.
    case_bool_decide; simpl; lia.
Qed.
(** Every record has one of the seven statuses. *)
Lemma count_by_status tn l :
  let n st := N.of_nat (length (bfilter (fun x =>
    bool_decide (ex_tenantId x = tn) && bool_decide (ex_status x = st)) l)) in
  N.of_nat (length (bfilter (fun r => bool_decide (ex_tenantId r = tn)) l)) =
    (n exp_draft + n exp_running + n exp_paused + n exp_concluded + n exp_abandoned +
     n exp_promoted + n exp_rolled_back)%N.
Proof.
  simpl. induction l as [|x l IH]; [done|].
  rewrite !bfilter_cons. destruct (bool_decide (ex_tenantId x = tn)); cbn [andb]; [|exact IH].
  destruct (ex_status x); repeat (case_bool_decide; try done); cbn [length]; lia.
Qed.
End lemmas.

(** ** Theorems *)

Section theorems.
Context `{Z : Zod} {ZL : ZodLaws Z}.
Import InMemoryExperiments.

(** C40. The evidence is append-only and the lifecycle is the table's: however
    the calls interleave, a stored assignment or observation is never changed
    or removed, the design of an experiment (its key, hypothesis, variants,
    metric, sample size and input snapshot) never changes, and its status
    moves only along edges of [experimentTransitions]. *)
Theorem evidence_is_append_only s s' : steps init s -> steps s s' -> evolves s s'.
Proof. intros Hs%steps_init_inv H. by destruct (steps_sound _ _ H Hs). Qed.

(** In every reachable state an observation that names an assignment
    names one that is stored, of the same tenant, experiment, entity and
    variant. *)
Theorem observation_matches_assignment s id o a : steps init s ->
  mapGet id (observationsById s) = Some o -> ob_assignmentId o = Some a ->
  exists asg, mapGet a (assignmentsById s) = Some asg /\ assignment_matches o asg.
Proof. intros Hs%steps_init_inv. apply (ei_link _ Hs). Qed.

(** Assignment is sticky: once a unit has an assignment, every later
    successful call for the same unit returns that assignment, whatever
    variant it asks for and whatever ran in between or during the call, and
    changes nothing. *)
Theorem assignment_is_sticky s0 others env tn p r s1 s2 others' env' p' r' s3 :
  steps init s0 -> steps s0 (others s0) -> fresh env (others s0) ->
  assign others env tn p s0 = (Ok r, s1) ->
  steps s1 s2 -> steps s2 (others' s2) ->
  assign others' env' tn p' s2 = (Ok r', s3) ->
  ap_experimentId p' = ap_experimentId p -> trim (ap_entityType p') = trim (ap_entityType p) ->
  trim (ap_entityId p') = trim (ap_entityId p) ->
  assignment r' = assignment r /\ isExisting r' = true /\ s3 = others' s2.
Proof.
  intros H0 Ho Hf H1 H12 Ho' H2 He Hty Hid.
  pose proof (steps_assign others env tn p s0 Ho Hf) as H01. rewrite H1 in H01. simpl in H01.
  pose proof (steps_init_inv _ (steps_trans _ _ _ H0 Ho)) as Io.
  pose proof (steps_trans _ _ _ H12 Ho') as H1o.
  assert (steps init s1) as Hi1 by (by eapply steps_trans).
  destruct (steps_sound _ _ H1o (steps_init_inv _ Hi1)) as [Io' Hev].
  pose proof (assign_cases others env tn p s0 Io) as C1. rewrite H1 in C1.
  destruct C1 as (Hk1 & Hg1 & _). apply (el_asg _ _ Hev) in Hg1.
  destruct (ix_records _ _ _ _ (ei_asg _ Io') _ _ Hg1) as [_ Hix].
  pose proof (assign_cases others' env' tn p' s2 Io') as C2. rewrite H2 in C2.
  destruct C2 as (Hk2 & Hg2 & C2). rewrite He, Hty, Hid, <- Hk1 in Hk2.
  destruct (isExisting r').
  - subst s3. split_and!; [|done|done].
    destruct (ix_records _ _ _ _ (ei_asg _ Io') _ _ Hg2) as [_ Hix2].
    rewrite Hk2, Hix in Hix2. injection Hix2 as Hix2. rewrite <- Hix2 in Hg2. congruence.
  - destruct C2 as (_ & _ & _ & Hn & _). by rewrite Hk2, Hix in Hn.
Qed.

(** Recording an observation is idempotent: a repeated delivery with the
    same experiment and idempotency key that is accepted returns the
    observation first recorded, whatever it carries, and records nothing. *)
Theorem observation_is_idempotent s0 others env tn p r s1 s2 others' env' p' r' s3 :
  steps init s0 -> steps s0 (others s0) -> fresh env (others s0) ->
  recordObservation others env tn p s0 = (Ok r, s1) ->
  steps s1 s2 -> steps s2 (others' s2) ->
  recordObservation others' env' tn p' s2 = (Ok r', s3) ->
  ro_experimentId p' = ro_experimentId p ->
  trim (ro_idempotencyKey p') = trim (ro_idempotencyKey p) ->
  r' = r /\ s3 = others' s2.
Proof.
  intros H0 Ho Hf H1 H12 Ho' H2 He Hik.
  pose proof (steps_observe others env tn p s0 Ho Hf) as H01. rewrite H1 in H01. simpl in H01.
  pose proof (steps_init_inv _ (steps_trans _ _ _ H0 Ho)) as Io.
  pose proof (steps_trans _ _ _ H12 Ho') as H1o.
  assert (steps init s1) as Hi1 by (by eapply steps_trans).
  destruct (steps_sound _ _ H1o (steps_init_inv _ Hi1)) as [Io' Hev].
  pose proof (observe_cases others env tn p s0 Io) as C1. rewrite H1 in C1.
  destruct C1 as (Hk1 & Hg1 & _). apply (el_obs _ _ Hev) in Hg1.
  destruct (ix_records _ _ _ _ (ei_obs _ Io') _ _ Hg1) as [_ Hix].
  pose proof (observe_cases others' env' tn p' s2 Io') as C2. rewrite H2 in C2.
  destruct C2 as (Hk2 & Hg2 & C2). rewrite He, Hik, <- Hk1 in Hk2.
  destruct C2 as [->|(_ & _ & Hn & _)]; [|by rewrite Hk2, Hix in Hn].
  destruct (ix_records _ _ _ _ (ei_obs _ Io') _ _ Hg2) as [_ Hix2].
  rewrite Hk2, Hix in Hix2. injection Hix2 as Hix2. rewrite <- Hix2 in Hg2.
  split; [congruence|done].
Qed.

(** The lifecycle transition is an exact compare-and-swap: in a reachable
    state it succeeds exactly when the edge is in the table, the parameters
    are valid and the tenant's experiment is in the expected status; then the
    stored experiment has the new status and the old design, and a second
    caller that expected the same old status gets [null]. *)
Theorem experiment_transition_exact env env' tn id from to p s : steps init s ->
  zod_uuid tn = true -> (exists p', transitionExperimentParamsSchema p = Ok p') ->
  ((exists r', (transition env tn id from to p s).1 = Ok (Some r')) <->
   lifecycle from to /\
   exists r, mapGet id (experimentsById s) = Some r /\ ex_tenantId r = tn /\ ex_status r = from) /\
  (forall r' s', transition env tn id from to p s = (Ok (Some r'), s') ->
     mapGet id (experimentsById s') = Some r' /\ ex_status r' = to /\
     forall to' p', transitionExperimentParamsSchema p' = Ok p' -> lifecycle from to' ->
       transition env' tn id from to' p' s' = (Ok None, s')).
Proof.
  intros Hs%steps_init_inv Ht Hp. pose proof (proj2 (tenantIdSchema_ok tn tn) (conj Ht eq_refl)) as Htn.
  destruct (transition_cases env tn id from to p s Hs)
    as [(r & r' & Hr & -> & Htr & Hsr & Hl & Hd & Hst & Hv)|[Hsame Hno]].
  - split; [split; [intros _; eauto|intros _; simpl; eauto]|].
    intros r2 s' [= <- <-]. simpl. split_and!; [apply mapGet_set_eq|done|].
    intros to' p' Hp' Hl'. unfold transition, assertExperimentTransition.
    rewrite Htn, Hp', (bool_decide_true _ Hl'). msimpl. unfold upd. simpl. rewrite mapGet_set_eq.
    assert (ex_status r' ≠ from) as Hne.
    { rewrite Hst. intros ->. by apply lifecycle_irrefl in Hl. }
    by rewrite (bool_decide_false _ Hne), orb_true_r.
  - split; [split|].
    + intros [r' Hr']. by destruct (Hno r').
    + intros (Hl & r & Hr & Htr & Hsr).
      destruct (transition_found env tn id from to p s r Hs Hr Htn Hp Hl Htr Hsr) as (r' & He & _).
      destruct (Hno r'). by rewrite He.
    + intros r' s' He. destruct (Hno r'). by rewrite He.
Qed.

(** The status summary counts every experiment of the tenant once: each
    status has its count, and the total is the sum over the seven statuses. *)
Theorem experiment_summary_counts tn s r : getSummary tn s = (Ok r, s) ->
  (forall st, es_byStatus r st = N.of_nat (length (bfilter (fun x =>
     bool_decide (ex_tenantId x = tn) && bool_decide (ex_status x = st))
       (mapValues (experimentsById s))))) /\
  es_total r = (es_byStatus r exp_draft + es_byStatus r exp_running + es_byStatus r exp_paused +
    es_byStatus r exp_concluded + es_byStatus r exp_abandoned + es_byStatus r exp_promoted +
    es_byStatus r exp_rolled_back)%N.
Proof.
  unfold getSummary. msimpl. destruct (tenantIdSchema tn) as [tn'|] eqn:Ht; [|done].
  pose proof (same_parse _ _ Ht) as ->. intros [= <-].
  destruct (summary_fold tn (mapValues (experimentsById s)) emptyExperimentStatusSummary) as [HT HS].
  split; [intros st; by rewrite HS|]. rewrite HT, !HS. simpl. apply count_by_status.
Qed.

(** An evidence summary exists exactly when both variants have outcome
    observations of the metric; it counts every outcome observation once,
    never more entities than observations, and reports no guardrail regression
    when one arm has no guardrail observation. *)
Theorem evidence_summary_spec eid metric rs g :
  let rows := bfilter (fun r =>
    negb (ob_isGuardrail r) && bool_decide (ob_metricName r = metric)) rs in
  match summarizeEvidenceRecords eid metric rs g with
  | None => bfilter (is_variant var_a) rows = [] \/ bfilter (is_variant var_b) rows = []
  | Some e =>
      bfilter (is_variant var_a) rows ≠ [] /\ bfilter (is_variant var_b) rows ≠ [] /\
      ev_evidenceCount e = N.of_nat (length rows) /\
      (0 < ev_uniqueEntities e <= ev_evidenceCount e)%N /\
      (ev_baselineGuardrailMetric e = None \/ ev_candidateGuardrailMetric e = None ->
       ev_worstGuardrailRegression e = num_zero)
  end.
Proof.
  intros rows. unfold summarizeEvidenceRecords. fold rows.
  assert (forall l : list num, mean l = None <-> l = []) as Hmean by (by destruct l).
  destruct (mean (ob_metricValue <$> bfilter (is_variant var_a) rows)) eqn:Ea.
  2: { left. apply Hmean in Ea. by apply fmap_nil_inv in Ea. }
  destruct (mean (ob_metricValue <$> bfilter (is_variant var_b) rows)) eqn:Eb.
  2: { right. apply Hmean in Eb. by apply fmap_nil_inv in Eb. }
  cbn [ev_evidenceCount ev_uniqueEntities ev_baselineGuardrailMetric ev_candidateGuardrailMetric
    ev_worstGuardrailRegression].
  assert (bfilter (is_variant var_a) rows ≠ []) as Hna by (intros Hn; by rewrite Hn in Ea).
  split_and!; [done|intros Hn; by rewrite Hn in Eb|done| | |].
  - destruct rows as [|x l]; [done|].
    destruct (remove_dups _) eqn:Hd; [|simpl; lia]. exfalso.
    apply (not_elem_of_nil (ob_entityType x +:+ ":" +:+ ob_entityId x)). rewrite <- Hd.
    apply elem_of_remove_dups. simpl. by left.
  - pose proof (NoDup_remove_dups ((fun r => ob_entityType r +:+ ":" +:+ ob_entityId r) <$> rows)) as Hd.
    apply NoDup_submseteq with (k := (fun r => ob_entityType r +:+ ":" +:+ ob_entityId r) <$> rows),
      submseteq_length in Hd; [|intros y; by rewrite elem_of_remove_dups].
    rewrite length_fmap in Hd. lia.
  - intros [-> | ->]; [done|]. by case_match.
Qed.
End theorems.

(** ** Witnesses *)

Module ExperimentsExample.
Import ZodExample InMemoryExperiments.

Definition params : CreateExperimentParams :=
  mkCreateExperiment " subject-line " "outbound" "copy" "account" "Shorter is better" [] []
    "reply_rate" None 20 (Some true) None None None None None "founder" None.
Definition s1 : State := (create env1 tenant params init).2.
Definition no_one (s : State) : State := s.

Definition unit_a : AssignExperimentParams := mkAssign id1 "account" "acme" var_a None None.
Definition unit_a' : AssignExperimentParams := mkAssign id1 " account" "acme" var_b None None.
Definition a1 : ExperimentAssignmentRecord :=
  mkAssignment id2 tenant id1 "account" "acme" var_a [] 2000 None 2000.
Definition s2 : State := (assign no_one env2 tenant unit_a s1).2.

Definition outcome (v : num) : RecordExperimentObservationParams :=
  mkRecordObs id1 (Some id2) "evt-1" "account" "acme" var_a "reply_rate" v None num_one
    "last_touch" "crm" None (Some " usd ") None None None.
Definition o1 : ExperimentObservationRecord :=
  mkObs id3 tenant id1 (Some id2) "evt-1" "account" "acme" var_a "reply_rate" num_one false num_one
    "last_touch" "crm" None (Some "USD") [] [] 3000 3000.
Definition s3 : State := (recordObservation no_one env3 tenant (outcome num_one) s2).2.

(** Two different units whose parts differ only in where the colon falls. *)
Definition unit_b : AssignExperimentParams := mkAssign id1 "account:eu" "acme" var_a None None.
Definition unit_c : AssignExperimentParams := mkAssign id1 "account" "eu:acme" var_b None None.

Lemma s1_steps : steps init s1.
Proof. by apply steps_create. Qed.
Lemma s2_steps : steps s1 s2.
Proof. apply steps_assign; [apply steps_refl|done]. Qed.
Lemma s3_steps : steps s2 s3.
Proof. apply steps_observe; [apply steps_refl|done]. Qed.
End ExperimentsExample.

Section witnesses.
Import ZodExample InMemoryExperiments ExperimentsExample.

(** The in-memory assignment key joins the entity type and the entity id
    with a colon without escaping it, so two different units can share a key:
    the second unit is told it already has the first one's assignment. *)
Theorem colliding_units_share_assignment :
  exists s r1 s' r2, steps init s /\
    assign no_one env2 tenant unit_b s = (Ok r1, s') /\
    assign no_one env3 tenant unit_c s' = (Ok r2, s') /\
    isExisting r1 = false /\ isExisting r2 = true /\ assignment r2 = assignment r1 /\
    (as_entityType (assignment r2), as_entityId (assignment r2)) ≠
      (ap_entityType unit_c, ap_entityId unit_c).
Proof.
  exists s1. eexists _, _, _. split; [exact s1_steps|].
  split; [vm_compute; reflexivity|]. split; [vm_compute; reflexivity|]. by vm_compute.
Qed.

Lemma evidence_is_append_only_witness : evolves s2 s3.
Proof.
  apply (evidence_is_append_only s2 s3);
    [exact (steps_trans _ _ _ s1_steps s2_steps)|exact s3_steps].
Defined.

Lemma observation_matches_assignment_witness :
  exists asg, mapGet id2 (assignmentsById s3) = Some asg /\ assignment_matches o1 asg.
Proof.
  apply (observation_matches_assignment s3 id3 o1 id2); [|vm_compute; reflexivity..].
  exact (steps_trans _ _ _ (steps_trans _ _ _ s1_steps s2_steps) s3_steps).
Defined.

Lemma assignment_is_sticky_witness :
  assignment (mkAssignResult a1 true) = assignment (mkAssignResult a1 false).
Proof.
  refine (proj1 (assignment_is_sticky s1 no_one env2 tenant unit_a (mkAssignResult a1 false) s2 s3
    no_one env1 unit_a' (mkAssignResult a1 true) s3 s1_steps (steps_refl _) _ _ s3_steps
    (steps_refl _) _ _ _ _)); vm_compute; repeat split; reflexivity.
Defined.

Lemma observation_is_idempotent_witness : o1 = o1.
Proof.
  refine (proj1 (observation_is_idempotent s2 no_one env3 tenant (outcome num_one) o1 s3 s3
    no_one env1 (outcome num_zero) o1 s3 (steps_trans _ _ _ s1_steps s2_steps) (steps_refl _)
    _ _ (steps_refl _) (steps_refl _) _ _ _)); vm_compute; repeat split; reflexivity.
Defined.

Lemma experiment_transition_exact_witness :
  exists r', (transition env2 tenant id1 exp_running exp_concluded
    (mkTransitionExperiment (Some win_a) (Some num_one) None) s1).1 = Ok (Some r').
Proof.
  apply (experiment_transition_exact env2 env3 tenant id1 exp_running exp_concluded
    (mkTransitionExperiment (Some win_a) (Some num_one) None) s1 s1_steps).
  - vm_compute. reflexivity.
  - eexists. vm_compute. reflexivity.
  - split; [right; left|eexists; split_and!; vm_compute; reflexivity].
Defined.

Lemma experiment_summary_counts_witness :
  es_byStatus (mkExperimentSummary 1 (fun st => if bool_decide (st = exp_running) then 1%N else 0%N))
    exp_running = 1%N.
Proof.
  destruct (getSummary tenant s1) as [[r|e] s'] eqn:E; [|by vm_compute in E].
  assert (s' = s1) as -> by (vm_compute in E |- *; by injection E).
  pose proof (proj1 (experiment_summary_counts tenant s1 r E) exp_running) as H.
  vm_compute in H |- *. reflexivity.
Defined.
End witnesses.
