(* ===== verification/ExperimentRoutes.v ===== *)
(** * The experiment routes

    [apps/api/src/routes/experiments.ts], behind the service token of
    [app.ts]: creation, lists, lifecycle, assignments, observations and
    outcomes, over the in-memory experiment repository.  A call to the
    repository may fail; other tasks may run while a route awaits it.  The
    tenant comes from the header; a body is strict, so one that names a
    tenant is refused.  A date that cannot be read passes the schema as an
    invalid [Date], which the repository then refuses. *)

From S2P Require Import Prelude Numbers JsRuntime Domain Zod ZodJson Sql Outbox Http ControlPlane Experiments.
Import InMemoryExperiments.

Definition MAX_LIST_LIMIT : Z := 100.

(** The route's own copy of the lifecycle table. *)
Definition routeTransitions (fromStatus : ExperimentStatus) : list ExperimentStatus :=
  match fromStatus with
  | exp_draft => [exp_running; exp_abandoned]
  | exp_running => [exp_paused; exp_concluded; exp_abandoned]
  | exp_paused => [exp_running; exp_abandoned]
  | exp_concluded => [exp_promoted; exp_abandoned]
  | exp_abandoned => []
  | exp_promoted => [exp_rolled_back]
  | exp_rolled_back => []
  end.

Definition isLegalTransition (fromStatus toStatus : ExperimentStatus) : bool :=
  bool_decide (toStatus ∈ routeTransitions fromStatus).

Definition canAssign (status : ExperimentStatus) : bool :=
  bool_decide (status = exp_draft) || bool_decide (status = exp_running).

Definition canRecordObservation (status : ExperimentStatus) : bool :=
  bool_decide (status = exp_running) || bool_decide (status = exp_concluded) ||
  bool_decide (status = exp_promoted) || bool_decide (status = exp_rolled_back).

Definition expectedConflicts : list string :=
  ["Experiment does not exist for this tenant.";
   "Assignments are only allowed for draft or running experiments.";
   "Observations require a running or completed experiment.";
   "Observation assignment does not match the experiment unit.";
   "Illegal experiment transition:"].

(** The message of an expected conflict; a zod error's is a JSON text. *)
Definition isExpectedExperimentConflict (e : js_error) : option string :=
  match e with
  | JsError m | HttpError _ m | ExternalActionConflictError m | ExternalActionStateError m =>
      if existsb (fun message => String.prefix message m) expectedConflicts then Some m else None
  | ZodError | ExternalActionNotFoundError _ => None
  end.

(** ** Reading the requests *)

(** Parameters that wait for their date: absent, or read ([None] is the
    invalid [Date]). *)
Definition dated (A : Type) : Type := (option Z -> A) * option (option Z).

(** What the repository's schema makes of the date. *)
Definition resolve {A} (d : dated A) : result A :=
  match d.2 with
  | None => Ok (d.1 None)
  | Some (Some t) => Ok (d.1 (Some t))
  | Some None => Err ZodError
  end.

Definition experimentStatuses : list ExperimentStatus :=
  [exp_draft; exp_running; exp_paused; exp_concluded; exp_abandoned; exp_promoted; exp_rolled_back].

Section reading.
Context `{Zod} `{ZodFormats}.

(** [apiDateSchema] *)
Definition apiDateSchema (v : option json) : result (option Z) :=
  match v with
  | Some (JStr s) => if zod_datetime_offset s then Ok (date_of s) else Err ZodError
  | _ => Err ZodError
  end.

Definition text_property (fs : jobject) (k : string) : result string :=
  string_field nonEmptyText (mapGet k fs).
Definition optional_text (fs : jobject) (k : string) : result (option string) :=
  optional_field (string_field nonEmptyText) (mapGet k fs).
Definition count_property (fs : jobject) (k : string) : result Z :=
  match mapGet k fs with
  | Some (JNum n) => match num_to_Z n with Some z => positive_int z | None => Err ZodError end
  | _ => Err ZodError
  end.
Definition variant_property (fs : jobject) : result ExperimentVariant :=
  enum_field [var_a; var_b] ExperimentVariant_str (mapGet "variant" fs).

Definition createExperimentRequestSchema (raw : json) : result (dated CreateExperimentParams) :=
  fs ← strict_object ["experimentKey"; "motion"; "experimentType"; "unitType"; "hypothesis"; "variantA";
    "variantB"; "metricName"; "metricDirection"; "minSampleSize"; "initialStatus"; "inputSnapshot";
    "modelVersion"; "promptVersion"; "playbookVersion"; "policyVersion"; "createdBy"; "startedAt"] raw;
  key ← text_property fs "experimentKey"; motion ← text_property fs "motion";
  ty ← text_property fs "experimentType"; unit_ ← text_property fs "unitType";
  hyp ← text_property fs "hypothesis";
  a ← record_field (mapGet "variantA" fs); b ← record_field (mapGet "variantB" fs);
  metric ← text_property fs "metricName";
  dir ← default_field dir_increase (enum_field [dir_increase; dir_decrease] MetricDirection_str)
    (mapGet "metricDirection" fs);
  size ← count_property fs "minSampleSize";
  status ← default_field exp_draft (enum_field [exp_draft; exp_running] ExperimentStatus_str)
    (mapGet "initialStatus" fs);
  inputs ← default_field [] record_field (mapGet "inputSnapshot" fs);
  mv ← optional_text fs "modelVersion"; pv ← optional_text fs "promptVersion";
  bv ← optional_text fs "playbookVersion"; ov ← optional_text fs "policyVersion";
  by_ ← text_property fs "createdBy";
  at_ ← optional_field apiDateSchema (mapGet "startedAt" fs);
  mret (mkCreateExperiment key motion ty unit_ hyp a b metric (Some dir) size
    (Some (bool_decide (status = exp_running))) (Some inputs) mv pv bv ov by_, at_).

Record TransitionRequest := mkTransitionRequest {
  tr_fromStatus : ExperimentStatus;
  tr_toStatus : ExperimentStatus;
  tr_params : dated TransitionExperimentParams;
}.

Definition transitionExperimentRequestSchema (raw : json) : result TransitionRequest :=
  fs ← strict_object ["winner"; "confidence"; "fromStatus"; "toStatus"; "endedAt"] raw;
  winner ← optional_field (enum_field [win_a; win_b; win_inconclusive] ExperimentWinner_str)
    (mapGet "winner" fs);
  conf ← optional_field (number_field unit_number) (mapGet "confidence" fs);
  from ← enum_field experimentStatuses ExperimentStatus_str (mapGet "fromStatus" fs);
  to ← enum_field experimentStatuses ExperimentStatus_str (mapGet "toStatus" fs);
  at_ ← optional_field apiDateSchema (mapGet "endedAt" fs);
  mret (mkTransitionRequest from to (mkTransitionExperiment winner conf, at_)).

(** The experiment is named by the path. *)
Definition assignExperimentRequestSchema (raw : json) : result (string -> dated AssignExperimentParams) :=
  fs ← strict_object ["entityType"; "entityId"; "variant"; "assignmentContext"; "exposedAt"] raw;
  ety ← text_property fs "entityType"; eid ← text_property fs "entityId";
  variant ← variant_property fs;
  context ← default_field [] record_field (mapGet "assignmentContext" fs);
  at_ ← optional_field apiDateSchema (mapGet "exposedAt" fs);
  mret (fun experimentId => (mkAssign experimentId ety eid variant (Some context), at_)).

Definition observation_keys : list string :=
  ["assignmentId"; "idempotencyKey"; "entityType"; "entityId"; "variant"; "metricName"; "metricValue";
   "isGuardrail"; "attributionConfidence"; "attributionModel"; "source"; "costAmount"; "costCurrency";
   "observedOutcome"; "evidence"; "observedAt"].

(** The properties both observation bodies share. *)
Definition observation_properties (fs : jobject) :
    result (string -> dated RecordExperimentObservationParams) :=
  asg ← optional_field (string_field uuid) (mapGet "assignmentId" fs);
  ik ← text_property fs "idempotencyKey";
  ety ← text_property fs "entityType"; eid ← text_property fs "entityId";
  variant ← variant_property fs;
  metric ← text_property fs "metricName";
  value ← number_field finite_number (mapGet "metricValue" fs);
  guardrail ← default_field false boolean_field (mapGet "isGuardrail" fs);
  conf ← number_field unit_number (mapGet "attributionConfidence" fs);
  model ← text_property fs "attributionModel"; source ← text_property fs "source";
  cost ← optional_field (number_field nonneg_number) (mapGet "costAmount" fs);
  currency ← optional_field (string_field isoCurrencySchema) (mapGet "costCurrency" fs);
  outcome ← default_field [] record_field (mapGet "observedOutcome" fs);
  evidence ← default_field [] record_field (mapGet "evidence" fs);
  at_ ← optional_field apiDateSchema (mapGet "observedAt" fs);
  mret (fun experimentId => (mkRecordObs experimentId asg ik ety eid variant metric value (Some guardrail)
    conf model source cost currency (Some outcome) (Some evidence), at_)).

Definition recordNestedObservationRequestSchema (raw : json) :
    result (string -> dated RecordExperimentObservationParams) :=
  fs ← strict_object observation_keys raw; observation_properties fs.

(** The outcome's body names its experiment. *)
Definition recordOutcomeRequestSchema (raw : json) :
    result (string * dated RecordExperimentObservationParams) :=
  fs ← strict_object ("experimentId" :: observation_keys) raw;
  experimentId ← string_field uuid (mapGet "experimentId" fs);
  params ← observation_properties fs;
  mret (experimentId, params experimentId).
End reading.

(** [observationListQuerySchema] *)
Definition observationListQuerySchema (limit metricName : option string) : result (Z * option string) :=
  n ← queryLimitSchema 50 MAX_LIST_LIMIT limit;
  metric ← optional_field (text_field 255) (JStr <$> metricName);
  mret (n, metric).

(** ** What is answered *)

Definition json_num_or_null (n : option num) : json := match n with Some n => JNum n | None => JNull end.

Definition serializeExperiment (r : ExperimentRecord) : jobject :=
  [("id", JStr (ex_id r)); ("tenantId", JStr (ex_tenantId r)); ("experimentKey", JStr (ex_experimentKey r));
   ("motion", JStr (ex_motion r)); ("experimentType", JStr (ex_experimentType r));
   ("unitType", JStr (ex_unitType r)); ("hypothesis", JStr (ex_hypothesis r));
   ("variantA", JObj (ex_variantA r)); ("variantB", JObj (ex_variantB r));
   ("metricName", JStr (ex_metricName r)); ("metricDirection", JStr (MetricDirection_str (ex_metricDirection r)));
   ("minSampleSize", jint (ex_minSampleSize r)); ("status", JStr (ExperimentStatus_str (ex_status r)));
   ("winner", jstr_or_null (ExperimentWinner_str <$> ex_winner r));
   ("confidence", json_num_or_null (ex_confidence r)); ("inputSnapshot", JObj (ex_inputSnapshot r));
   ("modelVersion", jstr_or_null (ex_modelVersion r)); ("promptVersion", jstr_or_null (ex_promptVersion r));
   ("playbookVersion", jstr_or_null (ex_playbookVersion r)); ("policyVersion", jstr_or_null (ex_policyVersion r));
   ("createdBy", JStr (ex_createdBy r)); ("startedAt", json_date_or_null (ex_startedAt r));
   ("endedAt", json_date_or_null (ex_endedAt r)); ("createdAt", json_date (ex_createdAt r));
   ("updatedAt", json_date (ex_updatedAt r))].

Definition serializeAssignment (r : ExperimentAssignmentRecord) : jobject :=
  [("id", JStr (as_id r)); ("tenantId", JStr (as_tenantId r)); ("experimentId", JStr (as_experimentId r));
   ("entityType", JStr (as_entityType r)); ("entityId", JStr (as_entityId r));
   ("variant", JStr (ExperimentVariant_str (as_variant r))); ("assignmentContext", JObj (as_assignmentContext r));
   ("assignedAt", json_date (as_assignedAt r)); ("exposedAt", json_date_or_null (as_exposedAt r));
   ("createdAt", json_date (as_createdAt r))].

Definition serializeObservation (r : ExperimentObservationRecord) : jobject :=
  [("id", JStr (ob_id r)); ("tenantId", JStr (ob_tenantId r)); ("experimentId", JStr (ob_experimentId r));
   ("assignmentId", jstr_or_null (ob_assignmentId r)); ("idempotencyKey", JStr (ob_idempotencyKey r));
   ("entityType", JStr (ob_entityType r)); ("entityId", JStr (ob_entityId r));
   ("variant", JStr (ExperimentVariant_str (ob_variant r))); ("metricName", JStr (ob_metricName r));
   ("metricValue", JNum (ob_metricValue r)); ("isGuardrail", JBool (ob_isGuardrail r));
   ("attributionConfidence", JNum (ob_attributionConfidence r));
   ("attributionModel", JStr (ob_attributionModel r)); ("source", JStr (ob_source r));
   ("costAmount", json_num_or_null (ob_costAmount r)); ("costCurrency", jstr_or_null (ob_costCurrency r));
   ("observedOutcome", JObj (ob_observedOutcome r)); ("evidence", JObj (ob_evidence r));
   ("observedAt", json_date (ob_observedAt r)); ("createdAt", json_date (ob_createdAt r))].

(** ** The handlers *)

(** The calls of one request: [xc_between] is what the other tasks do after
    the experiment was read, [xc_during] what they do while the repository's
    own operation waits. *)
Record experiment_calls := mkExperimentCalls {
  xc_read : db_call;
  xc_call : db_call;
  xc_between : State -> State;
  xc_during : State -> State;
}.

Section routes.
Context `{Zod} `{ZodFormats} `{ZodReport}.
(** Whether [deps.experimentRepository] is there. *)
Context (configured : bool).

Definition requireRepository : M State unit :=
  if configured then mret tt
  else throw (ServiceUnavailableError "Experiment repository is not configured. Set DATABASE_URL.").

Definition getTenantExperiment (c : experiment_calls) (tenantId experimentId : string) :
    M State ExperimentRecord :=
  experiment ← faulty (xc_read c).2 (getById tenantId experimentId);
  await (xc_between c);;
  match experiment with
  | Some experiment => mret experiment
  | None => throw (NotFoundError "Experiment was not found.")
  end.

(** [catch (error) { if (isExpectedExperimentConflict(error)) throw new ConflictError(...); throw error; }] *)
Definition or_conflict {A} (m : M State A) : M State A :=
  outcome ← catching m;
  match outcome with
  | Ok a => mret a
  | Err e =>
      match isExpectedExperimentConflict e with
      | Some message => throw (ConflictError message)
      | None => throw e
      end
  end.

Definition limitRefusal (more : string) : Response :=
  refusal 400 ("limit must be an integer between 1 and " +:+ string_of_N (Z.to_N MAX_LIST_LIMIT) +:+ more).

Definition parseListQuery (limit : option string) : Z + Response :=
  match queryLimitSchema 50 MAX_LIST_LIMIT limit with
  | Ok n => inl n
  | Err _ => inr (limitRefusal "")
  end.

Definition parseObservationListQuery (limit metricName : option string) : Z * option string + Response :=
  match observationListQuerySchema limit metricName with
  | Ok query => inl query
  | Err _ => inr (limitRefusal "; metricName must be non-empty when provided")
  end.

Definition experimentAnswer (status : Z) (tenantId : string) (r : ExperimentRecord) : Response :=
  mkResponse status [("tenantId", JStr tenantId); ("experiment", JObj (serializeExperiment r))].

Definition experimentList (tenantId : string) (l : list ExperimentRecord) : Response :=
  mkResponse 200 [("tenantId", JStr tenantId);
    ("items", JArr ((fun r => JObj (serializeExperiment r)) <$> l)); ("total", jint (Z.of_nat (length l)))].

Definition assignmentAnswer (tenantId : string) (a : AssignExperimentResult) : Response :=
  mkResponse (if isExisting a then 200 else 201) [("tenantId", JStr tenantId);
    ("assignment", JObj (serializeAssignment (assignment a))); ("idempotent", JBool (isExisting a))].

Definition observationList (tenantId experimentId : string) (l : list ExperimentObservationRecord) : Response :=
  mkResponse 200 [("tenantId", JStr tenantId); ("experimentId", JStr experimentId);
    ("items", JArr ((fun r => JObj (serializeObservation r)) <$> l)); ("total", jint (Z.of_nat (length l)))].

Definition observationAnswer (tenantId : string) (o : ExperimentObservationRecord) : Response :=
  mkResponse 201 [("tenantId", JStr tenantId); ("observation", JObj (serializeObservation o))].

(** [POST /v1/experiments] *)
Definition postExperiment (c : experiment_calls) (tenant : option string) (body : result json) :
    M State Response :=
  tenantId ←? requireTenantId tenant;
  data ←? parseJsonBody body createExperimentRequestSchema;
  requireRepository;;
  experiment ← faulty (xc_call c).2 (params ← lift (resolve data); create (xc_call c).1 tenantId params);
  mret (experimentAnswer 201 tenantId experiment).

(** [GET /v1/experiments] *)
Definition getExperiments (c : experiment_calls) (tenant limit : option string) : M State Response :=
  tenantId ←? requireTenantId tenant;
  limit ←? parseListQuery limit;
  requireRepository;;
  experiments ← faulty (xc_call c).2 (listRecent tenantId (Some limit));
  mret (experimentList tenantId experiments).

(** [GET /v1/experiments/:id] *)
Definition getExperiment (c : experiment_calls) (tenant : option string) (id : string) : M State Response :=
  tenantId ←? requireTenantId tenant;
  experimentId ←? requireResourceId "Experiment" id;
  requireRepository;;
  experiment ← getTenantExperiment c tenantId experimentId;
  mret (experimentAnswer 200 tenantId experiment).

(** [POST /v1/experiments/:id/transition] *)
Definition postTransition (c : experiment_calls) (tenant : option string) (id : string)
    (body : result json) : M State Response :=
  tenantId ←? requireTenantId tenant;
  experimentId ←? requireResourceId "Experiment" id;
  data ←? parseJsonBody body transitionExperimentRequestSchema;
  requireRepository;;
  current ← getTenantExperiment c tenantId experimentId;
  let fromStatus := tr_fromStatus data in
  let toStatus := tr_toStatus data in
  if negb (bool_decide (ex_status current = fromStatus)) then
    throw (ConflictError ("Experiment is currently " +:+ ExperimentStatus_str (ex_status current) +:+
      "; expected " +:+ ExperimentStatus_str fromStatus +:+ "."))
  else if negb (isLegalTransition fromStatus toStatus) then
    throw (ConflictError ("Illegal experiment transition: " +:+ ExperimentStatus_str fromStatus +:+
      " -> " +:+ ExperimentStatus_str toStatus +:+ "."))
  else
    transitioned ← faulty (xc_call c).2 (params ← lift (resolve (tr_params data));
      transition (xc_call c).1 tenantId experimentId fromStatus toStatus params);
    match transitioned with
    | None => throw (ConflictError "Experiment changed before the requested transition could be applied.")
    | Some experiment => mret (experimentAnswer 200 tenantId experiment)
    end.

(** [POST /v1/experiments/:id/assignments] *)
Definition postAssignment (c : experiment_calls) (tenant : option string) (id : string)
    (body : result json) : M State Response :=
  tenantId ←? requireTenantId tenant;
  experimentId ←? requireResourceId "Experiment" id;
  data ←? parseJsonBody body assignExperimentRequestSchema;
  requireRepository;;
  experiment ← getTenantExperiment c tenantId experimentId;
  if negb (canAssign (ex_status experiment)) then
    throw (ConflictError "Assignments are only allowed for draft or running experiments.")
  else
    result ← or_conflict (faulty (xc_call c).2 (params ← lift (resolve (data experimentId));
      assign (xc_during c) (xc_call c).1 tenantId params));
    mret (assignmentAnswer tenantId result).

(** [GET /v1/experiments/:id/observations] *)
Definition getObservations (c : experiment_calls) (tenant : option string) (id : string)
    (limit metricName : option string) : M State Response :=
  tenantId ←? requireTenantId tenant;
  experimentId ←? requireResourceId "Experiment" id;
  query ←? parseObservationListQuery limit metricName;
  requireRepository;;
  getTenantExperiment c tenantId experimentId;;
  observations ← faulty (xc_call c).2 (listObservations tenantId experimentId query.2 (Some query.1));
  mret (observationList tenantId experimentId observations).

(** The second half of both observation routes. *)
Definition observe (c : experiment_calls) (tenantId experimentId : string)
    (data : dated RecordExperimentObservationParams) : M State Response :=
  experiment ← getTenantExperiment c tenantId experimentId;
  if negb (canRecordObservation (ex_status experiment)) then
    throw (ConflictError "Observations require a running or completed experiment.")
  else
    observation ← or_conflict (faulty (xc_call c).2 (params ← lift (resolve data);
      recordObservation (xc_during c) (xc_call c).1 tenantId params));
    mret (observationAnswer tenantId observation).

(** [POST /v1/experiments/:id/observations] *)
Definition postObservation (c : experiment_calls) (tenant : option string) (id : string)
    (body : result json) : M State Response :=
  tenantId ←? requireTenantId tenant;
  experimentId ←? requireResourceId "Experiment" id;
  data ←? parseJsonBody body recordNestedObservationRequestSchema;
  requireRepository;;
  observe c tenantId experimentId (data experimentId).

(** [POST /v1/outcomes]; [recordOutcome] is [recordObservation] *)
Definition postOutcome (c : experiment_calls) (tenant : option string) (body : result json) :
    M State Response :=
  tenantId ←? requireTenantId tenant;
  data ←? parseJsonBody body recordOutcomeRequestSchema;
  requireRepository;;
  observe c tenantId data.1 data.2.

(** The requests of the two route groups, and the routing table. *)
Inductive experiment_request :=
  | CreateExperiment (body : result json)
  | ListExperiments (limit : option string)
  | GetExperiment (id : string)
  | TransitionExperiment (id : string) (body : result json)
  | AssignExperiment (id : string) (body : result json)
  | ListObservations (id : string) (limit metricName : option string)
  | RecordObservation (id : string) (body : result json)
  | RecordOutcome (body : result json).

Definition handle (c : experiment_calls) (tenant : option string) (r : experiment_request) :
    M State Response :=
  match r with
  | CreateExperiment body => postExperiment c tenant body
  | ListExperiments limit => getExperiments c tenant limit
  | GetExperiment id => getExperiment c tenant id
  | TransitionExperiment id body => postTransition c tenant id body
  | AssignExperiment id body => postAssignment c tenant id body
  | ListObservations id limit metricName => getObservations c tenant id limit metricName
  | RecordObservation id body => postObservation c tenant id body
  | RecordOutcome body => postOutcome c tenant body
  end.
End routes.

(** ** Whose records a request touches *)

Section owned.
Context {A : Type} (tenantOf : A -> string).

(** What the tenant [tn] has under an id. *)
Definition owned (tn : string) (m : jsmap A) (id : string) : option A :=
  match mapGet id m with
  | Some r => if bool_decide (tenantOf r = tn) then Some r else None
  | None => None
  end.

Lemma owned_fresh tn m id : mapGet id m = None -> owned tn m id = None.
Proof. unfold owned. by intros ->. Qed.

Lemma owned_other tn m id r : mapGet id m = Some r -> tenantOf r ≠ tn -> owned tn m id = None.
Proof. unfold owned. intros -> Hne. by rewrite bool_decide_false. Qed.

(** Writing another tenant's record over none of [tn]'s changes nothing for [tn]. *)
Lemma owned_set tn m k r id : tenantOf r ≠ tn -> owned tn m k = None ->
  owned tn (mapSet k r m) id = owned tn m id.
Proof.
  intros Hr Hk. unfold owned in *. rewrite mapGet_set. case_bool_decide as E; [subst id|done].
  rewrite bool_decide_false by done. symmetry. exact Hk.
Qed.
End owned.

(** The state is the same for the tenant [tn]. *)
Record same_for (tn : string) (s s' : State) : Prop := {
  sf_exp id : owned ex_tenantId tn (experimentsById s') id = owned ex_tenantId tn (experimentsById s) id;
  sf_asg id : owned as_tenantId tn (assignmentsById s') id = owned as_tenantId tn (assignmentsById s) id;
  sf_obs id : owned ob_tenantId tn (observationsById s') id = owned ob_tenantId tn (observationsById s) id;
}.

#[export] Instance same_for_preorder tn : PreOrder (same_for tn).
Proof.
  split; [by intros s|]. intros s1 s2 s3 [A1 B1 C1] [A2 B2 C2].
  split; intros id; by rewrite ?A2, ?B2, ?C2.
Qed.

Section repository.
Context `{Z : Zod} {ZL : ZodLaws Z}.
Implicit Types (s : State) (env : call_env).

Lemma assignment_tenant a a' : experimentAssignmentRecordSchema a = Ok a' -> zod_uuid (as_tenantId a) = true.
Proof.
  unfold experimentAssignmentRecordSchema. intros H. schema_fields H.
  match goal with E : tenantIdSchema _ = _ |- _ => by apply tenantIdSchema_ok in E as [? _] end.
Qed.

Lemma observation_tenant o o' : experimentObservationRecordSchema o = Ok o' -> zod_uuid (ob_tenantId o) = true.
Proof.
  unfold experimentObservationRecordSchema. intros H. schema_fields H.
  match goal with E : tenantIdSchema _ = _ |- _ => by apply tenantIdSchema_ok in E as [? _] end.
Qed.

Lemma create_same tn tn' env p s : fresh env s -> tn ≠ tn' -> same_for tn' s (create env tn p s).2.
Proof.
  intros (Hf & _) Hne. unfold create. msimpl.
  destruct (tenantIdSchema tn) as [t|] eqn:Ht; [|done]. pose proof (same_parse _ _ Ht) as ->.
  destruct (createExperimentParamsSchema p) as [p'|]; [|done].
  destruct (indexed _ _ _); [done|].
  destruct (experimentRecordSchema _) as [r|] eqn:Hr; [|done].
  apply experimentRecordSchema_fields in Hr as [-> _]. split; [|done..]. intros id. simpl.
  apply owned_set; [done|by apply owned_fresh].
Qed.

Lemma transition_same tn tn' env id from to p s : exp_inv s -> tn ≠ tn' ->
  same_for tn' s (transition env tn id from to p s).2.
Proof.
  intros Hs Hne. destruct (transition_cases env tn id from to p s Hs)
    as [(r & r' & Hr & -> & Htn & _ & _ & Hd & _)|[-> _]]; [|done].
  split; [|done..]. intros id'. simpl. apply owned_set.
  - pose proof (f_equal ex_tenantId Hd) as Ht. simpl in Ht. congruence.
  - apply (owned_other _ _ _ _ r Hr). congruence.
Qed.

Lemma assign_same tn tn' others env p s : exp_inv (others s) -> fresh env (others s) ->
  zod_uuid tn = true -> tn ≠ tn' -> same_for tn' s (others s) ->
  same_for tn' s (assign others env tn p s).2.
Proof.
  intros Hi (_ & Hf & _) Hz Hne Ho. pose proof (assign_cases others env tn p s Hi) as H.
  destruct (assign others env tn p s) as [[[a []]|e] s']; simpl in *.
  - by destruct H as (_ & _ & ->).
  - destruct H as (Hk & _ & Hid & _ & Ha & _ & ->). etrans; [exact Ho|]. split; [done| |done]. intros id. simpl.
    apply owned_set; [|apply owned_fresh; by rewrite Hid].
    apply assignment_tenant in Ha.
    apply colon_key_inj in Hk as [Hk _]; [congruence|by apply zod_uuid_no_colon..].
  - by destruct H as [-> | ->].
Qed.

Lemma observe_same tn tn' others env p s : exp_inv (others s) -> fresh env (others s) ->
  zod_uuid tn = true -> tn ≠ tn' -> same_for tn' s (others s) ->
  same_for tn' s (recordObservation others env tn p s).2.
Proof.
  intros Hi (_ & _ & Hf) Hz Hne Ho. pose proof (observe_cases others env tn p s Hi) as H.
  destruct (recordObservation others env tn p s) as [[o|e] s']; simpl in *.
  - destruct H as (Hk & _ & [->|(Hid & Ha & _ & _ & ->)]); [done|].
    etrans; [exact Ho|]. split; [done|done|]. intros id. simpl.
    apply owned_set; [|apply owned_fresh; by rewrite Hid].
    apply observation_tenant in Ha.
    apply colon_key_inj in Hk as [Hk _]; [congruence|by apply zod_uuid_no_colon..].
  - by destruct H as [-> | ->].
Qed.
End repository.

(** ** Every request is made of steps of the repository *)

Section moves.
Context `{Z : Zod} {ZL : ZodLaws Z} `{F : ZodFormats} `{R : ZodReport} (configured : bool).
Implicit Types (s : State) (c : experiment_calls).

(** The others take steps of the repository, and the ids drawn are new. *)
Record calls_ok c s : Prop := {
  co_between : steps s (xc_between c s);
  co_during : steps (xc_between c s) (xc_during c (xc_between c s));
  co_now : fresh (xc_call c).1 s;
  co_later : fresh (xc_call c).1 (xc_during c (xc_between c s));
}.
(** They leave the tenant [tn] alone. *)
Definition quiet (tn : string) c s : Prop :=
  same_for tn s (xc_between c s) /\ same_for tn (xc_between c s) (xc_during c (xc_between c s)).

(** Steps that leave the tenant [tn] alone. *)
Definition moves (tn : string) s s' : Prop := steps s s' /\ same_for tn s s'.

#[export] Instance moves_preorder tn : PreOrder (moves tn).
Proof.
  split; [intros s; split; [apply steps_refl|done]|].
  intros s1 s2 s3 [H1 S1] [H2 S2]. split; [by eapply steps_trans|by etrans].
Qed.

Lemma list_reads tn n s : (listRecent tn n s).2 = s.
Proof. unfold listRecent, gets. msimpl. by destruct (tenantIdSchema tn), (normalizeLimit n). Qed.

Lemma observations_read tn id metric n s : (listObservations tn id metric n s).2 = s.
Proof. unfold listObservations, gets. msimpl. by destruct (tenantIdSchema tn), (normalizeLimit n). Qed.

Lemma call_moves {A B} tn f (d : dated A) (m : A -> M State B) s :
  (forall p, moves tn s (m p s).2) -> moves tn s (faulty f (p ← lift (resolve d); m p) s).2.
Proof.
  intros Hm. destruct (faulty_state f (p ← lift (resolve d); m p) s) as [-> | ->]; [done|].
  unfold mbind, M_bind, lift. by destruct (resolve d).
Qed.

Lemma or_conflict_state {A} (m : M State A) s : (or_conflict m s).2 = (m s).2.
Proof.
  unfold or_conflict, catching. msimpl. destruct (m s) as [[a|e] s']; [done|].
  simpl. by destruct (isExpectedExperimentConflict e).
Qed.

Lemma get_moves {A} c tn tn' id s (k : ExperimentRecord -> M State A) : calls_ok c s -> quiet tn' c s ->
  (forall r, moves tn' (xc_between c s) (k r (xc_between c s)).2) ->
  moves tn' s ((r ← getTenantExperiment c tn id; k r) s).2.
Proof.
  intros Hc [Hq _] Hk. assert (moves tn' s (xc_between c s)) as Hb by (split; [apply Hc|done]).
  unfold getTenantExperiment, mbind, M_bind, await, modify.
  pose proof (faulty_read (xc_read c).2 (getById tn id) s) as Hr.
  assert ((getById tn id s).2 = s) as Hg by (unfold getById, gets; msimpl; by destruct (tenantIdSchema tn)).
  specialize (Hr Hg). destruct (faulty _ _ s) as [[o|e] s1]; simpl in *; subst s1; [|done].
  destruct o as [r|]; [|done]. etrans; [exact Hb|apply Hk].
Qed.

Lemma observe_moves c tn tn' id d s : exp_inv s -> calls_ok c s -> quiet tn' c s -> zod_uuid tn = true ->
  tn ≠ tn' -> moves tn' s (observe c tn id d s).2.
Proof.
  intros Hs Hc Hq Hz Hne. unfold observe. apply get_moves; [done|done|]. intros r.
  destruct (negb _); [done|]. rewrite answered_state, or_conflict_state. apply call_moves. intros p.
  destruct Hc as [H1 H2 _ H4], Hq as [Q1 Q2]. split; [by apply steps_observe|].
  apply observe_same; [|done..]. destruct (steps_sound _ _ H1 Hs) as [H _]. by apply (steps_sound _ _ H2).
Qed.

Lemma bind_moves {A B} tn (m : M State A) (k : A -> M State B) s : moves tn s (m s).2 ->
  (forall a s', moves tn s' (k a s').2) -> moves tn s ((a ← m; k a) s).2.
Proof.
  intros Hm Hk. unfold mbind, M_bind. destruct (m s) as [[a|e] s']; [|done]. simpl in *. etrans; [exact Hm|apply Hk].
Qed.

Lemma part_moves {A} tn (part : A + Response) (k : A -> M State Response) s :
  (forall a, part = inl a -> moves tn s (k a s).2) -> moves tn s (or_respond part k s).2.
Proof. intros Hk. destruct part as [a|resp]; [by apply Hk|done]. Qed.

Lemma repository_moves tn (m : M State Response) s :
  moves tn s (m s).2 -> moves tn s ((requireRepository configured;; m) s).2.
Proof. intros Hm. unfold requireRepository. by destruct configured. Qed.

Lemma read_moves {A} tn f (m : M State A) (g : A -> Response) s :
  (m s).2 = s -> moves tn s ((a ← faulty f m; mret (g a)) s).2.
Proof. intros Hm. rewrite answered_state. by rewrite (faulty_read f m s Hm). Qed.

Lemma handle_moves c tenant r s tn' : exp_inv s -> calls_ok c s -> quiet tn' c s -> tenant ≠ Some tn' ->
  moves tn' s (handle configured c tenant r s).2.
Proof.
  intros Hs Hc Hq Hne.
  assert (forall tn, requireTenantId tenant = inl tn -> zod_uuid tn = true /\ tn ≠ tn') as Ht.
  { intros tn [-> Hz]%requireTenantId_inl. split; [done|congruence]. }
  assert (exp_inv (xc_between c s)) as Hb by (by apply (steps_sound _ _ (co_between _ _ Hc))).
  assert (exp_inv (xc_during c (xc_between c s))) as Hd by (by apply (steps_sound _ _ (co_during _ _ Hc))).
  destruct r; (apply part_moves; intros tn [Hz Hn]%Ht; apply part_moves; intros ? _ || idtac).
  - apply repository_moves. rewrite answered_state. apply call_moves. intros p.
    split; [apply steps_create, Hc|apply create_same; [apply Hc|done]].
  - apply repository_moves, read_moves, list_reads.
  - apply repository_moves, get_moves; [done|done|]. by intros r.
  - apply part_moves. intros d _. apply repository_moves, get_moves; [done|done|]. intros r.
    destruct (negb _); [done|]. destruct (negb _); [done|]. apply bind_moves; [|by intros []].
    apply call_moves. intros p. split; [apply steps_transition|by apply transition_same].
  - apply part_moves. intros d _. apply repository_moves, get_moves; [done|done|]. intros r.
    destruct (negb _); [done|]. rewrite answered_state, or_conflict_state. apply call_moves. intros p.
    split; [apply steps_assign; apply Hc|apply assign_same; [done|apply Hc|done|done|apply Hq]].
  - apply part_moves. intros q _. apply repository_moves, get_moves; [done|done|]. intros r.
    apply read_moves, observations_read.
  - apply part_moves. intros d _. by apply repository_moves, observe_moves.
  - by apply repository_moves, observe_moves.
Qed.
End moves.

(** ** What a request can be answered *)

Section answers.
Context `{Z : Zod} {ZL : ZodLaws Z} `{F : ZodFormats} `{R : ZodReport}.
Implicit Types (s : State) (c : experiment_calls).

#[export] Instance experimentRecord_zod_only r : Fails zod_only (experimentRecordSchema r).
Proof. unfold experimentRecordSchema. apply _. Qed.
#[export] Instance createParams_zod_only p : Fails zod_only (createExperimentParamsSchema p).
Proof. unfold createExperimentParamsSchema. apply _. Qed.
#[export] Instance transitionParams_zod_only p : Fails zod_only (transitionExperimentParamsSchema p).
Proof. unfold transitionExperimentParamsSchema. apply _. Qed.
#[export] Instance assignmentRecord_zod_only r : Fails zod_only (experimentAssignmentRecordSchema r).
Proof. unfold experimentAssignmentRecordSchema. apply _. Qed.
#[export] Instance assignParams_zod_only p : Fails zod_only (assignExperimentParamsSchema p).
Proof. unfold assignExperimentParamsSchema. apply _. Qed.
#[export] Instance observationRecord_zod_only r : Fails zod_only (experimentObservationRecordSchema r).
Proof. unfold experimentObservationRecordSchema. apply _. Qed.
#[export] Instance currency_zod_only text : Fails zod_only (isoCurrencySchema text).
Proof. unfold isoCurrencySchema. apply _. Qed.
#[export] Instance observeParams_zod_only p : Fails zod_only (recordExperimentObservationParamsSchema p).
Proof. unfold recordExperimentObservationParamsSchema. apply _. Qed.
#[export] Instance resolve_zod_only {A} (d : dated A) : Fails zod_only (resolve d).
Proof. intros e. unfold resolve. destruct d.2 as [[t|]|]; [done|by intros [= <-]|done]. Qed.
#[export] Instance normalizeLimit_zod_only n : Fails zod_only (normalizeLimit n).
Proof. unfold normalizeLimit. apply _. Qed.

(** The errors of the repository: of a schema, or an expected conflict. *)
Definition domain_error (e : js_error) : Prop :=
  e = ZodError \/ exists m, isExpectedExperimentConflict e = Some m.
(** The errors of a handler: of a schema, or one of these answers. *)
Definition known_error (e : js_error) : Prop :=
  e = ZodError \/ exists status m, e = HttpError status m /\ status ∈ [404; 409; 503].

#[local] Instance domain_zod {A} (r : result A) : Fails zod_only r -> Fails domain_error r.
Proof. apply fails_weaken. by left. Qed.
#[local] Instance known_zod {A} (r : result A) : Fails zod_only r -> Fails known_error r.
Proof. apply fails_weaken. by left. Qed.

#[local] Instance assign_domain others env tn p : Raises domain_error (assign others env tn p).
Proof. unfold assign, getById. solve_raises; right; eexists; reflexivity. Qed.
#[local] Instance observe_domain others env tn p : Raises domain_error (recordObservation others env tn p).
Proof. unfold recordObservation, getById. solve_raises; right; eexists; reflexivity. Qed.

(** The table of the routes is the table of the repository, so a transition
    the route lets through is never refused as illegal. *)
Lemma routeTransitions_repository st : routeTransitions st = experimentTransitions st.
Proof. by destruct st. Qed.

Lemma transition_known env tn id from to p : isLegalTransition from to = true ->
  Raises known_error (transition env tn id from to p).
Proof.
  unfold isLegalTransition. rewrite routeTransitions_repository. intros Hl. unfold transition, assertExperimentTransition.
  rewrite Hl. solve_raises.
Qed.

Lemma or_conflict_known {A} (m : M State A) : Raises domain_error m -> Raises known_error (or_conflict m).
Proof.
  intros Hm s e s'. unfold or_conflict, catching. msimpl. destruct (m s) as [[a|x] s1] eqn:E; [done|].
  destruct (Hm _ _ _ E) as [->|[msg Hx]]; simpl; [intros [= <- _]; by left|].
  rewrite Hx. intros [= <- _]. right. exists 409, msg. split; [done|set_solver].
Qed.

Lemma raises_weaken (P Q : js_error -> Prop) {A} (m : M State A) :
  (forall e, P e -> Q e) -> Raises P m -> Raises Q m.
Proof. intros H Hm s e s' He. eapply H, Hm, He. Qed.

(** A handler ends well when its answers and its errors are known. *)
Definition ends_well (m : M State Response) : Prop := forall s,
  match (m s).1 with
  | Ok resp => rsp_status resp ∈ [200; 201; 400]
  | Err e => known_error e
  end.

Lemma ends_bind {A} (m : M State A) (k : A -> M State Response) :
  Raises known_error m -> (forall a, ends_well (k a)) -> ends_well (a ← m; k a).
Proof.
  intros Hm Hk s. unfold mbind, M_bind. destruct (m s) as [[a|e] s'] eqn:E; [apply Hk|]. by eapply Hm.
Qed.

Lemma ends_ret resp : rsp_status resp ∈ [200; 201; 400] -> ends_well (mret resp).
Proof. by intros H s. Qed.

Lemma ends_throw e : known_error e -> ends_well (throw e).
Proof. by intros H s. Qed.

(** A reader of a request that refuses answers 400. *)
Lemma ends_part {A} (part : A + Response) (k : A -> M State Response) :
  (forall r, part = inr r -> rsp_status r = 400) -> (forall a, ends_well (k a)) ->
  ends_well (or_respond part k).
Proof. intros Hp Hk. destruct part as [a|r]; [apply Hk|]. apply ends_ret. rewrite (Hp r eq_refl). set_solver. Qed.

Lemma ends_tenant h (k : string -> M State Response) : (forall a, ends_well (k a)) ->
  ends_well (or_respond (requireTenantId h) k).
Proof. apply ends_part. intros r. unfold requireTenantId. repeat case_match; by intros [= <-]. Qed.
Lemma ends_id what p (k : string -> M State Response) : (forall a, ends_well (k a)) ->
  ends_well (or_respond (requireResourceId what p) k).
Proof. apply ends_part. intros r. unfold requireResourceId. repeat case_match; by intros [= <-]. Qed.
Lemma ends_body {A} body (schema : json -> result A) (k : A -> M State Response) :
  (forall a, ends_well (k a)) -> ends_well (or_respond (parseJsonBody body schema) k).
Proof. apply ends_part. intros r. unfold parseJsonBody. repeat case_match; by intros [= <-]. Qed.
Lemma ends_list limit (k : BinNums.Z -> M State Response) : (forall a, ends_well (k a)) ->
  ends_well (or_respond (parseListQuery limit) k).
Proof. apply ends_part. intros r. unfold parseListQuery. repeat case_match; by intros [= <-]. Qed.
Lemma ends_observations limit metric (k : BinNums.Z * option string -> M State Response) :
  (forall a, ends_well (k a)) -> ends_well (or_respond (parseObservationListQuery limit metric) k).
Proof. apply ends_part. intros r. unfold parseObservationListQuery. repeat case_match; by intros [= <-]. Qed.

Lemma http_known status m : status ∈ [404; 409; 503] -> known_error (HttpError status m).
Proof. right. by exists status, m. Qed.

Lemma repository_known configured : Raises known_error (requireRepository configured).
Proof.
  unfold requireRepository. destruct configured; [apply _|]. apply raises_throw, http_known. set_solver.
Qed.

Lemma get_known c tn id : (xc_read c).2 = NoFault -> Raises known_error (getTenantExperiment c tn id).
Proof.
  intros Hr. unfold getTenantExperiment, getById. rewrite Hr. unfold faulty.
  solve_raises. apply http_known. set_solver.
Qed.

Lemma observe_ends c tn id d : (xc_read c).2 = NoFault -> (xc_call c).2 = NoFault ->
  ends_well (observe c tn id d).
Proof.
  intros Hr Hc. apply ends_bind; [by apply get_known|intros r].
  case_match; [apply ends_throw, http_known; set_solver|]. apply ends_bind; [|intros o; apply ends_ret; set_solver].
  rewrite Hc. apply or_conflict_known, _.
Qed.

(** While the calls to the database succeed, every handler ends well. *)
Lemma handle_ends configured c tenant r : (xc_read c).2 = NoFault -> (xc_call c).2 = NoFault ->
  ends_well (handle configured c tenant r).
Proof.
  intros Hr Hc. pose proof (repository_known configured) as Hrepo.
  destruct r; apply ends_tenant; intros tn.
  - apply ends_body; intros d. apply ends_bind; [done|intros _]. apply ends_bind; [|intros e; apply ends_ret; set_solver].
    rewrite Hc. unfold faulty, create. solve_raises.
  - apply ends_list; intros n. apply ends_bind; [done|intros _]. apply ends_bind; [|intros e; apply ends_ret; set_solver].
    rewrite Hc. unfold faulty, listRecent. solve_raises.
  - apply ends_id; intros i. apply ends_bind; [done|intros _]. apply ends_bind; [by apply get_known|].
    intros e. apply ends_ret. set_solver.
  - apply ends_id; intros i. apply ends_body; intros d. apply ends_bind; [done|intros _].
    apply ends_bind; [by apply get_known|intros e].
    case_match; [apply ends_throw, http_known; set_solver|].
    destruct (isLegalTransition _ _) eqn:Hl; simpl; [|apply ends_throw, http_known; set_solver].
    apply ends_bind; [rewrite Hc; apply raises_bind; [apply _|intros p; by apply transition_known]|].
    intros [q|]; [apply ends_ret; set_solver|apply ends_throw, http_known; set_solver].
  - apply ends_id; intros i. apply ends_body; intros d. apply ends_bind; [done|intros _].
    apply ends_bind; [by apply get_known|intros e].
    case_match; [apply ends_throw, http_known; set_solver|].
    apply ends_bind; [rewrite Hc; apply or_conflict_known, _|]. intros [a []]; apply ends_ret; set_solver.
  - apply ends_id; intros i. apply ends_observations; intros q. apply ends_bind; [done|intros _].
    apply ends_bind; [by apply get_known|intros e]. apply ends_bind; [|intros l; apply ends_ret; set_solver].
    rewrite Hc. unfold faulty, listObservations. solve_raises.
  - apply ends_id; intros i. apply ends_body; intros d. apply ends_bind; [done|intros _]. by apply observe_ends.
  - apply ends_body; intros d. apply ends_bind; [done|intros _]. by apply observe_ends.
Qed.
End answers.

(** ** Transitions *)

Section transitions.
Context `{Z : Zod} {ZL : ZodLaws Z} `{F : ZodFormats} `{R : ZodReport}.
Implicit Types (s : State) (c : experiment_calls).

(** A tenant's experiment. *)
Abbreviation experiment_of tn id s := (owned ex_tenantId tn (experimentsById s) id).

Lemma get_eq c tn id s : (xc_read c).2 = NoFault -> zod_uuid tn = true ->
  getTenantExperiment c tn id s =
    (match experiment_of tn id s with
     | Some r => Ok r | None => Err (NotFoundError "Experiment was not found.") end, xc_between c s).
Proof.
  intros Hr Hz. unfold getTenantExperiment, getById, faulty, gets, await, modify, throw, owned. rewrite Hr. msimpl.
  rewrite (proj2 (tenantIdSchema_ok tn tn)) by done.
  by destruct (mapGet id (experimentsById s)) as [r|]; [case_bool_decide|].
Qed.

Lemma confidence_ok v conf : optional_field (number_field unit_number) v = Ok conf ->
  zod_optional unit_number conf = Ok conf.
Proof.
  unfold optional_field, number_field. destruct v as [[]|]; msimpl; try done; try (by intros [= <-]).
  destruct (unit_number n) as [m|] eqn:E; [|done]. intros [= <-]. simpl. by rewrite (idem_parse _ _ E).
Qed.

(** The parameters of a request are accepted by the repository. *)
Lemma transition_request_params raw d p : transitionExperimentRequestSchema raw = Ok d ->
  resolve (tr_params d) = Ok p -> transitionExperimentParamsSchema p = Ok p.
Proof.
  unfold transitionExperimentRequestSchema. intros H Hp. schema_fields H. subst d.
  match goal with E : optional_field (number_field unit_number) _ = Ok ?conf |- _ =>
    apply confidence_ok in E; unfold resolve in Hp; simpl in Hp;
    assert (forall w at_, transitionExperimentParamsSchema (mkTransitionExperiment w conf at_) =
      Ok (mkTransitionExperiment w conf at_)) as Hall
      by (intros w at_; unfold transitionExperimentParamsSchema; simpl; by rewrite E) end.
  repeat case_match; simplify_eq; apply Hall.
Qed.

(** What a well-formed transition request is answered. *)
Inductive transition_outcome c (tn id : string) (from to : ExperimentStatus) s : Response -> State -> Prop :=
  | transition_unknown : experiment_of tn id s = None ->
      transition_outcome c tn id from to s (refusal 404 "Experiment was not found.") (xc_between c s)
  | transition_mismatched r : experiment_of tn id s = Some r -> ex_status r ≠ from ->
      transition_outcome c tn id from to s (refusal 409 ("Experiment is currently " +:+
        ExperimentStatus_str (ex_status r) +:+ "; expected " +:+ ExperimentStatus_str from +:+ ".")) (xc_between c s)
  | transition_illegal r : experiment_of tn id s = Some r -> ex_status r = from -> ~ lifecycle from to ->
      transition_outcome c tn id from to s (refusal 409 ("Illegal experiment transition: " +:+
        ExperimentStatus_str from +:+ " -> " +:+ ExperimentStatus_str to +:+ ".")) (xc_between c s)
  | transition_overtaken r : experiment_of tn id s = Some r -> ex_status r = from -> lifecycle from to ->
      (forall q, experiment_of tn id (xc_between c s) = Some q -> ex_status q ≠ from) ->
      transition_outcome c tn id from to s
        (refusal 409 "Experiment changed before the requested transition could be applied.") (xc_between c s)
  | transition_done r q r' : experiment_of tn id s = Some r -> ex_status r = from -> lifecycle from to ->
      experiment_of tn id (xc_between c s) = Some q -> ex_status q = from ->
      design r' = design q -> ex_status r' = to ->
      transition_outcome c tn id from to s (experimentAnswer 200 tn r')
        (xc_between c s <| experimentsById := mapSet id r' (experimentsById (xc_between c s)) |>).

(** The repository's part, once the route has let the transition through. *)
Lemma transition_answer env tn id from to p s : exp_inv s -> zod_uuid tn = true ->
  transitionExperimentParamsSchema p = Ok p -> lifecycle from to ->
  (exists q r', experiment_of tn id s = Some q /\ ex_status q = from /\ design r' = design q /\
     ex_status r' = to /\ transition env tn id from to p s =
       (Ok (Some r'), s <| experimentsById := mapSet id r' (experimentsById s) |>)) \/
  (forall q, experiment_of tn id s = Some q -> ex_status q ≠ from) /\
  transition env tn id from to p s = (Ok None, s).
Proof.
  intros Hs Hz Hp Hl. assert (tenantIdSchema tn = Ok tn) as Ht by (by apply tenantIdSchema_ok).
  destruct (transition_cases env tn id from to p s Hs)
    as [(q & r' & Hq & He & Htn & Hst & _ & Hd & Hto & _)|[H1 H2]].
  - left. exists q, r'. split_and!; try done. unfold owned. rewrite Hq. by rewrite bool_decide_true.
  - right. assert (forall q, experiment_of tn id s = Some q -> ex_status q ≠ from) as Hno.
    { intros q. unfold owned. destruct (mapGet id (experimentsById s)) as [r|] eqn:Hr; [|done].
      case_bool_decide as Htn; [|done]. intros [= <-] Hst.
      destruct (transition_found env tn id from to p s r Hs Hr Ht (ex_intro _ _ Hp) Hl Htn Hst)
        as (r' & He & _). apply (H2 r'). by rewrite He. }
    split; [done|]. unfold transition, assertExperimentTransition, gets. msimpl.
    rewrite Ht, Hp, (bool_decide_true _ Hl). simpl. unfold owned in Hno.
    destruct (mapGet id (experimentsById s)) as [r|]; [|done].
    destruct (bool_decide (ex_tenantId r = tn)); [|done].
    by rewrite (bool_decide_false (ex_status r = from)) by (by apply Hno).
Qed.

(** A well-formed transition request, while the database answers. *)
Lemma postTransition_eq c tn id raw d p s : (xc_read c).2 = NoFault -> (xc_call c).2 = NoFault ->
  zod_uuid tn = true -> zod_uuid id = true -> transitionExperimentRequestSchema raw = Ok d ->
  resolve (tr_params d) = Ok p ->
  postTransition true c (Some tn) id (Ok raw) s =
    match experiment_of tn id s with
    | None => (Err (NotFoundError "Experiment was not found."), xc_between c s)
    | Some r =>
        if negb (bool_decide (ex_status r = tr_fromStatus d)) then
          (Err (ConflictError ("Experiment is currently " +:+ ExperimentStatus_str (ex_status r) +:+
             "; expected " +:+ ExperimentStatus_str (tr_fromStatus d) +:+ ".")), xc_between c s)
        else if negb (isLegalTransition (tr_fromStatus d) (tr_toStatus d)) then
          (Err (ConflictError ("Illegal experiment transition: " +:+ ExperimentStatus_str (tr_fromStatus d) +:+
             " -> " +:+ ExperimentStatus_str (tr_toStatus d) +:+ ".")), xc_between c s)
        else
          match transition (xc_call c).1 tn id (tr_fromStatus d) (tr_toStatus d) p (xc_between c s) with
          | (Ok (Some r'), s') => (Ok (experimentAnswer 200 tn r'), s')
          | (Ok None, s') =>
              (Err (ConflictError "Experiment changed before the requested transition could be applied."), s')
          | (Err e, s') => (Err e, s')
          end
    end.
Proof.
  intros Hr Hf Hz Hzi Hb Hp. unfold postTransition, requireResourceId, parseJsonBody.
  rewrite requireTenantId_uuid, (proj2 (uuid_ok id id)), Hb by done. unfold or_respond.
  rewrite (bind_eq (requireRepository true) _ s tt s eq_refl).
  pose proof (get_eq c tn id s Hr Hz) as Hread.
  destruct (experiment_of tn id s) as [r|]; [|by apply bind_err].
  rewrite (bind_eq _ _ _ _ _ Hread). cbv zeta.
  case_bool_decide; simpl; [|done]. destruct (isLegalTransition _ _); simpl; [|done].
  rewrite Hf. unfold faulty, mbind, M_bind, lift. rewrite Hp.
  by destruct (transition _ _ _ _ _ _ _) as [[[a|]|e] s'].
Qed.
End transitions.

(** ** Theorems *)

Section theorems.
Context `{Z : Zod} {ZL : ZodLaws Z} `{F : ZodFormats} `{R : ZodReport}.
Context (configured : bool) (token auth : option string).
Implicit Types (s : State) (c : experiment_calls).

(** C25. Every request on experiments, assignments, observations or outcomes,
    accepted or refused, whatever fails and whoever runs meanwhile, takes
    the repository through its own steps, so it keeps the repository's
    invariant and its append-only evidence; and it changes nothing for
    any tenant but the one in the header, whatever ids the path and the
    body name. *)
Theorem experiment_requests_stay_in_tenant c tenant r s tn : exp_inv s -> calls_ok c s -> quiet tn c s ->
  tenant ≠ Some tn ->
  let s' := (guarded_route token auth (handle configured c tenant r) s).2 in
  steps s s' /\ exp_inv s' /\ evolves s s' /\ same_for tn s s'.
Proof.
  intros Hs Hc Hq Hne s'. assert (moves tn s s') as [H1 H2].
  { unfold s'. destruct (guarded_state token auth (handle configured c tenant r) s) as [-> | ->]; [done|].
    by apply handle_moves. }
  destruct (steps_sound _ _ H1 Hs). done.
Qed.

(** C27. While the database answers, every request on experiments gets a
    definite answer: success, or a refusal of the request, of its token, of an
    unknown experiment or of a conflict.  An internal error (500) tells of
    the database alone: no domain error of the repository is answered as
    one, because the route's list of expected conflicts is complete and its
    lifecycle table is the repository's. *)
Theorem internal_errors_are_outages c tenant r s : (xc_read c).2 = NoFault -> (xc_call c).2 = NoFault ->
  exists resp, (guarded_route token auth (handle configured c tenant r) s).1 = Ok resp /\
    rsp_status resp ∈ [200; 201; 400; 401; 404; 409; 503].
Proof.
  intros Hr Hc. pose proof (handle_ends configured c tenant r Hr Hc s) as H.
  unfold guarded_route, answered, catching. msimpl.
  destruct (requireToken_cases token auth (handle configured c tenant r) s) as [[-> _]|(_ & _ & error & ->)].
  - destruct (handle configured c tenant r s) as [[resp|e] s']; simpl in *.
    + exists resp. split; [done|]. set_solver.
    + eexists. split; [done|]. destruct H as [->|(status & m & -> & Hst)]; simpl; set_solver.
  - eexists. split; [done|]. simpl. set_solver.
Qed.

(** C26. While the database answers, every authorized and well-formed request
    to move an experiment is decided: 404 when the tenant has no such
    experiment, 409 when its status is not the expected one, when the
    lifecycle has no such edge, or when another task moved it in between;
    otherwise it moves along that edge, its design unchanged.  A refusal
    writes nothing. *)
Theorem transition_requests_are_decided c tn id raw d p s :
  configured = true -> authorized token auth -> (xc_read c).2 = NoFault -> (xc_call c).2 = NoFault ->
  zod_uuid tn = true -> zod_uuid id = true -> transitionExperimentRequestSchema raw = Ok d ->
  resolve (tr_params d) = Ok p -> exp_inv (xc_between c s) ->
  exists resp s',
    guarded_route token auth (postTransition configured c (Some tn) id (Ok raw)) s = (Ok resp, s') /\
    transition_outcome c tn id (tr_fromStatus d) (tr_toStatus d) s resp s'.
Proof.
  intros -> Ha Hr0 Hf0 Hz Hzi Hb Hp Hi. pose proof (transition_request_params _ _ _ Hb Hp) as Hp'.
  pose proof (postTransition_eq c tn id raw d p s Hr0 Hf0 Hz Hzi Hb Hp) as H.
  destruct (owned ex_tenantId tn (experimentsById s) id) as [r|] eqn:Hr.
  2: { do 2 eexists. split; [by apply guarded_err|by apply transition_unknown]. }
  case_bool_decide as Hst; simpl in H.
  2: { do 2 eexists. split; [by apply guarded_err|by eapply transition_mismatched]. }
  unfold isLegalTransition in H. rewrite routeTransitions_repository in H.
  case_bool_decide as Hl; simpl in H.
  2: { do 2 eexists. split; [by apply guarded_err|by eapply transition_illegal]. }
  destruct (transition_answer (xc_call c).1 tn id _ _ p _ Hi Hz Hp' Hl)
    as [(q & r' & Hq & Hqs & Hd & Hto & Heq)|[Hno Heq]]; rewrite Heq in H.
  - do 2 eexists. split; [by apply guarded_ok|by eapply transition_done].
  - do 2 eexists. split; [by apply guarded_err|by eapply transition_overtaken].
Qed.
End theorems.

(** ** Witnesses *)

Module ExperimentRoutesExample.
Import ZodExample ExperimentsExample.

#[export] Instance formats : ZodFormats :=
  {| zod_url := fun _ => true; zod_email := fun _ => true;
     zod_datetime_offset := fun s => match date_of s with Some _ => true | None => false end;
     zod_datetime := fun s => match date_of s with Some _ => true | None => false end |}.
#[export] Instance report : ZodReport := {| zod_issues := JArr []; zod_field_errors := fun _ => JObj [] |}.

Definition token : option string := Some "s3cret".
Definition auth : option string := Some "Bearer s3cret".
Definition alone : experiment_calls := mkExperimentCalls (env2, NoFault) (env2, NoFault) no_one no_one.
(** Another founder pauses the experiment in between. *)
Definition raced : experiment_calls :=
  mkExperimentCalls (env2, NoFault) (env3, NoFault)
    (fun s => (transition env2 tenant id1 exp_running exp_paused (mkTransitionExperiment None None None) s).2) no_one.

Definition unit_body : json :=
  JObj [("entityType", JStr "account"); ("entityId", JStr "acme"); ("variant", JStr "a")].
Definition conclude : json :=
  JObj [("fromStatus", JStr "running"); ("toStatus", JStr "concluded"); ("winner", JStr "b");
        ("confidence", JNum num_one); ("endedAt", JStr "2024-02-29T14:34:56+02:00")].
Definition conclusion : TransitionRequest :=
  mkTransitionRequest exp_running exp_concluded
    (mkTransitionExperiment (Some win_b) (Some num_one), Some (Some 1709210096000)).

Lemma s1_inv : exp_inv s1.
Proof. apply (steps_init_inv _ s1_steps). Qed.
Lemma alone_ok : calls_ok alone s1.
Proof. split; [apply steps_refl..| |]; split_and!; vm_compute; reflexivity. Qed.
Lemma alone_quiet : quiet other_tenant alone s1.
Proof. by split. Qed.
Lemma raced_inv : exp_inv (xc_between raced s1).
Proof. exact (proj1 (transition_steps env2 tenant id1 exp_running exp_paused _ s1 s1_inv)). Qed.
Lemma experiment_token_sent : authorized token auth.
Proof. right. by exists "s3cret". Qed.
Lemma example_tenant_is_uuid : zod_uuid tenant = true.
Proof. reflexivity. Qed.
Lemma example_id_is_uuid : zod_uuid id1 = true.
Proof. reflexivity. Qed.
Lemma other_is_other : Some tenant ≠ Some other_tenant.
Proof. done. Qed.
Lemma conclude_parses : transitionExperimentRequestSchema conclude = Ok conclusion.
Proof. vm_compute. reflexivity. Qed.
End ExperimentRoutesExample.

Section witnesses.
Import ZodExample ExperimentsExample ExperimentRoutesExample.

Lemma experiment_requests_stay_in_tenant_witness :
  let s' := (guarded_route token auth (handle true alone (Some tenant) (AssignExperiment id1 (Ok unit_body))) s1).2 in
  steps s1 s' /\ exp_inv s' /\ evolves s1 s' /\ same_for other_tenant s1 s'.
Proof.
  exact (experiment_requests_stay_in_tenant true token auth alone (Some tenant)
    (AssignExperiment id1 (Ok unit_body)) s1 other_tenant s1_inv alone_ok alone_quiet other_is_other).
Defined.

(** A body that names a tenant is a bad request. *)
Example body_tenant_is_refused :
  rsp_status <$> match (guarded_route token auth (handle true alone (Some tenant) (AssignExperiment id1
    (Ok (JObj [("entityType", JStr "account"); ("entityId", JStr "acme"); ("variant", JStr "a");
               ("tenantId", JStr other_tenant)])))) s1).1 with Ok r => Some r | Err _ => None end = Some 400.
Proof. vm_compute. reflexivity. Qed.

Lemma internal_errors_are_outages_witness :
  exists resp, (guarded_route token auth (handle true alone (Some tenant)
      (AssignExperiment id1 (Ok unit_body))) s1).1 = Ok resp /\
    rsp_status resp ∈ [200; 201; 400; 401; 404; 409; 503].
Proof.
  exact (internal_errors_are_outages true token auth alone (Some tenant) (AssignExperiment id1 (Ok unit_body)) s1
    eq_refl eq_refl).
Defined.

Lemma transition_requests_are_decided_witness :
  exists resp s',
    guarded_route token auth (postTransition true raced (Some tenant) id1 (Ok conclude)) s1 = (Ok resp, s') /\
    transition_outcome raced tenant id1 exp_running exp_concluded s1 resp s'.
Proof.
  exact (transition_requests_are_decided true token auth raced tenant id1 conclude conclusion
    (mkTransitionExperiment (Some win_b) (Some num_one) (Some 1709210096000)) s1 eq_refl experiment_token_sent eq_refl eq_refl
    example_tenant_is_uuid example_id_is_uuid conclude_parses eq_refl raced_inv).
Defined.
End witnesses.
