(* ===== verification/PgExperiments.v ===== *)
(** * Experiments in Postgres

    [PostgresExperimentRepository] of
    [packages/db/src/adaptive-control-plane-repository.ts] over the tables of
    [packages/db/src/schema.ts] with their range and check constraints
    (module [PostgresExperiments]), and how it refines the in-memory
    repository of [Experiments.v]. A row is kept as the record its mapper
    reads from it: a [numeric] column as the number [Number(column)] gives. *)

From S2P Require Import Prelude Numbers JsRuntime Domain Zod Sql ControlPlane Experiments.

(** ** Column values of the database *)

(** [numeric_store p s x] is what is read back from a [numeric(p, s)] column
    after [String(x)] was written to it, [None] when it overflows;
    [numeric_avg] is SQL's [avg] of a bag that is not empty; the two errors
    are what the driver throws. *)
Class SqlValues := {
  numeric_store : Z -> Z -> num -> option num;
  numeric_avg : list num -> num;
  out_of_range : js_error;
  check_violation : js_error;
}.

(** [avg] of no values is [NULL]. *)
Definition sql_avg `{SqlValues} (vs : list num) : option num :=
  match vs with [] => None | _ => Some (numeric_avg vs) end.

(** The values of an [integer] column. *)
Definition int4 (z : Z) : bool := (- 2 ^ 31 <=? z) && (z <? 2 ^ 31).

Definition numeric_column `{SqlValues} (precision scale : Z) (v : option num) :
    result (option num) :=
  match v with
  | None => mret None
  | Some x => match numeric_store precision scale x with
              | Some y => mret (Some y)
              | None => Err out_of_range
              end
  end.

Definition check_row `{SqlValues} {R} (ok : R -> bool) (r : R) : result R :=
  if ok r then mret r else Err check_violation.

Definition in_unit (x : num) : bool := num_leb num_zero x && num_leb x num_one.

Module PostgresExperiments.
Section ops.
Context `{Zod} {E : SqlEngine} `{SqlValues}.

(** The three tables the repository reads and writes. *)
Record Db := mkDb {
  experiments : table ExperimentRecord;
  experiment_assignments : table ExperimentAssignmentRecord;
  experiment_observations : table ExperimentObservationRecord;
}.

Definition on_experiments {A} (m : M (table ExperimentRecord) A) : M Db A := fun db =>
  let '(r, t) := m (experiments db) in
  (r, mkDb t (experiment_assignments db) (experiment_observations db)).
Definition on_assignments {A} (m : M (table ExperimentAssignmentRecord) A) : M Db A := fun db =>
  let '(r, t) := m (experiment_assignments db) in
  (r, mkDb (experiments db) t (experiment_observations db)).
Definition on_observations {A} (m : M (table ExperimentObservationRecord) A) : M Db A := fun db =>
  let '(r, t) := m (experiment_observations db) in
  (r, mkDb (experiments db) (experiment_assignments db) t).

Definition mapExperiment := experimentRecordSchema.
Definition mapAssignment := experimentAssignmentRecordSchema.
Definition mapObservation := experimentObservationRecordSchema.

(** *** What the tables accept *)

Definition experiment_checks (r : ExperimentRecord) : bool :=
  (0 <? ex_minSampleSize r) &&
  match ex_confidence r with Some c => in_unit c | None => true end.

Definition experiment_row (r : ExperimentRecord) : result ExperimentRecord :=
  if int4 (ex_minSampleSize r) then check_row experiment_checks r else Err out_of_range.

Definition observation_checks (r : ExperimentObservationRecord) : bool :=
  in_unit (ob_attributionConfidence r) &&
  match ob_costAmount r with Some c => num_leb num_zero c | None => true end &&
  match ob_costCurrency r with Some c => (String.length c =? 3)%nat | None => true end.

(** [unique (tenant_id, experiment_key)] *)
Definition same_experiment (a b : ExperimentRecord) : bool :=
  bool_decide (ex_tenantId a = ex_tenantId b) &&
  bool_decide (ex_experimentKey a = ex_experimentKey b).
(** [unique (tenant_id, experiment_id, entity_type, entity_id)] *)
Definition same_unit (a b : ExperimentAssignmentRecord) : bool :=
  bool_decide (as_tenantId a = as_tenantId b) &&
  bool_decide (as_experimentId a = as_experimentId b) &&
  bool_decide (as_entityType a = as_entityType b) && bool_decide (as_entityId a = as_entityId b).
(** [unique (tenant_id, experiment_id, idempotency_key)] *)
Definition same_observation (a b : ExperimentObservationRecord) : bool :=
  bool_decide (ob_tenantId a = ob_tenantId b) &&
  bool_decide (ob_experimentId a = ob_experimentId b) &&
  bool_decide (ob_idempotencyKey a = ob_idempotencyKey b).

Definition where_experiment (tenantId id : string) (r : ExperimentRecord) : bool :=
  holds (sql_all [col_eq (ex_tenantId r) tenantId; col_eq (ex_id r) id]).

(** *** The parameters of a statement, as their columns keep them *)

Definition experiment_columns (p : CreateExperimentParams) : CreateExperimentParams :=
  mkCreateExperiment (ce_experimentKey p) (ce_motion p) (ce_experimentType p) (ce_unitType p)
    (ce_hypothesis p) (jsonb_in (ce_variantA p)) (jsonb_in (ce_variantB p)) (ce_metricName p)
    (ce_metricDirection p) (ce_minSampleSize p) (ce_initialRunning p) (jsonb_in <$> ce_inputSnapshot p)
    (ce_modelVersion p) (ce_promptVersion p) (ce_playbookVersion p) (ce_policyVersion p)
    (ce_createdBy p) (ce_startedAt p).

Definition assignment_columns (p : AssignExperimentParams) : result AssignExperimentParams :=
  experimentId ← uuid_in (ap_experimentId p);
  mret (mkAssign experimentId (ap_entityType p) (ap_entityId p) (ap_variant p)
    (jsonb_in <$> ap_assignmentContext p) (ap_exposedAt p)).

Definition observation_columns (p : RecordExperimentObservationParams) :
    result RecordExperimentObservationParams :=
  experimentId ← uuid_in (ro_experimentId p);
  assignmentId ← db_uuid_or_null (ro_assignmentId p);
  mret (mkRecordObs experimentId assignmentId (ro_idempotencyKey p) (ro_entityType p) (ro_entityId p)
    (ro_variant p) (ro_metricName p) (ro_metricValue p) (ro_isGuardrail p)
    (ro_attributionConfidence p) (ro_attributionModel p) (ro_source p) (ro_costAmount p)
    (ro_costCurrency p) (jsonb_in <$> ro_observedOutcome p) (jsonb_in <$> ro_evidence p)
    (ro_observedAt p)).

(** *** Operations *)

Definition create (env : call_env) (tenantId : string) (params : CreateExperimentParams) :
    M Db ExperimentRecord :=
  parsedTenantId ← lift (db_uuid tenantId);
  parsed ← lift (createExperimentParamsSchema params);
  transaction (on_experiments (
    let now := env_now env in
    row ← lift (experiment_row (new_experiment (env_uuid env) parsedTenantId (experiment_columns parsed) now));
    inserted ← tx_insert same_experiment row;
    match inserted with
    | row :: _ => lift (mapExperiment row)
    | [] =>
        found ← tx_select (fun r => holds (sql_all [col_eq (ex_tenantId r) parsedTenantId;
          col_eq (ex_experimentKey r) (ce_experimentKey parsed)]));
        match found with
        | [] => throw (JsError "Experiment create returned no row.")
        | existing :: _ => lift (mapExperiment existing)
        end
    end)).

Definition getById (tenantId id : string) : M Db (option ExperimentRecord) :=
  parsedTenantId ← lift (db_uuid tenantId);
  parsedId ← lift (db_uuid id);
  transaction (on_experiments (
    found ← tx_select (where_experiment parsedTenantId parsedId);
    match found with
    | [] => mret None
    | row :: _ => r ← lift (mapExperiment row); mret (Some r)
    end)).

Definition listRecent (tenantId : string) (limit : option Z) : M Db (list ExperimentRecord) :=
  parsedTenantId ← lift (db_uuid tenantId);
  parsedLimit ← lift (normalizeLimit limit);
  transaction (on_experiments (
    found ← tx_select (fun r => holds (col_eq (ex_tenantId r) parsedTenantId));
    lift (zod_array_map mapExperiment (take (Z.to_nat parsedLimit)
      (sort_by (fun a b => ex_updatedAt b <=? ex_updatedAt a) found))))).

(** [SELECT status, count(star) ... GROUP BY status] *)
Definition getSummary (tenantId : string) : M Db ExperimentStatusSummary :=
  parsedTenantId ← lift (db_uuid tenantId);
  transaction (on_experiments (
    found ← tx_select (fun r => holds (col_eq (ex_tenantId r) parsedTenantId));
    let groups := (fun st =>
      (st, N.of_nat (length (bfilter (fun r => bool_decide (ex_status r = st)) found))))
        <$> remove_dups (ex_status <$> found) in
    mret (fold_left (fun acc '(st, total) =>
      mkExperimentSummary (es_total acc + total)
        (fun st' => if bool_decide (st' = st) then total else es_byStatus acc st'))
      groups emptyExperimentStatusSummary))).

(** [others] is what concurrent transactions commit between the [SELECT] and
    the [UPDATE], here and below. The values written are those of the row
    that was read, whatever has become of it. *)
Definition transition (others : Db -> Db) (env : call_env) (tenantId id : string)
    (fromStatus toStatus : ExperimentStatus) (params : TransitionExperimentParams) :
    M Db (option ExperimentRecord) :=
  parsedTenantId ← lift (db_uuid tenantId);
  parsedId ← lift (db_uuid id);
  parsedParams ← lift (transitionExperimentParamsSchema params);
  lift (assertExperimentTransition fromStatus toStatus);;
  transaction_with others (
    let where_ := fun r => holds (sql_all [col_eq (ex_tenantId r) parsedTenantId;
      col_eq (ex_id r) parsedId; col_eq (ex_status r) fromStatus]) in
    found ← on_experiments (tx_select where_);
    match found with
    | [] => mret None
    | current :: _ =>
        await others;;
        let now := env_now env in
        let isConclusion :=
          bool_decide (toStatus = exp_concluded) || bool_decide (toStatus = exp_abandoned) in
        confidence ← lift (match te_confidence parsedParams with
          | None => mret (ex_confidence current)
          | Some c => numeric_column 5 4 (Some c)
          end);
        updated ← on_experiments (tx_update where_ (fun r =>
          with_lifecycle r toStatus (te_winner parsedParams ?:? ex_winner current) confidence
            (if bool_decide (toStatus = exp_running)
             then Some (ex_startedAt current ?: now) else ex_startedAt current)
            (if isConclusion then Some (te_endedAt parsedParams ?:? ex_endedAt current ?: now)
             else ex_endedAt current) now));
        match updated with
        | [] => mret None
        | row :: _ => r ← lift (mapExperiment row); mret (Some r)
        end
    end).

Definition assign (others : Db -> Db) (env : call_env) (tenantId : string)
    (params : AssignExperimentParams) : M Db AssignExperimentResult :=
  parsedTenantId ← lift (db_uuid tenantId);
  parsed ← (p ← lift (assignExperimentParamsSchema params); lift (assignment_columns p));
  transaction_with others (
    found ← on_experiments (tx_select (where_experiment parsedTenantId (ap_experimentId parsed)));
    match found with
    | [] => throw (JsError "Experiment does not exist for this tenant.")
    | experiment :: _ =>
        if negb (bool_decide (ex_status experiment = exp_draft)) &&
           negb (bool_decide (ex_status experiment = exp_running))
        then throw (JsError "Assignments are only allowed for draft or running experiments.")
        else
          await others;;
          let now := env_now env in
          inserted ← on_assignments (tx_insert same_unit
            (new_assignment (env_uuid env) parsedTenantId parsed now));
          match inserted with
          | row :: _ => a ← lift (mapAssignment row); mret (mkAssignResult a false)
          | [] =>
              found ← on_assignments (tx_select (fun r => holds (sql_all [
                col_eq (as_tenantId r) parsedTenantId;
                col_eq (as_experimentId r) (ap_experimentId parsed);
                col_eq (as_entityType r) (ap_entityType parsed);
                col_eq (as_entityId r) (ap_entityId parsed)])));
              match found with
              | [] => throw (JsError "Experiment assignment returned no row.")
              | existing :: _ => a ← lift (mapAssignment existing); mret (mkAssignResult a true)
              end
          end
    end).

(** The row an observation becomes: its three numeric columns, then the
    checks of the table. *)
Definition observation_row (env : call_env) (tenantId : string)
    (p : RecordExperimentObservationParams) : result ExperimentObservationRecord :=
  let now := env_now env in
  value ← numeric_column 20 6 (Some (ro_metricValue p));
  confidence ← numeric_column 5 4 (Some (ro_attributionConfidence p));
  cost ← numeric_column 20 6 (ro_costAmount p);
  check_row observation_checks
    (mkObs (env_uuid env) tenantId (ro_experimentId p) (ro_assignmentId p) (ro_idempotencyKey p)
       (ro_entityType p) (ro_entityId p) (ro_variant p) (ro_metricName p)
       (value ?: ro_metricValue p) (ro_isGuardrail p ?: false)
       (confidence ?: ro_attributionConfidence p) (ro_attributionModel p) (ro_source p) cost
       (ro_costCurrency p) (ro_observedOutcome p ?: []) (ro_evidence p ?: [])
       (ro_observedAt p ?: now) now).

(** The look-up of the assignment an observation names, if it names one. *)
Definition named_assignment (tenantId : string) (p : RecordExperimentObservationParams) :
    M Db (list ExperimentAssignmentRecord) :=
  if truthy (ro_assignmentId p)
  then on_assignments (tx_select (fun r => holds (sql_all [
    col_eq (as_tenantId r) tenantId; col_eq (as_id r) (ro_assignmentId p ?: "");
    col_eq (as_experimentId r) (ro_experimentId p)])))
  else mret [].

Definition recordObservation (others : Db -> Db) (env : call_env) (tenantId : string)
    (params : RecordExperimentObservationParams) : M Db ExperimentObservationRecord :=
  parsedTenantId ← lift (db_uuid tenantId);
  parsed ← (p ← lift (recordExperimentObservationParamsSchema params); lift (observation_columns p));
  transaction_with others (
    found ← on_experiments (tx_select (where_experiment parsedTenantId (ro_experimentId parsed)));
    match found with
    | [] => throw (JsError "Experiment does not exist for this tenant.")
    | experiment :: _ =>
        if negb (InMemoryExperiments.observable_status (ex_status experiment))
        then throw (JsError "Observations require a running or completed experiment.")
        else
          await others;;
          named ← named_assignment parsedTenantId parsed;
          if truthy (ro_assignmentId parsed) &&
             negb (match named with
                   | a :: _ => bool_decide (as_entityType a = ro_entityType parsed) &&
                               bool_decide (as_entityId a = ro_entityId parsed) &&
                               bool_decide (as_variant a = ro_variant parsed)
                   | [] => false
                   end)
          then throw (JsError "Observation assignment does not match the experiment unit.")
          else
            row ← lift (observation_row env parsedTenantId parsed);
            inserted ← on_observations (tx_insert same_observation row);
            match inserted with
            | row :: _ => lift (mapObservation row)
            | [] =>
                found ← on_observations (tx_select (fun r => holds (sql_all [
                  col_eq (ob_tenantId r) parsedTenantId;
                  col_eq (ob_experimentId r) (ro_experimentId parsed);
                  col_eq (ob_idempotencyKey r) (ro_idempotencyKey parsed)])));
                match found with
                | [] => throw (JsError "Experiment observation returned no row.")
                | existing :: _ => lift (mapObservation existing)
                end
            end
    end).

Definition recordOutcome := recordObservation.

Definition listObservations (tenantId experimentId : string) (metricName : option string)
    (limit : option Z) : M Db (list ExperimentObservationRecord) :=
  parsedTenantId ← lift (db_uuid tenantId);
  parsedExperimentId ← lift (db_uuid experimentId);
  parsedLimit ← lift (normalizeLimit limit);
  transaction (on_observations (
    metric ← lift (zod_optional nonEmptyText metricName);
    found ← tx_select (fun r => holds (sql_all (
      [col_eq (ob_tenantId r) parsedTenantId; col_eq (ob_experimentId r) parsedExperimentId] ++
      match metric with Some m => [col_eq (ob_metricName r) m] | None => [] end)));
    lift (zod_array_map mapObservation (take (Z.to_nat parsedLimit)
      (sort_by (fun a b => ob_observedAt b <=? ob_observedAt a) found))))).

(** [avg(CASE WHEN variant = v THEN metric_value END)] *)
Definition avg_arm (v : ExperimentVariant) (rows : list ExperimentObservationRecord) : option num :=
  sql_avg (ob_metricValue <$> bfilter (is_variant v) rows).

(** The observations of one metric, outcome or guardrail. *)
Definition where_metric (tenantId experimentId metricName : string) (guardrail : bool)
    (r : ExperimentObservationRecord) : bool :=
  holds (sql_all [col_eq (ob_tenantId r) tenantId; col_eq (ob_experimentId r) experimentId;
    col_eq (ob_metricName r) metricName; col_eq (ob_isGuardrail r) guardrail]).

(** The guardrail observations, when a guardrail metric is named. *)
Definition guardrail_rows (tenantId experimentId : string) (metricName : option string) :
    M Db (list ExperimentObservationRecord) :=
  if truthy metricName
  then on_observations (tx_select (where_metric tenantId experimentId (metricName ?: "") true))
  else mret [].

Definition summarizeEvidence (others : Db -> Db) (tenantId experimentId metricName : string)
    (guardrailMetricName : option string) : M Db (option ExperimentEvidenceSummary) :=
  parsedTenantId ← lift (db_uuid tenantId);
  parsedExperimentId ← lift (uuid experimentId);
  parsedMetricName ← lift (nonEmptyText metricName);
  parsedGuardrailMetricName ← lift (zod_optional nonEmptyText guardrailMetricName);
  experimentColumn ← lift (uuid_in parsedExperimentId);
  transaction_with others (
    found ← on_experiments (tx_select (where_experiment parsedTenantId experimentColumn));
    match found with
    | [] => mret None
    | _ :: _ =>
        await others;;
        outcomeRows ← on_observations (tx_select
          (where_metric parsedTenantId experimentColumn parsedMetricName false));
        match avg_arm var_a outcomeRows, avg_arm var_b outcomeRows with
        | Some baselineMetric, Some candidateMetric =>
            guardrailRows ← guardrail_rows parsedTenantId experimentColumn parsedGuardrailMetricName;
            let baselineGuardrailMetric := avg_arm var_a guardrailRows in
            let candidateGuardrailMetric := avg_arm var_b guardrailRows in
            mret (Some (mkEvidence parsedExperimentId parsedMetricName
              (N.of_nat (length outcomeRows))
              (N.of_nat (length (remove_dups
                ((fun r => (ob_entityType r, ob_entityId r)) <$> outcomeRows))))
              baselineMetric candidateMetric
              (sql_avg (ob_attributionConfidence <$> outcomeRows) ?: num_zero)
              baselineGuardrailMetric candidateGuardrailMetric
              (match baselineGuardrailMetric, candidateGuardrailMetric with
               | Some b, Some c => num_max num_zero (num_sub c b)
               | _, _ => num_zero
               end)))
        | _, _ => mret None
        end
    end).
End ops.
End PostgresExperiments.

(** ** Postgres against memory *)

Section refinement.
Context `{Z : Zod} {ZL : ZodLaws Z} {E : SqlEngine} {L : SqlLaws E} {V : SqlValues}.
Import PostgresExperiments.
Notation State := InMemoryExperiments.State.
Notation experimentsById := InMemoryExperiments.experimentsById.
Notation assignmentsById := InMemoryExperiments.assignmentsById.
Notation observationsById := InMemoryExperiments.observationsById.

(** The tables hold the records of the three maps. *)
Record exp_rel (s : State) (db : Db) : Prop := {
  xr_exp : table_rel (experimentsById s) (experiments db);
  xr_asg : table_rel (assignmentsById s) (experiment_assignments db);
  xr_obs : table_rel (observationsById s) (experiment_observations db);
}.

(** What the comparison needs of the repository: its records are valid and
    no assigned unit has a colon in its type, so that the in-memory key of a
    unit determines it. *)
Record plain_inv (s : State) : Prop := {
  pl_exp : exp_inv s;
  pl_asg id a : mapGet id (assignmentsById s) = Some a ->
    experimentAssignmentRecordSchema a = Ok a /\ no_colon (as_entityType a) = true;
  pl_obs id o : mapGet id (observationsById s) = Some o -> experimentObservationRecordSchema o = Ok o;
}.

Lemma plain_inv_init : plain_inv InMemoryExperiments.init.
Proof. split; [apply exp_inv_init|done..]. Qed.

Definition exp_agree {A} (m : M State A) (q : M Db A) (s : State) (db : Db) : Prop :=
  (m s).1 = (q db).1 /\ exp_rel (m s).2 (q db).2 /\ plain_inv (m s).2.

(** *** The keys *)

Lemma experiment_uuids r : experimentRecordSchema r = Ok r -> zod_uuid (ex_tenantId r) = true.
Proof. unfold experimentRecordSchema. intros H. schema_fields H. by apply tenantIdSchema_ok in E1 as [? _]. Qed.

Lemma assignment_uuids a : experimentAssignmentRecordSchema a = Ok a ->
  zod_uuid (as_tenantId a) = true /\ zod_uuid (as_experimentId a) = true.
Proof.
  unfold experimentAssignmentRecordSchema. intros H. schema_fields H.
  apply tenantIdSchema_ok in E1 as [? _]. by apply uuid_ok in E2 as [? _].
Qed.

Lemma observation_uuids o : experimentObservationRecordSchema o = Ok o ->
  zod_uuid (ob_tenantId o) = true /\ zod_uuid (ob_experimentId o) = true.
Proof.
  unfold experimentObservationRecordSchema. intros H. schema_fields H.
  apply tenantIdSchema_ok in E1 as [? _]. by apply uuid_ok in E2 as [? _].
Qed.

Lemma experiment_key_spec a b : zod_uuid (ex_tenantId a) = true -> zod_uuid (ex_tenantId b) = true ->
  same_experiment a b = bool_decide (ex_kf b = ex_kf a).
Proof.
  intros Ha Hb. apply eq_true_iff_eq. unfold same_experiment, ex_kf, InMemoryExperiments.experimentKey.
  rewrite andb_true_iff, !bool_decide_eq_true. split; [by intros [-> ->]|].
  intros H. apply colon_key_inj in H as [-> ->]; [done|by apply zod_uuid_no_colon..].
Qed.

Definition plain_unit (a : ExperimentAssignmentRecord) : Prop :=
  zod_uuid (as_tenantId a) = true /\ zod_uuid (as_experimentId a) = true /\
  no_colon (as_entityType a) = true.

Lemma unit_key_spec a b : plain_unit a -> plain_unit b ->
  same_unit a b = bool_decide (as_kf b = as_kf a).
Proof.
  intros (Ha & Ha' & Ha'') (Hb & Hb' & Hb''). apply eq_true_iff_eq.
  unfold same_unit, as_kf, InMemoryExperiments.assignmentKey.
  rewrite !andb_true_iff, !bool_decide_eq_true. split; [by intros [[[-> ->] ->] ->]|].
  intros H. apply colon_key_inj in H as [-> H]; [|by apply zod_uuid_no_colon..].
  apply colon_key_inj in H as [-> H]; [|by apply zod_uuid_no_colon..].
  by apply colon_key_inj in H as [-> ->].
Qed.

Lemma observation_key_spec a b :
  zod_uuid (ob_tenantId a) = true /\ zod_uuid (ob_experimentId a) = true ->
  zod_uuid (ob_tenantId b) = true /\ zod_uuid (ob_experimentId b) = true ->
  same_observation a b = bool_decide (ob_kf b = ob_kf a).
Proof.
  intros [Ha Ha'] [Hb Hb']. apply eq_true_iff_eq.
  unfold same_observation, ob_kf, InMemoryExperiments.observationKey.
  rewrite !andb_true_iff, !bool_decide_eq_true. split; [by intros [[-> ->] ->]|].
  intros H. apply colon_key_inj in H as [-> H]; [|by apply zod_uuid_no_colon..].
  apply colon_key_inj in H as [-> ->]; [done|by apply zod_uuid_no_colon..].
Qed.

(** *** Stored rows *)

Section stored.
Context (s : State) (Hs : plain_inv s).

Lemma stored_experiment r : r ∈ mapValues (experimentsById s) -> experimentRecordSchema r = Ok r.
Proof.
  intros Hr. apply (keyed_values ex_id) in Hr; [|apply (ei_exp _ (pl_exp _ Hs))].
  by eapply (ei_valid _ (pl_exp _ Hs)).
Qed.

Lemma stored_assignment a : a ∈ mapValues (assignmentsById s) ->
  experimentAssignmentRecordSchema a = Ok a /\ plain_unit a.
Proof.
  intros Ha. apply (keyed_values as_id) in Ha; [|apply (ei_asg _ (pl_exp _ Hs))].
  destruct (pl_asg _ Hs _ _ Ha) as [Hv Hp]. split; [done|].
  destruct (assignment_uuids _ Hv). by split_and!.
Qed.

Lemma stored_observation o : o ∈ mapValues (observationsById s) ->
  experimentObservationRecordSchema o = Ok o.
Proof.
  intros Ho. apply (keyed_values ob_id) in Ho; [|apply (ei_obs _ (pl_exp _ Hs))].
  by eapply (pl_obs _ Hs).
Qed.

(** [SELECT ... WHERE tenant_id = tn AND id = id] *)
Lemma select_experiment db tn id : exp_rel s db ->
  select (where_experiment tn id) (experiments db) =
    match mapGet id (experimentsById s) with
    | Some r => if bool_decide (ex_tenantId r = tn) then [r] else []
    | None => []
    end.
Proof.
  intros Hr. apply (select_keyed ex_id _ _ id _ (fun r => bool_decide (ex_tenantId r = tn))
    (ix_keyed _ _ _ _ (ei_exp _ (pl_exp _ Hs))) (xr_exp _ _ Hr)).
  intros r _. unfold where_experiment. sql_simpl. apply andb_comm.
Qed.
End stored.

(** *** Each operation *)

(** A tenant is parsed alike, when the database prints it as it is written. *)
Lemma db_tenant tn : as_printed tn -> db_uuid tn = tenantIdSchema tn.
Proof. apply db_uuid_printed. Qed.

Lemma get_agree tn id s db : plain_inv s -> exp_rel s db -> as_printed tn -> canonical id ->
  exp_agree (InMemoryExperiments.getById tn id) (getById tn id) s db.
Proof.
  intros Hs Hr Hn Hi. unfold exp_agree, InMemoryExperiments.getById, getById, transaction,
    on_experiments, tx_select. rewrite (db_tenant tn), (db_uuid_canonical id) by done. msimpl.
  destruct (tenantIdSchema tn) as [tn'|] eqn:Ht; [|done]. simpl.
  rewrite (select_experiment s Hs db tn' id Hr). destruct db.
  destruct (mapGet id (experimentsById s)) as [r|] eqn:Hg; [|done].
  case_bool_decide; [|done]. simpl. unfold mapExperiment.
  by rewrite (ei_valid _ (pl_exp _ Hs) _ _ Hg).
Qed.

(** An object that a [jsonb] column gives back as it is. *)
Definition kept (o : jobject) : Prop := jsonb_in o = o.
Definition kept_or_null (o : option jobject) : Prop := kept (o ?: []).

Record kept_experiment (p : CreateExperimentParams) : Prop := {
  ke_size : int4 (ce_minSampleSize p) = true;
  ke_variantA : kept (ce_variantA p);
  ke_variantB : kept (ce_variantB p);
  ke_snapshot : kept_or_null (ce_inputSnapshot p);
}.

Lemma experiment_columns_ok p p' : kept_experiment p -> createExperimentParamsSchema p = Ok p' ->
  experiment_columns p' = p'.
Proof.
  unfold createExperimentParamsSchema. intros [_ H1 H2 H3] H. schema_fields H. subst p'.
  unfold experiment_columns. cbn. unfold kept, kept_or_null, kept in *. by rewrite H1, H2, H3.
Qed.

Lemma create_agree env tn p s db : plain_inv s -> exp_rel s db -> as_printed tn -> kept_experiment p ->
  fresh env s ->
  exp_agree (InMemoryExperiments.create env tn p) (create env tn p) s db.
Proof.
  intros Hs Hr Hn Hk Hf. pose proof (create_steps env tn p s (pl_exp _ Hs) Hf) as [Hinv _].
  pose proof (ke_size _ Hk) as Hsz.
  unfold exp_agree. unfold InMemoryExperiments.create, create in *. rewrite (db_tenant tn) by done. msimpl.
  destruct (tenantIdSchema tn) as [tn'|] eqn:Ht; [|done].
  apply tenantIdSchema_ok in Ht as Htz. destruct Htz as [Htz ->].
  destruct (createExperimentParamsSchema p) as [p'|] eqn:Hp; [|done].
  rewrite (experiment_columns_ok p p') by done. clear Hn.
  unfold transaction, on_experiments, tx_insert, tx_select. destruct db as [te ta to].
  set (new := new_experiment (env_uuid env) tn p' (env_now env)) in *.
  change (InMemoryExperiments.experimentKey tn (ce_experimentKey p')) with (ex_kf new) in *.
  assert (experiment_row new = Ok new) as Hrow.
  { destruct (create_params_size _ _ Hp) as [H1 H2]. unfold experiment_row, check_row, experiment_checks.
    unfold new, new_experiment. simpl. rewrite H2 in *. by rewrite Hsz, (proj2 (BinInt.Z.ltb_lt 0 _) H1). }
  msimpl. rewrite Hrow. msimpl.
  assert (forall v, v ∈ mapValues (experimentsById s) -> same_experiment new v =
    bool_decide (ex_kf v = ex_kf new)) as Hsame.
  { intros v Hv. apply experiment_key_spec; [done|]. by apply experiment_uuids, (stored_experiment s). }
  pose proof (index_conflict ex_id ex_kf _ _ te new same_experiment
    (fun r => holds (sql_all [col_eq (ex_tenantId r) tn; col_eq (ex_experimentKey r) (ce_experimentKey p')]))
    (ei_exp _ (pl_exp _ Hs)) (xr_exp _ _ Hr) Hsame) as Hc.
  destruct (indexed (experimentsById s) _ (ex_kf new)) as [r|]; lapply Hc; clear Hc.
  2,4: intros v Hv; rewrite <- Hsame by done; unfold same_experiment; sql_simpl;
    f_equal; apply bool_decide_ext; naive_solver.
  - intros (Hins & Hsel & Hin). rewrite Hins. simpl. rewrite Hsel. unfold mapExperiment.
    by rewrite (stored_experiment s Hs r Hin).
  - intros [_ Hc]. destruct (Hc (proj1 Hf)) as [Hins Hrel].
    destruct (insert same_experiment new te) as [ins t']. simpl in Hins, Hrel. subst ins. simpl.
    unfold mapExperiment. destruct (experimentRecordSchema new) as [r|x] eqn:Hnew; simpl in *; [|done].
    assert (r = new) as -> by (by eapply new_experiment_same). split; [done|].
    split; [split; [exact Hrel|apply Hr..]|]. split; [exact Hinv|apply Hs..].
Qed.

Definition exact_confidence (p : TransitionExperimentParams) : Prop :=
  forall c, te_confidence p = Some c -> numeric_store 5 4 c = Some c.

Lemma transition_params_confidence p p' : transitionExperimentParamsSchema p = Ok p' ->
  te_confidence p' = te_confidence p.
Proof.
  unfold transitionExperimentParamsSchema. msimpl.
  destruct (zod_optional unit_number (te_confidence p)) as [c|] eqn:Ec; [|done].
  intros [= <-]. by rewrite (same_parse _ _ Ec).
Qed.

Lemma transition_agree env tn id from to p s db : plain_inv s -> exp_rel s db ->
  as_printed tn -> canonical id -> exact_confidence p ->
  exp_agree (InMemoryExperiments.transition env tn id from to p)
    (transition (fun db => db) env tn id from to p) s db.
Proof.
  intros Hs Hr Hn Hi Hx.
  pose proof (transition_steps env tn id from to p s (pl_exp _ Hs)) as [Hinv _].
  unfold exp_agree. unfold InMemoryExperiments.transition, transition in *.
  rewrite (db_tenant tn), (db_uuid_canonical id) by done. msimpl. clear Hn Hi.
  destruct (tenantIdSchema tn) as [tn'|] eqn:Ht; [|done].
  simpl. destruct (transitionExperimentParamsSchema p) as [p'|] eqn:Hp; [|done]. simpl in *.
  destruct (assertExperimentTransition from to); [|done]. simpl in *.
  unfold transaction_with, on_experiments, tx_select, tx_update, await. msimpl.
  destruct db as [te ta tob].
  set (q := fun r : ExperimentRecord => holds _).
  assert (forall x, q x = bool_decide (ex_id x = id) &&
    (bool_decide (ex_tenantId x = tn') && bool_decide (ex_status x = from))) as Hq.
  { intros x. unfold q. sql_simpl. by destruct (bool_decide (ex_id x = id)), (bool_decide (ex_tenantId x = tn')). }
  pose proof (ix_keyed _ _ _ _ (ei_exp _ (pl_exp _ Hs))) as Hkeyed. simpl.
  rewrite (select_keyed ex_id _ te id q _ Hkeyed (xr_exp _ _ Hr) (fun x _ => Hq x)).
  destruct (mapGet id (experimentsById s)) as [r|] eqn:Hg; [|done].
  destruct (bool_decide (ex_tenantId r = tn')) eqn:Htn; [|done].
  destruct (bool_decide (ex_status r = from)) eqn:Hst; [|done]. simpl in *.
  set (f := fun x => with_lifecycle x to (te_winner p' ?:? ex_winner r)
    (te_confidence p' ?:? ex_confidence r)
    (if bool_decide (to = exp_running) then Some (ex_startedAt r ?: env_now env) else ex_startedAt r)
    (if bool_decide (to = exp_concluded) || bool_decide (to = exp_abandoned)
     then Some (te_endedAt p' ?:? ex_endedAt r ?: env_now env) else ex_endedAt r) (env_now env)).
  assert ((match te_confidence p' with
    | Some c => numeric_column 5 4 (Some c) | None => mret (ex_confidence r) end) =
    Ok (te_confidence p' ?:? ex_confidence r)) as Hc.
  { rewrite (transition_params_confidence _ _ Hp). destruct (te_confidence p) as [c|] eqn:Ec; [|done].
    simpl. by rewrite (Hx c Ec). }
  cbv beta iota delta [numeric_column mret result_ret] in Hc. rewrite Hc. simpl. change (with_lifecycle r to _ _ _ _ _) with (f r) in *.
  assert (experimentRecordSchema (f r) = Ok (f r)) as Hv.
  { apply (experimentRecordSchema_update r); [by apply (ei_valid _ (pl_exp _ Hs) id)|done|].
    apply (transition_confidence r p p'); [by apply (ei_valid _ (pl_exp _ Hs) id)|done]. }
  pose proof (cas_refines ex_id _ te id q _ f Hkeyed (xr_exp _ _ Hr) (fun x _ => Hq x)
    (fun _ => eq_refl)) as Hcas. rewrite Hg, Htn, Hst in Hcas. simpl in Hcas.
  change (update q _ te) with (update q f te). destruct (update q f te) as [rs t'].
  simpl in Hcas. destruct Hcas as [-> Hrel]. simpl in *. unfold mapExperiment. rewrite Hv in *. simpl in *.
  split; [done|]. split; [split; [exact Hrel|apply Hr..]|]. split; [exact Hinv|apply Hs..].
Qed.

Record kept_assignment (p : AssignExperimentParams) : Prop := {
  ka_experiment : as_printed (ap_experimentId p);
  ka_type : no_colon (trim (ap_entityType p)) = true;
  ka_context : kept_or_null (ap_assignmentContext p);
}.

Lemma assignment_columns_ok p p' : kept_assignment p -> assignExperimentParamsSchema p = Ok p' ->
  assignment_columns p' = Ok p'.
Proof.
  unfold assignExperimentParamsSchema. intros [H1 _ H3] H. schema_fields H. subst p'.
  unfold assignment_columns. cbn. unfold kept_or_null, kept in *. rewrite H3.
  apply uuid_ok in E0 as [Hz _]. by rewrite (proj2 (H1 Hz)).
Qed.

Lemma assign_agree env tn p s db : plain_inv s -> exp_rel s db -> as_printed tn ->
  kept_assignment p -> fresh env s ->
  exp_agree (InMemoryExperiments.assign (fun s => s) env tn p) (assign (fun db => db) env tn p) s db.
Proof.
  intros Hs Hr Hpr Hk Hf. pose proof (ka_type _ Hk) as Hcol.
  pose proof (assign_steps (fun s => s) env tn p s (pl_exp _ Hs) (pl_exp _ Hs) (reflexivity s) Hf)
    as [Hinv _].
  unfold exp_agree. unfold InMemoryExperiments.assign, InMemoryExperiments.getById, await, assign in *.
  rewrite (db_tenant tn) by done. clear Hpr. msimpl.
  destruct (tenantIdSchema tn) as [tn'|] eqn:Ht; [|done].
  apply tenantIdSchema_ok in Ht as Htz. destruct Htz as [Htz ->].
  destruct (assignExperimentParamsSchema p) as [p'|] eqn:Hp; [|done].
  rewrite (assignment_columns_ok p p') by done. rewrite Ht in *. simpl in *.
  unfold transaction_with, on_experiments, on_assignments, tx_select, tx_insert, await. msimpl.
  destruct db as [te ta tob]. simpl. rewrite (select_experiment s Hs _ tn _ Hr). simpl in *.
  destruct (mapGet (ap_experimentId p') (experimentsById s)) as [ex|]; [|done].
  destruct (bool_decide (ex_tenantId ex = tn)); [|done]. simpl in *.
  destruct (_ && _); [done|]. cbn [experiments experiment_assignments experiment_observations].
  set (new := new_assignment (env_uuid env) tn p' (env_now env)) in *.
  change (InMemoryExperiments.assignmentKey tn (ap_experimentId p') (ap_entityType p') (ap_entityId p'))
    with (as_kf new) in *.
  assert (plain_unit new) as Hnew.
  { destruct (assignParams_fields _ _ Hp) as (He & Hty & _). unfold plain_unit, new, new_assignment. simpl.
    rewrite Hty. split_and!; [done| |done]. rewrite He. unfold assignExperimentParamsSchema in Hp. msimpl.
    destruct (uuid (ap_experimentId p)) eqn:Eu; [|done]. by apply uuid_ok in Eu as [? _]. }
  assert (forall v, v ∈ mapValues (assignmentsById s) -> same_unit new v =
    bool_decide (as_kf v = as_kf new)) as Hsame.
  { intros v Hv. apply unit_key_spec; [done|]. by apply (stored_assignment s). }
  pose proof (index_conflict as_id as_kf _ _ ta new same_unit
    (fun r => holds (sql_all [col_eq (as_tenantId r) tn; col_eq (as_experimentId r) (ap_experimentId p');
       col_eq (as_entityType r) (ap_entityType p'); col_eq (as_entityId r) (ap_entityId p')]))
    (ei_asg _ (pl_exp _ Hs)) (xr_asg _ _ Hr) Hsame) as Hc.
  destruct (indexed (assignmentsById s) _ (as_kf new)) as [r|]; lapply Hc; clear Hc.
  2,4: intros v Hv; rewrite <- Hsame by done; unfold same_unit; sql_simpl;
    rewrite !andb_assoc; repeat f_equal; apply bool_decide_ext; naive_solver.
  - intros (Hins & Hsel & Hin). rewrite Hins. simpl. rewrite Hsel. unfold mapAssignment.
    by rewrite (proj1 (stored_assignment s Hs r Hin)).
  - intros [_ Hc]. destruct (Hc (proj1 (proj2 Hf))) as [Hins Hrel].
    destruct (insert same_unit new ta) as [ins t']. simpl in Hins, Hrel. subst ins. simpl.
    unfold mapAssignment. destruct (experimentAssignmentRecordSchema new) as [r|x] eqn:Hv; simpl in *; [|done].
    assert (r = new) as -> by (by eapply new_assignment_same). split; [done|].
    split; [split; [apply Hr|exact Hrel|apply Hr]|]. split; [exact Hinv| |apply Hs].
    intros id a. simpl. rewrite mapGet_set. case_bool_decide; [|apply Hs].
    intros [= <-]. split; [done|apply Hnew].
Qed.

(** The values of an observation fit their columns as they are, and its
    currency code has three letters after it is capitalised. *)
Record exact_observation (p : RecordExperimentObservationParams) : Prop := {
  xo_value : numeric_store 20 6 (ro_metricValue p) = Some (ro_metricValue p);
  xo_confidence : numeric_store 5 4 (ro_attributionConfidence p) = Some (ro_attributionConfidence p);
  xo_cost c : ro_costAmount p = Some c -> numeric_store 20 6 c = Some c;
  xo_currency c c' : ro_costCurrency p = Some c -> isoCurrencySchema c = Ok c' ->
    String.length c' = 3%nat;
  xo_experiment : as_printed (ro_experimentId p);
  xo_assignment : printed_or_null (ro_assignmentId p);
  xo_outcome : kept_or_null (ro_observedOutcome p);
  xo_evidence : kept_or_null (ro_evidence p);
}.

Lemma observation_columns_ok p p' : exact_observation p ->
  recordExperimentObservationParamsSchema p = Ok p' -> observation_columns p' = Ok p'.
Proof.
  unfold recordExperimentObservationParamsSchema. intros [_ _ _ _ H1 H2 H3 H4] H. schema_fields H.
  subst p'. unfold observation_columns. cbn. unfold kept_or_null, kept in *. rewrite H3, H4.
  apply uuid_ok in E0 as [Hz _]. rewrite (proj2 (H1 Hz)). msimpl.
  by rewrite db_uuid_or_null_printed.
Qed.

Lemma observation_row_exact env tn p p' : recordExperimentObservationParamsSchema p = Ok p' ->
  exact_observation p ->
  observation_row env tn p' = Ok (new_observation (env_uuid env) tn p' (env_now env)).
Proof.
  unfold recordExperimentObservationParamsSchema. intros H [H1 H2 H3 H4 _ _ _ _]. schema_fields H. subst p'.
  unfold observation_row. msimpl. unfold numeric_column, mret, result_ret. rewrite H1, H2.
  assert ((match ro_costAmount p with
    | Some x => match numeric_store 20 6 x with Some y => Ok (Some y) | None => Err out_of_range end
    | None => Ok None end) = Ok (ro_costAmount p)) as ->.
  { destruct (ro_costAmount p) as [c|]; [|done]. by rewrite (H3 c). }
  unfold check_row, observation_checks, in_unit. cbn [ob_attributionConfidence ob_costAmount ob_costCurrency].
  apply refine_ok in E7 as [E7 _].
  assert (match ro_costAmount p with Some c => num_leb num_zero c | None => true end = true) as ->.
  { destruct (ro_costAmount p) as [c|]; [|done]. msimpl. destruct (nonneg_number c) eqn:Ec; [|done].
    by apply refine_ok in Ec as [? _]. }
  assert (match b with Some c => (String.length c =? 3)%nat | None => true end = true) as ->.
  { destruct (ro_costCurrency p) as [c|]; msimpl; [|by injection E11 as <-].
    destruct (isoCurrencySchema c) as [c'|] eqn:Ec; [|done]. injection E11 as <-.
    apply Nat.eqb_eq. by eapply H4. }
  simpl. by rewrite E7.
Qed.

(** The assignment an observation names, selected. *)
Lemma select_assignment s db tn ex a : plain_inv s -> exp_rel s db ->
  select (fun r => holds (sql_all [col_eq (as_tenantId r) tn; col_eq (as_id r) a;
    col_eq (as_experimentId r) ex])) (experiment_assignments db) =
  match mapGet a (assignmentsById s) with
  | Some r => if bool_decide (as_tenantId r = tn) && bool_decide (as_experimentId r = ex)
              then [r] else []
  | None => []
  end.
Proof.
  intros Hs Hr. apply (select_keyed as_id _ _ a _
    (fun r => bool_decide (as_tenantId r = tn) && bool_decide (as_experimentId r = ex))
    (ix_keyed _ _ _ _ (ei_asg _ (pl_exp _ Hs))) (xr_asg _ _ Hr)).
  intros r _. sql_simpl. by destruct (bool_decide (as_tenantId r = tn)), (bool_decide (as_id r = a)).
Qed.

(** The two tests of the named assignment agree. *)
Lemma named_assignment_agree s db tn p : plain_inv s -> exp_rel s db ->
  exists named, named_assignment tn p db = (Ok named, db) /\
  truthy (ro_assignmentId p) && negb (match named with
    | a :: _ => bool_decide (as_entityType a = ro_entityType p) &&
                bool_decide (as_entityId a = ro_entityId p) &&
                bool_decide (as_variant a = ro_variant p)
    | [] => false
    end) =
  truthy (ro_assignmentId p) &&
    negb (match mapGet (ro_assignmentId p ?: "") (assignmentsById s) with
          | Some a => InMemoryExperiments.unit_matches tn p a
          | None => false
          end).
Proof.
  intros Hs Hr. unfold named_assignment, on_assignments, tx_select. destruct (truthy _); [|by eexists].
  msimpl. rewrite (select_assignment s db tn _ _ Hs Hr). destruct db. eexists. split; [done|].
  destruct (mapGet _ _) as [a|]; [|done]. unfold InMemoryExperiments.unit_matches.
  by destruct (bool_decide (as_tenantId a = tn)), (bool_decide (as_experimentId a = ro_experimentId p)).
Qed.

Lemma observe_agree env tn p s db : plain_inv s -> exp_rel s db -> as_printed tn ->
  exact_observation p -> fresh env s ->
  exp_agree (InMemoryExperiments.recordObservation (fun s => s) env tn p)
    (recordObservation (fun db => db) env tn p) s db.
Proof.
  intros Hs Hr Hpr Hx Hf.
  pose proof (observe_steps (fun s => s) env tn p s (pl_exp _ Hs) (pl_exp _ Hs) (reflexivity s) Hf)
    as [Hinv _].
  unfold exp_agree. unfold InMemoryExperiments.recordObservation, InMemoryExperiments.getById, await,
    recordObservation in *. rewrite (db_tenant tn) by done. clear Hpr. msimpl.
  destruct (tenantIdSchema tn) as [tn'|] eqn:Ht; [|done].
  apply tenantIdSchema_ok in Ht as Htz. destruct Htz as [Htz ->].
  destruct (recordExperimentObservationParamsSchema p) as [p'|] eqn:Hp; [|done].
  rewrite (observation_columns_ok p p') by done. rewrite Ht in *. simpl in *.
  unfold transaction_with, on_experiments, on_assignments, on_observations, tx_select, tx_insert, await. msimpl.
  rewrite (select_experiment s Hs _ tn _ Hr). simpl in *.
  destruct (mapGet (ro_experimentId p') (experimentsById s)) as [ex|]; [|done].
  destruct (bool_decide (ex_tenantId ex = tn)); [|done]. simpl in *.
  destruct (negb (InMemoryExperiments.observable_status _)); [by destruct db|].
  rewrite (observation_row_exact _ _ _ _ Hp Hx).
  destruct (named_assignment_agree s db tn p' Hs Hr) as (named & Hnamed & Hn). destruct db as [te ta tob].
  cbn [experiments experiment_assignments experiment_observations]. rewrite Hnamed.
  rewrite Hn. destruct (_ && _); [done|]. clear named Hnamed Hn.
  set (new := new_observation (env_uuid env) tn p' (env_now env)) in *.
  change (InMemoryExperiments.observationKey tn (ro_experimentId p') (ro_idempotencyKey p'))
    with (ob_kf new) in *.
  cbn [experiments experiment_assignments experiment_observations].
  assert (zod_uuid (ob_experimentId new) = true) as Hex.
  { destruct (observeParams_fields _ _ Hp) as (He & _). unfold new, new_observation. simpl. rewrite He.
    unfold recordExperimentObservationParamsSchema in Hp. msimpl.
    destruct (uuid (ro_experimentId p)) eqn:Eu; [|done]. by apply uuid_ok in Eu as [? _]. }
  assert (forall v, v ∈ mapValues (observationsById s) -> same_observation new v =
    bool_decide (ob_kf v = ob_kf new)) as Hsame.
  { intros v Hv. apply observation_key_spec; [done|]. by apply observation_uuids, (stored_observation s). }
  pose proof (index_conflict ob_id ob_kf _ _ tob new same_observation
    (fun r => holds (sql_all [col_eq (ob_tenantId r) tn; col_eq (ob_experimentId r) (ro_experimentId p');
       col_eq (ob_idempotencyKey r) (ro_idempotencyKey p')]))
    (ei_obs _ (pl_exp _ Hs)) (xr_obs _ _ Hr) Hsame) as Hc.
  destruct (indexed (observationsById s) _ (ob_kf new)) as [r|]; lapply Hc; clear Hc.
  2,4: intros v Hv; rewrite <- Hsame by done; unfold same_observation; sql_simpl;
    rewrite !andb_assoc; repeat f_equal; apply bool_decide_ext; naive_solver.
  - intros (Hins & Hsel & Hin). rewrite Hins. simpl. rewrite Hsel. unfold mapObservation.
    by rewrite (stored_observation s Hs r Hin).
  - intros [_ Hc]. destruct (Hc (proj2 (proj2 Hf))) as [Hins Hrel].
    destruct (insert same_observation new tob) as [ins t']. simpl in Hins, Hrel. subst ins. simpl.
    unfold mapObservation. destruct (experimentObservationRecordSchema new) as [r|x] eqn:Hv; simpl in *; [|done].
    assert (r = new) as -> by (by eapply new_observation_same). split; [done|].
    split; [split; [apply Hr|apply Hr|exact Hrel]|]. split; [exact Hinv|apply Hs|].
    intros id o. simpl. rewrite mapGet_set. case_bool_decide; [|apply Hs]. by intros [= <-].
Qed.

(** *** Histories of calls *)

Inductive exp_call :=
  | XCreate (tenantId : string) (p : CreateExperimentParams)
  | XGet (tenantId id : string)
  | XTransition (tenantId id : string) (from to : ExperimentStatus) (p : TransitionExperimentParams)
  | XAssign (tenantId : string) (p : AssignExperimentParams)
  | XObserve (tenantId : string) (p : RecordExperimentObservationParams).

Inductive exp_answer :=
  | GotExperiment (r : ExperimentRecord)
  | GotMaybe (r : option ExperimentRecord)
  | GotAssignment (r : AssignExperimentResult)
  | GotObservation (r : ExperimentObservationRecord).

Definition answering {S A B} (f : A -> B) (m : M S A) : M S B := a ← m; mret (f a).

(** One call that no other interrupts, against each repository. *)
Definition exp_memory (c : exp_call) (env : call_env) : M State exp_answer :=
  match c with
  | XCreate tn p => answering GotExperiment (InMemoryExperiments.create env tn p)
  | XGet tn id => answering GotMaybe (InMemoryExperiments.getById tn id)
  | XTransition tn id from to p =>
      answering GotMaybe (InMemoryExperiments.transition env tn id from to p)
  | XAssign tn p => answering GotAssignment (InMemoryExperiments.assign (fun s => s) env tn p)
  | XObserve tn p => answering GotObservation (InMemoryExperiments.recordObservation (fun s => s) env tn p)
  end.

Definition exp_postgres (c : exp_call) (env : call_env) : M Db exp_answer :=
  match c with
  | XCreate tn p => answering GotExperiment (create env tn p)
  | XGet tn id => answering GotMaybe (getById tn id)
  | XTransition tn id from to p =>
      answering GotMaybe (transition (fun db => db) env tn id from to p)
  | XAssign tn p => answering GotAssignment (assign (fun db => db) env tn p)
  | XObserve tn p => answering GotObservation (recordObservation (fun db => db) env tn p)
  end.

(** What the columns hold as it is. *)
Definition exp_call_ok (c : exp_call) : Prop :=
  match c with
  | XCreate tn p => as_printed tn /\ kept_experiment p
  | XGet tn id => as_printed tn /\ canonical id
  | XTransition tn id _ _ p => as_printed tn /\ canonical id /\ exact_confidence p
  | XAssign tn p => as_printed tn /\ kept_assignment p
  | XObserve tn p => as_printed tn /\ exact_observation p
  end.

Fixpoint exp_calls_ok (cs : list (exp_call * call_env)) (s : State) : Prop :=
  match cs with
  | [] => True
  | (c, env) :: cs' => exp_call_ok c /\ fresh env s /\ exp_calls_ok cs' (exp_memory c env s).2
  end.

Lemma answering_agree {A} (f : A -> exp_answer) m q s db : exp_agree m q s db ->
  exp_agree (answering f m) (answering f q) s db.
Proof.
  unfold exp_agree, answering. msimpl.
  destruct (m s) as [[?|?] ?], (q db) as [[?|?] ?]; simpl; intros (Ha & ? & ?); by simplify_eq.
Qed.

Lemma exp_call_agree c env s db : plain_inv s -> exp_rel s db -> exp_call_ok c -> fresh env s ->
  exp_agree (exp_memory c env) (exp_postgres c env) s db.
Proof.
  intros Hs Hr Hc Hf. destruct c; simpl in Hc |- *; apply answering_agree; destruct Hc as [Hn Hc].
  - by apply create_agree.
  - by apply get_agree.
  - destruct Hc. by apply transition_agree.
  - by apply assign_agree.
  - by apply observe_agree.
Qed.

Lemma exp_history_agree cs s db : plain_inv s -> exp_rel s db -> exp_calls_ok cs s ->
  (history exp_memory cs s).1 = (history exp_postgres cs db).1 /\
  exp_rel (history exp_memory cs s).2 (history exp_postgres cs db).2 /\
  plain_inv (history exp_memory cs s).2.
Proof.
  revert s db. induction cs as [|[c env] cs IH]; intros s db Hs Hr; simpl; [done|].
  intros (Hc & Hf & Hcs). destruct (exp_call_agree c env s db Hs Hr Hc Hf) as (Ha & Hr1 & Hs1).
  destruct (exp_memory c env s) as [a s1], (exp_postgres c env db) as [a' db1]. simpl in *.
  destruct (IH s1 db1 Hs1 Hr1 Hcs) as (H1 & H2 & H3).
  destruct (history exp_memory cs s1), (history exp_postgres cs db1). simpl in *. by subst.
Qed.

(** *** The evidence *)

(** Two keys that tell the same elements apart leave as many of them. *)
Lemma distinct_length {A B C} `{EqDecision B} `{EqDecision C} (f : A -> B) (g : A -> C) (l l' : list A) :
  l ≡ₚ l' -> (forall x y, x ∈ l -> y ∈ l -> f x = f y <-> g x = g y) ->
  length (remove_dups (f <$> l)) = length (remove_dups (g <$> l')).
Proof.
  intros Hp Hfg. transitivity (length (remove_dups (g <$> l))).
  - clear l' Hp. induction l as [|a l IH]; [done|]. csimpl.
    assert (f a ∈ (f <$> l) <-> g a ∈ (g <$> l)) as Hin.
    { rewrite !list_elem_of_fmap. split; intros (y & Hy & Hl); exists y; (split; [|done]);
        apply Hfg; try done; set_solver. }
    specialize (IH ltac:(intros; apply Hfg; set_solver)).
    do 2 case_decide; simpl; first [lia|exfalso; clear -Hin H H0; tauto].
  - apply Permutation_length, NoDup_Permutation; [apply NoDup_remove_dups..|].
    intros x. rewrite !elem_of_remove_dups. by rewrite Hp.
Qed.

(** The observations of one experiment, in memory. *)
Definition observations_of (tn ex : string) (s : State) : list ExperimentObservationRecord :=
  bfilter (fun r => bool_decide (ob_tenantId r = tn) && bool_decide (ob_experimentId r = ex))
    (mapValues (observationsById s)).

Lemma metric_rows s db tn ex m g : exp_rel s db ->
  bfilter (fun r => Bool.eqb (ob_isGuardrail r) g && bool_decide (ob_metricName r = m))
    (observations_of tn ex s) ≡ₚ
  select (where_metric tn ex m g) (experiment_observations db).
Proof.
  intros Hr. rewrite select_rows, (xr_obs _ _ Hr). unfold observations_of, where_metric.
  induction (mapValues (observationsById s)) as [|o l IH]; [done|].
  rewrite !bfilter_cons. sql_simpl.
  destruct (bool_decide (ob_tenantId o = tn)), (bool_decide (ob_experimentId o = ex)); simpl; try done.
  rewrite bfilter_cons. destruct (bool_decide (ob_metricName o = m)); [|by rewrite andb_false_r].
  destruct (ob_isGuardrail o), g; simpl; try done; by f_equiv.
Qed.

(** A mean and an average of one arm are [null] together. *)
Lemma arm_agree v rows rows' : rows ≡ₚ rows' ->
  match mean (ob_metricValue <$> bfilter (is_variant v) rows), avg_arm v rows' with
  | Some _, Some _ | None, None => True
  | _, _ => False
  end.
Proof.
  intros Hp. unfold avg_arm.
  assert (ob_metricValue <$> bfilter (is_variant v) rows ≡ₚ ob_metricValue <$> bfilter (is_variant v) rows')
    as Hv by by rewrite Hp.
  destruct (_ <$> bfilter _ rows) as [|x vs]; [by apply Permutation_nil_l in Hv as <-|].
  by destruct (_ <$> bfilter _ rows'); [apply Permutation_nil_r in Hv|].
Qed.

Lemma guardrail_rows_agree s db tn ex g : exp_rel s db ->
  (forall x, g = Some x -> x ≠ "") ->
  exists rows, guardrail_rows tn ex g db = (Ok rows, db) /\
    (if truthy g then bfilter (fun r => ob_isGuardrail r && bool_decide (Some (ob_metricName r) = g))
       (observations_of tn ex s) else []) ≡ₚ rows.
Proof.
  intros Hr Hg. unfold guardrail_rows, on_observations, tx_select. destruct g as [x|]; [|by eexists].
  rewrite truthy_some. rewrite (proj2 (String.eqb_neq x "")) by auto. msimpl. destruct db. eexists.
  split; [done|]. rewrite <- (metric_rows s _ tn ex x true Hr).
  erewrite bfilter_ext; [reflexivity|]. intros r _. simpl. rewrite (bool_decide_ext (Some (ob_metricName r) = Some x) (ob_metricName r = x)) by naive_solver.
  by destruct (ob_isGuardrail r).
Qed.
End refinement.

(** ** Theorems *)

Section theorems.
Context `{Z : Zod} {ZL : ZodLaws Z} {E : SqlEngine} {L : SqlLaws E} {V : SqlValues}.

(** C39. On every history of creations, look-ups, transitions, assignments and
    observations, one at a time, the Postgres experiments answer as the
    in-memory ones do, errors included, and the three tables end with the
    records of the three maps.  The conditions, each needed: what is written
    fits its column (numbers within the precision of their [numeric] column, a
    sample size of 32 bits, a currency of three letters after capitalising);
    ids are UUIDs written as the database prints them, in lower case (it reads
    a UUID in any case), or no UUIDs at all where both repositories parse
    them; objects have their keys in the order [jsonb] keeps; an assigned
    unit's type, trimmed, holds no colon (with one, two units can share the
    key of the in-memory map); and every generated id is new. *)
Theorem experiments_postgres_refines_memory cs s db : plain_inv s -> exp_rel s db ->
  exp_calls_ok cs s ->
  (history exp_memory cs s).1 = (history exp_postgres cs db).1 /\
  exp_rel (history exp_memory cs s).2 (history exp_postgres cs db).2.
Proof. intros. by destruct (exp_history_agree cs s db) as (? & ? & _). Qed.

(** The evidence the promotion gate weighs has the same shape in both
    repositories: for an experiment whose units have no colon in their types
    both find evidence or both find none, count the same observations and the
    same distinct units, and know the same guardrail arms; only the averages
    are each computed their own way. *)
Theorem evidence_counts_agree s db tn ex metric guardrail : plain_inv s -> exp_rel s db ->
  canonical tn -> canonical ex -> metric ≠ "" -> trim metric = metric ->
  (forall g, guardrail = Some g -> g ≠ "" /\ trim g = g) ->
  (forall id o, mapGet id (InMemoryExperiments.observationsById s) = Some o ->
     no_colon (ob_entityType o) = true) ->
  match (InMemoryExperiments.summarizeEvidence (fun s => s) tn ex metric guardrail s).1,
        (PostgresExperiments.summarizeEvidence (fun db => db) tn ex metric guardrail db).1 with
  | Ok (Some a), Ok (Some b) =>
      ev_evidenceCount a = ev_evidenceCount b /\ ev_uniqueEntities a = ev_uniqueEntities b /\
      (is_Some (ev_baselineGuardrailMetric a) <-> is_Some (ev_baselineGuardrailMetric b)) /\
      (is_Some (ev_candidateGuardrailMetric a) <-> is_Some (ev_candidateGuardrailMetric b))
  | Ok None, Ok None => True
  | _, _ => False
  end.
Proof.
  intros Hs Hr Ht He Hm Htm Hg Hcol.
  unfold InMemoryExperiments.summarizeEvidence, InMemoryExperiments.getById, await,
    PostgresExperiments.summarizeEvidence.
  rewrite (db_uuid_canonical tn) by done. pose proof (proj2 He) as Hcol'.
  apply canonical_uuid in Ht, He.
  rewrite (proj2 (tenantIdSchema_ok tn tn)), (proj2 (uuid_ok ex ex)) by done.
  rewrite (proj2 (nonEmptyText_ok metric metric)) by (split; [by rewrite Htm|done]).
  assert (zod_optional nonEmptyText guardrail = Ok guardrail) as ->.
  { destruct guardrail as [g|]; [|done]. destruct (Hg g eq_refl) as [H1 H2]. msimpl.
    by rewrite (proj2 (nonEmptyText_ok g g)) by (split; [by rewrite H2|done]). }
  msimpl. rewrite (proj2 (tenantIdSchema_ok tn tn)), Hcol' by done. simpl.
  unfold transaction_with, PostgresExperiments.on_experiments, PostgresExperiments.on_observations,
    tx_select. msimpl. rewrite (select_experiment s Hs _ tn ex Hr).
  destruct (mapGet ex _) as [x|]; [|done]. destruct (bool_decide _); [|done]. simpl.
  fold (observations_of tn ex s). unfold summarizeEvidenceRecords.
  set (rows := bfilter (fun r => negb (ob_isGuardrail r) && _) _).
  set (rows' := select (PostgresExperiments.where_metric tn ex metric false) _).
  assert (rows ≡ₚ rows') as Hrows.
  { unfold rows'. rewrite <- (metric_rows s db tn ex metric false Hr).
    apply reflexive_eq, bfilter_ext. intros r _. by destruct (ob_isGuardrail r). }
  destruct (guardrail_rows_agree s _ tn ex guardrail Hr) as (grows & Hgr & Hgp); [naive_solver|].
  set (grows0 := if truthy guardrail then _ else []) in *.
  pose proof (arm_agree var_a _ _ Hrows) as Ha. pose proof (arm_agree var_b _ _ Hrows) as Hb.
  destruct (mean (ob_metricValue <$> bfilter (is_variant var_a) rows)),
    (PostgresExperiments.avg_arm var_a rows'); try done.
  destruct (mean (ob_metricValue <$> bfilter (is_variant var_b) rows)),
    (PostgresExperiments.avg_arm var_b rows'); try done.
  destruct db as [te ta tob]. simpl. rewrite Hgr. simpl. split_and!; [by rewrite Hrows| | |].
  - f_equal. apply distinct_length; [done|]. intros x1 x2 H1 H2.
    assert (forall y, y ∈ rows -> no_colon (ob_entityType y) = true) as Hno.
    { intros y [_ [_ Hy]%elem_of_bfilter]%elem_of_bfilter. apply (keyed_values ob_id) in Hy; [by eapply Hcol|].
      apply (ei_obs _ (pl_exp _ Hs)). }
    split; [|by intros [= -> ->]]. intros H%colon_key_inj; [by destruct H as [-> ->]|auto..].
  - pose proof (arm_agree var_a _ _ Hgp). destruct (mean _), (PostgresExperiments.avg_arm _ _); try done.
  - pose proof (arm_agree var_b _ _ Hgp). destruct (mean _), (PostgresExperiments.avg_arm _ _); try done.
Qed.
End theorems.

(** ** Witnesses *)

Module PgExperimentsExample.
Import ZodExample ExperimentsExample.
Notation table_of R := (table (SqlEngine := ListEngine.list_engine) R).

(** [x * 10^s], rounded half away from zero. *)
Definition scaled (s : Z) (x : num) : option Z :=
  match x with
  | S754_zero _ => Some 0
  | S754_finite sg m e =>
      let n := Z.pos m * 10 ^ s in
      let a := if 0 <=? e then n * 2 ^ e else (2 * n + 2 ^ (- e)) / (2 * 2 ^ (- e)) in
      Some (if sg then - a else a)
  | _ => None
  end.

#[export] Instance sql_values : SqlValues := {|
  numeric_store p s x :=
    match scaled s x with
    | Some n => if Z.abs n <? 10 ^ p then Some (num_lit n (10 ^ s)) else None
    | None => None
    end;
  numeric_avg vs := default num_zero (mean vs);
  out_of_range := JsError "numeric field overflow";
  check_violation := JsError "new row violates check constraint";
|}.

Definition db : PostgresExperiments.Db (E := ListEngine.list_engine) :=
  PostgresExperiments.mkDb (E := ListEngine.list_engine) [] [] [].

Definition id4 : string := "16fd2706-8baf-433b-82eb-8c7fada847da".
Definition id5 : string := "4f9d2c1b-6a3e-4b7f-9c8d-2e1f0a9b8c7d".
Definition at_ (t : Z) (id : string) : call_env :=
  {| env_now := t; env_uuid := id; env_serial := 1 |}.

Definition other_unit : RecordExperimentObservationParams :=
  mkRecordObs id1 None "evt-2" "account" "globex" var_b "reply_rate" (num_lit 3 2) None num_one
    "last_touch" "crm" (Some num_one) (Some " usd ") None None None.

Definition calls : list (exp_call * call_env) :=
  [(XCreate tenant params, env1); (XAssign tenant unit_a, env2); (XAssign tenant unit_a', env3);
   (XObserve tenant (outcome num_one), env3); (XObserve tenant other_unit, at_ 4000 id4);
   (XTransition tenant id1 exp_running exp_concluded
     (mkTransitionExperiment (Some win_b) (Some (num_lit 3 4)) None), at_ 5000 id5);
   (XGet tenant id1, at_ 6000 id5)].

Lemma recorded_calls_ok :
  exp_calls_ok (E := ListEngine.list_engine) calls InMemoryExperiments.init.
Proof.
  repeat match goal with
  | |- exp_calls_ok _ _ => cbn [exp_calls_ok calls]
  | |- _ /\ _ => split
  | |- fresh _ _ => vm_compute; repeat split
  | |- exp_call_ok _ => split
  | |- as_printed _ => intros _; split; reflexivity
  | |- printed_or_null _ => cbn; first [exact I|intros _; split; reflexivity]
  | |- canonical _ => split; reflexivity
  | |- kept_experiment _ => split; vm_compute; reflexivity
  | |- kept_assignment _ => split; [intros _; split; reflexivity|vm_compute; reflexivity..]
  | |- exact_observation _ => split
  | |- exact_confidence _ => intros c [= <-]; vm_compute; reflexivity
  | |- forall c, ro_costAmount _ = _ -> _ => intros c; try discriminate; intros [= <-]; vm_compute; reflexivity
  | |- forall c c', ro_costCurrency _ = _ -> _ => intros c c' [= <-]; vm_compute; by intros [= <-]
  | |- True => exact I
  | |- _ => vm_compute; reflexivity
  end.
Qed.

Lemma init_rel : exp_rel InMemoryExperiments.init db.
Proof. split; vm_compute; constructor. Qed.

(** What is stored after the calls. *)
Definition observed : InMemoryExperiments.State := (history exp_memory calls InMemoryExperiments.init).2.
Definition observed_db : PostgresExperiments.Db (E := ListEngine.list_engine) :=
  (history (exp_postgres (E := ListEngine.list_engine)) calls db).2.

Lemma observed_ok : exp_rel observed observed_db /\ plain_inv observed.
Proof.
  by destruct (exp_history_agree (E := ListEngine.list_engine) (L := ListEngine.list_laws)
    calls InMemoryExperiments.init db plain_inv_init init_rel recorded_calls_ok) as (_ & ? & ?).
Qed.

(** A number below the sixth decimal is lost in the column. *)
Example tiny_value_reads_zero : numeric_store 20 6 (num_lit 1 10000000) = Some num_zero.
Proof. vm_compute. reflexivity. Qed.
End PgExperimentsExample.

Section witnesses.
Import ZodExample ExperimentsExample PgExperimentsExample.

Lemma experiments_postgres_refines_memory_witness :
  (history exp_memory calls InMemoryExperiments.init).1 =
  (history (exp_postgres (E := ListEngine.list_engine)) calls db).1.
Proof.
  refine (proj1 (experiments_postgres_refines_memory (E := ListEngine.list_engine)
    (L := ListEngine.list_laws) calls InMemoryExperiments.init db plain_inv_init init_rel recorded_calls_ok)).
Defined.

Lemma evidence_counts_agree_witness :
  match (InMemoryExperiments.summarizeEvidence (fun s => s) tenant id1 "reply_rate" None observed).1,
        (PostgresExperiments.summarizeEvidence (E := ListEngine.list_engine) (fun db => db) tenant id1
           "reply_rate" None observed_db).1 with
  | Ok (Some a), Ok (Some b) =>
      ev_evidenceCount a = ev_evidenceCount b /\ ev_uniqueEntities a = ev_uniqueEntities b /\
      (is_Some (ev_baselineGuardrailMetric a) <-> is_Some (ev_baselineGuardrailMetric b)) /\
      (is_Some (ev_candidateGuardrailMetric a) <-> is_Some (ev_candidateGuardrailMetric b))
  | Ok None, Ok None => True
  | _, _ => False
  end.
Proof.
  destruct observed_ok as [Hr Hs].
  apply (evidence_counts_agree (E := ListEngine.list_engine) (L := ListEngine.list_laws)
    observed observed_db tenant id1 "reply_rate" None Hs Hr);
    [split; reflexivity|split; reflexivity|discriminate|vm_compute; reflexivity
    |discriminate|].
  intros id o. unfold observed. vm_compute (InMemoryExperiments.observationsById _). simpl.
  repeat (case_bool_decide; [by intros [= <-]|]). done.
Defined.
End witnesses.
