(* ===== verification/Approvals.v ===== *)
(** * Founder approvals of generated artifacts

    [packages/db/src/approval-feedback-repository.ts] (modules
    [InMemoryFeedback] and [PostgresFeedback]) and the approval queue of
    [apps/api/src/routes/approvals.ts]: the list of artifacts that await a
    decision, and the decision, which is kept with a [learning.signal.v1]
    event in the outbox.  The routes are written against the interface
    [FeedbackPort]; its two instances are the two repositories with their
    outboxes.  An edit distance is a number; its decimal text in the
    database reads back as [numeric_store] says. *)

From S2P Require Import Prelude Numbers JsRuntime Zod ZodJson Sql Outbox Http Experiments PgExperiments.

Inductive ApprovalAction := act_approved | act_edited | act_rejected | act_auto_approved.

#[export] Instance ApprovalAction_eq_dec : EqDecision ApprovalAction.
Proof. solve_decision. Defined.

Definition ApprovalAction_str (a : ApprovalAction) : string :=
  match a with
  | act_approved => "approved"
  | act_edited => "edited_then_approved"
  | act_rejected => "rejected"
  | act_auto_approved => "auto_approved"
  end.

Record ApprovalFeedback := mkFeedback {
  af_id : string;
  af_tenantId : string;
  af_issueId : string;
  af_outputType : string;
  af_action : ApprovalAction;
  af_editDistance : option num;
  af_rubricFailures : list string;
  af_reviewerNote : option string;
  af_learnOptIn : bool;
  af_createdAt : Z;
}.

Record RecordApprovalParams := mkApprovalParams {
  ra_tenantId : string;
  ra_issueId : string;
  ra_outputType : string;
  ra_action : ApprovalAction;
  ra_editDistance : option num;
  ra_reviewerNote : option string;
  ra_learnOptIn : bool;
}.

Definition recordApprovalParamsSchema `{Zod} (p : RecordApprovalParams) : result RecordApprovalParams :=
  tn ← tenantIdSchema (ra_tenantId p);
  issue ← uuid (ra_issueId p);
  ty ← min1_text (ra_outputType p);
  edit ← zod_optional unit_number (ra_editDistance p);
  mret (mkApprovalParams tn issue ty (ra_action p) edit (ra_reviewerNote p) (ra_learnOptIn p)).

Definition learningSignalType : string := "learning.signal.v1".
Definition signalKey (f : ApprovalFeedback) : string := "approval-feedback:" +:+ af_id f.

Definition learningSignalPayload (f : ApprovalFeedback) : jobject :=
  [("tenantId", JStr (af_tenantId f)); ("learningId", JStr (af_id f)); ("dedupeKey", JStr (signalKey f));
   ("source", JStr "founder_approval"); ("issueId", JStr (af_issueId f));
   ("outputType", JStr (af_outputType f)); ("action", JStr (ApprovalAction_str (af_action f)));
   ("editDistance", match af_editDistance f with Some d => JNum d | None => JNull end);
   ("rubricFailures", JArr (JStr <$> af_rubricFailures f))] ++
  spread_truthy "reviewerNote" (af_reviewerNote f) ++ [("learnOptIn", JBool (af_learnOptIn f))].

(** The event both implementations write. *)
Definition signalCommand (f : ApprovalFeedback) : EnqueueOutboxEvent :=
  mkEnqueue (af_tenantId f) learningSignalType (signalKey f) (learningSignalPayload f).

(** Whether a row is the tenant's, and of the type asked for, if any. *)
Definition listed (tenantId : string) (outputType : option string) (f : ApprovalFeedback) : bool :=
  bool_decide (af_tenantId f = tenantId) &&
  match outputType with Some ty => bool_decide (af_outputType f = ty) | None => true end.

Definition newest (a b : ApprovalFeedback) : bool := af_createdAt b <=? af_createdAt a.

Module InMemoryFeedback.
Record State := mkState { feedback : list ApprovalFeedback; nextId : N }.
Definition init : State := mkState [] 1.

(** [String(n).padStart(12, "0")] *)
Fixpoint zeros (n : nat) : string := match n with O => "" | S n' => "0" +:+ zeros n' end.
Definition feedbackId (n : N) : string :=
  "00000000-0000-4000-8000-" +:+ zeros (12 - String.length (string_of_N n)) +:+ string_of_N n.

Section ops.
Context `{Zod}.

Definition record (env : call_env) (params : RecordApprovalParams) : M State ApprovalFeedback :=
  p ← lift (recordApprovalParamsSchema params);
  n ← gets nextId;
  let row := mkFeedback (feedbackId n) (ra_tenantId p) (ra_issueId p) (ra_outputType p) (ra_action p)
    (ra_editDistance p) [] (ra_reviewerNote p) (ra_learnOptIn p) (env_now env) in
  modify (fun s => mkState (feedback s ++ [row]) (n + 1));;
  mret row.

Definition listRecent (tenantId : string) (limit : Z) (outputType : option string) :
    M State (list ApprovalFeedback) :=
  tn ← lift (tenantIdSchema tenantId);
  gets (fun s => slice0 limit (sort_by newest (bfilter (listed tn outputType) (feedback s)))).
End ops.
End InMemoryFeedback.

Module PostgresFeedback.
Section ops.
Context `{Zod} {E : SqlEngine} `{SqlValues}.

Record Db := mkDb { approval_feedback : table ApprovalFeedback; event_outbox : table OutboxRow }.

(** The parameters of an insert, as their columns keep them. *)
Definition feedback_columns (p : RecordApprovalParams) : result RecordApprovalParams :=
  tenantId ← uuid_in (ra_tenantId p);
  issueId ← uuid_in (ra_issueId p);
  edit ← numeric_column 6 4 (ra_editDistance p);
  mret (mkApprovalParams tenantId issueId (ra_outputType p) (ra_action p) edit (ra_reviewerNote p)
    (ra_learnOptIn p)).

(** The row of an insert: its id and its time come from the database. *)
Definition inserted (env : call_env) (p : RecordApprovalParams) : ApprovalFeedback :=
  mkFeedback (env_uuid env) (ra_tenantId p) (ra_issueId p) (ra_outputType p) (ra_action p)
    (ra_editDistance p) [] (ra_reviewerNote p) (ra_learnOptIn p) (env_now env).

Definition insert_feedback (row : ApprovalFeedback) : M Db ApprovalFeedback := fun db =>
  let '(rs, t) := insert (fun _ _ => false) row (approval_feedback db) in
  (match rs with r :: _ => Ok r | [] => Err (JsError "Failed to insert approval_feedback row") end,
   mkDb t (event_outbox db)).

(** [INSERT INTO event_outbox ... ON CONFLICT DO NOTHING] *)
Definition insert_signal (env : call_env) (f : ApprovalFeedback) : M Db unit := fun db =>
  let c := signalCommand f in
  let '(_, t) := insert PostgresOutbox.same_event
    (mkOutboxRow (env_serial env) (oc_tenantId c) (oc_eventType c) (oc_idempotencyKey c) (oc_payload c)
       (env_now env) None) (event_outbox db) in
  (Ok tt, mkDb (approval_feedback db) t).

Definition record (env : call_env) (params : RecordApprovalParams) : M Db ApprovalFeedback :=
  p ← lift (recordApprovalParamsSchema params);
  columns ← lift (feedback_columns p);
  transaction (insert_feedback (inserted env columns)).

Definition recordAndEnqueueLearningSignal (env : call_env) (params : RecordApprovalParams) :
    M Db ApprovalFeedback :=
  p ← lift (recordApprovalParamsSchema params);
  columns ← lift (feedback_columns p);
  transaction (
    result ← insert_feedback (inserted env columns);
    insert_signal env result;;
    mret result).

Definition listRecent (tenantId : string) (limit : Z) (outputType : option string) :
    M Db (list ApprovalFeedback) :=
  tn ← lift (db_uuid tenantId);
  gets (fun db => take (Z.to_nat limit) (sort_by newest (select (fun r =>
    holds (sql_all (col_eq (af_tenantId r) tn ::
      match outputType with Some ty => [col_eq (af_outputType r) ty] | None => [] end)))
    (approval_feedback db)))).
End ops.
End PostgresFeedback.

(** ** What the routes ask of a repository and its outbox *)

(** [fp_atomic] is [recordAndEnqueueLearningSignal], where there is one. *)
Class FeedbackPort (W : Type) := {
  fp_record : call_env -> RecordApprovalParams -> M W ApprovalFeedback;
  fp_atomic : option (call_env -> RecordApprovalParams -> M W ApprovalFeedback);
  fp_listRecent : string -> Z -> option string -> M W (list ApprovalFeedback);
  fp_enqueue : call_env -> EnqueueOutboxEvent -> M W StoredOutboxEvent;
  fp_listByEventType : string -> string -> num -> M W (list StoredOutboxEvent);
}.

(** The integer part of a number; of infinity, zero. *)
Definition num_trunc (x : num) : Z :=
  match x with
  | S754_finite sx m e =>
      let a := if 0 <=? e then Z.pos m * 2 ^ e else Z.pos m / 2 ^ (- e) in
      if sx then - a else a
  | _ => 0
  end.

(** The in-memory repository beside an in-memory outbox; a limit that is not
    an integer is truncated by [slice], but refused by the database. *)
Record MemoryWorld := mkMemory { mw_feedback : InMemoryFeedback.State; mw_outbox : InMemoryOutbox.State }.
Definition on_feedback {A} (m : M InMemoryFeedback.State A) : M MemoryWorld A := fun w =>
  let '(r, s) := m (mw_feedback w) in (r, mkMemory s (mw_outbox w)).
Definition on_memory_outbox {A} (m : M InMemoryOutbox.State A) : M MemoryWorld A := fun w =>
  let '(r, s) := m (mw_outbox w) in (r, mkMemory (mw_feedback w) s).

#[export] Instance memory_feedback `{Zod} : FeedbackPort MemoryWorld := {|
  fp_record env p := on_feedback (InMemoryFeedback.record env p);
  fp_atomic := None;
  fp_listRecent tn n ty := on_feedback (InMemoryFeedback.listRecent tn n ty);
  fp_enqueue env c := on_memory_outbox (InMemoryOutbox.enqueue env c);
  fp_listByEventType tn ty n := on_memory_outbox (InMemoryOutbox.listByEventType tn ty (num_trunc n));
|}.

Definition on_event_outbox {E : SqlEngine} {A} (m : M (table OutboxRow) A) : M PostgresFeedback.Db A :=
  fun db => let '(r, t) := m (PostgresFeedback.event_outbox db) in
    (r, PostgresFeedback.mkDb (PostgresFeedback.approval_feedback db) t).

#[export] Instance postgres_feedback `{Zod} {E : SqlEngine} `{SqlValues} :
  FeedbackPort PostgresFeedback.Db := {|
  fp_record := PostgresFeedback.record;
  fp_atomic := Some PostgresFeedback.recordAndEnqueueLearningSignal;
  fp_listRecent := PostgresFeedback.listRecent;
  fp_enqueue env c := on_event_outbox (PostgresOutbox.enqueue env c);
  fp_listByEventType tn ty n := on_event_outbox (
    match num_to_Z n with
    | Some n => PostgresOutbox.listByEventType tn ty n
    | None => throw (JsError "invalid input syntax for type bigint")
    end);
|}.

(** ** The routes *)

(** [ApprovalRouteDependencies]: whether each repository is there. *)
Record ApprovalRouteDependencies := mkApprovalDeps { ad_outbox : bool; ad_feedback : bool }.

Definition issueIdKeys : list string :=
  ["issueId"; "issue_id"; "draft_id"; "draftId"; "brief_id"; "briefId"; "content_id"; "contentId"].

(** The first of the keys that holds a text that is not empty. *)
Fixpoint first_text (keys : list string) (payload : jobject) : option string :=
  match keys with
  | [] => None
  | k :: keys' =>
      match mapGet k payload with
      | Some (JStr (String _ _ as value)) => Some value
      | _ => first_text keys' payload
      end
  end.
Definition extractIssueId (payload : jobject) : option string := first_text issueIdKeys payload.

(** [approvalDecisionSchema]; a founder cannot auto-approve. *)
Record ApprovalDecision := mkDecision {
  dc_issueId : string;
  dc_outputType : string;
  dc_action : ApprovalAction;
  dc_editDistance : option num;
  dc_reviewerNote : option string;
  dc_learnOptIn : option bool;
}.

Definition approvalDecisionSchema `{Zod} (raw : json) : result ApprovalDecision :=
  match raw with
  | JObj fs =>
      issue ← string_field uuid (mapGet "issueId" fs);
      ty ← string_field (bounded_text 1 100) (mapGet "outputType" fs);
      action ← enum_field [act_approved; act_edited; act_rejected] ApprovalAction_str (mapGet "action" fs);
      edit ← optional_field (number_field unit_number) (mapGet "editDistance" fs);
      note ← optional_field (string_field (bounded_text 0 1000)) (mapGet "reviewerNote" fs);
      learn ← optional_field boolean_field (mapGet "learnOptIn" fs);
      mret (mkDecision issue ty action edit note learn)
  | _ => Err ZodError
  end.

(** [Math.min(Math.max(1, Number.isNaN(limitRaw) ? 20 : limitRaw), 100)] *)
Definition queueLimit (query : option string) : num :=
  let limitRaw := number_of_text (query ?: "20") in
  num_min (num_max num_one (if is_nan limitRaw then num_of_Z 20 else limitRaw)) (num_of_Z 100).

Definition queueItem (e : StoredOutboxEvent) : json :=
  JObj [("eventId", JStr (oe_id e)); ("tenantId", JStr (oe_tenantId e)); ("outputType", JStr (oe_eventType e));
        ("payload", JObj (oe_payload e)); ("enqueuedAt", json_date (oe_createdAt e));
        ("status", JStr "pending")].

(** The events that await a decision, among those read. *)
Definition pendingEvents (decisions : list ApprovalFeedback) (events : list StoredOutboxEvent) :
    list StoredOutboxEvent :=
  bfilter (fun e => match extractIssueId (oe_payload e) with
    | None => true
    | Some issueId => negb (bool_decide (issueId ∈ af_issueId <$> decisions))
    end) events.

Definition recordParams (tenantId : string) (d : ApprovalDecision) : RecordApprovalParams :=
  mkApprovalParams tenantId (dc_issueId d) (dc_outputType d) (dc_action d) (dc_editDistance d)
    (dc_reviewerNote d) (dc_learnOptIn d ?: true).

Definition decisionAnswer (f : ApprovalFeedback) : Response :=
  mkResponse 202 [("accepted", JBool true); ("feedbackId", JStr (af_id f)); ("issueId", JStr (af_issueId f));
    ("action", JStr (ApprovalAction_str (af_action f))); ("tenantId", JStr (af_tenantId f));
    ("decidedAt", json_date (af_createdAt f))].

Section routes.
Context `{Zod} {W : Type} `{!FeedbackPort W} (deps : ApprovalRouteDependencies).

Definition noOutbox : js_error :=
  ServiceUnavailableError "Outbox repository is not configured. Set DATABASE_URL.".

(** [GET /v1/approvals]: the calls to the outbox and to the decisions *)
Definition getApprovals (events_call decisions_call : db_call) (tenant outputType limit : option string) :
    M W Response :=
  if negb (ad_outbox deps) then throw noOutbox
  else
    match tenant with
    | Some (String _ _ as tenantId) =>
        let outputType := outputType ?: "blog_draft.v1" in
        let limit := queueLimit limit in
        events ← faulty events_call.2
          (fp_listByEventType tenantId outputType (num_mul limit (num_of_Z 2)));
        decisions ← (if ad_feedback deps
                     then faulty decisions_call.2 (fp_listRecent tenantId 1000 (Some outputType))
                     else mret []);
        let items := slice0 (num_trunc limit) (pendingEvents decisions events) in
        mret (mkResponse 200 [("items", JArr (queueItem <$> items)); ("total", jint (Z.of_nat (length items)))])
    | _ => mret (refusal 400 "X-Tenant-Id header is required")
    end.

(** [POST /v1/approvals/decide]: the calls that record and that enqueue *)
Definition postDecide (record_call enqueue_call : db_call) (tenant : option string) (body : result json) :
    M W Response :=
  if negb (ad_feedback deps) then
    throw (ServiceUnavailableError "Approval feedback repository is not configured. Set DATABASE_URL.")
  else
    match tenant with
    | Some (String _ _ as tenantId) =>
        raw ← lift body;
        decision ← lift (approvalDecisionSchema raw);
        if negb (ad_outbox deps) then throw noOutbox
        else
          let params := recordParams tenantId decision in
          match fp_atomic with
          | Some recordAndEnqueue =>
              feedback ← faulty record_call.2 (recordAndEnqueue record_call.1 params);
              mret (decisionAnswer feedback)
          | None =>
              feedback ← faulty record_call.2 (fp_record record_call.1 params);
              faulty enqueue_call.2 (fp_enqueue enqueue_call.1 (mkEnqueue tenantId learningSignalType
                (signalKey feedback) (learningSignalPayload feedback)));;
              mret (decisionAnswer feedback)
          end
    | _ => mret (refusal 400 "X-Tenant-Id header is required")
    end.
End routes.

(** ** The decision and its signal *)

Section decisions.
Context `{Z : Zod} {ZL : ZodLaws Z} {E : SqlEngine} {L : SqlLaws E} `{V : SqlValues}.
Import PostgresFeedback.
Implicit Types (db : Db) (f : ApprovalFeedback).

Definition signal_key f : outbox_key := (af_tenantId f, learningSignalType, signalKey f).

(** Every decision has its signal. *)
Definition signalled db : Prop :=
  forall f, f ∈ rows (approval_feedback db) -> exists r, r ∈ rows (event_outbox db) /\ row_key r = signal_key f.

(** What the decision [f] does: its row is new, its signal is there, nothing
    else changes.  The signal tells of [f] unless its key was taken. *)
Record decision_effect f db db' : Prop := {
  de_rows : rows (approval_feedback db') ≡ₚ f :: rows (approval_feedback db);
  de_kept r : r ∈ rows (event_outbox db) -> r ∈ rows (event_outbox db');
  de_only r : r ∈ rows (event_outbox db') -> r ∈ rows (event_outbox db) \/ row_key r = signal_key f;
  de_signal : exists r, r ∈ rows (event_outbox db') /\ row_key r = signal_key f;
  de_payload r : signal_key f ∉ row_key <$> rows (event_outbox db) ->
    r ∈ rows (event_outbox db') -> row_key r = signal_key f -> or_payload r = learningSignalPayload f;
}.

Lemma effect_signalled f db db' : decision_effect f db db' -> signalled db -> signalled db'.
Proof.
  intros [H1 H2 _ H4 _] Hs g Hg. rewrite H1 in Hg. apply elem_of_cons in Hg as [->|Hg]; [done|].
  destruct (Hs g Hg) as (r & Hr & Hk). exists r. auto.
Qed.

Lemma insert_feedback_eq f db : exists t, insert_feedback f db = (Ok f, mkDb t (event_outbox db)) /\
  rows t ≡ₚ f :: rows (approval_feedback db).
Proof.
  unfold insert_feedback.
  destruct (insert_fresh (fun _ _ => false) f (approval_feedback db)) as [H1 H2].
  { by induction (rows (approval_feedback db)). }
  destruct (insert _ f _) as [rs t]. simpl in *. subst rs. eauto.
Qed.

Lemma insert_signal_effect env f db t : rows t ≡ₚ f :: rows (approval_feedback db) ->
  exists db', insert_signal env f (mkDb t (event_outbox db)) = (Ok tt, db') /\ decision_effect f db db'.
Proof.
  intros Ht. unfold insert_signal. simpl. set (row := mkOutboxRow _ _ _ _ _ _ _).
  assert (row_key row = signal_key f) as Hrow by done.
  destruct (existsb (PostgresOutbox.same_event row) (rows (event_outbox db))) eqn:Hx.
  - rewrite (insert_conflict _ _ _ Hx). eexists. split; [done|]. apply existsb_elem in Hx as (r & Hr & Hk).
    rewrite same_event_key in Hk. apply bool_decide_eq_true in Hk.
    split; simpl; [done|done|by left|exists r; split; [done|congruence]|].
    intros r' Hn. destruct Hn. rewrite <- Hrow, Hk. by apply list_elem_of_fmap_2.
  - destruct (insert_fresh _ _ _ Hx) as [_ H2].
    destruct (insert PostgresOutbox.same_event row (event_outbox db)) as [rs t']. simpl in H2.
    eexists. split; [done|]. split; simpl.
    + done.
    + intros r Hr. rewrite H2. by right.
    + intros r. rewrite H2. intros [->|Hr]%elem_of_cons; [by right|by left].
    + exists row. rewrite H2. split; [by left|done].
    + intros r Hn. rewrite H2. intros [->|Hr]%elem_of_cons Hk; [done|]. destruct Hn. rewrite <- Hk.
      by apply list_elem_of_fmap_2.
Qed.

Lemma params_same p p' : recordApprovalParamsSchema p = Ok p' -> p' = p.
Proof.
  unfold recordApprovalParamsSchema. intros H. schema_fields H. subst p'. by destruct p.
Qed.

(** [recordAndEnqueueLearningSignal] writes both or nothing. *)
Lemma record_atomic env p db : match recordAndEnqueueLearningSignal env p db with
  | (Ok f, db') => exists columns, feedback_columns p = Ok columns /\ f = inserted env columns /\
      zod_uuid (ra_tenantId p) = true /\ decision_effect f db db'
  | (Err _, db') => db' = db
  end.
Proof.
  unfold recordAndEnqueueLearningSignal. msimpl.
  destruct (recordApprovalParamsSchema p) as [p'|] eqn:Hp; [|done].
  assert (zod_uuid (ra_tenantId p) = true) as Hz.
  { unfold recordApprovalParamsSchema in Hp. schema_fields Hp.
    match goal with H : tenantIdSchema _ = _ |- _ => by apply tenantIdSchema_ok in H as [? _] end. }
  apply params_same in Hp as ->. destruct (feedback_columns p) as [columns|]; [|done].
  unfold transaction. set (f := inserted env columns).
  destruct (insert_feedback_eq f db) as (t & -> & Ht).
  destruct (insert_signal_effect env f db t Ht) as (db' & -> & He). by exists columns.
Qed.
End decisions.

(** ** The queue *)

(** The decisions of a tenant and a type made since [f], itself included. *)
Definition decided_since (tn : string) (ty : option string) (f : ApprovalFeedback)
    (decisions : list ApprovalFeedback) : list ApprovalFeedback :=
  bfilter (fun g => listed tn ty g && newest g f) decisions.

(** What the queue relies on: the decisions it reads are the most recent ones
    of the tenant and the type, the events it reads are the tenant's events of
    the type, and reading changes nothing.  [fl_tenant] is the tenant a text
    names, as the rows keep it. *)
Class FeedbackLaws (W : Type) (P : FeedbackPort W) := {
  fl_tenant : string -> result string;
  fl_decisions : W -> list ApprovalFeedback;
  fl_events : W -> StoredOutboxEvent -> Prop;
  fl_decisions_read tn n ty w : (fp_listRecent tn n ty w).2 = w;
  fl_decisions_latest tn t n ty w l w' f : fp_listRecent tn n ty w = (Ok l, w') -> fl_tenant tn = Ok t ->
    f ∈ fl_decisions w -> listed t ty f = true ->
    Z.of_nat (length (decided_since t ty f (fl_decisions w))) <= n -> f ∈ l;
  fl_events_read tn ty n w : (fp_listByEventType tn ty n w).2 = w;
  fl_events_own tn ty n w l w' : fp_listByEventType tn ty n w = (Ok l, w') ->
    exists t, fl_tenant tn = Ok t /\
      forall e, e ∈ l -> fl_events w e /\ oe_tenantId e = t /\ oe_eventType e = ty;
}.

(** An element of a sorted list is among the first as soon as few are as new. *)
Lemma newest_first (l : list ApprovalFeedback) f n : f ∈ l ->
  (length (bfilter (fun g => newest g f) l) <= n)%nat -> f ∈ take n (sort_by newest l).
Proof.
  intros Hf Hn. pose proof (sort_by_sorted newest
    ltac:(unfold newest; intros a b; rewrite !Z.leb_le; lia)
    ltac:(unfold newest; intros a b c; rewrite !Z.leb_le; lia) l) as Hs.
  pose proof (sort_by_perm newest l) as Hp. rewrite <- Hp in Hf.
  assert (bfilter (fun g => newest g f) l ≡ₚ bfilter (fun g => newest g f) (sort_by newest l)) as Hb
    by (by rewrite Hp).
  rewrite Hb in Hn. clear Hb Hp. apply list_elem_of_split in Hf as (l1 & l2 & Hl). rewrite Hl in *.
  assert (bfilter (fun g => newest g f) (l1 ++ [f]) = l1 ++ [f]) as Hall.
  { rewrite <- (bfilter_true (l1 ++ [f])) at 2. apply bfilter_ext. intros g Hg.
    apply elem_of_app in Hg as [Hg|Hg]; [|apply list_elem_of_singleton in Hg as ->; by apply Z.leb_le].
    clear -Hs Hg. induction l1 as [|h l1 IH]; [by apply not_elem_of_nil in Hg|].
    simpl in Hs. apply StronglySorted_inv in Hs as [Hs Hh]. apply elem_of_cons in Hg as [->|Hg]; [|auto].
    rewrite Forall_forall in Hh. apply Is_true_eq_true, Hh. set_solver. }
  replace (l1 ++ f :: l2) with ((l1 ++ [f]) ++ l2) in * by (by rewrite <- app_assoc).
  rewrite bfilter_app, Hall, length_app in Hn. rewrite take_app_ge by lia. set_solver.
Qed.

Section memory_laws.
Context `{Z : Zod} {ZL : ZodLaws Z}.

#[export] Instance memory_feedback_laws : FeedbackLaws MemoryWorld memory_feedback.
Proof.
  refine {| fl_tenant tn := Ok tn; fl_decisions w := InMemoryFeedback.feedback (mw_feedback w);
            fl_events w e := e ∈ mapValues (InMemoryOutbox.eventsById (mw_outbox w)) |}.
  - intros tn n ty [s o]. simpl. unfold on_feedback, InMemoryFeedback.listRecent. msimpl. simpl.
    by destruct (tenantIdSchema tn).
  - intros tn t n ty [s o] l w' f. simpl. unfold on_feedback, InMemoryFeedback.listRecent. msimpl. simpl.
    destruct (tenantIdSchema tn) as [t'|] eqn:Ht; [|done]. pose proof (same_parse _ _ Ht) as ->.
    intros [= <- _] [= <-] Hf Hl Hg. unfold slice0. destruct (Z.ltb_spec n 0); [lia|].
    apply newest_first; [by apply elem_of_bfilter|]. rewrite bfilter_bfilter. unfold decided_since in Hg. lia.
  - intros tn ty n [s o]. done.
  - intros tn ty n [s o] l w'. simpl. unfold on_memory_outbox, InMemoryOutbox.listByEventType, gets. simpl.
    intros [= <- _]. exists tn. split; [done|]. intros e He%slice0_subseteq. apply elem_of_sort_by, elem_of_bfilter in He as [Hk He].
    apply andb_true_iff in Hk as [?%bool_decide_eq_true ?%bool_decide_eq_true]. done.
Defined.
End memory_laws.

Lemma zod_array_map_elem {A B} (p : A -> result B) l l' b :
  zod_array_map p l = Ok l' -> b ∈ l' -> exists a, a ∈ l /\ p a = Ok b.
Proof.
  revert l'. induction l as [|a l IH]; intros l'; msimpl; [by intros [= <-] ?%not_elem_of_nil|].
  destruct (p a) as [x|] eqn:Ha; [|done]. destruct (zod_array_map p l) as [l2|]; [|done].
  intros [= <-] [->|Hb]%elem_of_cons; [exists a; split; [by left|done]|].
  destruct (IH l2 eq_refl Hb) as (a' & ? & ?). exists a'. split; [by right|done].
Qed.

Section postgres_laws.
Context `{Z : Zod} {ZL : ZodLaws Z} {E : SqlEngine} {L : SqlLaws E} `{V : SqlValues}.
Import PostgresFeedback.

Lemma where_listed tn ty f : holds (sql_all (col_eq (af_tenantId f) tn ::
    match ty with Some ty => [col_eq (af_outputType f) ty] | None => [] end)) = listed tn ty f.
Proof. unfold listed. destruct ty; sql_simpl; by rewrite ?andb_true_r. Qed.

#[export] Instance postgres_feedback_laws : FeedbackLaws Db postgres_feedback.
Proof.
  refine {| fl_tenant := db_uuid; fl_decisions db := rows (approval_feedback db);
            fl_events db e := exists r, r ∈ rows (event_outbox db) /\ PostgresOutbox.mapRow r = Ok e |}.
  - intros tn n ty db. simpl. unfold listRecent. msimpl. by destruct (db_uuid tn).
  - intros tn t n ty db l w' f. simpl. unfold listRecent. msimpl.
    destruct (db_uuid tn) as [t'|] eqn:Ht; [|done].
    intros [= <- _] [= ->] Hf Hl Hg. match goal with |- context [select ?p ?t] => pose proof (select_rows p t) as Hs end.
    apply newest_first.
    + rewrite Hs. apply elem_of_bfilter. by rewrite where_listed.
    + rewrite Hs, bfilter_bfilter.
      erewrite bfilter_ext; [|intros g _; by rewrite where_listed]. unfold decided_since in Hg. lia.
  - intros tn ty n [t1 t2]. simpl. unfold on_event_outbox. simpl. destruct (num_to_Z n) as [k|]; [|done].
    unfold PostgresOutbox.listByEventType, transaction, tx_select, gets. msimpl.
    destruct (db_uuid tn); [|done]. by destruct (zod_array_map _ _).
  - intros tn ty n [t1 t2] l w'. simpl. unfold on_event_outbox. simpl. destruct (num_to_Z n) as [k|]; [|done].
    unfold PostgresOutbox.listByEventType, transaction, tx_select, gets. msimpl.
    destruct (db_uuid tn) as [t|] eqn:Ht; [|done].
    match goal with |- context [zod_array_map ?p ?l] => destruct (zod_array_map p l) as [l2|] eqn:Hm end; [|done].
    intros [= <- _]. exists t. split; [done|]. intros e He. destruct (zod_array_map_elem _ _ _ _ Hm He) as (r & Hr & Hmap).
    apply subseteq_take in Hr. apply elem_of_sort_by in Hr.
    match type of Hr with context [select ?p ?t] => rewrite (select_rows p t) in Hr end.
    apply elem_of_bfilter in Hr as [Hk Hr]. sql_simpl.
    apply andb_true_iff in Hk as [?%bool_decide_eq_true ?%bool_decide_eq_true].
    split; [by exists r|]. unfold PostgresOutbox.mapRow, storedOutboxEventSchema in Hmap. schema_fields Hmap.
    by subst e.
Defined.
End postgres_laws.

(** ** Theorems *)

Section decision_theorem.
Context `{Z : Zod} {ZL : ZodLaws Z} {E : SqlEngine} {L : SqlLaws E} `{V : SqlValues} `{R : ZodReport}.
Import PostgresFeedback.

(** The decision [f] is the one the request asks for. *)
Definition requested (env : call_env) (tenant : option string) (body : result json) (f : ApprovalFeedback) : Prop :=
  exists tn raw d columns, tenant = Some tn /\ zod_uuid tn = true /\ body = Ok raw /\
    approvalDecisionSchema raw = Ok d /\ feedback_columns (recordParams tn d) = Ok columns /\
    f = inserted env columns.

Lemma decide_cases deps (c1 c2 : db_call) tenant body (db : Db) r db' :
  postDecide deps c1 c2 tenant body db = (r, db') ->
  (db' = db /\ forall resp, r = Ok resp -> ~ carries "feedbackId" resp) \/
  exists f, requested c1.1 tenant body f /\ decision_effect f db db' /\
    forall resp, r = Ok resp -> resp = decisionAnswer f.
Proof.
  assert (forall status m, ~ carries "feedbackId" (refusal status m)) as Hno.
  { intros status m Hc. by apply (carries_not_error _ _ Hc), refusal_error. }
  unfold postDecide. destruct (negb (ad_feedback deps)); [by intros [= <- <-]; left|].
  destruct tenant as [[|c tn0]|]; [intros [= <- <-]; left; split; [done|intros ? [= <-]; apply Hno]| |
    intros [= <- <-]; left; split; [done|intros ? [= <-]; apply Hno]].
  set (tn := String c tn0). destruct body as [raw|e]; msimpl; [|by intros [= <- <-]; left].
  destruct (approvalDecisionSchema raw) as [d|e] eqn:Hd; [|by intros [= <- <-]; left].
  destruct (negb (ad_outbox deps)); [by intros [= <- <-]; left|].
  pose proof (record_atomic c1.1 (recordParams tn d) db) as Hrec. unfold faulty, throw. msimpl.
  destruct c1.2; [| |]; try (by intros [= <- <-]; left);
    destruct (recordAndEnqueueLearningSignal c1.1 (recordParams tn d) db) as [[f|x2] db1];
    try (subst db1; by intros [= <- <-]; left);
    destruct Hrec as (columns & He & -> & Hz & Heff); intros [= <- <-]; right;
    eexists; (split; [by exists tn, raw, d, columns|]; split; [exact Heff|]); [by intros resp [= <-]|done].
Qed.

(** C20. A founder's decision and its learning signal are one: whatever fails
    on the way, a request to [POST /v1/approvals/decide] leaves the
    database as it was, or adds exactly the decision it asked for, in its own
    tenant, with the event that tells the learning worker of it.  So every
    stored decision has its signal; and an accepted request is answered with
    the decision that is stored. *)
Theorem decision_and_signal_are_atomic deps token auth (c1 c2 : db_call) tenant body (db : Db) :
  signalled db ->
  let x := guarded_route token auth (postDecide deps c1 c2 tenant body) db in
  signalled x.2 /\
  (x.2 = db \/ exists f, requested c1.1 tenant body f /\ decision_effect f db x.2) /\
  forall resp, x.1 = Ok resp -> carries "feedbackId" resp ->
    authorized token auth /\
    exists f, requested c1.1 tenant body f /\ decision_effect f db x.2 /\ resp = decisionAnswer f.
Proof.
  intros Hs x. destruct (postDecide deps c1 c2 tenant body db) as [r db'] eqn:Hp.
  pose proof (decide_cases deps c1 c2 tenant body db r db' Hp) as H.
  assert (x.2 = db \/ exists f, requested c1.1 tenant body f /\ decision_effect f db x.2) as Hx.
  { unfold x. destruct (guarded_state token auth (postDecide deps c1 c2 tenant body) db) as [-> | ->]; [by left|].
    rewrite Hp. destruct H as [[-> _]|(f & Hr & He & _)]; [by left|right; by exists f]. }
  split; [|split; [done|]].
  - destruct Hx as [-> |(f & _ & He)]; [done|by eapply effect_signalled].
  - intros resp Hr Hc. destruct x as [r0 db0] eqn:Hx0. simpl in Hr. subst r0. unfold x in Hx0.
    apply (guarded_carries _ _ _ _ _ _ _ Hc) in Hx0 as [Ha Hx0]. split; [done|].
    rewrite Hp in Hx0. injection Hx0 as -> ->. destruct H as [[_ Hno]|(f & Hq & He & Hresp)].
    + by destruct (Hno resp eq_refl).
    + exists f. split_and!; [done|done|by apply Hresp].
Qed.
End decision_theorem.

Section queue_theorem.
Context `{Z : Zod} {ZL : ZodLaws Z} `{R : ZodReport} {W : Type} {P : FeedbackPort W} {FL : FeedbackLaws W P}.

(** C21. What the queue lists is the tenant's events of the type asked for, at
    most as many as asked for; and an artifact leaves the queue with its
    decision: while a decision of the tenant and the type is among the 1000
    most recent of them, no listed event names its issue, provided the
    decisions can be read at all.  The names are compared as texts: that of
    the event with the issue id as the decision's row keeps it, which Postgres
    prints in lower case (an event that names its issue in upper case stays in
    the queue, [upper_case_issue_stays_queued]).  Reading the queue changes
    nothing. *)
Theorem decided_artifacts_leave_the_queue deps (c1 c2 : db_call) tenant outputType limit (w : W) resp w' :
  answered (getApprovals deps c1 c2 tenant outputType limit) w = (Ok resp, w') -> carries "items" resp ->
  w' = w /\ exists tn t l, tenant = Some tn /\ fl_tenant tn = Ok t /\
    resp = mkResponse 200 [("items", JArr (queueItem <$> l)); ("total", jint (BinInt.Z.of_nat (length l)))] /\
    (forall e, e ∈ l -> fl_events w e /\ oe_tenantId e = t /\ oe_eventType e = outputType ?: "blog_draft.v1") /\
    (0 <= num_trunc (queueLimit limit) -> BinInt.Z.of_nat (length l) <= num_trunc (queueLimit limit)) /\
    forall f e, ad_feedback deps = true -> f ∈ fl_decisions w ->
      listed t (Some (outputType ?: "blog_draft.v1")) f = true ->
      (length (decided_since t (Some (outputType ?: "blog_draft.v1")) f (fl_decisions w)) <= 1000)%nat ->
      e ∈ l -> extractIssueId (oe_payload e) ≠ Some (af_issueId f).
Proof.
  intros [H|(x & _ & ->)]%answered_ok Hc.
  2: { by destruct (carries_not_error _ _ Hc (mapped_error x)). }
  unfold getApprovals in H. destruct (negb (ad_outbox deps)); [done|].
  assert (forall m, (Ok (refusal 400 m), w) = (Ok resp, w') -> False) as Hno.
  { intros m [= <- _]. by apply (carries_not_error _ _ Hc), refusal_error. }
  destruct tenant as [[|c tn0]|]; [by apply Hno in H| |by apply Hno in H].
  revert H. generalize (String c tn0). intros tn. generalize (outputType ?: "blog_draft.v1"). intros ty.
  cbv zeta. intros (events & w1 & [_ He]%faulty_ok & H)%bind_ok.
  pose proof (fl_events_read tn ty (num_mul (queueLimit limit) (num_of_Z 2)) w) as Hw1.
  rewrite He in Hw1. simpl in Hw1. subst w1. apply bind_ok in H as (ds & w2 & Hd & H).
  injection H as <- <-. assert (w2 = w /\ (ad_feedback deps = true ->
    fp_listRecent tn 1000 (Some ty) w = (Ok ds, w))) as [-> Hds].
  { destruct (ad_feedback deps).
    - apply faulty_ok in Hd as [_ Hd]. pose proof (fl_decisions_read tn 1000 (Some ty) w) as Hr.
      rewrite Hd in Hr. simpl in Hr. by subst.
    - by injection Hd as _ <-. }
  destruct (fl_events_own tn ty _ w events w He) as (t & Ht & Hown).
  split; [done|]. eexists tn, t, _. split_and!; [done|done|done| | |].
  - intros e Hin%slice0_subseteq. apply elem_of_bfilter in Hin as [_ Hin]. by apply Hown.
  - intros Hn. by apply slice0_length.
  - intros f e Hcf Hf Hl Hg Hin%slice0_subseteq. apply elem_of_bfilter in Hin as [Hp _].
    intros Hx. rewrite Hx in Hp. apply negb_true_iff, bool_decide_eq_false in Hp. apply Hp.
    apply list_elem_of_fmap_2. eapply fl_decisions_latest; [by apply Hds|exact Ht|done|done|lia].
Qed.
End queue_theorem.

(** ** Witnesses *)

Module ApprovalsExample.
Import ZodExample.

#[export] Instance report : ZodReport := {| zod_issues := JArr []; zod_field_errors := fun _ => JObj [] |}.

Definition token : option string := Some "s3cret".
Definition auth : option string := Some "Bearer s3cret".
Definition deps : ApprovalRouteDependencies := mkApprovalDeps true true.
Definition ok : db_call := (env1, NoFault).
Definition decision (issue : string) : json :=
  JObj [("issueId", JStr issue); ("outputType", JStr "blog_draft.v1"); ("action", JStr "approved")].
Definition decide_on (issue : string) (w : MemoryWorld) : MemoryWorld :=
  (postDecide deps ok ok (Some tenant) (Ok (decision issue)) w).2.

Definition draft (key issue : string) (w : MemoryWorld) : MemoryWorld :=
  (on_memory_outbox (InMemoryOutbox.enqueue env1
    (mkEnqueue tenant "blog_draft.v1" key [("issueId", JStr issue)])) w).2.
Definition empty : MemoryWorld := mkMemory InMemoryFeedback.init InMemoryOutbox.init.
(** Three drafts; the two most recent are decided. *)
Definition three : MemoryWorld :=
  decide_on id2 (decide_on id3 (draft "k3" id3 (draft "k2" id2 (draft "k1" id1 empty)))).

Definition queue (limit : string) (w : MemoryWorld) : result Response * MemoryWorld :=
  answered (getApprovals deps ok ok (Some tenant) None (Some limit)) w.
Definition queued (limit : string) (w : MemoryWorld) : option json :=
  match (queue limit w).1 with Ok r => mapGet "total" (rsp_body r) | Err _ => None end.

Definition two_answer : Response := match (queue "2" three).1 with Ok r => r | Err _ => refusal 500 "" end.
Lemma queue_two : answered (getApprovals deps ok ok (Some tenant) None (Some "2")) three = (Ok two_answer, three).
Proof. vm_compute. reflexivity. Qed.
Lemma two_answer_carries : carries "items" two_answer.
Proof. split; [apply (bool_decide_unpack _); vm_compute; exact I|]. vm_compute. eauto. Qed.

#[export] Instance values : SqlValues := {|
  numeric_store p s x := Some x; numeric_avg vs := num_zero;
  out_of_range := JsError "numeric field overflow"; check_violation := JsError "check constraint" |}.
Definition db : PostgresFeedback.Db (E := ListEngine.list_engine) :=
  PostgresFeedback.mkDb (E := ListEngine.list_engine) [] [].
(** [id1] in upper case; a draft on Postgres whose event names its issue
    [issue], decided under that name. *)
Definition upper_id1 : string := "3F333DF6-90A4-4FDA-8DD3-9485D27CEE36".
Definition decided_on_postgres (issue : string) : PostgresFeedback.Db (E := ListEngine.list_engine) :=
  (postDecide deps ok ok (Some tenant) (Ok (decision issue))
    (on_event_outbox (PostgresOutbox.enqueue env1
      (mkEnqueue tenant "blog_draft.v1" "k1" [("issueId", JStr issue)])) db).2).2.
Definition queued_on_postgres (d : PostgresFeedback.Db (E := ListEngine.list_engine)) : option json :=
  match (answered (getApprovals deps ok ok (Some tenant) None (Some "20")) d).1 with
  | Ok r => mapGet "total" (rsp_body r)
  | Err _ => None
  end.
Lemma db_signalled : signalled (E := ListEngine.list_engine) db.
Proof. intros f Hf. by apply not_elem_of_nil in Hf. Qed.
End ApprovalsExample.

Section witnesses.
Import ZodExample ApprovalsExample.

(** The queue reads twice as many events as it may show, the newest first: a
    draft behind as many decided ones is not listed, though it is pending. *)
Theorem decided_drafts_hide_a_pending_one :
  queued "1" three = Some (jint 0) /\ queued "2" three = Some (jint 1).
Proof. split; vm_compute; reflexivity. Qed.

(** Postgres keeps the issue id of a decision in lower case, and the queue
    compares it with the event's as texts: decided on an issue named in upper
    case, an artifact stays queued, while in lower case, and in memory in
    either case, it leaves. *)
Theorem upper_case_issue_stays_queued :
  queued_on_postgres (decided_on_postgres upper_id1) = Some (jint 1) /\
  queued_on_postgres (decided_on_postgres id1) = Some (jint 0) /\
  queued "20" (decide_on upper_id1 (draft "k1" upper_id1 empty)) = Some (jint 0).
Proof. split_and!; vm_compute; reflexivity. Qed.

(** Without the atomic operation the decision is kept when the enqueueing
    fails, and its learning signal is lost: the founder is told of an error,
    and a second try records a second decision. *)
Theorem fallback_keeps_a_decision_without_signal :
  let w := (postDecide deps ok (env1, FailBefore (JsError "connection refused")) (Some tenant)
    (Ok (decision id1)) empty).2 in
  length (InMemoryFeedback.feedback (mw_feedback w)) = 1%nat /\ mw_outbox w = mw_outbox empty.
Proof. split; vm_compute; reflexivity. Qed.

Lemma decision_and_signal_are_atomic_witness :
  let x := guarded_route token auth (postDecide (W := PostgresFeedback.Db (E := ListEngine.list_engine)) deps ok ok
    (Some tenant) (Ok (decision id1))) db in
  signalled (E := ListEngine.list_engine) x.2.
Proof.
  exact (proj1 (decision_and_signal_are_atomic (E := ListEngine.list_engine) (L := ListEngine.list_laws)
    deps token auth ok ok (Some tenant) (Ok (decision id1)) db db_signalled)).
Defined.

Lemma decided_artifacts_leave_the_queue_witness : three = three /\ exists tn t l, Some tenant = Some tn /\
  fl_tenant (FeedbackLaws := memory_feedback_laws) tn = Ok t /\
  two_answer = mkResponse 200 [("items", JArr (queueItem <$> l)); ("total", jint (Z.of_nat (length l)))].
Proof.
  destruct (decided_artifacts_leave_the_queue (FL := memory_feedback_laws) deps ok ok (Some tenant) None (Some "2")
    three two_answer three queue_two two_answer_carries) as (H1 & tn & t & l & H2 & H3 & H4 & _).
  split; [exact H1|]. exists tn, t, l. split; [exact H2|split; [exact H3|exact H4]].
Defined.
End witnesses.
