(* ===== verification/ControlPlaneRoutes.v ===== *)
(** * The founder's control plane

    [apps/api/src/routes/control-plane.ts]: the summary of a tenant's
    operation, the health of its components and its incidents.  The routes
    only read.  A store is a function from the tenant and a limit to its
    answer or its failure, or is not configured; the last section connects
    the health, incident, experiment, proposal, signal and outbox stores of
    the other files to it. *)

From S2P Require Import Prelude Numbers JsRuntime Domain Zod ZodJson Sql Outbox Http ControlPlane Experiments Approvals.

Definition CONTROL_PLANE_LIST_LIMIT : Z := 100.
Definition OUTBOX_SCAN_LIMIT : Z := 500.
Definition APPROVAL_DECISION_SCAN_LIMIT : Z := 1000.

Definition approvalEventTypes : list string := ["blog_draft.v1"; "content_brief.v1"; "intel_brief.v1"].

Record ComponentHealthControlPlaneRecord := mkComponent {
  cc_componentId : string;
  cc_state : RuntimeHealthState;
  cc_action : string;
  cc_allowExternalActions : bool;
  cc_reasons : list string;
  cc_observedAt : Z;
}.

Record IncidentControlPlaneRecord := mkIncidentItem {
  ci_id : string;
  ci_componentId : string;
  ci_severity : IncidentSeverity;
  ci_status : string;
  ci_title : string;
  ci_summary : string;
  ci_openedAt : Z;
  ci_resolvedAt : option Z;
}.

Record ControlPlaneStatusSummary := mkStatusSummary {
  cs_total : N;
  cs_byStatus : jsmap N;
}.

(** Of the overview of the motions, what the summary shows. *)
Record MotionOverview := mkMotion {
  mo_latestStack : option (list string * list string);
  mo_latestScore : option (string * Z);
}.

(** A store of type [A]: [None] is not configured. *)
Definition store (Q A : Type) : Type := option (string -> Q -> result A).

Record ControlPlaneRouteDependencies := mkControlPlane {
  cp_outbox : store Z (list StoredOutboxEvent);
  cp_signals : store Z N;
  cp_approvals : store Z (list ApprovalFeedback);
  cp_motion : store Z MotionOverview;
  cp_health : store Z (list ComponentHealthControlPlaneRecord);
  cp_incidents : store Z (list IncidentControlPlaneRecord);
  cp_experiments : store unit ControlPlaneStatusSummary;
  cp_proposals : store unit ControlPlaneStatusSummary;
}.

Inductive DataSourceStatus := src_available | src_not_configured | src_unavailable.

#[export] Instance DataSourceStatus_eq_dec : EqDecision DataSourceStatus.
Proof. solve_decision. Defined.

Definition DataSourceStatus_str (s : DataSourceStatus) : string :=
  match s with
  | src_available => "available"
  | src_not_configured => "not_configured"
  | src_unavailable => "unavailable"
  end.

Record LoadedSource (T : Type) := mkLoaded { ls_status : DataSourceStatus; ls_value : T }.
Arguments mkLoaded {T} ls_status ls_value.
Arguments ls_status {T} l.
Arguments ls_value {T} l.

Definition loadOptional {Q A} (repository : store Q A) (fallback : A) (tenantId : string) (query : Q) :
    LoadedSource A :=
  match repository with
  | None => mkLoaded src_not_configured fallback
  | Some load =>
      match load tenantId query with
      | Ok value => mkLoaded src_available value
      | Err _ => mkLoaded src_unavailable fallback
      end
  end.

(** [parseLimit], [null] when refused *)
Definition parseLimit (value : option string) (defaultValue max : Z) : option Z :=
  match queryLimitSchema defaultValue max value with Ok n => Some n | Err _ => None end.

Definition day_ms : Z := 24 * 60 * 60 * 1000.
Definition startOfUtcDay (now : Z) : Z := now / day_ms * day_ms.

Definition isOpenIncident (status : string) : bool :=
  negb (bool_decide (lower status ∈ ["resolved"; "closed"; "cancelled"])).

Definition toPublicHealthItem (r : ComponentHealthControlPlaneRecord) : json :=
  JObj [("componentId", JStr (cc_componentId r)); ("state", JStr (RuntimeHealthState_str (cc_state r)));
        ("action", JStr (cc_action r)); ("allowExternalActions", JBool (cc_allowExternalActions r));
        ("reasons", JArr (JStr <$> cc_reasons r)); ("observedAt", json_date (cc_observedAt r))].

Definition toPublicIncidentItem (r : IncidentControlPlaneRecord) : json :=
  JObj [("id", JStr (ci_id r)); ("componentId", JStr (ci_componentId r));
        ("severity", JStr (IncidentSeverity_str (ci_severity r))); ("status", JStr (ci_status r));
        ("title", JStr (ci_title r)); ("summary", JStr (ci_summary r)); ("openedAt", json_date (ci_openedAt r));
        ("resolvedAt", json_date_or_null (ci_resolvedAt r))].

Definition in_state (st : RuntimeHealthState) (r : ComponentHealthControlPlaneRecord) : bool :=
  bool_decide (cc_state r = st).

(** [None] is "unknown". *)
Definition getOverallHealth (items : list ComponentHealthControlPlaneRecord) : option RuntimeHealthState :=
  match items with
  | [] => None
  | _ =>
      if existsb (in_state hs_quarantined) items then Some hs_quarantined
      else if existsb (in_state hs_recovering) items then Some hs_recovering
      else if existsb (in_state hs_degraded) items then Some hs_degraded
      else Some hs_healthy
  end.
Definition overall_str (o : option RuntimeHealthState) : string := (RuntimeHealthState_str <$> o) ?: "unknown".

Definition jcount {A} (l : list A) : json := jint (Z.of_nat (length l)).
Definition count_at (k : string) (s : ControlPlaneStatusSummary) : json :=
  jint (Z.of_N (mapGet k (cs_byStatus s) ?: 0%N)).
(** Whether a scan was cut at its limit. *)
Definition cut_at {A} (limit : Z) (l : list A) : json := JBool (Z.of_nat (length l) =? limit).

(** The events that await an approval: no decision of their type names their issue. *)
Definition pendingApprovals (decisions : list ApprovalFeedback) (events : list StoredOutboxEvent) :
    list StoredOutboxEvent :=
  let decidedIssueIds := (fun d => af_outputType d +:+ ":" +:+ af_issueId d) <$> decisions in
  bfilter (fun event =>
    if negb (bool_decide (oe_eventType event ∈ approvalEventTypes)) then false
    else
      match extractIssueId (oe_payload event) with
      | None => true
      | Some issueId => negb (bool_decide ((oe_eventType event +:+ ":" +:+ issueId) ∈ decidedIssueIds))
      end) events.

Definition approving (a : ApprovalAction) : bool :=
  bool_decide (a ∈ [act_approved; act_edited; act_auto_approved]).

(** The eight sources, loaded. *)
Record Loaded := mkLoadedAll {
  ld_signals : LoadedSource N;
  ld_outbox : LoadedSource (list StoredOutboxEvent);
  ld_decisions : LoadedSource (list ApprovalFeedback);
  ld_motion : LoadedSource (option MotionOverview);
  ld_health : LoadedSource (list ComponentHealthControlPlaneRecord);
  ld_incidents : LoadedSource (list IncidentControlPlaneRecord);
  ld_experiments : LoadedSource ControlPlaneStatusSummary;
  ld_proposals : LoadedSource ControlPlaneStatusSummary;
}.

Definition no_summary : ControlPlaneStatusSummary := mkStatusSummary 0 [].

(** A store whose answer may be [null]. *)
Definition nullable {Q A} (s : store Q A) : store Q (option A) :=
  match s with
  | Some load => Some (fun tenantId q => match load tenantId q with Ok a => Ok (Some a) | Err e => Err e end)
  | None => None
  end.

Definition load_all (deps : ControlPlaneRouteDependencies) (now : Z) (tenantId : string) : Loaded :=
  mkLoadedAll (loadOptional (cp_signals deps) 0%N tenantId (startOfUtcDay now))
    (loadOptional (cp_outbox deps) [] tenantId OUTBOX_SCAN_LIMIT)
    (loadOptional (cp_approvals deps) [] tenantId APPROVAL_DECISION_SCAN_LIMIT)
    (loadOptional (nullable (cp_motion deps)) None tenantId 1)
    (loadOptional (cp_health deps) [] tenantId CONTROL_PLANE_LIST_LIMIT)
    (loadOptional (cp_incidents deps) [] tenantId CONTROL_PLANE_LIST_LIMIT)
    (loadOptional (cp_experiments deps) no_summary tenantId tt)
    (loadOptional (cp_proposals deps) no_summary tenantId tt).

Definition dataSources (l : Loaded) : list (string * DataSourceStatus) :=
  [("signals", ls_status (ld_signals l)); ("outbox", ls_status (ld_outbox l));
   ("approvals", ls_status (ld_decisions l)); ("motion", ls_status (ld_motion l));
   ("componentHealth", ls_status (ld_health l)); ("incidents", ls_status (ld_incidents l));
   ("experiments", ls_status (ld_experiments l)); ("learningProposals", ls_status (ld_proposals l))].

Definition is_configured {Q A} (s : store Q A) : bool := match s with Some _ => true | None => false end.
Definition hasAnyConfiguredStore (deps : ControlPlaneRouteDependencies) : bool :=
  is_configured (cp_outbox deps) || is_configured (cp_signals deps) || is_configured (cp_approvals deps) ||
  is_configured (cp_motion deps) || is_configured (cp_health deps) || is_configured (cp_incidents deps) ||
  is_configured (cp_experiments deps) || is_configured (cp_proposals deps).

(** ** The routes *)

Section routes.
Context `{Zod} (deps : ControlPlaneRouteDependencies) (now : Z).

(** The body of the summary. *)
Definition summaryBody (tenantId : string) (l : Loaded) : jobject :=
  let decisions := ls_value (ld_decisions l) in
  let events := ls_value (ld_outbox l) in
  let components := ls_value (ld_health l) in
  let incidents := ls_value (ld_incidents l) in
  let experiments := ls_value (ld_experiments l) in
  let proposals := ls_value (ld_proposals l) in
  let stack := ls_value (ld_motion l) ≫= mo_latestStack in
  let score := ls_value (ld_motion l) ≫= mo_latestScore in
  let recentDecisions := bfilter (fun d => now - 7 * day_ms <=? af_createdAt d) decisions in
  let openIncidents := bfilter (fun i => isOpenIncident (ci_status i)) incidents in
  [("tenantId", JStr tenantId); ("generatedAt", json_date now);
   ("partial", JBool (existsb (fun s => negb (bool_decide (s.2 = src_available))) (dataSources l)));
   ("dataSources", JObj ((fun s => (s.1, JStr (DataSourceStatus_str s.2))) <$> dataSources l));
   ("signals", JObj [("today", jint (Z.of_N (ls_value (ld_signals l))));
      ("windowStart", json_date (startOfUtcDay now))]);
   ("approvals", JObj [("pending", jcount (pendingApprovals decisions events));
      ("pendingIsLowerBound", cut_at OUTBOX_SCAN_LIMIT events);
      ("decisionScanTruncated", cut_at APPROVAL_DECISION_SCAN_LIMIT decisions);
      ("approvedLastSevenDays", jcount (bfilter (fun d => approving (af_action d)) recentDecisions));
      ("rejectedLastSevenDays", jcount (bfilter (fun d => bool_decide (af_action d = act_rejected)) recentDecisions))]);
   ("execution", JObj [("pendingOutboxEvents", jcount events);
      ("pendingOutboxEventsIsLowerBound", cut_at OUTBOX_SCAN_LIMIT events)]);
   ("motion", JObj [("primaryMotions", JArr (JStr <$> (fst <$> stack) ?: []));
      ("secondaryMotions", JArr (JStr <$> (snd <$> stack) ?: []));
      ("scorerVersion", jstr_or_null (fst <$> score)); ("scoredAt", json_date_or_null (snd <$> score))]);
   ("health", JObj [("overall", JStr (overall_str (getOverallHealth components)));
      ("overallMayBeIncomplete", cut_at CONTROL_PLANE_LIST_LIMIT components);
      ("components", jcount components); ("componentsIsLowerBound", cut_at CONTROL_PLANE_LIST_LIMIT components);
      ("degraded", jcount (bfilter (in_state hs_degraded) components));
      ("recovering", jcount (bfilter (in_state hs_recovering) components));
      ("quarantined", jcount (bfilter (in_state hs_quarantined) components));
      ("externalActionsBlocked", jcount (bfilter (fun c => negb (cc_allowExternalActions c)) components))]);
   ("incidents", JObj [("open", jcount openIncidents); ("openIsLowerBound", cut_at CONTROL_PLANE_LIST_LIMIT incidents);
      ("criticalOpen", jcount (bfilter (fun i => bool_decide (ci_severity i = sev_critical)) openIncidents));
      ("criticalOpenIsLowerBound", cut_at CONTROL_PLANE_LIST_LIMIT incidents)]);
   ("experiments", JObj [("total", jint (Z.of_N (cs_total experiments))); ("running", count_at "running" experiments);
      ("paused", count_at "paused" experiments); ("concluded", count_at "concluded" experiments);
      ("promoted", count_at "promoted" experiments); ("rolledBack", count_at "rolled_back" experiments)]);
   ("learning", JObj [("total", jint (Z.of_N (cs_total proposals)));
      ("awaitingEvidence", count_at "awaiting_evidence" proposals); ("evaluating", count_at "evaluating" proposals);
      ("requiresApproval", count_at "requires_approval" proposals); ("promoted", count_at "promoted" proposals);
      ("rolledBack", count_at "rolled_back" proposals)])].

Definition respond {A} (part : A + Response) (k : A -> result Response) : result Response :=
  match part with inl a => k a | inr response => mret response end.

(** [GET /summary] *)
Definition getSummary (tenant : option string) : result Response :=
  respond (requireTenantId tenant) (fun tenantId =>
    if negb (hasAnyConfiguredStore deps) then
      Err (ServiceUnavailableError "Control-plane stores are not configured. Set DATABASE_URL.")
    else
      let loaded := load_all deps now tenantId in
      if negb (existsb (fun s => bool_decide (s.2 = src_available)) (dataSources loaded)) then
        Err (ServiceUnavailableError "Configured control-plane stores are unavailable.")
      else mret (mkResponse 200 (summaryBody tenantId loaded))).

Definition limitRefused : Response :=
  refusal 400 ("limit must be an integer between 1 and " +:+ string_of_N (Z.to_N CONTROL_PLANE_LIST_LIMIT)).

(** [GET /health] *)
Definition getHealth (tenant limit : option string) : result Response :=
  respond (requireTenantId tenant) (fun tenantId =>
    match cp_health deps with
    | None => Err (ServiceUnavailableError "Component health store is not configured. Set DATABASE_URL.")
    | Some listLatest =>
        match parseLimit limit CONTROL_PLANE_LIST_LIMIT CONTROL_PLANE_LIST_LIMIT with
        | None => mret limitRefused
        | Some limit =>
            match listLatest tenantId limit with
            | Err _ => Err (ServiceUnavailableError "Component health store is unavailable.")
            | Ok components =>
                mret (mkResponse 200 [("tenantId", JStr tenantId); ("generatedAt", json_date now);
                  ("overall", JStr (overall_str (getOverallHealth components)));
                  ("items", JArr (toPublicHealthItem <$> components)); ("total", jcount components);
                  ("totalIsLowerBound", cut_at limit components)])
            end
        end
    end).

(** [GET /incidents] *)
Definition getIncidents (tenant limit : option string) : result Response :=
  respond (requireTenantId tenant) (fun tenantId =>
    match cp_incidents deps with
    | None => Err (ServiceUnavailableError "Incident store is not configured. Set DATABASE_URL.")
    | Some listRecent =>
        match parseLimit limit 50 CONTROL_PLANE_LIST_LIMIT with
        | None => mret limitRefused
        | Some limit =>
            match listRecent tenantId limit with
            | Err _ => Err (ServiceUnavailableError "Incident store is unavailable.")
            | Ok incidents =>
                mret (mkResponse 200 [("tenantId", JStr tenantId); ("generatedAt", json_date now);
                  ("items", JArr (toPublicIncidentItem <$> incidents)); ("total", jcount incidents);
                  ("totalIsLowerBound", cut_at limit incidents);
                  ("open", jcount (bfilter (fun i => isOpenIncident (ci_status i)) incidents))])
            end
        end
    end).
End routes.

(** ** Theorems *)

(** How bad a state is. *)
Definition severity (st : RuntimeHealthState) : nat :=
  match st with hs_healthy => 0 | hs_degraded => 1 | hs_recovering => 2 | hs_quarantined => 3 end.

Section theorems.
Context `{Z : Zod} {ZL : ZodLaws Z} (deps : ControlPlaneRouteDependencies) (now : BinNums.Z).

(** What a store says when it is asked, and the mark it deserves. *)
Definition reading {Q A} (s : store Q A) (tn : string) (q : Q) : option A :=
  match s with
  | Some load => match load tn q with Ok v => Some v | Err _ => None end
  | None => None
  end.
Definition marking {Q A} (s : store Q A) (tn : string) (q : Q) : json :=
  JStr (match s with
        | None => "not_configured"
        | Some load => match load tn q with Ok _ => "available" | Err _ => "unavailable" end
        end).
Definition has {A} (o : option A) : bool := match o with Some _ => true | None => false end.

(** The eight stores, as the summary asks them, and which of them answer. *)
Abbreviation signals_of tn := (reading (cp_signals deps) tn (startOfUtcDay now)).
Abbreviation events_of tn := (reading (cp_outbox deps) tn 500).
Abbreviation decisions_of tn := (reading (cp_approvals deps) tn 1000).
Abbreviation motion_of tn := (reading (cp_motion deps) tn 1).
Abbreviation components_of tn := (reading (cp_health deps) tn 100).
Abbreviation incidents_of tn := (reading (cp_incidents deps) tn 100).
Abbreviation experiments_of tn := (reading (cp_experiments deps) tn tt).
Abbreviation proposals_of tn := (reading (cp_proposals deps) tn tt).
Definition stores_read (tn : string) : list bool :=
  [has (signals_of tn); has (events_of tn); has (decisions_of tn); has (motion_of tn);
   has (components_of tn); has (incidents_of tn); has (experiments_of tn); has (proposals_of tn)].

(** A summary that tells what the stores say. *)
Record summary_tells (tn : string) (body : jobject) : Prop := {
  st_tenant : mapGet "tenantId" body = Some (JStr tn);
  st_generated : mapGet "generatedAt" body = Some (json_date now);
  st_sources : mapGet "dataSources" body = Some (JObj [
    ("signals", marking (cp_signals deps) tn (startOfUtcDay now)); ("outbox", marking (cp_outbox deps) tn 500);
    ("approvals", marking (cp_approvals deps) tn 1000); ("motion", marking (cp_motion deps) tn 1);
    ("componentHealth", marking (cp_health deps) tn 100); ("incidents", marking (cp_incidents deps) tn 100);
    ("experiments", marking (cp_experiments deps) tn tt); ("learningProposals", marking (cp_proposals deps) tn tt)]);
  st_partial : mapGet "partial" body = Some (JBool (negb (forallb id (stores_read tn))));
  st_signals n : signals_of tn = Some n -> mapGet "signals" body = Some (JObj [
    ("today", jint (BinInt.Z.of_N n)); ("windowStart", json_date (startOfUtcDay now))]);
  st_execution events : events_of tn = Some events -> mapGet "execution" body = Some (JObj [
    ("pendingOutboxEvents", jcount events); ("pendingOutboxEventsIsLowerBound", cut_at 500 events)]);
  st_approvals : let events := events_of tn ?: [] in let decisions := decisions_of tn ?: [] in
    let recent := fun d => now - 7 * day_ms <=? af_createdAt d in
    mapGet "approvals" body = Some (JObj [
      ("pending", jcount (pendingApprovals decisions events));
      ("pendingIsLowerBound", cut_at 500 events); ("decisionScanTruncated", cut_at 1000 decisions);
      ("approvedLastSevenDays", jcount (bfilter (fun d => recent d && approving (af_action d)) decisions));
      ("rejectedLastSevenDays",
        jcount (bfilter (fun d => recent d && bool_decide (af_action d = act_rejected)) decisions))]);
  st_motion m : motion_of tn = Some m -> mapGet "motion" body = Some (JObj [
    ("primaryMotions", JArr (JStr <$> (fst <$> mo_latestStack m) ?: []));
    ("secondaryMotions", JArr (JStr <$> (snd <$> mo_latestStack m) ?: []));
    ("scorerVersion", jstr_or_null (fst <$> mo_latestScore m));
    ("scoredAt", json_date_or_null (snd <$> mo_latestScore m))]);
  st_health l : components_of tn = Some l -> mapGet "health" body = Some (JObj [
    ("overall", JStr (overall_str (getOverallHealth l))); ("overallMayBeIncomplete", cut_at 100 l);
    ("components", jcount l); ("componentsIsLowerBound", cut_at 100 l);
    ("degraded", jcount (bfilter (fun c => bool_decide (cc_state c = hs_degraded)) l));
    ("recovering", jcount (bfilter (fun c => bool_decide (cc_state c = hs_recovering)) l));
    ("quarantined", jcount (bfilter (fun c => bool_decide (cc_state c = hs_quarantined)) l));
    ("externalActionsBlocked", jcount (bfilter (fun c => negb (cc_allowExternalActions c)) l))]);
  st_incidents l : incidents_of tn = Some l -> mapGet "incidents" body = Some (JObj [
    ("open", jcount (bfilter (fun i => isOpenIncident (ci_status i)) l)); ("openIsLowerBound", cut_at 100 l);
    ("criticalOpen", jcount (bfilter (fun i => isOpenIncident (ci_status i) &&
       bool_decide (ci_severity i = sev_critical)) l)); ("criticalOpenIsLowerBound", cut_at 100 l)]);
  st_experiments e : experiments_of tn = Some e -> mapGet "experiments" body = Some (JObj [
    ("total", jint (BinInt.Z.of_N (cs_total e))); ("running", count_at "running" e); ("paused", count_at "paused" e);
    ("concluded", count_at "concluded" e); ("promoted", count_at "promoted" e);
    ("rolledBack", count_at "rolled_back" e)]);
  st_learning e : proposals_of tn = Some e -> mapGet "learning" body = Some (JObj [
    ("total", jint (BinInt.Z.of_N (cs_total e))); ("awaitingEvidence", count_at "awaiting_evidence" e);
    ("evaluating", count_at "evaluating" e); ("requiresApproval", count_at "requires_approval" e);
    ("promoted", count_at "promoted" e); ("rolledBack", count_at "rolled_back" e)]);
}.

(** What [loadOptional] makes of a store. *)
Lemma loaded_value {Q A} (s : store Q A) fallback tn q :
  ls_value (loadOptional s fallback tn q) = reading s tn q ?: fallback.
Proof. unfold loadOptional, reading. destruct s as [load|]; [|done]. by destruct (load tn q). Qed.

Lemma loaded_marking {Q A} (s : store Q A) fallback tn q :
  JStr (DataSourceStatus_str (ls_status (loadOptional s fallback tn q))) = marking s tn q.
Proof. unfold loadOptional, marking. destruct s as [load|]; [|done]. by destruct (load tn q). Qed.

Lemma loaded_available {Q A} (s : store Q A) fallback tn q :
  bool_decide (ls_status (loadOptional s fallback tn q) = src_available) = has (reading s tn q).
Proof. unfold loadOptional, reading. destruct s as [load|]; [|done]. by destruct (load tn q). Qed.

Lemma marking_nullable {Q A} (s : store Q A) tn q : marking (nullable s) tn q = marking s tn q.
Proof. unfold marking, nullable. destruct s as [load|]; [|done]. by destruct (load tn q). Qed.

Lemma reading_nullable {Q A} (s : store Q A) tn q : reading (nullable s) tn q = Some <$> reading s tn q.
Proof. unfold reading, nullable. destruct s as [load|]; [|done]. by destruct (load tn q). Qed.

Lemma sources_available tn :
  (fun s => bool_decide (s.2 = src_available)) <$> dataSources (load_all deps now tn) = stores_read tn.
Proof.
  unfold dataSources, load_all, stores_read. cbn [fmap list_fmap snd ld_signals ld_outbox ld_decisions
    ld_motion ld_health ld_incidents ld_experiments ld_proposals].
  rewrite !loaded_available, reading_nullable. by destruct (reading (cp_motion deps) tn 1).
Qed.

Lemma existsb_fmap {A B} (g : A -> B) (p : B -> bool) l : existsb p (g <$> l) = existsb (fun a => p (g a)) l.
Proof. induction l as [|a l IH]; [done|]. csimpl. by rewrite IH. Qed.

Lemma not_all_true l : existsb negb l = negb (forallb id l).
Proof. induction l as [|[] l IH]; [done| |done]. simpl. exact IH. Qed.

(** The values the body is made of. *)
Lemma load_all_values tn : let l := load_all deps now tn in
  (ls_value (ld_signals l) = signals_of tn ?: 0%N /\ ls_value (ld_outbox l) = events_of tn ?: [] /\
   ls_value (ld_decisions l) = decisions_of tn ?: [] /\ ls_value (ld_motion l) = motion_of tn) /\
  ls_value (ld_health l) = components_of tn ?: [] /\ ls_value (ld_incidents l) = incidents_of tn ?: [] /\
  ls_value (ld_experiments l) = experiments_of tn ?: no_summary /\
  ls_value (ld_proposals l) = proposals_of tn ?: no_summary.
Proof.
  cbv zeta. unfold load_all. cbn [ld_signals ld_outbox ld_decisions ld_motion ld_health ld_incidents
    ld_experiments ld_proposals]. rewrite !loaded_value, reading_nullable.
  split_and!; try reflexivity. by destruct (reading (cp_motion deps) tn 1).
Qed.

Lemma summary_true tn : summary_tells tn (summaryBody now tn (load_all deps now tn)).
Proof.
  pose proof (sources_available tn) as Hst. destruct (load_all_values tn) as [(H1 & H2 & H3 & H4) (H5 & H6 & H7 & H8)].
  assert ((fun s => (s.1, JStr (DataSourceStatus_str s.2))) <$> dataSources (load_all deps now tn) = [
    ("signals", marking (cp_signals deps) tn (startOfUtcDay now)); ("outbox", marking (cp_outbox deps) tn 500);
    ("approvals", marking (cp_approvals deps) tn 1000); ("motion", marking (cp_motion deps) tn 1);
    ("componentHealth", marking (cp_health deps) tn 100); ("incidents", marking (cp_incidents deps) tn 100);
    ("experiments", marking (cp_experiments deps) tn tt); ("learningProposals", marking (cp_proposals deps) tn tt)])
    as Hsrc.
  { unfold dataSources, load_all. cbn [fmap list_fmap fst snd ld_signals ld_outbox ld_decisions
      ld_motion ld_health ld_incidents ld_experiments ld_proposals].
    by rewrite !loaded_marking, marking_nullable. }
  destruct (load_all deps now tn) as [l1 l2 l3 l4 l5 l6 l7 l8].
  cbn [ld_signals ld_outbox ld_decisions ld_motion ld_health ld_incidents ld_experiments ld_proposals] in *.
  assert (existsb (fun s => negb (bool_decide (s.2 = src_available)))
    (dataSources (mkLoadedAll l1 l2 l3 l4 l5 l6 l7 l8)) = negb (forallb id (stores_read tn))) as Hpart.
  { rewrite <- Hst, <- not_all_true. by rewrite existsb_fmap. }
  clear Hst. revert Hsrc Hpart. unfold summaryBody. cbv zeta.
  cbn [ld_signals ld_outbox ld_decisions ld_motion ld_health ld_incidents ld_experiments ld_proposals].
  rewrite H1, H2, H3, H4, H5, H6, H7, H8. intros Hsrc Hpart. clear H1 H2 H3 H4 H5 H6 H7 H8.
  split.
  - reflexivity.
  - reflexivity.
  - rewrite <- Hsrc. reflexivity.
  - rewrite <- Hpart. reflexivity.
  - intros n ->. reflexivity.
  - intros events ->. reflexivity.
  - cbv zeta. rewrite <- !bfilter_bfilter. reflexivity.
  - intros m ->. reflexivity.
  - intros l ->. reflexivity.
  - intros l ->. rewrite <- bfilter_bfilter. reflexivity.
  - intros e ->. reflexivity.
  - intros e ->. reflexivity.
Qed.

(** C28. The summary never presents a store it could not read as an empty one.
    A caller that names no tenant is refused.  When no store can be read,
    the founder gets no summary but a 503, which says whether any store is
    configured.  Otherwise the summary names all eight stores and marks each
    as available, not configured or unavailable, exactly as it is; it calls
    itself partial unless all eight answered; and each section shows the
    numbers of what its store said in that read: signals, execution,
    approvals (from the decisions and the events, none of those that were
    not read), motion, health, incidents, experiments and learning. *)
Theorem summary_never_guesses tenant :
  match requireTenantId tenant with
  | inr refused => getSummary deps now tenant = Ok refused /\ rsp_status refused = 400
  | inl tn =>
      if existsb id (stores_read tn)
      then exists body, getSummary deps now tenant = Ok (mkResponse 200 body) /\ summary_tells tn body
      else getSummary deps now tenant = Err (ServiceUnavailableError
        (if hasAnyConfiguredStore deps then "Configured control-plane stores are unavailable."
         else "Control-plane stores are not configured. Set DATABASE_URL."))
  end.
Proof.
  unfold getSummary, respond. destruct (requireTenantId tenant) as [tn|r] eqn:Ht.
  2: { split; [done|]. revert Ht. unfold requireTenantId. repeat case_match; by intros [= <-]. }
  rewrite <- (sources_available tn), existsb_fmap. unfold id at 1. cbv zeta.
  destruct (hasAnyConfiguredStore deps) eqn:Hc; cbv [negb].
  - destruct (existsb _ (dataSources (load_all deps now tn))) eqn:Hx; [|done].
    eexists. split; [done|]. apply summary_true.
  - destruct (existsb _ (dataSources (load_all deps now tn))) eqn:Hx; [|done]. exfalso. revert Hx.
    apply not_true_iff_false. unfold hasAnyConfiguredStore in Hc. rewrite !orb_false_iff in Hc.
    destruct Hc as [[[[[[[C1 C2] C3] C4] C5] C6] C7] C8]. unfold dataSources, load_all, nullable.
    destruct (cp_outbox deps), (cp_signals deps), (cp_approvals deps), (cp_motion deps), (cp_health deps),
      (cp_incidents deps), (cp_experiments deps), (cp_proposals deps); done.
Qed.

Lemma has_state st items : existsb (in_state st) items = true <-> exists c, c ∈ items /\ cc_state c = st.
Proof. rewrite existsb_elem. unfold in_state. by setoid_rewrite bool_decide_eq_true. Qed.

Lemma no_state st items : existsb (in_state st) items = false -> forall c, c ∈ items -> cc_state c ≠ st.
Proof. intros H c Hc Hs. apply not_true_iff_false in H. apply H, has_state. eauto. Qed.

(** The overall health is the state of the worst component, and unknown
    exactly when nothing is known: a tenant is called healthy only if some
    component was heard of and every one of them is healthy. *)
Theorem overall_health_is_the_worst items :
  match getOverallHealth items with
  | None => items = []
  | Some st => (exists c, c ∈ items /\ cc_state c = st) /\
      forall c, c ∈ items -> (severity (cc_state c) <= severity st)%nat
  end.
Proof.
  unfold getOverallHealth. destruct items as [|c0 l]; [done|]. assert (c0 ∈ c0 :: l) as Hc0 by left. revert Hc0.
  generalize (c0 :: l). intros items H0.
  destruct (existsb (in_state hs_quarantined) items) eqn:H1.
  { apply has_state in H1. split; [done|]. intros c _. by destruct (cc_state c); simpl; lia. }
  pose proof (no_state _ _ H1) as N1. destruct (existsb (in_state hs_recovering) items) eqn:H2.
  { apply has_state in H2. split; [done|]. intros c Hc. specialize (N1 c Hc). destruct (cc_state c); simpl; try done; lia. }
  pose proof (no_state _ _ H2) as N2. destruct (existsb (in_state hs_degraded) items) eqn:H3.
  { apply has_state in H3. split; [done|]. intros c Hc. specialize (N1 c Hc). specialize (N2 c Hc).
    destruct (cc_state c); simpl; try done; lia. }
  pose proof (no_state _ _ H3) as N3.
  assert (forall c, c ∈ items -> cc_state c = hs_healthy) as Hall.
  { intros c Hc. specialize (N1 c Hc). specialize (N2 c Hc). specialize (N3 c Hc). by destruct (cc_state c). }
  split; [exists c0; auto|]. intros c Hc. by rewrite Hall.
Qed.

Lemma parseLimit_range limit d n : 1 <= d <= 100 -> parseLimit limit d CONTROL_PLANE_LIST_LIMIT = Some n ->
  1 <= n <= 100.
Proof.
  intros Hd. unfold parseLimit, queryLimitSchema. destruct limit as [t|]; [|intros [= <-]; lia].
  destruct (num_to_Z (number_of_text t)) as [k|]; [|done]. unfold int_in, refine.
  destruct (_ && _) eqn:Hk; [|done]. intros [= <-]. apply andb_true_iff in Hk as [?%Z.leb_le ?%Z.leb_le].
  unfold CONTROL_PLANE_LIST_LIMIT in *. lia.
Qed.

(** The list of components is what the store answered to a bounded question,
    or is refused; a store that is missing or fails is a 503. *)
Theorem health_list_never_guesses tenant limit :
  match getHealth deps now tenant limit with
  | Ok r => rsp_status r = 400 \/ exists tn load n l, tenant = Some tn /\ cp_health deps = Some load /\
      1 <= n <= 100 /\ load tn n = Ok l /\
      mapGet "items" (rsp_body r) = Some (JArr (toPublicHealthItem <$> l)) /\
      mapGet "overall" (rsp_body r) = Some (JStr (overall_str (getOverallHealth l)))
  | Err e => exists m, e = ServiceUnavailableError m
  end.
Proof.
  unfold getHealth. destruct (requireTenantId tenant) as [tn|r] eqn:Ht; simpl.
  2: { revert Ht. unfold requireTenantId. repeat case_match; intros [= <-]; by left. }
  apply requireTenantId_inl in Ht as [-> _]. destruct (cp_health deps) as [load|]; [|by eexists].
  destruct (parseLimit _ _ _) as [n|] eqn:Hn; [|by left]. destruct (load tn n) as [l|] eqn:Hl; [|by eexists].
  right. exists tn, load, n, l. split_and!; try done; by apply (parseLimit_range limit 100).
Qed.

(** And so is the list of incidents, with its count of the open ones. *)
Theorem incident_list_never_guesses tenant limit :
  match getIncidents deps now tenant limit with
  | Ok r => rsp_status r = 400 \/ exists tn load n l, tenant = Some tn /\ cp_incidents deps = Some load /\
      1 <= n <= 100 /\ load tn n = Ok l /\
      mapGet "items" (rsp_body r) = Some (JArr (toPublicIncidentItem <$> l)) /\
      mapGet "open" (rsp_body r) = Some (jcount (bfilter (fun i => isOpenIncident (ci_status i)) l))
  | Err e => exists m, e = ServiceUnavailableError m
  end.
Proof.
  unfold getIncidents. destruct (requireTenantId tenant) as [tn|r] eqn:Ht; simpl.
  2: { revert Ht. unfold requireTenantId. repeat case_match; intros [= <-]; by left. }
  apply requireTenantId_inl in Ht as [-> _]. destruct (cp_incidents deps) as [load|]; [|by eexists].
  destruct (parseLimit _ _ _) as [n|] eqn:Hn; [|by left]. destruct (load tn n) as [l|] eqn:Hl; [|by eexists].
  right. exists tn, load, n, l. split_and!; try done; by apply (parseLimit_range limit 50).
Qed.

(** The experiment repository as a store of the control plane. *)
Definition experimentStatuses : list ExperimentStatus :=
  [exp_draft; exp_running; exp_paused; exp_concluded; exp_abandoned; exp_promoted; exp_rolled_back].
Definition experiment_store (s : InMemoryExperiments.State) : store unit ControlPlaneStatusSummary :=
  Some (fun tn _ => match (InMemoryExperiments.getSummary tn s).1 with
    | Ok r => Ok (mkStatusSummary (es_total r)
        ((fun st => (ExperimentStatus_str st, es_byStatus r st)) <$> experimentStatuses))
    | Err e => Err e
    end).

(** The tenant's experiments in a status. *)
Definition experiments_in (tn : string) (st : ExperimentStatus) (s : InMemoryExperiments.State) : json :=
  jcount (bfilter (fun x => bool_decide (ex_tenantId x = tn) && bool_decide (ex_status x = st))
    (mapValues (InMemoryExperiments.experimentsById s))).

Lemma summary_experiments tn l : mapGet "experiments" (summaryBody now tn l) =
  Some (let e := ls_value (ld_experiments l) in
    JObj [("total", jint (Z.of_N (cs_total e))); ("running", count_at "running" e); ("paused", count_at "paused" e);
          ("concluded", count_at "concluded" e); ("promoted", count_at "promoted" e);
          ("rolledBack", count_at "rolled_back" e)]).
Proof. reflexivity. Qed.

(** Over the experiment repository, the dashboard's numbers are the
    repository's: in each status, the number of the tenant's own
    experiments in it. *)
Theorem dashboard_counts_experiments s tn resp : cp_experiments deps = experiment_store s ->
  getSummary deps now (Some tn) = Ok resp -> rsp_status resp = 200 ->
  exists total, mapGet "experiments" (rsp_body resp) =
    Some (JObj [("total", total); ("running", experiments_in tn exp_running s);
      ("paused", experiments_in tn exp_paused s); ("concluded", experiments_in tn exp_concluded s);
      ("promoted", experiments_in tn exp_promoted s); ("rolledBack", experiments_in tn exp_rolled_back s)]).
Proof.
  intros He H Hst. unfold getSummary in H. destruct (requireTenantId (Some tn)) as [t|r] eqn:Ht; simpl in H.
  2: { injection H as <-. revert Ht Hst. unfold requireTenantId. by repeat case_match; intros [= <-]. }
  apply requireTenantId_inl in Ht as [[= <-] Hz].
  destruct (negb (hasAnyConfiguredStore deps)); [done|]. destruct (negb _); [done|]. injection H as <-.
  destruct (InMemoryExperiments.getSummary tn s) as [[r|e] s'] eqn:Hs.
  2: { unfold InMemoryExperiments.getSummary in Hs. msimpl. by rewrite (proj2 (tenantIdSchema_ok tn tn)) in Hs. }
  assert (s' = s) as ->.
  { unfold InMemoryExperiments.getSummary in Hs. msimpl. rewrite (proj2 (tenantIdSchema_ok tn tn)) in Hs by done.
    by injection Hs as _ <-. }
  destruct (experiment_summary_counts tn s r Hs) as [Hc _].
  assert (ls_value (ld_experiments (load_all deps now tn)) = mkStatusSummary (es_total r)
    ((fun st => (ExperimentStatus_str st, es_byStatus r st)) <$> experimentStatuses)) as Hv.
  { unfold load_all, loadOptional. simpl. rewrite He. simpl. by rewrite Hs. }
  eexists. cbn [rsp_body]. rewrite summary_experiments, Hv. unfold count_at, experiments_in, jcount. simpl.
  by rewrite !Hc, !nat_N_Z.
Qed.
End theorems.

(** ** Witnesses *)

Module ControlPlaneRoutesExample.
Import ZodExample ExperimentsExample.

(** The experiments are there, the incidents fail, nothing else is configured. *)
Definition some_stores : ControlPlaneRouteDependencies :=
  mkControlPlane None None None None None (Some (fun _ _ => Err (JsError "connection refused")))
    (experiment_store s1) None.

Definition answer : Response :=
  match getSummary some_stores 1709210096789 (Some tenant) with Ok resp => resp | Err _ => refusal 500 "none" end.
Lemma answered_summary : getSummary some_stores 1709210096789 (Some tenant) = Ok answer.
Proof. vm_compute. reflexivity. Qed.

Example partial_summary : mapGet "partial" (rsp_body answer) = Some (JBool true) /\
  mapGet "dataSources" (rsp_body answer) = Some (JObj [("signals", JStr "not_configured");
    ("outbox", JStr "not_configured"); ("approvals", JStr "not_configured"); ("motion", JStr "not_configured");
    ("componentHealth", JStr "not_configured"); ("incidents", JStr "unavailable");
    ("experiments", JStr "available"); ("learningProposals", JStr "not_configured")]).
Proof. split; vm_compute; reflexivity. Qed.
End ControlPlaneRoutesExample.

Section witnesses.
Import ZodExample ExperimentsExample ControlPlaneRoutesExample.

Lemma dashboard_counts_experiments_witness : exists total, mapGet "experiments" (rsp_body answer) =
  Some (JObj [("total", total); ("running", experiments_in tenant exp_running s1);
    ("paused", experiments_in tenant exp_paused s1); ("concluded", experiments_in tenant exp_concluded s1);
    ("promoted", experiments_in tenant exp_promoted s1); ("rolledBack", experiments_in tenant exp_rolled_back s1)]).
Proof.
  exact (dashboard_counts_experiments some_stores 1709210096789 s1 tenant answer eq_refl answered_summary eq_refl).
Defined.
End witnesses.
