(* ===== verification/Proposals.v ===== *)
(** * Learning proposals

    The learning-proposal part of
    [packages/db/src/adaptive-control-plane-repository.ts]:
    [InMemoryLearningProposalRepository] (module [InMemoryProposals]) and
    [PostgresLearningProposalRepository] (module [PostgresProposals]), with
    the approval event written through an [OutboxPort]. *)

From S2P Require Import Prelude Numbers JsRuntime Domain Zod Sql Outbox ControlPlane.

(** ** Records and schemas *)

Record LearningProposalRecord := mkProposal {
  lp_id : string;
  lp_tenantId : string;
  lp_proposalKey : string;
  lp_experimentId : option string;
  lp_targetType : string;
  lp_targetId : string;
  lp_risk : ChangeRisk;
  lp_status : LearningProposalStatus;
  lp_proposalPayload : jobject;
  lp_evidenceSnapshot : jobject;
  lp_evaluationSnapshot : jobject;
  lp_decision : option LearningDecisionKind;
  lp_decisionReasons : list string;
  lp_baseVersionRef : option string;
  lp_candidateVersionRef : option string;
  lp_promotedVersionRef : option string;
  lp_rollbackVersionRef : option string;
  lp_humanApprovedBy : option string;
  lp_humanApprovedAt : option Z;
  lp_promotionClaimToken : option string;
  lp_promotionClaimExpiresAt : option Z;
  lp_createdBy : string;
  lp_evaluatedAt : option Z;
  lp_promotedAt : option Z;
  lp_rolledBackAt : option Z;
  lp_createdAt : Z;
  lp_updatedAt : Z;
}.

Record CreateLearningProposalParams := mkCreateProposal {
  cl_proposalKey : string;
  cl_experimentId : option string;
  cl_targetType : string;
  cl_targetId : string;
  cl_risk : ChangeRisk;
  cl_proposalPayload : jobject;
  cl_baseVersionRef : option string;
  cl_candidateVersionRef : option string;
  cl_createdBy : string;
}.

Record RecordLearningProposalEvaluationParams := mkEvaluationParams {
  re_decision : LearningDecisionKind;
  re_evidenceSnapshot : jobject;
  re_evaluationSnapshot : jobject;
  re_decisionReasons : list string;
}.

Record PromotionClaimOptions := mkClaimOptions {
  co_leaseMs : option Z;
  co_now : option Z;
}.

Record PromotionClaim := mkClaim {
  claim_proposal : LearningProposalRecord;
  claim_token : string;
  claim_expiresAt : Z;
}.

Record ApproveLearningProposalResult := mkApproval {
  approved_proposal : LearningProposalRecord;
  approved_outboxEvent : StoredOutboxEvent;
}.

Definition MIN_PROMOTION_CLAIM_LEASE_MS : Z := 1000.
Definition MAX_PROMOTION_CLAIM_LEASE_MS : Z := 15 * 60000.
Definition DEFAULT_PROMOTION_CLAIM_LEASE_MS : Z := 60000.

Section schemas.
Context `{Zod}.

Definition learningProposalRecordSchema (r : LearningProposalRecord) :
    result LearningProposalRecord :=
  id ← uuid (lp_id r);
  tn ← tenantIdSchema (lp_tenantId r);
  key ← nonEmptyText (lp_proposalKey r);
  ex ← zod_optional uuid (lp_experimentId r);
  ty ← nonEmptyText (lp_targetType r);
  tid ← nonEmptyText (lp_targetId r);
  reasons ← zod_array nonEmptyText (lp_decisionReasons r);
  token ← zod_optional uuid (lp_promotionClaimToken r);
  by_ ← nonEmptyText (lp_createdBy r);
  mret (mkProposal id tn key ex ty tid (lp_risk r) (lp_status r) (lp_proposalPayload r)
    (lp_evidenceSnapshot r) (lp_evaluationSnapshot r) (lp_decision r) reasons
    (lp_baseVersionRef r) (lp_candidateVersionRef r) (lp_promotedVersionRef r)
    (lp_rollbackVersionRef r) (lp_humanApprovedBy r) (lp_humanApprovedAt r) token
    (lp_promotionClaimExpiresAt r) by_ (lp_evaluatedAt r) (lp_promotedAt r) (lp_rolledBackAt r)
    (lp_createdAt r) (lp_updatedAt r)).

Definition createLearningProposalParamsSchema (p : CreateLearningProposalParams) :
    result CreateLearningProposalParams :=
  key ← nonEmptyText (cl_proposalKey p);
  ex ← zod_optional uuid (cl_experimentId p);
  ty ← nonEmptyText (cl_targetType p);
  tid ← nonEmptyText (cl_targetId p);
  base ← zod_optional nonEmptyText (cl_baseVersionRef p);
  cand ← zod_optional nonEmptyText (cl_candidateVersionRef p);
  by_ ← nonEmptyText (cl_createdBy p);
  mret (mkCreateProposal key ex ty tid (cl_risk p) (cl_proposalPayload p) base cand by_).

(** [decisionReasons: z.array(nonEmptyText).min(1)] *)
Definition recordLearningProposalEvaluationParamsSchema
    (p : RecordLearningProposalEvaluationParams) :
    result RecordLearningProposalEvaluationParams :=
  reasons ← zod_array nonEmptyText (re_decisionReasons p);
  reasons' ← refine (fun l : list string => (1 <=? length l)%nat) reasons;
  mret (mkEvaluationParams (re_decision p) (re_evidenceSnapshot p) (re_evaluationSnapshot p)
    reasons').

Definition promotionClaimOptionsSchema (o : PromotionClaimOptions) :
    result PromotionClaimOptions :=
  lease ← int_in MIN_PROMOTION_CLAIM_LEASE_MS MAX_PROMOTION_CLAIM_LEASE_MS
            (co_leaseMs o ?: DEFAULT_PROMOTION_CLAIM_LEASE_MS);
  mret (mkClaimOptions (Some lease) (co_now o)).
End schemas.

Definition hasActivePromotionClaim (p : LearningProposalRecord) (now : Z) : bool :=
  match lp_promotionClaimToken p, lp_promotionClaimExpiresAt p with
  | Some _, Some expiresAt => now <? expiresAt
  | _, _ => false
  end.

Definition proposalStatusForDecision (d : LearningDecisionKind) : LearningProposalStatus :=
  match d with
  | dec_continue_experiment => prop_awaiting_evidence
  | dec_reject => prop_rejected
  | dec_requires_approval => prop_requires_approval
  | dec_promote => prop_approved
  end.

Definition learningProposalApprovedEventType : string := "learning.proposal.approved.v1".

Definition learningProposalApprovalOutboxCommand (p : LearningProposalRecord) :
    EnqueueOutboxEvent :=
  mkEnqueue (lp_tenantId p) learningProposalApprovedEventType
    ("learning-proposal-approved:" +:+ lp_id p)
    [("proposal_id", JStr (lp_id p)); ("proposal_key", JStr (lp_proposalKey p));
     ("approved_by", JStr (lp_humanApprovedBy p ?: ""));
     ("approved_at", jstr_or_null (toISOString <$> lp_humanApprovedAt p))].

Record LearningProposalStatusSummary := mkProposalSummary {
  ls_total : N;
  ls_byStatus : LearningProposalStatus -> N;
}.

Definition emptyLearningProposalStatusSummary : LearningProposalStatusSummary :=
  mkProposalSummary 0 (fun _ => 0%N).

(** *** The record literals of the operations *)

(** The record [create] stores. *)
Definition new_proposal (id tenantId : string) (p : CreateLearningProposalParams) (now : Z) :
    LearningProposalRecord :=
  mkProposal id tenantId (cl_proposalKey p) (cl_experimentId p) (cl_targetType p) (cl_targetId p)
    (cl_risk p) prop_awaiting_evidence (cl_proposalPayload p) [] [] None [] (cl_baseVersionRef p)
    (cl_candidateVersionRef p) None None None None None None (cl_createdBy p) None None None now now.

(** [{ ...existing, status, ..., updatedAt }] of [recordEvaluation] *)
Definition evaluated (r : LearningProposalRecord) (p : RecordLearningProposalEvaluationParams)
    (now : Z) : LearningProposalRecord :=
  mkProposal (lp_id r) (lp_tenantId r) (lp_proposalKey r) (lp_experimentId r) (lp_targetType r)
    (lp_targetId r) (lp_risk r) (proposalStatusForDecision (re_decision p)) (lp_proposalPayload r)
    (re_evidenceSnapshot p) (re_evaluationSnapshot p) (Some (re_decision p)) (re_decisionReasons p)
    (lp_baseVersionRef r) (lp_candidateVersionRef r) (lp_promotedVersionRef r)
    (lp_rollbackVersionRef r) (lp_humanApprovedBy r) (lp_humanApprovedAt r) None None
    (lp_createdBy r) (Some now) (lp_promotedAt r) (lp_rolledBackAt r) (lp_createdAt r) now.

(** [{ ...existing, status, humanApprovedBy, ..., updatedAt }] of [approveAndEnqueue] *)
Definition approved (r : LearningProposalRecord) (by_ : string) (now : Z) :
    LearningProposalRecord :=
  mkProposal (lp_id r) (lp_tenantId r) (lp_proposalKey r) (lp_experimentId r) (lp_targetType r)
    (lp_targetId r) (lp_risk r) prop_approved (lp_proposalPayload r) (lp_evidenceSnapshot r)
    (lp_evaluationSnapshot r) (lp_decision r) (lp_decisionReasons r) (lp_baseVersionRef r)
    (lp_candidateVersionRef r) (lp_promotedVersionRef r) (lp_rollbackVersionRef r) (Some by_)
    (Some now) None None (lp_createdBy r) (lp_evaluatedAt r) (lp_promotedAt r) (lp_rolledBackAt r)
    (lp_createdAt r) now.

(** [{ ...existing, promotionClaimToken, ..., updatedAt }] of [claimPromotion] *)
Definition claimed (r : LearningProposalRecord) (token : string) (expiresAt now : Z) :
    LearningProposalRecord :=
  mkProposal (lp_id r) (lp_tenantId r) (lp_proposalKey r) (lp_experimentId r) (lp_targetType r)
    (lp_targetId r) (lp_risk r) (lp_status r) (lp_proposalPayload r) (lp_evidenceSnapshot r)
    (lp_evaluationSnapshot r) (lp_decision r) (lp_decisionReasons r) (lp_baseVersionRef r)
    (lp_candidateVersionRef r) (lp_promotedVersionRef r) (lp_rollbackVersionRef r)
    (lp_humanApprovedBy r) (lp_humanApprovedAt r) (Some token) (Some expiresAt) (lp_createdBy r)
    (lp_evaluatedAt r) (lp_promotedAt r) (lp_rolledBackAt r) (lp_createdAt r) now.

(** [{ ...existing, status, promotedVersionRef, ..., updatedAt }] of [markPromoted] *)
Definition promoted (r : LearningProposalRecord) (versionRef : string) (now : Z) :
    LearningProposalRecord :=
  mkProposal (lp_id r) (lp_tenantId r) (lp_proposalKey r) (lp_experimentId r) (lp_targetType r)
    (lp_targetId r) (lp_risk r) prop_promoted (lp_proposalPayload r) (lp_evidenceSnapshot r)
    (lp_evaluationSnapshot r) (lp_decision r) (lp_decisionReasons r) (lp_baseVersionRef r)
    (lp_candidateVersionRef r) (Some versionRef) (lp_rollbackVersionRef r) (lp_humanApprovedBy r)
    (lp_humanApprovedAt r) None None (lp_createdBy r) (lp_evaluatedAt r) (Some now)
    (lp_rolledBackAt r) (lp_createdAt r) now.

(** [{ ...existing, status, rollbackVersionRef, ..., updatedAt }] of [markRolledBack] *)
Definition rolledBack (r : LearningProposalRecord) (versionRef : string) (now : Z) :
    LearningProposalRecord :=
  mkProposal (lp_id r) (lp_tenantId r) (lp_proposalKey r) (lp_experimentId r) (lp_targetType r)
    (lp_targetId r) (lp_risk r) prop_rolled_back (lp_proposalPayload r) (lp_evidenceSnapshot r)
    (lp_evaluationSnapshot r) (lp_decision r) (lp_decisionReasons r) (lp_baseVersionRef r)
    (lp_candidateVersionRef r) (lp_promotedVersionRef r) (Some versionRef) (lp_humanApprovedBy r)
    (lp_humanApprovedAt r) (lp_promotionClaimToken r) (lp_promotionClaimExpiresAt r)
    (lp_createdBy r) (lp_evaluatedAt r) (lp_promotedAt r) (Some now) (lp_createdAt r) now.

(** ** The in-memory repository *)

Module InMemoryProposals.
Record State (O : Type) := mkState {
  recordsById : jsmap LearningProposalRecord;
  recordIdByKey : jsmap string;
  outbox : O;
}.
Arguments mkState {O} _ _ _.
Arguments recordsById {O} _.
Arguments recordIdByKey {O} _.
Arguments outbox {O} _.

#[export] Instance state_eta {O} : Eta (State O) := fun s =>
  mkState (recordsById s) (recordIdByKey s) (outbox s).

Definition key (tenantId proposalKey : string) : string := tenantId +:+ ":" +:+ proposalKey.

Section ops.
Context `{Zod} {O : Type} `{OutboxPort O}.

Definition findScopedRecord (tenantId id : string) (s : State O) : option LearningProposalRecord :=
  match mapGet id (recordsById s) with
  | Some record => if bool_decide (lp_tenantId record = tenantId) then Some record else None
  | None => None
  end.

Definition store (id : string) (r : LearningProposalRecord) : M (State O) unit :=
  modify (fun s => s <| recordsById := mapSet id r (recordsById s) |>).

Definition with_outbox {A} (m : M O A) : M (State O) A := fun s =>
  let '(r, o) := m (outbox s) in (r, s <| outbox := o |>).

Definition create (env : call_env) (tenantId : string) (params : CreateLearningProposalParams) :
    M (State O) LearningProposalRecord :=
  parsedTenantId ← lift (tenantIdSchema tenantId);
  parsed ← lift (createLearningProposalParamsSchema params);
  let key := key parsedTenantId (cl_proposalKey parsed) in
  existing ← gets (fun s => indexed (recordsById s) (recordIdByKey s) key);
  match existing with
  | Some record => mret record
  | None =>
      record ← lift (learningProposalRecordSchema
        (new_proposal (env_uuid env) parsedTenantId parsed (env_now env)));
      store (lp_id record) record;;
      modify (fun s => s <| recordIdByKey := mapSet key (lp_id record) (recordIdByKey s) |>);;
      mret record
  end.

Definition getById (tenantId id : string) : M (State O) (option LearningProposalRecord) :=
  parsedTenantId ← lift (tenantIdSchema tenantId);
  gets (findScopedRecord parsedTenantId id).

Definition getByProposalKey (tenantId proposalKey : string) :
    M (State O) (option LearningProposalRecord) :=
  parsedTenantId ← lift (tenantIdSchema tenantId);
  id ← gets (fun s => mapGet (key parsedTenantId proposalKey) (recordIdByKey s));
  if truthy id then getById parsedTenantId (id ?: "") else mret None.

Definition listRecent (tenantId : string) (limit : option Z)
    (status : option LearningProposalStatus) : M (State O) (list LearningProposalRecord) :=
  parsedTenantId ← lift (tenantIdSchema tenantId);
  parsedLimit ← lift (normalizeLimit limit);
  gets (fun s => slice0 parsedLimit
    (sort_by (fun a b => lp_updatedAt b <=? lp_updatedAt a)
      (bfilter (fun r => bool_decide (lp_tenantId r = parsedTenantId) &&
          match status with Some st => bool_decide (lp_status r = st) | None => true end)
        (mapValues (recordsById s))))).

Definition getSummary (tenantId : string) : M (State O) LearningProposalStatusSummary :=
  parsedTenantId ← lift (tenantIdSchema tenantId);
  gets (fun s => fold_left (fun acc r =>
    if negb (bool_decide (lp_tenantId r = parsedTenantId)) then acc
    else mkProposalSummary (ls_total acc + 1)
      (fun st => if bool_decide (st = lp_status r) then (ls_byStatus acc st + 1)%N
                 else ls_byStatus acc st))
    (mapValues (recordsById s)) emptyLearningProposalStatusSummary).

(** The statuses a new evaluation may overwrite. *)
Definition evaluable (st : LearningProposalStatus) : bool :=
  bool_decide (st ∈ [prop_awaiting_evidence; prop_evaluating; prop_requires_approval; prop_approved]).

Definition recordEvaluation (env : call_env) (tenantId id : string)
    (params : RecordLearningProposalEvaluationParams) :
    M (State O) (option LearningProposalRecord) :=
  parsedTenantId ← lift (tenantIdSchema tenantId);
  parsed ← lift (recordLearningProposalEvaluationParamsSchema params);
  found ← gets (findScopedRecord parsedTenantId id);
  let now := env_now env in
  match found with
  | None => mret None
  | Some existing =>
      if negb (evaluable (lp_status existing)) || hasActivePromotionClaim existing now
      then mret None
      else
        updated ← lift (learningProposalRecordSchema (evaluated existing parsed now));
        store id updated;;
        mret (Some updated)
  end.

(** [others] is what the other tasks do while the outbox write is awaited. *)
Definition approveAndEnqueue (others : State O -> State O) (env : call_env)
    (tenantId id approvedBy : string) : M (State O) (option ApproveLearningProposalResult) :=
  parsedTenantId ← lift (tenantIdSchema tenantId);
  parsedApprovedBy ← lift (nonEmptyText approvedBy);
  found ← gets (findScopedRecord parsedTenantId id);
  match found with
  | None => mret None
  | Some existing =>
      if negb (bool_decide (lp_status existing = prop_requires_approval)) then mret None
      else
        updated ← lift (learningProposalRecordSchema
          (approved existing parsedApprovedBy (env_now env)));
        store id updated;;
        outboxEvent ← on_throw
          (awaited others
             (with_outbox (outbox_enqueue env (learningProposalApprovalOutboxCommand updated))))
          (fun s => s <| recordsById := mapSet id existing (recordsById s) |>);
        mret (Some (mkApproval updated outboxEvent))
  end.

Definition approve (others : State O -> State O) (env : call_env)
    (tenantId id approvedBy : string) : M (State O) (option LearningProposalRecord) :=
  result ← approveAndEnqueue others env tenantId id approvedBy;
  mret (approved_proposal <$> result).

Definition claimPromotion (env : call_env) (tenantId id : string)
    (options : PromotionClaimOptions) : M (State O) (option PromotionClaim) :=
  parsedTenantId ← lift (tenantIdSchema tenantId);
  parsedOptions ← lift (promotionClaimOptionsSchema options);
  let now := co_now parsedOptions ?: env_now env in
  found ← gets (findScopedRecord parsedTenantId id);
  match found with
  | None => mret None
  | Some existing =>
      if negb (bool_decide (lp_status existing = prop_approved)) ||
         hasActivePromotionClaim existing now
      then mret None
      else
        let token := env_uuid env in
        let expiresAt := now + (co_leaseMs parsedOptions ?: DEFAULT_PROMOTION_CLAIM_LEASE_MS) in
        proposal ← lift (learningProposalRecordSchema (claimed existing token expiresAt now));
        store id proposal;;
        mret (Some (mkClaim proposal token expiresAt))
  end.

Definition markPromoted (env : call_env) (tenantId id promotedVersionRef promotionClaimToken : string) :
    M (State O) (option LearningProposalRecord) :=
  parsedTenantId ← lift (tenantIdSchema tenantId);
  versionRef ← lift (nonEmptyText promotedVersionRef);
  claimToken ← lift (uuid promotionClaimToken);
  found ← gets (findScopedRecord parsedTenantId id);
  let now := env_now env in
  match found with
  | None => mret None
  | Some existing =>
      if negb (bool_decide (lp_status existing = prop_approved)) ||
         negb (bool_decide (lp_promotionClaimToken existing = Some claimToken)) ||
         negb (hasActivePromotionClaim existing now)
      then mret None
      else
        updated ← lift (learningProposalRecordSchema (promoted existing versionRef now));
        store id updated;;
        mret (Some updated)
  end.

Definition markRolledBack (env : call_env) (tenantId id rollbackVersionRef : string) :
    M (State O) (option LearningProposalRecord) :=
  parsedTenantId ← lift (tenantIdSchema tenantId);
  versionRef ← lift (nonEmptyText rollbackVersionRef);
  found ← gets (findScopedRecord parsedTenantId id);
  match found with
  | None => mret None
  | Some existing =>
      if negb (bool_decide (lp_status existing = prop_promoted)) then mret None
      else
        updated ← lift (learningProposalRecordSchema (rolledBack existing versionRef (env_now env)));
        store id updated;;
        mret (Some updated)
  end.
End ops.
End InMemoryProposals.

(** ** The Postgres repository *)

Module PostgresProposals.
Section ops.
Context `{Zod} {E : SqlEngine}.

(** The two tables the repository writes. *)
Record Db := mkDb {
  learning_proposals : table LearningProposalRecord;
  event_outbox : table OutboxRow;
}.

Definition on_proposals {A} (m : M (table LearningProposalRecord) A) : M Db A := fun db =>
  let '(r, t) := m (learning_proposals db) in (r, mkDb t (event_outbox db)).
Definition on_outbox {A} (m : M (table OutboxRow) A) : M Db A := fun db =>
  let '(r, t) := m (event_outbox db) in (r, mkDb (learning_proposals db) t).

Definition mapLearningProposal := learningProposalRecordSchema.

Definition first_mapped (rows : list LearningProposalRecord) :
    result (option LearningProposalRecord) :=
  match rows with
  | [] => mret None
  | row :: _ => r ← mapLearningProposal row; mret (Some r)
  end.

(** [unique (tenant_id, proposal_key)] *)
Definition same_proposal (a b : LearningProposalRecord) : bool :=
  bool_decide (lp_tenantId a = lp_tenantId b) && bool_decide (lp_proposalKey a = lp_proposalKey b).

Definition where_key (tenantId key : string) (r : LearningProposalRecord) : bool :=
  holds (sql_all [col_eq (lp_tenantId r) tenantId; col_eq (lp_proposalKey r) key]).
Definition where_id (tenantId id : string) (r : LearningProposalRecord) : bool :=
  holds (sql_all [col_eq (lp_tenantId r) tenantId; col_eq (lp_id r) id]).
(** [or(isNull(promotionClaimToken), lte(promotionClaimExpiresAt, now))] *)
Definition unclaimed (now : Z) (r : LearningProposalRecord) : tri :=
  sql_or (is_null (lp_promotionClaimToken r)) (null_lte (lp_promotionClaimExpiresAt r) now).

(** The parameters of a statement, as their columns keep them. *)
Definition proposal_columns (p : CreateLearningProposalParams) : result CreateLearningProposalParams :=
  experimentId ← db_uuid_or_null (cl_experimentId p);
  mret (mkCreateProposal (cl_proposalKey p) experimentId (cl_targetType p) (cl_targetId p) (cl_risk p)
    (jsonb_in (cl_proposalPayload p)) (cl_baseVersionRef p) (cl_candidateVersionRef p) (cl_createdBy p)).
Definition evaluation_columns (p : RecordLearningProposalEvaluationParams) :
    RecordLearningProposalEvaluationParams :=
  mkEvaluationParams (re_decision p) (jsonb_in (re_evidenceSnapshot p)) (jsonb_in (re_evaluationSnapshot p))
    (re_decisionReasons p).

Definition create (env : call_env) (tenantId : string) (params : CreateLearningProposalParams) :
    M Db LearningProposalRecord :=
  parsedTenantId ← lift (db_uuid tenantId);
  parsed ← lift (createLearningProposalParamsSchema params);
  columns ← lift (proposal_columns parsed);
  transaction (on_proposals (
    inserted ← tx_insert same_proposal (new_proposal (env_uuid env) parsedTenantId columns (env_now env));
    match inserted with
    | row :: _ => lift (mapLearningProposal row)
    | [] =>
        found ← tx_select (where_key parsedTenantId (cl_proposalKey parsed));
        match found with
        | [] => throw (JsError "Learning proposal create returned no row.")
        | existing :: _ => lift (mapLearningProposal existing)
        end
    end)).

Definition getById (tenantId id : string) : M Db (option LearningProposalRecord) :=
  parsedTenantId ← lift (db_uuid tenantId);
  parsedId ← lift (db_uuid id);
  transaction (on_proposals (
    found ← tx_select (where_id parsedTenantId parsedId); lift (first_mapped found))).

Definition getByProposalKey (tenantId proposalKey : string) :
    M Db (option LearningProposalRecord) :=
  parsedTenantId ← lift (db_uuid tenantId);
  parsedKey ← lift (nonEmptyText proposalKey);
  transaction (on_proposals (
    found ← tx_select (where_key parsedTenantId parsedKey); lift (first_mapped found))).

Definition listRecent (tenantId : string) (limit : option Z)
    (status : option LearningProposalStatus) : M Db (list LearningProposalRecord) :=
  parsedTenantId ← lift (db_uuid tenantId);
  parsedLimit ← lift (normalizeLimit limit);
  transaction (on_proposals (
    found ← tx_select (fun r => holds (sql_all (col_eq (lp_tenantId r) parsedTenantId ::
      match status with Some st => [col_eq (lp_status r) st] | None => [] end)));
    lift (zod_array_map mapLearningProposal
      (take (Z.to_nat parsedLimit) (sort_by (fun a b => lp_updatedAt b <=? lp_updatedAt a) found))))).

(** [SELECT status, count(star) ... GROUP BY status] *)
Definition getSummary (tenantId : string) : M Db LearningProposalStatusSummary :=
  parsedTenantId ← lift (db_uuid tenantId);
  transaction (on_proposals (
    found ← tx_select (fun r => holds (col_eq (lp_tenantId r) parsedTenantId));
    let groups := (fun st => (st, N.of_nat (length (bfilter (fun r => bool_decide (lp_status r = st)) found))))
                    <$> remove_dups (lp_status <$> found) in
    mret (fold_left (fun acc '(st, total) =>
      mkProposalSummary (ls_total acc + total)
        (fun st' => if bool_decide (st' = st) then total else ls_byStatus acc st'))
      groups emptyLearningProposalStatusSummary))).

(** [others] is what concurrent transactions commit between the [SELECT] and
    the [UPDATE]. *)
Definition recordEvaluation (others : Db -> Db) (env : call_env) (tenantId id : string)
    (params : RecordLearningProposalEvaluationParams) : M Db (option LearningProposalRecord) :=
  parsedTenantId ← lift (db_uuid tenantId);
  parsedId ← lift (db_uuid id);
  parsed ← lift (recordLearningProposalEvaluationParamsSchema params);
  transaction_with others (
    let now := env_now env in
    found ← on_proposals (tx_select (where_id parsedTenantId parsedId));
    match found with
    | [] => mret None
    | current :: _ =>
        if negb (bool_decide (lp_status current ∈ [prop_awaiting_evidence; prop_evaluating;
                   prop_requires_approval; prop_approved])) ||
           hasActivePromotionClaim current now
        then mret None
        else
          await others;;
          updated ← on_proposals (tx_update
            (fun r => holds (sql_all [col_eq (lp_tenantId r) parsedTenantId; col_eq (lp_id r) parsedId;
                        col_eq (lp_status r) (lp_status current); unclaimed now r]))
            (fun r => evaluated r (evaluation_columns parsed) now));
          lift (first_mapped updated)
    end).

(** The [pg_notify] at the end only wakes the publisher; it changes no row. *)
Definition approveAndEnqueue (env : call_env) (tenantId id approvedBy : string) :
    M Db (option ApproveLearningProposalResult) :=
  parsedTenantId ← lift (db_uuid tenantId);
  parsedId ← lift (db_uuid id);
  parsedApprovedBy ← lift (nonEmptyText approvedBy);
  transaction (
    let now := env_now env in
    updated ← on_proposals (tx_update
      (fun r => holds (sql_all [col_eq (lp_tenantId r) parsedTenantId; col_eq (lp_id r) parsedId;
                  col_eq (lp_status r) prop_requires_approval]))
      (fun r => approved r parsedApprovedBy now));
    match updated with
    | [] => mret None
    | row :: _ =>
        proposal ← lift (mapLearningProposal row);
        let command := learningProposalApprovalOutboxCommand proposal in
        on_outbox (tx_insert PostgresOutbox.same_event
          (mkOutboxRow (env_serial env) (oc_tenantId command) (oc_eventType command)
             (oc_idempotencyKey command) (oc_payload command) now None));;
        found ← on_outbox (tx_select (PostgresOutbox.where_event command));
        match found with
        | [] => throw (JsError "Learning proposal approval outbox event was not written.")
        | event :: _ =>
            outboxEvent ← lift (PostgresOutbox.mapRow event);
            mret (Some (mkApproval proposal outboxEvent))
        end
    end).

Definition approve (env : call_env) (tenantId id approvedBy : string) :
    M Db (option LearningProposalRecord) :=
  result ← approveAndEnqueue env tenantId id approvedBy;
  mret (approved_proposal <$> result).

Definition claimPromotion (env : call_env) (tenantId id : string)
    (options : PromotionClaimOptions) : M Db (option PromotionClaim) :=
  parsedTenantId ← lift (db_uuid tenantId);
  parsedId ← lift (db_uuid id);
  parsedOptions ← lift (promotionClaimOptionsSchema options);
  let now := co_now parsedOptions ?: env_now env in
  let token := env_uuid env in
  let expiresAt := now + (co_leaseMs parsedOptions ?: DEFAULT_PROMOTION_CLAIM_LEASE_MS) in
  transaction (
    updated ← on_proposals (tx_update
      (fun r => holds (sql_all [col_eq (lp_tenantId r) parsedTenantId; col_eq (lp_id r) parsedId;
                  col_eq (lp_status r) prop_approved; unclaimed now r]))
      (fun r => claimed r token expiresAt now));
    row ← lift (first_mapped updated);
    mret ((fun proposal => mkClaim proposal token expiresAt) <$> row)).

Definition markPromoted (env : call_env) (tenantId id promotedVersionRef promotionClaimToken : string) :
    M Db (option LearningProposalRecord) :=
  parsedTenantId ← lift (db_uuid tenantId);
  parsedId ← lift (db_uuid id);
  versionRef ← lift (nonEmptyText promotedVersionRef);
  claimToken ← lift (db_uuid promotionClaimToken);
  transaction (
    let now := env_now env in
    updated ← on_proposals (tx_update
      (fun r => holds (sql_all [col_eq (lp_tenantId r) parsedTenantId; col_eq (lp_id r) parsedId;
                  col_eq (lp_status r) prop_approved; null_eq (lp_promotionClaimToken r) claimToken;
                  null_gt (lp_promotionClaimExpiresAt r) now]))
      (fun r => promoted r versionRef now));
    lift (first_mapped updated)).

Definition markRolledBack (env : call_env) (tenantId id rollbackVersionRef : string) :
    M Db (option LearningProposalRecord) :=
  parsedTenantId ← lift (db_uuid tenantId);
  parsedId ← lift (db_uuid id);
  versionRef ← lift (nonEmptyText rollbackVersionRef);
  transaction (
    updated ← on_proposals (tx_update
      (fun r => holds (sql_all [col_eq (lp_tenantId r) parsedTenantId; col_eq (lp_id r) parsedId;
                  col_eq (lp_status r) prop_promoted]))
      (fun r => rolledBack r versionRef (env_now env)));
    lift (first_mapped updated)).
End ops.
End PostgresProposals.

(** ** The abstract state machine

    One proposal, seen through the operations that change it. *)

Inductive proposal_label :=
  | LEvaluate (d : LearningDecisionKind)
  | LApprove (by_ : string)
  | LClaim (token : string) (expiresAt : Z)
  | LPromote (token versionRef : string)
  | LRollBack (versionRef : string).

(** [now] is the instant the operation reads from its clock. *)
Inductive proposal_step (now : Z) :
    proposal_label -> LearningProposalRecord -> LearningProposalRecord -> Prop :=
  | step_evaluate r p :
      lp_status r ∈ [prop_awaiting_evidence; prop_evaluating; prop_requires_approval; prop_approved] ->
      hasActivePromotionClaim r now = false ->
      proposal_step now (LEvaluate (re_decision p)) r (evaluated r p now)
  | step_approve r by_ :
      lp_status r = prop_requires_approval ->
      proposal_step now (LApprove by_) r (approved r by_ now)
  | step_claim r token expiresAt :
      lp_status r = prop_approved -> hasActivePromotionClaim r now = false ->
      now + MIN_PROMOTION_CLAIM_LEASE_MS <= expiresAt <= now + MAX_PROMOTION_CLAIM_LEASE_MS ->
      proposal_step now (LClaim token expiresAt) r (claimed r token expiresAt now)
  | step_promote r token versionRef :
      lp_status r = prop_approved -> lp_promotionClaimToken r = Some token ->
      hasActivePromotionClaim r now = true -> versionRef ≠ "" ->
      proposal_step now (LPromote token versionRef) r (promoted r versionRef now)
  | step_rollback r versionRef :
      lp_status r = prop_promoted -> versionRef ≠ "" ->
      proposal_step now (LRollBack versionRef) r (rolledBack r versionRef now).

(** The history of one proposal: labels with the instants they happened at. *)
Inductive proposal_run : list (Z * proposal_label) -> LearningProposalRecord ->
    LearningProposalRecord -> Prop :=
  | run_nil r : proposal_run [] r r
  | run_cons now l ls r1 r2 r3 : proposal_step now l r1 r2 -> proposal_run ls r2 r3 ->
      proposal_run ((now, l) :: ls) r1 r3.

(** ** Lemmas on the schemas *)

Section schema_lemmas.
Context `{Z : Zod} {ZL : ZodLaws Z}.

Definition lp_kf (r : LearningProposalRecord) : string :=
  InMemoryProposals.key (lp_tenantId r) (lp_proposalKey r).

#[export] Instance proposalSchema_idem : IdemParse learningProposalRecordSchema.
Proof. unfold learningProposalRecordSchema. solve_idem_record. Qed.

(** What identifies a proposal and never changes. *)
Definition identity (r : LearningProposalRecord) :=
  (lp_id r, lp_tenantId r, lp_proposalKey r, lp_experimentId r, lp_targetType r, lp_targetId r,
   lp_risk r, lp_proposalPayload r, lp_baseVersionRef r, lp_candidateVersionRef r, lp_createdBy r,
   lp_createdAt r).

Lemma proposalSchema_fields r r' : learningProposalRecordSchema r = Ok r' ->
  zod_uuid (lp_id r) = true /\ zod_uuid (lp_tenantId r) = true /\ lp_id r' = lp_id r /\
  lp_tenantId r' = lp_tenantId r /\ lp_proposalKey r' = trim (lp_proposalKey r) /\
  lp_status r' = lp_status r /\ lp_promotionClaimToken r' = lp_promotionClaimToken r /\
  lp_promotionClaimExpiresAt r' = lp_promotionClaimExpiresAt r.
Proof.
  unfold learningProposalRecordSchema. intros H. schema_fields H. subst r'.
  apply uuid_ok in E as [? _]. apply tenantIdSchema_ok in E0 as [? _]. by split_and!.
Qed.

(** A record with the identity of a valid one is valid when its reasons and
    its token are. *)
Lemma proposalSchema_update r u : learningProposalRecordSchema r = Ok r ->
  identity u = identity r ->
  zod_array nonEmptyText (lp_decisionReasons u) = Ok (lp_decisionReasons u) ->
  zod_optional uuid (lp_promotionClaimToken u) = Ok (lp_promotionClaimToken u) ->
  learningProposalRecordSchema u = Ok u.
Proof.
  intros Hr Hd Hc Ht. destruct r, u. unfold identity in Hd. cbn in Hd, Hc, Ht.
  injection Hd. intros. subst. clear Hd. unfold learningProposalRecordSchema in *.
  cbv beta delta [mret result_ret mbind result_bind] in *. cbn in *.
  repeat match type of Hr with
  | match ?m with Ok _ => _ | Err _ => _ end = _ => destruct m; [|discriminate Hr]
  end.
  rewrite Hc, Ht. injection Hr. intros. by subst.
Qed.

Lemma proposalSchema_parts r : learningProposalRecordSchema r = Ok r ->
  zod_array nonEmptyText (lp_decisionReasons r) = Ok (lp_decisionReasons r) /\
  zod_optional uuid (lp_promotionClaimToken r) = Ok (lp_promotionClaimToken r).
Proof.
  unfold learningProposalRecordSchema. intros H. schema_fields H. split; [|done].
  apply (f_equal lp_decisionReasons) in H. simpl in H. rewrite H in *. done.
Qed.

Lemma evaluationParams_fields p p' : recordLearningProposalEvaluationParamsSchema p = Ok p' ->
  re_decision p' = re_decision p /\
  zod_array nonEmptyText (re_decisionReasons p') = Ok (re_decisionReasons p').
Proof.
  unfold recordLearningProposalEvaluationParamsSchema. msimpl.
  destruct (zod_array nonEmptyText _) as [l|] eqn:El; [|done].
  pose proof (idem_parse _ _ El) as El'. destruct (refine _ l) as [l'|] eqn:Er; [|done].
  apply refine_ok in Er as [_ ->]. by intros [= <-].
Qed.

Lemma claimOptions_fields o o' : promotionClaimOptionsSchema o = Ok o' ->
  co_now o' = co_now o /\ exists ms, co_leaseMs o' = Some ms /\
    ms = co_leaseMs o ?: DEFAULT_PROMOTION_CLAIM_LEASE_MS /\
    MIN_PROMOTION_CLAIM_LEASE_MS <= ms <= MAX_PROMOTION_CLAIM_LEASE_MS.
Proof.
  unfold promotionClaimOptionsSchema, int_in. msimpl.
  destruct (refine _ _) as [ms|] eqn:E; [|done]. apply refine_ok in E as [E ->]. b2p.
  intros [= <-]. simpl. eauto 6.
Qed.

(** The literals of the operations produce valid records. *)
Lemma evaluated_valid r p now : learningProposalRecordSchema r = Ok r ->
  zod_array nonEmptyText (re_decisionReasons p) = Ok (re_decisionReasons p) ->
  learningProposalRecordSchema (evaluated r p now) = Ok (evaluated r p now).
Proof. intros Hr Hp. by apply (proposalSchema_update r). Qed.

Lemma approved_valid r by_ now : learningProposalRecordSchema r = Ok r ->
  learningProposalRecordSchema (approved r by_ now) = Ok (approved r by_ now).
Proof. intros Hr. apply (proposalSchema_update r); try done. by apply (proposalSchema_parts r Hr). Qed.

Lemma claimed_valid r token e now : learningProposalRecordSchema r = Ok r ->
  zod_uuid token = true ->
  learningProposalRecordSchema (claimed r token e now) = Ok (claimed r token e now).
Proof.
  intros Hr Ht. apply (proposalSchema_update r); try done; [by apply (proposalSchema_parts r Hr)|].
  simpl. by rewrite (proj2 (uuid_ok token token) (conj Ht eq_refl)).
Qed.

Lemma promoted_valid r v now : learningProposalRecordSchema r = Ok r ->
  learningProposalRecordSchema (promoted r v now) = Ok (promoted r v now).
Proof. intros Hr. apply (proposalSchema_update r); try done. by apply (proposalSchema_parts r Hr). Qed.

Lemma rolledBack_valid r v now : learningProposalRecordSchema r = Ok r ->
  learningProposalRecordSchema (rolledBack r v now) = Ok (rolledBack r v now).
Proof. intros Hr. apply (proposalSchema_update r); try done; by apply (proposalSchema_parts r Hr). Qed.

Lemma nonEmptyText_nonempty s t : nonEmptyText s = Ok t -> t ≠ "".
Proof. by intros [? ->]%nonEmptyText_ok. Qed.
End schema_lemmas.

(** ** The operations as guarded updates *)

Section operations.
Context `{Z : Zod} {ZL : ZodLaws Z} {O : Type} `{P : OutboxPort O}.
Import InMemoryProposals.
Implicit Types (s : State O) (r : LearningProposalRecord).

Definition guarded_update (tn id : string) (g : LearningProposalRecord -> bool)
    (f : LearningProposalRecord -> LearningProposalRecord) (s : State O) :
    option LearningProposalRecord * State O :=
  match findScopedRecord tn id s with
  | Some r =>
      if g r then (Some (f r), s <| recordsById := mapSet id (f r) (recordsById s) |>)
      else (None, s)
  | None => (None, s)
  end.

(** Records under their own ids and keys, each accepted by the schema; a claim
    has a token and an expiry or neither, and only an approved proposal has
    one. *)
Definition claim_ok r : Prop :=
  (lp_promotionClaimToken r = None <-> lp_promotionClaimExpiresAt r = None) /\
  (lp_promotionClaimToken r ≠ None -> lp_status r = prop_approved).

Record records_inv s : Prop := {
  ri_index : index_inv lp_id lp_kf (recordsById s) (recordIdByKey s);
  ri_valid id r : mapGet id (recordsById s) = Some r -> learningProposalRecordSchema r = Ok r;
  ri_claim id r : mapGet id (recordsById s) = Some r -> claim_ok r;
}.

Lemma find_some tn id s r : findScopedRecord tn id s = Some r <->
  mapGet id (recordsById s) = Some r /\ lp_tenantId r = tn.
Proof.
  unfold findScopedRecord. destruct (mapGet id _) as [q|]; [|naive_solver].
  case_bool_decide; naive_solver.
Qed.

(** Run an operation on a well-formed state up to its schema. *)
Ltac run_op s Hs find :=
  unfold guarded_update, store; msimpl; unfold gets;
  destruct find as [r|] eqn:Hf; [|done];
  pose proof (ri_valid _ Hs _ _ (proj1 (proj1 (find_some _ _ _ _) Hf))) as Hv.

Lemma recordEvaluation_eq env tn id p p' s : records_inv s -> zod_uuid tn = true ->
  recordLearningProposalEvaluationParamsSchema p = Ok p' ->
  recordEvaluation env tn id p s =
    let '(o, s') := guarded_update tn id
      (fun r => evaluable (lp_status r) && negb (hasActivePromotionClaim r (env_now env)))
      (fun r => evaluated r p' (env_now env)) s in (Ok o, s').
Proof.
  intros Hs Ht Hp. unfold recordEvaluation.
  rewrite (proj2 (tenantIdSchema_ok tn tn)), Hp by done. run_op s Hs (findScopedRecord tn id s).
  destruct (evaluable _), (hasActivePromotionClaim r (env_now env)); simpl; try done.
  rewrite evaluated_valid; [done|done|by apply evaluationParams_fields in Hp as [_ ?]].
Qed.

Lemma claimPromotion_eq env tn id o o' ms s : records_inv s -> zod_uuid tn = true ->
  zod_uuid (env_uuid env) = true ->
  promotionClaimOptionsSchema o = Ok o' -> co_leaseMs o' = Some ms ->
  claimPromotion env tn id o s =
    let now := co_now o ?: env_now env in
    let '(r, s') := guarded_update tn id
      (fun r => bool_decide (lp_status r = prop_approved) && negb (hasActivePromotionClaim r now))
      (fun r => claimed r (env_uuid env) (now + ms) now) s in
    (Ok ((fun r => mkClaim r (env_uuid env) (now + ms)) <$> r), s').
Proof.
  intros Hs Ht Hu Ho Hms. unfold claimPromotion.
  rewrite (proj2 (tenantIdSchema_ok tn tn)), Ho by done. destruct (claimOptions_fields _ _ Ho) as [Hn _].
  unfold guarded_update, store; msimpl; unfold gets.
  rewrite Hn, Hms. simpl.
  destruct (findScopedRecord tn id s) as [r|] eqn:Hf; [|done].
  pose proof (ri_valid _ Hs _ _ (proj1 (proj1 (find_some _ _ _ _) Hf))) as Hv.
  case_bool_decide; simpl; [|done].
  destruct (hasActivePromotionClaim r _); simpl; [done|].
  by rewrite claimed_valid.
Qed.

Lemma markPromoted_eq env tn id v v' token s : records_inv s -> zod_uuid tn = true ->
  nonEmptyText v = Ok v' -> zod_uuid token = true ->
  markPromoted env tn id v token s =
    let '(o, s') := guarded_update tn id
      (fun r => bool_decide (lp_status r = prop_approved) &&
        bool_decide (lp_promotionClaimToken r = Some token) &&
        hasActivePromotionClaim r (env_now env))
      (fun r => promoted r v' (env_now env)) s in (Ok o, s').
Proof.
  intros Hs Ht Hv' Hu. unfold markPromoted.
  rewrite (proj2 (tenantIdSchema_ok tn tn)), Hv', (proj2 (uuid_ok token token)) by done.
  run_op s Hs (findScopedRecord tn id s).
  destruct (bool_decide (lp_status r = _)), (bool_decide (lp_promotionClaimToken r = _)),
    (hasActivePromotionClaim r (env_now env)); simpl; try done.
  by rewrite promoted_valid.
Qed.

Lemma markRolledBack_eq env tn id v v' s : records_inv s -> zod_uuid tn = true ->
  nonEmptyText v = Ok v' ->
  markRolledBack env tn id v s =
    let '(o, s') := guarded_update tn id
      (fun r => bool_decide (lp_status r = prop_promoted))
      (fun r => rolledBack r v' (env_now env)) s in (Ok o, s').
Proof.
  intros Hs Ht Hv'. unfold markRolledBack.
  rewrite (proj2 (tenantIdSchema_ok tn tn)), Hv' by done. run_op s Hs (findScopedRecord tn id s).
  case_bool_decide; simpl; [|done]. by rewrite rolledBack_valid.
Qed.

(** The approval, up to the outbox write. *)
Lemma approve_eq others env tn id by_ by' s : records_inv s -> zod_uuid tn = true ->
  nonEmptyText by_ = Ok by' ->
  approveAndEnqueue others env tn id by_ s =
    let '(o, s1) := guarded_update tn id
      (fun r => bool_decide (lp_status r = prop_requires_approval))
      (fun r => approved r by' (env_now env)) s in
    match o with
    | None => (Ok None, s1)
    | Some u =>
        match with_outbox (outbox_enqueue env (learningProposalApprovalOutboxCommand u)) s1 with
        | (Ok e, s2) => (Ok (Some (mkApproval u e)), others s2)
        | (Err x, s2) =>
            (Err x, others s2 <| recordsById :=
               mapSet id (match mapGet id (recordsById s) with Some r => r | None => u end)
                 (recordsById (others s2)) |>)
        end
    end.
Proof.
  intros Hs Ht Hb. unfold approveAndEnqueue.
  rewrite (proj2 (tenantIdSchema_ok tn tn)), Hb by done. run_op s Hs (findScopedRecord tn id s).
  case_bool_decide; simpl; [|done]. rewrite approved_valid by done.
  apply find_some in Hf as [-> _]. unfold on_throw, awaited.
  by destruct (with_outbox _ _) as [[e|x] s2].
Qed.

(** A guarded update whose function keeps identity, validity and claims keeps
    the invariant, and is the step [R] on the record it changes. *)
Lemma guarded_inv tn id g f s : records_inv s ->
  (forall r, mapGet id (recordsById s) = Some r -> g r = true ->
     identity (f r) = identity r /\ learningProposalRecordSchema (f r) = Ok (f r) /\ claim_ok (f r)) ->
  records_inv (guarded_update tn id g f s).2.
Proof.
  intros Hs Hf. unfold guarded_update. destruct (findScopedRecord tn id s) as [r|] eqn:Hr; [|done].
  destruct (g r) eqn:Hg; [|done]. apply find_some in Hr as [Hr _].
  destruct (Hf r Hr Hg) as (Hid & Hv & Hc). unfold identity in Hid.
  assert (lp_id (f r) = lp_id r /\ lp_kf (f r) = lp_kf r) as [Hi Hk].
  { injection Hid as ? ? ? _ _ _ _ _ _ _ _ _. unfold lp_kf. by split; [|f_equal]. }
  split; simpl.
  - by apply (index_update _ _ _ _ _ r (f r) (ri_index _ Hs)).
  - intros id' q. rewrite mapGet_set. case_bool_decide; [by intros [= <-]|apply Hs].
  - intros id' q. rewrite mapGet_set. case_bool_decide; [by intros [= <-]|apply Hs].
Qed.

(** The outbox is not part of the records. *)
Lemma records_inv_outbox s o : records_inv s -> records_inv (s <| outbox := o |>).
Proof. intros [? ? ?]. by split. Qed.
End operations.

(** ** Calls and histories *)

Inductive proposal_call :=
  | CCreate (tenantId : string) (p : CreateLearningProposalParams)
  | CEvaluate (tenantId id : string) (p : RecordLearningProposalEvaluationParams)
  | CApprove (tenantId id approvedBy : string)
  | CClaim (tenantId id : string) (o : PromotionClaimOptions)
  | CPromote (tenantId id versionRef token : string)
  | CRollBack (tenantId id versionRef : string).

Inductive proposal_answer :=
  | ARecord (r : option LearningProposalRecord)
  | AApproval (r : option ApproveLearningProposalResult)
  | AClaim (r : option PromotionClaim).

(** The instant a call reads: [claimPromotion] lets its caller set the clock. *)
Definition call_now (c : proposal_call) (env : call_env) : Z :=
  match c with CClaim _ _ o => co_now o ?: env_now env | _ => env_now env end.

Section exec.
Context `{Z : Zod} {O : Type} `{P : OutboxPort O}.
Import InMemoryProposals.

Definition answer {S A} (f : A -> proposal_answer) (m : M S A) : M S proposal_answer :=
  a ← m; mret (f a).

(** [approveAndEnqueue] awaits only after its last write (see
    [approve_cases]), so a history of calls is a sequence. *)
Definition memory_exec (c : proposal_call) (env : call_env) : M (State O) proposal_answer :=
  match c with
  | CCreate tn p => answer (fun r => ARecord (Some r)) (create env tn p)
  | CEvaluate tn id p => answer ARecord (recordEvaluation env tn id p)
  | CApprove tn id by_ => answer AApproval (approveAndEnqueue (fun s => s) env tn id by_)
  | CClaim tn id o => answer AClaim (claimPromotion env tn id o)
  | CPromote tn id v token => answer ARecord (markPromoted env tn id v token)
  | CRollBack tn id v => answer ARecord (markRolledBack env tn id v)
  end.
End exec.

Section exec_lemmas.
Context `{Z : Zod} {ZL : ZodLaws Z} {O : Type} {P : OutboxPort O} {OL : OutboxLaws O P}.
Import InMemoryProposals.
Implicit Types (s : State O) (r : LearningProposalRecord).

Record prop_inv s : Prop := {
  pi_records : records_inv s;
  pi_outbox : outbox_wf (outbox s);
}.

(** The proposal a call is about. *)
Definition call_target (c : proposal_call) : option string :=
  match c with
  | CCreate _ _ => None
  | CEvaluate _ id _ | CApprove _ id _ | CClaim _ id _ | CPromote _ id _ _ | CRollBack _ id _ =>
      Some id
  end.

(** The labels a call can give rise to. *)
Definition call_label (c : proposal_call) (env : call_env) (l : proposal_label) : Prop :=
  match c, l with
  | CEvaluate _ _ p, LEvaluate d => d = re_decision p
  | CApprove _ _ b, LApprove b' => b' = trim b
  | CClaim _ _ _, LClaim token _ => token = env_uuid env
  | CPromote _ _ v token, LPromote token' v' => token' = token /\ v' = trim v
  | CRollBack _ _ v, LRollBack v' => v' = trim v
  | _, _ => False
  end.

(** What a call does to the stored proposals: nothing, or one labelled step
    of the proposal it names. *)
Definition call_effect (c : proposal_call) (env : call_env) (s s' : State O) : Prop :=
  forall id r, mapGet id (recordsById s) = Some r ->
    exists r', mapGet id (recordsById s') = Some r' /\
      (r' = r \/ exists l, call_target c = Some id /\ call_label c env l /\
         proposal_step (call_now c env) l r r').

Lemma call_effect_same c env s s' : recordsById s' = recordsById s -> call_effect c env s s'.
Proof. intros He id r Hr. exists r. rewrite He. auto. Qed.

(** Every step keeps identity and the claim invariant. *)
Lemma proposal_step_identity now l r r' : proposal_step now l r r' -> identity r' = identity r.
Proof. by intros []. Qed.

Lemma proposal_step_claim now l r r' : proposal_step now l r r' -> claim_ok r -> claim_ok r'.
Proof.
  intros Hst [H1 H2].
  destruct Hst as [r p|r by_|r token e Hs|r token v Hs|r v Hs]; unfold claim_ok; simpl;
    split; try done; try (split; done).
  intros Hn. apply H2 in Hn. congruence.
Qed.

(** A guarded update whose guard licenses a step. *)
Lemma guarded_effect c env l tn id g f s : prop_inv s ->
  call_target c = Some id ->
  (forall r, mapGet id (recordsById s) = Some r -> g r = true ->
     call_label c env (l r) /\ proposal_step (call_now c env) (l r) r (f r) /\
     learningProposalRecordSchema (f r) = Ok (f r)) ->
  prop_inv (guarded_update tn id g f s).2 /\ call_effect c env s (guarded_update tn id g f s).2.
Proof.
  intros Hs Hc Hf. split.
  - split.
    + apply guarded_inv; [apply Hs|]. intros r Hr Hg. destruct (Hf r Hr Hg) as (_ & Hst & Hv).
      split_and!; [by eapply proposal_step_identity|done|].
      eapply proposal_step_claim; [done|]. by eapply (ri_claim _ (pi_records _ Hs)).
    + unfold guarded_update. destruct (findScopedRecord tn id s) as [q|]; [|apply Hs].
      destruct (g q); apply Hs.
  - intros id' r Hr. unfold guarded_update.
    destruct (findScopedRecord tn id s) as [q|] eqn:Hq; [|eauto]. destruct (g q) eqn:Hg; [|eauto].
    apply find_some in Hq as [Hq _]. simpl. rewrite mapGet_set. case_bool_decide as He; [|eauto].
    subst id'. rewrite Hr in Hq. injection Hq as <-. eexists. split; [done|]. right.
    destruct (Hf r Hr Hg) as (? & ? & _). eauto.
Qed.

Lemma create_exec env tn p s : prop_inv s -> mapGet (env_uuid env) (recordsById s) = None ->
  prop_inv (create env tn p s).2 /\ call_effect (CCreate tn p) env s (create env tn p s).2.
Proof.
  intros Hs Hf. unfold create, store. msimpl. destruct (tenantIdSchema tn) as [tn'|].
  2: { split; [done|by apply call_effect_same]. }
  destruct (createLearningProposalParamsSchema p) as [p'|] eqn:Hp.
  2: { split; [done|by apply call_effect_same]. }
  destruct (indexed _ _ _) eqn:Hi; [split; [done|by apply call_effect_same]|].
  apply (indexed_none _ _ _ _ _ (ri_index _ (pi_records _ Hs))) in Hi.
  destruct (learningProposalRecordSchema _) as [r|] eqn:Hr.
  2: { split; [done|by apply call_effect_same]. }
  pose proof (idem_parse _ _ Hr) as Hr'.
  destruct (proposalSchema_fields _ _ Hr) as (Hu & _ & Hid & Htn & Hkey & Hst & Htok & Hexp).
  simpl in *. unfold createLearningProposalParamsSchema in Hp. schema_fields Hp. subst p'.
  simpl in Hkey, Hi. rewrite trim_idem in Hkey.
  assert (key tn' (trim (cl_proposalKey p)) = lp_kf r) as Hkf by (unfold lp_kf; by rewrite Htn, Hkey).
  cbn [cl_proposalKey] in *. rewrite Hkf in *. rewrite <- Hid in Hf. destruct (pi_records _ Hs) as [A B C].
  split; [split; [split|apply Hs]|]; simpl.
  - apply index_insert; try done. rewrite Hid. by apply uuid_nonempty.
  - intros id q. rewrite mapGet_set. case_bool_decide; [by intros [= <-]|apply B].
  - intros id q. rewrite mapGet_set. case_bool_decide; [intros [= <-]|apply C].
    unfold claim_ok. by rewrite Htok, Hexp.
  - intros id q Hq. exists q. simpl. rewrite mapGet_set_ne; [auto|]. intros <-. congruence.
Qed.

(** [crypto.randomUUID()] yields a well-formed id that no record has. *)
Definition env_ok (env : call_env) s : Prop :=
  zod_uuid (env_uuid env) = true /\ mapGet (env_uuid env) (recordsById s) = None.

Lemma approval_command_ok r : learningProposalRecordSchema r = Ok r ->
  command_ok (learningProposalApprovalOutboxCommand r).
Proof. intros H. destruct (proposalSchema_fields _ _ H) as (_ & ? & _). by split_and!. Qed.

(** An operation whose arguments do not parse changes nothing. *)
Ltac bad_parse H := rewrite H; msimpl; split; [done|by apply call_effect_same].

Lemma evaluate_exec env tn id p s : prop_inv s ->
  prop_inv (recordEvaluation env tn id p s).2 /\
  call_effect (CEvaluate tn id p) env s (recordEvaluation env tn id p s).2.
Proof.
  intros Hs. destruct (tenantIdSchema tn) as [tn'|] eqn:Ht.
  2: { unfold recordEvaluation. bad_parse Ht. }
  apply tenantIdSchema_ok in Ht as Htz. destruct Htz as [Hz ->].
  destruct (recordLearningProposalEvaluationParamsSchema p) as [p'|] eqn:Hp.
  2: { unfold recordEvaluation. rewrite Ht. bad_parse Hp. }
  rewrite (recordEvaluation_eq env tn id p p' s (pi_records _ Hs) Hz Hp).
  destruct (evaluationParams_fields _ _ Hp) as [Hd Hr].
  pose proof (guarded_effect (CEvaluate tn id p) env (fun _ => LEvaluate (re_decision p')) tn id
    (fun r => evaluable (lp_status r) && negb (hasActivePromotionClaim r (env_now env)))
    (fun r => evaluated r p' (env_now env)) s Hs eq_refl) as H.
  destruct (guarded_update _ _ _ _ _) as [o s']. apply H.
  intros r Hg [He Ha]%andb_true_iff. split_and!; [done| |].
  - apply step_evaluate; [by apply bool_decide_eq_true in He|by apply negb_true_iff].
  - apply evaluated_valid; [by eapply (ri_valid _ (pi_records _ Hs))|done].
Qed.

Lemma claim_exec env tn id o s : prop_inv s -> zod_uuid (env_uuid env) = true ->
  prop_inv (claimPromotion env tn id o s).2 /\
  call_effect (CClaim tn id o) env s (claimPromotion env tn id o s).2.
Proof.
  intros Hs Hu. destruct (tenantIdSchema tn) as [tn'|] eqn:Ht.
  2: { unfold claimPromotion. bad_parse Ht. }
  apply tenantIdSchema_ok in Ht as Htz. destruct Htz as [Hz ->].
  destruct (promotionClaimOptionsSchema o) as [o'|] eqn:Ho.
  2: { unfold claimPromotion. rewrite Ht. bad_parse Ho. }
  destruct (claimOptions_fields _ _ Ho) as (_ & ms & Hms & _ & Hlo & Hhi).
  rewrite (claimPromotion_eq env tn id o o' ms s (pi_records _ Hs) Hz Hu Ho Hms). cbv zeta.
  set (now := co_now o ?: env_now env).
  pose proof (guarded_effect (CClaim tn id o) env (fun _ => LClaim (env_uuid env) (now + ms)) tn id
    (fun r => bool_decide (lp_status r = prop_approved) && negb (hasActivePromotionClaim r now))
    (fun r => claimed r (env_uuid env) (now + ms) now) s Hs eq_refl) as H.
  destruct (guarded_update _ _ _ _ _) as [r0 s']. apply H.
  intros r Hg [He Ha]%andb_true_iff. split_and!; [done| |].
  - apply step_claim; [by apply bool_decide_eq_true in He|by apply negb_true_iff|].
    change (call_now (CClaim tn id o) env) with now. lia.
  - apply claimed_valid; [by eapply (ri_valid _ (pi_records _ Hs))|done].
Qed.

Lemma promote_exec env tn id v token s : prop_inv s ->
  prop_inv (markPromoted env tn id v token s).2 /\
  call_effect (CPromote tn id v token) env s (markPromoted env tn id v token s).2.
Proof.
  intros Hs. destruct (tenantIdSchema tn) as [tn'|] eqn:Ht.
  2: { unfold markPromoted. bad_parse Ht. }
  apply tenantIdSchema_ok in Ht as Htz. destruct Htz as [Hz ->].
  destruct (nonEmptyText v) as [v'|] eqn:Hv.
  2: { unfold markPromoted. rewrite Ht. bad_parse Hv. }
  destruct (uuid token) as [tk|] eqn:Hk.
  2: { unfold markPromoted. rewrite Ht, Hv. bad_parse Hk. }
  apply uuid_ok in Hk as [Hk ->].
  rewrite (markPromoted_eq env tn id v v' token s (pi_records _ Hs) Hz Hv Hk).
  pose proof (guarded_effect (CPromote tn id v token) env (fun _ => LPromote token v') tn id
    (fun r => bool_decide (lp_status r = prop_approved) &&
        bool_decide (lp_promotionClaimToken r = Some token) && hasActivePromotionClaim r (env_now env))
    (fun r => promoted r v' (env_now env)) s Hs eq_refl) as H.
  destruct (guarded_update _ _ _ _ _) as [r0 s']. apply H.
  pose proof (nonEmptyText_nonempty _ _ Hv). apply nonEmptyText_ok in Hv as [_ ->].
  intros r Hg [[He Ha]%andb_true_iff Hc]%andb_true_iff. apply bool_decide_eq_true in He, Ha.
  split_and!; [done|by apply step_promote|].
  apply promoted_valid. by eapply (ri_valid _ (pi_records _ Hs)).
Qed.

Lemma rollback_exec env tn id v s : prop_inv s ->
  prop_inv (markRolledBack env tn id v s).2 /\
  call_effect (CRollBack tn id v) env s (markRolledBack env tn id v s).2.
Proof.
  intros Hs. destruct (tenantIdSchema tn) as [tn'|] eqn:Ht.
  2: { unfold markRolledBack. bad_parse Ht. }
  apply tenantIdSchema_ok in Ht as Htz. destruct Htz as [Hz ->].
  destruct (nonEmptyText v) as [v'|] eqn:Hv.
  2: { unfold markRolledBack. rewrite Ht. bad_parse Hv. }
  rewrite (markRolledBack_eq env tn id v v' s (pi_records _ Hs) Hz Hv).
  pose proof (guarded_effect (CRollBack tn id v) env (fun _ => LRollBack v') tn id
    (fun r => bool_decide (lp_status r = prop_promoted))
    (fun r => rolledBack r v' (env_now env)) s Hs eq_refl) as H.
  destruct (guarded_update _ _ _ _ _) as [r0 s']. apply H.
  pose proof (nonEmptyText_nonempty _ _ Hv). apply nonEmptyText_ok in Hv as [_ ->].
  intros r Hg He. apply bool_decide_eq_true in He.
  split_and!; [done|by apply step_rollback|].
  apply rolledBack_valid. by eapply (ri_valid _ (pi_records _ Hs)).
Qed.

(** The guarded update of an approval, before the outbox write. *)
Lemma approve_guarded env tn id by_ by' s : prop_inv s -> zod_uuid tn = true ->
  nonEmptyText by_ = Ok by' ->
  let '(o, s1) := guarded_update tn id
    (fun r => bool_decide (lp_status r = prop_requires_approval))
    (fun r => approved r by' (env_now env)) s in
  prop_inv s1 /\ call_effect (CApprove tn id by_) env s s1 /\
  forall u, o = Some u -> learningProposalRecordSchema u = Ok u.
Proof.
  intros Hs Hz Hb.
  pose proof (guarded_effect (CApprove tn id by_) env (fun _ => LApprove by') tn id
    (fun r => bool_decide (lp_status r = prop_requires_approval))
    (fun r => approved r by' (env_now env)) s Hs eq_refl) as H.
  assert (forall r, mapGet id (recordsById s) = Some r ->
    learningProposalRecordSchema (approved r by' (env_now env)) =
      Ok (approved r by' (env_now env))) as Hv.
  { intros r Hr. apply approved_valid. by eapply (ri_valid _ (pi_records _ Hs)). }
  apply nonEmptyText_ok in Hb as [_ ->].
  destruct (guarded_update _ _ _ _ _) as [o s'] eqn:Hg. simpl in H. split_and!; try apply H.
  1,2: intros r Hr He; apply bool_decide_eq_true in He; split_and!; [done|by apply step_approve|auto].
  intros u ->. unfold guarded_update in Hg.
  destruct (findScopedRecord tn id s) as [r|] eqn:Hf; [|done]. destruct (bool_decide _); [|done].
  injection Hg as <- _. apply Hv. by apply find_some in Hf as [? _].
Qed.

(** The outbox accepts the approval event, so an approval never fails; its
    await comes after all its writes, so what runs meanwhile runs after it. *)
Lemma approve_cases others env tn id by_ s : prop_inv s ->
  exists o s1, approveAndEnqueue (fun s => s) env tn id by_ s = (o, s1) /\
    prop_inv s1 /\ call_effect (CApprove tn id by_) env s s1 /\
    approveAndEnqueue others env tn id by_ s =
      (o, match o with Ok (Some _) => others s1 | _ => s1 end) /\
    match o with
    | Ok (Some a) =>
        mapGet id (recordsById s1) = Some (approved_proposal a) /\
        lp_status (approved_proposal a) = prop_approved /\
        outbox_enqueue env (learningProposalApprovalOutboxCommand (approved_proposal a)) (outbox s) =
          (Ok (approved_outboxEvent a), outbox s1)
    | _ => s1 = s
    end.
Proof.
  intros Hs. destruct (tenantIdSchema tn) as [tn'|] eqn:Ht.
  2: { unfold approveAndEnqueue. rewrite Ht. msimpl. eexists _, s.
       split_and!; try done. by apply call_effect_same. }
  apply tenantIdSchema_ok in Ht as Htz. destruct Htz as [Hz ->].
  destruct (nonEmptyText by_) as [by'|] eqn:Hb.
  2: { unfold approveAndEnqueue. rewrite Ht, Hb. msimpl. eexists _, s.
       split_and!; try done. by apply call_effect_same. }
  rewrite !(approve_eq _ env tn id by_ by' s (pi_records _ Hs) Hz Hb).
  pose proof (approve_guarded env tn id by_ by' s Hs Hz Hb) as Hg.
  destruct (guarded_update _ _ _ _ _) as [[u|] s1] eqn:Hu.
  - destruct Hg as (Hs1 & He & Hv). specialize (Hv u eq_refl).
    destruct (outbox_accepts env _ _ (pi_outbox _ Hs1) (approval_command_ok _ Hv))
      as (e & ob & Hen & Hwf & _).
    unfold with_outbox. rewrite Hen. eexists _, _. split_and!; try done; simpl.
    + split; [apply records_inv_outbox, Hs1|done].
    + unfold guarded_update in Hu. destruct (findScopedRecord tn id s) as [r|]; [|done].
      destruct (bool_decide _); [|done]. injection Hu as <- <-. split_and!; [apply mapGet_set_eq|done|exact Hen].
  - destruct Hg as (Hs1 & He & _). eexists _, _. split_and!; try done.
    unfold guarded_update in Hu. destruct (findScopedRecord tn id s) as [r|]; [|by injection Hu].
    destruct (bool_decide _); [done|by injection Hu].
Qed.

(** One call: the invariants hold afterwards and its effect is the machine's. *)
Lemma memory_exec_effect c env s : prop_inv s -> env_ok env s ->
  prop_inv (memory_exec c env s).2 /\ call_effect c env s (memory_exec c env s).2.
Proof.
  intros Hs [Hu Hf].
  assert (forall A (f : A -> proposal_answer) (m : M (State O) A), (answer f m s).2 = (m s).2) as Ha.
  { intros A f m. unfold answer. msimpl. by destruct (m s) as [[a|e] s']. }
  destruct c as [tn p|tn id p|tn id b|tn id o|tn id v k|tn id v]; simpl; rewrite Ha.
  - by apply create_exec.
  - by apply evaluate_exec.
  - destruct (approve_cases (fun s => s) env tn id b s Hs) as (o & s1 & -> & ? & ? & _). done.
  - by apply claim_exec.
  - by apply promote_exec.
  - by apply rollback_exec.
Qed.
End exec_lemmas.

(** ** Postgres against memory *)

Section refinement.
Context `{Z : Zod} {ZL : ZodLaws Z} {E : SqlEngine} {L : SqlLaws E}.
Import PostgresProposals.

(** The in-memory repository, over the Postgres outbox table. *)
Abbreviation mem := (InMemoryProposals.State (table OutboxRow)).
Implicit Types (s : mem) (db : Db) (r : LearningProposalRecord).

Definition postgres_exec (c : proposal_call) (env : call_env) : M Db proposal_answer :=
  match c with
  | CCreate tn p => answer (fun r => ARecord (Some r)) (create env tn p)
  | CEvaluate tn id p => answer ARecord (recordEvaluation (fun db => db) env tn id p)
  | CApprove tn id by_ => answer AApproval (approveAndEnqueue env tn id by_)
  | CClaim tn id o => answer AClaim (claimPromotion env tn id o)
  | CPromote tn id v token => answer ARecord (markPromoted env tn id v token)
  | CRollBack tn id v => answer ARecord (markRolledBack env tn id v)
  end.

(** Same bag of proposals, same outbox. *)
Definition db_rel s db : Prop :=
  table_rel (InMemoryProposals.recordsById s) (learning_proposals db) /\
  event_outbox db = InMemoryProposals.outbox s.

Lemma where_id_spec tn id r : where_id tn id r =
  bool_decide (lp_id r = id) && bool_decide (lp_tenantId r = tn).
Proof. unfold where_id. sql_simpl. apply andb_comm. Qed.

Lemma unclaimed_spec now r : claim_ok r ->
  holds (unclaimed now r) = negb (hasActivePromotionClaim r now).
Proof.
  intros [H1 _]. unfold unclaimed, hasActivePromotionClaim. rewrite holds_or.
  destruct (lp_promotionClaimToken r), (lp_promotionClaimExpiresAt r) as [e|]; simpl; try done.
  - unfold holds; simpl. destruct (Z.leb_spec e now), (Z.ltb_spec now e); try done; lia.
  - by destruct H1 as [_ H1%(fun f => f eq_refl)].
Qed.

(** The conditional [UPDATE] of Postgres is the guarded update of memory. *)
Lemma update_refines (s : mem) t tn id (p g : LearningProposalRecord -> bool) f :
  records_inv s -> table_rel (InMemoryProposals.recordsById s) t ->
  (forall r, r ∈ mapValues (InMemoryProposals.recordsById s) ->
     p r = bool_decide (lp_id r = id) && (bool_decide (lp_tenantId r = tn) && g r)) ->
  (forall r, lp_id (f r) = lp_id r) ->
  (forall r, mapGet id (InMemoryProposals.recordsById s) = Some r ->
     learningProposalRecordSchema (f r) = Ok (f r)) ->
  let '(o, s') := guarded_update tn id g f s in
  first_mapped (update p f t).1 = Ok o /\
  table_rel (InMemoryProposals.recordsById s') (update p f t).2 /\
  InMemoryProposals.outbox s' = InMemoryProposals.outbox s /\
  match o with
  | Some u => (update p f t).1 = [u] /\ learningProposalRecordSchema u = Ok u
  | None => (update p f t).1 = []
  end.
Proof.
  intros Hs Ht Hp Hid Hv.
  pose proof (cas_refines lp_id _ t id p (fun r => bool_decide (lp_tenantId r = tn) && g r) f
    (ix_keyed _ _ _ _ (ri_index _ Hs)) Ht Hp Hid) as Hc.
  unfold guarded_update, InMemoryProposals.findScopedRecord.
  destruct (mapGet id _) as [r|] eqn:Hr; [|by destruct Hc as [-> ?]].
  specialize (Hv r eq_refl). case_bool_decide; simpl in Hc; [|by destruct Hc as [-> ?]].
  destruct (g r); [|by destruct Hc as [-> ?]]. destruct Hc as [-> Hrel]. simpl.
  unfold mapLearningProposal. rewrite Hv. by split_and!.
Qed.

Lemma claim_ok_stored s r : records_inv s ->
  r ∈ mapValues (InMemoryProposals.recordsById s) -> claim_ok r.
Proof.
  intros Hs Hr. apply (keyed_values lp_id) in Hr; [|apply (ri_index _ Hs)].
  by eapply (ri_claim _ Hs).
Qed.

Lemma valid_stored s r : records_inv s ->
  r ∈ mapValues (InMemoryProposals.recordsById s) -> learningProposalRecordSchema r = Ok r.
Proof.
  intros Hs Hr. apply (keyed_values lp_id) in Hr; [|apply (ri_index _ Hs)].
  by eapply (ri_valid _ Hs).
Qed.

(** Answers agree and the states stay related. *)
Definition agree {A} (m : M mem A) (p : M Db A) s db : Prop :=
  (m s).1 = (p db).1 /\ db_rel (m s).2 (p db).2.

Lemma agree_answer {A} (f : A -> proposal_answer) (m : M mem A) (p : M Db A) s db :
  agree m p s db -> agree (answer f m) (answer f p) s db.
Proof.
  unfold agree, answer. msimpl. destruct (m s) as [[a|e] s'], (p db) as [[a'|e'] db']; simpl;
    intros [H1 H2]; simplify_eq; done.
Qed.

Lemma claim_refines env tn id o s db : records_inv s -> db_rel s db ->
  canonical tn -> canonical id -> zod_uuid (env_uuid env) = true ->
  agree (InMemoryProposals.claimPromotion env tn id o) (claimPromotion env tn id o) s db.
Proof.
  intros Hs [Ht Ho] Hc Hi Hu. pose proof (canonical_uuid _ Hc) as Hz. unfold agree.
  destruct (promotionClaimOptionsSchema o) as [o'|x] eqn:Hopt.
  2: { unfold InMemoryProposals.claimPromotion, claimPromotion.
       rewrite (proj2 (tenantIdSchema_ok tn tn)), (db_uuid_canonical tn), (db_uuid_canonical id), Hopt by done. done. }
  destruct (claimOptions_fields _ _ Hopt) as (Hn & ms & Hms & _).
  rewrite (claimPromotion_eq env tn id o o' ms s Hs Hz Hu Hopt Hms). cbv zeta.
  unfold claimPromotion, transaction, on_proposals, tx_update.
  rewrite (db_uuid_canonical tn), (db_uuid_canonical id), Hopt by done. msimpl.
  rewrite Hn, Hms. simpl. set (now := co_now o ?: env_now env).
  pose proof (update_refines s (learning_proposals db) tn id
    (fun r => holds (sql_all [col_eq (lp_tenantId r) tn; col_eq (lp_id r) id;
       col_eq (lp_status r) prop_approved; unclaimed now r]))
    (fun r => bool_decide (lp_status r = prop_approved) && negb (hasActivePromotionClaim r now))
    (fun r => claimed r (env_uuid env) (now + ms) now) Hs Ht) as Hup.
  destruct (guarded_update _ _ _ _ _) as [u s']. destruct (update _ _ _) as [rs t'].
  destruct Hup as (Hf & Hrel & Hob & _); simpl in *.
  - intros r Hr. sql_simpl. rewrite unclaimed_spec by (by eapply claim_ok_stored).
    by destruct (bool_decide (lp_tenantId r = tn)), (bool_decide (lp_id r = id)).
  - done.
  - intros r Hr. apply claimed_valid; [by eapply (ri_valid _ Hs)|done].
  - rewrite Hf. simpl. split; [done|]. split; [done|]. simpl. congruence.
Qed.

Lemma promote_refines env tn id v token s db : records_inv s -> db_rel s db ->
  canonical tn -> canonical id -> as_printed token ->
  agree (InMemoryProposals.markPromoted env tn id v token) (markPromoted env tn id v token) s db.
Proof.
  intros Hs [Ht Ho] Hc Hi Htk. pose proof (canonical_uuid _ Hc) as Hz. unfold agree.
  destruct (nonEmptyText v) as [v'|x] eqn:Hv.
  2: { unfold InMemoryProposals.markPromoted, markPromoted.
       rewrite (proj2 (tenantIdSchema_ok tn tn)), (db_uuid_canonical tn), (db_uuid_canonical id), Hv by done. done. }
  destruct (uuid token) as [tk|x] eqn:Hk.
  2: { unfold InMemoryProposals.markPromoted, markPromoted.
       rewrite (proj2 (tenantIdSchema_ok tn tn)), (db_uuid_canonical tn), (db_uuid_canonical id), Hv by done.
       msimpl. by rewrite db_uuid_printed, Hk. }
  apply uuid_ok in Hk as Hk'. destruct Hk' as [Hk' ->].
  rewrite (markPromoted_eq env tn id v v' token s Hs Hz Hv Hk').
  unfold markPromoted, transaction, on_proposals, tx_update.
  rewrite (db_uuid_canonical tn), (db_uuid_canonical id), Hv by done. msimpl.
  rewrite db_uuid_printed, Hk by done. simpl.
  pose proof (update_refines s (learning_proposals db) tn id
    (fun r => holds (sql_all [col_eq (lp_tenantId r) tn; col_eq (lp_id r) id;
       col_eq (lp_status r) prop_approved; null_eq (lp_promotionClaimToken r) token;
       null_gt (lp_promotionClaimExpiresAt r) (env_now env)]))
    (fun r => bool_decide (lp_status r = prop_approved) &&
        bool_decide (lp_promotionClaimToken r = Some token) && hasActivePromotionClaim r (env_now env))
    (fun r => promoted r v' (env_now env)) Hs Ht) as Hup.
  destruct (guarded_update _ _ _ _ _) as [u s']. destruct (update _ _ _) as [rs t'].
  destruct Hup as (Hf & Hrel & Hob & _); simpl in *.
  - intros r Hr. sql_simpl. unfold hasActivePromotionClaim.
    destruct (bool_decide (lp_tenantId r = tn)), (bool_decide (lp_id r = id)),
      (bool_decide (lp_status r = prop_approved)); simpl; try done.
    case_bool_decide as Heq; [|done]. rewrite Heq. simpl.
    destruct (lp_promotionClaimExpiresAt r); [|done]. unfold holds. simpl. by destruct (_ <? _).
  - done.
  - intros r Hr. apply promoted_valid. by eapply (ri_valid _ Hs).
  - rewrite Hf. simpl. split; [done|]. split; [done|]. simpl. congruence.
Qed.

Lemma rollback_refines env tn id v s db : records_inv s -> db_rel s db ->
  canonical tn -> canonical id ->
  agree (InMemoryProposals.markRolledBack env tn id v) (markRolledBack env tn id v) s db.
Proof.
  intros Hs [Ht Ho] Hc Hi. pose proof (canonical_uuid _ Hc) as Hz. unfold agree.
  destruct (nonEmptyText v) as [v'|x] eqn:Hv.
  2: { unfold InMemoryProposals.markRolledBack, markRolledBack.
       rewrite (proj2 (tenantIdSchema_ok tn tn)), (db_uuid_canonical tn), (db_uuid_canonical id), Hv by done. done. }
  rewrite (markRolledBack_eq env tn id v v' s Hs Hz Hv).
  unfold markRolledBack, transaction, on_proposals, tx_update.
  rewrite (db_uuid_canonical tn), (db_uuid_canonical id), Hv by done. msimpl.
  pose proof (update_refines s (learning_proposals db) tn id
    (fun r => holds (sql_all [col_eq (lp_tenantId r) tn; col_eq (lp_id r) id;
       col_eq (lp_status r) prop_promoted]))
    (fun r => bool_decide (lp_status r = prop_promoted))
    (fun r => rolledBack r v' (env_now env)) Hs Ht) as Hup.
  destruct (guarded_update _ _ _ _ _) as [u s']. destruct (update _ _ _) as [rs t'].
  destruct Hup as (Hf & Hrel & Hob & _); simpl in *.
  - intros r Hr. sql_simpl. by destruct (bool_decide (lp_tenantId r = tn)), (bool_decide (lp_id r = id)).
  - done.
  - intros r Hr. apply rolledBack_valid. by eapply (ri_valid _ Hs).
  - rewrite Hf. simpl. split; [done|]. split; [done|]. simpl. congruence.
Qed.

Lemma find_row s db tn id : records_inv s -> db_rel s db ->
  select (where_id tn id) (learning_proposals db) =
    match InMemoryProposals.findScopedRecord tn id s with Some r => [r] | None => [] end.
Proof.
  intros Hs [Ht _].
  rewrite (select_keyed lp_id _ _ id _ (fun r => bool_decide (lp_tenantId r = tn))
    (ix_keyed _ _ _ _ (ri_index _ Hs)) Ht); [|intros; apply where_id_spec].
  unfold InMemoryProposals.findScopedRecord. destruct (mapGet id _); [|done]. by case_bool_decide.
Qed.

(** Objects that a [jsonb] column gives back as they are. *)
Definition evaluation_kept (p : RecordLearningProposalEvaluationParams) : Prop :=
  jsonb_in (re_evidenceSnapshot p) = re_evidenceSnapshot p /\
  jsonb_in (re_evaluationSnapshot p) = re_evaluationSnapshot p.
Definition proposal_kept (p : CreateLearningProposalParams) : Prop :=
  printed_or_null (cl_experimentId p) /\
  jsonb_in (cl_proposalPayload p) = cl_proposalPayload p.

Lemma evaluation_columns_ok p p' : evaluation_kept p ->
  recordLearningProposalEvaluationParamsSchema p = Ok p' -> evaluation_columns p' = p'.
Proof.
  intros [H1 H2] Hp. unfold recordLearningProposalEvaluationParamsSchema in Hp. schema_fields Hp.
  subst p'. unfold evaluation_columns. cbn. by rewrite H1, H2.
Qed.

Lemma proposal_columns_ok p p' : proposal_kept p ->
  createLearningProposalParamsSchema p = Ok p' -> proposal_columns p' = Ok p'.
Proof.
  intros [H1 H2] Hp. unfold createLearningProposalParamsSchema in Hp. schema_fields Hp.
  subst p'. unfold proposal_columns. cbn. rewrite H2. msimpl. by rewrite db_uuid_or_null_printed.
Qed.

Lemma evaluate_refines env tn id p s db : records_inv s -> db_rel s db ->
  canonical tn -> canonical id -> evaluation_kept p ->
  agree (InMemoryProposals.recordEvaluation env tn id p)
    (recordEvaluation (fun db => db) env tn id p) s db.
Proof.
  intros Hs Hdb Hc Hi Hj. pose proof (canonical_uuid _ Hc) as Hz. unfold agree.
  destruct (recordLearningProposalEvaluationParamsSchema p) as [p'|x] eqn:Hp.
  2: { unfold InMemoryProposals.recordEvaluation, recordEvaluation.
       rewrite (proj2 (tenantIdSchema_ok tn tn)), (db_uuid_canonical tn), (db_uuid_canonical id), Hp by done. done. }
  rewrite (recordEvaluation_eq env tn id p p' s Hs Hz Hp).
  unfold recordEvaluation, transaction_with, on_proposals, tx_update, tx_select, await.
  rewrite (db_uuid_canonical tn), (db_uuid_canonical id), Hp by done. msimpl. rewrite (evaluation_columns_ok p p') by done.
  rewrite (find_row s db tn id Hs Hdb). unfold guarded_update at 1 2.
  destruct (InMemoryProposals.findScopedRecord tn id s) as [r|] eqn:Hf; [|by destruct db].
  change (bool_decide (lp_status r ∈ _)) with (InMemoryProposals.evaluable (lp_status r)).
  destruct (InMemoryProposals.evaluable (lp_status r)) eqn:He; simpl; [|by destruct db].
  destruct (hasActivePromotionClaim r (env_now env)) eqn:Ha; simpl; [by destruct db|].
  destruct Hdb as [Ht Ho]. apply find_some in Hf as Hr. destruct Hr as [Hr Htn].
  pose proof (update_refines s (learning_proposals db) tn id
    (fun q => holds (sql_all [col_eq (lp_tenantId q) tn; col_eq (lp_id q) id;
       col_eq (lp_status q) (lp_status r); unclaimed (env_now env) q]))
    (fun q => InMemoryProposals.evaluable (lp_status q) && negb (hasActivePromotionClaim q (env_now env)))
    (fun q => evaluated q p' (env_now env)) Hs Ht) as Hup.
  unfold guarded_update in Hup. rewrite Hf, He, Ha in Hup. simpl in Hup.
  destruct (update _ _ _) as [rs t'].
  destruct Hup as (Hf' & Hrel & Hob & _); simpl in *.
  - intros q Hq. sql_simpl. rewrite unclaimed_spec by (by eapply claim_ok_stored).
    case_bool_decide as E1; [|by rewrite andb_false_r]. case_bool_decide as E2; [|done]. simpl.
    apply (keyed_values lp_id) in Hq; [|apply (ri_index _ Hs)]. rewrite E2, Hr in Hq.
    injection Hq as <-. rewrite He. by rewrite bool_decide_true.
  - done.
  - intros q Hq. apply evaluated_valid; [by eapply (ri_valid _ Hs)|by eapply evaluationParams_fields].
  - rewrite Hf'. simpl. split; [done|]. split; done.
Qed.

Lemma approve_refines env tn id by_ s db : records_inv s -> outbox_table_inv (event_outbox db) ->
  db_rel s db -> canonical tn -> canonical id ->
  agree (InMemoryProposals.approveAndEnqueue (fun s => s) env tn id by_)
    (approveAndEnqueue env tn id by_) s db.
Proof.
  intros Hs Hob [Ht Ho] Hc Hi. pose proof (canonical_uuid _ Hc) as Hz. unfold agree.
  destruct (nonEmptyText by_) as [by'|x] eqn:Hb.
  2: { unfold InMemoryProposals.approveAndEnqueue, approveAndEnqueue.
       rewrite (proj2 (tenantIdSchema_ok tn tn)), (db_uuid_canonical tn), (db_uuid_canonical id), Hb by done. done. }
  rewrite (approve_eq _ env tn id by_ by' s Hs Hz Hb).
  unfold approveAndEnqueue, transaction, on_proposals, tx_update.
  rewrite (db_uuid_canonical tn), (db_uuid_canonical id), Hb by done. msimpl.
  pose proof (update_refines s (learning_proposals db) tn id
    (fun r => holds (sql_all [col_eq (lp_tenantId r) tn; col_eq (lp_id r) id;
       col_eq (lp_status r) prop_requires_approval]))
    (fun r => bool_decide (lp_status r = prop_requires_approval))
    (fun r => approved r by' (env_now env)) Hs Ht) as Hup.
  destruct (guarded_update _ _ _ _ _) as [u s']. destruct (update _ _ _) as [rs t'].
  destruct Hup as (_ & Hrel & Hsame & Hu); simpl in *.
  { intros r Hr. sql_simpl. by destruct (bool_decide (lp_tenantId r = tn)), (bool_decide (lp_id r = id)). }
  { done. }
  { intros r Hr. apply approved_valid. by eapply (ri_valid _ Hs). }
  destruct u as [u|]; [destruct Hu as [-> Hv]|subst rs]; simpl.
  2: { split; [done|]. split; [done|]. simpl. congruence. }
  unfold mapLearningProposal. rewrite Hv. simpl.
  pose proof (approval_command_ok _ Hv) as Hcmd. set (cmd := learningProposalApprovalOutboxCommand u) in *.
  destruct (outbox_accepts (OutboxLaws := postgres_outbox_laws) env cmd _ Hob Hcmd)
    as (e & ob & Hen & _).
  unfold InMemoryProposals.with_outbox. simpl in Hen |- *. rewrite Hsame, <- Ho, Hen.
  unfold PostgresOutbox.enqueue in Hen. rewrite (proj2 (enqueue_schema_ok cmd cmd)) in Hen by done.
  unfold transaction, tx_insert, tx_select in Hen. unfold on_outbox, tx_insert, tx_select. msimpl.
  destruct (insert _ _ _) as [ins t1]. simpl in *.
  destruct (select _ t1) as [|row rest]; [done|].
  destruct (PostgresOutbox.mapRow row) as [e'|]; [|done]. injection Hen as -> ->.
  split; [done|]. by split.
Qed.

Lemma proposal_key_inj a b : zod_uuid (lp_tenantId a) = true -> zod_uuid (lp_tenantId b) = true ->
  lp_kf a = lp_kf b <-> lp_tenantId a = lp_tenantId b /\ lp_proposalKey a = lp_proposalKey b.
Proof.
  intros Ha Hb. unfold lp_kf, InMemoryProposals.key. split; [|by intros [-> ->]].
  apply colon_key_inj; by apply zod_uuid_no_colon.
Qed.

Lemma create_refines env tn p s db : records_inv s -> db_rel s db -> canonical tn -> proposal_kept p ->
  mapGet (env_uuid env) (InMemoryProposals.recordsById s) = None ->
  agree (InMemoryProposals.create env tn p) (create env tn p) s db.
Proof.
  intros Hs [Ht Ho] Hc Hj Hf. pose proof (canonical_uuid _ Hc) as Hz.
  unfold agree, InMemoryProposals.create, create.
  rewrite (proj2 (tenantIdSchema_ok tn tn)), db_uuid_canonical by done. msimpl.
  destruct (createLearningProposalParamsSchema p) as [p'|x] eqn:Hp; [|done].
  rewrite (proposal_columns_ok p p') by done. clear Hc.
  unfold transaction, on_proposals, tx_insert, tx_select, InMemoryProposals.store. msimpl.
  set (new := new_proposal (env_uuid env) tn p' (env_now env)).
  change (InMemoryProposals.key tn (cl_proposalKey p')) with (lp_kf new).
  set (m := InMemoryProposals.recordsById s) in *.
  assert (forall r, r ∈ mapValues m -> zod_uuid (lp_tenantId r) = true) as Htn.
  { intros r Hr. by destruct (proposalSchema_fields _ _ (valid_stored _ _ Hs Hr)) as (_ & ? & _). }
  assert (forall r, r ∈ mapValues m -> same_proposal new r = bool_decide (lp_kf r = lp_kf new)) as Hsame.
  { intros r Hr. apply eq_true_iff_eq. unfold same_proposal.
    rewrite andb_true_iff, !bool_decide_eq_true, (proposal_key_inj r new) by auto. naive_solver. }
  pose proof (index_conflict _ _ m _ (learning_proposals db) new same_proposal
    (where_key tn (cl_proposalKey p')) (ri_index _ Hs) Ht Hsame) as Hc.
  destruct (indexed m _ (lp_kf new)) as [r|]; lapply Hc; clear Hc.
  2,4: intros v Hv; rewrite <- Hsame by done; unfold where_key, same_proposal; sql_simpl;
    f_equal; apply bool_decide_ext; naive_solver.
  - intros (-> & Hsel & Hin). simpl. rewrite Hsel. unfold mapLearningProposal.
    rewrite (valid_stored _ _ Hs Hin). by split.
  - intros [_ Hc]. destruct (Hc Hf) as [Hins Hrel].
    destruct (insert same_proposal new _) as [ins t']. simpl in Hins, Hrel. subst ins. simpl.
    unfold mapLearningProposal. destruct (learningProposalRecordSchema new) as [r|x] eqn:Hnew; simpl.
    2: { split; [done|]. by split. }
    assert (r = new) as ->.
    { unfold createLearningProposalParamsSchema in Hp. schema_fields Hp. subst p'.
      unfold learningProposalRecordSchema, new, new_proposal in Hnew. cbn in Hnew.
      schema_fields Hnew. subst r. unfold new, new_proposal. cbn. by rewrite !trim_idem. }
    split; [done|]. by split.
Qed.

(** A call whose ids are written as the database prints them, and whose
    objects have their keys in the order [jsonb] keeps. *)
Definition call_columns_ok (c : proposal_call) : Prop :=
  match c with
  | CCreate tn p => canonical tn /\ proposal_kept p
  | CEvaluate tn id p => canonical tn /\ canonical id /\ evaluation_kept p
  | CApprove tn id _ | CClaim tn id _ | CRollBack tn id _ => canonical tn /\ canonical id
  | CPromote tn id _ token => canonical tn /\ canonical id /\ as_printed token
  end.

Lemma exec_refines c env s db : prop_inv s -> db_rel s db -> call_columns_ok c -> env_ok env s ->
  agree (memory_exec c env) (postgres_exec c env) s db.
Proof.
  intros [Hs Hob] Hdb Hc [Hu Hf]. pose proof (proj2 Hdb) as Ho. simpl in Hob. rewrite <- Ho in Hob.
  destruct c as [tn p|tn id p|tn id b|tn id o|tn id v k|tn id v]; simpl in Hc |- *;
    apply agree_answer; destruct Hc as [Hz Hi].
  - by apply create_refines.
  - destruct Hi. by apply evaluate_refines.
  - by apply approve_refines.
  - by apply claim_refines.
  - destruct Hi. by apply promote_refines.
  - by apply rollback_refines.
Qed.
End refinement.

(** ** Histories of calls *)

Section history_lemmas.
Context `{Z : Zod} {ZL : ZodLaws Z} {O : Type} {P : OutboxPort O} {OL : OutboxLaws O P}.
Import InMemoryProposals.
Implicit Types (s : State O) (r : LearningProposalRecord) (cs : list (proposal_call * call_env)).

(** Every call gets a well-formed id that no record has yet. *)
Fixpoint envs_ok cs s : Prop :=
  match cs with
  | [] => True
  | (c, env) :: cs' => env_ok env s /\ envs_ok cs' (memory_exec c env s).2
  end.

(** A labelled step of the history, justified by one of its calls. *)
Definition justified cs (id : string) (e : BinNums.Z * proposal_label) : Prop :=
  exists c env, (c, env) ∈ cs /\ call_target c = Some id /\ call_label c env e.2 /\
    call_now c env = e.1.

Lemma justified_mono cs ce id e : justified cs id e -> justified (ce :: cs) id e.
Proof. intros (c & env & Hin & H). exists c, env. split; [by right|done]. Qed.

(** The stored proposal runs through the abstract machine. *)
Lemma history_run cs s id r : prop_inv s -> envs_ok cs s ->
  mapGet id (recordsById s) = Some r ->
  exists ls r', mapGet id (recordsById (history memory_exec cs s).2) = Some r' /\
    proposal_run ls r r' /\ Forall (justified cs id) ls.
Proof.
  revert s r. induction cs as [|[c env] cs IH]; intros s r Hs Henv Hr; simpl.
  { exists [], r. split_and!; [done|constructor|constructor]. }
  destruct Henv as [Hok Henv]. destruct (memory_exec_effect c env s Hs Hok) as [Hs' He].
  destruct (He id r Hr) as (r1 & Hr1 & Hst).
  destruct (memory_exec c env s) as [a s1]. simpl in *.
  destruct (IH s1 r1 Hs' Henv Hr1) as (ls & r' & Hr' & Hrun & Hj).
  destruct (history memory_exec cs s1) as [rs s2]. simpl in *.
  destruct Hst as [->|(l & Ht & Hl & Hst)].
  - exists ls, r'. split_and!; try done. eapply Forall_impl; [exact Hj|]. intros; by apply justified_mono.
  - exists ((call_now c env, l) :: ls), r'. split_and!; [done|by econstructor|]. constructor.
    + exists c, env. split_and!; try done. by left.
    + eapply Forall_impl; [exact Hj|]. intros; by apply justified_mono.
Qed.

Lemma history_inv cs s : prop_inv s -> envs_ok cs s -> prop_inv (history memory_exec cs s).2.
Proof.
  revert s. induction cs as [|[c env] cs IH]; intros s Hs Henv; simpl; [done|].
  destruct Henv as [Hok Henv]. destruct (memory_exec_effect c env s Hs Hok) as [Hs' _].
  destruct (memory_exec c env s) as [a s1]. specialize (IH s1 Hs' Henv).
  by destruct (history memory_exec cs s1).
Qed.

(** While a lease is active, only its own token moves the proposal. *)
Lemma active_step now l r r' token : claim_ok r -> lp_promotionClaimToken r = Some token ->
  hasActivePromotionClaim r now = true -> proposal_step now l r r' ->
  exists v, l = LPromote token v.
Proof.
  intros [_ Hc] Ht Ha Hst. assert (lp_status r = prop_approved) as Hs by (apply Hc; congruence).
  destruct Hst as [r p ? ?|r by_ ?|r tk e ? ? ?|r tk v ? ? ? ?|r v ? ?]; try congruence.
  exists v. congruence.
Qed.

(** What a promotion rests on, read off the history backwards: an approval or
    a promoting evaluation, then the claim, then the promotion. *)
Definition licensed (ls : list (BinNums.Z * proposal_label)) : Prop :=
  exists t, (t, LEvaluate dec_promote) ∈ ls \/ exists by_, (t, LApprove by_) ∈ ls.

(** The invariant that carries the backward reading through a run. *)
Definition run_state (ls : list (BinNums.Z * proposal_label)) r : Prop :=
  claim_ok r /\
  (lp_status r = prop_approved -> licensed ls) /\
  (forall token, lp_promotionClaimToken r = Some token ->
     exists pre t e, ls = pre ++ [(t, LClaim token e)] /\ lp_promotionClaimExpiresAt r = Some e /\
       licensed pre) /\
  (lp_status r = prop_promoted \/ lp_status r = prop_rolled_back ->
     exists pre t0 t1 token e v post,
       ls = pre ++ [(t0, LClaim token e); (t1, LPromote token v)] ++ post /\ licensed pre /\ t1 < e /\
       (post = [] \/ exists t2 w, post = [(t2, LRollBack w)]) /\
       (lp_status r = prop_promoted -> post = [])).

Lemma licensed_app ls ls' : licensed ls -> licensed (ls ++ ls').
Proof.
  intros [t [H|[b H]]]; exists t; [left|right; exists b]; apply elem_of_app; by left.
Qed.

Lemma run_state_step now l r r' ls : run_state ls r -> proposal_step now l r r' ->
  run_state (ls ++ [(now, l)]) r'.
Proof.
  intros (Hc & Happ & Htok & Hprom) Hst. split; [by eapply proposal_step_claim|].
  destruct Hst as [r p Hs Ha|r by_ Hs|r tk e Hs Ha He|r tk v Hs Ht Ha Hv|r v Hs Hv]; simpl.
  - split_and!; [|done|].
    + intros Hd. exists now. left. apply elem_of_app. right. apply list_elem_of_singleton. f_equal.
      f_equal. by destruct (re_decision p).
    + intros Hd. exfalso. by destruct (re_decision p), Hd.
  - split_and!; [|done|by intros []]. intros _. exists now. right. exists by_.
    apply elem_of_app. right. by apply list_elem_of_singleton.
  - split_and!.
    + intros _. by apply licensed_app, Happ.
    + intros token [= <-]. exists ls, now, e. split_and!; [done|done|by apply Happ].
    + rewrite Hs. by intros [].
  - split_and!; [done|done|]. intros _. destruct (Htok _ Ht) as (pre & t & e & -> & Hexp & Hl).
    exists pre, t, now, tk, e, v, []. split_and!; [by rewrite <- app_assoc|done| |by left|done].
    unfold hasActivePromotionClaim in Ha. rewrite Ht, Hexp in Ha. by apply Z.ltb_lt.
  - split_and!; [done| |].
    + intros token Ht. exfalso. destruct Hc as [_ Hc]. rewrite Hc in Hs; [done|congruence].
    + intros _. destruct Hprom as (pre & t0 & t1 & token & e & v' & post & -> & Hl & Hlt & _ & Hpost);
        [by left|]. rewrite (Hpost Hs).
      exists pre, t0, t1, token, e, v', [(now, LRollBack v)].
      split_and!; [by rewrite app_nil_r, <- app_assoc|done|done|right; eauto|done].
Qed.

Lemma run_state_run ls0 ls r r' : run_state ls0 r -> proposal_run ls r r' ->
  run_state (ls0 ++ ls) r'.
Proof.
  intros H Hrun. revert ls0 H. induction Hrun as [r|now l ls r1 r2 r3 Hst Hrun IH]; intros ls0 H.
  - by rewrite app_nil_r.
  - replace (ls0 ++ (now, l) :: ls) with ((ls0 ++ [(now, l)]) ++ ls) by (by rewrite <- app_assoc).
    apply IH. by eapply run_state_step.
Qed.
End history_lemmas.

(** ** Theorems *)

Section theorems.
Context `{Z : Zod} {ZL : ZodLaws Z} {O : Type} {P : OutboxPort O} {OL : OutboxLaws O P}.
Import InMemoryProposals.
Implicit Types (s : State O) (r : LearningProposalRecord) (cs : list (proposal_call * call_env)).

(** C9. A promotion lease is exclusive: while the lease a proposal carries has
    not expired, no history of calls changes the proposal in any way (no
    second claim, no re-evaluation, no approval, no promotion, no rollback)
    unless it presents the lease's own token to [markPromoted]. *)
Theorem active_lease_is_exclusive cs s id r token expiresAt : prop_inv s -> envs_ok cs s ->
  mapGet id (recordsById s) = Some r ->
  lp_promotionClaimToken r = Some token -> lp_promotionClaimExpiresAt r = Some expiresAt ->
  (forall c env, (c, env) ∈ cs -> call_now c env < expiresAt /\
     (forall tn v, c ≠ CPromote tn id v token)) ->
  mapGet id (recordsById (history memory_exec cs s).2) = Some r.
Proof.
  intros Hs Henv Hr Ht He Hcs.
  destruct (history_run cs s id r Hs Henv Hr) as (ls & r' & Hr' & Hrun & Hj).
  pose proof (ri_claim _ (pi_records _ Hs) _ _ Hr) as Hc.
  destruct Hrun as [q|now l ls r1 r2 r3 Hst Hrun]; [done|]. exfalso.
  apply Forall_cons in Hj as [(c & env & Hin & Htg & Hl & Hnow) _]. simpl in *.
  destruct (Hcs _ _ Hin) as [Hlt Hne]. rewrite Hnow in Hlt.
  destruct (active_step now l r1 r2 token Hc Ht) as [v ->]; [|done|].
  { unfold hasActivePromotionClaim. rewrite Ht, He. by apply Z.ltb_lt. }
  destruct c as [| | | |tn i v' tk|]; try done. destruct Hl as [<- _]. injection Htg as ->.
  by destruct (Hne tn v').
Qed.

(** Promotion is fenced: [markPromoted] succeeds exactly when the tenant's
    proposal is approved and carries the presented token in a lease that has
    not expired; it then records the version, drops the lease, and answers
    [null] to any second attempt. *)
Theorem promotion_is_fenced env env' tn id v v' token s : prop_inv s ->
  zod_uuid tn = true -> zod_uuid token = true -> trim v ≠ "" -> trim v' ≠ "" ->
  ((exists u, (markPromoted env tn id v token s).1 = Ok (Some u)) <->
   exists r e, mapGet id (recordsById s) = Some r /\ lp_tenantId r = tn /\
     lp_status r = prop_approved /\ lp_promotionClaimToken r = Some token /\
     lp_promotionClaimExpiresAt r = Some e /\ env_now env < e) /\
  (forall u s', markPromoted env tn id v token s = (Ok (Some u), s') ->
     mapGet id (recordsById s') = Some u /\ lp_status u = prop_promoted /\
     lp_promotedVersionRef u = Some (trim v) /\ lp_promotionClaimToken u = None /\
     markPromoted env' tn id v' token s' = (Ok None, s')).
Proof.
  intros Hs Hz Hk Hv Hv'.
  pose proof (proj2 (nonEmptyText_ok v (trim v)) (conj Hv eq_refl)) as Hp.
  pose proof (proj2 (nonEmptyText_ok v' (trim v')) (conj Hv' eq_refl)) as Hp'.
  destruct (promote_exec env tn id v token s Hs) as [Hs' _].
  rewrite (markPromoted_eq env tn id v (trim v) token s (pi_records _ Hs) Hz Hp Hk) in Hs' |- *.
  unfold guarded_update in Hs' |- *. destruct (findScopedRecord tn id s) as [r|] eqn:Hf.
  2: { split; [split|done]; [by intros [u Hu]|]. intros (r & e & Hr & Htn & _).
       by rewrite (proj2 (find_some tn id s r)) in Hf. }
  apply find_some in Hf as [Hr Htn].
  destruct (_ && _) eqn:Hg; simpl in *.
  - apply andb_true_iff in Hg as [[Hst Htok]%andb_true_iff Ha]. apply bool_decide_eq_true in Hst, Htok.
    unfold hasActivePromotionClaim in Ha. rewrite Htok in Ha.
    destruct (lp_promotionClaimExpiresAt r) as [e|] eqn:He; [|done]. apply Z.ltb_lt in Ha.
    split; [split; eauto 10|]. intros u s' [= <- <-]. split_and!; try done; [apply mapGet_set_eq|].
    rewrite (markPromoted_eq env' tn id v' (trim v') token _ (pi_records _ Hs') Hz Hp' Hk).
    unfold guarded_update. rewrite (proj2 (find_some tn id _ (promoted r (trim v) (env_now env)))); [done|].
    split; [apply mapGet_set_eq|done].
  - split; [split|done]; [by intros [u Hu]|]. intros (q & e & Hq & _ & Hst & Htok & He & Hlt).
    rewrite Hr in Hq. injection Hq as <-. unfold hasActivePromotionClaim in Hg.
    rewrite Hst, Htok, He in Hg. rewrite !bool_decide_true in Hg by done.
    apply Z.ltb_lt in Hlt. by rewrite Hlt in Hg.
Qed.

(** C10. How a proposal gets promoted: in every history that starts with the
    proposal awaiting evidence and ends with it promoted or rolled back, the
    calls on it end with a claim immediately followed by a promotion that
    presents the same token before the lease expires (and at most one
    rollback), and before the claim the proposal was approved by a founder or
    passed an evaluation that decided to promote. *)
Theorem promotion_needs_license_and_lease cs s id r r' : prop_inv s -> envs_ok cs s ->
  mapGet id (recordsById s) = Some r -> lp_status r = prop_awaiting_evidence ->
  mapGet id (recordsById (history memory_exec cs s).2) = Some r' ->
  lp_status r' = prop_promoted \/ lp_status r' = prop_rolled_back ->
  exists pre t0 t1 token e v post,
    proposal_run (pre ++ [(t0, LClaim token e); (t1, LPromote token v)] ++ post) r r' /\
    Forall (justified cs id) (pre ++ [(t0, LClaim token e); (t1, LPromote token v)] ++ post) /\
    licensed pre /\ t1 < e /\ (post = [] \/ exists t2 w, post = [(t2, LRollBack w)]).
Proof.
  intros Hs Henv Hr Hst Hr' Hst'.
  destruct (history_run cs s id r Hs Henv Hr) as (ls & q & Hq & Hrun & Hj).
  rewrite Hr' in Hq. injection Hq as <-.
  pose proof (ri_claim _ (pi_records _ Hs) _ _ Hr) as Hc.
  assert (run_state [] r) as H0.
  { split_and!; [done|by rewrite Hst| |by rewrite Hst; intros []].
    intros tk Htk. destruct Hc as [_ Hc]. rewrite Hc in Hst; [done|congruence]. }
  destruct (run_state_run [] ls r r' H0 Hrun) as (_ & _ & _ & Hprom).
  destruct (Hprom Hst') as (pre & t0 & t1 & token & e & v & post & Heq & Hl & Hlt & Hpost & _).
  simpl in Heq. subst ls. exists pre, t0, t1, token, e, v, post. by split_and!.
Qed.

(** An approval and its outbox event are all or nothing, whatever the
    outbox does: on success the proposal is stored as approved by that
    founder and the outbox accepted its event; when the outbox throws, every
    proposal is as before; when the proposal is not awaiting approval nothing
    changes at all. *)
Theorem approval_is_all_or_nothing {Q : Type} {PQ : OutboxPort Q} env tn id by_ (s s' : State Q) o :
  records_inv s -> approveAndEnqueue (fun x => x) env tn id by_ s = (o, s') ->
  match o with
  | Ok (Some a) =>
      let u := approved_proposal a in
      mapGet id (recordsById s') = Some u /\ lp_tenantId u = tn /\ lp_status u = prop_approved /\
      lp_humanApprovedBy u = Some (trim by_) /\ lp_promotionClaimToken u = None /\
      (forall id', id' ≠ id -> mapGet id' (recordsById s') = mapGet id' (recordsById s)) /\
      outbox_enqueue env (learningProposalApprovalOutboxCommand u) (outbox s) =
        (Ok (approved_outboxEvent a), outbox s')
  | Ok None => s' = s
  | Err _ => forall id', mapGet id' (recordsById s') = mapGet id' (recordsById s)
  end.
Proof.
  intros Hs H. destruct (tenantIdSchema tn) as [tn'|] eqn:Ht.
  2: { unfold approveAndEnqueue in H. rewrite Ht in H. msimpl. by injection H as <- <-. }
  apply tenantIdSchema_ok in Ht as Htz. destruct Htz as [Hz ->].
  destruct (nonEmptyText by_) as [by'|] eqn:Hb.
  2: { unfold approveAndEnqueue in H. rewrite Ht, Hb in H. msimpl. by injection H as <- <-. }
  rewrite (approve_eq _ env tn id by_ by' s Hs Hz Hb) in H. apply nonEmptyText_ok in Hb as [_ ->].
  unfold guarded_update in H. destruct (findScopedRecord tn id s) as [r|] eqn:Hf; [|by injection H as <- <-].
  destruct (bool_decide _); [|by injection H as <- <-].
  apply find_some in Hf as [Hr Htn]. unfold with_outbox in H. simpl in H.
  destruct (outbox_enqueue _ _ _) as [[e|x] ob] eqn:Hen; injection H as <- <-; simpl.
  - split_and!; try done; [apply mapGet_set_eq|]. intros id' Hne. by apply mapGet_set_ne.
  - intros id'. rewrite !mapGet_set, Hr. case_bool_decide; by subst.
Qed.
End theorems.

Section postgres_theorems.
Context `{Z : Zod} {ZL : ZodLaws Z} {E : SqlEngine} {L : SqlLaws E}.


(** The Postgres evaluation reads and then writes, and is still safe when
    other transactions commit in between: a row it overwrites was, at the
    moment of the write, that tenant's proposal in a status that allows
    evaluation and without an active lease; otherwise it answers [null] and
    adds no write of its own. *)
Theorem postgres_evaluation_respects_leases others env tn id p db o db' :
  (forall r, r ∈ rows (PostgresProposals.learning_proposals (others db)) -> claim_ok r) ->
  PostgresProposals.recordEvaluation others env tn id p db = (Ok o, db') ->
  match o with
  | Some u => exists r p', r ∈ rows (PostgresProposals.learning_proposals (others db)) /\
      db_uuid id = Ok (lp_id r) /\ db_uuid tn = Ok (lp_tenantId r) /\
      lp_status r ∈ [prop_awaiting_evidence; prop_evaluating; prop_requires_approval; prop_approved] /\
      hasActivePromotionClaim r (env_now env) = false /\
      learningProposalRecordSchema (evaluated r p' (env_now env)) = Ok u /\
      re_decision p' = re_decision p
  | None => db' = db \/
      rows (PostgresProposals.learning_proposals db') ≡ₚ
        rows (PostgresProposals.learning_proposals (others db))
  end.
Proof.
  destruct db as [lp eo]. intros Hc. unfold PostgresProposals.recordEvaluation, transaction_with,
    PostgresProposals.on_proposals, tx_update, tx_select, await. msimpl.
  destruct (db_uuid tn) as [tn'|] eqn:Ht; [|done].
  destruct (db_uuid id) as [id'|] eqn:Hi; [|done].
  destruct (recordLearningProposalEvaluationParamsSchema p) as [p'|] eqn:Hp; [|done].
  destruct (select _ _) as [|cur rest] eqn:Hsel; [intros [= <- <-]; by left|].
  destruct (bool_decide (lp_status cur ∈ _)) eqn:Hst; simpl; [|intros [= <- <-]; by left].
  destruct (hasActivePromotionClaim cur _); simpl; [intros [= <- <-]; by left|].
  apply bool_decide_eq_true in Hst.
  set (q := fun r : LearningProposalRecord => holds _). set (f := fun r => evaluated r (PostgresProposals.evaluation_columns p') (env_now env)).
  pose proof (update_returning q f (PostgresProposals.learning_proposals (others (PostgresProposals.mkDb lp eo)))) as Hret.
  pose proof (update_rows q f (PostgresProposals.learning_proposals (others (PostgresProposals.mkDb lp eo)))) as Hrows.
  destruct (update q f _) as [rs t']. simpl in *.
  destruct rs as [|u rest']; simpl.
  - intros [= <- <-]. right. simpl. rewrite Hrows.
    symmetry in Hret. apply Permutation_nil_r, fmap_nil_inv in Hret.
    rewrite (list_fmap_ext _ Datatypes.id); [by rewrite list_fmap_id|].
    intros i r Hr. apply list_elem_of_lookup_2 in Hr. destruct (q r) eqn:Hq; [|done]. exfalso.
    apply (not_elem_of_nil r). rewrite <- Hret. by apply elem_of_bfilter.
  - unfold PostgresProposals.mapLearningProposal.
    destruct (learningProposalRecordSchema u) as [u'|] eqn:Hu; [|done]. intros [= <- <-].
    assert (u ∈ f <$> bfilter q (rows (PostgresProposals.learning_proposals (others (PostgresProposals.mkDb lp eo))))) as Hin.
    { rewrite <- Hret. by left. }
    apply list_elem_of_fmap in Hin as (r & -> & [Hq Hr]%elem_of_bfilter).
    unfold q in Hq. sql_simpl. rewrite unclaimed_spec in Hq by auto.
    rewrite !andb_true_iff, !bool_decide_eq_true, negb_true_iff in Hq.
    destruct Hq as (Htn & Hid & Hs & Ha). exists r, (PostgresProposals.evaluation_columns p').
    rewrite Hs, Hid, Htn. split_and!; try done. cbn.
    by apply evaluationParams_fields in Hp as [? _].
Qed.
End postgres_theorems.

(** ** Witnesses *)

Module ProposalsExample.
Import ZodExample InMemoryProposals.

Definition init : State InMemoryOutbox.State := mkState [] [] InMemoryOutbox.init.
Definition at_ (t : Z) (id : string) : call_env :=
  {| env_now := t; env_uuid := id; env_serial := 1 |}.

Definition params : CreateLearningProposalParams :=
  mkCreateProposal "critique-1" None "playbook" "outbound" risk_high [] None None "critique:1".
Definition ask : RecordLearningProposalEvaluationParams :=
  mkEvaluationParams dec_requires_approval [] [] ["Risk requires approval."].

Definition to_approved : list (proposal_call * call_env) :=
  [(CCreate tenant params, at_ 1000 id1); (CEvaluate tenant id1 ask, at_ 2000 id2);
   (CApprove tenant id1 " founder ", at_ 3000 id2)].
Definition claim : list (proposal_call * call_env) :=
  [(CClaim tenant id1 (mkClaimOptions None None), at_ 4000 id2)].
(** Others try everything they can while the lease is active. *)
Definition intruders : list (proposal_call * call_env) :=
  [(CClaim tenant id1 (mkClaimOptions None None), at_ 5000 id3);
   (CEvaluate tenant id1 ask, at_ 6000 id3); (CPromote tenant id1 "v9" id3, at_ 7000 id3);
   (CRollBack tenant id1 "v0", at_ 8000 id3)].
Definition finish : list (proposal_call * call_env) :=
  [(CPromote tenant id1 "v2" id2, at_ 9000 id3)].

Definition created : State InMemoryOutbox.State :=
  (history memory_exec [(CCreate tenant params, at_ 1000 id1)] init).2.
Definition leased : State InMemoryOutbox.State :=
  (history memory_exec (to_approved ++ claim) init).2.
Definition waiting : State InMemoryOutbox.State :=
  (history memory_exec (firstn 2 to_approved) init).2.

Definition stored (s : State InMemoryOutbox.State) : LearningProposalRecord :=
  match mapGet id1 (recordsById s) with
  | Some r => r
  | None => new_proposal id1 tenant params 0
  end.

Lemma init_inv : prop_inv init.
Proof. split; [split; [apply index_inv_nil|done..]|apply outbox_inv_init]. Qed.
Lemma leased_inv : prop_inv leased.
Proof. apply history_inv; [apply init_inv|]. vm_compute. repeat split. Qed.
Lemma created_inv : prop_inv created.
Proof. apply history_inv; [apply init_inv|]. vm_compute. repeat split. Qed.
Lemma waiting_inv : prop_inv waiting.
Proof. apply history_inv; [apply init_inv|]. vm_compute. repeat split. Qed.

(** The same over a Postgres outbox kept in a list. *)
Definition mem_pg : State (table (SqlEngine := ListEngine.list_engine) OutboxRow) := mkState [] [] [].
Definition db : PostgresProposals.Db (E := ListEngine.list_engine) :=
  PostgresProposals.mkDb (E := ListEngine.list_engine) [] [].
(** A concurrent transaction that grants a lease between two statements. *)
Definition racing (d : PostgresProposals.Db (E := ListEngine.list_engine)) :
    PostgresProposals.Db (E := ListEngine.list_engine) :=
  PostgresProposals.mkDb (E := ListEngine.list_engine) [stored leased] [].
Definition db_waiting : PostgresProposals.Db (E := ListEngine.list_engine) :=
  PostgresProposals.mkDb (E := ListEngine.list_engine) [stored waiting] [].
End ProposalsExample.

Section witnesses.
Import ZodExample InMemoryProposals ProposalsExample.

Lemma active_lease_is_exclusive_witness :
  mapGet id1 (recordsById (history memory_exec intruders leased).2) = Some (stored leased).
Proof.
  apply (active_lease_is_exclusive intruders leased id1 (stored leased) id2 64000 leased_inv);
    [vm_compute; repeat split|vm_compute; reflexivity..|].
  intros c env Hin. repeat (apply elem_of_cons in Hin as [[= -> ->]|Hin]; [split; [vm_compute; reflexivity|]|]).
  1-4: intros tn v; discriminate.
  by apply not_elem_of_nil in Hin.
Defined.

Lemma promotion_is_fenced_witness :
  exists u, (markPromoted (at_ 9000 id3) tenant id1 "v2" id2 leased).1 = Ok (Some u).
Proof.
  apply (promotion_is_fenced (at_ 9000 id3) (at_ 9001 id3) tenant id1 "v2" "v3" id2 leased leased_inv);
    [vm_compute; reflexivity..|vm_compute; discriminate|vm_compute; discriminate|].
  exists (stored leased), 64000. split_and!; vm_compute; reflexivity.
Defined.

Lemma promotion_needs_license_and_lease_witness :
  exists pre t0 t1 token e v post,
    proposal_run (pre ++ [(t0, LClaim token e); (t1, LPromote token v)] ++ post) (stored created)
      (stored (history memory_exec (tl to_approved ++ claim ++ finish) created).2) /\
    Forall (justified (tl to_approved ++ claim ++ finish) id1)
      (pre ++ [(t0, LClaim token e); (t1, LPromote token v)] ++ post) /\
    licensed pre /\ t1 < e /\ (post = [] \/ exists t2 w, post = [(t2, LRollBack w)]).
Proof.
  apply (promotion_needs_license_and_lease (tl to_approved ++ claim ++ finish) created id1
    (stored created) _ created_inv);
    [vm_compute; repeat split|vm_compute; reflexivity..|left; vm_compute; reflexivity].
Defined.

Lemma approval_is_all_or_nothing_witness :
  lp_humanApprovedBy (stored (history memory_exec to_approved init).2) = Some "founder".
Proof.
  destruct (approveAndEnqueue (fun x => x) (at_ 3000 id2) tenant id1 " founder " waiting) as [o s'] eqn:H.
  pose proof (approval_is_all_or_nothing (at_ 3000 id2) tenant id1 " founder " waiting s' o
    (pi_records _ waiting_inv) H) as Hx.
  destruct o as [[a|]|e]; [|vm_compute in H; discriminate H..].
  destruct Hx as (Hg & _ & _ & Hb & _). vm_compute in H. injection H as <- <-. exact Hb.
Defined.


(** The evaluation read the proposal before the lease was granted, and lost. *)
Lemma postgres_evaluation_respects_leases_witness :
  exists o db', PostgresProposals.recordEvaluation (E := ListEngine.list_engine) racing
    (at_ 5000 id3) tenant id1 ask db_waiting = (Ok o, db') /\
  (o = None -> db' = db_waiting \/
     rows (SqlEngine := ListEngine.list_engine) (PostgresProposals.learning_proposals db') ≡ₚ
       [stored leased]).
Proof.
  destruct (PostgresProposals.recordEvaluation (E := ListEngine.list_engine) racing
    (at_ 5000 id3) tenant id1 ask db_waiting) as [[o|e] db'] eqn:H; [|vm_compute in H; discriminate H].
  exists o, db'. split; [reflexivity|]. intros ->.
  refine (postgres_evaluation_respects_leases (E := ListEngine.list_engine)
    (L := ListEngine.list_laws) racing (at_ 5000 id3) tenant id1 ask db_waiting None db' _ H).
  intros r Hr. apply list_elem_of_singleton in Hr as ->. vm_compute. split; [split; discriminate|done].
Defined.
End witnesses.
