(* ===== verification/ProposalRoutes.v ===== *)
(** * The founder's learning-proposal routes

    [apps/api/src/routes/learning-proposals.ts], behind the service token of
    [app.ts]: the list and the detail of a tenant's proposals, and the
    founder's approval, which writes the [learning.proposal.approved.v1]
    event the learning worker acts on.  The routes call the in-memory
    repository over any outbox; a call may fail, and other tasks may run
    between the two calls of an approval. *)

From S2P Require Import Prelude Numbers JsRuntime Domain Zod ZodJson Sql Outbox Http ControlPlane Proposals.
Import InMemoryProposals.

Definition MAX_LIST_LIMIT : Z := 100.

Definition learningProposalStatuses : list LearningProposalStatus :=
  [prop_awaiting_evidence; prop_evaluating; prop_requires_approval; prop_approved; prop_rejected;
   prop_promoted; prop_rolled_back].

(** [listQuerySchema] *)
Definition listQuerySchema (limit status : option string) : result (Z * option LearningProposalStatus) :=
  n ← queryLimitSchema 50 MAX_LIST_LIMIT limit;
  st ← optional_field (enum_field learningProposalStatuses LearningProposalStatus_str) (JStr <$> status);
  mret (n, st).

(** [approveRequestSchema] *)
Definition approveRequestSchema (raw : json) : result string :=
  fs ← strict_object ["approvedBy"] raw;
  text_field 255 (mapGet "approvedBy" fs).

(** ** What a founder sees *)


(** The payloads that only the detail shows. *)
Definition proposal_payloads : list string := ["proposalPayload"; "evidenceSnapshot"; "evaluationSnapshot"].

(** [serializeProposal]: every property of the record but the lease. *)
Definition serializeProposal (r : LearningProposalRecord) : jobject :=
  [("id", JStr (lp_id r)); ("tenantId", JStr (lp_tenantId r)); ("proposalKey", JStr (lp_proposalKey r));
   ("experimentId", jstr_or_null (lp_experimentId r)); ("targetType", JStr (lp_targetType r));
   ("targetId", JStr (lp_targetId r)); ("risk", JStr (ChangeRisk_str (lp_risk r)));
   ("status", JStr (LearningProposalStatus_str (lp_status r)));
   ("proposalPayload", JObj (lp_proposalPayload r)); ("evidenceSnapshot", JObj (lp_evidenceSnapshot r));
   ("evaluationSnapshot", JObj (lp_evaluationSnapshot r));
   ("decision", jstr_or_null (LearningDecisionKind_str <$> lp_decision r));
   ("decisionReasons", JArr (JStr <$> lp_decisionReasons r));
   ("baseVersionRef", jstr_or_null (lp_baseVersionRef r));
   ("candidateVersionRef", jstr_or_null (lp_candidateVersionRef r));
   ("promotedVersionRef", jstr_or_null (lp_promotedVersionRef r));
   ("rollbackVersionRef", jstr_or_null (lp_rollbackVersionRef r));
   ("humanApprovedBy", jstr_or_null (lp_humanApprovedBy r));
   ("humanApprovedAt", json_date_or_null (lp_humanApprovedAt r)); ("createdBy", JStr (lp_createdBy r));
   ("evaluatedAt", json_date_or_null (lp_evaluatedAt r)); ("promotedAt", json_date_or_null (lp_promotedAt r));
   ("rolledBackAt", json_date_or_null (lp_rolledBackAt r)); ("createdAt", json_date (lp_createdAt r));
   ("updatedAt", json_date (lp_updatedAt r))].

Definition serializeProposalSummary (r : LearningProposalRecord) : jobject :=
  bfilter (fun kv => negb (bool_decide (kv.1 ∈ proposal_payloads))) (serializeProposal r).

(** ** The handlers *)

(** The calls of one approval: [ac_between] is what the other tasks do after
    the proposal was read, [ac_during] what they do while the approval waits
    for the outbox. *)
Record approval_calls (O : Type) := mkApprovalCalls {
  ac_read : db_call;
  ac_approve : db_call;
  ac_between : State O -> State O;
  ac_during : State O -> State O;
}.
Arguments mkApprovalCalls {O} ac_read ac_approve ac_between ac_during.
Arguments ac_read {O} a.
Arguments ac_approve {O} a.
Arguments ac_between {O} a.
Arguments ac_during {O} a.

Section routes.
Context `{Zod} `{ZodReport} {O : Type} `{!OutboxPort O}.
(** Whether [deps.learningProposalRepository] is there. *)
Context (configured : bool).

Definition requireRepository : M (State O) unit :=
  if configured then mret tt
  else throw (ServiceUnavailableError "Learning proposal repository is not configured. Set DATABASE_URL.").

Definition getTenantProposal (c : db_call) (tenantId proposalId : string) :
    M (State O) LearningProposalRecord :=
  proposal ← faulty c.2 (getById tenantId proposalId);
  match proposal with
  | Some proposal => mret proposal
  | None => throw (NotFoundError "Learning proposal was not found.")
  end.

Definition parseListQuery (limit status : option string) : Z * option LearningProposalStatus + Response :=
  match listQuerySchema limit status with
  | Ok query => inl query
  | Err _ => inr (refusal 400 ("limit must be an integer between 1 and " +:+
      string_of_N (Z.to_N MAX_LIST_LIMIT) +:+ "; status must be a supported learning proposal status"))
  end.

Definition proposalList (tenantId : string) (proposals : list LearningProposalRecord) : Response :=
  mkResponse 200 [("tenantId", JStr tenantId);
    ("items", JArr ((fun r => JObj (serializeProposalSummary r)) <$> proposals));
    ("total", jint (Z.of_nat (length proposals)))].

Definition proposalDetail (tenantId : string) (proposal : LearningProposalRecord) : Response :=
  mkResponse 200 [("tenantId", JStr tenantId); ("proposal", JObj (serializeProposal proposal))].

Definition approvalAnswer (tenantId : string) (a : ApproveLearningProposalResult) : Response :=
  let event := approved_outboxEvent a in
  mkResponse 200 [("tenantId", JStr tenantId); ("proposal", JObj (serializeProposal (approved_proposal a)));
    ("approvalEvent", JObj [("id", JStr (oe_id event)); ("eventType", JStr (oe_eventType event));
       ("idempotencyKey", JStr (oe_idempotencyKey event)); ("createdAt", json_date (oe_createdAt event))])].

(** [GET /] *)
Definition getProposals (c : db_call) (tenant limit status : option string) : M (State O) Response :=
  tenantId ←? requireTenantId tenant;
  query ←? parseListQuery limit status;
  requireRepository;;
  proposals ← faulty c.2 (listRecent tenantId (Some query.1) query.2);
  mret (proposalList tenantId proposals).

(** [GET /:id] *)
Definition getProposal (c : db_call) (tenant : option string) (id : string) : M (State O) Response :=
  tenantId ←? requireTenantId tenant;
  proposalId ←? requireResourceId "Learning proposal" id;
  requireRepository;;
  proposal ← getTenantProposal c tenantId proposalId;
  mret (proposalDetail tenantId proposal).

(** [POST /:id/approve] *)
Definition postApprove (c : approval_calls O) (tenant : option string) (id : string)
    (body : result json) : M (State O) Response :=
  tenantId ←? requireTenantId tenant;
  proposalId ←? requireResourceId "Learning proposal" id;
  approvedBy ←? parseJsonBody body approveRequestSchema;
  requireRepository;;
  proposal ← getTenantProposal (ac_read c) tenantId proposalId;
  await (ac_between c);;
  if negb (bool_decide (lp_status proposal = prop_requires_approval)) then
    throw (ConflictError ("Learning proposal is currently " +:+
      LearningProposalStatus_str (lp_status proposal) +:+ "; it cannot be approved."))
  else
    result ← faulty (ac_approve c).2
      (approveAndEnqueue (ac_during c) (ac_approve c).1 tenantId proposalId approvedBy);
    match result with
    | None => throw (ConflictError "Learning proposal changed before the approval could be applied.")
    | Some a => mret (approvalAnswer tenantId a)
    end.
End routes.

(** ** What a reader of a tenant's proposals depends on *)

Section view.
Context `{Z : Zod} {ZL : ZodLaws Z} {O : Type}.
Implicit Types (s : State O) (r : LearningProposalRecord).

(** The record without its lease. *)
Definition redact r : LearningProposalRecord :=
  mkProposal (lp_id r) (lp_tenantId r) (lp_proposalKey r) (lp_experimentId r) (lp_targetType r)
    (lp_targetId r) (lp_risk r) (lp_status r) (lp_proposalPayload r) (lp_evidenceSnapshot r)
    (lp_evaluationSnapshot r) (lp_decision r) (lp_decisionReasons r) (lp_baseVersionRef r)
    (lp_candidateVersionRef r) (lp_promotedVersionRef r) (lp_rollbackVersionRef r)
    (lp_humanApprovedBy r) (lp_humanApprovedAt r) None None (lp_createdBy r) (lp_evaluatedAt r)
    (lp_promotedAt r) (lp_rolledBackAt r) (lp_createdAt r) (lp_updatedAt r).

(** A tenant's proposals without their leases, in the order of creation. *)
Definition tenant_view (tn : string) s : list LearningProposalRecord :=
  redact <$> bfilter (fun r => bool_decide (lp_tenantId r = tn)) (mapValues (recordsById s)).

Lemma redact_detail tn r : proposalDetail tn (redact r) = proposalDetail tn r.
Proof. done. Qed.

Lemma redact_list tn l : proposalList tn (redact <$> l) = proposalList tn l.
Proof. unfold proposalList. by rewrite <- list_fmap_compose, length_fmap. Qed.

(** Looking up a proposal is looking it up in the tenant's view. *)
Lemma find_view tn id s : records_inv s ->
  redact <$> findScopedRecord tn id s = List.find (fun r => bool_decide (lp_id r = id)) (tenant_view tn s).
Proof.
  intros Hs. assert (mapWf (recordsById s) /\
    forall k r, mapGet k (recordsById s) = Some r -> lp_id r = k) as [Hwf Hk] by apply (ix_keyed _ _ _ _ (ri_index _ Hs)).
  unfold tenant_view, findScopedRecord, mapValues. clear Hs. revert Hwf Hk.
  induction (recordsById s) as [|[k r] m IH]; intros Hwf Hk; [done|].
  apply NoDup_cons in Hwf as [Hn Hwf]. csimpl. rewrite bfilter_cons.
  assert (lp_id r = k) as Hr by (apply Hk; simpl; by rewrite bool_decide_true).
  specialize (IH Hwf). case_bool_decide as He.
  - subst id. case_bool_decide as Ht; simpl; [by rewrite Hr, bool_decide_true|].
    symmetry. destruct (List.find _ _) as [q|] eqn:Hf; [|done]. exfalso.
    apply List.find_some in Hf as [Hin Hq]. apply list_elem_of_In, list_elem_of_fmap in Hin as (x & -> & Hx).
    apply elem_of_bfilter in Hx as [_ Hx]. apply bool_decide_eq_true in Hq. simpl in Hq.
    apply list_elem_of_fmap in Hx as ([k' r'] & -> & Hx). simpl in *.
    assert (lp_id r' = k') as <-; [|apply Hn; rewrite <- Hq; by apply (list_elem_of_fmap_2 fst m (lp_id r', r'))].
    apply Hk. simpl. rewrite bool_decide_false; [by apply mapGet_elem|]. intros ->.
    apply Hn. by apply (list_elem_of_fmap_2 fst m (k, r')).
  - rewrite IH.
    + case_bool_decide as Ht; [|done]. csimpl. by rewrite Hr, bool_decide_false by congruence.
    + intros k' r' Hg. apply Hk. simpl. rewrite bool_decide_false; [done|]. intros ->.
      apply Hn. destruct (decide (k ∈ m.*1)) as [|Hn']; [done|]. apply mapGet_None in Hn'. congruence.
Qed.

Lemma sort_by_fmap {A B} (f : A -> B) le le' (l : list A) :
  (forall a b, le' (f a) (f b) = le a b) -> sort_by le' (f <$> l) = f <$> sort_by le l.
Proof.
  intros Hle. induction l as [|a l IH]; [done|]. csimpl. rewrite IH. clear IH.
  induction (sort_by le l) as [|b l' IH]; [done|]. csimpl. rewrite Hle. destruct (le a b); [done|].
  csimpl. by rewrite IH.
Qed.

Lemma slice0_fmap {A B} (f : A -> B) n (l : list A) : slice0 n (f <$> l) = f <$> slice0 n l.
Proof. unfold slice0. rewrite length_fmap. case_match; by rewrite fmap_take. Qed.

(** So is listing them. *)
Lemma list_view tn n (st : option LearningProposalStatus) s :
  redact <$> slice0 n (sort_by (fun a b => lp_updatedAt b <=? lp_updatedAt a)
    (bfilter (fun r => bool_decide (lp_tenantId r = tn) &&
        match st with Some st => bool_decide (lp_status r = st) | None => true end)
      (mapValues (recordsById s)))) =
  slice0 n (sort_by (fun a b => lp_updatedAt b <=? lp_updatedAt a)
    (bfilter (fun r => match st with Some st => bool_decide (lp_status r = st) | None => true end)
      (tenant_view tn s))).
Proof.
  unfold tenant_view. rewrite bfilter_fmap.
  rewrite (sort_by_fmap redact (fun a b => lp_updatedAt b <=? lp_updatedAt a)) by done.
  rewrite slice0_fmap. do 3 f_equal. induction (mapValues (recordsById s)) as [|r l IH]; [done|].
  rewrite !bfilter_cons. destruct (bool_decide (lp_tenantId r = tn)); simpl; [|done].
  rewrite bfilter_cons, IH. done.
Qed.
End view.

(** ** The handlers *)

Section handlers.
Context `{Z : Zod} {ZL : ZodLaws Z} `{R : ZodReport} {O : Type} `{P : !OutboxPort O} (configured : bool).
Implicit Types (s : State O) (r : LearningProposalRecord).

#[export] Instance parseListQuery_refuses limit status : Refuses (parseListQuery limit status).
Proof. intros r. unfold parseListQuery. repeat case_match; intros [= <-]; apply refusal_error. Qed.

(** The reads answer from the tenant's view and change nothing. *)
Lemma getProposals_view c tenant limit status s1 s2 :
  (forall tn, tenant = Some tn -> tenant_view tn s1 = tenant_view tn s2) ->
  (getProposals configured c tenant limit status s1).1 = (getProposals configured c tenant limit status s2).1 /\
  (getProposals configured c tenant limit status s1).2 = s1.
Proof.
  intros Hv. unfold getProposals. destruct (requireTenantId tenant) as [tn|r] eqn:Ht; simpl; [|done].
  apply requireTenantId_inl in Ht as [-> _]. specialize (Hv tn eq_refl).
  destruct (parseListQuery limit status) as [[n st]|r]; simpl; [|done].
  unfold requireRepository. destruct configured; [|done]. msimpl. unfold faulty, listRecent, gets, throw. msimpl.
  destruct c.2; [|done|]; destruct (tenantIdSchema tn) as [tn'|] eqn:Ht; try done;
    destruct (normalizeLimit (Some n)); try done.
  apply tenantIdSchema_ok in Ht as [_ ->]. split; [|done]. simpl. f_equal.
  rewrite <- (redact_list tn (slice0 _ (sort_by _ (bfilter _ (mapValues (recordsById s1)))))).
  rewrite <- (redact_list tn (slice0 _ (sort_by _ (bfilter _ (mapValues (recordsById s2)))))).
  by rewrite !list_view, Hv.
Qed.

Lemma getProposal_view c tenant id s1 s2 : records_inv s1 -> records_inv s2 ->
  (forall tn, tenant = Some tn -> tenant_view tn s1 = tenant_view tn s2) ->
  (getProposal configured c tenant id s1).1 = (getProposal configured c tenant id s2).1 /\
  (getProposal configured c tenant id s1).2 = s1.
Proof.
  intros H1 H2 Hv. unfold getProposal. destruct (requireTenantId tenant) as [tn|r] eqn:Ht; simpl; [|done].
  apply requireTenantId_inl in Ht as [-> _]. specialize (Hv tn eq_refl).
  destruct (requireResourceId _ id) as [i|r]; simpl; [|done].
  unfold requireRepository. destruct configured; [|done]. msimpl.
  unfold getTenantProposal, faulty, getById, gets, throw. msimpl.
  destruct c.2; [|done|]; destruct (tenantIdSchema tn) as [tn'|] eqn:Ht; try done.
  apply tenantIdSchema_ok in Ht as [_ ->].
  pose proof (find_view tn i s1 H1) as F1. pose proof (find_view tn i s2 H2) as F2. rewrite Hv, <- F2 in F1.
  destruct (findScopedRecord tn i s1) as [r1|], (findScopedRecord tn i s2) as [r2|]; simpl in F1; try done.
  apply (inj Some) in F1. split; [|done].
  change (Ok (proposalDetail tn (redact r1)) = Ok (proposalDetail tn (redact r2))). by rewrite F1.
Qed.

(** Reading the proposal an approval is for. *)
Lemma read_ok c tn id s r s' : getTenantProposal (O := O) c tn id s = (Ok r, s') ->
  s' = s /\ findScopedRecord tn id s = Some r.
Proof.
  unfold getTenantProposal. intros (o & s1 & [_ Hg]%faulty_ok & Hk)%bind_ok.
  unfold getById, gets in Hg. destruct (tenantIdSchema tn) as [t|] eqn:Ht; [|done].
  apply tenantIdSchema_ok in Ht as [_ ->]. injection Hg as <- <-.
  destruct (findScopedRecord tn id s) as [q|]; [|done]. unfold mret, M_ret in Hk. by simplify_eq.
Qed.

Lemma read_eq c tn id s : c.2 = NoFault -> zod_uuid tn = true ->
  getTenantProposal (O := O) c tn id s =
    (match findScopedRecord tn id s with
     | Some r => Ok r | None => Err (NotFoundError "Learning proposal was not found.") end, s).
Proof.
  intros Hc Hz. unfold getTenantProposal. rewrite Hc. unfold faulty, getById, gets, throw. msimpl.
  rewrite (proj2 (tenantIdSchema_ok tn tn)) by done. by destruct (findScopedRecord tn id s).
Qed.

(** A well-formed approval request, while the database answers. *)
Lemma postApprove_eq c tn id raw by_ s : (ac_read c).2 = NoFault -> (ac_approve c).2 = NoFault ->
  zod_uuid tn = true -> zod_uuid id = true -> approveRequestSchema raw = Ok by_ ->
  postApprove true c (Some tn) id (Ok raw) s =
    match findScopedRecord tn id s with
    | None => (Err (NotFoundError "Learning proposal was not found."), s)
    | Some r =>
        if negb (bool_decide (lp_status r = prop_requires_approval)) then
          (Err (ConflictError ("Learning proposal is currently " +:+
            LearningProposalStatus_str (lp_status r) +:+ "; it cannot be approved.")), ac_between c s)
        else
          match approveAndEnqueue (ac_during c) (ac_approve c).1 tn id by_ (ac_between c s) with
          | (Ok (Some a), s') => (Ok (approvalAnswer tn a), s')
          | (Ok None, s') =>
              (Err (ConflictError "Learning proposal changed before the approval could be applied."), s')
          | (Err e, s') => (Err e, s')
          end
    end.
Proof.
  intros Hr Hf Hz Hzi Hb. unfold postApprove, requireResourceId, parseJsonBody.
  rewrite requireTenantId_uuid, (proj2 (uuid_ok id id)), Hb by done. unfold or_respond.
  rewrite (bind_eq (requireRepository true) _ s tt s eq_refl).
  pose proof (read_eq (ac_read c) tn id s Hr Hz) as Hread.
  destruct (findScopedRecord tn id s) as [r|]; [|by apply bind_err].
  rewrite (bind_eq _ _ _ _ _ Hread), (bind_eq (await _) _ s tt (ac_between c s) eq_refl).
  case_bool_decide; simpl; [|done]. rewrite Hf. unfold faulty, mbind, M_bind.
  by destruct (approveAndEnqueue _ _ _ _ _ _) as [[[a|]|e] s'].
Qed.

Lemma waiting_dec tn id s :
  (exists q, findScopedRecord tn id s = Some q /\ lp_status q = prop_requires_approval) \/
  (forall q, findScopedRecord tn id s = Some q -> lp_status q ≠ prop_requires_approval).
Proof.
  destruct (findScopedRecord tn id s) as [q|]; [|by right].
  destruct (decide (lp_status q = prop_requires_approval)); [left; eauto|right; by intros ? [= <-]].
Qed.

Lemma approveRequest_ok raw by_ : approveRequestSchema raw = Ok by_ -> nonEmptyText by_ = Ok by_.
Proof.
  unfold approveRequestSchema, text_field. msimpl. destruct (strict_object _ raw); [|done].
  destruct (mapGet _ _) as [[]|]; try done. unfold bounded_text. intros [Hl ->]%refine_ok.
  apply nonEmptyText_ok. rewrite trim_idem. split; [|done]. by destruct (trim s).
Qed.
End handlers.

(** ** Approvals *)

Section approvals.
Context `{Z : Zod} {ZL : ZodLaws Z} `{R : ZodReport} {O : Type} `{P : !OutboxPort O}.
Context {OS : OutboxStore O P} {OP : OutboxPayloads O P} (configured : bool).
Implicit Types (s : State O) (r : LearningProposalRecord).

(** The key of the approval event of a proposal. *)
Definition approval_key r : outbox_key :=
  (lp_tenantId r, learningProposalApprovedEventType, "learning-proposal-approved:" +:+ lp_id r).

(** What the approval [a] of [r] by [by_] does to the repository: the proposal
    is approved and its event is in the outbox.  The event announces this
    approval, unless the proposal had been approved before: then it is the
    event of that approval, and nothing is written. *)
Record approval_effect (env : call_env) (by_ : string) r (a : ApproveLearningProposalResult) s s' : Prop := {
  ae_record : approved_proposal a = approved r by_ (env_now env);
  ae_records : recordsById s' = mapSet (lp_id r) (approved_proposal a) (recordsById s);
  ae_keys : recordIdByKey s' = recordIdByKey s;
  ae_outbox : outbox_grows (outbox s) (outbox s');
  ae_event : stored_event (outbox s') (approval_key r) = Some (approved_outboxEvent a);
  ae_payload : stored_event (outbox s) (approval_key r) = None ->
    oe_payload (approved_outboxEvent a) =
      oc_payload (learningProposalApprovalOutboxCommand (approved_proposal a));
  ae_again : is_Some (stored_event (outbox s) (approval_key r)) -> outbox s' = outbox s;
}.

(** The repository is in order. *)
Record repo_inv s : Prop := {
  rp_records : records_inv s;
  rp_outbox : store_wf (outbox s);
}.

Lemma approval_applies others env tn id by_ r s : repo_inv s -> zod_uuid tn = true ->
  nonEmptyText by_ = Ok by_ -> findScopedRecord tn id s = Some r -> lp_status r = prop_requires_approval ->
  exists a s', approveAndEnqueue others env tn id by_ s = (Ok (Some a), others s') /\
    approval_effect env by_ r a s s' /\ repo_inv s'.
Proof.
  intros [Hs Ho] Hz Hb Hf Hst.
  assert (mapGet id (recordsById s) = Some r /\ lp_tenantId r = tn) as [Hr Htn] by (by apply find_some).
  pose proof (ri_valid _ Hs _ _ Hr) as Hv.
  assert (lp_id r = id) as Hid by (by apply (ix_keyed _ _ _ _ (ri_index _ Hs))).
  set (u := approved r by_ (env_now env)).
  assert (command_ok (learningProposalApprovalOutboxCommand u)) as Hc by (by apply approval_command_ok, approved_valid).
  destruct (store_enqueue env _ _ Ho Hc) as (e & o & He & Hwf & Hk & Hold).
  rewrite (approve_eq others env tn id by_ by_ s Hs Hz Hb). unfold guarded_update. rewrite Hf, Hst.
  simpl. unfold with_outbox. simpl. fold u. rewrite He.
  eexists (mkApproval u e), _. split; [done|].
  change (command_key (learningProposalApprovalOutboxCommand u)) with (approval_key r) in Hk, Hold.
  split; [split; simpl|split; [|exact Hwf]].
  - done.
  - by rewrite Hid.
  - done.
  - intros k x Hx. rewrite Hk. case_bool_decide as Hkk; [|done]. subst k. by destruct (Hold _ Hx) as [-> _].
  - by rewrite Hk, bool_decide_true.
  - intros Hn. by apply (store_payload env _ _ _ _ Ho Hc Hn He).
  - intros [x Hx]. by destruct (Hold _ Hx) as [_ ->].
  - apply records_inv_outbox. split; simpl.
    + by apply (index_update _ _ _ _ _ r u (ri_index _ Hs)).
    + intros id' q. rewrite mapGet_set. case_bool_decide; [intros [= <-]; by apply approved_valid|apply Hs].
    + intros id' q. rewrite mapGet_set. case_bool_decide; [intros [= <-]; by split|apply Hs].
Qed.

Lemma approval_declined others env tn id by_ s : repo_inv s -> zod_uuid tn = true ->
  nonEmptyText by_ = Ok by_ ->
  (forall r, findScopedRecord tn id s = Some r -> lp_status r ≠ prop_requires_approval) ->
  approveAndEnqueue others env tn id by_ s = (Ok None, s).
Proof.
  intros [Hs _] Hz Hb Hn. rewrite (approve_eq others env tn id by_ by_ s Hs Hz Hb). unfold guarded_update.
  destruct (findScopedRecord tn id s) as [r|]; [|done]. by rewrite bool_decide_false by (by apply Hn).
Qed.

(** An answer with an approval event, read back to the writes behind it. *)
Lemma approved_answer c tn id by_ s resp s' : repo_inv (ac_between c s) -> zod_uuid tn = true ->
  nonEmptyText by_ = Ok by_ ->
  (result ← faulty (ac_approve c).2 (approveAndEnqueue (ac_during c) (ac_approve c).1 tn id by_);
   match result with
   | None => throw (ConflictError "Learning proposal changed before the approval could be applied.")
   | Some a => mret (approvalAnswer tn a)
   end) (ac_between c s) = (Ok resp, s') ->
  exists q a s2, findScopedRecord tn id (ac_between c s) = Some q /\ lp_status q = prop_requires_approval /\
    resp = approvalAnswer tn a /\ s' = ac_during c s2 /\
    approval_effect (ac_approve c).1 by_ q a (ac_between c s) s2.
Proof.
  intros Hi Hz Hb (o & s1 & [_ Ha]%faulty_ok & Hk)%bind_ok.
  destruct (findScopedRecord tn id (ac_between c s)) as [q|] eqn:Hf.
  - destruct (decide (lp_status q = prop_requires_approval)) as [Hq|Hq].
    + destruct (approval_applies (ac_during c) (ac_approve c).1 tn id by_ q _ Hi Hz Hb Hf Hq)
        as (a & s2 & Heq & He & _).
      rewrite Heq in Ha. injection Ha as <- <-. injection Hk as <- <-. by exists q, a, s2.
    + rewrite approval_declined in Ha by (try done; congruence). by injection Ha as <- <-.
  - rewrite approval_declined in Ha by (try done; congruence). by injection Ha as <- <-.
Qed.
End approvals.

(** ** Theorems *)

Section theorems.
Context `{Z : Zod} {ZL : ZodLaws Z} `{R : ZodReport} {O : Type} `{P : !OutboxPort O}.
Context {OS : OutboxStore O P} {OP : OutboxPayloads O P} (configured : bool).
Context (token auth : option string).
Implicit Types (s : State O) (r : LearningProposalRecord) (c : approval_calls O).

(** C23. A founder learns nothing about other tenants, and nothing about a
    lease: what the list and the detail answer depends only on the proposals
    of the tenant in the header, without their leases.  So a foreign
    proposal and an unknown one get the same answer.  Neither read changes
    anything, whatever the database does. *)
Theorem reads_reveal_own_proposals call tenant limit status id s1 s2 :
  records_inv s1 -> records_inv s2 ->
  (forall tn, tenant = Some tn -> tenant_view tn s1 = tenant_view tn s2) ->
  let listed := guarded_route token auth (getProposals configured call tenant limit status) in
  let detail := guarded_route token auth (getProposal configured call tenant id) in
  (listed s1).1 = (listed s2).1 /\ (detail s1).1 = (detail s2).1 /\
  (listed s1).2 = s1 /\ (detail s1).2 = s1.
Proof.
  intros H1 H2 Hv listed detail.
  destruct (getProposals_view configured call tenant limit status s1 s2 Hv) as [Ha Hs].
  destruct (getProposal_view configured call tenant id s1 s2 H1 H2 Hv) as [Hb Ht].
  split_and!; [by apply guarded_answer..| |].
  - destruct (guarded_state token auth (getProposals configured call tenant limit status) s1) as [E|E];
      unfold listed; congruence.
  - destruct (guarded_state token auth (getProposal configured call tenant id) s1) as [E|E];
      unfold detail; congruence.
Qed.

(** C22. When an answer carries an approval event, the request was authorized,
    named its tenant in the header and its founder in the body; at the
    moment of the write, whatever other tasks had done since the proposal
    was read, the proposal was its tenant's and awaited approval; it is
    now approved by that founder, and its event is in the outbox. *)
Theorem founder_approval_takes_effect c tenant id body s resp s' :
  repo_inv (ac_between c s) ->
  guarded_route token auth (postApprove configured c tenant id body) s = (Ok resp, s') ->
  carries "approvalEvent" resp ->
  authorized token auth /\
  exists tn raw by_ q a s2, tenant = Some tn /\ body = Ok raw /\ approveRequestSchema raw = Ok by_ /\
    findScopedRecord tn id (ac_between c s) = Some q /\ lp_status q = prop_requires_approval /\
    resp = approvalAnswer tn a /\ s' = ac_during c s2 /\
    approval_effect (ac_approve c).1 by_ q a (ac_between c s) s2.
Proof.
  intros Hi H Hc. apply (guarded_carries _ _ _ _ _ _ _ Hc) in H as [Ha H]. split; [done|].
  unfold postApprove in H.
  apply (or_respond_carries _ _ _ _ _ _ Hc) in H as (tn & [-> Hz]%requireTenantId_inl & H).
  apply (or_respond_carries _ _ _ _ _ _ Hc) in H as (i & [-> Hzi]%requireResourceId_inl & H).
  apply (or_respond_carries _ _ _ _ _ _ Hc) in H as (by_ & (raw & -> & Hb)%parseJsonBody_inl & H).
  unfold requireRepository in H. destruct configured; [|done]. msimpl. unfold await, modify in H.
  destruct (getTenantProposal (ac_read c) tn id s) as [[r|e] s1] eqn:Hr; [|done].
  apply read_ok in Hr as [-> Hr]. destruct (negb _); [done|].
  destruct (approved_answer c tn id by_ s resp s' Hi Hz (approveRequest_ok _ _ Hb) H)
    as (q & a & s2 & ? & ? & ? & ? & ?).
  by exists tn, raw, by_, q, a, s2.
Qed.

(** What a well-formed approval request is answered. *)
Inductive approval_outcome c (tn id by_ : string) s : Response -> State O -> Prop :=
  | outcome_unknown : findScopedRecord tn id s = None ->
      approval_outcome c tn id by_ s (refusal 404 "Learning proposal was not found.") s
  | outcome_not_waiting r : findScopedRecord tn id s = Some r -> lp_status r ≠ prop_requires_approval ->
      approval_outcome c tn id by_ s (refusal 409 ("Learning proposal is currently " +:+
        LearningProposalStatus_str (lp_status r) +:+ "; it cannot be approved.")) (ac_between c s)
  | outcome_overtaken r : findScopedRecord tn id s = Some r -> lp_status r = prop_requires_approval ->
      (forall q, findScopedRecord tn id (ac_between c s) = Some q -> lp_status q ≠ prop_requires_approval) ->
      approval_outcome c tn id by_ s
        (refusal 409 "Learning proposal changed before the approval could be applied.") (ac_between c s)
  | outcome_approved r q a s2 : findScopedRecord tn id s = Some r -> lp_status r = prop_requires_approval ->
      findScopedRecord tn id (ac_between c s) = Some q -> lp_status q = prop_requires_approval ->
      approval_effect (ac_approve c).1 by_ q a (ac_between c s) s2 ->
      approval_outcome c tn id by_ s (approvalAnswer tn a) (ac_during c s2).

(** C24. While the database answers, every authorized and well-formed approval
    request is decided: 404 when the tenant has no such proposal, 409 when
    the proposal does not await approval, or no longer does at the moment of
    the write (so of two concurrent approvals one is refused, and writes
    nothing), and otherwise the approval, with its effects. *)
Theorem approval_requests_are_decided c tn id raw by_ s :
  configured = true -> authorized token auth -> (ac_read c).2 = NoFault -> (ac_approve c).2 = NoFault ->
  zod_uuid tn = true -> zod_uuid id = true -> approveRequestSchema raw = Ok by_ ->
  repo_inv (ac_between c s) ->
  exists resp s',
    guarded_route token auth (postApprove configured c (Some tn) id (Ok raw)) s = (Ok resp, s') /\
    approval_outcome c tn id by_ s resp s'.
Proof.
  intros -> Ha Hr0 Hf0 Hz Hzi Hb Hi. pose proof (approveRequest_ok _ _ Hb) as Hn.
  pose proof (postApprove_eq c tn id raw by_ s Hr0 Hf0 Hz Hzi Hb) as H.
  destruct (findScopedRecord tn id s) as [r|] eqn:Hr.
  2: { do 2 eexists. split; [by apply guarded_err|by apply outcome_unknown]. }
  case_bool_decide as Hst; simpl in H.
  2: { do 2 eexists. split; [by apply guarded_err|by eapply outcome_not_waiting]. }
  destruct (waiting_dec tn id (ac_between c s)) as [(q & Hq & Hqs)|Hq].
  - destruct (approval_applies (ac_during c) (ac_approve c).1 tn id by_ q _ Hi Hz Hn Hq Hqs)
      as (a & s2 & Heq & He & _). rewrite Heq in H.
    do 2 eexists. split; [by apply guarded_ok|by eapply outcome_approved].
  - rewrite approval_declined in H by done.
    do 2 eexists. split; [by apply guarded_err|by eapply outcome_overtaken].
Qed.
End theorems.

(** ** Witnesses *)

Module ProposalRoutesExample.
Import ZodExample ProposalsExample.

#[export] Instance report : ZodReport := {| zod_issues := JArr []; zod_field_errors := fun _ => JObj [] |}.

Definition token : option string := Some "s3cret".
Definition auth : option string := Some "Bearer s3cret".
Definition founder : json := JObj [("approvedBy", JStr " founder ")].
Definition nobody (s : State InMemoryOutbox.State) : State InMemoryOutbox.State := s.
Definition on_time : approval_calls InMemoryOutbox.State :=
  mkApprovalCalls (at_ 3000 id2, NoFault) (at_ 3000 id2, NoFault) nobody nobody.
Definition approve_at (c : approval_calls InMemoryOutbox.State) :
    M (State InMemoryOutbox.State) Response :=
  guarded_route token auth (postApprove true c (Some tenant) id1 (Ok founder)).

Definition once : State InMemoryOutbox.State := (approve_at on_time waiting).2.
(** A second founder's request reads the proposal before the first is through. *)
Definition late : approval_calls InMemoryOutbox.State :=
  mkApprovalCalls (at_ 2999 id2, NoFault) (at_ 3001 id2, NoFault) (fun s => (approve_at on_time s).2) nobody.

(** Another tenant proposes something. *)
Definition shared : State InMemoryOutbox.State :=
  (memory_exec (CCreate other_tenant params) (at_ 5000 id3) leased).2.
Lemma shared_inv : prop_inv shared.
Proof. apply memory_exec_effect; [apply leased_inv|]. split; vm_compute; reflexivity. Qed.

(** An evaluation that started before the approval is recorded after it. *)
Definition overtaken : State InMemoryOutbox.State :=
  (memory_exec (CEvaluate tenant id1 ask) (at_ 4000 id3) once).2.
Definition again : approval_calls InMemoryOutbox.State :=
  mkApprovalCalls (at_ 9000 id3, NoFault) (at_ 9000 id3, NoFault) nobody nobody.

Definition first_answer : Response :=
  match (approve_at on_time waiting).1 with Ok resp => resp | Err _ => refusal 500 "" end.
Lemma approved_once : guarded_route token auth (postApprove true on_time (Some tenant) id1 (Ok founder)) waiting =
  (Ok first_answer, once).
Proof. vm_compute. reflexivity. Qed.
Lemma first_answer_carries : carries "approvalEvent" first_answer.
Proof. split; [apply (bool_decide_unpack _); vm_compute; exact I|]. vm_compute. eauto. Qed.

Lemma waiting_repo : repo_inv (OS := in_memory_outbox_store) (ac_between on_time waiting).
Proof. split; [apply waiting_inv|apply (pi_outbox _ waiting_inv)]. Qed.
Lemma late_repo : repo_inv (OS := in_memory_outbox_store) (ac_between late waiting).
Proof.
  destruct (approval_applies (OS := in_memory_outbox_store) (OP := in_memory_outbox_payloads) nobody
    (at_ 3000 id2) tenant id1 "founder" (stored waiting) waiting waiting_repo eq_refl eq_refl
    ltac:(vm_compute; reflexivity) ltac:(vm_compute; reflexivity)) as (a & s' & Ha & _ & Hi).
  replace (ac_between late waiting) with s'; [done|]. vm_compute in Ha. injection Ha as _ <-. vm_compute. reflexivity.
Qed.
Lemma token_sent : authorized token auth.
Proof. right. by exists "s3cret". Qed.
Lemma tenant_is_uuid : zod_uuid tenant = true.
Proof. reflexivity. Qed.
Lemma id1_is_uuid : zod_uuid id1 = true.
Proof. reflexivity. Qed.
Lemma founder_named : approveRequestSchema founder = Ok "founder".
Proof. reflexivity. Qed.
End ProposalRoutesExample.

Section witnesses.
Import ZodExample ProposalsExample ProposalRoutesExample.

(** A proposal that an overtaken evaluation sent back to the founder is
    approved a second time, and the founder is told so: but the event named
    is that of the first approval, which the learning worker has already
    seen, and the outbox is not written.  Nothing tells the worker. *)
Theorem second_approval_is_not_announced :
  lp_status (stored overtaken) = prop_requires_approval /\
  (rsp_status <$> match (approve_at again overtaken).1 with Ok r => Some r | Err _ => None end) = Some 200 /\
  lp_status (stored (approve_at again overtaken).2) = prop_approved /\
  outbox (approve_at again overtaken).2 = outbox overtaken /\ outbox overtaken = outbox once.
Proof. split_and!; vm_compute; reflexivity. Qed.

Lemma reads_reveal_own_proposals_witness :
  (guarded_route token auth (getProposals true (at_ 1 id2, NoFault) (Some tenant) (Some "10") None) leased).1 =
  (guarded_route token auth (getProposals true (at_ 1 id2, NoFault) (Some tenant) (Some "10") None)
    shared).1.
Proof.
  refine (proj1 (reads_reveal_own_proposals true token auth (at_ 1 id2, NoFault) (Some tenant) (Some "10") None
    id1 leased shared (pi_records _ leased_inv) (pi_records _ shared_inv) _)).
  intros tn [= <-]. vm_compute. reflexivity.
Defined.

Lemma founder_approval_takes_effect_witness : authorized token auth /\
  exists tn raw by_ q a s2, Some tenant = Some tn /\ Ok founder = Ok raw /\ approveRequestSchema raw = Ok by_ /\
    findScopedRecord tn id1 (ac_between on_time waiting) = Some q /\ lp_status q = prop_requires_approval /\
    first_answer = approvalAnswer tn a /\ once = ac_during on_time s2 /\
    approval_effect (OS := in_memory_outbox_store) (ac_approve on_time).1 by_ q a (ac_between on_time waiting) s2.
Proof.
  exact (founder_approval_takes_effect (OS := in_memory_outbox_store) (OP := in_memory_outbox_payloads)
    true token auth on_time (Some tenant) id1 (Ok founder) waiting first_answer once waiting_repo
    approved_once first_answer_carries).
Defined.

(** The approval that comes second is refused. *)
Lemma approval_requests_are_decided_witness :
  exists resp s',
    guarded_route token auth (postApprove true late (Some tenant) id1 (Ok founder)) waiting = (Ok resp, s') /\
    approval_outcome (OS := in_memory_outbox_store) late tenant id1 "founder" waiting resp s'.
Proof.
  exact (approval_requests_are_decided (OS := in_memory_outbox_store) (OP := in_memory_outbox_payloads)
    true token auth late tenant id1 founder "founder" waiting eq_refl token_sent eq_refl eq_refl
    tenant_is_uuid id1_is_uuid founder_named late_repo).
Defined.
End witnesses.
