(* ===== verification/Health.v ===== *)
(** * Component health

    The component-health part of
    [packages/db/src/adaptive-control-plane-repository.ts]:
    [InMemoryComponentHealthRepository] (module [InMemoryHealth]) and
    [PostgresComponentHealthRepository] (module [PostgresHealth]).  The log is
    append-only; "latest" is a query over it. *)

From S2P Require Import Prelude Numbers JsRuntime Domain Zod Sql ControlPlane.

(** ** Records and schemas *)

Record ComponentHealthRecord := mkHealth {
  ch_id : string;
  ch_tenantId : string;
  ch_componentId : string;
  ch_idempotencyKey : string;
  ch_state : RuntimeHealthState;
  ch_errorRate : num;
  ch_consecutiveFailures : Z;
  ch_p95LatencyMs : Z;
  ch_stalenessSeconds : Z;
  ch_dependencyAvailable : bool;
  ch_fallbackAvailable : bool;
  ch_lastKnownGoodAvailable : bool;
  ch_lastKnownGoodVersionRef : option string;
  ch_recoveryAttempts : Z;
  ch_guardrailBreached : bool;
  ch_action : HealingAction;
  ch_allowExternalActions : bool;
  ch_retryAfterSeconds : option Z;
  ch_reasons : list string;
  ch_observedAt : Z;
  ch_createdAt : Z;
}.

Record RecordComponentHealthParams := mkHealthParams {
  hp_componentId : string;
  hp_idempotencyKey : string;
  hp_state : RuntimeHealthState;
  hp_errorRate : num;
  hp_consecutiveFailures : Z;
  hp_p95LatencyMs : Z;
  hp_stalenessSeconds : Z;
  hp_dependencyAvailable : bool;
  hp_fallbackAvailable : bool;
  hp_lastKnownGoodAvailable : bool;
  hp_lastKnownGoodVersionRef : option string;
  hp_recoveryAttempts : Z;
  hp_guardrailBreached : bool;
  hp_action : HealingAction;
  hp_allowExternalActions : bool;
  hp_retryAfterSeconds : option Z;
  hp_reasons : list string;
  hp_observedAt : option Z;
}.

Record RecordComponentHealthResult := mkHealthResult {
  health : ComponentHealthRecord;
  isDuplicate : bool;
}.

Section schemas.
Context `{Zod}.

Definition componentHealthRecordSchema (r : ComponentHealthRecord) : result ComponentHealthRecord :=
  id ← uuid (ch_id r);
  tn ← tenantIdSchema (ch_tenantId r);
  cid ← nonEmptyText (ch_componentId r);
  key ← nonEmptyText (ch_idempotencyKey r);
  er ← unit_number (ch_errorRate r);
  cf ← nonneg_int (ch_consecutiveFailures r);
  lat ← nonneg_int (ch_p95LatencyMs r);
  st ← nonneg_int (ch_stalenessSeconds r);
  ra ← nonneg_int (ch_recoveryAttempts r);
  retry ← zod_optional positive_int (ch_retryAfterSeconds r);
  reasons ← zod_array nonEmptyText (ch_reasons r);
  mret (mkHealth id tn cid key (ch_state r) er cf lat st (ch_dependencyAvailable r)
    (ch_fallbackAvailable r) (ch_lastKnownGoodAvailable r) (ch_lastKnownGoodVersionRef r) ra
    (ch_guardrailBreached r) (ch_action r) (ch_allowExternalActions r) retry reasons
    (ch_observedAt r) (ch_createdAt r)).

Definition recordComponentHealthParamsSchema (p : RecordComponentHealthParams) :
    result RecordComponentHealthParams :=
  cid ← nonEmptyText (hp_componentId p);
  key ← nonEmptyText (hp_idempotencyKey p);
  er ← unit_number (hp_errorRate p);
  cf ← nonneg_int (hp_consecutiveFailures p);
  lat ← nonneg_int (hp_p95LatencyMs p);
  st ← nonneg_int (hp_stalenessSeconds p);
  good ← zod_optional nonEmptyText (hp_lastKnownGoodVersionRef p);
  ra ← nonneg_int (hp_recoveryAttempts p);
  retry ← zod_optional positive_int (hp_retryAfterSeconds p);
  reasons ← zod_array nonEmptyText (hp_reasons p);
  mret (mkHealthParams cid key (hp_state p) er cf lat st (hp_dependencyAvailable p)
    (hp_fallbackAvailable p) (hp_lastKnownGoodAvailable p) good ra (hp_guardrailBreached p)
    (hp_action p) (hp_allowExternalActions p) retry reasons (hp_observedAt p)).
End schemas.

(** The record [record] stores. *)
Definition new_health (id tenantId : string) (p : RecordComponentHealthParams) (now : Z) :
    ComponentHealthRecord :=
  mkHealth id tenantId (hp_componentId p) (hp_idempotencyKey p) (hp_state p) (hp_errorRate p)
    (hp_consecutiveFailures p) (hp_p95LatencyMs p) (hp_stalenessSeconds p)
    (hp_dependencyAvailable p) (hp_fallbackAvailable p) (hp_lastKnownGoodAvailable p)
    (hp_lastKnownGoodVersionRef p) (hp_recoveryAttempts p) (hp_guardrailBreached p) (hp_action p)
    (hp_allowExternalActions p) (hp_retryAfterSeconds p) (hp_reasons p) (hp_observedAt p ?: now) now.

(** [(a, b) => b.observedAt.getTime() - a.observedAt.getTime()] *)
Definition newer_first (a b : ComponentHealthRecord) : bool := ch_observedAt b <=? ch_observedAt a.

(** ** The in-memory repository *)

Module InMemoryHealth.
Record State := mkState {
  records : jsmap ComponentHealthRecord;
  recordIdByKey : jsmap string;
}.

#[export] Instance state_eta : Eta State := fun s => mkState (records s) (recordIdByKey s).

Definition init : State := mkState [] [].

Definition key (tenantId componentId idempotencyKey : string) : string :=
  tenantId +:+ ":" +:+ componentId +:+ ":" +:+ idempotencyKey.

Section ops.
Context `{Zod}.

Definition record (env : call_env) (tenantId : string) (params : RecordComponentHealthParams) :
    M State RecordComponentHealthResult :=
  parsedTenantId ← lift (tenantIdSchema tenantId);
  parsed ← lift (recordComponentHealthParamsSchema params);
  let key := key parsedTenantId (hp_componentId parsed) (hp_idempotencyKey parsed) in
  existing ← gets (fun s => indexed (records s) (recordIdByKey s) key);
  match existing with
  | Some h => mret (mkHealthResult h true)
  | None =>
      h ← lift (componentHealthRecordSchema
        (new_health (env_uuid env) parsedTenantId parsed (env_now env)));
      modify (fun s => s <| records := mapSet (ch_id h) h (records s) |>);;
      modify (fun s => s <| recordIdByKey := mapSet key (ch_id h) (recordIdByKey s) |>);;
      mret (mkHealthResult h false)
  end.

Definition of_component (tenantId componentId : string) (r : ComponentHealthRecord) : bool :=
  bool_decide (ch_tenantId r = tenantId) && bool_decide (ch_componentId r = componentId).

(** [Array.from(...).filter(...).sort(...)[0] ?? null] *)
Definition getByComponent (tenantId componentId : string) :
    M State (option ComponentHealthRecord) :=
  parsedTenantId ← lift (tenantIdSchema tenantId);
  gets (fun s => head (sort_by newer_first
    (bfilter (of_component parsedTenantId componentId) (mapValues (records s))))).

(** The loop that keeps the newest record of each component. *)
Definition keep_latest (tenantId : string) (latest : jsmap ComponentHealthRecord)
    (r : ComponentHealthRecord) : jsmap ComponentHealthRecord :=
  if negb (bool_decide (ch_tenantId r = tenantId)) then latest
  else match mapGet (ch_componentId r) latest with
       | Some prior =>
           if ch_observedAt prior <? ch_observedAt r then mapSet (ch_componentId r) r latest
           else latest
       | None => mapSet (ch_componentId r) r latest
       end.

Definition latestByComponent (tenantId : string) (s : State) : jsmap ComponentHealthRecord :=
  fold_left (keep_latest tenantId) (mapValues (records s)) [].

Definition listLatest (tenantId : string) (limit : option Z) :
    M State (list ComponentHealthRecord) :=
  parsedTenantId ← lift (tenantIdSchema tenantId);
  parsedLimit ← lift (normalizeLimit limit);
  gets (fun s => slice0 parsedLimit
    (sort_by newer_first (mapValues (latestByComponent parsedTenantId s)))).
End ops.
End InMemoryHealth.

(** ** The Postgres repository

    [numeric_4] is the value a [numeric(5,4)] column gives back. *)

Module PostgresHealth.
Section ops.
Context `{Zod} {E : SqlEngine} (numeric_4 : num -> num).

Definition mapComponentHealth := componentHealthRecordSchema.

(** [unique (tenant_id, component_id, idempotency_key)] *)
Definition same_health (a b : ComponentHealthRecord) : bool :=
  bool_decide (ch_tenantId a = ch_tenantId b) &&
  bool_decide (ch_componentId a = ch_componentId b) &&
  bool_decide (ch_idempotencyKey a = ch_idempotencyKey b).

Definition stored_params (p : RecordComponentHealthParams) : RecordComponentHealthParams :=
  mkHealthParams (hp_componentId p) (hp_idempotencyKey p) (hp_state p)
    (numeric_4 (hp_errorRate p)) (hp_consecutiveFailures p) (hp_p95LatencyMs p)
    (hp_stalenessSeconds p) (hp_dependencyAvailable p) (hp_fallbackAvailable p)
    (hp_lastKnownGoodAvailable p) (hp_lastKnownGoodVersionRef p) (hp_recoveryAttempts p)
    (hp_guardrailBreached p) (hp_action p) (hp_allowExternalActions p) (hp_retryAfterSeconds p)
    (hp_reasons p) (hp_observedAt p).

Definition record (env : call_env) (tenantId : string) (params : RecordComponentHealthParams) :
    M (table ComponentHealthRecord) RecordComponentHealthResult :=
  parsedTenantId ← lift (db_uuid tenantId);
  parsed ← lift (recordComponentHealthParamsSchema params);
  transaction (
    inserted ← tx_insert same_health
      (new_health (env_uuid env) parsedTenantId (stored_params parsed) (env_now env));
    match inserted with
    | row :: _ => h ← lift (mapComponentHealth row); mret (mkHealthResult h false)
    | [] =>
        found ← tx_select (fun r => holds (sql_all
          [col_eq (ch_tenantId r) parsedTenantId; col_eq (ch_componentId r) (hp_componentId parsed);
           col_eq (ch_idempotencyKey r) (hp_idempotencyKey parsed)]));
        match found with
        | [] => throw (JsError "Component health record returned no row.")
        | existing :: _ => h ← lift (mapComponentHealth existing); mret (mkHealthResult h true)
        end
    end).

(** [ORDER BY observed_at DESC, created_at DESC] *)
Definition newest_row (a b : ComponentHealthRecord) : bool :=
  (ch_observedAt b <? ch_observedAt a) ||
  ((ch_observedAt b =? ch_observedAt a) && (ch_createdAt b <=? ch_createdAt a)).

Definition getByComponent (tenantId componentId : string) :
    M (table ComponentHealthRecord) (option ComponentHealthRecord) :=
  parsedTenantId ← lift (db_uuid tenantId);
  parsedComponentId ← lift (nonEmptyText componentId);
  transaction (
    found ← tx_select (fun r => holds (sql_all
      [col_eq (ch_tenantId r) parsedTenantId; col_eq (ch_componentId r) parsedComponentId]));
    match sort_by newest_row found with
    | [] => mret None
    | row :: _ => h ← lift (mapComponentHealth row); mret (Some h)
    end).

(** [SELECT DISTINCT ON (component_id) ... ORDER BY component_id, ...]: the
    first row of each component; the order of the components themselves is
    undone by the sort that follows. *)
Definition distinct_on_component (rows : list ComponentHealthRecord) :
    list ComponentHealthRecord :=
  omap (fun c => head (sort_by newest_row
    (bfilter (fun r => bool_decide (ch_componentId r = c)) rows)))
    (remove_dups (ch_componentId <$> rows)).

Definition listLatest (tenantId : string) (limit : option Z) :
    M (table ComponentHealthRecord) (list ComponentHealthRecord) :=
  parsedTenantId ← lift (db_uuid tenantId);
  parsedLimit ← lift (normalizeLimit limit);
  transaction (
    found ← tx_select (fun r => holds (col_eq (ch_tenantId r) parsedTenantId));
    mapped ← lift (zod_array_map mapComponentHealth (distinct_on_component found));
    mret (slice0 parsedLimit (sort_by newer_first mapped))).
End ops.
End PostgresHealth.

(** ** The newest record of a component *)

Section newest.
Implicit Types (r : ComponentHealthRecord) (l : list ComponentHealthRecord).

(** Keep the first of two candidates unless the second is strictly newer. *)
Definition newest_of (x : ComponentHealthRecord) (o : option ComponentHealthRecord) :
    option ComponentHealthRecord :=
  match o with
  | Some y => if ch_observedAt y <=? ch_observedAt x then Some x else Some y
  | None => Some x
  end.

Definition newest_step (acc : option ComponentHealthRecord) r : option ComponentHealthRecord :=
  match acc with
  | Some p => if ch_observedAt p <? ch_observedAt r then Some r else acc
  | None => Some r
  end.

Lemma head_insert x l : head (insert_by newer_first x l) = newest_of x (head l).
Proof. destruct l as [|y l]; [done|]. simpl. unfold newer_first. by case_match. Qed.

Lemma newest_fold x l : fold_left newest_step l (Some x) = newest_of x (fold_left newest_step l None).
Proof.
  revert x. induction l as [|y l IH]; intros x; simpl; [done|].
  rewrite (IH y). destruct (Z.ltb_spec (ch_observedAt x) (ch_observedAt y)) as [Hxy|Hxy]; rewrite IH;
    (destruct (fold_left newest_step l None) as [z|]; simpl;
       [destruct (Z.leb_spec (ch_observedAt z) (ch_observedAt y));
        destruct (Z.leb_spec (ch_observedAt z) (ch_observedAt x)); simpl
       |]);
    repeat match goal with |- context [?a <=? ?b] => destruct (Z.leb_spec a b) end; done || lia.
Qed.

(** The head of the descending sort is the first newest record of the list. *)
Lemma head_sort l : head (sort_by newer_first l) = fold_left newest_step l None.
Proof.
  induction l as [|x l IH]; simpl; [done|]. by rewrite head_insert, IH, newest_fold.
Qed.

Lemma newest_fold_elem l r : fold_left newest_step l None = Some r -> r ∈ l.
Proof.
  rewrite <- head_sort. intros H. apply (elem_of_sort_by newer_first).
  destruct (sort_by newer_first l); [done|]. injection H as ->. by left.
Qed.

Lemma keep_latest_fold tn c l m :
  mapGet c (fold_left (InMemoryHealth.keep_latest tn) l m) =
    fold_left newest_step (bfilter (InMemoryHealth.of_component tn c) l) (mapGet c m).
Proof.
  revert m. induction l as [|r l IH]; intros m; simpl; [done|]. rewrite IH, bfilter_cons.
  unfold InMemoryHealth.keep_latest, InMemoryHealth.of_component.
  case_bool_decide as Ht; simpl; [|done].
  case_bool_decide as Hc; simpl.
  - subst c. destruct (mapGet (ch_componentId r) m) as [p|] eqn:Hp; simpl.
    + case_match; [by rewrite mapGet_set_eq|by rewrite Hp].
    + by rewrite mapGet_set_eq.
  - destruct (mapGet (ch_componentId r) m); [case_match|]; by rewrite ?mapGet_set_ne.
Qed.

Lemma keep_latest_wf tn l m : mapWf m -> mapWf (fold_left (InMemoryHealth.keep_latest tn) l m).
Proof.
  revert m. induction l as [|r l IH]; intros m Hm; simpl; [done|]. apply IH.
  unfold InMemoryHealth.keep_latest. repeat case_match; auto using mapSet_wf.
Qed.
End newest.

(** ** Invariant of the log *)

Section lemmas.
Context `{Z : Zod} {ZL : ZodLaws Z}.
Import InMemoryHealth.

Definition ch_kf (r : ComponentHealthRecord) : string :=
  key (ch_tenantId r) (ch_componentId r) (ch_idempotencyKey r).

#[export] Instance healthSchema_idem : IdemParse componentHealthRecordSchema.
Proof. unfold componentHealthRecordSchema. solve_idem_record. Qed.

Definition health_inv (s : State) : Prop := index_inv ch_id ch_kf (records s) (recordIdByKey s).

Lemma healthSchema_fields r r' : componentHealthRecordSchema r = Ok r' ->
  zod_uuid (ch_id r) = true /\ ch_id r' = ch_id r /\ ch_tenantId r' = ch_tenantId r /\
  ch_componentId r' = trim (ch_componentId r) /\ ch_idempotencyKey r' = trim (ch_idempotencyKey r).
Proof.
  unfold componentHealthRecordSchema. intros H. schema_fields H. subst r'.
  apply uuid_ok in E as [? _]. by split_and!.
Qed.

Lemma healthParams_fields p p' : recordComponentHealthParamsSchema p = Ok p' ->
  hp_componentId p' = trim (hp_componentId p) /\ hp_idempotencyKey p' = trim (hp_idempotencyKey p).
Proof. unfold recordComponentHealthParamsSchema. intros H. schema_fields H. by subst p'. Qed.

(** [record] finds the record of its key, or appends one. *)
Lemma record_cases env tn p s : health_inv s ->
  match record env tn p s with
  | (Ok h, s') =>
      ch_kf (health h) = key tn (trim (hp_componentId p)) (trim (hp_idempotencyKey p)) /\
      (if isDuplicate h then s' = s /\ mapGet (ch_id (health h)) (records s) = Some (health h)
       else ch_id (health h) = env_uuid env /\ ch_id (health h) ≠ "" /\
            mapGet (ch_kf (health h)) (recordIdByKey s) = None /\
            s' = mkState (mapSet (ch_id (health h)) (health h) (records s))
                   (mapSet (ch_kf (health h)) (ch_id (health h)) (recordIdByKey s)))
  | (Err _, s') => s' = s
  end.
Proof.
  intros Hs. unfold record. msimpl. destruct (tenantIdSchema tn) as [tn'|] eqn:Ht; [|done].
  pose proof (same_parse _ _ Ht) as ->.
  destruct (recordComponentHealthParamsSchema p) as [p'|] eqn:Hp; [|done].
  apply healthParams_fields in Hp as [Hc Hk]. rewrite Hc, Hk.
  destruct (indexed _ _ _) as [h|] eqn:Hi.
  - apply (indexed_some _ _ _ _ _ _ Hs) in Hi as [Hi Hkf]. done.
  - apply (indexed_none _ _ _ _ _ Hs) in Hi.
    destruct (componentHealthRecordSchema _) as [h|] eqn:Hh; [|done]. simpl.
    apply healthSchema_fields in Hh as (Hu & Hid & Htn & Hcid & Hik). simpl in *.
    assert (ch_kf h = key tn (trim (hp_componentId p)) (trim (hp_idempotencyKey p))) as Hkf.
    { unfold ch_kf. by rewrite Htn, Hcid, Hik, Hc, Hk, !trim_idem. }
    rewrite <- Hkf in *. split_and!; try done. rewrite Hid. by apply uuid_nonempty.
Qed.

Lemma record_inv env tn p s : health_inv s -> mapGet (env_uuid env) (records s) = None ->
  health_inv (record env tn p s).2.
Proof.
  intros Hs Hf. pose proof (record_cases env tn p s Hs) as H.
  destruct (record env tn p s) as [[[h []]|e] s']; simpl in *; [by destruct H as (_ & -> & _)| |by subst].
  destruct H as (_ & Hid & Hne & Hk & ->). rewrite <- Hid in Hf.
  by apply (index_insert ch_id ch_kf).
Qed.
End lemmas.

(** ** Theorems *)

Section theorems.
Context `{Z : Zod} {ZL : ZodLaws Z}.
Import InMemoryHealth.

(** The health log is idempotent and append-only: a repeated delivery for
    the same component and key, accepted, returns the first record flagged as
    a duplicate and changes nothing, and no delivery ever changes a record
    that is already there. *)
Theorem health_record_idempotent env env' tn p p' s r s1 : health_inv s ->
  mapGet (env_uuid env) (records s) = None ->
  record env tn p s = (Ok r, s1) ->
  (forall id h, mapGet id (records s) = Some h -> mapGet id (records s1) = Some h) /\
  (trim (hp_componentId p') = trim (hp_componentId p) ->
   trim (hp_idempotencyKey p') = trim (hp_idempotencyKey p) ->
   forall r' s2, record env' tn p' s1 = (Ok r', s2) ->
     health r' = health r /\ isDuplicate r' = true /\ s2 = s1).
Proof.
  intros Hs Hf H1. pose proof (record_inv env tn p s Hs Hf) as Hs1. rewrite H1 in Hs1. simpl in Hs1.
  pose proof (record_cases env tn p s Hs) as C1. rewrite H1 in C1. destruct C1 as [Hk C1].
  assert (mapGet (ch_id (health r)) (records s1) = Some (health r)) as Hg.
  { destruct (isDuplicate r); [by destruct C1 as [-> ?]|]. destruct C1 as (_ & _ & _ & ->).
    apply mapGet_set_eq. }
  split.
  - intros id h Hh. destruct (isDuplicate r); [by destruct C1 as [-> _]|].
    destruct C1 as (Hid & _ & _ & ->). simpl. rewrite mapGet_set_ne; [done|]. intros <-. congruence.
  - intros Hc Hi r' s2 H2. pose proof (record_cases env' tn p' s1 Hs1) as C2. rewrite H2 in C2.
    destruct C2 as [Hk2 C2]. rewrite Hc, Hi, <- Hk in Hk2.
    destruct (ix_records _ _ _ _ Hs1 _ _ Hg) as [_ Hix].
    destruct (isDuplicate r').
    + destruct C2 as [-> Hg2]. destruct (ix_records _ _ _ _ Hs1 _ _ Hg2) as [_ Hix2].
      rewrite Hk2, Hix in Hix2. injection Hix2 as Hix2. rewrite <- Hix2 in Hg2.
      split_and!; congruence.
    + destruct C2 as (_ & _ & Hn & _). by rewrite Hk2, Hix in Hn.
Qed.

(** The control-plane list and the per-component query agree: whatever the
    log holds, [listLatest] shows each component at most once, newest first,
    within the limit; each record it shows is exactly what [getByComponent]
    returns for that component; and it leaves a component out only when the
    list is full. *)
Theorem latest_list_agrees tn limit s l : listLatest tn limit s = (Ok l, s) ->
  (Z.of_nat (length l) <= 250) /\ NoDup (ch_componentId <$> l) /\
  StronglySorted newer_first l /\
  (forall r, r ∈ l -> getByComponent tn (ch_componentId r) s = (Ok (Some r), s)) /\
  (forall c r, getByComponent tn c s = (Ok (Some r), s) ->
     r ∈ l \/ normalizeLimit limit = Ok (Z.of_nat (length l))).
Proof.
  unfold listLatest, getByComponent. msimpl. destruct (tenantIdSchema tn) as [tn'|]; [|done].
  destruct (normalizeLimit limit) as [n|] eqn:Hn; [|done]. intros [= <-].
  apply normalizeLimit_ok in Hn as Hlim.
  set (m := latestByComponent tn' s).
  assert (mapWf m) as Hwf by apply keep_latest_wf, mapWf_nil.
  assert (forall c, mapGet c m = head (sort_by newer_first
    (bfilter (of_component tn' c) (mapValues (records s))))) as Hm.
  { intros c. unfold m, latestByComponent. by rewrite keep_latest_fold, head_sort. }
  assert (forall c r, mapGet c m = Some r -> ch_componentId r = c) as Hkey.
  { intros c r Hr. rewrite Hm, head_sort in Hr. apply newest_fold_elem, elem_of_bfilter in Hr as [Hr _].
    apply andb_true_iff in Hr as [_ Hr]. by apply bool_decide_eq_true in Hr. }
  set (q := sort_by newer_first (mapValues m)).
  assert (slice0 n q = take (Z.to_nat n) q) as ->.
  { unfold slice0. by rewrite (proj2 (Z.ltb_ge _ _)) by lia. }
  assert (NoDup (ch_componentId <$> q)) as Hnd.
  { unfold q. rewrite sort_by_perm. by apply (keyed_nodup ch_componentId). }
  split_and!.
  - rewrite length_take. lia.
  - rewrite fmap_take. rewrite <- (take_drop (Z.to_nat n)) in Hnd. by apply NoDup_app in Hnd as [? _].
  - apply StronglySorted_take, sort_by_sorted; unfold newer_first.
    + intros a b. rewrite !Z.leb_le. lia.
    + intros a b c. rewrite !Z.leb_le. lia.
  - intros r Hr%subseteq_take. apply elem_of_sort_by, elem_of_mapValues in Hr as [c Hr]; [|done].
    rewrite (Hkey _ _ Hr). by rewrite <- Hm, Hr.
  - intros c r [= Hr]. rewrite <- Hm in Hr.
    assert (r ∈ q) as Hq by (apply elem_of_sort_by, elem_of_mapValues; eauto).
    rewrite <- (take_drop (Z.to_nat n) q) in Hq. apply elem_of_app in Hq as [Hq|Hq]; [by left|].
    right. f_equal. rewrite length_take.
    assert (length (drop (Z.to_nat n) q) ≠ 0%nat) as Hd.
    { intros Hd%nil_length_inv. rewrite Hd in Hq. by apply not_elem_of_nil in Hq. }
    rewrite length_drop in Hd. lia.
Qed.
End theorems.

(** ** Witnesses *)

Module HealthExample.
Import ZodExample InMemoryHealth.

Definition report (key : string) (observedAt : Z) : RecordComponentHealthParams :=
  mkHealthParams "crm" key hs_degraded num_zero 1 120 0 true true false None 0 false
    act_use_fallback true (Some 30) ["Latency exceeds policy."] (Some observedAt).
Definition s1 : State := (record env1 tenant (report "k1" 50) init).2.
Definition s2 : State := (record env2 tenant (report "k2" 90) s1).2.
Definition newest : ComponentHealthRecord := new_health id2 tenant (report "k2" 90) 2000.
Definition oldest : ComponentHealthRecord := new_health id1 tenant (report "k1" 50) 1000.
End HealthExample.

Section witnesses.
Import ZodExample InMemoryHealth HealthExample.

Lemma health_record_idempotent_witness :
  health (mkHealthResult oldest true) = health (mkHealthResult oldest false).
Proof.
  refine (proj1 (proj2 (health_record_idempotent env1 env3 tenant (report "k1" 50)
    (report " k1" 70) init (mkHealthResult oldest false) s1 _ _ _) _ _
    (mkHealthResult oldest true) s1 _)); [apply index_inv_nil|vm_compute; reflexivity..].
Defined.

Lemma latest_list_agrees_witness :
  getByComponent tenant "crm" s2 = (Ok (Some newest), s2).
Proof.
  refine (proj1 (proj2 (proj2 (proj2 (latest_list_agrees tenant (Some 10) s2 [newest] _)))) newest _);
    [vm_compute; reflexivity|by left].
Defined.
End witnesses.
