(* ===== verification/Incidents.v ===== *)
(** * Incidents

    The incident part of
    [packages/db/src/adaptive-control-plane-repository.ts]:
    [InMemoryIncidentRepository] (module [InMemoryIncidents]) and
    [PostgresIncidentRepository] (module [PostgresIncidents]).  The in-memory
    transition awaits between its read and its write; what the other tasks do
    meanwhile is a parameter of the operation. *)

From S2P Require Import Prelude Numbers JsRuntime Domain Zod Sql ControlPlane.

(** ** Records and schemas *)

Record IncidentRecord := mkIncident {
  in_id : string;
  in_tenantId : string;
  in_incidentKey : string;
  in_componentId : string;
  in_severity : IncidentSeverity;
  in_status : IncidentStatus;
  in_title : string;
  in_summary : string;
  in_action : option HealingAction;
  in_rollbackVersionRef : option string;
  in_diagnosticMetadata : jobject;
  in_openedAt : Z;
  in_acknowledgedAt : option Z;
  in_resolvedAt : option Z;
  in_createdAt : Z;
  in_updatedAt : Z;
}.

(** The founder-facing projection: everything but [diagnosticMetadata]. *)
Record IncidentSummary := mkIncidentSummary {
  is_id : string;
  is_tenantId : string;
  is_incidentKey : string;
  is_componentId : string;
  is_severity : IncidentSeverity;
  is_status : IncidentStatus;
  is_title : string;
  is_summary : string;
  is_action : option HealingAction;
  is_rollbackVersionRef : option string;
  is_openedAt : Z;
  is_acknowledgedAt : option Z;
  is_resolvedAt : option Z;
  is_createdAt : Z;
  is_updatedAt : Z;
}.

Record CreateIncidentParams := mkCreateIncident {
  ci_incidentKey : string;
  ci_componentId : string;
  ci_severity : IncidentSeverity;
  ci_title : string;
  ci_summary : string;
  ci_action : option HealingAction;
  ci_rollbackVersionRef : option string;
  ci_diagnosticMetadata : option jobject;
  ci_openedAt : option Z;
}.

Record TransitionIncidentParams := mkTransitionIncident {
  ti_summary : option string;
  ti_action : option HealingAction;
  ti_rollbackVersionRef : option string;
}.

Section schemas.
Context `{Zod}.

Definition incidentRecordSchema (r : IncidentRecord) : result IncidentRecord :=
  id ← uuid (in_id r);
  tn ← tenantIdSchema (in_tenantId r);
  key ← nonEmptyText (in_incidentKey r);
  cid ← nonEmptyText (in_componentId r);
  title ← nonEmptyText (in_title r);
  summary ← nonEmptyText (in_summary r);
  mret (mkIncident id tn key cid (in_severity r) (in_status r) title summary (in_action r)
    (in_rollbackVersionRef r) (in_diagnosticMetadata r) (in_openedAt r) (in_acknowledgedAt r)
    (in_resolvedAt r) (in_createdAt r) (in_updatedAt r)).

Definition toIncidentSummary (r : IncidentRecord) : result IncidentSummary :=
  id ← uuid (in_id r);
  tn ← tenantIdSchema (in_tenantId r);
  key ← nonEmptyText (in_incidentKey r);
  cid ← nonEmptyText (in_componentId r);
  title ← nonEmptyText (in_title r);
  summary ← nonEmptyText (in_summary r);
  mret (mkIncidentSummary id tn key cid (in_severity r) (in_status r) title summary (in_action r)
    (in_rollbackVersionRef r) (in_openedAt r) (in_acknowledgedAt r) (in_resolvedAt r)
    (in_createdAt r) (in_updatedAt r)).

Definition createIncidentParamsSchema (p : CreateIncidentParams) : result CreateIncidentParams :=
  key ← nonEmptyText (ci_incidentKey p);
  cid ← nonEmptyText (ci_componentId p);
  title ← nonEmptyText (ci_title p);
  summary ← nonEmptyText (ci_summary p);
  rb ← zod_optional nonEmptyText (ci_rollbackVersionRef p);
  mret (mkCreateIncident key cid (ci_severity p) title summary (ci_action p) rb
    (Some (ci_diagnosticMetadata p ?: [])) (ci_openedAt p)).

Definition transitionIncidentParamsSchema (p : TransitionIncidentParams) :
    result TransitionIncidentParams :=
  summary ← zod_optional nonEmptyText (ti_summary p);
  rb ← zod_optional nonEmptyText (ti_rollbackVersionRef p);
  mret (mkTransitionIncident summary (ti_action p) rb).
End schemas.

Definition incidentTransitions (from : IncidentStatus) : list IncidentStatus :=
  match from with
  | inc_open => [inc_acknowledged; inc_mitigated; inc_resolved]
  | inc_acknowledged => [inc_mitigated; inc_resolved]
  | inc_mitigated => [inc_resolved]
  | inc_resolved => []
  end.

Definition assertIncidentTransition (from to : IncidentStatus) : result unit :=
  if bool_decide (to ∈ incidentTransitions from) then mret tt
  else Err (JsError ("Illegal incident transition: " +:+ IncidentStatus_str from +:+ " -> " +:+
    IncidentStatus_str to)).

(** The record [create] stores. *)
Definition new_incident (id tenantId : string) (p : CreateIncidentParams) (now : Z) :
    IncidentRecord :=
  mkIncident id tenantId (ci_incidentKey p) (ci_componentId p) (ci_severity p) inc_open
    (ci_title p) (ci_summary p) (ci_action p) (ci_rollbackVersionRef p)
    (ci_diagnosticMetadata p ?: []) (ci_openedAt p ?: now) None None now now.

(** [{ ...existing, status, summary, ..., updatedAt }] of [transition] *)
Definition transitioned (r : IncidentRecord) (to : IncidentStatus) (p : TransitionIncidentParams)
    (now : Z) : IncidentRecord :=
  mkIncident (in_id r) (in_tenantId r) (in_incidentKey r) (in_componentId r) (in_severity r) to
    (in_title r) (ti_summary p ?: in_summary r) (ti_action p ?:? in_action r)
    (ti_rollbackVersionRef p ?:? in_rollbackVersionRef r) (in_diagnosticMetadata r) (in_openedAt r)
    (if bool_decide (to = inc_acknowledged) then Some (in_acknowledgedAt r ?: now)
     else in_acknowledgedAt r)
    (if bool_decide (to = inc_resolved) then Some now else in_resolvedAt r)
    (in_createdAt r) now.

(** ** The in-memory repository *)

Module InMemoryIncidents.
Record State := mkState {
  recordsById : jsmap IncidentRecord;
  recordIdByKey : jsmap string;
}.

#[export] Instance state_eta : Eta State := fun s => mkState (recordsById s) (recordIdByKey s).

Definition init : State := mkState [] [].

Definition key (tenantId incidentKey : string) : string := tenantId +:+ ":" +:+ incidentKey.

Section ops.
Context `{Zod}.

Definition create (env : call_env) (tenantId : string) (params : CreateIncidentParams) :
    M State IncidentRecord :=
  parsedTenantId ← lift (tenantIdSchema tenantId);
  parsed ← lift (createIncidentParamsSchema params);
  let key := key parsedTenantId (ci_incidentKey parsed) in
  existing ← gets (fun s => indexed (recordsById s) (recordIdByKey s) key);
  match existing with
  | Some record => mret record
  | None =>
      record ← lift (incidentRecordSchema
        (new_incident (env_uuid env) parsedTenantId parsed (env_now env)));
      modify (fun s => s <| recordsById := mapSet (in_id record) record (recordsById s) |>);;
      modify (fun s => s <| recordIdByKey := mapSet key (in_id record) (recordIdByKey s) |>);;
      mret record
  end.

Definition findScopedRecord (tenantId id : string) (s : State) : option IncidentRecord :=
  match mapGet id (recordsById s) with
  | Some r => if bool_decide (in_tenantId r = tenantId) then Some r else None
  | None => None
  end.

Definition getById (tenantId id : string) : M State (option IncidentRecord) :=
  parsedTenantId ← lift (tenantIdSchema tenantId);
  gets (findScopedRecord parsedTenantId id).

Definition listRecent (tenantId : string) (limit : option Z) (status : option IncidentStatus) :
    M State (list IncidentRecord) :=
  parsedTenantId ← lift (tenantIdSchema tenantId);
  parsedLimit ← lift (normalizeLimit limit);
  gets (fun s => slice0 parsedLimit
    (sort_by (fun a b => in_openedAt b <=? in_openedAt a)
      (bfilter (fun r => bool_decide (in_tenantId r = parsedTenantId) &&
          match status with Some st => bool_decide (in_status r = st) | None => true end)
        (mapValues (recordsById s))))).

(** [others] is what the other tasks do while the call awaits [getById]. *)
Definition transition (others : State -> State) (env : call_env) (tenantId id : string)
    (fromStatus toStatus : IncidentStatus) (params : TransitionIncidentParams) :
    M State (option IncidentRecord) :=
  parsedTenantId ← lift (tenantIdSchema tenantId);
  parsedParams ← lift (transitionIncidentParamsSchema params);
  lift (assertIncidentTransition fromStatus toStatus);;
  found ← getById parsedTenantId id;
  await others;;
  match found with
  | None => mret None
  | Some existing =>
      if negb (bool_decide (in_status existing = fromStatus)) then mret None
      else
        updated ← lift (incidentRecordSchema
          (transitioned existing toStatus parsedParams (env_now env)));
        modify (fun s => s <| recordsById := mapSet id updated (recordsById s) |>);;
        mret (Some updated)
  end.
End ops.
End InMemoryIncidents.

(** ** The Postgres repository *)

Module PostgresIncidents.
Section ops.
Context `{Zod} {E : SqlEngine}.

Definition mapIncident := incidentRecordSchema.

Definition first_mapped (rows : list IncidentRecord) : result (option IncidentRecord) :=
  match rows with
  | [] => mret None
  | row :: _ => r ← mapIncident row; mret (Some r)
  end.

(** [unique (tenant_id, incident_key)] *)
Definition same_incident (a b : IncidentRecord) : bool :=
  bool_decide (in_tenantId a = in_tenantId b) && bool_decide (in_incidentKey a = in_incidentKey b).

Definition where_key (tenantId key : string) (r : IncidentRecord) : bool :=
  holds (sql_all [col_eq (in_tenantId r) tenantId; col_eq (in_incidentKey r) key]).

(** The parameters of the insert, as their columns keep them. *)
Definition incident_columns (p : CreateIncidentParams) : CreateIncidentParams :=
  mkCreateIncident (ci_incidentKey p) (ci_componentId p) (ci_severity p) (ci_title p) (ci_summary p)
    (ci_action p) (ci_rollbackVersionRef p) (jsonb_in <$> ci_diagnosticMetadata p) (ci_openedAt p).

Definition create (env : call_env) (tenantId : string) (params : CreateIncidentParams) :
    M (table IncidentRecord) IncidentRecord :=
  parsedTenantId ← lift (db_uuid tenantId);
  parsed ← lift (createIncidentParamsSchema params);
  transaction (
    inserted ← tx_insert same_incident
      (new_incident (env_uuid env) parsedTenantId (incident_columns parsed) (env_now env));
    match inserted with
    | row :: _ => lift (mapIncident row)
    | [] =>
        found ← tx_select (where_key parsedTenantId (ci_incidentKey parsed));
        match found with
        | [] => throw (JsError "Incident create returned no row.")
        | existing :: _ => lift (mapIncident existing)
        end
    end).

Definition getById (tenantId id : string) : M (table IncidentRecord) (option IncidentRecord) :=
  parsedTenantId ← lift (db_uuid tenantId);
  parsedId ← lift (db_uuid id);
  transaction (
    found ← tx_select (fun r =>
      holds (sql_all [col_eq (in_tenantId r) parsedTenantId; col_eq (in_id r) parsedId]));
    lift (first_mapped found)).

Definition listRecent (tenantId : string) (limit : option Z) (status : option IncidentStatus) :
    M (table IncidentRecord) (list IncidentRecord) :=
  parsedTenantId ← lift (db_uuid tenantId);
  parsedLimit ← lift (normalizeLimit limit);
  transaction (
    found ← tx_select (fun r => holds (sql_all (col_eq (in_tenantId r) parsedTenantId ::
      match status with Some st => [col_eq (in_status r) st] | None => [] end)));
    lift (zod_array_map mapIncident
      (take (Z.to_nat parsedLimit) (sort_by (fun a b => in_openedAt b <=? in_openedAt a) found)))).

(** A column set to itself keeps its value, so the [SET] list is the record
    literal of the in-memory operation. *)
Definition transition (env : call_env) (tenantId id : string)
    (fromStatus toStatus : IncidentStatus) (params : TransitionIncidentParams) :
    M (table IncidentRecord) (option IncidentRecord) :=
  parsedTenantId ← lift (db_uuid tenantId);
  parsedId ← lift (db_uuid id);
  parsedParams ← lift (transitionIncidentParamsSchema params);
  lift (assertIncidentTransition fromStatus toStatus);;
  transaction (
    updated ← tx_update
      (fun r => holds (sql_all [col_eq (in_tenantId r) parsedTenantId; col_eq (in_id r) parsedId;
                  col_eq (in_status r) fromStatus]))
      (fun r => transitioned r toStatus parsedParams (env_now env));
    lift (first_mapped updated)).
End ops.
End PostgresIncidents.

(** ** Calls *)

Inductive incident_call :=
  | ICreate (tenantId : string) (p : CreateIncidentParams)
  | IGet (tenantId id : string)
  | ITransition (tenantId id : string) (from to : IncidentStatus) (p : TransitionIncidentParams).

(** A call, with what the other tasks do while it awaits. *)
Abbreviation incident_task := (incident_call * (InMemoryIncidents.State -> InMemoryIncidents.State))%type.
Definition alone (c : incident_call) : incident_task := (c, fun s => s).

Section exec.
Context `{Z : Zod} {E : SqlEngine}.

(** Only [transition] awaits before it writes. *)
Definition memory_exec (c : incident_task) (env : call_env) :
    M InMemoryIncidents.State (option IncidentRecord) :=
  match c.1 with
  | ICreate tn p => r ← InMemoryIncidents.create env tn p; mret (Some r)
  | IGet tn id => InMemoryIncidents.getById tn id
  | ITransition tn id from to p => InMemoryIncidents.transition c.2 env tn id from to p
  end.

Definition postgres_exec (c : incident_call) (env : call_env) :
    M (table IncidentRecord) (option IncidentRecord) :=
  match c with
  | ICreate tn p => r ← PostgresIncidents.create env tn p; mret (Some r)
  | IGet tn id => PostgresIncidents.getById tn id
  | ITransition tn id from to p => PostgresIncidents.transition env tn id from to p
  end.

(** The ids are written as the database prints them, and the diagnostic
    metadata has its keys in the order [jsonb] keeps. *)
Definition incident_columns_ok (c : incident_call) : Prop :=
  match c with
  | ICreate tn p => canonical tn /\ jsonb_in (ci_diagnosticMetadata p ?: []) = ci_diagnosticMetadata p ?: []
  | IGet tn id | ITransition tn id _ _ _ => canonical tn /\ canonical id
  end.
End exec.

(** ** Lemmas *)

Section lemmas.
Context `{Z : Zod} {ZL : ZodLaws Z}.
Import InMemoryIncidents.

Definition in_kf (r : IncidentRecord) : string := key (in_tenantId r) (in_incidentKey r).

#[export] Instance incidentSchema_idem : IdemParse incidentRecordSchema.
Proof. unfold incidentRecordSchema. solve_idem_record. Qed.

Record incident_inv (s : State) : Prop := {
  ii_index : index_inv in_id in_kf (recordsById s) (recordIdByKey s);
  ii_valid id r : mapGet id (recordsById s) = Some r -> incidentRecordSchema r = Ok r;
}.

Lemma incident_inv_init : incident_inv init.
Proof. split; [apply index_inv_nil|done]. Qed.

Lemma incidentSchema_fields r r' : incidentRecordSchema r = Ok r' ->
  zod_uuid (in_id r) = true /\ zod_uuid (in_tenantId r) = true /\
  r' = mkIncident (in_id r) (in_tenantId r) (trim (in_incidentKey r)) (trim (in_componentId r))
    (in_severity r) (in_status r) (trim (in_title r)) (trim (in_summary r)) (in_action r)
    (in_rollbackVersionRef r) (in_diagnosticMetadata r) (in_openedAt r) (in_acknowledgedAt r)
    (in_resolvedAt r) (in_createdAt r) (in_updatedAt r).
Proof.
  unfold incidentRecordSchema. intros H. schema_fields H. subst r'.
  apply uuid_ok in E as [? _]. apply tenantIdSchema_ok in E0 as [? _]. done.
Qed.

Lemma incidentParams_fields p p' : createIncidentParamsSchema p = Ok p' ->
  p' = mkCreateIncident (trim (ci_incidentKey p)) (trim (ci_componentId p)) (ci_severity p)
    (trim (ci_title p)) (trim (ci_summary p)) (ci_action p) (trim <$> ci_rollbackVersionRef p)
    (Some (ci_diagnosticMetadata p ?: [])) (ci_openedAt p).
Proof. unfold createIncidentParamsSchema. intros H. schema_fields H. by subst p'. Qed.

Lemma transitionParams_summary p p' s : transitionIncidentParamsSchema p = Ok p' ->
  ti_summary p' = Some s -> nonEmptyText s = Ok s.
Proof.
  unfold transitionIncidentParamsSchema. msimpl.
  destruct (zod_optional nonEmptyText (ti_summary p)) as [o|] eqn:Eo; [|done].
  pose proof (idem_parse _ _ Eo) as Ei.
  destruct (zod_optional nonEmptyText (ti_rollbackVersionRef p)); [|done].
  intros [= <-]. simpl. intros ->. cbn in Ei. destruct (nonEmptyText s) as [b|]; [|done].
  by injection Ei as ->.
Qed.

(** A transition of a valid incident is valid. *)
Lemma transitioned_valid r to p p' now : incidentRecordSchema r = Ok r ->
  transitionIncidentParamsSchema p = Ok p' ->
  incidentRecordSchema (transitioned r to p' now) = Ok (transitioned r to p' now).
Proof.
  intros Hr Hp. unfold incidentRecordSchema, transitioned in *. cbn. schema_fields Hr.
  cbv beta delta [mret result_ret mbind result_bind]. cbn.
  assert (nonEmptyText (ti_summary p' ?: in_summary r) = Ok (ti_summary p' ?: in_summary r)) as ->.
  { destruct (ti_summary p') as [t|] eqn:Et; simpl; [by eapply transitionParams_summary|].
    rewrite E4. f_equal. exact (f_equal in_summary Hr). }
  do 2 f_equal; [exact (f_equal in_incidentKey Hr)|exact (f_equal in_componentId Hr)|
    exact (f_equal in_title Hr)].
Qed.

Lemma incident_find_some tn id s r : findScopedRecord tn id s = Some r <->
  mapGet id (recordsById s) = Some r /\ in_tenantId r = tn.
Proof.
  unfold findScopedRecord. destruct (mapGet id _) as [q|]; [|naive_solver].
  case_bool_decide; naive_solver.
Qed.

(** The transition with its arguments parsed: the guard looks at the incident
    read before the await, the write goes to the state after it. *)
Lemma transition_eq others env tn id from to p p' s : incident_inv s -> zod_uuid tn = true ->
  transitionIncidentParamsSchema p = Ok p' -> to ∈ incidentTransitions from ->
  transition others env tn id from to p s =
    match findScopedRecord tn id s with
    | Some r =>
        if bool_decide (in_status r = from)
        then let u := transitioned r to p' (env_now env) in
             (Ok (Some u), others s <| recordsById := mapSet id u (recordsById (others s)) |>)
        else (Ok None, others s)
    | None => (Ok None, others s)
    end.
Proof.
  intros Hs Hz Hp Hto. unfold transition, getById, await, assertIncidentTransition. msimpl.
  rewrite !(proj2 (tenantIdSchema_ok tn tn)), Hp, (bool_decide_true _ Hto) by done. simpl.
  destruct (findScopedRecord tn id s) as [r|] eqn:Hf; [|done].
  case_bool_decide; simpl; [|done]. apply incident_find_some in Hf as [Hr _].
  by rewrite (transitioned_valid r to p p' _ (ii_valid _ Hs _ _ Hr) Hp).
Qed.

Lemma transition_reject others env tn id from to p s : zod_uuid tn = true ->
  (forall p', transitionIncidentParamsSchema p ≠ Ok p') \/ to ∉ incidentTransitions from ->
  exists x, transition others env tn id from to p s = (Err x, s) /\
    forall (E : SqlEngine) t, canonical tn -> canonical id ->
      PostgresIncidents.transition env tn id from to p t = (Err x, t).
Proof.
  intros Hz H. unfold transition, PostgresIncidents.transition, assertIncidentTransition. msimpl.
  rewrite !(proj2 (tenantIdSchema_ok tn tn)) by done. simpl.
  destruct (transitionIncidentParamsSchema p) as [p'|x] eqn:Hp.
  - destruct H as [H|H]; [by destruct (H p')|]. rewrite (bool_decide_false _ H). simpl.
    eexists. split; [done|]. intros E t Hn Hi. by rewrite !db_uuid_canonical by done.
  - exists x. split; [done|]. intros E t Hn Hi. by rewrite !db_uuid_canonical by done.
Qed.

(** What identifies an incident. *)
Lemma transitioned_key r to p now :
  in_id (transitioned r to p now) = in_id r /\ in_kf (transitioned r to p now) = in_kf r.
Proof. done. Qed.

(** *** Postgres *)

Context {E : SqlEngine} {L : SqlLaws E}.

Definition inc_rel (s : State) (t : table IncidentRecord) : Prop := table_rel (recordsById s) t.

Lemma first_mapped_status rs u : PostgresIncidents.first_mapped rs = Ok (Some u) ->
  exists v, v ∈ rs /\ in_status u = in_status v.
Proof.
  destruct rs as [|v rs]; simpl; msimpl; [done|]. unfold PostgresIncidents.mapIncident.
  destruct (incidentRecordSchema v) as [w|] eqn:Hv; [|done]. intros [= ->]. exists v.
  apply incidentSchema_fields in Hv as (_ & _ & ->). split; [by left|done].
Qed.

Lemma where_row tn id (r : IncidentRecord) :
  holds (sql_all [col_eq (in_tenantId r) tn; col_eq (in_id r) id]) =
  bool_decide (in_id r = id) && bool_decide (in_tenantId r = tn).
Proof. sql_simpl. apply andb_comm. Qed.

Lemma incident_valid_stored s r : incident_inv s -> r ∈ mapValues (recordsById s) ->
  incidentRecordSchema r = Ok r.
Proof.
  intros Hs Hr. apply (keyed_values in_id) in Hr; [|apply (ii_index _ Hs)].
  by eapply (ii_valid _ Hs).
Qed.

Lemma incident_transition_refines env tn id from to p s t : incident_inv s -> inc_rel s t ->
  canonical tn -> canonical id ->
  (transition (fun s => s) env tn id from to p s).1 =
    (PostgresIncidents.transition env tn id from to p t).1 /\
  inc_rel (transition (fun s => s) env tn id from to p s).2
    (PostgresIncidents.transition env tn id from to p t).2.
Proof.
  intros Hs Ht Hc Hi. pose proof (canonical_uuid _ Hc) as Hz.
  destruct (transitionIncidentParamsSchema p) as [p'|x] eqn:Hp.
  2: { destruct (transition_reject (fun s => s) env tn id from to p s Hz) as (e & -> & H).
       - left. intros p'. congruence.
       - by rewrite H. }
  destruct (decide (to ∈ incidentTransitions from)) as [Hto|Hto].
  2: { destruct (transition_reject (fun s => s) env tn id from to p s Hz) as (e & -> & H).
       - by right.
       - by rewrite H. }
  rewrite (transition_eq _ env tn id from to p p' s Hs Hz Hp Hto).
  unfold PostgresIncidents.transition, transaction, tx_update, assertIncidentTransition. msimpl.
  rewrite (db_uuid_canonical tn), (db_uuid_canonical id), Hp, (bool_decide_true _ Hto) by done.
  simpl. set (q := fun r : IncidentRecord => holds _). set (f := fun r => transitioned r to p' _).
  assert (forall x, q x = bool_decide (in_id x = id) &&
    (bool_decide (in_tenantId x = tn) && bool_decide (in_status x = from))) as Hq.
  { intros x. unfold q. sql_simpl.
    by destruct (bool_decide (in_id x = id)), (bool_decide (in_tenantId x = tn)). }
  pose proof (cas_refines in_id _ t id q _ f (ix_keyed _ _ _ _ (ii_index _ Hs)) Ht
    (fun x _ => Hq x) (fun _ => eq_refl)) as Hcas. clear Hq.
  destruct (update q f t) as [rs t']. unfold findScopedRecord. simpl in Hcas.
  destruct (mapGet id (recordsById s)) as [r|] eqn:Hr; [|by destruct Hcas as [-> ?]].
  pose proof (transitioned_valid r to p p' (env_now env) (ii_valid _ Hs _ _ Hr) Hp) as Hv.
  case_bool_decide; simpl in Hcas; [|by destruct Hcas as [-> ?]].
  case_bool_decide; simpl in Hcas; [|by destruct Hcas as [-> ?]]. destruct Hcas as [-> Hrel]. simpl.
  unfold PostgresIncidents.mapIncident. fold (f r) in Hv. rewrite Hv. by split.
Qed.

Lemma incident_key_inj a b : zod_uuid (in_tenantId a) = true -> zod_uuid (in_tenantId b) = true ->
  in_kf a = in_kf b <-> in_tenantId a = in_tenantId b /\ in_incidentKey a = in_incidentKey b.
Proof.
  intros Ha Hb. unfold in_kf, key. split; [|by intros [-> ->]].
  apply colon_key_inj; by apply zod_uuid_no_colon.
Qed.

Lemma incident_create_refines env tn p s t : incident_inv s -> inc_rel s t ->
  incident_columns_ok (ICreate tn p) -> mapGet (env_uuid env) (recordsById s) = None ->
  (create env tn p s).1 = (PostgresIncidents.create env tn p t).1 /\
  inc_rel (create env tn p s).2 (PostgresIncidents.create env tn p t).2.
Proof.
  intros Hs Ht [Hcan Hj] Hf. pose proof (canonical_uuid _ Hcan) as Hz. unfold create, PostgresIncidents.create.
  rewrite (proj2 (tenantIdSchema_ok tn tn)), (db_uuid_canonical tn) by done. msimpl.
  destruct (createIncidentParamsSchema p) as [p'|x] eqn:Hp; [|done].
  assert (PostgresIncidents.incident_columns p' = p') as ->.
  { apply incidentParams_fields in Hp as ->. unfold PostgresIncidents.incident_columns. simpl. by rewrite Hj. }
  unfold transaction, tx_insert, tx_select. msimpl.
  set (new := new_incident (env_uuid env) tn p' (env_now env)).
  change (key tn (ci_incidentKey p')) with (in_kf new).
  set (m := recordsById s) in *.
  pose proof (index_conflict in_id in_kf m _ t new PostgresIncidents.same_incident
    (PostgresIncidents.where_key tn (ci_incidentKey p')) (ii_index _ Hs) Ht) as Hc.
  assert (forall v, v ∈ mapValues m -> PostgresIncidents.same_incident new v =
    bool_decide (in_kf v = in_kf new)) as Hsame.
  { intros v Hv. destruct (incidentSchema_fields _ _ (incident_valid_stored _ _ Hs Hv)) as (_ & Htn & _).
    apply eq_true_iff_eq. unfold PostgresIncidents.same_incident.
    rewrite andb_true_iff, !bool_decide_eq_true, (incident_key_inj v new) by done. naive_solver. }
  specialize (Hc Hsame). destruct (indexed m _ (in_kf new)) as [r|]; lapply Hc; clear Hc.
  2,4: intros v Hv; rewrite <- Hsame by done;
    unfold PostgresIncidents.where_key, PostgresIncidents.same_incident; sql_simpl;
    f_equal; apply bool_decide_ext; naive_solver.
  - intros (-> & Hsel & Hin). simpl. rewrite Hsel. unfold PostgresIncidents.mapIncident.
    rewrite (incident_valid_stored _ _ Hs Hin). by split.
  - intros [_ Hc]. destruct (Hc Hf) as [Hins Hrel].
    destruct (insert _ new _) as [ins t']. simpl in Hins, Hrel. subst ins. simpl.
    unfold PostgresIncidents.mapIncident.
    destruct (incidentRecordSchema new) as [r|x] eqn:Hnew; simpl; [|by split].
    assert (r = new) as ->; [|by split].
    apply incidentParams_fields in Hp as ->. apply incidentSchema_fields in Hnew as (_ & _ & ->).
    unfold new, new_incident. simpl. by rewrite !trim_idem.
Qed.

Lemma incident_exec_refines c env s t : incident_inv s -> inc_rel s t -> incident_columns_ok c ->
  mapGet (env_uuid env) (recordsById s) = None ->
  (memory_exec (alone c) env s).1 = (postgres_exec c env t).1 /\
  inc_rel (memory_exec (alone c) env s).2 (postgres_exec c env t).2.
Proof.
  intros Hs Ht Hc Hf. unfold memory_exec, alone. destruct c as [tn p|tn id|tn id from to p]; simpl in Hc |- *.
  - destruct (incident_create_refines env tn p s t Hs Ht Hc Hf) as [H1 H2]. simpl. msimpl.
    destruct (create env tn p s) as [[?|?] ?], (PostgresIncidents.create env tn p t) as [[?|?] ?];
      simpl in *; by simplify_eq.
  - destruct Hc as [Hz Hi]. simpl. unfold getById, PostgresIncidents.getById, transaction, tx_select.
    msimpl. rewrite (db_uuid_canonical tn), (db_uuid_canonical id), (proj2 (tenantIdSchema_ok tn tn)) by first [done | split; [by apply canonical_uuid|done]]. simpl.
    rewrite (select_keyed in_id _ _ id _ (fun r => bool_decide (in_tenantId r = tn))
      (ix_keyed _ _ _ _ (ii_index _ Hs)) Ht) by (intros; apply where_row).
    unfold findScopedRecord. destruct (mapGet id (recordsById s)) as [r|] eqn:Hr; [|done].
    case_bool_decide; [|done]. simpl. unfold PostgresIncidents.mapIncident.
    by rewrite (ii_valid _ Hs _ _ Hr).
  - destruct Hc. by apply incident_transition_refines.
Qed.
End lemmas.

(** ** The life of an incident *)

Definition incident_rank (s : IncidentStatus) : Z :=
  match s with inc_open => 0 | inc_acknowledged => 1 | inc_mitigated => 2 | inc_resolved => 3 end.

(** The timestamps agree with the status. *)
Definition incident_marks (r : IncidentRecord) : Prop :=
  (in_status r = inc_resolved <-> in_resolvedAt r ≠ None) /\
  (in_status r = inc_acknowledged -> in_acknowledgedAt r ≠ None).

(** What no transition changes. *)
Definition incident_identity (r : IncidentRecord) :=
  (in_id r, in_tenantId r, in_incidentKey r, in_componentId r, in_severity r, in_title r,
   in_diagnosticMetadata r, in_openedAt r, in_createdAt r).

Definition incident_after (r r' : IncidentRecord) : Prop :=
  incident_identity r' = incident_identity r /\ incident_marks r' /\
  (r' = r \/ incident_rank (in_status r) < incident_rank (in_status r')).

Lemma transitions_advance from to : to ∈ incidentTransitions from ->
  incident_rank from < incident_rank to.
Proof. rewrite list_elem_of_In. destruct from, to; simpl; naive_solver lia. Qed.

Lemma transitioned_after r to p now : incident_marks r -> to ∈ incidentTransitions (in_status r) ->
  incident_after r (transitioned r to p now).
Proof.
  intros [Hr Ha] Hto. pose proof (transitions_advance _ _ Hto) as Hlt. split; [done|].
  split; [|by right]. unfold incident_marks, transitioned. simpl.
  destruct (decide (to = inc_resolved)) as [->|Hne].
  - by rewrite bool_decide_true.
  - rewrite (bool_decide_false _ Hne). split.
    + split; [done|]. intros H%Hr. rewrite H in Hlt. by destruct to.
    + intros ->. done.
Qed.

Lemma incident_after_trans r1 r2 r3 : incident_after r1 r2 -> incident_after r2 r3 ->
  incident_after r1 r3.
Proof.
  intros (E1 & M1 & [->|H1]) (E2 & M2 & [->|H2]); split; try congruence; (split; [done|]); auto.
  right. lia.
Qed.

Section life.
Context `{Z : Zod} {ZL : ZodLaws Z}.
Import InMemoryIncidents.
Implicit Types (cs : list (incident_task * call_env)).

Definition marked (s : State) : Prop :=
  forall id r, mapGet id (recordsById s) = Some r -> incident_marks r.

(** What other tasks may do to a repository in order: they leave it in order,
    with its incidents moved on at most. *)
Record moves_on (s s' : State) : Prop := {
  mo_inv : incident_inv s';
  mo_marked : marked s';
  mo_after id r : mapGet id (recordsById s) = Some r ->
    exists r', mapGet id (recordsById s') = Some r' /\ incident_after r r';
}.

Lemma moves_on_refl s : incident_inv s -> marked s -> moves_on s s.
Proof.
  intros Hs Hm. split; [done..|]. intros id r Hr. exists r. split; [done|]. split; [done|].
  split; [by eapply Hm|by left].
Qed.

(** The ids that are handed out are new, and the other tasks behave. *)
Fixpoint run_ok cs (s : State) : Prop :=
  match cs with
  | [] => True
  | (c, env) :: cs' => mapGet (env_uuid env) (recordsById s) = None /\ moves_on s (c.2 s) /\
      run_ok cs' (memory_exec c env s).2
  end.

(** No other task stores the incident [id] while a transition of it awaits. *)
Definition undisturbed (id : string) (c : incident_task) (s : State) : Prop :=
  match c.1 with
  | ITransition _ id' _ _ _ => id' = id -> mapGet id (recordsById (c.2 s)) = mapGet id (recordsById s)
  | _ => True
  end.
Fixpoint run_undisturbed (id : string) cs (s : State) : Prop :=
  match cs with
  | [] => True
  | (c, env) :: cs' => undisturbed id c s /\ run_undisturbed id cs' (memory_exec c env s).2
  end.

(** A transition: refused, or without effect, or the write of the incident
    read before the await. *)
Lemma incident_transition_cases others env tn id from to p s : incident_inv s ->
  (exists x, transition others env tn id from to p s = (Err x, s)) \/
  transition others env tn id from to p s = (Ok None, others s) \/
  exists r p', mapGet id (recordsById s) = Some r /\ in_tenantId r = tn /\ in_status r = from /\
    to ∈ incidentTransitions from /\ transitionIncidentParamsSchema p = Ok p' /\
    let u := transitioned r to p' (env_now env) in
    incidentRecordSchema u = Ok u /\
    transition others env tn id from to p s =
      (Ok (Some u), others s <| recordsById := mapSet id u (recordsById (others s)) |>).
Proof.
  intros Hs. destruct (tenantIdSchema tn) as [tn'|x] eqn:Ht.
  2: { left. exists x. unfold transition. msimpl. by rewrite Ht. }
  apply tenantIdSchema_ok in Ht as [Hz ->].
  destruct (transitionIncidentParamsSchema p) as [p'|x] eqn:Hp.
  2: { left. destruct (transition_reject others env tn id from to p s Hz) as (e & -> & _); [|eauto].
       left. intros p'. congruence. }
  destruct (decide (to ∈ incidentTransitions from)) as [Hto|Hto].
  2: { left. destruct (transition_reject others env tn id from to p s Hz) as (e & -> & _); eauto. }
  right. rewrite (transition_eq _ env tn id from to p p' s Hs Hz Hp Hto).
  destruct (findScopedRecord tn id s) as [r|] eqn:Hfr; [|by left]. case_bool_decide as Hst; [|by left].
  right. apply incident_find_some in Hfr as [Hr Htn]. exists r, p'. split_and!; try done. cbv zeta. split; [|done].
  apply (transitioned_valid r to p p'); [by eapply (ii_valid _ Hs)|done].
Qed.

Lemma incident_create_effect env tn p s : incident_inv s -> marked s ->
  mapGet (env_uuid env) (recordsById s) = None -> moves_on s (create env tn p s).2.
Proof.
  intros Hs Hm Hf. pose proof (moves_on_refl s Hs Hm) as Hrefl. unfold create. msimpl.
  destruct (tenantIdSchema tn) as [tn'|]; [|done].
  destruct (createIncidentParamsSchema p) as [p'|] eqn:Hp; [|done].
  destruct (indexed _ _ _) eqn:Hi; [done|]. apply (indexed_none _ _ _ _ _ (ii_index _ Hs)) in Hi.
  destruct (incidentRecordSchema _) as [r|] eqn:Hr; [|done]. simpl.
  pose proof (idem_parse _ _ Hr) as Hr'. apply incidentParams_fields in Hp as ->.
  apply incidentSchema_fields in Hr as (Hu & _ & ->). simpl in *.
  set (r := mkIncident _ _ _ _ _ _ _ _ _ _ _ _ _ _ _ _) in *.
  assert (key tn' (trim (ci_incidentKey p)) = in_kf r) as Hk
    by (unfold in_kf; simpl; by rewrite trim_idem).
  rewrite Hk in *. split; [split|..]; simpl.
  - apply (index_insert in_id in_kf _ _ r); [apply Hs|by apply uuid_nonempty|done|done].
  - intros id q. rewrite mapGet_set. case_bool_decide; [by intros [= <-]|apply Hs].
  - intros id q. simpl. rewrite mapGet_set. case_bool_decide; [|apply Hm]. by intros [= <-].
  - intros id q Hq. rewrite mapGet_set_ne by congruence. by apply Hrefl.
Qed.

(** A write of a stale incident keeps the repository in order, and what
    identifies the incident. *)
Lemma stale_write others id r to p p' now s : moves_on s (others s) ->
  mapGet id (recordsById s) = Some r -> incident_marks r -> to ∈ incidentTransitions (in_status r) ->
  incidentRecordSchema r = Ok r -> transitionIncidentParamsSchema p = Ok p' ->
  let u := transitioned r to p' now in
  let s' := others s <| recordsById := mapSet id u (recordsById (others s)) |> in
  incident_inv s' /\ marked s' /\ incident_after r u.
Proof.
  intros [Hi Hm Ha] Hr Hmr Hto Hv Hp u s'. pose proof (transitioned_after r to p' now Hmr Hto) as Hu.
  destruct (Ha id r Hr) as (r1 & Hr1 & Hid & _). injection Hid as H1 H2 H3 _ _ _ _ _ _.
  split_and!; [split; simpl| |done].
  - apply (index_update in_id in_kf _ _ id r1 u (ii_index _ Hi)); [done| |].
    + simpl. congruence.
    + unfold in_kf. simpl. congruence.
  - intros id' q. rewrite mapGet_set. case_bool_decide; [|apply Hi]. intros [= <-].
    by apply (transitioned_valid r to p p').
  - intros id' q. simpl. rewrite mapGet_set. case_bool_decide; [|apply Hm]. intros [= <-]. apply Hu.
Qed.

(** One call: the repository stays in order and every incident keeps its
    identity; an undisturbed one moves on at most. *)
Lemma incident_exec_effect c env s : incident_inv s -> marked s ->
  mapGet (env_uuid env) (recordsById s) = None -> moves_on s (c.2 s) ->
  let s' := (memory_exec c env s).2 in
  incident_inv s' /\ marked s' /\
  forall id r, mapGet id (recordsById s) = Some r ->
    exists r', mapGet id (recordsById s') = Some r' /\ incident_identity r' = incident_identity r /\
      (undisturbed id c s -> incident_after r r').
Proof.
  intros Hs Hm Hf Ho. assert (forall s', moves_on s s' -> incident_inv s' /\ marked s' /\
    forall id r, mapGet id (recordsById s) = Some r ->
    exists r', mapGet id (recordsById s') = Some r' /\ incident_identity r' = incident_identity r /\
      (undisturbed id c s -> incident_after r r')) as Hmo.
  { intros s' [H1 H2 H3]. split_and!; [done..|]. intros id r Hr. destruct (H3 id r Hr) as (r' & ? & Ha).
    exists r'. split_and!; [done|apply Ha|done]. }
  pose proof (moves_on_refl s Hs Hm) as Hrefl. unfold memory_exec.
  destruct c as [[tn p|tn id|tn id from to p] others]; cbn [fst snd] in *.
  - pose proof (incident_create_effect env tn p s Hs Hm Hf) as H. msimpl. destruct (create env tn p s) as [[?|?] ?]; by apply Hmo.
  - unfold getById. msimpl. destruct (tenantIdSchema tn); by apply Hmo.
  - destruct (incident_transition_cases others env tn id from to p s Hs) as [[x ->]|[->|(r & p' & Hr & _ & Hst & Hto & Hp & Hv & ->)]];
      [by apply Hmo..|]. simpl. subst from.
    destruct (stale_write others id r to p p' (env_now env) s Ho Hr (Hm _ _ Hr) Hto (ii_valid _ Hs _ _ Hr) Hp)
      as (H1 & H2 & Hu). split_and!; [done..|].
    intros id' q Hq. simpl. rewrite mapGet_set. case_bool_decide as Hid.
    + subst id'. assert (q = r) as -> by congruence. eexists. split_and!; [done|apply Hu|done].
    + destruct (mo_after _ _ Ho id' q Hq) as (q' & Hq' & Ha). exists q'. split_and!; [done|apply Ha|done].
Qed.

(** Without others in between. *)
Fixpoint ids_fresh (cs : list (incident_call * call_env)) (s : State) : Prop :=
  match cs with
  | [] => True
  | (c, env) :: cs' => mapGet (env_uuid env) (recordsById s) = None /\
      ids_fresh cs' (memory_exec (alone c) env s).2
  end.

Lemma alone_inv c env s : incident_inv s -> marked s -> mapGet (env_uuid env) (recordsById s) = None ->
  incident_inv (memory_exec (alone c) env s).2 /\ marked (memory_exec (alone c) env s).2.
Proof.
  intros Hs Hm Hf. destruct (incident_exec_effect (alone c) env s Hs Hm Hf) as (? & ? & _); [|done].
  by apply moves_on_refl.
Qed.

(** A call that nothing interrupts is what other tasks may do. *)
Lemma alone_moves_on c env s : incident_inv s -> marked s -> mapGet (env_uuid env) (recordsById s) = None ->
  moves_on s (memory_exec (alone c) env s).2.
Proof.
  intros Hs Hm Hf. destruct (incident_exec_effect (alone c) env s Hs Hm Hf) as (H1 & H2 & H3).
  { by apply moves_on_refl. }
  split; [done..|]. intros id r Hr. destruct (H3 id r Hr) as (r' & ? & _ & Ha). exists r'. split; [done|].
  apply Ha. unfold undisturbed, alone. simpl. by destruct c.
Qed.
End life.

(** ** Properties *)

Section theorems.
Context `{Z : Zod} {ZL : ZodLaws Z}.
Import InMemoryIncidents.
Implicit Types (cs : list (incident_task * call_env)).

(** C37. Over any history of creations, look-ups and transitions, with other
    tasks running in the await of each transition, an incident keeps its
    identity, and has a resolution time exactly when it is resolved.  As long
    as no other task stores this incident while a transition of it awaits, it
    also stays as it is or moves strictly forward through open, acknowledged,
    mitigated and resolved, and a resolved incident never changes again;
    without that proviso it can move back, because the transition writes the
    incident it read before the await ([incident_transition_loses_updates]).
    The other tasks are assumed to keep the repository in order and to move
    incidents on at most, as every call by itself does ([alone_moves_on]), and
    the ids that are handed out to be new. *)
Theorem incident_lifecycle cs s id r : incident_inv s -> marked s -> run_ok cs s ->
  mapGet id (recordsById s) = Some r ->
  exists r', mapGet id (recordsById (history memory_exec cs s).2) = Some r' /\
    incident_identity r' = incident_identity r /\ incident_marks r' /\
    (run_undisturbed id cs s -> incident_after r r' /\ (in_status r = inc_resolved -> r' = r)).
Proof.
  intros Hs Hm Hf Hr.
  assert (exists r', mapGet id (recordsById (history memory_exec cs s).2) = Some r' /\
    incident_identity r' = incident_identity r /\ incident_marks r' /\
    (run_undisturbed id cs s -> incident_after r r')) as (r' & Hr' & Hid & Hmk & Ha).
  2: { exists r'. split_and!; [done..|]. intros Hu. specialize (Ha Hu). split; [done|]. intros E.
       destruct Ha as (_ & _ & [?|Hlt]); [done|]. rewrite E in Hlt. by destruct (in_status r'). }
  revert s r Hs Hm Hf Hr. induction cs as [|[c env] cs IH]; intros s r Hs Hm; simpl.
  { intros _ Hr. exists r. split_and!; [done|done|by eapply Hm|].
    intros _. split; [done|]. split; [by eapply Hm|by left]. }
  intros (Hf & Ho & Hcs) Hr. destruct (incident_exec_effect c env s Hs Hm Hf Ho) as (Hs1 & Hm1 & Hstep).
  destruct (Hstep id r Hr) as (r1 & Hr1 & Hid1 & Ha1). destruct (memory_exec c env s) as [a s1]. simpl in *.
  destruct (IH s1 r1 Hs1 Hm1 Hcs Hr1) as (r2 & Hr2 & Hid2 & Hmk2 & Ha2).
  destruct (history memory_exec cs s1) as [rs s2]. exists r2. split_and!; [done|congruence|done|].
  intros [Hu Hus]. eapply incident_after_trans; [by apply Ha1|by apply Ha2].
Qed.

(** The in-memory transition decides on the incident it read before its
    await: whatever the other tasks store for that incident in between, even
    its resolution, is overwritten by the transition of the stale record, and
    the call reports success. *)
Theorem incident_transition_loses_updates others env tn id from to p p' s r :
  incident_inv s -> zod_uuid tn = true -> transitionIncidentParamsSchema p = Ok p' ->
  to ∈ incidentTransitions from -> findScopedRecord tn id s = Some r -> in_status r = from ->
  (transition others env tn id from to p s).1 = Ok (Some (transitioned r to p' (env_now env))) /\
  (forall k, mapGet k (recordsById (transition others env tn id from to p s).2) =
     if bool_decide (id = k) then Some (transitioned r to p' (env_now env))
     else mapGet k (recordsById (others s))).
Proof.
  intros Hs Hz Hp Hto Hfr <-. rewrite (transition_eq _ _ _ _ _ _ _ _ _ Hs Hz Hp Hto), Hfr.
  rewrite bool_decide_true by done. split; [done|]. intros k. simpl. apply mapGet_set.
Qed.
End theorems.

Section postgres_theorems.
Context `{Z : Zod} {ZL : ZodLaws Z} {E : SqlEngine} {L : SqlLaws E}.
Implicit Types (cs : list (incident_call * call_env)) (t : table IncidentRecord).

(** In Postgres the status is part of the update's condition, so of two
    transitions from the same status only the first that commits can succeed:
    after one has answered with a record, the other answers [null] and leaves
    the table as it is. *)
Theorem postgres_transition_has_one_winner env env' tn id from to to' p p2 p2' t t' u :
  PostgresIncidents.transition env tn id from to p t = (Ok (Some u), t') ->
  transitionIncidentParamsSchema p2 = Ok p2' -> to' ∈ incidentTransitions from ->
  in_status u = to /\
  (PostgresIncidents.transition env' tn id from to' p2 t').1 = Ok None /\
  rows (PostgresIncidents.transition env' tn id from to' p2 t').2 ≡ₚ rows t'.
Proof.
  intros Ht Hp2 Hto'. unfold PostgresIncidents.transition, transaction, tx_update,
    assertIncidentTransition in *. revert Ht. msimpl.
  destruct (db_uuid tn) as [tn'|]; [|done]. destruct (db_uuid id) as [id'|]; [|done].
  destruct (transitionIncidentParamsSchema p) as [p'|]; [|done].
  case_bool_decide as Hto; [|done]. rewrite Hp2, (bool_decide_true _ Hto'). simpl.
  set (q := fun r : IncidentRecord => holds _). set (f := fun r => transitioned r to p' _).
  set (g := fun r => transitioned r to' p2' _). pose proof (update_returning q f t) as Hret.
  pose proof (update_rows q f t) as Hrows. destruct (update q f t) as [us t1]. simpl in Hret, Hrows.
  intros Hu. destruct (PostgresIncidents.first_mapped us) as [o|] eqn:Ho; [|done].
  injection Hu as -> ->. apply first_mapped_status in Ho as (v & Hv & Hst).
  assert (in_status u = to) as Hu.
  { rewrite Hst. rewrite Hret in Hv. by apply list_elem_of_fmap in Hv as (x & -> & _). }
  split; [done|].
  assert (forall r, r ∈ rows t' -> q r = false) as Hq.
  { intros r. rewrite Hrows. intros (x & -> & Hx)%list_elem_of_fmap.
    destruct (q x) eqn:Eq; [|done]. apply not_true_iff_false. unfold q, f, transitioned. sql_simpl.
    rewrite !andb_true_iff, !bool_decide_eq_true. simpl. intros (_ & _ & ->).
    apply transitions_advance in Hto. lia. }
  pose proof (update_returning q g t') as Hret'. pose proof (update_rows q g t') as Hrows'.
  destruct (update q g t') as [us' t2]. simpl in *. rewrite (bfilter_none q) in Hret' by done.
  apply Permutation_nil_r in Hret' as ->. split; [done|]. rewrite Hrows'.
  rewrite (list_fmap_ext _ Datatypes.id); [by rewrite list_fmap_id|].
  intros i r Hr. apply list_elem_of_lookup_2 in Hr. by rewrite Hq.
Qed.

(** As long as no other task runs in the middle of a transition, the
    in-memory repository and the Postgres one give the same answers on every
    history of creations, lookups and transitions, and hold the same bag of
    incidents; ids are UUIDs as the database prints them, and diagnostic
    metadata has its keys in the order [jsonb] keeps. *)
Theorem incidents_postgres_refines_memory cs s t : incident_inv s -> marked s -> inc_rel s t ->
  Forall (fun ce => incident_columns_ok ce.1) cs -> ids_fresh cs s ->
  (history (fun c => memory_exec (alone c)) cs s).1 = (history postgres_exec cs t).1 /\
  inc_rel (history (fun c => memory_exec (alone c)) cs s).2 (history postgres_exec cs t).2.
Proof.
  intros Hs Hm Ht Hids. revert s t Hs Hm Ht.
  induction Hids as [|[c env] cs Hc Hids IH]; intros s t Hs Hm Ht; simpl; [done|]. intros [Hf Hcs].
  destruct (incident_exec_refines c env s t Hs Ht Hc Hf) as [Ha Hrel].
  destruct (alone_inv c env s Hs Hm Hf) as [Hs' Hm'].
  destruct (memory_exec (alone c) env s) as [a s1], (postgres_exec c env t) as [a' t1]. simpl in *.
  destruct (IH s1 t1 Hs' Hm' Hrel Hcs) as [H1 H2].
  destruct (history (fun c => memory_exec (alone c)) cs s1), (history postgres_exec cs t1). simpl in *. by subst.
Qed.
End postgres_theorems.

(** ** Witnesses *)

Module IncidentExample.
Import ZodExample InMemoryIncidents.

Definition params : CreateIncidentParams :=
  mkCreateIncident "outage" "crm" sev_high "CRM is down" "Timeouts" None None None None.
Definition note (s : string) : TransitionIncidentParams := mkTransitionIncident (Some s) None None.
Definition opened : State := (memory_exec (alone (ICreate tenant params)) env1 init).2.
Definition incident : IncidentRecord :=
  new_incident id1 tenant params (env_now env1).
Definition calls : list (incident_call * call_env) :=
  [(ICreate tenant params, env2);
   (ITransition tenant id1 inc_open inc_acknowledged (note "Looking"), env2);
   (ITransition tenant id1 inc_open inc_resolved (note "Stale"), env3);
   (ITransition tenant id1 inc_acknowledged inc_resolved (note "Fixed"), env3);
   (IGet tenant id1, env3)].

(** Another task resolves the incident in the meantime. *)
Definition resolving (s : State) : State :=
  (transition (fun s => s) env2 tenant id1 inc_open inc_resolved (note "Fixed") s).2.
Definition opened_table : table (SqlEngine := ListEngine.list_engine) IncidentRecord := [incident].
Definition resolved_table : table (SqlEngine := ListEngine.list_engine) IncidentRecord :=
  [transitioned incident inc_resolved (note "Fixed") (env_now env2)].

Lemma init_marked : marked init.
Proof. done. Qed.
Lemma opened_inv : incident_inv opened.
Proof. apply (alone_inv (ICreate tenant params) env1 init incident_inv_init init_marked). done. Qed.
Lemma opened_marked : marked opened.
Proof. apply (alone_inv (ICreate tenant params) env1 init incident_inv_init init_marked). done. Qed.

(** While the incident is acknowledged, another one is opened. *)
Definition latency : CreateIncidentParams :=
  mkCreateIncident "latency" "crm" sev_high "CRM is slow" "Timeouts" None None None None.
Definition opening (s : State) : State :=
  (memory_exec (alone (ICreate tenant latency)) env3 s).2.
Definition tasks : list (incident_task * call_env) :=
  [((ITransition tenant id1 inc_open inc_acknowledged (note "Looking"), opening), env2);
   (alone (ITransition tenant id1 inc_acknowledged inc_resolved (note "Fixed")), env2)].
Lemma tasks_ok : run_ok tasks opened.
Proof.
  split; [done|]. split; [apply alone_moves_on; [apply opened_inv|apply opened_marked|done]|].
  destruct (incident_exec_effect (ITransition tenant id1 inc_open inc_acknowledged (note "Looking"), opening)
    env2 opened opened_inv opened_marked eq_refl) as (H1 & H2 & _).
  { apply alone_moves_on; [apply opened_inv|apply opened_marked|done]. }
  split; [done|]. split; [by apply moves_on_refl|done].
Qed.
Lemma tasks_undisturbed : run_undisturbed id1 tasks opened.
Proof. vm_compute. repeat split. Qed.
End IncidentExample.

Section witnesses.
Import ZodExample InMemoryIncidents IncidentExample.

Lemma incident_lifecycle_witness :
  exists r', mapGet id1 (recordsById (history memory_exec tasks opened).2) = Some r' /\
    in_status r' = inc_resolved /\ incident_after incident r'.
Proof.
  destruct (incident_lifecycle tasks opened id1 incident opened_inv opened_marked tasks_ok)
    as (r' & Hr & _ & _ & Ha).
  - vm_compute. reflexivity.
  - exists r'. split_and!; [done| |exact (proj1 (Ha tasks_undisturbed))].
    vm_compute in Hr. injection Hr as <-. reflexivity.
Defined.

Lemma incident_transition_loses_updates_witness :
  (exists r, mapGet id1 (recordsById (resolving opened)) = Some r /\ in_status r = inc_resolved) /\
  exists r, mapGet id1 (recordsById (transition resolving env3 tenant id1 inc_open inc_acknowledged
    (note "Looking") opened).2) = Some r /\ in_status r = inc_acknowledged /\ in_resolvedAt r = None.
Proof.
  split.
  { eexists. split; [vm_compute; reflexivity|reflexivity]. }
  destruct (incident_transition_loses_updates resolving env3 tenant id1 inc_open inc_acknowledged
    (note "Looking") (note "Looking") opened incident opened_inv) as [_ H];
    [done|done|by apply list_elem_of_In; simpl; auto|done..|].
  rewrite H. rewrite bool_decide_true by done. eexists. split; [reflexivity|]. split; reflexivity.
Defined.

Lemma postgres_transition_has_one_winner_witness :
  (PostgresIncidents.transition (E := ListEngine.list_engine) env3 tenant id1 inc_open inc_mitigated
    (note "Late") resolved_table).1 = Ok None.
Proof.
  refine (proj1 (proj2 (postgres_transition_has_one_winner (E := ListEngine.list_engine)
    (L := ListEngine.list_laws) env2 env3 tenant id1 inc_open inc_resolved inc_mitigated
    (note "Fixed") (note "Late") (note "Late") opened_table resolved_table
    (transitioned incident inc_resolved (note "Fixed") (env_now env2)) _ _ _)));
    [vm_compute; reflexivity|vm_compute; reflexivity|by apply list_elem_of_In; simpl; auto].
Defined.

Lemma incidents_postgres_refines_memory_witness :
  (history (fun c => memory_exec (alone c)) calls opened).1 =
  (history (postgres_exec (E := ListEngine.list_engine)) calls opened_table).1.
Proof.
  refine (proj1 (incidents_postgres_refines_memory (E := ListEngine.list_engine)
    (L := ListEngine.list_laws) calls opened opened_table opened_inv opened_marked _ _ _)).
  - vm_compute. constructor. constructor.
  - repeat apply Forall_cons_2; try apply Forall_nil_2; vm_compute; repeat split.
  - vm_compute. repeat split.
Defined.
End witnesses.
