(* ===== verification/ExternalActions.v ===== *)
(** * External actions

    [packages/db/src/external-actions-repository.ts]: the dispatch lifecycle
    of an approved action, its lease, its ledger of events and the outbox
    rows it emits; [InMemoryExternalActionsRepository] (module
    [InMemoryActions]) and [PostgresExternalActionsRepository] (module
    [PostgresActions]).  *)

From S2P Require Import Prelude Numbers JsRuntime Json StableId Domain Zod Sql Outbox ControlPlane Incidents.

(** ** Requests, records and events *)

Definition actionIdSchema : string -> result string := bounded_text 1 255.
Definition idempotencyKeySchema : string -> result string := bounded_text 1 255.

(** [/^[a-z][a-z0-9._-]*$/] *)
Definition action_type_ok (s : string) : bool :=
  match String.list_ascii_of_string s with
  | c :: cs => is_lower c && forallb type_char cs
  | [] => false
  end.
Definition actionTypeSchema : string -> result string :=
  refine (fun s => length_in 1 100 s && action_type_ok s).

Record ExternalActionRequest := mkRequest {
  rq_tenantId : string;
  rq_actionId : string;
  rq_actionType : string;
  rq_approvedBy : string;
  rq_idempotencyKey : string;
  rq_requestPayload : jobject;
}.

Record ExternalActionRecord := mkAction {
  ea_id : string;
  ea_tenantId : string;
  ea_actionId : string;
  ea_idempotencyKey : string;
  ea_requestDigest : string;
  ea_actionType : string;
  ea_approvedBy : string;
  ea_requestPayload : jobject;
  ea_state : ExternalActionState;
  ea_dispatchAttempts : Z;
  ea_dispatchLeaseOwner : option string;
  ea_dispatchLeaseExpiresAt : option Z;
  ea_lastDispatchAt : option Z;
  ea_nextRetryAt : option Z;
  ea_lastErrorCode : option string;
  ea_lastErrorMessage : option string;
  ea_dispatchReceipt : jobject;
  ea_outcome : jobject;
  ea_workflowId : option string;
  ea_executionId : option string;
  ea_providerReference : option string;
  ea_outcomeReceivedAt : option Z;
  ea_createdAt : Z;
  ea_updatedAt : Z;
}.

Record ExternalActionEventRecord := mkActionEvent {
  ev_id : string;
  ev_tenantId : string;
  ev_externalActionId : string;
  ev_eventKey : string;
  ev_eventType : string;
  ev_payload : jobject;
  ev_createdAt : Z;
}.

(** [status] of a callback. *)
Inductive ExternalActionOutcomeStatus := oc_completed | oc_failed.

#[export] Instance outcome_status_eq_dec : EqDecision ExternalActionOutcomeStatus.
Proof. solve_decision. Defined.

(** [occurredAt] after [z.coerce.date()]. *)
Record RecordExternalActionOutcome := mkOutcome {
  ro_tenantId : string;
  ro_actionId : string;
  ro_idempotencyKey : string;
  ro_callbackId : string;
  ro_status : ExternalActionOutcomeStatus;
  ro_workflowId : option string;
  ro_executionId : option string;
  ro_providerReference : option string;
  ro_outcome : option jobject;
  ro_errorCode : option string;
  ro_errorMessage : option string;
  ro_occurredAt : option Z;
}.

Record DispatchReceipt := mkReceipt {
  dr_httpStatus : Z;
  dr_body : json;
  dr_workflowId : option string;
  dr_executionId : option string;
  dr_providerReference : option string;
}.

Record ClaimExternalActionDispatch := mkClaimDispatch {
  cd_tenantId : string;
  cd_actionId : string;
  cd_idempotencyKey : string;
  cd_leaseOwner : string;
  cd_leaseDurationMs : Z;
  cd_now : option Z;
}.

Inductive Disposition := disp_claimed | disp_deferred | disp_in_flight | disp_settled.

#[export] Instance disposition_eq_dec : EqDecision Disposition.
Proof. solve_decision. Defined.

Record ExternalActionDispatchClaim := mkDispatchClaim {
  dc_disposition : Disposition;
  dc_action : ExternalActionRecord;
}.

Record RecordDispatchAcceptedInput := mkAccepted {
  ra_tenantId : string;
  ra_actionId : string;
  ra_idempotencyKey : string;
  ra_leaseOwner : string;
  ra_receipt : DispatchReceipt;
  ra_now : option Z;
}.

Record ScheduleDispatchRetryInput := mkRetry {
  sr_tenantId : string;
  sr_actionId : string;
  sr_idempotencyKey : string;
  sr_leaseOwner : string;
  sr_retryAfterMs : Z;
  sr_errorCode : option string;
  sr_errorMessage : string;
  sr_now : option Z;
}.

Record FailExternalActionDispatchInput := mkFail {
  fd_tenantId : string;
  fd_actionId : string;
  fd_idempotencyKey : string;
  fd_leaseOwner : string;
  fd_errorCode : option string;
  fd_errorMessage : string;
  fd_now : option Z;
}.

Record EnqueueExternalActionResult := mkEnqueueResult {
  er_action : ExternalActionRecord;
  er_event : StoredOutboxEvent;
  er_isDuplicate : bool;
}.

Record RecordExternalActionOutcomeResult := mkOutcomeResult {
  rr_action : ExternalActionRecord;
  rr_isDuplicate : bool;
}.

Section schemas.
Context `{Zod}.

Definition externalActionRequestSchema (r : ExternalActionRequest) : result ExternalActionRequest :=
  tn ← tenantIdSchema (rq_tenantId r);
  aid ← actionIdSchema (rq_actionId r);
  ty ← actionTypeSchema (rq_actionType r);
  by_ ← bounded_text 1 255 (rq_approvedBy r);
  ik ← idempotencyKeySchema (rq_idempotencyKey r);
  mret (mkRequest tn aid ty by_ ik (rq_requestPayload r)).

Definition externalActionRecordSchema (r : ExternalActionRecord) : result ExternalActionRecord :=
  id ← uuid (ea_id r);
  tn ← tenantIdSchema (ea_tenantId r);
  aid ← actionIdSchema (ea_actionId r);
  ik ← idempotencyKeySchema (ea_idempotencyKey r);
  dg ← bounded_text 64 64 (ea_requestDigest r);
  ty ← actionTypeSchema (ea_actionType r);
  by_ ← bounded_text 1 255 (ea_approvedBy r);
  n ← nonneg_int (ea_dispatchAttempts r);
  mret (mkAction id tn aid ik dg ty by_ (ea_requestPayload r) (ea_state r) n
    (ea_dispatchLeaseOwner r) (ea_dispatchLeaseExpiresAt r) (ea_lastDispatchAt r)
    (ea_nextRetryAt r) (ea_lastErrorCode r) (ea_lastErrorMessage r) (ea_dispatchReceipt r)
    (ea_outcome r) (ea_workflowId r) (ea_executionId r) (ea_providerReference r)
    (ea_outcomeReceivedAt r) (ea_createdAt r) (ea_updatedAt r)).

Definition externalActionEventRecordSchema (e : ExternalActionEventRecord) :
    result ExternalActionEventRecord :=
  id ← uuid (ev_id e);
  tn ← tenantIdSchema (ev_tenantId e);
  aid ← uuid (ev_externalActionId e);
  key ← min1_text (ev_eventKey e);
  ty ← min1_text (ev_eventType e);
  mret (mkActionEvent id tn aid key ty (ev_payload e) (ev_createdAt e)).

Definition recordExternalActionOutcomeSchema (i : RecordExternalActionOutcome) :
    result RecordExternalActionOutcome :=
  tn ← tenantIdSchema (ro_tenantId i);
  aid ← actionIdSchema (ro_actionId i);
  ik ← idempotencyKeySchema (ro_idempotencyKey i);
  cb ← bounded_text 1 255 (ro_callbackId i);
  wid ← zod_optional (bounded_text 1 255) (ro_workflowId i);
  eid ← zod_optional (bounded_text 1 255) (ro_executionId i);
  pr ← zod_optional (bounded_text 1 255) (ro_providerReference i);
  code ← zod_optional (bounded_text 1 255) (ro_errorCode i);
  msg ← zod_optional (bounded_text 1 2000) (ro_errorMessage i);
  mret (mkOutcome tn aid ik cb (ro_status i) wid eid pr (Some (ro_outcome i ?: [])) code msg
    (ro_occurredAt i)).

Definition validateDispatchIdentity (tenantId actionId idempotencyKey : string) : result unit :=
  tenantIdSchema tenantId;; actionIdSchema actionId;; idempotencyKeySchema idempotencyKey;; mret tt.
End schemas.

(** ** The digest of a request *)

Definition externalActionRequestDigest `{Sha256} (r : ExternalActionRequest) : string :=
  sha256_hex (stableJson (JObj [
    ("actionId", JStr (rq_actionId r)); ("actionType", JStr (rq_actionType r));
    ("approvedBy", JStr (rq_approvedBy r)); ("idempotencyKey", JStr (rq_idempotencyKey r));
    ("payload", JObj (rq_requestPayload r))])).

(** ** Redacting error messages *)

(** Read a lower-case word, ignoring case: what was read, and the rest. *)
Fixpoint read_word (w : string) (l : list Ascii.ascii) :
    option (list Ascii.ascii * list Ascii.ascii) :=
  match w, l with
  | EmptyString, _ => Some ([], l)
  | String c w', d :: l' =>
      if Ascii.eqb (to_lower d) c then
        '(r, rest) ← read_word w' l'; Some (d :: r, rest)
      else None
  | _, [] => None
  end.

Fixpoint span (p : Ascii.ascii -> bool) (l : list Ascii.ascii) :
    list Ascii.ascii * list Ascii.ascii :=
  match l with
  | c :: l' => if p c then let '(a, r) := span p l' in (c :: a, r) else ([], l)
  | [] => ([], [])
  end.

(** [[^\s,;]] *)
Definition value_char (c : Ascii.ascii) : bool :=
  negb (is_space c) && negb (bool_decide (Ascii.nat_of_ascii c ∈ [44; 59]%nat)).

(** [/(bearer\s+)[^\s,;]+/i] at the head of a text: the group, and what
    follows the match.  No shorter run of spaces can match, as a space is not
    a value character. *)
Definition match_bearer (l : list Ascii.ascii) : option (list Ascii.ascii * list Ascii.ascii) :=
  '(word, l1) ← read_word "bearer" l;
  let '(spaces, l2) := span is_space l1 in
  let '(value, rest) := span value_char l2 in
  match spaces, value with _ :: _, _ :: _ => Some (word ++ spaces, rest) | _, _ => None end.

(** [/api[_-]?key|token|secret/i] *)
Definition read_name (l : list Ascii.ascii) : option (list Ascii.ascii * list Ascii.ascii) :=
  match read_word "apikey" l with
  | Some r => Some r
  | None =>
      match read_word "api_key" l with
      | Some r => Some r
      | None =>
          match read_word "api-key" l with
          | Some r => Some r
          | None =>
              match read_word "token" l with
              | Some r => Some r
              | None => read_word "secret" l
              end
          end
      end
  end.

(** [/(api[_-]?key|token|secret)=[^\s,;]+/i] *)
Definition match_secret (l : list Ascii.ascii) : option (list Ascii.ascii * list Ascii.ascii) :=
  '(name, l1) ← read_name l;
  match read_word "=" l1 with
  | Some (_, l2) =>
      let '(value, rest) := span value_char l2 in
      match value with _ :: _ => Some (name, rest) | [] => None end
  | None => None
  end.

(** [text.replace(re, "$1" + suffix)] with the [g] flag; a match is not empty,
    so the length of the text is enough fuel. *)
Fixpoint replace_all (fuel : nat)
    (m : list Ascii.ascii -> option (list Ascii.ascii * list Ascii.ascii))
    (suffix : list Ascii.ascii) (l : list Ascii.ascii) : list Ascii.ascii :=
  match fuel, l with
  | S fuel', c :: l' =>
      match m l with
      | Some (group, rest) => group ++ suffix ++ replace_all fuel' m suffix rest
      | None => c :: replace_all fuel' m suffix l'
      end
  | _, _ => []
  end.

(** Both redactions, and the first [limit] characters. *)
Definition redact (limit : nat) (value : string) : string :=
  let l := String.list_ascii_of_string value in
  let l1 := replace_all (length l) match_bearer (String.list_ascii_of_string "[redacted]") l in
  let l2 := replace_all (length l1) match_secret (String.list_ascii_of_string "=[redacted]") l1 in
  String.string_of_list_ascii (take limit l2).

Definition sanitizeErrorMessage : string -> string := redact 2000.

Example sanitize_both :
  sanitizeErrorMessage "401 Bearer  abc.def, retry with API-Key=k1;token= x secret=s2" =
  "401 Bearer  [redacted], retry with API-Key=[redacted];token= x secret=[redacted]".
Proof. reflexivity. Qed.

(** ** States, payloads and the records each operation stores *)

Definition externalActionOutboxEventType : string := "n8n.dispatch.requested.v1".
Definition terminalStates : list ExternalActionState := [ea_dispatched; ea_completed; ea_failed].
Definition callbackEligibleStates : list ExternalActionState :=
  [ea_requested; ea_dispatching; ea_retry_scheduled; ea_dispatched].
Definition isSettled (s : ExternalActionState) : bool := bool_decide (s ∈ terminalStates).

Definition lifecyclePayload (a : ExternalActionRecord) (extra : jobject) : jobject :=
  [("external_action_id", JStr (ea_id a)); ("action_id", JStr (ea_actionId a));
   ("action_type", JStr (ea_actionType a));
   ("state", JStr (ExternalActionState_str (ea_state a)));
   ("dispatch_attempts", jint (ea_dispatchAttempts a))] ++
  spread_truthy "workflow_id" (ea_workflowId a) ++
  spread_truthy "execution_id" (ea_executionId a) ++
  spread_truthy "provider_reference" (ea_providerReference a) ++ extra.

Definition transitionEventPayload (a : ExternalActionRecord) (eventType : string)
    (details : jobject) : jobject :=
  [("state", JStr (ExternalActionState_str (ea_state a))); ("action_id", JStr (ea_actionId a));
   ("action_type", JStr (ea_actionType a)); ("dispatch_attempts", jint (ea_dispatchAttempts a));
   ("event_type", JStr eventType)] ++ details.

(** The texts [failureIncidentPayload] and the stored incident share. *)
Definition incidentKeyOf (a : ExternalActionRecord) : string :=
  "external-action:" +:+ ea_id a +:+ ":failed".
Definition incidentTitle (a : ExternalActionRecord) : string :=
  "External action " +:+ ea_actionId a +:+ " failed".
Definition incidentSummaryText (a : ExternalActionRecord) (phase : string) : string :=
  "n8n " +:+ phase +:+ " failed for " +:+ ea_actionType a +:+
  "; founder review is required before retrying or replacing the action.".
Definition incidentDiagnostics (a : ExternalActionRecord) (phase : string) : jobject :=
  [("external_action_id", JStr (ea_id a)); ("action_id", JStr (ea_actionId a));
   ("action_type", JStr (ea_actionType a)); ("phase", JStr phase);
   ("dispatch_attempts", jint (ea_dispatchAttempts a));
   ("error_code", jstr_or_null (ea_lastErrorCode a))].

Definition failureIncidentPayload (a : ExternalActionRecord) (phase : string) : jobject :=
  [("incident_key", JStr (incidentKeyOf a)); ("component_id", JStr "n8n-dispatch");
   ("severity", JStr "high"); ("title", JStr (incidentTitle a));
   ("summary", JStr (incidentSummaryText a phase));
   ("diagnostic_metadata", JObj (incidentDiagnostics a phase))].

(** [${n}] of a non-negative integer. *)
Definition nat_text (n : Z) : string := string_of_N (Z.to_N n).

Definition dispatchCommand (r : ExternalActionRequest) : EnqueueOutboxEvent :=
  mkEnqueue (rq_tenantId r) externalActionOutboxEventType (rq_idempotencyKey r)
    [("tenantId", JStr (rq_tenantId r)); ("actionId", JStr (rq_actionId r));
     ("actionType", JStr (rq_actionType r)); ("approvedBy", JStr (rq_approvedBy r));
     ("idempotencyKey", JStr (rq_idempotencyKey r)); ("payload", JObj (rq_requestPayload r))].

Definition new_action (id digest : string) (r : ExternalActionRequest) (now : Z) :
    ExternalActionRecord :=
  mkAction id (rq_tenantId r) (rq_actionId r) (rq_idempotencyKey r) digest (rq_actionType r)
    (rq_approvedBy r) (rq_requestPayload r) ea_requested 0 None None None None None None [] []
    None None None None now now.

(** [{ ...action, state: "dispatching", ... }] of [claimDispatch] *)
Definition claimedAction (a : ExternalActionRecord) (owner : string) (leaseMs now : Z) :
    ExternalActionRecord :=
  mkAction (ea_id a) (ea_tenantId a) (ea_actionId a) (ea_idempotencyKey a) (ea_requestDigest a)
    (ea_actionType a) (ea_approvedBy a) (ea_requestPayload a) ea_dispatching
    (ea_dispatchAttempts a + 1) (Some owner) (Some (now + leaseMs)) (Some now) None None None
    (ea_dispatchReceipt a) (ea_outcome a) (ea_workflowId a) (ea_executionId a)
    (ea_providerReference a) (ea_outcomeReceivedAt a) (ea_createdAt a) now.

(** What a receipt, a retry, a failure and a callback store: the lease is
    given up, and the identity, the request and the attempts are kept. *)
Definition lease_released (a : ExternalActionRecord) (state : ExternalActionState)
    (nextRetryAt : option Z) (code msg : option string) (receipt outcome : jobject)
    (wid eid pr : option string) (outcomeAt : option Z) (now : Z) : ExternalActionRecord :=
  mkAction (ea_id a) (ea_tenantId a) (ea_actionId a) (ea_idempotencyKey a) (ea_requestDigest a)
    (ea_actionType a) (ea_approvedBy a) (ea_requestPayload a) state (ea_dispatchAttempts a)
    None None (ea_lastDispatchAt a) nextRetryAt code msg receipt outcome wid eid pr outcomeAt
    (ea_createdAt a) now.

Definition receiptObject (r : DispatchReceipt) : jobject :=
  [("http_status", jint (dr_httpStatus r)); ("body", dr_body r)].

Definition acceptedAction (a : ExternalActionRecord) (r : DispatchReceipt) (now : Z) :
    ExternalActionRecord :=
  lease_released a ea_dispatched None None None (receiptObject r) (ea_outcome a)
    (dr_workflowId r ?:? ea_workflowId a) (dr_executionId r ?:? ea_executionId a)
    (dr_providerReference r ?:? ea_providerReference a) (ea_outcomeReceivedAt a) now.

Definition retriedAction (a : ExternalActionRecord) (code : option string) (msg : string)
    (retryAfterMs now : Z) : ExternalActionRecord :=
  lease_released a ea_retry_scheduled (Some (now + retryAfterMs))
    (Some (code ?: "N8N_RETRYABLE_DISPATCH_FAILURE")) (Some (sanitizeErrorMessage msg))
    (ea_dispatchReceipt a) (ea_outcome a) (ea_workflowId a) (ea_executionId a)
    (ea_providerReference a) (ea_outcomeReceivedAt a) now.

Definition failedAction (a : ExternalActionRecord) (code : option string) (msg : string)
    (now : Z) : ExternalActionRecord :=
  lease_released a ea_failed None
    (Some (code ?: "N8N_PERMANENT_DISPATCH_FAILURE")) (Some (sanitizeErrorMessage msg))
    (ea_dispatchReceipt a) (ea_outcome a) (ea_workflowId a) (ea_executionId a)
    (ea_providerReference a) (ea_outcomeReceivedAt a) now.

Definition outcome_state (s : ExternalActionOutcomeStatus) : ExternalActionState :=
  match s with oc_completed => ea_completed | oc_failed => ea_failed end.

Definition settledAction (a : ExternalActionRecord) (i : RecordExternalActionOutcome) (now : Z) :
    ExternalActionRecord :=
  let completed := bool_decide (ro_status i = oc_completed) in
  lease_released a (outcome_state (ro_status i)) None
    (if completed then None else Some (ro_errorCode i ?: "N8N_EXECUTION_FAILED"))
    (if completed then None
     else Some (sanitizeErrorMessage
       (ro_errorMessage i ?: "n8n reported a failed action outcome")))
    (ea_dispatchReceipt a) (ro_outcome i ?: [])
    (ro_workflowId i ?:? ea_workflowId a) (ro_executionId i ?:? ea_executionId a)
    (ro_providerReference i ?:? ea_providerReference a) (Some now) now.

(** What an operation writes in the ledger, and announces in the outbox. *)
Record ledger_entry := mkEntry {
  le_key : string;
  le_type : string;
  le_payload : jobject;
}.

Definition requestedEntry (r : ExternalActionRequest) (a : ExternalActionRecord) : ledger_entry :=
  mkEntry ("requested:" +:+ rq_idempotencyKey r) "requested" (transitionEventPayload a "requested" []).
Definition claimedEntry (a : ExternalActionRecord) : ledger_entry :=
  mkEntry ("dispatch_started:" +:+ nat_text (ea_dispatchAttempts a)) "dispatch_started"
    (transitionEventPayload a "dispatch_started" []).
Definition acceptedEntry (a : ExternalActionRecord) (r : DispatchReceipt) : ledger_entry :=
  mkEntry ("dispatch_accepted:" +:+ nat_text (ea_dispatchAttempts a)) "dispatch_accepted"
    (transitionEventPayload a "dispatch_accepted" [("http_status", jint (dr_httpStatus r))]).

(** [undefined] fields are dropped when the object is stored. *)
Definition retry_time (k : string) (a : ExternalActionRecord) : jobject :=
  match ea_nextRetryAt a with Some t => [(k, JStr (toISOString t))] | None => [] end.

Definition retriedEntry (a : ExternalActionRecord) : ledger_entry :=
  mkEntry ("dispatch_retry_scheduled:" +:+ nat_text (ea_dispatchAttempts a))
    "dispatch_retry_scheduled"
    (transitionEventPayload a "dispatch_retry_scheduled"
       (retry_time "retry_after" a ++ [("error_code", jstr_or_null (ea_lastErrorCode a))])).
Definition failedEntry (a : ExternalActionRecord) : ledger_entry :=
  mkEntry ("dispatch_failed:" +:+ nat_text (ea_dispatchAttempts a)) "dispatch_failed"
    (transitionEventPayload a "dispatch_failed" [("error_code", jstr_or_null (ea_lastErrorCode a))]).

Definition callbackKey (callbackId : string) : string := "callback:" +:+ callbackId.
Definition outcomeType (s : ExternalActionOutcomeStatus) : string :=
  match s with oc_completed => "outcome_completed" | oc_failed => "outcome_failed" end.
Definition settledEntry (a : ExternalActionRecord) (i : RecordExternalActionOutcome) :
    ledger_entry :=
  mkEntry (callbackKey (ro_callbackId i)) (outcomeType (ro_status i))
    (transitionEventPayload a (outcomeType (ro_status i))
       [("callback_id", JStr (ro_callbackId i)); ("error_code", jstr_or_null (ea_lastErrorCode a))]).

(** [emitLifecycle(action, eventType, idempotencyKey, extra)] *)
Definition lifecycleCommand (a : ExternalActionRecord) (eventType idempotencyKey : string)
    (extra : jobject) : EnqueueOutboxEvent :=
  mkEnqueue (ea_tenantId a) eventType idempotencyKey (lifecyclePayload a extra).

Definition acceptedCommand (a : ExternalActionRecord) : EnqueueOutboxEvent :=
  lifecycleCommand a "external_action.dispatched.v1"
    ("external-action:" +:+ ea_id a +:+ ":dispatched:" +:+ nat_text (ea_dispatchAttempts a))
    [("dispatch_receipt", JObj (ea_dispatchReceipt a))].
Definition retriedCommand (a : ExternalActionRecord) : EnqueueOutboxEvent :=
  lifecycleCommand a "external_action.retry_scheduled.v1"
    ("external-action:" +:+ ea_id a +:+ ":retry:" +:+ nat_text (ea_dispatchAttempts a))
    (retry_time "retry_at" a ++ [("error_code", jstr_or_null (ea_lastErrorCode a))]).
Definition failedCommand (a : ExternalActionRecord) : EnqueueOutboxEvent :=
  lifecycleCommand a "external_action.failed.v1" ("external-action:" +:+ ea_id a +:+ ":failed")
    [("phase", JStr "dispatch"); ("error_code", jstr_or_null (ea_lastErrorCode a))].
Definition settledCommand (a : ExternalActionRecord) (i : RecordExternalActionOutcome) :
    EnqueueOutboxEvent :=
  let s := match ro_status i with oc_completed => "completed" | oc_failed => "failed" end in
  lifecycleCommand a ("external_action." +:+ s +:+ ".v1")
    ("external-action:" +:+ ea_id a +:+ ":" +:+ s +:+ ":" +:+ ro_callbackId i)
    ([("phase", JStr "outcome"); ("callback_id", JStr (ro_callbackId i));
      ("outcome", JObj (ea_outcome a))] ++ spread_truthy "error_code" (ea_lastErrorCode a)).

(** [emitFailureIncident(action, phase)] *)
Definition failureIncidentCommand (a : ExternalActionRecord) (phase : string) :
    EnqueueOutboxEvent :=
  mkEnqueue (ea_tenantId a) "incident.opened.v1" ("external-action-failure:" +:+ ea_id a)
    (failureIncidentPayload a phase).

(** The guards of [claimDispatch], in order. *)
Definition deferred (a : ExternalActionRecord) (now : Z) : bool :=
  bool_decide (ea_state a = ea_retry_scheduled) &&
  match ea_nextRetryAt a with Some t => now <? t | None => false end.
Definition in_flight (a : ExternalActionRecord) (now : Z) : bool :=
  bool_decide (ea_state a = ea_dispatching) &&
  match ea_dispatchLeaseExpiresAt a with Some t => now <? t | None => false end.
Definition leased_by (a : ExternalActionRecord) (owner : string) : bool :=
  bool_decide (ea_state a = ea_dispatching) && bool_decide (ea_dispatchLeaseOwner a = Some owner).
Definition terminal_outcome (a : ExternalActionRecord) : bool :=
  bool_decide (ea_state a ∈ [ea_completed; ea_failed]).

(** ** The in-memory repository *)

Module InMemoryActions.
Record State (O : Type) := mkState {
  actionsById : jsmap ExternalActionRecord;
  actionIndex : jsmap string;
  idempotencyIndex : jsmap string;
  eventsByActionId : jsmap (list ExternalActionEventRecord);
  sequence : N;
  outbox : O;
}.
Arguments mkState {O}.
Arguments actionsById {O}.
Arguments actionIndex {O}.
Arguments idempotencyIndex {O}.
Arguments eventsByActionId {O}.
Arguments sequence {O}.
Arguments outbox {O}.

#[export] Instance state_eta {O} : Eta (State O) := fun s =>
  mkState (actionsById s) (actionIndex s) (idempotencyIndex s) (eventsByActionId s) (sequence s)
    (outbox s).

Definition key (tenantId value : string) : string := tenantId +:+ ":" +:+ value.

(** [00000000-0000-4000-8000-${String(n).padStart(12, "0")}] *)
Definition id_text (n : N) : string :=
  let s := string_of_N n in
  "00000000-0000-4000-8000-" +:+ zeros (12 - String.length s) +:+ s.

Section ops.
Context `{Zod} `{Sha256} {O : Type} `{!OutboxPort O}.

Definition newId : M (State O) string :=
  modify (fun s => s <| sequence := (sequence s + 1)%N |>);;
  gets (fun s => id_text (sequence s)).

Definition save (a : ExternalActionRecord) : M (State O) ExternalActionRecord :=
  modify (fun s => s <| actionsById := mapSet (ea_id a) a (actionsById s) |>);; mret a.

Definition find (tenantId actionId : string) (idempotencyKey : option string) :
    M (State O) ExternalActionRecord :=
  found ← gets (fun s => indexed (actionsById s) (actionIndex s) (key tenantId actionId));
  match found with
  | None => throw (ExternalActionNotFoundError actionId)
  | Some action =>
      if truthy idempotencyKey && negb (bool_decide (Some (ea_idempotencyKey action) = idempotencyKey))
      then throw (ExternalActionNotFoundError actionId)
      else mret action
  end.

Definition events_of (s : State O) (id : string) : list ExternalActionEventRecord :=
  mapGet id (eventsByActionId s) ?: [].

Definition has_key (eventKey : string) (es : list ExternalActionEventRecord) : bool :=
  existsb (fun e => bool_decide (ev_eventKey e = eventKey)) es.

Definition appendEvent (env : call_env) (a : ExternalActionRecord) (e : ledger_entry) :
    M (State O) unit :=
  events ← gets (fun s => events_of s (ea_id a));
  if has_key (le_key e) events then mret tt
  else
    id ← newId;
    event ← lift (externalActionEventRecordSchema
      (mkActionEvent id (ea_tenantId a) (ea_id a) (le_key e) (le_type e) (le_payload e)
        (env_now env)));
    modify (fun s => s <| eventsByActionId :=
      mapSet (ea_id a) (events ++ [event]) (eventsByActionId s) |>).

Definition enqueue (env : call_env) (c : EnqueueOutboxEvent) : M (State O) StoredOutboxEvent :=
  fun s => let '(r, o) := outbox_enqueue env c (outbox s) in (r, s <| outbox := o |>).

Definition enqueueRequested (env : call_env) (requestInput : ExternalActionRequest) :
    M (State O) EnqueueExternalActionResult :=
  request ← lift (externalActionRequestSchema requestInput);
  let digest := externalActionRequestDigest request in
  byAction ← gets (fun s => mapGet (key (rq_tenantId request) (rq_actionId request)) (actionIndex s));
  byIdempotency ← gets (fun s =>
    mapGet (key (rq_tenantId request) (rq_idempotencyKey request)) (idempotencyIndex s));
  let existingId := byAction ?:? byIdempotency in
  if truthy existingId then
    found ← gets (fun s => mapGet (existingId ?: "") (actionsById s));
    match found with
    | None => throw (JsError "External action idempotency index is corrupt")
    | Some existing =>
        if negb (bool_decide (ea_actionId existing = rq_actionId request)) ||
           negb (bool_decide (ea_idempotencyKey existing = rq_idempotencyKey request)) ||
           negb (bool_decide (ea_requestDigest existing = digest))
        then throw (ExternalActionConflictError
          "actionId or idempotencyKey was reused with a different external action request")
        else
          event ← enqueue env (dispatchCommand request);
          mret (mkEnqueueResult existing event true)
    end
  else
    id ← newId;
    action ← lift (externalActionRecordSchema (new_action id digest request (env_now env)));
    save action;;
    modify (fun s => s <| actionIndex :=
      mapSet (key (rq_tenantId request) (rq_actionId request)) (ea_id action) (actionIndex s) |>);;
    modify (fun s => s <| idempotencyIndex :=
      mapSet (key (rq_tenantId request) (rq_idempotencyKey request)) (ea_id action)
        (idempotencyIndex s) |>);;
    appendEvent env action (requestedEntry request action);;
    event ← enqueue env (dispatchCommand request);
    mret (mkEnqueueResult action event false).

Definition claimDispatch (env : call_env) (input : ClaimExternalActionDispatch) :
    M (State O) ExternalActionDispatchClaim :=
  lift (validateDispatchIdentity (cd_tenantId input) (cd_actionId input) (cd_idempotencyKey input));;
  if String.eqb (cd_leaseOwner input) "" || (cd_leaseDurationMs input <=? 0)
  then throw (ExternalActionStateError "A positive dispatch lease is required")
  else
    action ← find (cd_tenantId input) (cd_actionId input) (Some (cd_idempotencyKey input));
    let now := cd_now input ?: env_now env in
    if isSettled (ea_state action) then mret (mkDispatchClaim disp_settled action)
    else if deferred action now then mret (mkDispatchClaim disp_deferred action)
    else if in_flight action now then mret (mkDispatchClaim disp_in_flight action)
    else
      claimed ← save (claimedAction action (cd_leaseOwner input) (cd_leaseDurationMs input) now);
      appendEvent env claimed (claimedEntry claimed);;
      mret (mkDispatchClaim disp_claimed claimed).

Definition recordDispatchAccepted (env : call_env) (input : RecordDispatchAcceptedInput) :
    M (State O) ExternalActionRecord :=
  lift (validateDispatchIdentity (ra_tenantId input) (ra_actionId input) (ra_idempotencyKey input));;
  action ← find (ra_tenantId input) (ra_actionId input) (Some (ra_idempotencyKey input));
  if isSettled (ea_state action) then mret action
  else if negb (leased_by action (ra_leaseOwner input)) then
    throw (ExternalActionStateError ("Cannot record dispatch receipt while external action is " +:+
      ExternalActionState_str (ea_state action)))
  else
    let now := ra_now input ?: env_now env in
    accepted ← save (acceptedAction action (ra_receipt input) now);
    appendEvent env accepted (acceptedEntry accepted (ra_receipt input));;
    enqueue env (acceptedCommand accepted);;
    mret accepted.

Definition scheduleDispatchRetry (env : call_env) (input : ScheduleDispatchRetryInput) :
    M (State O) ExternalActionRecord :=
  lift (validateDispatchIdentity (sr_tenantId input) (sr_actionId input) (sr_idempotencyKey input));;
  if sr_retryAfterMs input <=? 0
  then throw (ExternalActionStateError "retryAfterMs must be positive")
  else
    action ← find (sr_tenantId input) (sr_actionId input) (Some (sr_idempotencyKey input));
    if isSettled (ea_state action) then mret action
    else if negb (leased_by action (sr_leaseOwner input)) then
      throw (ExternalActionStateError ("Cannot schedule retry while external action is " +:+
        ExternalActionState_str (ea_state action)))
    else
      let now := sr_now input ?: env_now env in
      retry ← save (retriedAction action (sr_errorCode input) (sr_errorMessage input)
        (sr_retryAfterMs input) now);
      appendEvent env retry (retriedEntry retry);;
      enqueue env (retriedCommand retry);;
      mret retry.

Definition failDispatch (env : call_env) (input : FailExternalActionDispatchInput) :
    M (State O) ExternalActionRecord :=
  lift (validateDispatchIdentity (fd_tenantId input) (fd_actionId input) (fd_idempotencyKey input));;
  action ← find (fd_tenantId input) (fd_actionId input) (Some (fd_idempotencyKey input));
  if isSettled (ea_state action) then mret action
  else if negb (leased_by action (fd_leaseOwner input)) then
    throw (ExternalActionStateError ("Cannot fail dispatch while external action is " +:+
      ExternalActionState_str (ea_state action)))
  else
    let now := fd_now input ?: env_now env in
    failed ← save (failedAction action (fd_errorCode input) (fd_errorMessage input) now);
    appendEvent env failed (failedEntry failed);;
    enqueue env (failedCommand failed);;
    enqueue env (failureIncidentCommand failed "dispatch");;
    mret failed.

Definition recordOutcome (env : call_env) (inputValue : RecordExternalActionOutcome) :
    M (State O) RecordExternalActionOutcomeResult :=
  input ← lift (recordExternalActionOutcomeSchema inputValue);
  action ← find (ro_tenantId input) (ro_actionId input) (Some (ro_idempotencyKey input));
  events ← gets (fun s => events_of s (ea_id action));
  if has_key (callbackKey (ro_callbackId input)) events then mret (mkOutcomeResult action true)
  else if terminal_outcome action then
    throw (ExternalActionStateError
      ("Cannot apply a new callback to terminal external action " +:+ ea_actionId action))
  else
    let now := ro_occurredAt input ?: env_now env in
    transitioned ← save (settledAction action input now);
    appendEvent env transitioned (settledEntry transitioned input);;
    enqueue env (settledCommand transitioned input);;
    (if bool_decide (ro_status input = oc_completed) then mret tt
     else enqueue env (failureIncidentCommand transitioned "outcome");; mret tt);;
    mret (mkOutcomeResult transitioned false).

Definition getByActionId (tenantId actionId : string) : M (State O) (option ExternalActionRecord) :=
  lift (tenantIdSchema tenantId);;
  lift (actionIdSchema actionId);;
  gets (fun s => indexed (actionsById s) (actionIndex s) (key tenantId actionId)).

Definition listEvents (tenantId actionId : string) : M (State O) (list ExternalActionEventRecord) :=
  action ← find tenantId actionId None;
  gets (fun s => events_of s (ea_id action)).
End ops.
End InMemoryActions.

(** ** The Postgres repository

    Here the tenant ids are taken to be written as the database prints them,
    and [jsonb] objects come back as they were written. *)

Module PostgresActions.
Section ops.
Context `{Zod} `{Sha256} {E : SqlEngine}.

Record Db := mkDb {
  external_actions : table ExternalActionRecord;
  external_action_events : table ExternalActionEventRecord;
  event_outbox : table OutboxRow;
  incidents : table IncidentRecord;
}.

Definition on_actions {A} (m : M (table ExternalActionRecord) A) : M Db A := fun db =>
  let '(r, t) := m (external_actions db) in
  (r, mkDb t (external_action_events db) (event_outbox db) (incidents db)).
Definition on_events {A} (m : M (table ExternalActionEventRecord) A) : M Db A := fun db =>
  let '(r, t) := m (external_action_events db) in
  (r, mkDb (external_actions db) t (event_outbox db) (incidents db)).
Definition on_outbox {A} (m : M (table OutboxRow) A) : M Db A := fun db =>
  let '(r, t) := m (event_outbox db) in
  (r, mkDb (external_actions db) (external_action_events db) t (incidents db)).
Definition on_incidents {A} (m : M (table IncidentRecord) A) : M Db A := fun db =>
  let '(r, t) := m (incidents db) in
  (r, mkDb (external_actions db) (external_action_events db) (event_outbox db) t).

Definition mapAction := externalActionRecordSchema.
Definition mapActionEvent := externalActionEventRecordSchema.
Definition mapOutbox := PostgresOutbox.mapRow.

Definition first_action (rows : list ExternalActionRecord) : result (option ExternalActionRecord) :=
  match rows with
  | [] => mret None
  | row :: _ => a ← mapAction row; mret (Some a)
  end.

Definition where_action (tenantId actionId : string) (r : ExternalActionRecord) : bool :=
  holds (sql_all [col_eq (ea_tenantId r) tenantId; col_eq (ea_actionId r) actionId]).

Definition loadAction (tenantId actionId : string) : M Db (option ExternalActionRecord) :=
  found ← on_actions (tx_select (where_action tenantId actionId));
  lift (first_action found).

Definition loadActionByIdempotency (tenantId idempotencyKey : string) :
    M Db (option ExternalActionRecord) :=
  found ← on_actions (tx_select (fun r =>
    holds (sql_all [col_eq (ea_tenantId r) tenantId; col_eq (ea_idempotencyKey r) idempotencyKey])));
  lift (first_action found).

Definition requireAction (tenantId actionId : string) (idempotencyKey : option string) :
    M Db ExternalActionRecord :=
  found ← loadAction tenantId actionId;
  match found with
  | None => throw (ExternalActionNotFoundError actionId)
  | Some action =>
      if truthy idempotencyKey && negb (bool_decide (Some (ea_idempotencyKey action) = idempotencyKey))
      then throw (ExternalActionNotFoundError actionId)
      else mret action
  end.

(** [unique (tenant_id, external_action_id, event_key)] *)
Definition same_action_event (a b : ExternalActionEventRecord) : bool :=
  bool_decide (ev_tenantId a = ev_tenantId b) &&
  bool_decide (ev_externalActionId a = ev_externalActionId b) &&
  bool_decide (ev_eventKey a = ev_eventKey b).

Definition where_event (tenantId actionId eventKey : string) (e : ExternalActionEventRecord) : bool :=
  holds (sql_all [col_eq (ev_tenantId e) tenantId; col_eq (ev_externalActionId e) actionId;
                  col_eq (ev_eventKey e) eventKey]).

(** The ids of the rows a call inserts are taken from [env_uuid]; each table
    gets at most one row per call. *)
Definition appendActionEvent (env : call_env) (a : ExternalActionRecord) (e : ledger_entry) :
    M Db bool :=
  inserted ← on_events (tx_insert same_action_event
    (mkActionEvent (env_uuid env) (ea_tenantId a) (ea_id a) (le_key e) (le_type e) (le_payload e)
      (env_now env)));
  mret (negb (bool_decide (length inserted = 0%nat))).

(** The outbox sequence moves on by one for each row a call inserts: [n] rows
    precede this one. *)
Definition enqueueOutbox (n : N) (env : call_env) (command : EnqueueOutboxEvent) :
    M Db StoredOutboxEvent :=
  on_outbox (tx_insert PostgresOutbox.same_event
    (mkOutboxRow (env_serial env + n)%N (oc_tenantId command) (oc_eventType command)
      (oc_idempotencyKey command) (oc_payload command) (env_now env) None));;
  found ← on_outbox (tx_select (PostgresOutbox.where_event command));
  match found with
  | [] => throw (JsError "Failed to enqueue or load external action outbox event")
  | row :: _ => lift (mapOutbox row)
  end.

(** [{ severity: "high", status: "open", title, ... }] of the upsert *)
Definition reopened (i : IncidentRecord) (a : ExternalActionRecord) (phase : string) (now : Z) :
    IncidentRecord :=
  mkIncident (in_id i) (in_tenantId i) (in_incidentKey i) (in_componentId i) sev_high inc_open
    (incidentTitle a) (incidentSummaryText a phase) (Some act_quarantine_and_escalate)
    (in_rollbackVersionRef i) (incidentDiagnostics a phase) (in_openedAt i) (in_acknowledgedAt i)
    (in_resolvedAt i) (in_createdAt i) now.

Definition failureIncident (id : string) (a : ExternalActionRecord) (phase : string) (now : Z) :
    IncidentRecord :=
  mkIncident id (ea_tenantId a) (incidentKeyOf a) "n8n-dispatch" sev_high inc_open
    (incidentTitle a) (incidentSummaryText a phase) (Some act_quarantine_and_escalate) None
    (incidentDiagnostics a phase) now None None now now.

Definition emitFailureIncidentOutbox (n : N) (env : call_env) (a : ExternalActionRecord)
    (phase : string) : M Db unit :=
  let now := env_now env in
  inserted ← on_incidents (tx_insert PostgresIncidents.same_incident
    (failureIncident (env_uuid env) a phase now));
  match inserted with
  | _ :: _ => mret tt
  | [] =>
      on_incidents (tx_update (PostgresIncidents.where_key (ea_tenantId a) (incidentKeyOf a))
        (fun i => reopened i a phase now));; mret tt
  end;;
  enqueueOutbox n env (failureIncidentCommand a phase);;
  mret tt.

(** [onConflictDoNothing()] without a target: any unique constraint. *)
Definition same_action (a b : ExternalActionRecord) : bool :=
  bool_decide (ea_tenantId a = ea_tenantId b) &&
  (bool_decide (ea_actionId a = ea_actionId b) ||
   bool_decide (ea_idempotencyKey a = ea_idempotencyKey b) || bool_decide (ea_id a = ea_id b)).

Definition enqueueRequested (env : call_env) (requestInput : ExternalActionRequest) :
    M Db EnqueueExternalActionResult :=
  request ← lift (externalActionRequestSchema requestInput);
  let digest := externalActionRequestDigest request in
  transaction (
    inserted ← on_actions (tx_insert same_action
      (new_action (env_uuid env) digest request (env_now env)));
    byAction ← loadAction (rq_tenantId request) (rq_actionId request);
    byIdempotency ← loadActionByIdempotency (rq_tenantId request) (rq_idempotencyKey request);
    match byAction ?:? byIdempotency with
    | None => throw (JsError "Failed to create or load external action")
    | Some action =>
        if negb (bool_decide (ea_actionId action = rq_actionId request)) ||
           negb (bool_decide (ea_idempotencyKey action = rq_idempotencyKey request)) ||
           negb (bool_decide (ea_requestDigest action = digest))
        then throw (ExternalActionConflictError
          "actionId or idempotencyKey was reused with a different external action request")
        else
          (match inserted with
           | _ :: _ => appendActionEvent env action (requestedEntry request action);; mret tt
           | [] => mret tt
           end);;
          event ← enqueueOutbox 0 env (dispatchCommand request);
          mret (mkEnqueueResult action event (bool_decide (length inserted = 0%nat)))
    end).

(** The condition under which a claim's update applies. *)
Definition claimable_row (input : ClaimExternalActionDispatch) (now : Z)
    (r : ExternalActionRecord) : bool :=
  holds (sql_all [col_eq (ea_tenantId r) (cd_tenantId input);
    col_eq (ea_actionId r) (cd_actionId input);
    col_eq (ea_idempotencyKey r) (cd_idempotencyKey input);
    sql_or
      (sql_and (col_in (ea_state r) [ea_requested; ea_retry_scheduled])
         (sql_or (is_null (ea_nextRetryAt r)) (null_lte (ea_nextRetryAt r) now)))
      (sql_and (col_eq (ea_state r) ea_dispatching)
         (sql_or (is_null (ea_dispatchLeaseExpiresAt r))
            (null_lte (ea_dispatchLeaseExpiresAt r) now)))]).

(** [others] is what concurrent transactions commit between the selection and
    the update. *)
Definition claimDispatch (others : Db -> Db) (env : call_env) (input : ClaimExternalActionDispatch) :
    M Db ExternalActionDispatchClaim :=
  lift (validateDispatchIdentity (cd_tenantId input) (cd_actionId input) (cd_idempotencyKey input));;
  if String.eqb (cd_leaseOwner input) "" || (cd_leaseDurationMs input <=? 0)
  then throw (ExternalActionStateError "A positive dispatch lease is required")
  else
    let now := cd_now input ?: env_now env in
    transaction_with others (
      current ← requireAction (cd_tenantId input) (cd_actionId input)
        (Some (cd_idempotencyKey input));
      if isSettled (ea_state current) then mret (mkDispatchClaim disp_settled current)
      else if deferred current now then mret (mkDispatchClaim disp_deferred current)
      else if in_flight current now then mret (mkDispatchClaim disp_in_flight current)
      else
        modify others;;
        updated ← on_actions (tx_update (claimable_row input now)
          (fun r => claimedAction r (cd_leaseOwner input) (cd_leaseDurationMs input) now));
        match updated with
        | [] =>
            refreshed ← requireAction (cd_tenantId input) (cd_actionId input)
              (Some (cd_idempotencyKey input));
            if isSettled (ea_state refreshed) then mret (mkDispatchClaim disp_settled refreshed)
            else if deferred refreshed now then mret (mkDispatchClaim disp_deferred refreshed)
            else mret (mkDispatchClaim disp_in_flight refreshed)
        | row :: _ =>
            claimed ← lift (mapAction row);
            appendActionEvent env claimed (claimedEntry claimed);;
            mret (mkDispatchClaim disp_claimed claimed)
        end).

(** [WHERE tenant, action, key, state = 'dispatching' AND lease owner] *)
Definition leased_row (tenantId actionId idempotencyKey owner : string)
    (r : ExternalActionRecord) : bool :=
  holds (sql_all [col_eq (ea_tenantId r) tenantId; col_eq (ea_actionId r) actionId;
    col_eq (ea_idempotencyKey r) idempotencyKey; col_eq (ea_state r) ea_dispatching;
    null_eq (ea_dispatchLeaseOwner r) owner]).

(** What the three lease operations do when the update matches no row. *)
Definition lease_lost (tenantId actionId idempotencyKey : string) : M Db ExternalActionRecord :=
  current ← requireAction tenantId actionId (Some idempotencyKey);
  if isSettled (ea_state current) then mret current
  else throw (ExternalActionStateError
    ("Dispatch lease was lost for external action " +:+ actionId)).

(** [...(v ? { column: v } : {})]: an empty string keeps the column. *)
Definition set_truthy (v column : option string) : option string := if truthy v then v else column.

Definition accepted_row (a : ExternalActionRecord) (r : DispatchReceipt) (now : Z) :
    ExternalActionRecord :=
  lease_released a ea_dispatched None None None (receiptObject r) (ea_outcome a)
    (set_truthy (dr_workflowId r) (ea_workflowId a))
    (set_truthy (dr_executionId r) (ea_executionId a))
    (set_truthy (dr_providerReference r) (ea_providerReference a)) (ea_outcomeReceivedAt a) now.

Definition recordDispatchAccepted (env : call_env) (input : RecordDispatchAcceptedInput) :
    M Db ExternalActionRecord :=
  lift (validateDispatchIdentity (ra_tenantId input) (ra_actionId input) (ra_idempotencyKey input));;
  let now := ra_now input ?: env_now env in
  transaction (
    updated ← on_actions (tx_update
      (leased_row (ra_tenantId input) (ra_actionId input) (ra_idempotencyKey input) (ra_leaseOwner input))
      (fun r => accepted_row r (ra_receipt input) now));
    match updated with
    | [] => lease_lost (ra_tenantId input) (ra_actionId input) (ra_idempotencyKey input)
    | row :: _ =>
        accepted ← lift (mapAction row);
        appendActionEvent env accepted (acceptedEntry accepted (ra_receipt input));;
        enqueueOutbox 0 env (acceptedCommand accepted);;
        mret accepted
    end).

Definition scheduleDispatchRetry (env : call_env) (input : ScheduleDispatchRetryInput) :
    M Db ExternalActionRecord :=
  lift (validateDispatchIdentity (sr_tenantId input) (sr_actionId input) (sr_idempotencyKey input));;
  if sr_retryAfterMs input <=? 0
  then throw (ExternalActionStateError "retryAfterMs must be positive")
  else
    let now := sr_now input ?: env_now env in
    transaction (
      updated ← on_actions (tx_update
        (leased_row (sr_tenantId input) (sr_actionId input) (sr_idempotencyKey input)
           (sr_leaseOwner input))
        (fun r => retriedAction r (sr_errorCode input) (sr_errorMessage input)
           (sr_retryAfterMs input) now));
      match updated with
      | [] => lease_lost (sr_tenantId input) (sr_actionId input) (sr_idempotencyKey input)
      | row :: _ =>
          retry ← lift (mapAction row);
          appendActionEvent env retry (retriedEntry retry);;
          enqueueOutbox 0 env (retriedCommand retry);;
          mret retry
      end).

Definition failDispatch (env : call_env) (input : FailExternalActionDispatchInput) :
    M Db ExternalActionRecord :=
  lift (validateDispatchIdentity (fd_tenantId input) (fd_actionId input) (fd_idempotencyKey input));;
  let now := fd_now input ?: env_now env in
  transaction (
    updated ← on_actions (tx_update
      (leased_row (fd_tenantId input) (fd_actionId input) (fd_idempotencyKey input)
         (fd_leaseOwner input))
      (fun r => failedAction r (fd_errorCode input) (fd_errorMessage input) now));
    match updated with
    | [] => lease_lost (fd_tenantId input) (fd_actionId input) (fd_idempotencyKey input)
    | row :: _ =>
        failed ← lift (mapAction row);
        appendActionEvent env failed (failedEntry failed);;
        enqueueOutbox 0 env (failedCommand failed);;
        emitFailureIncidentOutbox 1 env failed "dispatch";;
        mret failed
    end).

Definition settled_row (a : ExternalActionRecord) (i : RecordExternalActionOutcome) (now : Z) :
    ExternalActionRecord :=
  settledAction a (mkOutcome (ro_tenantId i) (ro_actionId i) (ro_idempotencyKey i)
    (ro_callbackId i) (ro_status i) (set_truthy (ro_workflowId i) None)
    (set_truthy (ro_executionId i) None) (set_truthy (ro_providerReference i) None)
    (ro_outcome i) (ro_errorCode i) (ro_errorMessage i) (ro_occurredAt i)) now.

Definition recordOutcome (others : Db -> Db) (env : call_env)
    (inputValue : RecordExternalActionOutcome) : M Db RecordExternalActionOutcomeResult :=
  input ← lift (recordExternalActionOutcomeSchema inputValue);
  let now := ro_occurredAt input ?: env_now env in
  let eventKey := callbackKey (ro_callbackId input) in
  transaction_with others (
    action ← requireAction (ro_tenantId input) (ro_actionId input) (Some (ro_idempotencyKey input));
    existing ← on_events (tx_select (where_event (ro_tenantId input) (ea_id action) eventKey));
    match existing with
    | _ :: _ => mret (mkOutcomeResult action true)
    | [] =>
        modify others;;
        updated ← on_actions (tx_update
          (fun r => holds (sql_all [col_eq (ea_tenantId r) (ro_tenantId input);
            col_eq (ea_actionId r) (ro_actionId input);
            col_eq (ea_idempotencyKey r) (ro_idempotencyKey input);
            col_in (ea_state r) callbackEligibleStates]))
          (fun r => settled_row r input now));
        match updated with
        | [] =>
            current ← requireAction (ro_tenantId input) (ro_actionId input)
              (Some (ro_idempotencyKey input));
            duplicate ← on_events (tx_select
              (where_event (ro_tenantId input) (ea_id current) eventKey));
            match duplicate with
            | _ :: _ => mret (mkOutcomeResult current true)
            | [] => throw (ExternalActionStateError
                ("Cannot apply a new callback to terminal external action " +:+ ro_actionId input))
            end
        | row :: _ =>
            transitioned ← lift (mapAction row);
            appendActionEvent env transitioned (settledEntry transitioned input);;
            enqueueOutbox 0 env (settledCommand transitioned input);;
            (if bool_decide (ro_status input = oc_completed) then mret tt
             else emitFailureIncidentOutbox 1 env transitioned "outcome");;
            mret (mkOutcomeResult transitioned false)
        end
    end).

Definition getByActionId (tenantId actionId : string) : M Db (option ExternalActionRecord) :=
  lift (tenantIdSchema tenantId);;
  lift (actionIdSchema actionId);;
  transaction (loadAction tenantId actionId).

Definition listEvents (tenantId actionId : string) : M Db (list ExternalActionEventRecord) :=
  lift (tenantIdSchema tenantId);;
  lift (actionIdSchema actionId);;
  transaction (
    action ← requireAction tenantId actionId None;
    found ← on_events (tx_select (fun e =>
      holds (sql_all [col_eq (ev_tenantId e) tenantId; col_eq (ev_externalActionId e) (ea_id action)])));
    lift (zod_array_map mapActionEvent
      (sort_by (fun a b => ev_createdAt a <=? ev_createdAt b) found))).
End ops.
End PostgresActions.
