(* ===== verification/ActionLife.v ===== *)
(** * The life of an external action

    The lifecycle of [ExternalActions.v] as a step relation on records, the
    ledger that accompanies it, and what every history of calls keeps. *)

From S2P Require Import Prelude Numbers JsRuntime Json StableId Domain Zod Sql Outbox ControlPlane Incidents ExternalActions.

(** ** Ledger keys *)

Inductive ledger_key :=
  | KRequested (idempotencyKey : string)
  | KStarted (n : Z)
  | KAccepted (n : Z)
  | KRetried (n : Z)
  | KFailed (n : Z)
  | KCallback (callbackId : string).

#[export] Instance ledger_key_eq_dec : EqDecision ledger_key.
Proof. solve_decision. Defined.

Definition key_text (k : ledger_key) : string :=
  match k with
  | KRequested ik => "requested" +:+ ":" +:+ ik
  | KStarted n => "dispatch_started" +:+ ":" +:+ nat_text n
  | KAccepted n => "dispatch_accepted" +:+ ":" +:+ nat_text n
  | KRetried n => "dispatch_retry_scheduled" +:+ ":" +:+ nat_text n
  | KFailed n => "dispatch_failed" +:+ ":" +:+ nat_text n
  | KCallback cb => "callback" +:+ ":" +:+ cb
  end.

(** Attempts are counted from zero. *)
Definition key_wf (k : ledger_key) : Prop :=
  match k with
  | KStarted n | KAccepted n | KRetried n | KFailed n => 0 <= n
  | _ => True
  end.

Lemma nat_text_inj a b : 0 <= a -> 0 <= b -> nat_text a = nat_text b -> a = b.
Proof. unfold nat_text. intros Ha Hb H%string_of_N_inj. lia. Qed.

(** The texts of distinct keys are distinct. *)
Lemma key_text_inj k k' : key_wf k -> key_wf k' -> key_text k = key_text k' -> k = k'.
Proof.
  intros Hk Hk' H. destruct k, k'; simpl in Hk, Hk'; unfold key_text in H;
    apply colon_key_inj in H as [H1 H2]; try done; try (by injection H1); subst;
    try (apply nat_text_inj in H2; [|done..]; by subst); done.
Qed.

(** ** Steps *)

Inductive action_label :=
  | LClaim (owner : string)
  | LAccept (owner : string)
  | LRetry (owner : string)
  | LFail (owner : string)
  | LOutcome (callbackId : string).

(** One step of an action at a time [now], with the key and type of the
    ledger entry it adds. *)
Inductive action_step (now : Z) :
    action_label -> ExternalActionRecord -> ExternalActionRecord -> ledger_key -> string -> Prop :=
  | step_claim owner leaseMs r :
      isSettled (ea_state r) = false -> deferred r now = false -> in_flight r now = false ->
      owner ≠ "" -> 0 < leaseMs ->
      action_step now (LClaim owner) r (claimedAction r owner leaseMs now)
        (KStarted (ea_dispatchAttempts r + 1)) "dispatch_started"
  | step_accept owner receipt r :
      leased_by r owner = true ->
      action_step now (LAccept owner) r (acceptedAction r receipt now)
        (KAccepted (ea_dispatchAttempts r)) "dispatch_accepted"
  | step_retry owner code msg retryAfterMs r :
      leased_by r owner = true -> 0 < retryAfterMs ->
      action_step now (LRetry owner) r (retriedAction r code msg retryAfterMs now)
        (KRetried (ea_dispatchAttempts r)) "dispatch_retry_scheduled"
  | step_fail owner code msg r :
      leased_by r owner = true ->
      action_step now (LFail owner) r (failedAction r code msg now)
        (KFailed (ea_dispatchAttempts r)) "dispatch_failed"
  | step_outcome i r :
      terminal_outcome r = false ->
      action_step now (LOutcome (ro_callbackId i)) r (settledAction r i now)
        (KCallback (ro_callbackId i)) (outcomeType (ro_status i)).

(** A record together with the ledger that led to it. *)
Inductive life : ExternalActionRecord -> list (ledger_key * string) -> Prop :=
  | life_new id digest req now :
      life (new_action id digest req now) [(KRequested (rq_idempotencyKey req), "requested")]
  | life_step now l r r' k ty ks :
      life r ks -> action_step now l r r' k ty -> k ∉ ks.*1 -> life r' (ks ++ [(k, ty)]).

(** The request of an action never changes. *)
Definition action_identity (r : ExternalActionRecord) :=
  (ea_id r, ea_tenantId r, ea_actionId r, ea_idempotencyKey r, ea_requestDigest r, ea_actionType r,
   ea_approvedBy r, ea_requestPayload r, ea_createdAt r).

Lemma step_identity now l r r' k ty : action_step now l r r' k ty ->
  action_identity r' = action_identity r.
Proof. by destruct 1. Qed.

Lemma leased_by_spec r owner : leased_by r owner = true <->
  ea_state r = ea_dispatching /\ ea_dispatchLeaseOwner r = Some owner.
Proof. unfold leased_by. by rewrite andb_true_iff, !bool_decide_eq_true. Qed.

Lemma terminal_outcome_spec r : terminal_outcome r = true <->
  ea_state r = ea_completed \/ ea_state r = ea_failed.
Proof. unfold terminal_outcome. rewrite bool_decide_eq_true. set_solver. Qed.

Lemma isSettled_spec s : isSettled s = true <->
  s = ea_dispatched \/ s = ea_completed \/ s = ea_failed.
Proof. unfold isSettled, terminalStates. rewrite bool_decide_eq_true. set_solver. Qed.

(** Which keys can be in the ledger of [r]. *)
Definition key_below (r : ExternalActionRecord) (k : ledger_key) : Prop :=
  match k with
  | KStarted n => 1 <= n <= ea_dispatchAttempts r
  | KAccepted n | KRetried n | KFailed n =>
      0 <= n <= ea_dispatchAttempts r /\ (n = ea_dispatchAttempts r -> ea_state r ≠ ea_dispatching)
  | _ => True
  end.

Lemma key_below_wf r k : key_below r k -> key_wf k.
Proof. destruct k; simpl; try lia; done. Qed.

Lemma life_below r ks : life r ks ->
  0 <= ea_dispatchAttempts r /\ forall k, k ∈ ks.*1 -> key_below r k.
Proof.
  induction 1 as [id dg req now|now l r r' k ty ks Hl [Ha IH] Hs Hk].
  { split; [done|]. intros k. simpl. intros ->%list_elem_of_singleton. done. }
  assert (ea_dispatchAttempts r <= ea_dispatchAttempts r') as Hle by (destruct Hs; simpl; lia).
  split; [lia|]. intros k'. rewrite fmap_app, elem_of_app. simpl.
  intros [Hin| ->%list_elem_of_singleton].
  - specialize (IH k' Hin). clear Hk Hin. destruct k'; simpl in *; try done; try lia.
    all: destruct Hs; simpl in *; rewrite ?leased_by_spec in *; split; try lia; try done;
      try (intros ->; lia); try (unfold outcome_state; by destruct (ro_status i)).
  - clear IH Hk. destruct Hs; simpl; try done; try lia; split; try lia; done.
Qed.

Lemma life_nodup r ks : life r ks -> NoDup ks.*1.
Proof.
  induction 1 as [|now l r r' k ty ks Hl IH Hs Hk]; [apply NoDup_singleton|].
  rewrite fmap_app. apply NoDup_app. split_and!; [done| |apply NoDup_singleton].
  simpl. intros x Hx ->%list_elem_of_singleton. done.
Qed.

(** A step that is not a callback adds a new key. *)
Lemma step_key_fresh now l r r' k ty ks : life r ks -> action_step now l r r' k ty ->
  (forall cb, l = LOutcome cb -> KCallback cb ∉ ks.*1) -> k ∉ ks.*1.
Proof.
  intros Hl Hs Hcb Hin. destruct (life_below r ks Hl) as [Ha Hb]. specialize (Hb k Hin).
  destruct Hs; simpl in Hb; rewrite ?leased_by_spec in *; try lia.
  1,2,3: naive_solver.
  by eapply Hcb.
Qed.

(** The number of dispatches in the ledger is the attempt counter. *)
Definition count_type (ty : string) (ks : list (ledger_key * string)) : Z :=
  Z.of_nat (length (bfilter (fun e => String.eqb e.2 ty) ks)).

Lemma count_type_app ty ks ks' : count_type ty (ks ++ ks') = count_type ty ks + count_type ty ks'.
Proof. unfold count_type, bfilter. rewrite filter_app, length_app. lia. Qed.

Lemma count_type_one ty k ty' : count_type ty [(k, ty')] = if String.eqb ty' ty then 1 else 0.
Proof. unfold count_type. rewrite bfilter_cons. simpl. by destruct (String.eqb ty' ty). Qed.

Lemma life_attempts r ks : life r ks -> ea_dispatchAttempts r = count_type "dispatch_started" ks.
Proof.
  induction 1 as [|now l r r' k ty ks Hl IH Hs Hk]; [done|].
  rewrite count_type_app, count_type_one, <- IH.
  destruct Hs; simpl; try lia. destruct (ro_status i); simpl; lia.
Qed.

Definition closing_type (ty : string) : bool :=
  bool_decide (ty ∈ ["dispatch_failed"; "outcome_completed"; "outcome_failed"]).

(** An action is terminal exactly when its ledger ends with a failure or a
    callback, and nothing before that entry closed it. *)
Lemma life_closed r ks : life r ks ->
  terminal_outcome r = existsb (fun e => closing_type e.2) ks /\
  (Z.of_nat (length (bfilter (fun e => closing_type e.2) ks)) <= 1).
Proof.
  induction 1 as [|now l r r' k ty ks Hl [IHt IHc] Hs Hk]; [done|].
  unfold bfilter in *. rewrite existsb_app, <- IHt, filter_app, length_app. simpl.
  assert (terminal_outcome r = false) as Hr.
  { destruct Hs as [? ? r Hset| | | |]; try done; apply not_true_iff_false; rewrite terminal_outcome_spec.
    - rewrite <- not_true_iff_false, isSettled_spec in Hset. naive_solver.
    - apply leased_by_spec in H as [-> _]. naive_solver.
    - apply leased_by_spec in H as [-> _]. naive_solver.
    - apply leased_by_spec in H as [-> _]. naive_solver. }
  rewrite Hr in *. symmetry in IHt.
  assert (filter (fun e => closing_type e.2 = true) ks = []) as Hnil.
  { apply (bfilter_none (fun e => closing_type e.2)). intros e He.
    apply not_true_iff_false. intros Ht. apply not_true_iff_false in IHt. apply IHt.
    apply existsb_elem. eauto. }
  rewrite Hnil. simpl.
  destruct Hs; simpl; try done; unfold terminal_outcome; simpl; by destruct (ro_status i).
Qed.

(** ** Generated ids *)

Lemma number_of_zeros k s : s ≠ "" -> number_of_string (zeros k +:+ s) = number_of_string s.
Proof.
  intros Hs. induction k as [|k IH]; [done|].
  change (zeros (S k) +:+ s) with (String (Ascii.ascii_of_nat 48) (zeros k +:+ s)).
  rewrite <- IH.
  unfold number_of_string, DecimalString.NilZero.uint_of_string.
  destruct (zeros k +:+ s) as [|c t] eqn:E; [by destruct k, s|].
  simpl. by destruct (DecimalString.uint_of_char c _).
Qed.

#[export] Instance id_text_inj : Inj (=) (=) InMemoryActions.id_text.
Proof.
  intros a b Hab. unfold InMemoryActions.id_text in Hab. cbv zeta in Hab.
  apply (inj (String.append "00000000-0000-4000-8000-")) in Hab.
  apply (f_equal number_of_string) in Hab.
  rewrite !number_of_zeros, !number_of_string_of_N in Hab by apply string_of_N_nonempty.
  by injection Hab.
Qed.

(** The ids the repository makes up are UUIDs as long as the counter fits the
    twelve digits it is padded to. *)
Class ActionIds (Z : Zod) :=
  action_id_uuid n : (n < 10 ^ 12)%N -> zod_uuid (InMemoryActions.id_text n) = true.

(** ** The in-memory repository *)

Section operations.
Context `{Z : Zod} {ZL : ZodLaws Z} `{H : Sha256} {HL : Sha256Laws H} {O : Type} `{P : !OutboxPort O}.
Import InMemoryActions.
Implicit Types (s : State O) (r : ExternalActionRecord).

Definition act_key (r : ExternalActionRecord) : string := key (ea_tenantId r) (ea_actionId r).
Definition idem_key (r : ExternalActionRecord) : string := key (ea_tenantId r) (ea_idempotencyKey r).

Context {Hids : ActionIds Z}.

Definition room s : Prop := (sequence s + 2 < 10 ^ 12)%N.

(** The keys and types of a list of events. *)
Definition ledger (es : list ExternalActionEventRecord) : list (string * string) :=
  (fun e => (ev_eventKey e, ev_eventType e)) <$> es.
Definition ledger_text (ks : list (ledger_key * string)) : list (string * string) :=
  (fun e => (key_text e.1, e.2)) <$> ks.

Record act_inv s : Prop := {
  ai_action : index_inv ea_id act_key (actionsById s) (actionIndex s);
  ai_idem : index_inv ea_id idem_key (actionsById s) (idempotencyIndex s);
  ai_valid id r : mapGet id (actionsById s) = Some r -> externalActionRecordSchema r = Ok r;
  ai_fresh id r : mapGet id (actionsById s) = Some r -> exists n, id = id_text n /\ (n <= sequence s)%N;
  ai_life id r : mapGet id (actionsById s) = Some r ->
    exists ks, life r ks /\ ledger (events_of s id) = ledger_text ks;
  ai_none id : mapGet id (actionsById s) = None -> events_of s id = [];
}.

Definition init (o : O) : State O := mkState [] [] [] [] 0%N o.

Lemma act_inv_init o : act_inv (init o).
Proof. split; try done; apply index_inv_nil. Qed.

(** Everything but the outbox. *)
Definition same_actions s s' : Prop := s' = s <| outbox := outbox s' |>.

Lemma same_actions_inv s s' : same_actions s s' -> act_inv s -> act_inv s'.
Proof. intros E Hs. rewrite E. split; apply Hs. Qed.

Lemma enqueue_same env c s : same_actions s (enqueue env c s).2.
Proof. unfold enqueue, same_actions. by destruct (outbox_enqueue env c (outbox s)). Qed.

Lemma actionSchema_fields r r' : externalActionRecordSchema r = Ok r' ->
  r' = r /\ zod_uuid (ea_id r) = true /\ zod_uuid (ea_tenantId r) = true.
Proof.
  unfold externalActionRecordSchema. intros Hr. schema_fields Hr. subst r'.
  apply uuid_ok in E as [? _]. apply tenantIdSchema_ok in E0 as [? _]. by destruct r.
Qed.

(** The schema looks only at the identity and the attempts. *)
Lemma actionSchema_update r u : externalActionRecordSchema r = Ok r ->
  action_identity u = action_identity r -> 0 <= ea_dispatchAttempts u ->
  externalActionRecordSchema u = Ok u.
Proof.
  destruct r, u. unfold externalActionRecordSchema, action_identity. cbn. intros Hr Hi Hn.
  injection Hi as -> -> -> -> -> -> -> -> ->. revert Hr.
  cbv beta delta [mret result_ret mbind result_bind]. cbn.
  repeat (case_match; [|discriminate]). unfold nonneg_int, refine.
  rewrite (proj2 (Z.leb_le 0 _)) by done. intros [= -> -> -> -> -> -> -> _]. done.
Qed.

(** *** One step: save the record and append to its ledger *)

Definition moved (env : call_env) r' (e : ledger_entry) s : State O :=
  let seq := (sequence s + 1)%N in
  mkState (mapSet (ea_id r') r' (actionsById s)) (actionIndex s) (idempotencyIndex s)
    (mapSet (ea_id r') (events_of s (ea_id r') ++
       [mkActionEvent (id_text seq) (ea_tenantId r') (ea_id r') (le_key e) (le_type e) (le_payload e)
          (env_now env)]) (eventsByActionId s))
    seq (outbox s).

Lemma has_key_false k es : has_key k es = false <-> k ∉ (ledger es).*1.
Proof.
  unfold has_key, ledger. rewrite <- not_true_iff_false, existsb_elem, <- list_fmap_compose.
  rewrite list_elem_of_fmap. setoid_rewrite bool_decide_eq_true. naive_solver.
Qed.

Lemma append_eq env r e s : zod_uuid (ea_id r) = true -> zod_uuid (ea_tenantId r) = true ->
  zod_uuid (id_text (sequence s + 1)) = true -> le_key e ≠ "" -> le_type e ≠ "" ->
  has_key (le_key e) (events_of s (ea_id r)) = false ->
  appendEvent env r e s = (Ok tt,
    mkState (actionsById s) (actionIndex s) (idempotencyIndex s)
      (mapSet (ea_id r) (events_of s (ea_id r) ++
         [mkActionEvent (id_text (sequence s + 1)) (ea_tenantId r) (ea_id r) (le_key e) (le_type e)
            (le_payload e) (env_now env)]) (eventsByActionId s)) (sequence s + 1) (outbox s)).
Proof.
  intros Hu Ht Hid Hk Hty Hnew. unfold appendEvent, newId. rewrite gets_bind, Hnew.
  unfold externalActionEventRecordSchema. msimpl.
  by rewrite (proj2 (uuid_ok _ _) (conj Hid eq_refl)), (proj2 (tenantIdSchema_ok _ _) (conj Ht eq_refl)),
    (proj2 (uuid_ok _ _) (conj Hu eq_refl)), (proj2 (min1_text_ok _ _) (conj Hk eq_refl)),
    (proj2 (min1_text_ok _ _) (conj Hty eq_refl)).
Qed.

(** A fresh key in terms of the ledger's keys. *)
Lemma fresh_key_text r ks k : life r ks -> key_wf k -> k ∉ ks.*1 ->
  key_text k ∉ (ledger_text ks).*1.
Proof.
  intros Hl Hk Hf. unfold ledger_text. rewrite <- list_fmap_compose, list_elem_of_fmap.
  intros (e & He & Hin). simpl in He. apply Hf. rewrite (key_text_inj k e.1); [|done| |done].
  - apply list_elem_of_fmap. by exists e.
  - eapply key_below_wf, life_below; [done|]. apply list_elem_of_fmap. by exists e.
Qed.

Lemma save_append env r r' now l k ty e s : act_inv s -> room s ->
  mapGet (ea_id r) (actionsById s) = Some r -> action_step now l r r' k ty ->
  le_key e = key_text k -> le_type e = ty ->
  (forall cb, l = LOutcome cb -> has_key (callbackKey cb) (events_of s (ea_id r)) = false) ->
  appendEvent env r' e (s <| actionsById := mapSet (ea_id r') r' (actionsById s) |>) =
    (Ok tt, moved env r' e s) /\ act_inv (moved env r' e s).
Proof.
  intros Hs Hroom Hr Hst Hk Hty Hcb.
  pose proof (step_identity _ _ _ _ _ _ Hst) as Hi. injection Hi as Hid Htn Haid Hik _ _ _ _ _.
  pose proof (ai_valid _ Hs _ _ Hr) as Hv.
  destruct (ai_life _ Hs _ _ Hr) as (ks & Hl & Hks).
  assert (k ∉ ks.*1) as Hf.
  { apply (step_key_fresh _ _ _ _ _ _ _ Hl Hst). intros cb ->. specialize (Hcb cb eq_refl).
    apply has_key_false in Hcb. rewrite Hks in Hcb. intros Hin. apply Hcb. unfold ledger_text.
    rewrite <- list_fmap_compose. apply list_elem_of_fmap in Hin as (x & Hx & Hin).
    apply list_elem_of_fmap. exists x. simpl. by rewrite <- Hx. }
  assert (life r' (ks ++ [(k, ty)])) as Hl' by (by eapply life_step).
  assert (key_wf k) as Hwf.
  { eapply key_below_wf, life_below; [exact Hl'|]. rewrite fmap_app. apply elem_of_app. right. by left. }
  assert (has_key (le_key e) (events_of s (ea_id r')) = false) as Hnew.
  { apply has_key_false. rewrite Hid, Hks, Hk. by apply (fresh_key_text r). }
  assert (externalActionRecordSchema r' = Ok r') as Hv'.
  { apply (actionSchema_update r); [done| |].
    - by apply (step_identity _ _ _ _ _ _ Hst).
    - by apply (life_below r' _ Hl'). }
  destruct (actionSchema_fields _ _ Hv') as (_ & Hu & Hut). split.
  - rewrite append_eq; [done|done|done|apply Hids; unfold room in Hroom; simpl; lia| | |done].
    + rewrite Hk. by destruct k.
    + rewrite Hty. by destruct Hst as [| | | |i]; [..|destruct (ro_status i)].
  - split; simpl.
    + by apply (index_update _ _ _ _ _ r); [apply Hs|rewrite Hid|..|unfold act_key; rewrite Htn, Haid].
    + by apply (index_update _ _ _ _ _ r); [apply Hs|rewrite Hid|..|unfold idem_key; rewrite Htn, Hik].
    + intros id q. rewrite mapGet_set. case_bool_decide; [by intros [= <-]|apply Hs].
    + intros id q. rewrite mapGet_set. case_bool_decide as E.
      * intros _. destruct (ai_fresh _ Hs _ _ Hr) as (n & Hn & ?). exists n. split; [congruence|lia].
      * intros Hq. destruct (ai_fresh _ Hs _ _ Hq) as (n & Hn & ?). exists n. split; [done|lia].
    + intros id q. unfold events_of. simpl. rewrite !mapGet_set. case_bool_decide as E; [|apply Hs].
      intros [= <-]. exists (ks ++ [(k, ty)]). split; [done|]. simpl. unfold ledger, ledger_text.
      rewrite !fmap_app. fold (ledger (events_of s (ea_id r'))). rewrite Hid, Hks. simpl.
      by rewrite Hk, Hty.
    + intros id. unfold events_of. simpl. rewrite !mapGet_set. case_bool_decide; [done|apply Hs].
Qed.

(** *** Lookup *)

Definition found s (tenantId actionId idempotencyKey : string) : option ExternalActionRecord :=
  match indexed (actionsById s) (actionIndex s) (key tenantId actionId) with
  | Some r => if bool_decide (ea_idempotencyKey r = idempotencyKey) then Some r else None
  | None => None
  end.

Lemma identity_ok tn aid ik u : validateDispatchIdentity tn aid ik = Ok u ->
  zod_uuid tn = true /\ ik ≠ "".
Proof.
  unfold validateDispatchIdentity. msimpl. destruct (tenantIdSchema tn) eqn:E1; [|done].
  destruct (actionIdSchema aid); [|done]. destruct (idempotencyKeySchema ik) eqn:E2; [|done].
  intros _. apply tenantIdSchema_ok in E1 as [? _]. apply refine_ok in E2 as [Hl _].
  split; [done|]. intros ->. done.
Qed.

Lemma find_eq tn aid ik s : ik ≠ "" ->
  find tn aid (Some ik) s =
    (match found s tn aid ik with
     | Some r => Ok r
     | None => Err (ExternalActionNotFoundError aid)
     end, s).
Proof.
  intros Hik. unfold find, found. msimpl. destruct (indexed _ _ _) as [r|]; [|done].
  rewrite (bool_decide_ext (Some (ea_idempotencyKey r) = Some ik) (ea_idempotencyKey r = ik))
    by naive_solver. destruct ik; [done|]. by case_bool_decide.
Qed.

Lemma found_some s tn aid ik r : act_inv s -> zod_uuid tn = true ->
  found s tn aid ik = Some r ->
  mapGet (ea_id r) (actionsById s) = Some r /\ ea_tenantId r = tn /\ ea_actionId r = aid /\
  ea_idempotencyKey r = ik.
Proof.
  unfold found. intros Hs Hz Hf. destruct (indexed _ _ _) as [q|] eqn:Hi; [|done].
  case_bool_decide; [|done]. injection Hf as ->.
  apply (indexed_some _ _ _ _ _ _ (ai_action _ Hs)) in Hi as [Hr Hk].
  destruct (actionSchema_fields _ _ (ai_valid _ Hs _ _ Hr)) as (_ & _ & Ht).
  apply colon_key_inj in Hk as [? ?]; [done|by apply zod_uuid_no_colon..].
Qed.

(** *** What a call does to the actions and their ledgers *)

Inductive action_call :=
  | AEnqueue (req : ExternalActionRequest)
  | AClaim (i : ClaimExternalActionDispatch)
  | AAccept (i : RecordDispatchAcceptedInput)
  | ARetry (i : ScheduleDispatchRetryInput)
  | AFail (i : FailExternalActionDispatchInput)
  | AOutcome (i : RecordExternalActionOutcome).

Definition action_exec (c : action_call) (env : call_env) : M (State O) unit :=
  match c with
  | AEnqueue req => enqueueRequested env req;; mret tt
  | AClaim i => claimDispatch env i;; mret tt
  | AAccept i => recordDispatchAccepted env i;; mret tt
  | ARetry i => scheduleDispatchRetry env i;; mret tt
  | AFail i => failDispatch env i;; mret tt
  | AOutcome i => recordOutcome env i;; mret tt
  end.

(** The time at which a call decides, and the step it can make. *)
Definition call_time (c : action_call) (env : call_env) : BinNums.Z :=
  match c with
  | AEnqueue _ => env_now env
  | AClaim i => cd_now i ?: env_now env
  | AAccept i => ra_now i ?: env_now env
  | ARetry i => sr_now i ?: env_now env
  | AFail i => fd_now i ?: env_now env
  | AOutcome i => ro_occurredAt i ?: env_now env
  end.
Definition call_label (c : action_call) : option action_label :=
  match c with
  | AEnqueue _ => None
  | AClaim i => Some (LClaim (cd_leaseOwner i))
  | AAccept i => Some (LAccept (ra_leaseOwner i))
  | ARetry i => Some (LRetry (sr_leaseOwner i))
  | AFail i => Some (LFail (fd_leaseOwner i))
  | AOutcome i => Some (LOutcome (ro_callbackId i))
  end.

(** The state after a new action. *)
Definition created (env : call_env) (req : ExternalActionRequest) s : State O :=
  let seq := (sequence s + 1)%N in
  let a := new_action (id_text seq) (externalActionRequestDigest req) req (env_now env) in
  let e := requestedEntry req a in
  mkState (mapSet (ea_id a) a (actionsById s))
    (mapSet (act_key a) (ea_id a) (actionIndex s))
    (mapSet (idem_key a) (ea_id a) (idempotencyIndex s))
    (mapSet (ea_id a) [mkActionEvent (id_text (seq + 1)) (ea_tenantId a) (ea_id a) (le_key e)
       (le_type e) (le_payload e) (env_now env)] (eventsByActionId s))
    (seq + 1) (outbox s).

Inductive call_effect (c : action_call) (env : call_env) s : State O -> Prop :=
  | effect_none : call_effect c env s s
  | effect_moved r r' l k ty e :
      mapGet (ea_id r) (actionsById s) = Some r -> call_label c = Some l ->
      action_step (call_time c env) l r r' k ty -> le_key e = key_text k -> le_type e = ty ->
      (forall cb, l = LOutcome cb -> has_key (callbackKey cb) (events_of s (ea_id r)) = false) ->
      call_effect c env s (moved env r' e s)
  | effect_created req :
      c = AEnqueue req -> externalActionRequestSchema req = Ok req ->
      mapGet (act_key (new_action "" "" req 0)) (actionIndex s) = None ->
      mapGet (idem_key (new_action "" "" req 0)) (idempotencyIndex s) = None ->
      call_effect c env s (created env req s).

(** *** Programs that only touch the outbox *)

Definition quiet {A} (m : M (State O) A) : Prop := forall s, same_actions s (m s).2.

Lemma same_refl s : same_actions s s.
Proof. by destruct s. Qed.
Lemma same_trans s1 s2 s3 : same_actions s1 s2 -> same_actions s2 s3 -> same_actions s1 s3.
Proof. unfold same_actions. intros E1 E2. rewrite E2. rewrite E1. by destruct s1, s3. Qed.
Lemma quiet_ret {A} (a : A) : quiet (mret a).
Proof. intros s. apply same_refl. Qed.
Lemma quiet_enqueue env c : quiet (enqueue env c).
Proof. intros s. apply enqueue_same. Qed.
Lemma quiet_bind {A B} (m : M (State O) A) (k : A -> M (State O) B) :
  quiet m -> (forall a, quiet (k a)) -> quiet (x ← m; k x).
Proof.
  intros Hm Hk s. unfold mbind, M_bind. specialize (Hm s). destruct (m s) as [[a|e] s']; [|done].
  by eapply same_trans, Hk.
Qed.

(** *** Every call has one of the three effects *)

Definition effect_of (c : action_call) (env : call_env) s : Prop :=
  exists s1, call_effect c env s s1 /\ act_inv s1 /\ same_actions s1 (action_exec c env s).2.

Lemma effect_same c env s : act_inv s -> (action_exec c env s).2 = s -> effect_of c env s.
Proof. intros Hs E. exists s. rewrite E. split; [constructor|]. split; [done|apply same_refl]. Qed.

Lemma run_snd {A} (m : M (State O) A) s : ((m;; mret tt) s).2 = (m s).2.
Proof. unfold mbind, M_bind. by destruct (m s) as [[?|?] ?]. Qed.

(** An operation that found its action, passed its guards and made a step. *)
Lemma effect_step {A} (m : M (State O) A) e rest r r' l k ty c env s : act_inv s -> room s ->
  mapGet (ea_id r) (actionsById s) = Some r -> call_label c = Some l ->
  action_step (call_time c env) l r r' k ty -> le_key (e r') = key_text k -> le_type (e r') = ty ->
  (forall cb, l = LOutcome cb -> has_key (callbackKey cb) (events_of s (ea_id r)) = false) ->
  action_exec c env s = (m;; mret tt) s ->
  m s = (x ← save r'; appendEvent env x (e x);; rest x) s -> (forall x, quiet (rest x)) ->
  effect_of c env s.
Proof.
  intros Hs Hroom Hr Hl Hst Hk Hty Hcb Hc Hm Hq.
  destruct (save_append env r r' _ l k ty (e r') s Hs Hroom Hr Hst Hk Hty Hcb) as [Ha Hi].
  exists (moved env r' (e r') s). split; [by econstructor|]. split; [done|].
  rewrite Hc, run_snd, Hm. unfold save. msimpl. rewrite Ha. apply Hq.
Qed.

Lemma claim_effect i env s : act_inv s -> room s -> effect_of (AClaim i) env s.
Proof.
  intros Hs Hroom.
  destruct (validateDispatchIdentity (cd_tenantId i) (cd_actionId i) (cd_idempotencyKey i))
    as [[]|x] eqn:Hv.
  2: { apply effect_same; [done|]. simpl. rewrite run_snd. unfold claimDispatch. msimpl. by rewrite Hv. }
  destruct (identity_ok _ _ _ _ Hv) as [Hz Hik].
  destruct (String.eqb (cd_leaseOwner i) "" || (cd_leaseDurationMs i <=? 0)) eqn:Hpos.
  { apply effect_same; [done|]. simpl. rewrite run_snd. unfold claimDispatch. msimpl. by rewrite Hv, Hpos. }
  assert (claimDispatch env i s = (
    match found s (cd_tenantId i) (cd_actionId i) (cd_idempotencyKey i) with
    | None => throw (ExternalActionNotFoundError (cd_actionId i))
    | Some action =>
        let now := cd_now i ?: env_now env in
        if isSettled (ea_state action) then mret (mkDispatchClaim disp_settled action)
        else if deferred action now then mret (mkDispatchClaim disp_deferred action)
        else if in_flight action now then mret (mkDispatchClaim disp_in_flight action)
        else
          claimed ← save (claimedAction action (cd_leaseOwner i) (cd_leaseDurationMs i) now);
          appendEvent env claimed (claimedEntry claimed);;
          mret (mkDispatchClaim disp_claimed claimed)
    end) s) as E.
  { unfold claimDispatch. rewrite (bind_eq _ _ _ tt s) by (unfold lift; by rewrite Hv). rewrite Hpos.
    destruct (found _ _ _ _) as [r|] eqn:Hf.
    - by rewrite (bind_eq _ _ _ r s) by (by rewrite find_eq, Hf by done).
    - by rewrite (bind_err _ _ _ _ s (find_eq _ _ _ _ Hik)) || (erewrite bind_err; [done|by rewrite find_eq, Hf]). }
  destruct (found _ _ _ _) as [r|] eqn:Hf.
  2: { apply effect_same; [done|]. simpl. by rewrite run_snd, E. }
  destruct (found_some _ _ _ _ _ Hs Hz Hf) as (Hr & _). cbv zeta in E.
  destruct (isSettled (ea_state r)) eqn:H1; [apply effect_same; [done|]; simpl; by rewrite run_snd, E|].
  destruct (deferred r _) eqn:H2; [apply effect_same; [done|]; simpl; by rewrite run_snd, E|].
  destruct (in_flight r _) eqn:H3; [apply effect_same; [done|]; simpl; by rewrite run_snd, E|].
  apply orb_false_iff in Hpos as [Ho Hms].
  apply String.eqb_neq in Ho. apply Z.leb_gt in Hms.
  eapply (effect_step (claimDispatch env i) claimedEntry _ r);
    [done..|by apply step_claim|done|done|done|done|exact E|intros; apply quiet_ret].
Qed.

(** What the three operations of a lease holder share. *)
Definition lease_body (tn aid ik owner what : string)
    (f : ExternalActionRecord -> ExternalActionRecord) (e : ExternalActionRecord -> ledger_entry)
    (rest : ExternalActionRecord -> M (State O) ExternalActionRecord) (env : call_env) :
    M (State O) ExternalActionRecord :=
  action ← find tn aid (Some ik);
  if isSettled (ea_state action) then mret action
  else if negb (leased_by action owner) then
    throw (ExternalActionStateError (what +:+ ExternalActionState_str (ea_state action)))
  else x ← save (f action); appendEvent env x (e x);; rest x.

Lemma lease_effect (m : M (State O) ExternalActionRecord) tn aid ik owner what f e rest c l env s :
  act_inv s -> room s -> zod_uuid tn = true -> ik ≠ "" ->
  call_label c = Some l -> (forall cb, l ≠ LOutcome cb) ->
  (forall r, leased_by r owner = true -> exists k ty,
     action_step (call_time c env) l r (f r) k ty /\ le_key (e (f r)) = key_text k /\
     le_type (e (f r)) = ty) ->
  (forall x, quiet (rest x)) -> action_exec c env s = (m;; mret tt) s ->
  m s = lease_body tn aid ik owner what f e rest env s ->
  effect_of c env s.
Proof.
  intros Hs Hroom Hz Hik Hl Hno Hstep Hq Hc Hm.
  unfold lease_body in Hm. unfold mbind at 1, M_bind in Hm. rewrite find_eq in Hm by done.
  destruct (found s tn aid ik) as [r|] eqn:Hf.
  2: { apply effect_same; [done|]. by rewrite Hc, run_snd, Hm. }
  destruct (isSettled (ea_state r)); [apply effect_same; [done|]; by rewrite Hc, run_snd, Hm|].
  destruct (leased_by r owner) eqn:Hlb; [|apply effect_same; [done|]; by rewrite Hc, run_snd, Hm].
  destruct (found_some _ _ _ _ _ Hs Hz Hf) as (Hr & _).
  destruct (Hstep r Hlb) as (k & ty & Hst & Hk & Hty).
  eapply (effect_step m e rest r (f r)); try done. intros cb Hcb. by destruct (Hno cb).
Qed.

Lemma quiet_then env c {A} (a : A) : quiet (enqueue env c;; mret a).
Proof. apply quiet_bind; [apply quiet_enqueue|intros; apply quiet_ret]. Qed.

Lemma accept_effect i env s : act_inv s -> room s -> effect_of (AAccept i) env s.
Proof.
  intros Hs Hroom.
  destruct (validateDispatchIdentity (ra_tenantId i) (ra_actionId i) (ra_idempotencyKey i))
    as [[]|x] eqn:Hv.
  2: { apply effect_same; [done|]. simpl. rewrite run_snd. unfold recordDispatchAccepted. msimpl.
       by rewrite Hv. }
  destruct (identity_ok _ _ _ _ Hv) as [Hz Hik].
  apply (lease_effect (recordDispatchAccepted env i) (ra_tenantId i) (ra_actionId i) (ra_idempotencyKey i)
    (ra_leaseOwner i) "Cannot record dispatch receipt while external action is "
    (fun r => acceptedAction r (ra_receipt i) (ra_now i ?: env_now env))
    (fun x => acceptedEntry x (ra_receipt i))
    (fun x => enqueue env (acceptedCommand x);; mret x) _ (LAccept (ra_leaseOwner i))); try done.
  - intros r Hr. do 2 eexists. split; [by apply step_accept|done].
  - intros x. apply quiet_then.
  - unfold recordDispatchAccepted. by rewrite (bind_eq _ _ _ tt s) by (unfold lift; by rewrite Hv).
Qed.

Lemma retry_effect i env s : act_inv s -> room s -> effect_of (ARetry i) env s.
Proof.
  intros Hs Hroom.
  destruct (validateDispatchIdentity (sr_tenantId i) (sr_actionId i) (sr_idempotencyKey i))
    as [[]|x] eqn:Hv.
  2: { apply effect_same; [done|]. simpl. rewrite run_snd. unfold scheduleDispatchRetry. msimpl.
       by rewrite Hv. }
  destruct (identity_ok _ _ _ _ Hv) as [Hz Hik].
  destruct (sr_retryAfterMs i <=? 0) eqn:Hms.
  { apply effect_same; [done|]. simpl. rewrite run_snd. unfold scheduleDispatchRetry. msimpl.
    by rewrite Hv, Hms. }
  apply (lease_effect (scheduleDispatchRetry env i) (sr_tenantId i) (sr_actionId i) (sr_idempotencyKey i)
    (sr_leaseOwner i) "Cannot schedule retry while external action is "
    (fun r => retriedAction r (sr_errorCode i) (sr_errorMessage i) (sr_retryAfterMs i)
       (sr_now i ?: env_now env)) retriedEntry
    (fun x => enqueue env (retriedCommand x);; mret x) _ (LRetry (sr_leaseOwner i))); try done.
  - intros r Hr. apply Z.leb_gt in Hms. do 2 eexists. split; [by apply step_retry|done].
  - intros x. apply quiet_then.
  - unfold scheduleDispatchRetry.
    by rewrite (bind_eq _ _ _ tt s), Hms by (unfold lift; by rewrite Hv).
Qed.

Lemma fail_effect i env s : act_inv s -> room s -> effect_of (AFail i) env s.
Proof.
  intros Hs Hroom.
  destruct (validateDispatchIdentity (fd_tenantId i) (fd_actionId i) (fd_idempotencyKey i))
    as [[]|x] eqn:Hv.
  2: { apply effect_same; [done|]. simpl. rewrite run_snd. unfold failDispatch. msimpl. by rewrite Hv. }
  destruct (identity_ok _ _ _ _ Hv) as [Hz Hik].
  apply (lease_effect (failDispatch env i) (fd_tenantId i) (fd_actionId i) (fd_idempotencyKey i)
    (fd_leaseOwner i) "Cannot fail dispatch while external action is "
    (fun r => failedAction r (fd_errorCode i) (fd_errorMessage i) (fd_now i ?: env_now env)) failedEntry
    (fun x => enqueue env (failedCommand x);;
       enqueue env (failureIncidentCommand x "dispatch");; mret x) _ (LFail (fd_leaseOwner i)));
    try done.
  - intros r Hr. do 2 eexists. split; [by apply step_fail|done].
  - intros x. apply quiet_bind; [apply quiet_enqueue|intros; apply quiet_then].
  - unfold failDispatch. by rewrite (bind_eq _ _ _ tt s) by (unfold lift; by rewrite Hv).
Qed.

(** *** The callback *)

Lemma outcomeSchema_fields i i' : recordExternalActionOutcomeSchema i = Ok i' ->
  zod_uuid (ro_tenantId i) = true /\ ro_idempotencyKey i ≠ "" /\
  i' = mkOutcome (ro_tenantId i) (ro_actionId i) (ro_idempotencyKey i) (ro_callbackId i) (ro_status i)
    (ro_workflowId i) (ro_executionId i) (ro_providerReference i) (Some (ro_outcome i ?: []))
    (ro_errorCode i) (ro_errorMessage i) (ro_occurredAt i).
Proof.
  unfold recordExternalActionOutcomeSchema. intros Hi. schema_fields Hi. subst i'.
  apply tenantIdSchema_ok in E as [? _]. split; [done|]. split; [|done].
  intros Hik. by rewrite Hik in E1.
Qed.

Lemma outcome_eq i i' env s : recordExternalActionOutcomeSchema i = Ok i' ->
  recordOutcome env i s =
    match found s (ro_tenantId i) (ro_actionId i) (ro_idempotencyKey i) with
    | None => (Err (ExternalActionNotFoundError (ro_actionId i)), s)
    | Some r =>
        if has_key (callbackKey (ro_callbackId i)) (events_of s (ea_id r))
        then (Ok (mkOutcomeResult r true), s)
        else if terminal_outcome r then
          (Err (ExternalActionStateError
            ("Cannot apply a new callback to terminal external action " +:+ ea_actionId r)), s)
        else
          (x ← save (settledAction r i' (ro_occurredAt i ?: env_now env));
           appendEvent env x (settledEntry x i');;
           enqueue env (settledCommand x i');;
           (if bool_decide (ro_status i = oc_completed) then mret tt
            else enqueue env (failureIncidentCommand x "outcome");; mret tt);;
           mret (mkOutcomeResult x false)) s
    end.
Proof.
  intros Hi. destruct (outcomeSchema_fields _ _ Hi) as (Hz & Hik & Hi'). unfold recordOutcome.
  rewrite (bind_eq _ _ _ i' s) by (unfold lift; by rewrite Hi). subst i'. cbn [ro_tenantId ro_actionId
    ro_idempotencyKey ro_callbackId ro_status ro_occurredAt].
  destruct (found _ _ _ _) as [r|] eqn:Hf.
  - rewrite (bind_eq _ _ _ r s) by (by rewrite find_eq, Hf by done).
    rewrite (bind_eq _ _ _ (events_of s (ea_id r)) s) by done.
    destruct (has_key _ _); [done|]. by destruct (terminal_outcome r).
  - by erewrite bind_err; [|by rewrite find_eq, Hf].
Qed.

Lemma outcome_effect i env s : act_inv s -> room s -> effect_of (AOutcome i) env s.
Proof.
  intros Hs Hroom. destruct (recordExternalActionOutcomeSchema i) as [i'|x] eqn:Hi.
  2: { apply effect_same; [done|]. simpl. rewrite run_snd. unfold recordOutcome. msimpl. by rewrite Hi. }
  pose proof (outcome_eq i i' env s Hi) as E. destruct (outcomeSchema_fields _ _ Hi) as (Hz & _ & Hi').
  destruct (found _ _ _ _) as [r|] eqn:Hf; [|apply effect_same; [done|]; simpl; by rewrite run_snd, E].
  destruct (has_key _ _) eqn:Hk; [apply effect_same; [done|]; simpl; by rewrite run_snd, E|].
  destruct (terminal_outcome r) eqn:Ht; [apply effect_same; [done|]; simpl; by rewrite run_snd, E|].
  destruct (found_some _ _ _ _ _ Hs Hz Hf) as (Hr & _).
  eapply (effect_step (recordOutcome env i) (fun x => settledEntry x i') _ r _ (LOutcome (ro_callbackId i))
    (KCallback (ro_callbackId i))); [done..| | | | | |exact E|].
  - pose proof (step_outcome (call_time (AOutcome i) env) i' r Ht) as Hst. by subst i'.
  - by subst i'.
  - by subst i'.
  - by intros cb [= <-].
  - done.
  - intros x. apply quiet_bind; [apply quiet_enqueue|]. intros _. apply quiet_bind.
    + case_bool_decide; [apply quiet_ret|apply quiet_then].
    + intros _. apply quiet_ret.
Qed.

(** *** Creation *)

Lemma requestSchema_fields q q' : externalActionRequestSchema q = Ok q' ->
  q' = q /\ zod_uuid (rq_tenantId q) = true /\
  forall id dg now, zod_uuid id = true -> String.length dg = 64%nat ->
    externalActionRecordSchema (new_action id dg q now) = Ok (new_action id dg q now).
Proof.
  unfold externalActionRequestSchema. intros Hq. schema_fields Hq. subst q'.
  split; [by destruct q|]. split; [by apply tenantIdSchema_ok in E as [? _]|].
  intros id dg now Hid Hdg. unfold externalActionRecordSchema, new_action. cbn.
  rewrite (proj2 (uuid_ok id id)) by done. unfold bounded_text in *.
  rewrite (proj2 (refine_ok (length_in 64 64) dg dg)) by (unfold length_in; by rewrite Hdg).
  cbv beta delta [mret result_ret mbind result_bind]. by rewrite E, E0, E1, E2, E3.
Qed.

Lemma action_created_inv env q s : act_inv s -> room s -> externalActionRequestSchema q = Ok q ->
  mapGet (key (rq_tenantId q) (rq_actionId q)) (actionIndex s) = None ->
  mapGet (key (rq_tenantId q) (rq_idempotencyKey q)) (idempotencyIndex s) = None ->
  act_inv (created env q s).
Proof.
  intros Hs Hroom Hq Ha Hi. destruct (requestSchema_fields _ _ Hq) as (_ & Hz & Hnew).
  set (a := new_action (id_text (sequence s + 1)) (externalActionRequestDigest q) q (env_now env)).
  assert (zod_uuid (ea_id a) = true) as Hu by (apply Hids; unfold room in Hroom; lia).
  assert (mapGet (ea_id a) (actionsById s) = None) as Hfr.
  { destruct (mapGet (ea_id a) (actionsById s)) as [r|] eqn:Hr; [|done]. exfalso.
    destruct (ai_fresh _ Hs _ _ Hr) as (n & Hn%id_text_inj & Hle). lia. }
  assert (externalActionRecordSchema a = Ok a) as Hv by (apply Hnew; [done|apply sha256_length]).
  unfold created. fold a. split; simpl.
  - apply (index_insert ea_id act_key _ _ a); [apply Hs|by apply uuid_nonempty|done|done].
  - apply (index_insert ea_id idem_key _ _ a); [apply Hs|by apply uuid_nonempty|done|done].
  - intros id r. rewrite mapGet_set. case_bool_decide; [by intros [= <-]|apply Hs].
  - intros id r. rewrite mapGet_set. case_bool_decide as E.
    + intros _. exists (sequence s + 1)%N. split; [by subst id|lia].
    + intros Hr. destruct (ai_fresh _ Hs _ _ Hr) as (n & ? & ?). exists n. split; [done|lia].
  - intros id r. unfold events_of. simpl. rewrite !mapGet_set. case_bool_decide; [|apply Hs].
    intros [= <-]. exists [(KRequested (rq_idempotencyKey q), "requested")].
    split; [apply life_new|done].
  - intros id. unfold events_of. simpl. rewrite !mapGet_set. case_bool_decide; [done|apply Hs].
Qed.

(** The lookup by action id or by idempotency key. *)
Definition known s (q : ExternalActionRequest) : option string :=
  mapGet (key (rq_tenantId q) (rq_actionId q)) (actionIndex s) ?:?
  mapGet (key (rq_tenantId q) (rq_idempotencyKey q)) (idempotencyIndex s).

Lemma known_some s q id : act_inv s -> known s q = Some id ->
  id ≠ "" /\ exists r, mapGet id (actionsById s) = Some r /\ ea_id r = id.
Proof.
  intros Hs. unfold known.
  destruct (mapGet _ (actionIndex s)) as [i|] eqn:Ha; simpl.
  - intros [= ->]. destruct (ix_ids _ _ _ _ (ai_action _ Hs) _ _ Ha) as (r & Hr & _).
    split; [by eapply (ix_records _ _ _ _ (ai_action _ Hs))|]. exists r. split; [done|].
    by apply (ix_keyed _ _ _ _ (ai_action _ Hs)).
  - intros Hi. destruct (ix_ids _ _ _ _ (ai_idem _ Hs) _ _ Hi) as (r & Hr & _).
    split; [by eapply (ix_records _ _ _ _ (ai_idem _ Hs))|]. exists r. split; [done|].
    by apply (ix_keyed _ _ _ _ (ai_action _ Hs)).
Qed.

Lemma known_tenant s q id r : act_inv s -> zod_uuid (rq_tenantId q) = true -> known s q = Some id ->
  mapGet id (actionsById s) = Some r -> ea_tenantId r = rq_tenantId q.
Proof.
  intros Hs Hz Hk Hr. destruct (actionSchema_fields _ _ (ai_valid _ Hs _ _ Hr)) as (_ & _ & Ht).
  unfold known in Hk. destruct (mapGet _ (actionIndex s)) as [i|] eqn:Ha; simpl in Hk.
  - injection Hk as ->. destruct (ix_ids _ _ _ _ (ai_action _ Hs) _ _ Ha) as (r' & Hr' & Hkey).
    assert (r' = r) as -> by congruence. by apply colon_key_inj in Hkey as [? _]; [|apply zod_uuid_no_colon..].
  - destruct (ix_ids _ _ _ _ (ai_idem _ Hs) _ _ Hk) as (r' & Hr' & Hkey).
    assert (r' = r) as -> by congruence. by apply colon_key_inj in Hkey as [? _]; [|apply zod_uuid_no_colon..].
Qed.

Lemma enqueue_request_eq env q s : act_inv s -> room s -> externalActionRequestSchema q = Ok q ->
  enqueueRequested env q s =
    match known s q with
    | Some id =>
        match mapGet id (actionsById s) with
        | Some r =>
            if bool_decide (ea_actionId r = rq_actionId q) &&
               bool_decide (ea_idempotencyKey r = rq_idempotencyKey q) &&
               bool_decide (ea_requestDigest r = externalActionRequestDigest q)
            then (event ← enqueue env (dispatchCommand q); mret (mkEnqueueResult r event true)) s
            else (Err (ExternalActionConflictError
              "actionId or idempotencyKey was reused with a different external action request"), s)
        | None => (Err (JsError "External action idempotency index is corrupt"), s)
        end
    | None =>
        let a := new_action (id_text (sequence s + 1)) (externalActionRequestDigest q) q (env_now env) in
        (event ← enqueue env (dispatchCommand q); mret (mkEnqueueResult a event false)) (created env q s)
    end.
Proof.
  intros Hs Hroom Hq. destruct (requestSchema_fields _ _ Hq) as (_ & Hz & Hnew).
  unfold enqueueRequested. rewrite (bind_eq _ _ _ q s) by (unfold lift; by rewrite Hq). cbv zeta.
  rewrite !gets_bind. fold (known s q).
  destruct (known s q) as [id|] eqn:Hk.
  - destruct (known_some _ _ _ Hs Hk) as (Hne & r & Hr & _).
    replace (truthy (Some id)) with true by (by destruct id).
    rewrite gets_bind. simpl. rewrite Hr.
    by repeat case_bool_decide.
  - cbn [truthy].
    set (a := new_action (id_text (sequence s + 1)) (externalActionRequestDigest q) q (env_now env)).
    assert (zod_uuid (ea_id a) = true) as Hu by (apply Hids; unfold room in Hroom; lia).
    assert (externalActionRecordSchema a = Ok a) as Hv by (apply Hnew; [done|apply sha256_length]).
    assert (mapGet (ea_id a) (actionsById s) = None) as Hfr.
    { destruct (mapGet (ea_id a) (actionsById s)) as [r|] eqn:Hr; [|done]. exfalso.
      destruct (ai_fresh _ Hs _ _ Hr) as (n & Hn%id_text_inj & Hle). lia. }
    rewrite (bind_eq _ _ _ (id_text (sequence s + 1)) (s <| sequence := (sequence s + 1)%N |>)) by done.
    rewrite (bind_eq _ _ _ a (s <| sequence := (sequence s + 1)%N |>)).
    2: { unfold lift. fold a. by rewrite Hv. }
    set (t := mkState (mapSet (ea_id a) a (actionsById s)) (mapSet (act_key a) (ea_id a) (actionIndex s))
      (mapSet (idem_key a) (ea_id a) (idempotencyIndex s)) (eventsByActionId s) (sequence s + 1) (outbox s)).
    transitivity ((appendEvent env a (requestedEntry q a);;
      event ← enqueue env (dispatchCommand q); mret (mkEnqueueResult a event false)) t); [reflexivity|].
    pose proof (ai_none _ Hs _ Hfr) as Hnone. unfold events_of in Hnone.
    rewrite (bind_eq _ _ _ tt (created env q s)); [done|]. rewrite append_eq; try done.
    + unfold created. fold a. unfold t, events_of. cbn [eventsByActionId]. by rewrite Hnone.
    + apply Hids. unfold room in Hroom. simpl. lia.
    + unfold t, events_of. cbn [eventsByActionId]. by rewrite Hnone.
Qed.

Lemma enqueue_effect q0 env s : act_inv s -> room s -> effect_of (AEnqueue q0) env s.
Proof.
  intros Hs Hroom. destruct (externalActionRequestSchema q0) as [q|x] eqn:Hq.
  2: { apply effect_same; [done|]. simpl. rewrite run_snd. unfold enqueueRequested. msimpl. by rewrite Hq. }
  destruct (requestSchema_fields _ _ Hq) as (-> & Hz & _).
  pose proof (enqueue_request_eq env q0 s Hs Hroom Hq) as E.
  assert (forall (a : ExternalActionRecord) d, quiet (event ← enqueue env (dispatchCommand q0);
    mret (mkEnqueueResult a event d))) as Hquiet.
  { intros a d. apply quiet_bind; [apply quiet_enqueue|intros; apply quiet_ret]. }
  destruct (known s q0) as [id|] eqn:Hk.
  - destruct (known_some _ _ _ Hs Hk) as (_ & r & Hr & _). rewrite Hr in E.
    exists s. split; [constructor|]. split; [done|]. simpl. rewrite run_snd, E.
    case_match; [apply Hquiet|apply same_refl].
  - unfold known in Hk.
    destruct (mapGet _ (actionIndex s)) eqn:Ha; [done|]. simpl in Hk.
    exists (created env q0 s). split; [by apply (effect_created _ _ _ q0)|].
    split; [by apply action_created_inv|]. simpl. rewrite run_snd, E. apply Hquiet.
Qed.

Lemma action_exec_effect c env s : act_inv s -> room s -> effect_of c env s.
Proof.
  destruct c; intros Hs Hroom;
    eauto using enqueue_effect, claim_effect, accept_effect, retry_effect, fail_effect, outcome_effect.
Qed.

(** *** One call, seen from one action *)

Definition untouched s s' (id : string) r r' : Prop := r' = r /\ events_of s' id = events_of s id.

Definition stepped (c : action_call) (env : call_env) s s' (id : string) r r' : Prop :=
  exists l k ty e, call_label c = Some l /\ action_step (call_time c env) l r r' k ty /\
    events_of s' id = events_of s id ++ [e].

Lemma exec_step c env s : act_inv s -> room s ->
  let s' := (action_exec c env s).2 in
  act_inv s' /\ (sequence s' <= sequence s + 2)%N /\
  forall id r, mapGet id (actionsById s) = Some r ->
    exists r', mapGet id (actionsById s') = Some r' /\
      (untouched s s' id r r' \/ stepped c env s s' id r r').
Proof.
  intros Hs Hroom s'. destruct (action_exec_effect c env s Hs Hroom) as (s1 & Heff & Hi & Hsame).
  fold s' in Hsame.
  assert (forall id, events_of s' id = events_of s1 id) as Hev by (intros id; by rewrite Hsame).
  assert (actionsById s' = actionsById s1) as Hact by (by rewrite Hsame).
  split; [by apply (same_actions_inv s1)|].
  replace (sequence s') with (sequence s1) by (by rewrite Hsame).
  destruct Heff as [|r0 r0' l k ty e Hr0 Hl Hst Hk Hty Hcb|req Hc Hq Ha Hik].
  - split; [lia|]. intros id r Hr. exists r. rewrite Hact. split; [done|]. by left.
  - split; [simpl; lia|]. intros id r Hr. rewrite Hact. simpl.
    pose proof (step_identity _ _ _ _ _ _ Hst) as He. injection He as Hid _ _ _ _ _ _ _ _.
    rewrite mapGet_set. case_bool_decide as E.
    + assert (r = r0) as -> by congruence. exists r0'. split; [done|]. right.
      exists l, k, ty. eexists. split; [done|]. split; [done|].
      rewrite Hev. unfold events_of at 1. simpl. by rewrite E, mapGet_set_eq.
    + exists r. split; [done|]. left. split; [done|]. rewrite Hev. unfold events_of at 1. simpl.
      by rewrite mapGet_set_ne.
  - split; [simpl; lia|]. intros id r Hr. rewrite Hact. simpl.
    destruct (ai_fresh _ Hs _ _ Hr) as (n & -> & Hn).
    assert (id_text (sequence s + 1) ≠ id_text n) as Hne by (intros E%id_text_inj; lia).
    exists r. rewrite mapGet_set_ne by done. split; [done|]. left. split; [done|].
    rewrite Hev. unfold events_of at 1. simpl. by rewrite mapGet_set_ne.
Qed.

(** Room for a whole history. *)
Definition room_for (cs : list (action_call * call_env)) s : Prop :=
  (sequence s + 2 * N.of_nat (length cs) < 10 ^ 12)%N.

(** Induction over a history, one action followed through it. *)
Lemma history_follow (R : State O -> ExternalActionRecord -> Prop) (G : action_call * call_env -> Prop) id cs s r :
  (forall c env s r r', G (c, env) -> act_inv s -> R s r ->
     mapGet id (actionsById s) = Some r -> act_inv (action_exec c env s).2 ->
     mapGet id (actionsById (action_exec c env s).2) = Some r' ->
     untouched s (action_exec c env s).2 id r r' \/ stepped c env s (action_exec c env s).2 id r r' ->
     R (action_exec c env s).2 r') ->
  act_inv s -> room_for cs s -> Forall G cs -> mapGet id (actionsById s) = Some r -> R s r ->
  exists r', mapGet id (actionsById (history action_exec cs s).2) = Some r' /\
    R (history action_exec cs s).2 r' /\ act_inv (history action_exec cs s).2.
Proof.
  intros Hstep Hs Hroom HG. revert s r Hs Hroom.
  induction HG as [|[c env] cs Hc HG IH]; intros s r Hs Hroom Hr HR; simpl; [by exists r|].
  assert (room s) as Hrm by (unfold room_for, room in *; simpl in *; lia).
  destruct (exec_step c env s Hs Hrm) as (Hs1 & Hseq & Hf).
  destruct (Hf id r Hr) as (r1 & Hr1 & Hcase).
  pose proof (Hstep c env s r r1 Hc Hs HR Hr Hs1 Hr1 Hcase) as HR1.
  destruct (action_exec c env s) as [a s1]. simpl in *.
  destruct (IH s1 r1 Hs1) as (r2 & ? & ? & ?); [unfold room_for in *; simpl in *; lia|done..|].
  destruct (history action_exec cs s1) as [rs s2]. by exists r2.
Qed.

Lemma history_act_inv cs s : act_inv s -> room_for cs s -> act_inv (history action_exec cs s).2.
Proof.
  revert s. induction cs as [|[c env] cs IH]; intros s Hs Hroom; simpl; [done|].
  assert (room s) as Hrm by (unfold room_for, room in *; simpl in *; lia).
  destruct (exec_step c env s Hs Hrm) as (Hs1 & Hseq & _).
  destruct (action_exec c env s) as [a s1]. simpl in *.
  specialize (IH s1 Hs1). destruct (history action_exec cs s1). apply IH.
  unfold room_for in *. simpl in *. lia.
Qed.
End operations.
