(* ===== verification/ActionProps.v ===== *)
(** * Properties of external actions

    The theorems on the in-memory repository (over any outbox) and on the
    claim of the Postgres repository, with their witnesses. *)

From S2P Require Import Prelude Numbers JsRuntime Json StableId Domain Zod Sql Outbox ControlPlane Incidents ExternalActions ActionLife.

Definition typed (ty : string) (e : ExternalActionEventRecord) : bool := String.eqb (ev_eventType e) ty.
Definition closing (e : ExternalActionEventRecord) : bool := closing_type (ev_eventType e).

Section ledgers.
Implicit Types (es : list ExternalActionEventRecord) (ks : list (ledger_key * string)).

Lemma ledger_count (p : string -> bool) es ks : ledger es = ledger_text ks ->
  length (bfilter (fun e => p (ev_eventType e)) es) = length (bfilter (fun e => p e.2) ks).
Proof.
  revert ks. induction es as [|e es IH]; intros [|[k ty] ks]; try done.
  unfold ledger, ledger_text. simpl. intros [= _ <- Hk]. rewrite !bfilter_cons. simpl.
  specialize (IH ks Hk). destruct (p (ev_eventType e)); simpl; lia.
Qed.

Lemma ledger_nodup es ks r : life r ks -> ledger es = ledger_text ks ->
  NoDup (ev_eventKey <$> es).
Proof.
  intros Hl Hes. replace (ev_eventKey <$> es) with ((ledger es).*1).
  2: { unfold ledger. by rewrite <- list_fmap_compose. }
  rewrite Hes. replace ((ledger_text ks).*1) with (key_text <$> ks.*1).
  2: { unfold ledger_text. by rewrite <- !list_fmap_compose. }
  destruct (life_below _ _ Hl) as [_ Hb]. pose proof (life_nodup _ _ Hl) as Hn.
  revert Hb Hn. generalize (ks.*1) as l. intros l Hb Hn. induction Hn as [|k l Hk Hn IH]; simpl; [constructor|].
  constructor; [|apply IH; intros; apply Hb; by right].
  intros (k' & Hkk & Hin)%list_elem_of_fmap. apply key_text_inj in Hkk as ->; [done| |].
  - eapply key_below_wf, Hb. by left.
  - eapply key_below_wf, Hb. by right.
Qed.

Lemma existsb_filter {A} (p : A -> bool) (l : list A) :
  existsb p l = negb (bool_decide (length (bfilter p l) = 0%nat)).
Proof.
  induction l as [|a l IH]; simpl; [done|]. rewrite bfilter_cons. by destruct (p a).
Qed.
End ledgers.

Section theorems.
Context `{Z : Zod} {ZL : ZodLaws Z} {Hids : ActionIds Z} `{H : Sha256} {HL : Sha256Laws H}
  {O : Type} `{P : !OutboxPort O}.
Import InMemoryActions.
Implicit Types (s : State O) (r : ExternalActionRecord) (cs : list (action_call * call_env)).

(** C13. After any history of calls the ledger of an action explains it: its
    keys are distinct, its dispatch entries number the attempts, the action is
    terminal exactly when one entry closed it and never more than one did, and
    the ledger only ever grew at its end. *)
Theorem ledger_explains_action cs s id r0 : act_inv s -> room_for cs s ->
  mapGet id (actionsById s) = Some r0 ->
  exists r, mapGet id (actionsById (history action_exec cs s).2) = Some r /\
    let es := events_of (history action_exec cs s).2 id in
    action_identity r = action_identity r0 /\
    NoDup (ev_eventKey <$> es) /\
    ea_dispatchAttempts r = Z.of_nat (length (bfilter (typed "dispatch_started") es)) /\
    terminal_outcome r = existsb closing es /\ (length (bfilter closing es) <= 1)%nat /\
    events_of s id `prefix_of` es.
Proof.
  intros Hs Hroom Hr0.
  destruct (history_follow (fun s' r => action_identity r = action_identity r0 /\
      events_of s id `prefix_of` events_of s' id) (fun _ => True) id cs s r0)
    as (r & Hr & [Hid Hpre] & Hi); try done.
  - intros c env t r r' _ _ [Hid Hpre] _ _ _ [[-> ->]|(l & k & ty & e & _ & Hst & ->)]; [done|].
    rewrite (step_identity _ _ _ _ _ _ Hst). split; [done|]. by apply prefix_app_r.
  - by apply Forall_forall.
  - exists r. split; [done|]. intros es. destruct (ai_life _ Hi _ _ Hr) as (ks & Hl & Hes).
    pose proof (ledger_count (fun ty => String.eqb ty "dispatch_started") es ks Hes) as Hc.
    pose proof (ledger_count closing_type es ks Hes) as Hcl.
    destruct (life_closed _ _ Hl) as [Ht Hone].
    split_and!; [done|by eapply ledger_nodup| | | |done].
    + rewrite (life_attempts _ _ Hl). unfold count_type. by rewrite <- Hc.
    + rewrite Ht, !existsb_filter. unfold closing. by rewrite <- Hcl.
    + unfold closing. rewrite Hcl. lia.
Qed.

(** Who can touch a leased action. *)
Definition outsider (owner : string) (expiresAt : BinNums.Z) (ce : action_call * call_env) : Prop :=
  call_time ce.1 ce.2 < expiresAt /\ call_label ce.1 ≠ Some (LAccept owner) /\
  call_label ce.1 ≠ Some (LRetry owner) /\ call_label ce.1 ≠ Some (LFail owner).

(** C12. Until the dispatch lease of an action expires, only its owner moves
    it: whatever the other callers do before that time (claims, receipts,
    retries and failures of other owners, new requests), the action stays as
    it is, unless a provider callback settles it. *)
Theorem dispatch_lease_is_exclusive cs s id r owner expiresAt : act_inv s -> room_for cs s ->
  mapGet id (actionsById s) = Some r ->
  ea_state r = ea_dispatching -> ea_dispatchLeaseOwner r = Some owner ->
  ea_dispatchLeaseExpiresAt r = Some expiresAt -> Forall (outsider owner expiresAt) cs ->
  exists r', mapGet id (actionsById (history action_exec cs s).2) = Some r' /\
    (r' = r \/ terminal_outcome r' = true /\
      exists ce i, ce ∈ cs /\ ce.1 = AOutcome i).
Proof.
  intros Hs Hroom Hr Hst Ho He HG.
  destruct (history_follow (fun _ r' => r' = r \/ terminal_outcome r' = true /\
      exists ce i, ce ∈ cs /\ ce.1 = AOutcome i)
    (fun ce => outsider owner expiresAt ce /\ ce ∈ cs) id cs s r) as (r' & Hr' & Hcase & _); try done.
  - intros c env t q q' [(Ht & Ha & Hrt & Hf) Hin] _ Hq _ _ _ [[-> _]|(l & k & ty & e & Hl & Hstep & _)];
      [done|].
    simpl in Ht, Ha, Hrt, Hf. rewrite Hl in Ha, Hrt, Hf. right.
    assert (forall o, leased_by q o = true -> o = owner) as Hlb.
    { intros o [Hd Hown]%leased_by_spec. destruct Hq as [->|[Hterm _]]; [congruence|].
      apply terminal_outcome_spec in Hterm. rewrite Hd in Hterm. naive_solver. }
    destruct Hstep as [o ms q Hset _ Hfl|o rc q Hq'|o cd m ms q Hq'|o cd m q Hq'|i q Hq'].
    + exfalso. destruct Hq as [->|[Hterm _]].
      * unfold in_flight in Hfl. rewrite Hst, He in Hfl. simpl in Hfl. apply Z.ltb_ge in Hfl. lia.
      * apply terminal_outcome_spec in Hterm. apply not_true_iff_false in Hset. apply Hset.
        apply isSettled_spec. naive_solver.
    + by rewrite (Hlb _ Hq') in Ha.
    + by rewrite (Hlb _ Hq') in Hrt.
    + by rewrite (Hlb _ Hq') in Hf.
    + split; [apply terminal_outcome_spec; simpl; destruct (ro_status i); auto|].
      exists (c, env). destruct c; simpl in Hl; try done. eauto.
  - apply Forall_forall. intros ce Hin. split; [|done]. rewrite Forall_forall in HG. by apply HG.
  - by left.
  - by exists r'.
Qed.

(** Settled is settled: no history of calls changes an action that
    completed or failed, nor its ledger; a dispatched action can only be
    closed by a callback, with the same number of attempts. *)
Theorem settled_action_is_final cs s id r : act_inv s -> room_for cs s ->
  mapGet id (actionsById s) = Some r -> isSettled (ea_state r) = true ->
  exists r', mapGet id (actionsById (history action_exec cs s).2) = Some r' /\
    isSettled (ea_state r') = true /\ ea_dispatchAttempts r' = ea_dispatchAttempts r /\
    (terminal_outcome r = true -> r' = r /\
       events_of (history action_exec cs s).2 id = events_of s id) /\
    (r' = r \/ terminal_outcome r' = true).
Proof.
  intros Hs Hroom Hr Hset.
  destruct (history_follow (fun s' r' => isSettled (ea_state r') = true /\
      ea_dispatchAttempts r' = ea_dispatchAttempts r /\
      (terminal_outcome r = true -> r' = r /\ events_of s' id = events_of s id) /\
      (r' = r \/ terminal_outcome r' = true)) (fun _ => True) id cs s r) as (r' & Hr' & HR & _);
    try done; [|by apply Forall_forall|by auto 10|by exists r'].
  intros c env t q q' _ _ (Hq & Hn & Hterm & Hor) _ _ _ [[-> ->]|(l & k & ty & e & _ & Hst & _)]; [done|].
  destruct Hst as [o ms q Hns|o rc q Hlb|o cd m ms q Hlb|o cd m q Hlb|i q Ht]; [congruence|..].
  1,2,3: apply leased_by_spec in Hlb as [Hd _]; rewrite Hd in Hq; done.
  assert (terminal_outcome (settledAction q i (call_time c env)) = true) as Htrue.
  { apply terminal_outcome_spec. simpl. destruct (ro_status i); auto. }
  split_and!; [simpl; by destruct (ro_status i)|done| |by right].
  intros Hc. destruct (Hterm Hc) as [-> _]. congruence.
Qed.

(** *** Replays *)

Lemma enqueue_ok env c s e s' : enqueue env c s = (Ok e, s') ->
  outbox_enqueue env c (outbox s) = (Ok e, outbox s') /\ same_actions s s'.
Proof.
  intros He. pose proof (enqueue_same env c s) as Hsame. rewrite He in Hsame. split; [|done].
  unfold enqueue in He. destruct (outbox_enqueue env c (outbox s)) as [x o]. by injection He as -> <-.
Qed.

Lemma known_same s s' q q' : same_actions s s' -> rq_tenantId q' = rq_tenantId q ->
  rq_actionId q' = rq_actionId q -> rq_idempotencyKey q' = rq_idempotencyKey q ->
  known s' q' = known s q.
Proof. unfold known. intros E -> -> ->. by rewrite E. Qed.

(** The same request up to the order of the fields of its payload. *)
Definition same_request (q q' : ExternalActionRequest) : Prop :=
  rq_tenantId q' = rq_tenantId q /\ rq_actionId q' = rq_actionId q /\
  rq_actionType q' = rq_actionType q /\ rq_approvedBy q' = rq_approvedBy q /\
  rq_idempotencyKey q' = rq_idempotencyKey q /\
  same_json (JObj (rq_requestPayload q)) (JObj (rq_requestPayload q')).

Lemma same_request_digest q q' : same_request q q' ->
  externalActionRequestDigest q' = externalActionRequestDigest q.
Proof.
  intros (_ & Ha & Hty & Hb & Hk & Hp). unfold externalActionRequestDigest. f_equal. symmetry.
  apply stableJson_same. rewrite Ha, Hty, Hb, Hk. eapply same_obj; [| |reflexivity].
  - apply (bool_decide_unpack _). reflexivity.
  - repeat constructor. done.
Qed.

Lemma same_request_schema q q' : same_request q q' -> externalActionRequestSchema q = Ok q ->
  externalActionRequestSchema q' = Ok q'.
Proof.
  destruct q, q'. unfold same_request. simpl. intros (-> & -> & -> & -> & -> & _).
  unfold externalActionRequestSchema. cbn. cbv beta delta [mret result_ret mbind result_bind].
  repeat (case_match; [|discriminate]). intros [= -> -> -> -> ->]. done.
Qed.

Context {OL : OutboxLaws O P}.

(** What an accepted request has established. *)
Lemma request_accepted env q s res s1 : act_inv s -> room s -> enqueueRequested env q s = (Ok res, s1) ->
  externalActionRequestSchema q = Ok q /\ act_inv s1 /\
  let a := er_action res in
  (forall p, rq_tenantId p = rq_tenantId q -> rq_actionId p = rq_actionId q -> known s1 p = Some (ea_id a)) /\
  mapGet (ea_id a) (actionsById s1) = Some a /\ ea_tenantId a = rq_tenantId q /\
  ea_actionId a = rq_actionId q /\ ea_idempotencyKey a = rq_idempotencyKey q /\
  ea_requestDigest a = externalActionRequestDigest q /\
  outbox_enqueue env (dispatchCommand q) (outbox s) = (Ok (er_event res), outbox s1).
Proof.
  intros Hs Hroom He.
  assert (externalActionRequestSchema q = Ok q) as Hq.
  { destruct (externalActionRequestSchema q) as [p|x] eqn:Hp.
    - by destruct (requestSchema_fields _ _ Hp) as [-> _].
    - unfold enqueueRequested in He. revert He. msimpl. by rewrite Hp. }
  destruct (requestSchema_fields _ _ Hq) as (_ & Hz & _). split; [done|].
  pose proof (enqueue_effect q env s Hs Hroom) as (s2 & _ & Hs2 & Hsame).
  simpl in Hsame. rewrite run_snd, He in Hsame. split; [exact (same_actions_inv _ _ Hsame Hs2)|].
  rewrite (enqueue_request_eq env q s Hs Hroom Hq) in He. unfold known.
  destruct (known s q) as [id|] eqn:Hk.
  - destruct (known_some _ _ _ Hs Hk) as (_ & r & Hr & Hid). rewrite Hr in He.
    destruct (bool_decide (ea_actionId r = _)) eqn:E1; [|done].
    destruct (bool_decide (ea_idempotencyKey r = _)) eqn:E2; [|done].
    destruct (bool_decide (ea_requestDigest r = _)) eqn:E3; [|done].
    apply bool_decide_eq_true in E1, E2, E3. simpl in He.
    apply bind_ok in He as (e & t & Hen & [= <- ->]). apply enqueue_ok in Hen as [Hen Hst].
    rewrite Hst. simpl. pose proof (known_tenant s q id r Hs Hz Hk Hr) as Ht.
    pose proof (proj2 (ix_records _ _ _ _ (ai_action _ Hs) _ _ Hr)) as Hix.
    split_and!; [|by rewrite Hid|congruence|done..]. intros p -> ->. rewrite <- E1, <- Ht.
    unfold act_key in Hix. by rewrite Hix, Hid.
  - cbv zeta in He. apply bind_ok in He as (e & t & Hen & [= <- ->]).
    apply enqueue_ok in Hen as [Hen Hst]. rewrite Hst. simpl.
    split_and!; try done; [|by rewrite mapGet_set_eq]. intros p -> ->. by rewrite mapGet_set_eq.
Qed.

(** Replaying it. *)
Lemma request_replayed env env' q q' s res s1 : act_inv s -> room s -> room s1 ->
  outbox_wf (outbox s) -> enqueueRequested env q s = (Ok res, s1) -> same_request q q' ->
  enqueueRequested env' q' s1 = (Ok (mkEnqueueResult (er_action res) (er_event res) true), s1).
Proof.
  intros Hs Hroom Hroom1 Hwf He Hsr.
  destruct (request_accepted _ _ _ _ _ Hs Hroom He) as (Hq & Hs1 & Hknown & Ha & _ & Haid & Hik & Hdg & Hob).
  pose proof (same_request_digest _ _ Hsr) as Hd. pose proof (same_request_schema _ _ Hsr Hq) as Hq'.
  destruct Hsr as (Ht & Hai & Hty & Hby & Hk & _).
  rewrite (enqueue_request_eq env' q' s1 Hs1 Hroom1 Hq'), Hknown, Ha by done.
  rewrite Hd, Hai, Hk, !bool_decide_true by done. simpl.
  rewrite (bind_eq _ _ _ (er_event res) s1); [done|].
  unfold enqueue. rewrite (outbox_again env env' (dispatchCommand q) (dispatchCommand q') _ _ _ Hwf Hob) by done.
  by destruct s1.
Qed.

(** Creating an action is idempotent: replaying an accepted request, even
    with the fields of its payload in another order, returns the same action
    and the same outbox event, marked as a duplicate, and changes nothing;
    reusing its action id or idempotency key for any other request is a
    conflict that changes nothing. *)
Theorem action_request_idempotent env env' q q' s res s1 : act_inv s -> room s -> room s1 ->
  outbox_wf (outbox s) -> enqueueRequested env q s = (Ok res, s1) ->
  (same_request q q' ->
     enqueueRequested env' q' s1 = (Ok (mkEnqueueResult (er_action res) (er_event res) true), s1)) /\
  (externalActionRequestSchema q' = Ok q' -> rq_tenantId q' = rq_tenantId q ->
     rq_actionId q' = rq_actionId q ->
     rq_idempotencyKey q' ≠ rq_idempotencyKey q \/
     externalActionRequestDigest q' ≠ externalActionRequestDigest q ->
     enqueueRequested env' q' s1 = (Err (ExternalActionConflictError
       "actionId or idempotencyKey was reused with a different external action request"), s1)).
Proof.
  intros Hs Hroom Hroom1 Hwf He. split; [by eapply request_replayed|].
  intros Hq' Ht Hai Hne.
  destruct (request_accepted _ _ _ _ _ Hs Hroom He) as (Hq & Hs1 & Hknown & Ha & _ & Haid & Hik & Hdg & _).
  rewrite (enqueue_request_eq env' q' s1 Hs1 Hroom1 Hq'), Hknown, Ha by done. rewrite Hik, Hdg.
  destruct Hne as [Hne|Hne]; [rewrite (bool_decide_false (rq_idempotencyKey q = rq_idempotencyKey q')) by congruence
    |rewrite (bool_decide_false (externalActionRequestDigest q = externalActionRequestDigest q')) by congruence];
    by rewrite ?andb_false_r.
Qed.

(** *** Callbacks *)

Lemma save_bind {A} r (k : ExternalActionRecord -> M (State O) A) s :
  (x ← save r; k x) s = k r (s <| actionsById := mapSet (ea_id r) r (actionsById s) |>).
Proof. done. Qed.

Lemma found_of s r : act_inv s -> mapGet (ea_id r) (actionsById s) = Some r ->
  found s (ea_tenantId r) (ea_actionId r) (ea_idempotencyKey r) = Some r.
Proof.
  intros Hs Hr. unfold found.
  rewrite (proj2 (indexed_some _ _ _ _ _ r (ai_action _ Hs))) by done.
  by rewrite bool_decide_true.
Qed.

(** What a callback that was taken has established. *)
Lemma outcome_taken env i s res s1 : act_inv s -> room s -> recordOutcome env i s = (Ok res, s1) ->
  act_inv s1 /\
  found s1 (ro_tenantId i) (ro_actionId i) (ro_idempotencyKey i) = Some (rr_action res) /\
  has_key (callbackKey (ro_callbackId i)) (events_of s1 (ea_id (rr_action res))) = true /\
  (rr_isDuplicate res = false -> terminal_outcome (rr_action res) = true).
Proof.
  intros Hs Hroom He.
  destruct (recordExternalActionOutcomeSchema i) as [i0|x] eqn:Hi.
  2: { unfold recordOutcome in He. revert He. msimpl. by rewrite Hi. }
  rewrite (outcome_eq i i0 env s Hi) in He. destruct (outcomeSchema_fields _ _ Hi) as (Hz & _ & Hi0).
  destruct (found s _ _ _) as [r|] eqn:Hf; [|done].
  destruct (has_key _ (events_of s (ea_id r))) eqn:Hkey; [by injection He as <- <-|].
  destruct (terminal_outcome r) eqn:Hterm; [done|].
  destruct (found_some _ _ _ _ _ Hs Hz Hf) as (Hr & Htn & Haid & Hik).
  set (r' := settledAction r i0 (ro_occurredAt i ?: env_now env)) in *.
  assert (ro_callbackId i0 = ro_callbackId i /\ ro_status i0 = ro_status i) as [Hc0 Hs0] by (by subst i0).
  pose proof (step_outcome (ro_occurredAt i ?: env_now env) i0 r Hterm) as Hst. fold r' in Hst.
  rewrite Hc0, Hs0 in Hst.
  destruct (save_append env r r' _ _ _ _ (settledEntry r' i0) s Hs Hroom Hr Hst) as [Happ Hinv];
    [simpl; by rewrite Hc0|simpl; by rewrite Hs0|by intros cb [= <-]|].
  rewrite save_bind, (bind_eq _ _ _ _ _ Happ) in He.
  assert (same_actions (moved env r' (settledEntry r' i0) s) s1 /\ res = mkOutcomeResult r' false)
    as [Hsame ->].
  { apply bind_ok in He as (e1 & t1 & H1 & He). apply enqueue_ok in H1 as [_ H1].
    apply bind_ok in He as ([] & t2 & H2 & [= <- ->]). split; [|done].
    apply (same_trans _ t1); [done|]. replace s1 with ((Ok tt, s1) : result unit * State O).2 by done.
    rewrite <- H2. case_bool_decide; [apply quiet_ret|apply quiet_then]. }
  pose proof (same_actions_inv _ _ Hsame Hinv) as Hs1. simpl. split_and!; [done| | |].
  - rewrite <- Htn, <- Haid, <- Hik. apply (found_of s1 r' Hs1). rewrite Hsame. simpl. apply mapGet_set_eq.
  - rewrite Hsame. unfold events_of. simpl. rewrite mapGet_set_eq. simpl. unfold has_key.
    rewrite existsb_app. simpl. rewrite Hc0, bool_decide_true by done. by rewrite orb_true_r.
  - intros _. apply terminal_outcome_spec. simpl. destruct (ro_status i0); auto.
Qed.

Lemma outcome_again env env' i s res s1 : act_inv s -> room s -> recordOutcome env i s = (Ok res, s1) ->
  recordOutcome env' i s1 = (Ok (mkOutcomeResult (rr_action res) true), s1).
Proof.
  intros Hs Hroom He. destruct (outcome_taken _ _ _ _ _ Hs Hroom He) as (_ & Hf & Hkey & _).
  destruct (recordExternalActionOutcomeSchema i) as [j|x] eqn:Hi.
  - by rewrite (outcome_eq i j env' s1 Hi), Hf, Hkey.
  - unfold recordOutcome in He. revert He. msimpl. by rewrite Hi.
Qed.

(** C15. A callback is applied exactly once: after a callback has been taken,
    delivering it again, whatever it now says, reports a duplicate of the same
    action and changes nothing, neither the ledger nor the outbox; and the
    first delivery left the action in a terminal state. *)
Theorem callback_applied_once env env' i i' j s res s1 : act_inv s -> room s ->
  recordOutcome env i s = (Ok res, s1) ->
  recordExternalActionOutcomeSchema i' = Ok j -> ro_tenantId i' = ro_tenantId i ->
  ro_actionId i' = ro_actionId i -> ro_idempotencyKey i' = ro_idempotencyKey i ->
  ro_callbackId i' = ro_callbackId i ->
  recordOutcome env' i' s1 = (Ok (mkOutcomeResult (rr_action res) true), s1) /\
  (rr_isDuplicate res = false -> terminal_outcome (rr_action res) = true).
Proof.
  intros Hs Hroom He Hj Ht Ha Hk Hcb.
  destruct (outcome_taken _ _ _ _ _ Hs Hroom He) as (_ & Hf & Hkey & Hter). split; [|done].
  by rewrite (outcome_eq i' j env' s1 Hj), Ht, Ha, Hk, Hcb, Hf, Hkey.
Qed.
End theorems.

(** ** The claim in Postgres *)

Section postgres_theorems.
Context `{Z : Zod} {ZL : ZodLaws Z} `{H : Sha256} {E : SqlEngine} {L : SqlLaws E}.
Import PostgresActions.
Implicit Types (r : ExternalActionRecord) (db : Db).

(** [unique (tenant_id, action_id)] *)
Definition actions_unique (t : table ExternalActionRecord) : Prop :=
  forall r r', r ∈ rows t -> r' ∈ rows t -> ea_tenantId r' = ea_tenantId r ->
    ea_actionId r' = ea_actionId r -> r' = r.

(** The update's condition is the negation of the guards before it. *)
Lemma claimable_row_spec i now r : claimable_row i now r =
  bool_decide (ea_tenantId r = cd_tenantId i) && bool_decide (ea_actionId r = cd_actionId i) &&
  bool_decide (ea_idempotencyKey r = cd_idempotencyKey i) &&
  (bool_decide (ea_state r ∈ [ea_requested; ea_retry_scheduled]) &&
     match ea_nextRetryAt r with Some t => t <=? now | None => true end ||
   bool_decide (ea_state r = ea_dispatching) &&
     match ea_dispatchLeaseExpiresAt r with Some t => t <=? now | None => true end).
Proof.
  unfold claimable_row. sql_simpl. rewrite <- !andb_assoc. do 3 f_equal. f_equal; f_equal.
  - destruct (ea_nextRetryAt r) as [t|]; simpl; [|done]. unfold null_lte. simpl. by rewrite holds_some.
  - destruct (ea_dispatchLeaseExpiresAt r) as [t|]; simpl; [|done]. unfold null_lte. simpl.
    by rewrite holds_some.
Qed.

Lemma claimable_guards i now r : claimable_row i now r = true ->
  ea_tenantId r = cd_tenantId i /\ ea_actionId r = cd_actionId i /\
  isSettled (ea_state r) = false /\ deferred r now = false /\ in_flight r now = false.
Proof.
  rewrite claimable_row_spec, !andb_true_iff, !bool_decide_eq_true. intros [[[-> ->] _] Hc].
  split_and!; try done.
  - apply not_true_iff_false. rewrite isSettled_spec. intros Hs.
    apply orb_true_iff in Hc as [[Hc _]%andb_true_iff|[Hc _]%andb_true_iff];
      apply bool_decide_eq_true in Hc; [|destruct Hs as [?|[?|?]]; congruence].
    apply elem_of_cons in Hc as [Hc|Hc%list_elem_of_singleton];
      destruct Hs as [?|[?|?]]; congruence.
  - unfold deferred. destruct (bool_decide (ea_state r = ea_retry_scheduled)) eqn:Hs; [|done].
    apply bool_decide_eq_true in Hs. rewrite Hs in Hc. simpl in Hc. rewrite orb_false_r in Hc.
    destruct (ea_nextRetryAt r); [|done]. simpl. apply Z.leb_le in Hc. apply Z.ltb_ge. lia.
  - unfold in_flight. destruct (bool_decide (ea_state r = ea_dispatching)) eqn:Hs; [|done].
    apply bool_decide_eq_true in Hs. rewrite Hs in Hc. simpl in Hc.
    destruct (ea_dispatchLeaseExpiresAt r); [|done]. simpl. apply Z.leb_le in Hc. apply Z.ltb_ge. lia.
Qed.

Lemma require_same tn aid ik db x db' : requireAction tn aid ik db = (x, db') -> db' = db.
Proof.
  unfold requireAction, loadAction, on_actions, tx_select. msimpl.
  assert (mkDb (external_actions db) (external_action_events db) (event_outbox db) (incidents db) = db)
    as -> by (by destruct db).
  destruct (first_action _) as [[r|]|]; [case_match|..]; by intros [= _ <-].
Qed.

Lemma on_actions_update q f db :
  on_actions (tx_update q f) db =
    (Ok (update q f (external_actions db)).1,
     mkDb (update q f (external_actions db)).2 (external_action_events db) (event_outbox db) (incidents db)).
Proof. unfold on_actions, tx_update. by destruct (update q f _). Qed.

Lemma transaction_with_ok {S A} others (m : M S A) s a s' :
  transaction_with others m s = (Ok a, s') -> m s = (Ok a, s').
Proof. unfold transaction_with. destruct (m s) as [[b|] t]; congruence. Qed.

Lemma append_frame env r e db x db' : appendActionEvent env r e db = (x, db') ->
  external_actions db' = external_actions db.
Proof.
  unfold appendActionEvent, on_events, tx_insert. msimpl.
  destruct (insert _ _ _). by intros [= _ <-].
Qed.

Lemma actionSchema_same `{Zod} r r' : externalActionRecordSchema r = Ok r' -> r' = r.
Proof.
  unfold externalActionRecordSchema. intros Hr. schema_fields Hr. subst r'. by destruct r.
Qed.

(** What a claim that succeeded did. *)
Lemma claimed_inv others env i db a db' :
  claimDispatch others env i db = (Ok (mkDispatchClaim disp_claimed a), db') ->
  let now := cd_now i ?: env_now env in
  let f := fun r => claimedAction r (cd_leaseOwner i) (cd_leaseDurationMs i) now in
  0 < cd_leaseDurationMs i /\
  (exists r, r ∈ rows (external_actions (others db)) /\ claimable_row i now r = true /\ a = f r) /\
  rows (external_actions db') ≡ₚ
    (fun r => if claimable_row i now r then f r else r) <$> rows (external_actions (others db)).
Proof.
  intros Hc now f. unfold claimDispatch in Hc. apply bind_ok in Hc as (? & d0 & [= _ <-] & Hc).
  destruct (String.eqb _ _ || (cd_leaseDurationMs i <=? 0)) eqn:Hpos; [done|].
  apply orb_false_iff in Hpos as [_ Hpos%Z.leb_gt]. split; [done|].
  apply transaction_with_ok, bind_ok in Hc as (cur & d1 & Hreq & Hc).
  apply require_same in Hreq as ->. fold now in Hc.
  destruct (isSettled _); [by apply (f_equal fst) in Hc|].
  destruct (deferred _ _); [by apply (f_equal fst) in Hc|].
  destruct (in_flight _ _); [by apply (f_equal fst) in Hc|].
  apply bind_ok in Hc as (? & d2 & [= _ <-] & Hc).
  apply bind_ok in Hc as (us & d3 & Hu & Hc). rewrite on_actions_update in Hu. injection Hu as <- <-.
  fold f in Hc. pose proof (update_returning (claimable_row i now) f (external_actions (others db))) as Hret.
  pose proof (update_rows (claimable_row i now) f (external_actions (others db))) as Hrows.
  destruct (update _ _ _) as [us t]. simpl in *. destruct us as [|row us].
  { apply bind_ok in Hc as (ref & d4 & _ & Hc).
    destruct (isSettled _); [|destruct (deferred _ _)]; by apply (f_equal fst) in Hc. }
  apply bind_ok in Hc as (claimed & d4 & Hm & Hc). injection Hm as Hm <-.
  apply bind_ok in Hc as (b & d5 & Happ & Hc). injection Hc as -> <-.
  apply append_frame in Happ. rewrite Happ. simpl. apply actionSchema_same in Hm as ->.
  split; [|done]. assert (row ∈ f <$> bfilter (claimable_row i now) (rows (external_actions (others db))))
    as (r & -> & Hr)%list_elem_of_fmap by (rewrite <- Hret; by left).
  apply elem_of_bfilter in Hr as [? ?]. by exists r.
Qed.

(** C14. In Postgres two publishers cannot hold the same dispatch: a claim that
    succeeds took an action that was, when it was written, neither settled,
    nor waiting for its retry time, nor under a live lease; and a second claim
    at a time before that lease expires fails even when it had read the action
    before the first one committed. *)
Theorem postgres_claim_is_exclusive others env i db a db' others2 env2 i2 db2 c db3 :
  actions_unique (external_actions (others db)) ->
  claimDispatch others env i db = (Ok (mkDispatchClaim disp_claimed a), db') ->
  cd_tenantId i2 = cd_tenantId i -> cd_actionId i2 = cd_actionId i ->
  cd_now i2 ?: env_now env2 < cd_now i ?: env_now env + cd_leaseDurationMs i ->
  others2 db2 = db' ->
  claimDispatch others2 env2 i2 db2 = (Ok c, db3) ->
  (exists r, r ∈ rows (external_actions (others db)) /\
     isSettled (ea_state r) = false /\ deferred r (cd_now i ?: env_now env) = false /\
     in_flight r (cd_now i ?: env_now env) = false /\
     a = claimedAction r (cd_leaseOwner i) (cd_leaseDurationMs i) (cd_now i ?: env_now env)) /\
  dc_disposition c ≠ disp_claimed.
Proof.
  intros Hun Hc Ht Ha Hnow Ho Hc2.
  destruct (claimed_inv _ _ _ _ _ _ Hc) as (Hms & (r & Hr & Hq & Hra) & Hrows).
  destruct (claimable_guards _ _ _ Hq) as (Htn & Haid & H1 & H2 & H3). split; [by exists r|].
  intros Hd. destruct c as [d a2]. simpl in Hd. subst d.
  destruct (claimed_inv _ _ _ _ _ _ Hc2) as (_ & (r2 & Hr2 & Hq2 & _) & _).
  rewrite Ho, Hrows in Hr2. apply list_elem_of_fmap in Hr2 as (y & Hy & Hyin).
  destruct (claimable_guards _ _ _ Hq2) as (Htn2 & Haid2 & _ & _ & Hfl).
  assert (ea_tenantId y = ea_tenantId r2 /\ ea_actionId y = ea_actionId r2) as [Hyt Hya]
    by (rewrite Hy; by destruct (claimable_row i _ y)).
  assert (y = r) as -> by (apply (Hun r y); congruence).
  rewrite Hq in Hy. subst r2. unfold in_flight, claimedAction in Hfl. simpl in Hfl.
  apply Z.ltb_ge in Hfl. lia.
Qed.
End postgres_theorems.

(** ** A concrete instance, for the witnesses *)

Module ActionExample.
Import ZodExample ShaExample InMemoryActions.

(** Digits only: the tail of a UUID. *)
Definition all_digits (s : string) : bool := forallb is_digit (String.list_ascii_of_string s).

Lemma digits_hex i s : all_digits s = true -> (24 <= i)%nat -> (i + String.length s = 36)%nat ->
  uuid_from i s = true.
Proof.
  revert i. induction s as [|c s IH]; simpl; intros i; [intros; apply Nat.eqb_eq; lia|].
  intros [Hc Hs]%andb_true_iff Hi Hl. rewrite IH, andb_true_r by (done || lia).
  rewrite bool_decide_false by (rewrite list_elem_of_In; simpl; lia).
  unfold is_digit in Hc. unfold is_hex. by rewrite Hc.
Qed.

Lemma all_digits_app s t : all_digits (s +:+ t) = all_digits s && all_digits t.
Proof. induction s as [|c s IH]; simpl; [done|]. unfold all_digits in *. simpl. by rewrite IH, andb_assoc. Qed.

Lemma all_digits_zeros k : all_digits (zeros k) = true.
Proof. by induction k. Qed.

Lemma all_digits_uint d : all_digits (DecimalString.NilEmpty.string_of_uint d) = true.
Proof. by induction d. Qed.

#[export] Instance example_ids : ActionIds zod_example.
Proof.
  intros n Hn. unfold id_text. cbv zeta.
  change (uuid_from 24 (zeros (12 - String.length (string_of_N n)) +:+ string_of_N n) = true).
  apply digits_hex; [|done|].
  - rewrite all_digits_app, all_digits_zeros. unfold string_of_N, DecimalString.NilZero.string_of_uint.
    destruct (N.to_uint n) eqn:Hd; [done|..]; apply all_digits_uint.
  - rewrite string_length_app, zeros_length. pose proof (string_of_N_length n Hn). lia.
Qed.

Definition request : ExternalActionRequest :=
  mkRequest tenant "post-1" "x.post" "founder" "k1" [("text", JStr "hi"); ("n", jint 1)].
Definition reordered : ExternalActionRequest :=
  mkRequest tenant "post-1" "x.post" "founder" "k1" [("n", jint 1); ("text", JStr "hi")].
Definition claim_by (owner : string) (t : BinNums.Z) : ClaimExternalActionDispatch :=
  mkClaimDispatch tenant "post-1" "k1" owner 500 (Some t).
Definition receipt : DispatchReceipt := mkReceipt 200 JNull (Some "wf") None None.
Definition done_ : RecordExternalActionOutcome :=
  mkOutcome tenant "post-1" "k1" "cb1" oc_completed None None None None None None (Some 9000).

Definition St : Type := State InMemoryOutbox.State.
Definition start : St := init InMemoryOutbox.init.
Definition first : EnqueueExternalActionResult + js_error :=
  match (enqueueRequested env1 request start).1 with Ok r => inl r | Err e => inr e end.
Definition requested : St := (action_exec (AEnqueue request) env1 start).2.
Definition leased : St := (action_exec (AClaim (claim_by "a" 100)) env2 requested).2.
Definition settled : St := (action_exec (AOutcome done_) env3 leased).2.
Definition aid : string := id_text 1.
Definition stored (s : St) : ExternalActionRecord :=
  match mapGet aid (actionsById s) with
  | Some r => r
  | None => new_action "" "" request 0
  end.

(** The calls of others while the lease is held. *)
Definition intruders : list (action_call * call_env) :=
  [(AEnqueue reordered, {| env_now := 150; env_uuid := id3; env_serial := 9 |});
   (AClaim (claim_by "b" 200), env2);
   (AAccept (mkAccepted tenant "post-1" "k1" "b" receipt (Some 300)), env2);
   (AFail (mkFail tenant "post-1" "k1" "b" None "boom" (Some 400)), env2)].
(** The rest of the action's life. *)
Definition finish : list (action_call * call_env) :=
  [(ARetry (mkRetry tenant "post-1" "k1" "a" 50 None "token=abc refused" (Some 300)), env2);
   (AClaim (claim_by "b" 400), env2);
   (AAccept (mkAccepted tenant "post-1" "k1" "b" receipt (Some 450)), env2);
   (AOutcome done_, env3)].

Lemma one_inv c env (s : St) : act_inv s -> room_for [(c, env)] s -> act_inv (action_exec c env s).2.
Proof.
  intros Hs Hroom. pose proof (history_act_inv [(c, env)] s Hs Hroom) as Hi. simpl in Hi.
  by destruct (action_exec c env s).
Qed.

(** The same action in Postgres. *)
Definition db : PostgresActions.Db (E := ListEngine.list_engine) :=
  PostgresActions.mkDb (E := ListEngine.list_engine) [stored requested] [] [] [].
Definition claim_pg (others : PostgresActions.Db -> PostgresActions.Db) owner t d :=
  PostgresActions.claimDispatch (E := ListEngine.list_engine) others env2 (claim_by owner t) d.
Definition db_claimed : PostgresActions.Db (E := ListEngine.list_engine) :=
  (claim_pg (fun d => d) "a" 100 db).2.

Lemma requested_inv : act_inv requested.
Proof. apply one_inv; [apply act_inv_init|vm_compute; done]. Qed.
Lemma action_leased_inv : act_inv leased.
Proof. apply one_inv; [apply requested_inv|vm_compute; done]. Qed.
Lemma settled_inv : act_inv settled.
Proof. apply one_inv; [apply action_leased_inv|vm_compute; done]. Qed.
End ActionExample.

Section witnesses.
Import ZodExample ShaExample InMemoryActions ActionExample.

Lemma ledger_explains_action_witness :
  exists r, mapGet aid (actionsById (history action_exec finish leased).2) = Some r /\
    terminal_outcome r = true /\ ea_dispatchAttempts r = 2.
Proof.
  destruct (ledger_explains_action finish leased aid (stored leased) action_leased_inv) as (r & Hr & _);
    [vm_compute; done|vm_compute; done|].
  exists r. split; [done|]. vm_compute in Hr. injection Hr as <-. done.
Defined.

Lemma dispatch_lease_is_exclusive_witness :
  exists r', mapGet aid (actionsById (history action_exec intruders leased).2) = Some r' /\
    (r' = stored leased \/ terminal_outcome r' = true /\
       exists ce i, ce ∈ intruders /\ ce.1 = AOutcome i).
Proof.
  apply (dispatch_lease_is_exclusive intruders leased aid (stored leased) "a" 600 action_leased_inv);
    [vm_compute; done..|].
  unfold intruders. repeat (apply Forall_cons; split; [vm_compute; split_and!; done|]). apply Forall_nil_2.
Defined.

Lemma settled_action_is_final_witness :
  exists r', mapGet aid (actionsById (history action_exec finish settled).2) = Some r' /\
    r' = stored settled.
Proof.
  destruct (settled_action_is_final finish settled aid (stored settled) settled_inv)
    as (r & Hr & _ & _ & Hsame & _); [vm_compute; done..|].
  exists r. split; [done|]. by apply Hsame.
Defined.

Lemma action_request_idempotent_witness :
  match first with
  | inl res => enqueueRequested env2 reordered requested =
      (Ok (mkEnqueueResult (er_action res) (er_event res) true), requested)
  | inr _ => False
  end.
Proof.
  unfold first. destruct (enqueueRequested env1 request start) as [[res|e] s1] eqn:He;
    [|vm_compute in He; discriminate He].
  assert (requested = s1) as ->.
  { unfold requested. cbn [action_exec]. by rewrite run_snd, He. }
  simpl. refine (proj1 (action_request_idempotent env1 env2 request reordered start res s1
    (act_inv_init _) _ _ _ He) _).
  - vm_compute. done.
  - vm_compute in He. injection He as _ <-. vm_compute. done.
  - apply outbox_inv_init.
  - unfold same_request. split_and!; try done. simpl.
    apply (same_obj _ [("text", JStr "hi"); ("n", jint 1)]).
    + apply (bool_decide_unpack _). reflexivity.
    + repeat constructor.
    + apply Permutation_swap.
Defined.

Lemma callback_applied_once_witness :
  recordOutcome env1 done_ settled = (Ok (mkOutcomeResult (stored settled) true), settled).
Proof.
  destruct (recordOutcome env3 done_ leased) as [[res|e] s1] eqn:He;
    [|vm_compute in He; discriminate He].
  assert (settled = s1) as Hst.
  { unfold settled. cbn [action_exec]. by rewrite run_snd, He. }
  assert (rr_action res = stored s1) as Hres.
  { vm_compute in He. injection He as <- <-. vm_compute. reflexivity. }
  rewrite Hst, <- Hres.
  refine (proj1 (callback_applied_once env3 env1 done_ done_
    (mkOutcome tenant "post-1" "k1" "cb1" oc_completed None None None (Some []) None None (Some 9000))
    leased res s1 action_leased_inv _ He _ _ _ _ _)); vm_compute; done.
Defined.

(** The second publisher read the action before the first one's claim. *)
Lemma postgres_claim_is_exclusive_witness :
  match PostgresActions.claimDispatch (E := ListEngine.list_engine) (fun _ => db_claimed) env2
      (claim_by "b" 200) db with
  | (Ok c, _) => dc_disposition c ≠ disp_claimed
  | (Err _, _) => False
  end.
Proof.
  assert (match (PostgresActions.claimDispatch (E := ListEngine.list_engine) (fun _ => db_claimed) env2
      (claim_by "b" 200) db).1 with Ok _ => true | Err _ => false end = true) as Hok
    by (vm_compute; reflexivity).
  destruct (PostgresActions.claimDispatch (E := ListEngine.list_engine) (fun _ => db_claimed) env2
      (claim_by "b" 200) db) as [[c|e] d] eqn:Hc; [clear Hok|discriminate Hok].
  refine (proj2 (postgres_claim_is_exclusive (E := ListEngine.list_engine) (L := ListEngine.list_laws)
    (fun d => d) env2 (claim_by "a" 100) db (claimedAction (stored requested) "a" 500 100) db_claimed
    (fun _ => db_claimed) env2 (claim_by "b" 200) db c d _ _ _ _ _ _ Hc)); try (vm_compute; reflexivity).
  intros r r' Hr%list_elem_of_singleton Hr'%list_elem_of_singleton _ _. congruence.
Defined.
End witnesses.
