(* ===== verification/Publisher.v ===== *)
(** * The outbox publisher

    [apps/worker-outbox-publisher/src/outbox-publisher.ts]: the pass that takes a tenant's
    pending outbox events in order, records the incidents and the health they
    stand for, publishes or dispatches them, and only then marks them
    consumed.  The answers of the broker and of n8n are part of the
    environment of a call.  Tracing and metrics are not modelled. *)

From S2P Require Import Prelude Numbers JsRuntime Json StableId Domain Zod ZodJson N8n Sql Outbox Subjects ControlPlane Incidents Health ExternalActions ActionLife ActionProps.

(** ** Payloads of operational events *)

Definition N8N_DISPATCH_EVENT_TYPE : string := "n8n.dispatch.requested.v1".
Definition INCIDENT_OPENED_EVENT_TYPE : string := "incident.opened.v1".
Definition WORKER_DEAD_LETTER_EVENT_TYPE : string := "worker.dead_lettered.v1".

Definition incidentSeveritySchema : option json -> result IncidentSeverity :=
  enum_field [sev_low; sev_medium; sev_high; sev_critical] IncidentSeverity_str.
Definition healingActionSchema : option json -> result HealingAction :=
  enum_field [act_none; act_resume; act_retry_with_backoff; act_use_fallback; act_rollback;
    act_quarantine_and_escalate] HealingAction_str.

Record IncidentOpenedPayload := mkIncidentOpened {
  io_incident_key : string;
  io_component_id : string;
  io_severity : IncidentSeverity;
  io_title : string;
  io_summary : string;
  io_action : option HealingAction;
  io_rollback_version_ref : option string;
  io_diagnostic_metadata : jobject;
}.

Definition incidentOpenedPayloadSchema (p : jobject) : result IncidentOpenedPayload :=
  key ← text_field 255 (mapGet "incident_key" p);
  component ← text_field 255 (mapGet "component_id" p);
  severity ← incidentSeveritySchema (mapGet "severity" p);
  title ← text_field 500 (mapGet "title" p);
  summary ← text_field 2000 (mapGet "summary" p);
  action ← optional_field healingActionSchema (mapGet "action" p);
  rollback ← optional_field (text_field 500) (mapGet "rollback_version_ref" p);
  metadata ← optional_field record_field (mapGet "diagnostic_metadata" p);
  mret (mkIncidentOpened key component severity title summary action rollback (metadata ?: [])).

Record WorkerDeadLetterPayload := mkDeadLetter {
  dl_worker : string;
  dl_source_subject : string;
  dl_stream_sequence : json;
  dl_redelivery_count : option Z;
  dl_error : string;
  dl_failed_payload : option jobject;
}.

Definition workerDeadLetterPayloadSchema (p : jobject) : result WorkerDeadLetterPayload :=
  worker ← text_field 255 (mapGet "worker" p);
  subject ← text_field 1000 (mapGet "source_subject" p);
  sequence ← sequence_field (mapGet "stream_sequence" p);
  redelivery ← optional_field count_field (mapGet "redelivery_count" p);
  error ← text_field 10000 (mapGet "error" p);
  failed ← optional_field record_field (mapGet "failed_payload" p);
  mret (mkDeadLetter worker subject sequence redelivery error failed).

(** [`${payload.stream_sequence}`] *)
Definition sequence_text (v : json) : string :=
  match v with JStr s => s | JNum n => num_to_string n | _ => "" end.

Definition sanitizeError : string -> string := redact 1000.

Definition payloadDigest `{Sha256} (payload : option jobject) : option string :=
  (fun p => sha256_hex (jsonStringify (JObj p))) <$> payload.

Definition deadLetterKey (p : WorkerDeadLetterPayload) : string :=
  "dead-letter:" +:+ dl_worker p +:+ ":" +:+ dl_source_subject p +:+ ":" +:+
  sequence_text (dl_stream_sequence p).

(** The incident of an [incident.opened.v1] event. *)
Definition openedIncident (p : IncidentOpenedPayload) : CreateIncidentParams :=
  mkCreateIncident (io_incident_key p) (io_component_id p) (io_severity p) (io_title p)
    (io_summary p) (io_action p) (io_rollback_version_ref p) (Some (io_diagnostic_metadata p)) None.

(** The incident and the health record of a dead letter. *)
Definition deadLetterIncident `{Sha256} (p : WorkerDeadLetterPayload) : CreateIncidentParams :=
  mkCreateIncident (deadLetterKey p) (dl_worker p) sev_high
    ("Worker dead-lettered " +:+ dl_worker p +:+ " event")
    ("The " +:+ dl_worker p +:+ " worker exhausted delivery attempts for " +:+
       dl_source_subject p +:+ ": " +:+ sanitizeError (dl_error p))
    (Some act_quarantine_and_escalate) None
    (Some ([("source_subject", JStr (dl_source_subject p)); ("stream_sequence", dl_stream_sequence p)] ++
       match dl_redelivery_count p with Some n => [("redelivery_count", jint n)] | None => [] end ++
       spread_truthy "failed_payload_sha256" (payloadDigest (dl_failed_payload p))))
    None.

Definition deadLetterHealth (p : WorkerDeadLetterPayload) : RecordComponentHealthParams :=
  mkHealthParams (dl_worker p) (deadLetterKey p) hs_quarantined num_one
    (Z.max 1 (dl_redelivery_count p ?: 1)) 0 0 false false false None 0 true
    act_quarantine_and_escalate false None
    ["Dead-lettered " +:+ dl_source_subject p +:+ " at stream sequence " +:+
       sequence_text (dl_stream_sequence p) +:+ "."; sanitizeError (dl_error p)] None.

(** ** The publisher's world *)

#[local] Existing Instance InMemoryActions.state_eta.

(** What left GrowthOS: events to the broker, requests to n8n. *)
Inductive Delivery :=
  | Published (subject : string) (payload : jobject)
  | Dispatched (request : jobject).

(** The repositories, all over one outbox, and what was delivered. *)
Record PublisherWorld := mkPublisherWorld {
  pw_actions : InMemoryActions.State InMemoryOutbox.State;
  pw_incidents : InMemoryIncidents.State;
  pw_health : InMemoryHealth.State;
  pw_log : list Delivery;
}.

Definition pw_outbox (w : PublisherWorld) : InMemoryOutbox.State := InMemoryActions.outbox (pw_actions w).

(** [OutboxPublisherDependencies]: a repository or client that may be absent
    is a boolean; the worker id is the configured or the default one. *)
Record PublisherConfig := mkPublisherConfig {
  pc_incidents : bool;
  pc_health : bool;
  pc_client : bool;
  pc_actions : bool;
  pc_retryBackoffMs : option Z;
  pc_leaseMs : option Z;
  pc_workerId : string;
  pc_callbackUrl : option string;
  pc_requireCallback : bool;
}.

(** The environment of the calls made for one event: their times and ids,
    whether the broker accepts the event, and how n8n answers. *)
Record publish_env := mkPublishEnv {
  pe_incident : call_env;
  pe_health : call_env;
  pe_claim : call_env;
  pe_settle : call_env;
  pe_mark : call_env;
  pe_publish : result unit;
  pe_fetch : jobject -> FetchOutcome;
}.

Inductive DispatchAnswer := ans_consumed | ans_deferred.

#[export] Instance dispatch_answer_eq_dec : EqDecision DispatchAnswer.
Proof. solve_decision. Defined.

(** A property the request schema has checked to be a string. *)
Definition request_text (k : string) (request : jobject) : string :=
  match mapGet k request with Some (JStr s) => s | _ => "" end.

Section publisher.
Context `{Zod} `{Sha256} `{ZodFormats}.
Context (config : PublisherConfig).

Definition on_actions {A} (m : M (InMemoryActions.State InMemoryOutbox.State) A) : M PublisherWorld A :=
  fun w => let '(r, s) := m (pw_actions w) in
    (r, mkPublisherWorld s (pw_incidents w) (pw_health w) (pw_log w)).
Definition on_outbox {A} (m : M InMemoryOutbox.State A) : M PublisherWorld A :=
  on_actions (fun s => let '(r, o) := m (InMemoryActions.outbox s) in
    (r, s <| InMemoryActions.outbox := o |>)).
Definition on_incidents {A} (m : M InMemoryIncidents.State A) : M PublisherWorld A :=
  fun w => let '(r, s) := m (pw_incidents w) in
    (r, mkPublisherWorld (pw_actions w) s (pw_health w) (pw_log w)).
Definition on_health {A} (m : M InMemoryHealth.State A) : M PublisherWorld A :=
  fun w => let '(r, s) := m (pw_health w) in
    (r, mkPublisherWorld (pw_actions w) (pw_incidents w) s (pw_log w)).
Definition deliver (d : Delivery) : M PublisherWorld unit :=
  modify (fun w => mkPublisherWorld (pw_actions w) (pw_incidents w) (pw_health w) (pw_log w ++ [d])).

(** [if (repository) await ...] *)
Definition when {A} (b : bool) (m : M PublisherWorld A) : M PublisherWorld unit :=
  if b then m;; mret tt else mret tt.

Definition retryBackoffMs : result Z :=
  let value := pc_retryBackoffMs config ?: 60000 in
  if value <=? 0
  then Err (JsError "n8n retry backoff must be a positive number of milliseconds") else mret value.
Definition dispatchLeaseMs : result Z :=
  let value := pc_leaseMs config ?: 120000 in
  if value <=? 0
  then Err (JsError "n8n dispatch lease must be a positive number of milliseconds") else mret value.

Definition persistOperationalState (env : publish_env) (event : StoredOutboxEvent) :
    M PublisherWorld unit :=
  if String.eqb (oe_eventType event) INCIDENT_OPENED_EVENT_TYPE then
    if negb (pc_incidents config) then mret tt
    else
      payload ← lift (incidentOpenedPayloadSchema (oe_payload event));
      on_incidents (InMemoryIncidents.create (pe_incident env) (oe_tenantId event)
        (openedIncident payload));;
      mret tt
  else if negb (String.eqb (oe_eventType event) WORKER_DEAD_LETTER_EVENT_TYPE) then mret tt
  else
    payload ← lift (workerDeadLetterPayloadSchema (oe_payload event));
    when (pc_incidents config)
      (on_incidents (InMemoryIncidents.create (pe_incident env) (oe_tenantId event)
        (deadLetterIncident payload)));;
    when (pc_health config)
      (on_health (InMemoryHealth.record (pe_health env) (oe_tenantId event) (deadLetterHealth payload))).

(** [n8nDispatchClient.dispatch]: the request is sent once it parses. *)
Definition send (env : publish_env) (request : jobject) : M PublisherWorld N8nDispatchResult :=
  answer ← lift (dispatch (pe_fetch env) request);
  deliver (Dispatched request);;
  mret answer.

Definition with_callback (request : jobject) : jobject :=
  match pc_callbackUrl config with
  | Some url => if truthy (Some url) then mapSet "callback" (JObj [("url", JStr url)]) request else request
  | None => request
  end.

Definition errorCode (status : option Z) : string :=
  match status with
  | Some status => if status =? 0 then "N8N_NETWORK_ERROR" else "HTTP_" +:+ num_to_string (num_of_Z status)
  | None => "N8N_NETWORK_ERROR"
  end.

Definition receipt (status : Z) (body : json) : DispatchReceipt :=
  let metadata := extractN8nDispatchReceiptMetadata body in
  mkReceipt status body (rm_workflowId metadata) (rm_executionId metadata) (rm_providerReference metadata).

Definition dispatchN8nAction (env : publish_env) (payload : jobject) :
    M PublisherWorld DispatchAnswer :=
  if negb (pc_client config) then throw (JsError "n8n dispatch client is not configured")
  else if negb (pc_actions config) then
    throw (JsError ("external actions repository is not configured; " +:+
      "refusing n8n dispatch without a durable lifecycle"))
  else if pc_requireCallback config && negb (truthy (pc_callbackUrl config)) then
    throw (JsError "n8n dispatch result callback URL is required in this environment")
  else
    request ← lift (n8nTypedDispatchRequestSchema payload);
    let tenantId := request_text "tenantId" request in
    let actionId := request_text "actionId" request in
    let idempotencyKey := request_text "idempotencyKey" request in
    leaseMs ← lift dispatchLeaseMs;
    claim ← on_actions (InMemoryActions.claimDispatch (pe_claim env)
      (mkClaimDispatch tenantId actionId idempotencyKey (pc_workerId config) leaseMs None));
    match dc_disposition claim with
    | disp_deferred | disp_in_flight => mret ans_deferred
    | disp_settled => mret ans_consumed
    | disp_claimed =>
        answer ← send env (with_callback request);
        match answer with
        | DispatchOk status body =>
            on_actions (InMemoryActions.recordDispatchAccepted (pe_settle env)
              (mkAccepted tenantId actionId idempotencyKey (pc_workerId config) (receipt status body) None));;
            mret ans_consumed
        | DispatchFailed status error retryable _ =>
            if retryable then
              backoff ← lift retryBackoffMs;
              on_actions (InMemoryActions.scheduleDispatchRetry (pe_settle env)
                (mkRetry tenantId actionId idempotencyKey (pc_workerId config) backoff
                  (Some (errorCode status)) error None));;
              mret ans_deferred
            else
              on_actions (InMemoryActions.failDispatch (pe_settle env)
                (mkFail tenantId actionId idempotencyKey (pc_workerId config)
                  (Some (errorCode status)) error None));;
              mret ans_consumed
        end
    end.

(** [eventPublisher.publish(subject, payload)] *)
Definition publish (env : publish_env) (subject : string) (payload : jobject) : M PublisherWorld unit :=
  lift (pe_publish env);; deliver (Published subject payload).

Definition markEvent (env : publish_env) (event : StoredOutboxEvent) : M PublisherWorld unit :=
  on_outbox (InMemoryOutbox.markConsumed (pe_mark env) (oe_tenantId event) (oe_id event) None);; mret tt.

(** The body of the loop: how many events it adds to [publishedCount]. *)
Definition publishEvent (env : publish_env) (event : StoredOutboxEvent) : M PublisherWorld nat :=
  persistOperationalState env event;;
  if String.eqb (oe_eventType event) N8N_DISPATCH_EVENT_TYPE then
    answer ← dispatchN8nAction env (oe_payload event);
    match answer with
    | ans_deferred => mret 0%nat
    | ans_consumed => markEvent env event;; mret 1%nat
    end
  else
    subject ← lift (tenantScopedSubject (oe_tenantId event) (oe_eventType event));
    publish env subject (oe_payload event);;
    markEvent env event;; mret 1%nat.

(** [for (const event of pending)]; [envs id] is the environment of event [id]. *)
Fixpoint publishEvents (envs : string -> publish_env) (pending : list StoredOutboxEvent)
    (publishedCount : nat) : M PublisherWorld nat :=
  match pending with
  | [] => mret publishedCount
  | event :: rest =>
      n ← publishEvent (envs (oe_id event)) event;
      publishEvents envs rest (publishedCount + n)
  end.

Definition publishPendingForTenant (envs : string -> publish_env) (tenantId : string) (limit : Z) :
    M PublisherWorld nat :=
  pending ← on_outbox (InMemoryOutbox.listUnconsumed tenantId limit);
  publishEvents envs pending 0.

Record PublishCycleResult := mkCycleResult {
  publishedCount : nat;
  publishedByTenant : jsmap nat;
}.

Fixpoint publishTenants (envs : string -> publish_env) (tenantIds : list string) (limitPerTenant : Z)
    (acc : PublishCycleResult) : M PublisherWorld PublishCycleResult :=
  match tenantIds with
  | [] => mret acc
  | tenantId :: rest =>
      n ← publishPendingForTenant envs tenantId limitPerTenant;
      publishTenants envs rest limitPerTenant
        (mkCycleResult (publishedCount acc + n) (mapSet tenantId n (publishedByTenant acc)))
  end.

Definition publishCycle (envs : string -> publish_env) (tenantIds : list string) (limitPerTenant : Z) :
    M PublisherWorld PublishCycleResult :=
  publishTenants envs tenantIds limitPerTenant (mkCycleResult 0 []).
End publisher.

(** ** Settled actions *)

Section settled.
Context `{Z : Zod} {ZL : ZodLaws Z} `{H : Sha256} {HL : Sha256Laws H} {Hids : ActionIds Z}.
Context {O : Type} `{P : !OutboxPort O}.
Import InMemoryActions.
Implicit Types (s : State O) (r : ExternalActionRecord).

(** The action exists and no dispatch of it is owed any more. *)
Definition settled s (tenantId actionId idempotencyKey : string) : Prop :=
  exists r, found s tenantId actionId idempotencyKey = Some r /\ isSettled (ea_state r) = true.

Lemma found_of_stored s r : act_inv s -> mapGet (ea_id r) (actionsById s) = Some r ->
  found s (ea_tenantId r) (ea_actionId r) (ea_idempotencyKey r) = Some r.
Proof.
  intros Hs Hr. unfold found. fold (act_key r).
  rewrite (proj2 (indexed_some ea_id act_key _ _ (act_key r) r (ai_action _ Hs)) (conj Hr eq_refl)).
  by rewrite bool_decide_true.
Qed.

Lemma found_same s s' tn aid ik : same_actions s s' -> found s' tn aid ik = found s tn aid ik.
Proof. intros E. by rewrite E. Qed.

Lemma settled_state now l r r' k ty : action_step now l r r' k ty ->
  isSettled (ea_state r) = true -> isSettled (ea_state r') = true.
Proof.
  intros [] Hr; simpl; try done; [congruence|..].
  - apply leased_by_spec in H0 as [E _]. by rewrite E in Hr.
  - by destruct (ro_status i).
Qed.

(** No call takes a settled action back. *)
Lemma settled_exec c env s tn aid ik : act_inv s -> room s -> zod_uuid tn = true ->
  settled s tn aid ik -> settled (action_exec c env s).2 tn aid ik.
Proof.
  intros Hs Hroom Ht (r & Hf & Hst). destruct (found_some _ _ _ _ _ Hs Ht Hf) as (Hr & <- & <- & <-).
  destruct (exec_step c env s Hs Hroom) as (Hs' & _ & Hstep). destruct (Hstep _ _ Hr) as (r' & Hr' & Hc).
  assert (action_identity r' = action_identity r /\ isSettled (ea_state r') = true) as [Hi Hst'].
  { destruct Hc as [[-> _]|(l & k & ty & e & _ & Hst' & _)]; [done|].
    split; [by apply (step_identity _ _ _ _ _ _ Hst')|by apply (settled_state _ _ _ _ _ _ Hst')]. }
  injection Hi as H1 H2 H3 H4 _ _ _ _ _. exists r'. split; [|done]. rewrite <- H2, <- H3, <- H4.
  apply found_of_stored; [done|]. by rewrite H1.
Qed.

(** A lease holder's operation that returns has settled the action, if the
    state it stores is a settled one. *)
Lemma lease_settles tn aid ik owner what f e rest env s l (now : BinNums.Z) a s' :
  act_inv s -> room s -> zod_uuid tn = true -> ik ≠ "" -> (forall cb, l ≠ LOutcome cb) ->
  (forall r, leased_by r owner = true -> exists k ty,
     action_step now l r (f r) k ty /\ le_key (e (f r)) = key_text k /\ le_type (e (f r)) = ty) ->
  (forall r, isSettled (ea_state (f r)) = true) -> (forall x, quiet (rest x)) ->
  lease_body tn aid ik owner what f e rest env s = (Ok a, s') -> settled s' tn aid ik.
Proof.
  intros Hs Hroom Hz Hik Hno Hstep Hset Hq. unfold lease_body. unfold mbind at 1, M_bind.
  rewrite find_eq by done. destruct (found s tn aid ik) as [r|] eqn:Hf; [|done].
  destruct (isSettled (ea_state r)) eqn:Hst; [intros [= <- <-]; by exists r|].
  destruct (leased_by r owner) eqn:Hlb; [|done]. simpl.
  destruct (found_some _ _ _ _ _ Hs Hz Hf) as (Hr & <- & <- & <-).
  destruct (Hstep r Hlb) as (k & ty & Hst' & Hk & Hty).
  destruct (save_append env r (f r) now l k ty (e (f r)) s Hs Hroom Hr Hst' Hk Hty) as [Ha Hi].
  { intros cb Hcb. by destruct (Hno cb). }
  unfold save. msimpl. rewrite Ha. intros E.
  pose proof (Hq (f r) (moved env (f r) (e (f r)) s)) as Hsame. rewrite E in Hsame. simpl in Hsame.
  pose proof (step_identity _ _ _ _ _ _ Hst') as Hid. injection Hid as H1 H2 H3 H4 _ _ _ _ _.
  exists (f r). split; [|done]. rewrite (found_same _ _ _ _ _ Hsame), <- H2, <- H3, <- H4.
  apply found_of_stored; [done|]. simpl. apply mapGet_set_eq.
Qed.

Lemma accept_settles env i s a s' : act_inv s -> room s ->
  recordDispatchAccepted env i s = (Ok a, s') ->
  settled s' (ra_tenantId i) (ra_actionId i) (ra_idempotencyKey i).
Proof.
  intros Hs Hroom. unfold recordDispatchAccepted.
  destruct (validateDispatchIdentity (ra_tenantId i) (ra_actionId i) (ra_idempotencyKey i))
    as [[]|x] eqn:Hv; [|by intros; discriminate].
  destruct (identity_ok _ _ _ _ Hv) as [Hz Hik]. rewrite (bind_eq _ _ _ tt s) by done.
  apply (lease_settles _ _ _ (ra_leaseOwner i) "Cannot record dispatch receipt while external action is "
    (fun r => acceptedAction r (ra_receipt i) (ra_now i ?: env_now env))
    (fun x => acceptedEntry x (ra_receipt i))
    (fun x => enqueue env (acceptedCommand x);; mret x) env s (LAccept (ra_leaseOwner i))
    (ra_now i ?: env_now env)); try done.
  - intros r Hr. do 2 eexists. split; [by apply step_accept|done].
  - intros x. apply quiet_then.
Qed.

Lemma fail_settles env i s a s' : act_inv s -> room s -> failDispatch env i s = (Ok a, s') ->
  settled s' (fd_tenantId i) (fd_actionId i) (fd_idempotencyKey i).
Proof.
  intros Hs Hroom. unfold failDispatch.
  destruct (validateDispatchIdentity (fd_tenantId i) (fd_actionId i) (fd_idempotencyKey i))
    as [[]|x] eqn:Hv; [|by intros; discriminate].
  destruct (identity_ok _ _ _ _ Hv) as [Hz Hik]. rewrite (bind_eq _ _ _ tt s) by done.
  apply (lease_settles _ _ _ (fd_leaseOwner i) "Cannot fail dispatch while external action is "
    (fun r => failedAction r (fd_errorCode i) (fd_errorMessage i) (fd_now i ?: env_now env)) failedEntry
    (fun x => enqueue env (failedCommand x);;
       enqueue env (failureIncidentCommand x "dispatch");; mret x) env s (LFail (fd_leaseOwner i))
    (fd_now i ?: env_now env)); try done.
  - intros r Hr. do 2 eexists. split; [by apply step_fail|done].
  - intros x. apply quiet_bind; [apply quiet_enqueue|intros; apply quiet_then].
Qed.

(** A claim that answers "settled" found a settled action and wrote nothing. *)
Lemma claim_settled env i s c s' : claimDispatch env i s = (Ok c, s') ->
  dc_disposition c = disp_settled ->
  s' = s /\ settled s (cd_tenantId i) (cd_actionId i) (cd_idempotencyKey i).
Proof.
  unfold claimDispatch. intros Hc Hd.
  destruct (validateDispatchIdentity (cd_tenantId i) (cd_actionId i) (cd_idempotencyKey i))
    as [[]|x] eqn:Hv; [|done].
  destruct (identity_ok _ _ _ _ Hv) as [_ Hik]. rewrite (bind_eq _ _ _ tt s) in Hc by done.
  destruct (_ || _); [done|]. unfold mbind at 1, M_bind in Hc. rewrite find_eq in Hc by done.
  destruct (found _ _ _ _) as [r|] eqn:Hf; [|done]. cbv zeta in Hc.
  destruct (isSettled (ea_state r)) eqn:Hst; [injection Hc as <- <-; split; [done|by exists r]|].
  destruct (deferred r _); [by injection Hc as <- <-|]. destruct (in_flight r _); [by injection Hc as <- <-|].
  revert Hc. unfold save. msimpl. destruct (appendEvent _ _ _ _) as [[[]|] s1]; [|done].
  by intros [= <- <-].
Qed.

(** A claim of an action that has to wait writes nothing. *)
Lemma claim_waits env i s r (now := cd_now i ?: env_now env) :
  validateDispatchIdentity (cd_tenantId i) (cd_actionId i) (cd_idempotencyKey i) = Ok tt ->
  cd_leaseOwner i ≠ "" -> 0 < cd_leaseDurationMs i ->
  found s (cd_tenantId i) (cd_actionId i) (cd_idempotencyKey i) = Some r ->
  isSettled (ea_state r) = false -> deferred r now = true \/ in_flight r now = true ->
  exists c, claimDispatch env i s = (Ok c, s) /\
    (dc_disposition c = disp_deferred \/ dc_disposition c = disp_in_flight).
Proof.
  intros Hv Ho Hms Hf Hst Hw. unfold claimDispatch. rewrite Hv, (bind_eq _ _ _ tt s) by done.
  apply String.eqb_neq in Ho. rewrite Ho, (proj2 (Z.leb_gt _ _) Hms).
  cbv iota beta delta [orb]. destruct (identity_ok _ _ _ _ Hv) as [_ Hik].
  rewrite (bind_eq _ _ _ r s) by (by rewrite find_eq, Hf by done). cbv zeta. rewrite Hst. fold now.
  destruct (deferred r now); [eexists; split; [done|by left]|].
  destruct (in_flight r now); [eexists; split; [done|by right]|]. by destruct Hw.
Qed.

Lemma exec_of {A} (m : M (State O) A) c env s : action_exec c env s = (m;; mret tt) s ->
  (m s).2 = (action_exec c env s).2.
Proof. intros ->. by rewrite run_snd. Qed.
End settled.

(** ** What the calls of a pass keep *)

Section keeps.
Context `{Z : Zod} {ZL : ZodLaws Z} `{H : Sha256} {HL : Sha256Laws H} {Hids : ActionIds Z}.
Context `{ZF : ZodFormats}.
Implicit Types (w : PublisherWorld) (e : StoredOutboxEvent).

(** Events are added to the outbox, none is changed. *)
Definition outbox_more (o o' : InMemoryOutbox.State) : Prop :=
  outbox_inv o -> outbox_inv o' /\
  forall id e, mapGet id (InMemoryOutbox.eventsById o) = Some e ->
    mapGet id (InMemoryOutbox.eventsById o') = Some e.

#[export] Instance outbox_more_preorder : PreOrder outbox_more.
Proof.
  split; [by intros o Ho|]. intros o1 o2 o3 H12 H23 H1. destruct (H12 H1) as [H2 E12].
  destruct (H23 H2) as [H3 E23]. split; [done|]. intros id e He. by apply E23, E12.
Qed.

Lemma enqueue_more env c : preserves outbox_more (InMemoryOutbox.enqueue env c).
Proof.
  intros o Ho. destruct (decide (command_ok c)) as [Hc|Hc]; [|by rewrite enqueue_invalid].
  split; [by apply enqueue_inv|]. intros id e He.
  pose proof (enqueue_cases env c o Ho Hc) as Hcase. destruct (mapGet (_ c) _) as [i|].
  - by destruct Hcase as (? & _ & _ & ->).
  - rewrite Hcase. simpl. rewrite mapGet_set_ne; [done|]. intros Heq.
    by rewrite <- Heq, (next_id_fresh o Ho) in He.
Qed.

Definition actions_outbox_more (s s' : InMemoryActions.State InMemoryOutbox.State) : Prop :=
  outbox_more (InMemoryActions.outbox s) (InMemoryActions.outbox s').

#[export] Instance actions_outbox_more_preorder : PreOrder actions_outbox_more.
Proof.
  split; [intros s; apply outbox_more_preorder|]. intros s1 s2 s3 H12 H23.
  exact (transitivity (R := outbox_more) H12 H23).
Qed.

Lemma actions_enqueue_more env c : preserves actions_outbox_more (InMemoryActions.enqueue env c).
Proof.
  intros s. pose proof (enqueue_more env c (InMemoryActions.outbox s)) as Hm.
  unfold InMemoryActions.enqueue, actions_outbox_more. simpl.
  by destruct (InMemoryOutbox.enqueue env c (InMemoryActions.outbox s)).
Qed.

Lemma modify_more (f : InMemoryActions.State InMemoryOutbox.State -> _) :
  (forall s, InMemoryActions.outbox (f s) = InMemoryActions.outbox s) ->
  preserves actions_outbox_more (modify f).
Proof. intros Hf. apply preserves_modify. intros s. unfold actions_outbox_more. by rewrite Hf. Qed.

Lemma append_more env r (e : ledger_entry) : preserves actions_outbox_more (InMemoryActions.appendEvent env r e).
Proof.
  unfold InMemoryActions.appendEvent, InMemoryActions.newId.
  solve_preserves ltac:(apply modify_more; reflexivity).
Qed.

Lemma save_more r : preserves actions_outbox_more (InMemoryActions.save (O := InMemoryOutbox.State) r).
Proof. unfold InMemoryActions.save. solve_preserves ltac:(apply modify_more; reflexivity). Qed.

Lemma find_more tn aid ik :
  preserves actions_outbox_more (InMemoryActions.find (O := InMemoryOutbox.State) tn aid ik).
Proof. unfold InMemoryActions.find. solve_preserves fail. Qed.

Ltac solve_actions := solve_preserves ltac:(first
  [apply find_more | apply save_more | apply append_more | apply actions_enqueue_more]).

Lemma claim_more env i : preserves actions_outbox_more (InMemoryActions.claimDispatch env i).
Proof. unfold InMemoryActions.claimDispatch. cbv zeta. solve_actions. Qed.
Lemma accept_more env i : preserves actions_outbox_more (InMemoryActions.recordDispatchAccepted env i).
Proof. unfold InMemoryActions.recordDispatchAccepted. cbv zeta. solve_actions. Qed.
Lemma retry_more env i : preserves actions_outbox_more (InMemoryActions.scheduleDispatchRetry env i).
Proof. unfold InMemoryActions.scheduleDispatchRetry. cbv zeta. solve_actions. Qed.
Lemma fail_more env i : preserves actions_outbox_more (InMemoryActions.failDispatch env i).
Proof. unfold InMemoryActions.failDispatch. cbv zeta. solve_actions. Qed.

(** *** A call on the actions *)

Definition fits (n : nat) w : Prop :=
  (InMemoryActions.sequence (pw_actions w) + 4 * N.of_nat n < 10 ^ 12)%N.

Record acts_on (s s' : InMemoryActions.State InMemoryOutbox.State) (n : N) : Prop := {
  ao_inv : act_inv s';
  ao_sequence : (InMemoryActions.sequence s' <= InMemoryActions.sequence s + n)%N;
  ao_settled tn aid ik : zod_uuid tn = true -> settled s tn aid ik -> settled s' tn aid ik;
  ao_outbox : actions_outbox_more s s';
}.

Lemma acts_on_refl s : act_inv s -> acts_on s s 0.
Proof. intros Hs. split; [done|lia|done|reflexivity]. Qed.

Lemma acts_on_trans s1 s2 s3 n m : acts_on s1 s2 n -> acts_on s2 s3 m -> acts_on s1 s3 (n + m).
Proof.
  intros [I1 Q1 S1 O1] [I2 Q2 S2 O2].
  split; [done|lia|by eauto|exact (transitivity (R := actions_outbox_more) O1 O2)].
Qed.

Lemma acts_on_le s s' n m : acts_on s s' n -> (n <= m)%N -> acts_on s s' m.
Proof. intros [I Q S O] Hm. split; [done|lia|done|done]. Qed.

Lemma call_acts_on {A} (m : M (InMemoryActions.State InMemoryOutbox.State) A) c env s :
  (forall t, action_exec c env t = (m;; mret tt) t) -> preserves actions_outbox_more m ->
  act_inv s -> room s -> acts_on s (m s).2 2.
Proof.
  intros Hc Hm Hs Hroom. destruct (exec_step c env s Hs Hroom) as (Hi & Hq & _).
  rewrite (exec_of m c env s (Hc s)).
  split; [done|done|by intros; apply settled_exec|rewrite <- (exec_of m c env s (Hc s)); apply Hm].
Qed.

Lemma claim_acts env i s : act_inv s -> room s -> acts_on s (InMemoryActions.claimDispatch env i s).2 2.
Proof. apply (call_acts_on _ (AClaim i) env); [done|apply claim_more]. Qed.
Lemma accept_acts env i s : act_inv s -> room s ->
  acts_on s (InMemoryActions.recordDispatchAccepted env i s).2 2.
Proof. apply (call_acts_on _ (AAccept i) env); [done|apply accept_more]. Qed.
Lemma retry_acts env i s : act_inv s -> room s ->
  acts_on s (InMemoryActions.scheduleDispatchRetry env i s).2 2.
Proof. apply (call_acts_on _ (ARetry i) env); [done|apply retry_more]. Qed.
Lemma fail_acts env i s : act_inv s -> room s -> acts_on s (InMemoryActions.failDispatch env i s).2 2.
Proof. apply (call_acts_on _ (AFail i) env); [done|apply fail_more]. Qed.
End keeps.

(** ** Dispatching an action *)

Section dispatching.
Context `{Z : Zod} {ZL : ZodLaws Z} `{H : Sha256} {HL : Sha256Laws H} {Hids : ActionIds Z}.
Context `{ZF : ZodFormats}.
Context (config : PublisherConfig).
Implicit Types (w : PublisherWorld) (e : StoredOutboxEvent).

(** The request of a dispatch event names an action that is settled. *)
Definition dispatch_settled w (payload : jobject) : Prop :=
  exists request, n8nTypedDispatchRequestSchema payload = Ok request /\
    settled (pw_actions w) (request_text "tenantId" request) (request_text "actionId" request)
      (request_text "idempotencyKey" request).

Lemma request_tenant v request : n8nTypedDispatchRequestSchema v = Ok request ->
  zod_uuid (request_text "tenantId" request) = true.
Proof.
  intros (tn & aid & ty & by_ & ik & payload & cb & q & -> & G1 & _)%typed_shape.
  unfold request_text. simpl. destruct tn as [| | |s| |]; try done.
  revert G1. simpl. by destruct (zod_uuid s).
Qed.

Lemma request_identity v request : n8nTypedDispatchRequestSchema v = Ok request ->
  validateDispatchIdentity (request_text "tenantId" request) (request_text "actionId" request)
    (request_text "idempotencyKey" request) = Ok tt.
Proof.
  intros Hq. pose proof (request_tenant v request Hq) as Ht.
  apply typed_shape in Hq as (tn & aid & ty & by_ & ik & payload & cb & q & -> & _ & G2 & _ & _ & G5 & _).
  destruct (j_text_some (length_in 1 255) _ _ G2) as (a & [= ->] & _).
  destruct (j_text_some (length_in 1 255) _ _ G5) as (k & [= ->] & _).
  unfold validateDispatchIdentity. rewrite (proj2 (tenantIdSchema_ok _ _) (conj Ht eq_refl)).
  unfold request_text, actionIdSchema, idempotencyKeySchema, bounded_text, refine. revert G2 G5. msimpl.
  by destruct (length_in 1 255 a), (length_in 1 255 k).
Qed.

(** A dispatch touches the actions, their outbox and the log. *)
Record dispatch_effect w w' (n : N) : Prop := {
  de_acts : acts_on (pw_actions w) (pw_actions w') n;
  de_incidents : pw_incidents w' = pw_incidents w;
  de_health : pw_health w' = pw_health w;
  de_log : exists l, pw_log w' = pw_log w ++ l;
}.

Lemma dispatch_effect_refl w : act_inv (pw_actions w) -> dispatch_effect w w 0.
Proof. intros Hw. split; [by apply acts_on_refl|done|done|exists []; by rewrite app_nil_r]. Qed.

Lemma dispatch_effect_trans w1 w2 w3 n m : dispatch_effect w1 w2 n -> dispatch_effect w2 w3 m ->
  dispatch_effect w1 w3 (n + m).
Proof.
  intros [A1 I1 H1 [l1 L1]] [A2 I2 H2 [l2 L2]].
  split; [by eapply acts_on_trans|congruence|congruence|]. exists (l1 ++ l2).
  by rewrite L2, L1, (assoc_L (++)).
Qed.

Lemma dispatch_effect_le w w' n m : dispatch_effect w w' n -> (n <= m)%N -> dispatch_effect w w' m.
Proof. intros [A I E L] Hm. split; [by eapply acts_on_le|done..]. Qed.

Lemma on_actions_effect {A} (m : M (InMemoryActions.State InMemoryOutbox.State) A) w n :
  acts_on (pw_actions w) (m (pw_actions w)).2 n -> dispatch_effect w (on_actions m w).2 n.
Proof.
  intros Hm. unfold on_actions. destruct (m (pw_actions w)) as [r s].
  split; [exact Hm|done|done|]. exists []. simpl. by rewrite app_nil_r.
Qed.

Lemma on_actions_eq {A} (m : M (InMemoryActions.State InMemoryOutbox.State) A) w r w' :
  on_actions m w = (r, w') -> m (pw_actions w) = (r, pw_actions w').
Proof. unfold on_actions. destruct (m (pw_actions w)). by intros [= <- <-]. Qed.

Lemma send_effect env request w : act_inv (pw_actions w) -> dispatch_effect w (send env request w).2 0.
Proof.
  intros Hw. unfold send, deliver. msimpl. destruct (dispatch _ _); [|by apply dispatch_effect_refl].
  split; [by apply acts_on_refl|done|done|by eexists].
Qed.

(** After the request was sent: one more call, whose outcome is the answer. *)
Lemma settle_effect {A} (m : M (InMemoryActions.State InMemoryOutbox.State) A) (answer : DispatchAnswer)
    w1 w n (Q : PublisherWorld -> Prop) : dispatch_effect w1 w n ->
  acts_on (pw_actions w) (m (pw_actions w)).2 2 ->
  (forall a w', answer = ans_consumed -> m (pw_actions w) = (Ok a, pw_actions w') -> Q w') ->
  dispatch_effect w1 ((on_actions m;; mret answer) w).2 (n + 2) /\
  (((on_actions m;; mret answer) w).1 = Ok ans_consumed -> Q ((on_actions m;; mret answer) w).2).
Proof.
  intros Hn Hm HQ. pose proof (on_actions_effect m w 2 Hm) as He. unfold mbind, M_bind.
  destruct (on_actions m w) as [[a|e] w'] eqn:E; simpl in *.
  - split; [by eapply dispatch_effect_trans|]. intros [= ->].
    by apply (HQ a); [|apply on_actions_eq].
  - split; [by eapply dispatch_effect_trans|done].
Qed.

Lemma fits_room w : fits 1 w -> room (pw_actions w).
Proof. unfold fits, room. lia. Qed.

Lemma fits_after n w w' : fits 1 w -> dispatch_effect w w' n -> (n <= 2)%N -> room (pw_actions w').
Proof. intros Hf [[_ Hq _ _] _ _ _]. unfold fits, room in *. lia. Qed.

(** Whatever the answers: only the action's own calls are made, and an event
    is released for acknowledgement only once its action is settled. *)
Lemma dispatch_spec env payload w : act_inv (pw_actions w) -> fits 1 w ->
  dispatch_effect w (dispatchN8nAction config env payload w).2 4 /\
  ((dispatchN8nAction config env payload w).1 = Ok ans_consumed ->
   dispatch_settled (dispatchN8nAction config env payload w).2 payload).
Proof.
  intros Hw Hfit. unfold dispatchN8nAction.
  assert (dispatch_effect w w 4) as Hsame by (by eapply dispatch_effect_le; [apply dispatch_effect_refl|]).
  destruct (negb (pc_client config)); [done|]. destruct (negb (pc_actions config)); [done|].
  destruct (_ && _); [done|].
  destruct (n8nTypedDispatchRequestSchema payload) as [request|] eqn:Hq; [|done].
  rewrite (bind_eq _ _ _ request w) by done. cbv zeta.
  destruct (dispatchLeaseMs config) as [leaseMs|] eqn:Hl; [|done].
  rewrite (bind_eq _ _ _ leaseMs w) by done.
  set (i := mkClaimDispatch _ _ _ _ _ _).
  pose proof (on_actions_effect _ w _ (claim_acts (pe_claim env) i _ Hw (fits_room _ Hfit))) as Hc.
  destruct (on_actions (InMemoryActions.claimDispatch (pe_claim env) i) w) as [[claim|x] w1] eqn:Ec;
    simpl in Hc.
  2: { rewrite (bind_err _ _ _ _ _ Ec). by split; [eapply dispatch_effect_le|]. }
  rewrite (bind_eq _ _ _ _ _ Ec).
  destruct (dc_disposition claim) eqn:Hd.
  - (* claimed *)
    set (sent := with_callback config request).
    pose proof (send_effect env sent w1 (ao_inv _ _ _ (de_acts _ _ _ Hc))) as Hs.
    destruct (send env sent w1) as [[answer|x] w2] eqn:Es; simpl in Hs.
    2: { rewrite (bind_err _ _ _ _ _ Es). split; [|done].
         eapply dispatch_effect_le; [by eapply dispatch_effect_trans|done]. }
    rewrite (bind_eq _ _ _ _ _ Es).
    pose proof (dispatch_effect_trans _ _ _ _ _ Hc Hs) as Hcs.
    pose proof (ao_inv _ _ _ (de_acts _ _ _ Hcs)) as Hi.
    pose proof (fits_after _ _ _ Hfit Hcs ltac:(done)) as Hr.
    destruct answer as [status body|status error [|] body].
    + apply (settle_effect _ ans_consumed w w2 2 (fun w' => dispatch_settled w' payload));
        [done|by apply accept_acts|].
      intros a w' _ Ha. exists request. split; [done|]. by apply accept_settles in Ha.
    + destruct (retryBackoffMs config) as [backoff|]; [|split; [by eapply dispatch_effect_le|done]].
      apply (settle_effect _ ans_deferred w w2 2 (fun w' => dispatch_settled w' payload));
        [done|by apply retry_acts|done].
    + apply (settle_effect _ ans_consumed w w2 2 (fun w' => dispatch_settled w' payload));
        [done|by apply fail_acts|].
      intros a w' _ Ha. exists request. split; [done|]. by apply fail_settles in Ha.
  - by split; [eapply dispatch_effect_le|].
  - by split; [eapply dispatch_effect_le|].
  - split; [by eapply dispatch_effect_le|]. intros _. exists request. split; [done|].
    apply on_actions_eq in Ec. destruct (claim_settled _ _ _ _ _ Ec Hd) as [Hsame' Hst].
    simpl in *. rewrite Hsame'. exact Hst.
Qed.
End dispatching.

(** ** Recording the operational state *)

Section recording.
Context `{Z : Zod} {ZL : ZodLaws Z} `{H : Sha256} {ZF : ZodFormats}.
Context (config : PublisherConfig).
Implicit Types (w : PublisherWorld) (e : StoredOutboxEvent).

(** The incident, or the health report, of these parameters is stored. *)
Definition incident_known w (tenantId : string) (p : CreateIncidentParams) : Prop :=
  is_Some (mapGet (InMemoryIncidents.key tenantId (trim (ci_incidentKey p)))
    (InMemoryIncidents.recordIdByKey (pw_incidents w))).
Definition health_known w (tenantId : string) (p : RecordComponentHealthParams) : Prop :=
  is_Some (mapGet (InMemoryHealth.key tenantId (trim (hp_componentId p)) (trim (hp_idempotencyKey p)))
    (InMemoryHealth.recordIdByKey (pw_health w))).

(** What an event stands for is on record. *)
Definition recorded w e : Prop :=
  (oe_eventType e = INCIDENT_OPENED_EVENT_TYPE -> pc_incidents config = true ->
     exists p, incidentOpenedPayloadSchema (oe_payload e) = Ok p /\
       incident_known w (oe_tenantId e) (openedIncident p)) /\
  (oe_eventType e = WORKER_DEAD_LETTER_EVENT_TYPE ->
     exists p, workerDeadLetterPayloadSchema (oe_payload e) = Ok p /\
       (pc_incidents config = true -> incident_known w (oe_tenantId e) (deadLetterIncident p)) /\
       (pc_health config = true -> health_known w (oe_tenantId e) (deadLetterHealth p))).

(** Nothing is forgotten: neither deliveries nor records. *)
Record onward w w' : Prop := {
  ow_log d : d ∈ pw_log w -> d ∈ pw_log w';
  ow_incidents k : is_Some (mapGet k (InMemoryIncidents.recordIdByKey (pw_incidents w))) ->
    is_Some (mapGet k (InMemoryIncidents.recordIdByKey (pw_incidents w')));
  ow_health k : is_Some (mapGet k (InMemoryHealth.recordIdByKey (pw_health w))) ->
    is_Some (mapGet k (InMemoryHealth.recordIdByKey (pw_health w')));
}.

#[export] Instance onward_preorder : PreOrder onward.
Proof. split; [done|]. intros w1 w2 w3 [L1 I1 H1] [L2 I2 H2]. split; eauto. Qed.

Lemma recorded_onward w w' e : onward w w' -> recorded w e -> recorded w' e.
Proof.
  intros [_ Hi Hh] [H1 H2]. split.
  - intros He Hc. destruct (H1 He Hc) as (p & Hp & Hk). exists p. split; [done|by apply Hi].
  - intros He. destruct (H2 He) as (p & Hp & Hk1 & Hk2). exists p.
    split_and!; [done|intros Hc; by apply Hi, Hk1|intros Hc; by apply Hh, Hk2].
Qed.

Lemma mapSet_is_Some {V} k k' (v : V) m : is_Some (mapGet k m) -> is_Some (mapGet k (mapSet k' v m)).
Proof. intros Hk. rewrite mapGet_set. by case_bool_decide; [eexists|]. Qed.

Lemma indexed_is_Some {V} (byId : jsmap V) ids k v : indexed byId ids k = Some v -> is_Some (mapGet k ids).
Proof. unfold indexed. by destruct (mapGet k ids). Qed.

Lemma create_records env tn p s : let '(r, s') := InMemoryIncidents.create env tn p s in
  (forall k, is_Some (mapGet k (InMemoryIncidents.recordIdByKey s)) ->
     is_Some (mapGet k (InMemoryIncidents.recordIdByKey s'))) /\
  (is_Some (match r with Ok i => Some i | Err _ => None end) ->
     is_Some (mapGet (InMemoryIncidents.key tn (trim (ci_incidentKey p)))
       (InMemoryIncidents.recordIdByKey s'))).
Proof.
  unfold InMemoryIncidents.create. msimpl. destruct (tenantIdSchema tn) as [tn'|] eqn:Et; [|by split; [|intros []]].
  apply tenantIdSchema_same in Et as ->.
  destruct (createIncidentParamsSchema p) as [p'|] eqn:Ep; [|by split; [|intros []]].
  assert (ci_incidentKey p' = trim (ci_incidentKey p)) as Hk.
  { unfold createIncidentParamsSchema in Ep. schema_fields Ep. by subst p'. }
  rewrite Hk. destruct (indexed _ _ _) as [r|] eqn:Hi; simpl.
  { split; [done|]. intros _. by apply indexed_is_Some in Hi. }
  destruct (incidentRecordSchema _) as [r|]; simpl; [|by split; [|intros []]].
  split; [intros k; apply mapSet_is_Some|]. intros _. rewrite mapGet_set_eq. by eexists.
Qed.

Lemma health_records env tn p s : let '(r, s') := InMemoryHealth.record env tn p s in
  (forall k, is_Some (mapGet k (InMemoryHealth.recordIdByKey s)) ->
     is_Some (mapGet k (InMemoryHealth.recordIdByKey s'))) /\
  (is_Some (match r with Ok i => Some i | Err _ => None end) ->
     is_Some (mapGet (InMemoryHealth.key tn (trim (hp_componentId p)) (trim (hp_idempotencyKey p)))
       (InMemoryHealth.recordIdByKey s'))).
Proof.
  unfold InMemoryHealth.record. msimpl. destruct (tenantIdSchema tn) as [tn'|] eqn:Et; [|by split; [|intros []]].
  apply tenantIdSchema_same in Et as ->.
  destruct (recordComponentHealthParamsSchema p) as [p'|] eqn:Ep; [|by split; [|intros []]].
  assert (hp_componentId p' = trim (hp_componentId p) /\ hp_idempotencyKey p' = trim (hp_idempotencyKey p))
    as [Hc Hk].
  { unfold recordComponentHealthParamsSchema in Ep. schema_fields Ep. by subst p'. }
  rewrite Hc, Hk. destruct (indexed _ _ _) as [r|] eqn:Hi; simpl.
  { split; [done|]. intros _. by apply indexed_is_Some in Hi. }
  destruct (componentHealthRecordSchema _) as [r|]; simpl; [|by split; [|intros []]].
  split; [intros k; apply mapSet_is_Some|]. intros _. rewrite mapGet_set_eq. by eexists.
Qed.

(** A step that leaves the actions and the log alone and forgets nothing. *)
Definition side_step w w' : Prop :=
  pw_actions w' = pw_actions w /\ pw_log w' = pw_log w /\ onward w w'.

Lemma on_incidents_step env tn p w :
  let '(r, w') := on_incidents (InMemoryIncidents.create env tn p) w in
  side_step w w' /\ (forall i, r = Ok i -> incident_known w' tn p).
Proof.
  unfold on_incidents. pose proof (create_records env tn p (pw_incidents w)) as Hr.
  destruct (InMemoryIncidents.create _ _ _ _) as [r s]. destruct Hr as [Hg Hk].
  split; [by split_and!|]. intros i ->. apply Hk. by eexists.
Qed.

Lemma on_health_step env tn p w :
  let '(r, w') := on_health (InMemoryHealth.record env tn p) w in
  side_step w w' /\ (forall i, r = Ok i -> health_known w' tn p).
Proof.
  unfold on_health. pose proof (health_records env tn p (pw_health w)) as Hr.
  destruct (InMemoryHealth.record _ _ _ _) as [r s]. destruct Hr as [Hg Hk].
  split; [by split_and!|]. intros i ->. apply Hk. by eexists.
Qed.

Lemma side_step_refl w : side_step w w.
Proof. by split_and!. Qed.
Lemma side_step_trans w1 w2 w3 : side_step w1 w2 -> side_step w2 w3 -> side_step w1 w3.
Proof.
  intros (A1 & L1 & O1) (A2 & L2 & O2). split_and!; [congruence|congruence|by etrans].
Qed.

(** [when]: the step is made, and its outcome known, if the flag is set. *)
Lemma when_step {A} b (m : M PublisherWorld A) w (Q : PublisherWorld -> Prop) :
  (let '(r, w') := m w in side_step w w' /\ (forall a, r = Ok a -> Q w')) ->
  let '(r, w') := when b m w in side_step w w' /\ (r = Ok tt -> b = true -> Q w').
Proof.
  intros Hm. destruct b; simpl; [|by split; [apply side_step_refl|]].
  unfold mbind, M_bind. destruct (m w) as [[a|x] w']; destruct Hm as [Hs Hq]; simpl;
    (split; [done|]); [by intros _ _; apply (Hq a)|done].
Qed.

Lemma persist_spec env e w : let '(r, w') := persistOperationalState config env e w in
  side_step w w' /\ (r = Ok tt -> recorded w' e).
Proof.
  unfold persistOperationalState. destruct (String.eqb (oe_eventType e) INCIDENT_OPENED_EVENT_TYPE) eqn:Hi.
  - apply String.eqb_eq in Hi. destruct (pc_incidents config) eqn:Hc; cbv beta iota delta [negb].
    2: { split; [apply side_step_refl|]. intros _. unfold recorded. rewrite Hi, Hc. by split. }
    destruct (incidentOpenedPayloadSchema (oe_payload e)) as [p|x] eqn:Ep; [|by split; [apply side_step_refl|]].
    rewrite (bind_eq _ _ _ p w) by done.
    pose proof (on_incidents_step (pe_incident env) (oe_tenantId e) (openedIncident p) w) as Hs.
    unfold mbind, M_bind. destruct (on_incidents _ w) as [[i|x] w']; destruct Hs as [Hs Hk];
      (split; [done|]); [|done].
    intros _. split; [|by rewrite Hi]. intros _ _. exists p. split; [done|by apply (Hk i)].
  - apply String.eqb_neq in Hi.
    destruct (String.eqb (oe_eventType e) WORKER_DEAD_LETTER_EVENT_TYPE) eqn:Hd; cbv beta iota delta [negb].
    2: { apply String.eqb_neq in Hd. by split; [apply side_step_refl|]. }
    destruct (workerDeadLetterPayloadSchema (oe_payload e)) as [p|x] eqn:Ep; [|by split; [apply side_step_refl|]].
    rewrite (bind_eq _ _ _ p w) by done. unfold mbind at 1, M_bind.
    pose proof (when_step (pc_incidents config)
      (on_incidents (InMemoryIncidents.create (pe_incident env) (oe_tenantId e) (deadLetterIncident p)))
      w (fun w' => incident_known w' (oe_tenantId e) (deadLetterIncident p))
      (on_incidents_step _ _ _ _)) as Hs1.
    destruct (when (pc_incidents config) _ w) as [[[]|x] w1]; destruct Hs1 as [Hs1 Hk1];
      [|by split].
    pose proof (when_step (pc_health config)
      (on_health (InMemoryHealth.record (pe_health env) (oe_tenantId e) (deadLetterHealth p)))
      w1 (fun w' => health_known w' (oe_tenantId e) (deadLetterHealth p))
      (on_health_step _ _ _ _)) as Hs2.
    destruct (when (pc_health config) _ w1) as [r w2]; destruct Hs2 as [Hs2 Hk2].
    split; [by eapply side_step_trans|]. intros ->. split; [done|]. intros _. exists p.
    split_and!; [done| |by apply Hk2]. intros Hc. apply Hs2. by apply Hk1.
Qed.
End recording.

(** ** One event *)

Section pass.
Context `{Z : Zod} {ZL : ZodLaws Z} `{H : Sha256} {HL : Sha256Laws H} {Hids : ActionIds Z}.
Context `{ZF : ZodFormats}.
Context (config : PublisherConfig).
Implicit Types (w : PublisherWorld) (e : StoredOutboxEvent).

(** What must have happened before an event is acknowledged. *)
Definition delivered w e : Prop :=
  recorded config w e /\
  (oe_eventType e = N8N_DISPATCH_EVENT_TYPE -> dispatch_settled w (oe_payload e)) /\
  (oe_eventType e ≠ N8N_DISPATCH_EVENT_TYPE ->
     Published ("t." +:+ oe_tenantId e +:+ "." +:+ oe_eventType e) (oe_payload e) ∈ pw_log w).

Definition stored w (id : string) : option StoredOutboxEvent :=
  mapGet id (InMemoryOutbox.eventsById (pw_outbox w)).
Definition consumed (t : BinNums.Z) e : StoredOutboxEvent := e <| oe_consumedAt := Some t |>.

(** A publisher that can run over [n] more events. *)
Definition ready (n : nat) w : Prop :=
  outbox_inv (pw_outbox w) /\ act_inv (pw_actions w) /\ fits n w.

(** Later states know what earlier ones did. *)
Definition later w w' : Prop :=
  onward w w' /\ forall tn aid ik, zod_uuid tn = true ->
    settled (pw_actions w) tn aid ik -> settled (pw_actions w') tn aid ik.

#[export] Instance later_preorder : PreOrder later.
Proof.
  split; [by split|]. intros w1 w2 w3 [O1 S1] [O2 S2]. split; [by etrans|by eauto].
Qed.

Lemma delivered_later w w' e : later w w' -> delivered w e -> delivered w' e.
Proof.
  intros [Ho Hs] (H1 & H2 & H3). split_and!; [by eapply recorded_onward| |].
  - intros He. destruct (H2 He) as (q & Hq & Hst). exists q. split; [done|].
    apply Hs; [by eapply request_tenant|done].
  - intros He. by apply Ho, H3.
Qed.

(** The events of [w] after a step that may acknowledge [e]. *)
Definition acknowledges w w' e (done_ : bool) : Prop :=
  forall id x, stored w id = Some x ->
    if done_ && bool_decide (id = oe_id e)
    then exists t, stored w' id = Some (consumed t x) else stored w' id = Some x.

Lemma side_step_later w w' : side_step w w' -> later w w'.
Proof. intros (A & _ & O). split; [done|]. by rewrite A. Qed.

Lemma dispatch_effect_later w w' n : dispatch_effect w w' n -> later w w'.
Proof.
  intros [[_ _ S _] I E [l L]]. split; [|done].
  split; [intros d Hd; rewrite L; apply elem_of_app; by left|by rewrite I|by rewrite E].
Qed.

Lemma ready_le n m w : ready n w -> (m <= n)%nat -> ready m w.
Proof. intros (Ho & Ha & Hf) Hm. split_and!; [done|done|]. unfold fits in *. lia. Qed.

Lemma ready_S n w : ready (S n) w -> ready n w.
Proof. intros Hr. eapply ready_le; [exact Hr|lia]. Qed.

Lemma side_step_ready n w w' : side_step w w' -> ready n w -> ready n w'.
Proof. intros (A & _ & _). unfold ready, pw_outbox, fits. by rewrite A. Qed.

Lemma mark_spec env e w n : ready n w -> stored w (oe_id e) = Some e ->
  exists w' t, markEvent env e w = (Ok tt, w') /\ ready n w' /\ later w w' /\
    stored w' (oe_id e) = Some (consumed t e) /\
    forall id x, id ≠ oe_id e -> stored w id = Some x -> stored w' id = Some x.
Proof.
  intros (Ho & Ha & Hf) He. unfold markEvent, on_outbox, on_actions.
  pose proof (markConsumed_cases (pe_mark env) (oe_tenantId e) (oe_id e) None _ Ho) as Hm.
  pose proof (markConsumed_inv (pe_mark env) (oe_tenantId e) (oe_id e) None _ Ho) as Hi.
  unfold stored in He. rewrite He in Hm. rewrite bool_decide_true in Hm by done.
  unfold pw_outbox in Hm, Hi. unfold mbind, M_bind. rewrite Hm in Hi |- *. simpl.
  do 2 eexists. split; [done|]. split; [split_and!; [exact Hi| |exact Hf]|split; [|split]].
  - exact (same_actions_inv _ (_ <| InMemoryActions.outbox := _ |>) eq_refl Ha).
  - split; [done|]. intros tn aid ik _ Hs. exact Hs.
  - unfold stored, pw_outbox. simpl. apply mapGet_set_eq.
  - intros id x Hne Hx. unfold stored, pw_outbox. simpl. by rewrite mapGet_set_ne by done.
Qed.

Lemma publish_spec env e subject w : let '(r, w') := publish env subject (oe_payload e) w in
  pw_actions w' = pw_actions w /\ later w w' /\
  (r = Ok tt -> Published subject (oe_payload e) ∈ pw_log w').
Proof.
  unfold publish, deliver. msimpl. destruct (pe_publish env) as [[]|x]; simpl; [|by split_and!].
  split_and!; [done| |intros _; apply elem_of_app; right; by left].
  split; [|done]. split; [|done..]. intros d Hd. apply elem_of_app. by left.
Qed.

Lemma same_actions_ready n w w' : pw_actions w' = pw_actions w -> ready n w -> ready n w'.
Proof. intros E. unfold ready, pw_outbox, fits. by rewrite E. Qed.

Lemma same_actions_stored w w' id : pw_actions w' = pw_actions w -> stored w' id = stored w id.
Proof. intros E. unfold stored, pw_outbox. by rewrite E. Qed.

Definition acked (r : result nat) : bool := match r with Ok (S _) => true | _ => false end.

(** After everything an event needs has happened. *)
Lemma mark_last env e n w w2 : ready n w2 -> later w w2 -> stored w (oe_id e) = Some e ->
  (forall id x, stored w id = Some x -> stored w2 id = Some x) -> delivered w2 e ->
  let '(r, w') := (markEvent env e;; mret 1%nat) w2 in
  ready n w' /\ later w w' /\ acknowledges w w' e (acked r) /\ (acked r = true -> delivered w' e).
Proof.
  intros Hr Hl He Hst Hd.
  destruct (mark_spec env e w2 n Hr (Hst _ _ He)) as (w3 & t & Hm & Hr3 & Hl3 & He3 & Hst3).
  rewrite (bind_eq _ _ _ tt w3) by done. simpl.
  split_and!; [done|by etrans| |by intros _; eapply delivered_later].
  intros id x Hx. simpl. case_bool_decide as Hid.
  - exists t. subst id. rewrite He in Hx. by injection Hx as ->.
  - by apply Hst3, Hst.
Qed.

Lemma publishEvent_spec env e n w : ready (S n) w -> stored w (oe_id e) = Some e ->
  let '(r, w') := publishEvent config env e w in
  ready n w' /\ later w w' /\ acknowledges w w' e (acked r) /\ (acked r = true -> delivered w' e).
Proof.
  intros Hr He. unfold publishEvent. unfold mbind at 1, M_bind.
  pose proof (persist_spec config env e w) as Hp.
  destruct (persistOperationalState config env e w) as [[[]|x] w1]; destruct Hp as [Hs Hrec].
  2: { pose proof (side_step_ready _ _ _ Hs Hr). split_and!; [by apply ready_S|
         by apply side_step_later| |done].
       intros id x0 Hx. simpl. rewrite (same_actions_stored w) by apply Hs. done. }
  assert (ready (S n) w1) as Hr1 by (by eapply side_step_ready).
  pose proof (side_step_later _ _ Hs) as Hl1.
  assert (forall id x, stored w id = Some x -> stored w1 id = Some x) as Hst1.
  { intros id x Hx. rewrite (same_actions_stored w) by apply Hs. done. }
  destruct (String.eqb (oe_eventType e) N8N_DISPATCH_EVENT_TYPE) eqn:Hty.
  - apply String.eqb_eq in Hty. destruct Hr1 as (Ho1 & Ha1 & Hf1).
    destruct (dispatch_spec config env (oe_payload e) w1 Ha1) as [Hd Hset].
    { unfold fits in *. lia. }
    unfold mbind at 1, M_bind. destruct (dispatchN8nAction _ _ _ w1) as [r w2]. simpl in Hd, Hset.
    pose proof (dispatch_effect_later _ _ _ Hd) as Hl2. destruct Hd as [[Ha2 Hq2 _ Hm2] _ _ _].
    destruct (Hm2 Ho1) as [Ho2 Hst2].
    assert (ready n w2) as Hr2 by (split_and!; [done|done|]; unfold fits in *; lia).
    destruct r as [[]|x].
    + apply mark_last; [done|by etrans|done|intros id x Hx; by apply Hst2, Hst1|].
      split_and!; [|by intros _; apply Hset|done].
      apply (recorded_onward _ w1); [apply Hl2|by apply Hrec].
    + split_and!; [done|by etrans| |done]. intros id x Hx. simpl. by apply Hst2, Hst1.
    + split_and!; [done|by etrans| |done]. intros id x0 Hx. simpl. by apply Hst2, Hst1.
  - apply String.eqb_neq in Hty.
    destruct (tenantScopedSubject (oe_tenantId e) (oe_eventType e)) as [subject|x] eqn:Hsub.
    2: { split_and!; [by apply ready_S|done| |done]. intros id x0 Hx. simpl. by apply Hst1. }
    rewrite (bind_eq _ _ _ subject w1) by done. unfold mbind at 1, M_bind.
    pose proof (publish_spec env e subject w1) as Hpub.
    destruct (publish env subject (oe_payload e) w1) as [[[]|x] w2]; destruct Hpub as (Hac & Hl2 & Hlog).
    2: { split_and!; [by apply ready_S; eapply same_actions_ready|by etrans| |done].
         intros id x0 Hx. simpl. rewrite (same_actions_stored w1) by done. by apply Hst1. }
    apply mark_last; [by apply ready_S; eapply same_actions_ready|by etrans|done| |].
    + intros id x Hx. rewrite (same_actions_stored w1) by done. by apply Hst1.
    + assert (subject = "t." +:+ oe_tenantId e +:+ "." +:+ oe_eventType e) as ->.
      { revert Hsub. unfold tenantScopedSubject. msimpl. destruct (tenantIdSchema _) eqn:Et; [|done].
        apply tenantIdSchema_same in Et as ->. destruct (_ || _); [done|]. by intros [= <-]. }
      split_and!; [|done|by intros _; apply Hlog].
      apply (recorded_onward _ w1); [apply Hl2|by apply Hrec].
Qed.

(** ** The whole pass *)

Definition event_ids (l : list StoredOutboxEvent) : list string := oe_id <$> l.

Lemma publishEvents_spec envs l acc w : ready (length l) w -> NoDup (event_ids l) ->
  (forall e, e ∈ l -> stored w (oe_id e) = Some e) ->
  let '(r, w') := publishEvents config envs l acc w in
  later w w' /\ forall id x, stored w id = Some x ->
    stored w' id = Some x \/
    exists t, x ∈ l /\ stored w' id = Some (consumed t x) /\ delivered w' x.
Proof.
  revert acc w. induction l as [|e l IH]; intros acc w Hr Hd Hl; simpl; [split; [done|by left]|].
  apply NoDup_cons in Hd as [Hn Hd].
  pose proof (publishEvent_spec (envs (oe_id e)) e (length l) w Hr (Hl e ltac:(by left))) as He.
  unfold mbind, M_bind. destruct (publishEvent _ _ e w) as [[k|x] w1]; destruct He as (Hr1 & Hl1 & Ha & Hdel).
  2: { split; [done|]. intros id y Hy. left. specialize (Ha id y Hy). by simpl in Ha. }
  assert (forall e', e' ∈ l -> stored w1 (oe_id e') = Some e') as Hst.
  { intros e' He'. specialize (Ha _ _ (Hl e' ltac:(by right))).
    rewrite bool_decide_false, andb_false_r in Ha; [done|]. intros Heq. apply Hn.
    rewrite <- Heq. apply list_elem_of_fmap. by exists e'. }
  specialize (IH (acc + k)%nat w1 Hr1 Hd Hst).
  destruct (publishEvents _ envs l (acc + k) w1) as [r w']. destruct IH as [Hl2 IH].
  split; [by etrans|]. intros id x Hx. specialize (Ha id x Hx).
  destruct (acked (Ok k) && bool_decide (id = oe_id e)) eqn:Hb.
  - apply andb_true_iff in Hb as [Hk Hid]. apply bool_decide_eq_true in Hid as ->.
    rewrite (Hl e ltac:(by left)) in Hx. injection Hx as <-. destruct Ha as [t Ht]. right. exists t.
    split; [by left|]. split; [|by eapply delivered_later, Hdel].
    destruct (IH _ _ Ht) as [|(t' & Hin & _)]; [done|]. exfalso. apply Hn. apply list_elem_of_fmap.
    by exists (consumed t e).
  - destruct (IH id x Ha) as [|(t & Hin & Ht & Hdl)]; [by left|]. right. exists t.
    split; [by right|done].
Qed.

(** What a pass takes up. *)
Lemma pending_spec tn limit w : outbox_inv (pw_outbox w) ->
  exists l, on_outbox (InMemoryOutbox.listUnconsumed tn limit) w = (Ok l, w) /\
    (Ok l, pw_outbox w) = InMemoryOutbox.listUnconsumed tn limit (pw_outbox w) /\
    NoDup (event_ids l) /\
    (length l <= length (InMemoryOutbox.eventsById (pw_outbox w)))%nat /\
    forall e, e ∈ l -> stored w (oe_id e) = Some e /\ oe_tenantId e = tn /\ oe_consumedAt e = None.
Proof.
  intros Ho. eexists. split; [by destruct w as [[] ? ? ?]|]. split; [done|].
  set (q := bfilter _ _).
  assert (NoDup (event_ids q)) as Hq.
  { eapply sublist_NoDup; [apply (keyed_nodup oe_id); exact (oi_keyed _ Ho)|].
    apply fmap_sublist. apply sublist_filter. }
  assert (NoDup (event_ids (sort_by InMemoryOutbox.id_le q))) as Hs.
  { unfold event_ids. by rewrite sort_by_perm. }
  destruct (slice0_take limit (sort_by InMemoryOutbox.id_le q)) as [k Hk]. rewrite Hk.
  split_and!.
  - unfold event_ids. rewrite fmap_take. eapply sublist_NoDup; [exact Hs|apply sublist_take].
  - rewrite length_take, sort_by_perm. etrans; [apply Nat.le_min_r|]. unfold q, bfilter.
    etrans; [apply length_filter|]. unfold mapValues. by rewrite length_fmap.
  - intros e He%subseteq_take. apply elem_of_sort_by, elem_of_bfilter in He as [Hu He].
    unfold InMemoryOutbox.is_unconsumed in Hu. b2p. destruct Hu as [Ht Hu]. split_and!; [|done..].
    apply (keyed_values oe_id); [apply Ho|done].
Qed.
End pass.

(** ** Well-formed operational events are always recorded *)

Section recordable.
Context `{Z : Zod} {ZL : ZodLaws Z} `{H : Sha256} {ZF : ZodFormats}.
Context (config : PublisherConfig).
Implicit Types (w : PublisherWorld) (e : StoredOutboxEvent).

Lemma drop_spaces_last p c : is_space c = false -> drop_spaces (p ++ [c]) ≠ [].
Proof.
  intros Hc. induction p as [|d p IH]; simpl; [by rewrite Hc|]. by destruct (is_space d).
Qed.

(** A text that starts with a visible character is not blank. *)
Lemma trim_visible c s : is_space c = false -> trim (String c s) ≠ "".
Proof.
  intros Hc. unfold trim, trim_list. simpl. rewrite Hc. simpl.
  pose proof (drop_spaces_last (rev (String.list_ascii_of_string s)) c Hc) as Hd.
  destruct (drop_spaces _) as [|d l]; [done|]. simpl. intros E.
  apply (f_equal String.list_ascii_of_string) in E.
  rewrite String.list_ascii_of_string_of_list_ascii in E. simpl in E. by destruct (rev l).
Qed.

Lemma drop_spaces_length l : (length (drop_spaces l) <= length l)%nat.
Proof. induction l as [|c l IH]; simpl; [done|]. destruct (is_space c); simpl; lia. Qed.

Definition visible (s : string) : Prop :=
  match s with String c _ => is_space c = false | EmptyString => False end.

Lemma visible_trim s : visible s -> trim s ≠ "".
Proof. destruct s as [|c s]; [done|]. apply trim_visible. Qed.

Lemma trimmed_visible s : trim s ≠ "" -> visible (trim s).
Proof.
  intros Hne. pose proof (trim_idem s) as Hi. revert Hne Hi. generalize (trim s). intros [|c t] Hne Hi; [done|].
  simpl. destruct (is_space c) eqn:Hc; [|done]. exfalso.
  apply (f_equal String.list_ascii_of_string) in Hi. revert Hi. unfold trim, trim_list.
  rewrite String.list_ascii_of_string_of_list_ascii. simpl. rewrite Hc. intros Hi.
  apply (f_equal length) in Hi. rewrite length_rev in Hi. simpl in Hi.
  pose proof (drop_spaces_length (rev (drop_spaces (String.list_ascii_of_string t)))).
  rewrite length_rev in H0. pose proof (drop_spaces_length (String.list_ascii_of_string t)). lia.
Qed.

(** *** Redaction keeps the first character visible *)

Definition visible_list (l : list Ascii.ascii) : Prop :=
  match l with c :: _ => is_space c = false | [] => False end.

(** The groups the redactions keep start with a letter. *)
Definition keeps_visible (m : list Ascii.ascii -> option (list Ascii.ascii * list Ascii.ascii)) : Prop :=
  forall l g r, m l = Some (g, r) -> visible_list g.

Lemma replace_all_visible fuel m suffix l : keeps_visible m -> (0 < fuel)%nat ->
  visible_list l -> visible_list (replace_all fuel m suffix l).
Proof.
  intros Hm Hf Hl. destruct fuel; [lia|]. destruct l as [|c l]; [done|]. simpl.
  destruct (m (c :: l)) as [[g r]|] eqn:E; [|done]. apply Hm in E. by destruct g.
Qed.

Lemma read_word_visible d (w' : string) l g r : (forall c, is_space c = true -> to_lower c ≠ d) ->
  read_word (String d w') l = Some (g, r) -> visible_list g.
Proof.
  intros Hd. destruct l as [|c l]; simpl; [done|]. destruct (Ascii.eqb (to_lower c) d) eqn:E; [|done].
  apply Ascii.eqb_eq in E. destruct (read_word w' l) as [[g' r']|]; simpl; [|done].
  intros [= <- <-]. simpl. destruct (is_space c) eqn:Hc; [|done]. by apply Hd in Hc.
Qed.

Lemma not_space_letter d : forallb (fun n => let c := Ascii.ascii_of_nat n in
    negb (is_space c && Ascii.eqb (to_lower c) d)) (seq 0 256) = true ->
  forall c, is_space c = true -> to_lower c ≠ d.
Proof.
  intros Hall c Hc Hd. rewrite forallb_forall in Hall.
  assert (In (Ascii.nat_of_ascii c) (seq 0 256)) as Hin.
  { apply in_seq. pose proof (Ascii.nat_ascii_bounded c). lia. }
  specialize (Hall _ Hin). cbv zeta in Hall.
  by rewrite Ascii.ascii_nat_embedding, Hc, Hd, Ascii.eqb_refl in Hall.
Qed.

Lemma bearer_visible : keeps_visible match_bearer.
Proof.
  intros l g r. unfold match_bearer. destruct (read_word "bearer" l) as [[word l1]|] eqn:E; simpl; [|done].
  apply read_word_visible in E; [|by apply not_space_letter; vm_compute].
  destruct (span is_space l1) as [[|a sp] l2]; destruct (span value_char l2) as [[|b v] rest]; try done.
  intros [= <- <-]. by destruct word.
Qed.

Lemma secret_visible : keeps_visible match_secret.
Proof.
  intros l g r. unfold match_secret. destruct (read_name l) as [[name l1]|] eqn:E; simpl; [|done].
  assert (visible_list name) as Hn.
  { unfold read_name in E.
    repeat match type of E with context [match ?p with _ => _ end] => destruct p as [q|] eqn:?; [injection E as ->|] end.
    all: match goal with X : read_word (String _ _) _ = Some _ |- _ =>
      apply read_word_visible in X; [done|by apply not_space_letter; vm_compute] end. }
  destruct (match l1 with [] => None | _ => _ end) as [[? l2]|]; [|done].
  destruct (span value_char l2) as [[|b v] rest]; [done|]. by intros [= <- <-].
Qed.

Lemma redact_visible n s : (0 < n)%nat -> visible s -> visible (redact n s).
Proof.
  intros Hn Hs. unfold redact. set (l := String.list_ascii_of_string s).
  assert (visible_list l /\ (0 < length l)%nat) as [Hl Hlen] by (unfold l; destruct s; simpl; [done|split; [done|lia]]).
  set (l1 := replace_all _ match_bearer _ l).
  assert (visible_list l1) as H1 by (apply replace_all_visible; [apply bearer_visible|done|done]).
  assert (visible_list (replace_all (length l1) match_secret (String.list_ascii_of_string "=[redacted]") l1)) as H2.
  { apply replace_all_visible; [apply secret_visible| |done]. destruct l1; simpl; [done|lia]. }
  destruct (replace_all (length l1) _ _ l1) as [|c t]; [done|]. by destruct n; [lia|].
Qed.

(** *** Parameters the repositories accept *)

Lemma nonEmptyText_of s : trim s ≠ "" -> nonEmptyText s = Ok (trim s).
Proof. intros Hs. by apply nonEmptyText_ok. Qed.

Lemma nonEmptyText_trim s : trim s ≠ "" -> nonEmptyText (trim s) = Ok (trim s).
Proof. intros Hs. rewrite nonEmptyText_of; by rewrite trim_idem. Qed.

Lemma uuid_of s : zod_uuid s = true -> uuid s = Ok s.
Proof. intros Hs. by apply uuid_ok. Qed.

Definition incident_params_ok (p : CreateIncidentParams) : Prop :=
  trim (ci_incidentKey p) ≠ "" /\ trim (ci_componentId p) ≠ "" /\ trim (ci_title p) ≠ "" /\
  trim (ci_summary p) ≠ "" /\
  (forall s, ci_rollbackVersionRef p = Some s -> trim s ≠ "").

Lemma create_total env tn p s : zod_uuid tn = true -> zod_uuid (env_uuid env) = true ->
  incident_params_ok p -> exists r, (InMemoryIncidents.create env tn p s).1 = Ok r.
Proof.
  intros Ht Hu (H1 & H2 & H3 & H4 & H5). unfold InMemoryIncidents.create, createIncidentParamsSchema.
  unfold tenantIdSchema. msimpl. rewrite uuid_of, !nonEmptyText_of by done.
  assert (zod_optional nonEmptyText (ci_rollbackVersionRef p) = Ok (trim <$> ci_rollbackVersionRef p)) as ->.
  { destruct (ci_rollbackVersionRef p) as [t|]; [|done]. simpl. by rewrite nonEmptyText_of by (by apply H5). }
  simpl. destruct (indexed _ _ _) as [r|]; [by exists r|]. unfold incidentRecordSchema, tenantIdSchema. msimpl.
  rewrite !uuid_of, !nonEmptyText_trim by done. by eexists.
Qed.

Definition health_params_ok (p : RecordComponentHealthParams) : Prop :=
  trim (hp_componentId p) ≠ "" /\ trim (hp_idempotencyKey p) ≠ "" /\
  unit_number (hp_errorRate p) = Ok (hp_errorRate p) /\ 0 <= hp_consecutiveFailures p /\
  0 <= hp_p95LatencyMs p /\ 0 <= hp_stalenessSeconds p /\ hp_lastKnownGoodVersionRef p = None /\
  0 <= hp_recoveryAttempts p /\ hp_retryAfterSeconds p = None /\
  Forall (fun r => trim r ≠ "") (hp_reasons p).

Lemma nonneg_int_of n : 0 <= n -> nonneg_int n = Ok n.
Proof. intros Hn. apply refine_ok. split; [by apply Z.leb_le|done]. Qed.

Lemma reasons_of l : Forall (fun r => trim r ≠ "") l -> zod_array nonEmptyText l = Ok (trim <$> l).
Proof.
  induction 1 as [|r l Hr _ IH]; [done|]. simpl. unfold mbind, result_bind, mret, result_ret.
  by rewrite nonEmptyText_of, IH.
Qed.

Lemma record_total env tn p s : zod_uuid tn = true -> zod_uuid (env_uuid env) = true ->
  health_params_ok p -> exists r, (InMemoryHealth.record env tn p s).1 = Ok r.
Proof.
  intros Ht Hu (H1 & H2 & H3 & H4 & H5 & H6 & H7 & H8 & H9 & H10).
  unfold InMemoryHealth.record, recordComponentHealthParamsSchema, tenantIdSchema. msimpl.
  rewrite uuid_of, !nonEmptyText_of, H3, !nonneg_int_of, H7, H9, reasons_of by done. simpl.
  destruct (indexed _ _ _) as [r|]; [by eexists|].
  unfold componentHealthRecordSchema, tenantIdSchema. msimpl.
  rewrite !uuid_of, !nonEmptyText_trim, H3, !nonneg_int_of, reasons_of by
    (done || (apply Forall_fmap; eapply Forall_impl; [exact H10|]; intros r; simpl; by rewrite trim_idem)).
  by eexists.
Qed.

(** ** The parameters of operational events are acceptable *)

Lemma text_field_ok hi v s : text_field hi v = Ok s -> visible s /\ trim s = s.
Proof.
  unfold text_field. destruct v as [[| | |t| |]|]; try done. intros [Hl ->]%refine_ok.
  split; [|apply trim_idem]. apply trimmed_visible. intros Ht. by rewrite Ht in Hl.
Qed.

Lemma text_field_trim hi v s : text_field hi v = Ok s -> trim s ≠ "".
Proof. intros [Hv _]%text_field_ok. by apply visible_trim. Qed.

Lemma sanitized_ok hi v s : text_field hi v = Ok s -> trim (sanitizeError s) ≠ "".
Proof. intros [Hv _]%text_field_ok. apply visible_trim, redact_visible; [lia|done]. Qed.

Lemma opened_params_ok j p : incidentOpenedPayloadSchema j = Ok p ->
  incident_params_ok (openedIncident p).
Proof.
  unfold incidentOpenedPayloadSchema. unfold mbind, result_bind, mret, result_ret. intros Hp.
  repeat match type of Hp with
  | context [match ?q with Ok _ => _ | Err _ => _ end] =>
      let E := fresh "E" in destruct q eqn:E; [|discriminate Hp]
  end.
  injection Hp as <-. unfold incident_params_ok. simpl.
  split_and!; try (by eapply text_field_trim).
  intros s ->. unfold optional_field in E5. destruct (mapGet "rollback_version_ref" j) as [v|]; [|done].
  unfold mbind, result_bind in E5. destruct (text_field 500 (Some v)) eqn:Et; [|done]. injection E5 as ->.
  by eapply text_field_trim.
Qed.

Lemma dead_letter_ok j p : workerDeadLetterPayloadSchema j = Ok p ->
  incident_params_ok (deadLetterIncident p) /\ health_params_ok (deadLetterHealth p).
Proof.
  unfold workerDeadLetterPayloadSchema. unfold mbind, result_bind, mret, result_ret. intros Hp.
  repeat match type of Hp with
  | context [match ?q with Ok _ => _ | Err _ => _ end] =>
      let E := fresh "E" in destruct q eqn:E; [|discriminate Hp]
  end.
  injection Hp as <-.
  split; [unfold incident_params_ok|unfold health_params_ok]; simpl.
  - split_and!; [by apply trim_visible|by eapply text_field_trim|by apply trim_visible|
      by apply trim_visible|done].
  - split_and!; try done; [by eapply text_field_trim|by apply trim_visible|lia|].
    repeat constructor; [by apply trim_visible|by eapply sanitized_ok].
Qed.

(** An event whose operational payload, if it has one, is well-formed, in an
    environment that draws valid ids. *)
Definition recordable env e : Prop :=
  zod_uuid (oe_tenantId e) = true /\ zod_uuid (env_uuid (pe_incident env)) = true /\
  zod_uuid (env_uuid (pe_health env)) = true /\
  (oe_eventType e = INCIDENT_OPENED_EVENT_TYPE ->
     exists p, incidentOpenedPayloadSchema (oe_payload e) = Ok p) /\
  (oe_eventType e = WORKER_DEAD_LETTER_EVENT_TYPE ->
     exists p, workerDeadLetterPayloadSchema (oe_payload e) = Ok p).

Lemma on_incidents_total env tn p w : zod_uuid tn = true -> zod_uuid (env_uuid env) = true ->
  incident_params_ok p -> exists r w', on_incidents (InMemoryIncidents.create env tn p) w = (Ok r, w').
Proof.
  intros Ht Hu Hp. destruct (create_total env tn p (pw_incidents w) Ht Hu Hp) as [r Hr].
  unfold on_incidents. destruct (InMemoryIncidents.create _ _ _ _) as [r' s]. simpl in Hr. subst r'. eauto.
Qed.

Lemma on_health_total env tn p w : zod_uuid tn = true -> zod_uuid (env_uuid env) = true ->
  health_params_ok p -> exists r w', on_health (InMemoryHealth.record env tn p) w = (Ok r, w').
Proof.
  intros Ht Hu Hp. destruct (record_total env tn p (pw_health w) Ht Hu Hp) as [r Hr].
  unfold on_health. destruct (InMemoryHealth.record _ _ _ _) as [r' s]. simpl in Hr. subst r'. eauto.
Qed.

Lemma when_total {A} b (m : M PublisherWorld A) w : (exists a w', m w = (Ok a, w')) ->
  exists w', when b m w = (Ok tt, w').
Proof.
  intros (a & w' & Hm). destruct b; simpl; [|by exists w]. exists w'. by rewrite (bind_eq _ _ _ _ _ Hm).
Qed.

Lemma persist_total env e w : recordable env e ->
  exists w', persistOperationalState config env e w = (Ok tt, w').
Proof.
  intros (Ht & Hu1 & Hu2 & Hi & Hd). unfold persistOperationalState.
  destruct (String.eqb_spec (oe_eventType e) INCIDENT_OPENED_EVENT_TYPE) as [He|He].
  - destruct (pc_incidents config); cbv beta iota delta [negb]; [|by exists w].
    destruct (Hi He) as [p Hp]. rewrite Hp, (bind_eq _ _ _ p w) by done.
    destruct (on_incidents_total (pe_incident env) (oe_tenantId e) (openedIncident p) w Ht Hu1
      (opened_params_ok _ _ Hp)) as (r & w' & Hr). exists w'. by rewrite (bind_eq _ _ _ _ _ Hr).
  - destruct (String.eqb_spec (oe_eventType e) WORKER_DEAD_LETTER_EVENT_TYPE) as [Hx|Hx];
      cbv beta iota delta [negb]; [|by exists w].
    destruct (Hd Hx) as [p Hp]. rewrite Hp, (bind_eq _ _ _ p w) by done.
    destruct (dead_letter_ok _ _ Hp) as [Hpi Hph].
    destruct (when_total (pc_incidents config) _ w
      (on_incidents_total (pe_incident env) (oe_tenantId e) (deadLetterIncident p) w Ht Hu1 Hpi)) as [w1 H1].
    rewrite (bind_eq _ _ _ _ _ H1). apply when_total. by apply on_health_total.
Qed.
End recordable.

(** ** A pass that succeeds, one that is stuck, one that is starved *)

Section passes.
Context `{Z : Zod} {ZL : ZodLaws Z} `{H : Sha256} {HL : Sha256Laws H} {Hids : ActionIds Z}.
Context `{ZF : ZodFormats}.
Context (config : PublisherConfig).
Implicit Types (w : PublisherWorld) (e : StoredOutboxEvent).

Definition subject_of e : string := "t." +:+ oe_tenantId e +:+ "." +:+ oe_eventType e.

Lemma subject_total e : event_ok e -> tenantScopedSubject (oe_tenantId e) (oe_eventType e) = Ok (subject_of e).
Proof.
  intros (Ht & Hty & _). destruct (event_type_subject _ Hty) as (Hne & Hs & He).
  unfold tenantScopedSubject, tenantIdSchema. msimpl. rewrite uuid_of by done.
  apply String.eqb_neq in Hne. by rewrite Hne, Hs, He.
Qed.

(** An event the publisher can announce. *)
Definition publishable env e : Prop :=
  recordable env e /\ oe_eventType e ≠ N8N_DISPATCH_EVENT_TYPE /\ pe_publish env = Ok tt.

Lemma publishEvent_total env e n w : ready (S n) w -> stored w (oe_id e) = Some e -> publishable env e ->
  exists w', publishEvent config env e w = (Ok 1%nat, w') /\
    pw_log w' = pw_log w ++ [Published (subject_of e) (oe_payload e)].
Proof.
  intros Hr He (Hrec & Hty & Hpub). unfold publishEvent.
  pose proof (persist_spec config env e w) as Hs.
  destruct (persist_total config env e w Hrec) as [w1 Hp]. rewrite Hp in Hs. destruct Hs as [Hs _].
  rewrite (bind_eq _ _ _ _ _ Hp). apply String.eqb_neq in Hty. rewrite Hty.
  rewrite subject_total by (apply (oi_events _ (proj1 Hr) _ _ He)).
  rewrite (bind_eq _ _ _ (subject_of e) w1) by done. unfold publish. rewrite Hpub.
  set (w2 := mkPublisherWorld (pw_actions w1) (pw_incidents w1) (pw_health w1)
    (pw_log w1 ++ [Published (subject_of e) (oe_payload e)])).
  rewrite (bind_eq _ _ _ tt w2) by done.
  assert (pw_actions w2 = pw_actions w) as Ha by (apply Hs).
  destruct (mark_spec env e w2 (S n)) as (w3 & t & Hm & _); [by eapply same_actions_ready|by rewrite (same_actions_stored w)|].
  rewrite (bind_eq _ _ _ _ _ Hm). exists w3. split; [done|].
  assert (pw_log w3 = pw_log w2) as ->.
  { revert Hm. unfold markEvent, on_outbox, on_actions. unfold mbind, M_bind.
    destruct (InMemoryOutbox.markConsumed _ _ _ _ _) as [[]]; by intros [= <-]. }
  simpl. by rewrite (proj1 (proj2 Hs)).
Qed.

Lemma publishEvents_total envs l acc w : ready (length l) w -> NoDup (event_ids l) ->
  (forall e, e ∈ l -> stored w (oe_id e) = Some e /\ publishable (envs (oe_id e)) e) ->
  exists w', publishEvents config envs l acc w = (Ok (acc + length l)%nat, w') /\
    pw_log w' = pw_log w ++ ((fun e => Published (subject_of e) (oe_payload e)) <$> l) /\
    forall e, e ∈ l -> exists t, stored w' (oe_id e) = Some (consumed t e).
Proof.
  revert acc w. induction l as [|e l IH]; intros acc w Hr Hd Hl; simpl.
  { exists w. split; [by rewrite Nat.add_0_r|]. split; [by rewrite app_nil_r|]. intros e He. by apply not_elem_of_nil in He. }
  apply NoDup_cons in Hd as [Hn Hd]. destruct (Hl e ltac:(by left)) as [He Hp].
  pose proof (publishEvent_spec config (envs (oe_id e)) e (length l) w Hr He) as Hs.
  destruct (publishEvent_total (envs (oe_id e)) e (length l) w Hr He Hp) as (w1 & H1 & Hlog).
  rewrite (bind_eq _ _ _ _ _ H1). rewrite H1 in Hs. destruct Hs as (Hr1 & _ & Ha & _). simpl in Ha.
  assert (forall e', e' ∈ l -> oe_id e' ≠ oe_id e) as Hne.
  { intros e' He' Heq. apply Hn. rewrite <- Heq. apply list_elem_of_fmap. by exists e'. }
  destruct (IH (acc + 1)%nat w1 Hr1 Hd) as (w' & Hw' & Hlog' & Hc).
  { intros e' He'. destruct (Hl e' ltac:(by right)) as [Hst Hp']. split; [|done].
    specialize (Ha _ _ Hst). rewrite bool_decide_false in Ha by (by apply Hne). done. }
  exists w'. split; [rewrite Hw'; do 2 f_equal; lia|]. split.
  { rewrite Hlog', Hlog. by rewrite <- (assoc_L (++)). }
  intros e' [->|He']%elem_of_cons; [|by apply Hc].
  pose proof (Ha _ _ He) as Ht. rewrite bool_decide_true in Ht by done. destruct Ht as [t Ht].
  pose proof (publishEvents_spec config envs l (acc + 1) w1 Hr1 Hd) as Hs.
  rewrite Hw' in Hs. destruct Hs as [_ Hs].
  { intros e' He'. destruct (Hl e' ltac:(by right)) as [Hst _]. specialize (Ha _ _ Hst).
    rewrite bool_decide_false in Ha by (by apply Hne). done. }
  destruct (Hs _ _ Ht) as [Hk|(t' & Hin & _)]; [by exists t|]. exfalso. by apply (Hne _ Hin).
Qed.
End passes.

Section theorems.
Context `{Z : Zod} {ZL : ZodLaws Z} `{H : Sha256} {HL : Sha256Laws H} {Hids : ActionIds Z}.
Context `{ZF : ZodFormats}.
Context (config : PublisherConfig).
Implicit Types (w : PublisherWorld) (e : StoredOutboxEvent).

(** C16. An outbox event is acknowledged only after it was delivered: whatever
    the broker and n8n answer, and whether the pass returns or throws half
    way, every event of the outbox is afterwards either exactly as it was, or
    it was a pending event of this tenant, its incident and health report are
    on record, and it is in the log of the broker under the tenant's subject,
    or, for a dispatch request, the external action it names is settled. *)
Theorem acknowledged_only_when_delivered envs tn limit w :
  outbox_inv (pw_outbox w) -> act_inv (pw_actions w) ->
  fits (length (InMemoryOutbox.eventsById (pw_outbox w))) w ->
  let w' := (publishPendingForTenant config envs tn limit w).2 in
  forall id e, stored w id = Some e ->
    stored w' id = Some e \/
    exists t, stored w' id = Some (consumed t e) /\ oe_tenantId e = tn /\ oe_consumedAt e = None /\
      delivered config w' e.
Proof.
  intros Ho Ha Hf w'. destruct (pending_spec tn limit w Ho) as (l & Hl & _ & Hd & Hlen & Hst).
  pose proof (publishEvents_spec config envs l 0 w) as Hs.
  assert (ready (length l) w) as Hr by (split_and!; [done|done|unfold fits in *; lia]).
  specialize (Hs Hr Hd (fun e He => proj1 (Hst e He))).
  assert (w' = (publishEvents config envs l 0 w).2) as ->
    by (unfold w', publishPendingForTenant; by rewrite (bind_eq _ _ _ _ _ Hl)).
  destruct (publishEvents _ envs l 0 w) as [r w']. destruct Hs as [_ Hs].
  intros id e He. destruct (Hs id e He) as [|(t & Hin & Ht & Hdel)]; [by left|]. right. exists t.
  destruct (Hst e Hin) as (_ & ? & ?). done.
Qed.

(** C17. A pass drains what it takes up: if the pending events are not dispatch
    requests, their operational payloads are well-formed and the broker
    accepts them, the pass returns their number, they reach the broker in the
    order of the outbox and nothing else does, and all of them are
    consumed. *)
Theorem pass_publishes_in_order envs tn limit w l :
  outbox_inv (pw_outbox w) -> act_inv (pw_actions w) ->
  fits (length (InMemoryOutbox.eventsById (pw_outbox w))) w ->
  (InMemoryOutbox.listUnconsumed tn limit (pw_outbox w)).1 = Ok l ->
  (forall e, e ∈ l -> publishable (envs (oe_id e)) e) ->
  exists w', publishPendingForTenant config envs tn limit w = (Ok (length l), w') /\
    pw_log w' = pw_log w ++ ((fun e => Published (subject_of e) (oe_payload e)) <$> l) /\
    forall e, e ∈ l -> exists t, stored w' (oe_id e) = Some (consumed t e).
Proof.
  intros Ho Ha Hf Hlist Hp. destruct (pending_spec tn limit w Ho) as (l' & Hl & Heq & Hd & Hlen & Hst).
  rewrite <- Heq in Hlist. injection Hlist as ->.
  unfold publishPendingForTenant. rewrite (bind_eq _ _ _ _ _ Hl).
  apply (publishEvents_total config envs l 0 w); [|done|].
  - split_and!; [done|done|unfold fits in *; lia].
  - intros e He. split; [by apply Hst|by apply Hp].
Qed.

(** One malformed event stops everything behind it: while the oldest
    pending event of a tenant is an [incident.opened.v1] whose payload does
    not parse, each cycle throws before it publishes anything, for that
    tenant and for every tenant after it in the list. *)
Theorem malformed_incident_blocks_the_cycle envs tn tenants limit w e l x :
  pc_incidents config = true -> outbox_inv (pw_outbox w) ->
  (InMemoryOutbox.listUnconsumed tn limit (pw_outbox w)).1 = Ok (e :: l) ->
  oe_eventType e = INCIDENT_OPENED_EVENT_TYPE -> incidentOpenedPayloadSchema (oe_payload e) = Err x ->
  publishCycle config envs (tn :: tenants) limit w = (Err x, w).
Proof.
  intros Hc Ho Hlist Hty Hx. destruct (pending_spec tn limit w Ho) as (l' & Hl & Heq & _).
  rewrite <- Heq in Hlist. injection Hlist as ->.
  assert (publishPendingForTenant config envs tn limit w = (Err x, w)) as Hp.
  { unfold publishPendingForTenant. rewrite (bind_eq _ _ _ _ _ Hl). simpl. apply bind_err.
    unfold publishEvent. apply bind_err. unfold persistOperationalState.
    rewrite Hty, String.eqb_refl, Hc. simpl. apply bind_err. by rewrite Hx. }
  unfold publishCycle. simpl. by apply bind_err.
Qed.

(** The dispatch client is set up. *)
Definition dispatch_ready : Prop :=
  pc_client config = true /\ pc_actions config = true /\
  pc_requireCallback config && negb (truthy (pc_callbackUrl config)) = false /\ pc_workerId config ≠ "" /\ exists ms, dispatchLeaseMs config = Ok ms /\ 0 < ms.

(** A dispatch event whose action has to wait: for its retry time, or for the
    dispatch in flight. *)
Definition waiting env w e : Prop :=
  oe_eventType e = N8N_DISPATCH_EVENT_TYPE /\
  exists request r, n8nTypedDispatchRequestSchema (oe_payload e) = Ok request /\
    found (pw_actions w) (request_text "tenantId" request) (request_text "actionId" request)
      (request_text "idempotencyKey" request) = Some r /\
    isSettled (ea_state r) = false /\
    (deferred r (env_now (pe_claim env)) = true \/ in_flight r (env_now (pe_claim env)) = true).

Lemma waiting_deferred env w e : dispatch_ready -> waiting env w e ->
  publishEvent config env e w = (Ok 0%nat, w).
Proof.
  intros (H1 & H2 & H3 & Hown & ms & Hms & Hpos) (Hty & request & r & Hq & Hf & Hst & Hwait).
  unfold publishEvent. rewrite (bind_eq _ _ _ tt w).
  2: { unfold persistOperationalState. by rewrite Hty. }
  rewrite Hty, String.eqb_refl. rewrite (bind_eq _ _ _ ans_deferred w); [done|].
  unfold dispatchN8nAction. rewrite H1, H2, H3. cbv iota beta delta [negb].
  rewrite Hq, (bind_eq _ _ _ request w) by done. cbv zeta. rewrite Hms, (bind_eq _ _ _ ms w) by done.
  set (i := mkClaimDispatch _ _ _ _ _ _).
  destruct (claim_waits (pe_claim env) i (pw_actions w) r) as (c & Hc & Hd);
    [by apply (request_identity (oe_payload e))|done..|].
  rewrite (bind_eq _ _ _ c w).
  2: { unfold on_actions. rewrite Hc. by destruct w. }
  by destruct Hd as [-> | ->].
Qed.

Lemma waiting_events envs l acc w : dispatch_ready ->
  (forall e, e ∈ l -> waiting (envs (oe_id e)) w e) ->
  publishEvents config envs l acc w = (Ok acc, w).
Proof.
  intros Hr. revert acc. induction l as [|e l IH]; intros acc Hl; [done|]. simpl.
  rewrite (bind_eq _ _ _ _ _ (waiting_deferred _ _ _ Hr (Hl e ltac:(by left)))), Nat.add_0_r.
  apply IH. intros e' He'. apply Hl. by right.
Qed.

(** Waiting dispatches starve the events behind them: while the oldest
    [limit] pending events of a tenant are dispatch requests whose actions
    have to wait, passes publish nothing and change nothing, so an event that
    is pending behind them stays pending however many passes run. *)
Theorem waiting_dispatches_starve_the_rest tn limit w l later_ passes :
  dispatch_ready -> outbox_inv (pw_outbox w) ->
  (InMemoryOutbox.listUnconsumed tn limit (pw_outbox w)).1 = Ok l ->
  (forall envs e, envs ∈ passes -> e ∈ l -> waiting (envs (oe_id e)) w e) ->
  stored w (oe_id later_) = Some later_ -> oe_consumedAt later_ = None ->
  oe_eventType later_ ≠ N8N_DISPATCH_EVENT_TYPE -> passes ≠ [] ->
  later_ ∉ l /\
  fold_left (fun x envs => (publishPendingForTenant config envs tn limit x).2) passes w = w.
Proof.
  intros Hr Ho Hlist Hw Hst Hc Hty Hne. split.
  { destruct passes as [|envs passes]; [done|]. intros Hin. by destruct (Hw envs _ ltac:(by left) Hin). }
  destruct (pending_spec tn limit w Ho) as (l' & Hl & Heq & _).
  rewrite <- Heq in Hlist. injection Hlist as ->. clear Hne.
  induction passes as [|envs passes IH]; [done|]. simpl.
  assert (publishPendingForTenant config envs tn limit w = (Ok 0%nat, w)) as ->.
  { unfold publishPendingForTenant. rewrite (bind_eq _ _ _ _ _ Hl). apply waiting_events; [done|].
    intros e He. apply Hw; [by left|done]. }
  apply IH. intros envs' e He. apply Hw. by right.
Qed.
End theorems.

(** ** Witnesses *)

Module PublisherExample.
Import ZodExample ShaExample N8nExample.
#[export] Existing Instance ActionExample.example_ids.

Definition mail : ExternalActionRequest :=
  mkRequest tenant "a1" "email.send" "founder" "k1"
    [("channel", JStr "email"); ("to", JArr [JStr "a@b.c"]); ("subject", JStr "hi"); ("text", JStr "hello")].
Definition brief : EnqueueOutboxEvent := mkEnqueue tenant "signal.routed.v1" "signal:1" [("n", jint 1)].
Definition broken : EnqueueOutboxEvent := mkEnqueue tenant "incident.opened.v1" "i1" [("title", JStr "t")].

Definition enqueued (cs : list EnqueueOutboxEvent) : InMemoryOutbox.State :=
  fold_left (fun o c => (InMemoryOutbox.enqueue env1 c o).2) cs InMemoryOutbox.init.
Definition actions : InMemoryActions.State InMemoryOutbox.State :=
  (action_exec (AEnqueue mail) env1 (init InMemoryOutbox.init)).2.
Definition world (a : InMemoryActions.State InMemoryOutbox.State) (cs : list EnqueueOutboxEvent) :
    PublisherWorld :=
  mkPublisherWorld (a <| InMemoryActions.outbox := enqueued cs |>) InMemoryIncidents.init InMemoryHealth.init [].

Definition config : PublisherConfig :=
  mkPublisherConfig true true true true None None "worker-1" (Some "https://cb") true.
Definition env : publish_env :=
  mkPublishEnv env2 env2 env2 env2 env3 (Ok tt) (fun _ => FetchResponse 200 JNull).
Definition envs : string -> publish_env := fun _ => env.

Definition both : PublisherWorld := world actions [dispatchCommand mail; brief].
Definition event (w : PublisherWorld) (id : string) : StoredOutboxEvent :=
  match stored w id with Some e => e | None => mkStored "" "" "" [] "" 0 None end.

Lemma enqueued_inv cs : Forall command_ok cs -> outbox_inv (enqueued cs).
Proof.
  unfold enqueued. assert (outbox_inv InMemoryOutbox.init) as Hi by apply outbox_inv_init.
  revert Hi. generalize InMemoryOutbox.init. intros o Ho Hc. revert o Ho.
  induction Hc as [|c cs Hc _ IH]; simpl; intros o Ho; [done|]. apply IH. by apply enqueue_inv.
Qed.

Lemma actions_inv : act_inv actions.
Proof. apply (exec_step (AEnqueue mail) env1); [apply act_inv_init|done]. Qed.

Lemma pending_world_inv a cs : act_inv a -> act_inv (pw_actions (world a cs)).
Proof. exact (same_actions_inv a _ eq_refl). Qed.

Lemma commands_ok cs : forallb (fun c => bool_decide (zod_uuid (oc_tenantId c) = true) &&
  bool_decide (event_type_ok (oc_eventType c) = true) && negb (String.eqb (oc_idempotencyKey c) "")) cs = true ->
  Forall command_ok cs.
Proof.
  intros Hc. apply Forall_forall. intros c Hin. rewrite forallb_forall in Hc.
  apply list_elem_of_In, Hc in Hin. rewrite !andb_true_iff, !bool_decide_eq_true, negb_true_iff, String.eqb_neq in Hin.
  by destruct Hin as [[? ?] ?].
Qed.

(** The mail action, waiting for a retry. *)
Definition retried : InMemoryActions.State InMemoryOutbox.State :=
  (action_exec (ARetry (mkRetry tenant "a1" "k1" "worker-1" 60000 None "busy" (Some 1500))) env1
    (action_exec (AClaim (mkClaimDispatch tenant "a1" "k1" "worker-1" 500 (Some 1200))) env1 actions).2).2.
Lemma retried_inv : act_inv retried.
Proof.
  apply (exec_step (ARetry _) env1); [|vm_compute; reflexivity].
  apply (exec_step (AClaim _) env1); [apply actions_inv|vm_compute; reflexivity].
Qed.
Definition stuck : PublisherWorld := world retried [dispatchCommand mail; brief].
End PublisherExample.

Section witnesses.
Import ZodExample ShaExample N8nExample PublisherExample.

Lemma acknowledged_only_when_delivered_witness :
  dispatch_settled (publishPendingForTenant config envs tenant 10 both).2 (oe_payload (event both "1")).
Proof.
  destruct (acknowledged_only_when_delivered config envs tenant 10 both) with (id := "1") (e := event both "1")
    as [Hs|(t & _ & _ & _ & (_ & Hd & _))].
  - apply enqueued_inv, commands_ok. vm_compute. reflexivity.
  - apply pending_world_inv, actions_inv.
  - vm_compute. reflexivity.
  - vm_compute. reflexivity.
  - exfalso. set (pending := fun o => match o with Some e => bool_decide (oe_consumedAt e = None) | None => true end).
    assert (pending (stored (publishPendingForTenant config envs tenant 10 both).2 "1") = false) as E1
      by (vm_compute; reflexivity).
    assert (pending (Some (event both "1")) = true) as E2 by (vm_compute; reflexivity).
    rewrite Hs, E2 in E1. discriminate E1.
  - apply Hd. vm_compute. reflexivity.
Defined.

Lemma pass_publishes_in_order_witness :
  exists w', publishPendingForTenant config envs tenant 10 (world actions [brief]) = (Ok 1%nat, w') /\
    pw_log w' = [Published ("t." +:+ tenant +:+ ".signal.routed.v1") [("n", jint 1)]] /\
    forall e, e ∈ [event (world actions [brief]) "1"] -> exists t, stored w' (oe_id e) = Some (consumed t e).
Proof.
  apply (pass_publishes_in_order config envs tenant 10 (world actions [brief]) [event (world actions [brief]) "1"]).
  - apply enqueued_inv, commands_ok. vm_compute. reflexivity.
  - apply pending_world_inv, actions_inv.
  - vm_compute. reflexivity.
  - vm_compute. reflexivity.
  - intros e ->%list_elem_of_singleton. split; [|split; [vm_compute; discriminate|reflexivity]].
    unfold recordable. split_and!; [vm_compute; reflexivity..|intros E|intros E];
      exfalso; revert E; vm_compute; discriminate.
Defined.

Lemma malformed_incident_blocks_the_cycle_witness :
  publishCycle config envs [tenant; other_tenant] 10 (world actions [broken; brief]) =
    (Err ZodError, world actions [broken; brief]).
Proof.
  apply (malformed_incident_blocks_the_cycle config envs tenant [other_tenant] 10 (world actions [broken; brief])
    (event (world actions [broken; brief]) "1") [event (world actions [broken; brief]) "2"] ZodError);
    try (vm_compute; reflexivity).
  apply enqueued_inv, commands_ok. vm_compute. reflexivity.
Defined.

Lemma waiting_dispatches_starve_the_rest_witness :
  event stuck "2" ∉ [event stuck "1"] /\
  fold_left (fun x envs => (publishPendingForTenant config envs tenant 1 x).2) [envs; envs] stuck = stuck.
Proof.
  apply (waiting_dispatches_starve_the_rest config tenant 1 stuck [event stuck "1"] (event stuck "2") [envs; envs]).
  - split_and!; try (vm_compute; reflexivity); [discriminate|]. exists 120000. split; [reflexivity|reflexivity].
  - apply enqueued_inv, commands_ok. vm_compute. reflexivity.
  - vm_compute. reflexivity.
  - intros envs' e Hin ->%list_elem_of_singleton.
    assert (envs' = envs) as -> by (by apply elem_of_cons in Hin as [ -> | ->%list_elem_of_singleton]).
    split; [vm_compute; reflexivity|].
    eexists. eexists. split_and!; [vm_compute; reflexivity..|]. left. vm_compute. reflexivity.
  - vm_compute. reflexivity.
  - vm_compute. reflexivity.
  - vm_compute. discriminate.
  - discriminate.
Defined.
End witnesses.
