(* ===== verification/WorkflowEvents.v ===== *)
(** * The events of the workflows

    [packages/core/src/workflows.ts] and the runtime state of
    [packages/core/src/restate-client.ts]: the inputs of the hello and the
    tenant-provisioning workflow, the outbox commands that request them and
    report their progress, completion and failure. *)

From S2P Require Import Prelude Numbers JsRuntime Json Domain Zod ZodJson Sql Outbox Workflow.

(** ** Inputs *)

Record RestateHelloWorkflowInput := mkHello {
  hi_tenantId : string;
  hi_workflowId : string;
  hi_dedupeKey : string;
  hi_initiatedBy : string;
  hi_message : string;
}.

Record RestateHelloWorkflowResult := mkHelloResult {
  hr_tenantId : string;
  hr_workflowId : string;
  hr_responseMessage : string;
  hr_completedAt : Z;
}.

Record TenantProvisioningWorkflowInput := mkProvisioning {
  wi_tenantId : string;
  wi_workflowId : string;
  wi_dedupeKey : string;
  wi_tenantExternalId : string;
  wi_tenantName : string;
  wi_requestedBy : string;
}.

(** The result has the literal status ["accepted"]. *)
Record TenantProvisioningWorkflowResult := mkAcceptedRun {
  wr_tenantId : string;
  wr_workflowId : string;
  wr_provisioningKey : string;
  wr_acceptedAt : Z;
}.

(** A runtime callback extends the input of its workflow. *)
Record TenantProvisioningRuntimeCallback := mkRuntimeCallback {
  rc_input : TenantProvisioningWorkflowInput;
  rc_callbackId : string;
  rc_callbackType : option CallbackType;
  rc_runtimeRunId : option string;
  rc_progressStep : option string;
  rc_progressMessage : option string;
  rc_progressPercent : option num;
  rc_failureCode : option string;
  rc_failureMessage : option string;
}.

(** [z.number().min(0).max(100)] *)
Definition percent : num -> result num := number_in num_zero (num_of_Z 100).

Record RuntimeHistoryEvent := mkHistoryEvent {
  he_step : string;
  he_message : string;
  he_percent : option num;
  he_occurredAt : string;
}.

Record TenantProvisioningRuntimeState := mkRuntimeState {
  rt_workflowId : string;
  rt_tenantId : string;
  rt_runtimeRunId : option string;
  rt_state : WorkflowRunState;
  rt_history : list RuntimeHistoryEvent;
  rt_failureCode : option string;
  rt_failureMessage : option string;
}.

Section schemas.
Context `{Zod} `{ZodFormats}.

Definition restateHelloWorkflowInputSchema (i : RestateHelloWorkflowInput) :
    result RestateHelloWorkflowInput :=
  tn ← uuid (hi_tenantId i); wf ← min1_text (hi_workflowId i); dk ← min1_text (hi_dedupeKey i);
  by_ ← min1_text (hi_initiatedBy i); msg ← min1_text (hi_message i);
  mret (mkHello tn wf dk by_ msg).

Definition restateHelloWorkflowResultSchema (r : RestateHelloWorkflowResult) :
    result RestateHelloWorkflowResult :=
  tn ← uuid (hr_tenantId r); wf ← min1_text (hr_workflowId r); msg ← min1_text (hr_responseMessage r);
  mret (mkHelloResult tn wf msg (hr_completedAt r)).

Definition tenantProvisioningWorkflowInputSchema (i : TenantProvisioningWorkflowInput) :
    result TenantProvisioningWorkflowInput :=
  tn ← uuid (wi_tenantId i); wf ← min1_text (wi_workflowId i); dk ← min1_text (wi_dedupeKey i);
  ext ← min1_text (wi_tenantExternalId i); name ← min1_text (wi_tenantName i);
  by_ ← min1_text (wi_requestedBy i);
  mret (mkProvisioning tn wf dk ext name by_).

(** The same schema on an untyped object. *)
Definition parseProvisioningInput (p : jobject) : result TenantProvisioningWorkflowInput :=
  tn ← string_field uuid (mapGet "tenantId" p);
  wf ← string_field min1_text (mapGet "workflowId" p);
  dk ← string_field min1_text (mapGet "dedupeKey" p);
  ext ← string_field min1_text (mapGet "tenantExternalId" p);
  name ← string_field min1_text (mapGet "tenantName" p);
  by_ ← string_field min1_text (mapGet "requestedBy" p);
  mret (mkProvisioning tn wf dk ext name by_).

Definition tenantProvisioningWorkflowResultSchema (r : TenantProvisioningWorkflowResult) :
    result TenantProvisioningWorkflowResult :=
  tn ← uuid (wr_tenantId r); wf ← min1_text (wr_workflowId r); key ← min1_text (wr_provisioningKey r);
  mret (mkAcceptedRun tn wf key (wr_acceptedAt r)).

Definition tenantProvisioningRuntimeCallbackSchema (c : TenantProvisioningRuntimeCallback) :
    result TenantProvisioningRuntimeCallback :=
  input ← tenantProvisioningWorkflowInputSchema (rc_input c);
  cid ← min1_text (rc_callbackId c);
  rid ← zod_optional min1_text (rc_runtimeRunId c);
  step ← zod_optional min1_text (rc_progressStep c);
  msg ← zod_optional min1_text (rc_progressMessage c);
  pct ← zod_optional percent (rc_progressPercent c);
  code ← zod_optional min1_text (rc_failureCode c);
  fmsg ← zod_optional min1_text (rc_failureMessage c);
  mret (mkRuntimeCallback input cid (Some (rc_callbackType c ?: cb_completed)) rid step msg pct code fmsg).

Definition tenantProvisioningRuntimeHistoryEventSchema (e : RuntimeHistoryEvent) :
    result RuntimeHistoryEvent :=
  step ← min1_text (he_step e); msg ← min1_text (he_message e);
  pct ← zod_optional percent (he_percent e); at_ ← refine zod_datetime (he_occurredAt e);
  mret (mkHistoryEvent step msg pct at_).

Definition tenantProvisioningRuntimeStateSchema (s : TenantProvisioningRuntimeState) :
    result TenantProvisioningRuntimeState :=
  wf ← min1_text (rt_workflowId s); tn ← uuid (rt_tenantId s);
  rid ← zod_optional min1_text (rt_runtimeRunId s);
  history ← zod_array tenantProvisioningRuntimeHistoryEventSchema (rt_history s);
  code ← zod_optional min1_text (rt_failureCode s); msg ← zod_optional min1_text (rt_failureMessage s);
  mret (mkRuntimeState wf tn rid (rt_state s) history code msg).
End schemas.

(** ** Commands *)

Definition HELLO_REQUESTED : string := "workflow.hello.requested.v1".
Definition PROVISIONING_REQUESTED : string := "workflow.tenant_provisioning.requested.v1".
Definition PROVISIONING_PROGRESS : string := "workflow.tenant_provisioning.progress.v1".
Definition PROVISIONING_COMPLETED : string := "workflow.tenant_provisioning.completed.v1".
Definition PROVISIONING_FAILED : string := "workflow.tenant_provisioning.failed.v1".

Definition jnum_or_null (n : option num) : json := match n with Some n => JNum n | None => JNull end.

Section commands.
Context `{Zod}.

Definition createRestateHelloWorkflowOutboxCommand (now : Z) (input : RestateHelloWorkflowInput) :
    result EnqueueOutboxEvent :=
  parsed ← restateHelloWorkflowInputSchema input;
  mret (mkEnqueue (hi_tenantId parsed) HELLO_REQUESTED (hi_dedupeKey parsed)
    [("workflow_id", JStr (hi_workflowId parsed)); ("initiated_by", JStr (hi_initiatedBy parsed));
     ("message", JStr (hi_message parsed)); ("requested_at", JStr (toISOString now))]).

Definition runHelloWorkflowDeterministic (now : Z) (input : RestateHelloWorkflowInput) :
    result RestateHelloWorkflowResult :=
  parsed ← restateHelloWorkflowInputSchema input;
  restateHelloWorkflowResultSchema (mkHelloResult (hi_tenantId parsed) (hi_workflowId parsed)
    ("Hello " +:+ hi_initiatedBy parsed +:+ ", workflow accepted: " +:+ hi_message parsed) now).

Definition createTenantProvisioningWorkflowOutboxCommand (now : Z)
    (input : TenantProvisioningWorkflowInput) : result EnqueueOutboxEvent :=
  parsed ← tenantProvisioningWorkflowInputSchema input;
  mret (mkEnqueue (wi_tenantId parsed) PROVISIONING_REQUESTED (wi_dedupeKey parsed)
    [("workflow_id", JStr (wi_workflowId parsed));
     ("tenant_external_id", JStr (wi_tenantExternalId parsed));
     ("tenant_name", JStr (wi_tenantName parsed)); ("requested_by", JStr (wi_requestedBy parsed));
     ("requested_at", JStr (toISOString now))]).

Definition acceptTenantProvisioningWorkflowDeterministic (now : Z)
    (input : TenantProvisioningWorkflowInput) : result TenantProvisioningWorkflowResult :=
  parsed ← tenantProvisioningWorkflowInputSchema input;
  tenantProvisioningWorkflowResultSchema (mkAcceptedRun (wi_tenantId parsed) (wi_workflowId parsed)
    (wi_tenantExternalId parsed +:+ ":" +:+ wi_dedupeKey parsed) now).

Definition createTenantProvisioningCompletedOutboxCommand (now : Z)
    (input : TenantProvisioningRuntimeCallback) : result EnqueueOutboxEvent :=
  parsed ← tenantProvisioningRuntimeCallbackSchema input;
  accepted ← acceptTenantProvisioningWorkflowDeterministic now (rc_input parsed);
  mret (mkEnqueue (wi_tenantId (rc_input parsed)) PROVISIONING_COMPLETED
    (wi_dedupeKey (rc_input parsed) +:+ ":completed:" +:+ rc_callbackId parsed)
    [("workflow_id", JStr (wr_workflowId accepted)); ("tenant_id", JStr (wr_tenantId accepted));
     ("tenant_external_id", JStr (wi_tenantExternalId (rc_input parsed)));
     ("tenant_name", JStr (wi_tenantName (rc_input parsed)));
     ("provisioning_key", JStr (wr_provisioningKey accepted)); ("status", JStr "accepted");
     ("callback_id", JStr (rc_callbackId parsed));
     ("runtime_run_id", jstr_or_null (rc_runtimeRunId parsed));
     ("accepted_at", JStr (toISOString (wr_acceptedAt accepted)));
     ("completed_at", JStr (toISOString now))]).

Definition createTenantProvisioningProgressOutboxCommand (now : Z)
    (input : TenantProvisioningRuntimeCallback) : result EnqueueOutboxEvent :=
  parsed ← tenantProvisioningRuntimeCallbackSchema input;
  mret (mkEnqueue (wi_tenantId (rc_input parsed)) PROVISIONING_PROGRESS
    (wi_dedupeKey (rc_input parsed) +:+ ":progress:" +:+ rc_callbackId parsed +:+ ":" +:+
       (rc_progressStep parsed ?: "callback_received"))
    [("workflow_id", JStr (wi_workflowId (rc_input parsed)));
     ("tenant_id", JStr (wi_tenantId (rc_input parsed)));
     ("tenant_external_id", JStr (wi_tenantExternalId (rc_input parsed)));
     ("tenant_name", JStr (wi_tenantName (rc_input parsed)));
     ("callback_id", JStr (rc_callbackId parsed));
     ("callback_type", JStr (CallbackType_str (rc_callbackType parsed ?: cb_completed)));
     ("runtime_run_id", jstr_or_null (rc_runtimeRunId parsed));
     ("progress_step", JStr (rc_progressStep parsed ?: "callback_received"));
     ("progress_message", JStr (rc_progressMessage parsed ?: "Runtime callback received"));
     ("progress_percent", jnum_or_null (rc_progressPercent parsed));
     ("occurred_at", JStr (toISOString now))]).

Definition createTenantProvisioningFailedOutboxCommand (now : Z)
    (input : TenantProvisioningRuntimeCallback) : result EnqueueOutboxEvent :=
  parsed ← tenantProvisioningRuntimeCallbackSchema input;
  mret (mkEnqueue (wi_tenantId (rc_input parsed)) PROVISIONING_FAILED
    (wi_dedupeKey (rc_input parsed) +:+ ":failed:" +:+ rc_callbackId parsed)
    [("workflow_id", JStr (wi_workflowId (rc_input parsed)));
     ("tenant_id", JStr (wi_tenantId (rc_input parsed)));
     ("tenant_external_id", JStr (wi_tenantExternalId (rc_input parsed)));
     ("tenant_name", JStr (wi_tenantName (rc_input parsed)));
     ("callback_id", JStr (rc_callbackId parsed));
     ("runtime_run_id", jstr_or_null (rc_runtimeRunId parsed));
     ("failure_code", JStr (rc_failureCode parsed ?: "UNKNOWN"));
     ("failure_message", JStr (rc_failureMessage parsed ?: "Workflow failed without details"));
     ("failed_at", JStr (toISOString now))]).
End commands.

(** ** What the builders make *)

Definition completed_key_of (i : TenantProvisioningWorkflowInput) (callbackId : string) : outbox_key :=
  (wi_tenantId i, PROVISIONING_COMPLETED, wi_dedupeKey i +:+ ":completed:" +:+ callbackId).
Definition failed_key_of (i : TenantProvisioningWorkflowInput) (callbackId : string) : outbox_key :=
  (wi_tenantId i, PROVISIONING_FAILED, wi_dedupeKey i +:+ ":failed:" +:+ callbackId).
Definition progress_key_of (i : TenantProvisioningWorkflowInput) (callbackId step : string) : outbox_key :=
  (wi_tenantId i, PROVISIONING_PROGRESS,
   wi_dedupeKey i +:+ ":progress:" +:+ callbackId +:+ ":" +:+ step).

Section lemmas.
Context `{Z : Zod} {ZL : ZodLaws Z}.
Implicit Types (i : TenantProvisioningWorkflowInput) (c : TenantProvisioningRuntimeCallback).

#[export] Instance percent_same : SameParse percent := refine_same _.

Lemma provisioning_input_same i i' : tenantProvisioningWorkflowInputSchema i = Ok i' ->
  i' = i /\ zod_uuid (wi_tenantId i) = true /\ wi_workflowId i ≠ "" /\ wi_dedupeKey i ≠ "".
Proof.
  unfold tenantProvisioningWorkflowInputSchema. intros H. schema_fields H.
  apply uuid_ok in E as [? _]. apply min1_text_ok in E0 as [? _], E1 as [? _].
  split_and!; [by destruct i|done..].
Qed.

Lemma parse_input_ok p i : parseProvisioningInput p = Ok i ->
  tenantProvisioningWorkflowInputSchema i = Ok i.
Proof.
  unfold parseProvisioningInput, tenantProvisioningWorkflowInputSchema.
  unfold mbind, result_bind, mret, result_ret. intros H.
  repeat (case_match; [|discriminate H]). injection H as <-. simpl.
  repeat match goal with E : string_field _ _ = Ok _ |- _ =>
    apply string_field_ok in E as [_ ->]; [|apply _] end. done.
Qed.

(** A callback's schema gives the callback back, with its type filled in. *)
Lemma callback_schema_same c c' : tenantProvisioningRuntimeCallbackSchema c = Ok c' ->
  tenantProvisioningWorkflowInputSchema (rc_input c) = Ok (rc_input c) /\
  c' = mkRuntimeCallback (rc_input c) (rc_callbackId c) (Some (rc_callbackType c ?: cb_completed))
    (rc_runtimeRunId c) (rc_progressStep c) (rc_progressMessage c) (rc_progressPercent c)
    (rc_failureCode c) (rc_failureMessage c).
Proof.
  unfold tenantProvisioningRuntimeCallbackSchema. unfold mbind at 1, result_bind at 1. intros H.
  destruct (tenantProvisioningWorkflowInputSchema (rc_input c)) as [i|] eqn:Ei; [|done].
  destruct (provisioning_input_same _ _ Ei) as [-> _]. schema_fields H. by subst.
Qed.

Lemma accept_ok now i : tenantProvisioningWorkflowInputSchema i = Ok i ->
  acceptTenantProvisioningWorkflowDeterministic now i =
    Ok (mkAcceptedRun (wi_tenantId i) (wi_workflowId i)
          (wi_tenantExternalId i +:+ ":" +:+ wi_dedupeKey i) now).
Proof.
  intros Hi. unfold acceptTenantProvisioningWorkflowDeterministic. rewrite Hi.
  destruct (provisioning_input_same _ _ Hi) as (_ & Ht & Hw & _).
  unfold mbind, result_bind, tenantProvisioningWorkflowResultSchema. simpl.
  rewrite (proj2 (uuid_ok _ _)) by done. unfold mbind, result_bind.
  rewrite (proj2 (min1_text_ok _ _)) by done. unfold min1_text, refine.
  destruct (_ <=? _)%nat eqn:El; [done|]. apply Nat.leb_gt in El.
  exfalso. revert El. induction (wi_tenantExternalId i); simpl; lia.
Qed.

(** A builder rejects what its schema rejects; what it makes is a well-formed
    command under the key of the callback. *)
Definition builds (r : result EnqueueOutboxEvent) (c : TenantProvisioningRuntimeCallback)
    (key : outbox_key) : Prop :=
  match tenantProvisioningRuntimeCallbackSchema c with
  | Ok _ => exists cmd, r = Ok cmd /\ command_ok cmd /\ command_key cmd = key
  | Err e => r = Err e
  end.

Lemma key_nonempty (a b : string) (ch : Ascii.ascii) : a +:+ String ch b ≠ "".
Proof. by destruct a. Qed.

Lemma completed_builds now c :
  builds (createTenantProvisioningCompletedOutboxCommand now c) c
    (completed_key_of (rc_input c) (rc_callbackId c)).
Proof.
  unfold builds, createTenantProvisioningCompletedOutboxCommand, mbind, result_bind.
  destruct (tenantProvisioningRuntimeCallbackSchema c) as [c'|e] eqn:Hc; [|done].
  apply callback_schema_same in Hc as [Hi ->]. simpl rc_input. rewrite (accept_ok now _ Hi).
  destruct (provisioning_input_same _ _ Hi) as (_ & Ht & _).
  eexists. split_and!; [done|split_and!; [done|done|apply key_nonempty]|done].
Qed.

Lemma failed_builds now c :
  builds (createTenantProvisioningFailedOutboxCommand now c) c
    (failed_key_of (rc_input c) (rc_callbackId c)).
Proof.
  unfold builds, createTenantProvisioningFailedOutboxCommand, mbind, result_bind.
  destruct (tenantProvisioningRuntimeCallbackSchema c) as [c'|e] eqn:Hc; [|done].
  apply callback_schema_same in Hc as [Hi ->]. destruct (provisioning_input_same _ _ Hi) as (_ & Ht & _).
  eexists. split_and!; [done|split_and!; [done|done|apply key_nonempty]|done].
Qed.

Lemma progress_builds now c :
  builds (createTenantProvisioningProgressOutboxCommand now c) c
    (progress_key_of (rc_input c) (rc_callbackId c) (rc_progressStep c ?: "callback_received")).
Proof.
  unfold builds, createTenantProvisioningProgressOutboxCommand, mbind, result_bind.
  destruct (tenantProvisioningRuntimeCallbackSchema c) as [c'|e] eqn:Hc; [|done].
  apply callback_schema_same in Hc as [Hi ->]. destruct (provisioning_input_same _ _ Hi) as (_ & Ht & _).
  eexists. split_and!; [done|split_and!; [done|done|apply key_nonempty]|done].
Qed.

Lemma built_command r c key cmd : builds r c key -> r = Ok cmd ->
  command_ok cmd /\ command_key cmd = key /\
  tenantProvisioningWorkflowInputSchema (rc_input c) = Ok (rc_input c).
Proof.
  unfold builds. destruct (tenantProvisioningRuntimeCallbackSchema c) eqn:Hc; [|by intros ->].
  apply callback_schema_same in Hc as [Hi _]. intros (cmd' & -> & ? & ?) [= ->]. done.
Qed.

(** A callback that only carries its identity is valid. *)
Lemma plain_callback_ok i cid ty rid code msg : tenantProvisioningWorkflowInputSchema i = Ok i -> cid ≠ "" ->
  rid ≠ Some "" -> code ≠ Some "" -> msg ≠ Some "" ->
  is_Ok (tenantProvisioningRuntimeCallbackSchema
    (mkRuntimeCallback i cid ty rid None None None code msg)).
Proof.
  intros Hi Hc Hr Hcode Hm. unfold tenantProvisioningRuntimeCallbackSchema. simpl. rewrite Hi.
  unfold mbind, result_bind. rewrite (proj2 (min1_text_ok _ _)) by done.
  rewrite !optional_min1 by done. simpl. by eexists.
Qed.
End lemmas.
