(* ===== verification/WorkflowRoutes.v ===== *)
(** * The workflow routes of the API

    [apps/api/src/routes/workflows.ts]: the requests that start a workflow
    and the signed callbacks of the workflow runtime.  A call to a repository
    may fail (type [db_call]); the body of a request arrives parsed or as the
    error its parser throws; a signed body is parsed by [parse_json].  The
    routes keep their runs in the in-memory repository and their events in
    any outbox. *)

From S2P Require Import Prelude Numbers JsRuntime Json Domain Zod ZodJson N8n Sql Outbox Http Workflow WorkflowEvents.
Import WorkflowState.

(** What the routes write to; [rw_started] are the workflows handed to the
    runtime, whose own failure is only logged. *)
Inductive RuntimeStart :=
  | StartHello (input : RestateHelloWorkflowInput)
  | StartProvisioning (input : TenantProvisioningWorkflowInput).

Record RoutesWorld (O : Type) := mkRoutesWorld {
  rw_runs : jsmap WorkflowRun;
  rw_outbox : O;
  rw_started : list RuntimeStart;
}.
Arguments mkRoutesWorld {O} rw_runs rw_outbox rw_started.
Arguments rw_runs {O} r.
Arguments rw_outbox {O} r.
Arguments rw_started {O} r.

(** [WorkflowRouteDependencies]: what may be [null] is a boolean. *)
Record WorkflowRouteDependencies := mkRouteDeps {
  rd_outbox : bool;
  rd_runs : bool;
  rd_client : bool;
  rd_callbackSecret : option string;
}.

(** The calls of one request. *)
Record request_env := mkRequestEnv {
  re_now : Z;
  re_upsert : db_call;
  re_get : db_call;
  re_transition : db_call;
  re_progress : db_call;
  re_event : db_call;
}.

(** ** Reading the requests *)

Definition is_ascii (s : string) : bool :=
  forallb (fun c => (Ascii.nat_of_ascii c <? 128)%nat) (String.list_ascii_of_string s).

Section reading.
Context `{Zod} `{Hmac}.

(** [timingSafeEqual] throws when the buffers differ in length, and a
    character outside ASCII takes more than one byte. *)
Definition isRuntimeCallbackSignatureValid (secret payload : string)
    (providedSignature : option string) : result bool :=
  if negb (truthy providedSignature) then mret false
  else
    let expected := hmac_hex secret payload in
    let provided := trim (providedSignature ?: "") in
    if negb (String.length provided =? String.length expected)%nat then mret false
    else if negb (is_ascii provided) then
      Err (JsError "Input buffers must have the same byte length")
    else mret (String.eqb expected provided).

Definition parseHelloInput (p : jobject) : result RestateHelloWorkflowInput :=
  tn ← string_field uuid (mapGet "tenantId" p);
  wf ← string_field min1_text (mapGet "workflowId" p);
  dk ← string_field min1_text (mapGet "dedupeKey" p);
  by_ ← string_field min1_text (mapGet "initiatedBy" p);
  msg ← string_field min1_text (mapGet "message" p);
  mret (mkHello tn wf dk by_ msg).

Definition callback_type_field : option json -> result CallbackType :=
  enum_field [cb_progress; cb_completed; cb_failed] CallbackType_str.

(** [tenantProvisioningRuntimeCallbackSchema.parse] of an untyped object *)
Definition parseRuntimeCallback (p : jobject) : result TenantProvisioningRuntimeCallback :=
  input ← parseProvisioningInput p;
  cid ← string_field min1_text (mapGet "callbackId" p);
  ty ← optional_field callback_type_field (mapGet "callbackType" p);
  rid ← optional_field (string_field min1_text) (mapGet "runtimeRunId" p);
  step ← optional_field (string_field min1_text) (mapGet "progressStep" p);
  msg ← optional_field (string_field min1_text) (mapGet "progressMessage" p);
  pct ← optional_field (number_field percent) (mapGet "progressPercent" p);
  code ← optional_field (string_field min1_text) (mapGet "failureCode" p);
  fmsg ← optional_field (string_field min1_text) (mapGet "failureMessage" p);
  mret (mkRuntimeCallback input cid (Some (ty ?: cb_completed)) rid step msg pct code fmsg).

Definition object_of (v : json) : result jobject :=
  match v with JObj fs => Ok fs | _ => Err ZodError end.
(** [...value]: what is not an object has no properties to copy. *)
Definition spread (v : json) : jobject := match v with JObj fs => fs | _ => [] end.
End reading.

(** ** The handlers *)

Section routes.
Context `{Zod} `{Hmac} {O : Type} `{!OutboxPort O}.
Context (parse_json : string -> result json) (deps : WorkflowRouteDependencies).

Definition on_runs {A} (c : db_call) (m : call_env -> M (jsmap WorkflowRun) A) : M (RoutesWorld O) A :=
  faulty c.2 (fun w => let '(r, s) := m c.1 (rw_runs w) in
    (r, mkRoutesWorld s (rw_outbox w) (rw_started w))).
Definition enqueue_event (c : db_call) (command : EnqueueOutboxEvent) :
    M (RoutesWorld O) StoredOutboxEvent :=
  faulty c.2 (fun w => let '(r, o) := outbox_enqueue c.1 command (rw_outbox w) in
    (r, mkRoutesWorld (rw_runs w) o (rw_started w))).

(** [void deps.restateWorkflowClient?.start...] *)
Definition start (s : RuntimeStart) : M (RoutesWorld O) unit :=
  if rd_client deps
  then modify (fun w => mkRoutesWorld (rw_runs w) (rw_outbox w) (rw_started w ++ [s]))
  else mret tt.

Definition require_outbox : M (RoutesWorld O) unit :=
  if rd_outbox deps then mret tt
  else throw (ServiceUnavailableError "Outbox repository is not configured. Set DATABASE_URL.").

Definition event_fields (event : StoredOutboxEvent) : jobject :=
  [("trackingId", JStr (oe_tenantId event +:+ ":" +:+ oe_idempotencyKey event));
   ("eventId", JStr (oe_id event)); ("eventType", JStr (oe_eventType event));
   ("enqueuedAt", JStr (toISOString (oe_createdAt event)))].

Definition accepted (workflowId : string) (event : StoredOutboxEvent) : Response :=
  mkResponse 202 ([("accepted", JBool true); ("workflowId", JStr workflowId)] ++ event_fields event).

Definition callbackAccepted (c : TenantProvisioningRuntimeCallback) (target : WorkflowRunState)
    (event : StoredOutboxEvent) : Response :=
  mkResponse 202 ([("accepted", JBool true); ("workflowId", JStr (wi_workflowId (rc_input c)));
    ("callbackId", JStr (rc_callbackId c));
    ("callbackType", JStr (CallbackType_str (rc_callbackType c ?: cb_completed)));
    ("targetState", JStr (WorkflowRunState_str target))] ++ event_fields event).

(** [POST /hello] *)
Definition postHello (env : request_env) (body : result json) : M (RoutesWorld O) Response :=
  require_outbox;;
  raw ← lift body; object ← lift (object_of raw);
  payload ← lift (parseHelloInput object);
  command ← lift (createRestateHelloWorkflowOutboxCommand (re_now env) payload);
  event ← enqueue_event (re_event env) command;
  start (StartHello payload);;
  mret (accepted (hi_workflowId payload) event).

(** [POST /tenant-provisioning] *)
Definition postTenantProvisioning (env : request_env) (body : result json) :
    M (RoutesWorld O) Response :=
  require_outbox;;
  raw ← lift body; object ← lift (object_of raw);
  payload ← lift (parseProvisioningInput object);
  (if rd_runs deps then
     on_runs (re_upsert env) (fun e => InMemoryRuns.upsertRequested e (wi_tenantId payload)
       (wi_workflowId payload) (wi_dedupeKey payload));; mret tt
   else mret tt);;
  command ← lift (createTenantProvisioningWorkflowOutboxCommand (re_now env) payload);
  event ← enqueue_event (re_event env) command;
  start (StartProvisioning payload);;
  mret (accepted (wi_workflowId payload) event).

Definition check_signature (rawPayload : string) (signature : option string) : M (RoutesWorld O) unit :=
  match rd_callbackSecret deps with
  | Some (String _ _ as secret) =>
      valid ← lift (isRuntimeCallbackSignatureValid secret rawPayload signature);
      if (valid : bool) then mret tt else throw (UnauthorizedError "Invalid runtime callback signature")
  | _ => mret tt
  end.

Definition concurrentConflict (workflowId : string) : js_error :=
  ConflictError ("Concurrent state transition detected for workflow '" +:+ workflowId +:+
    "'. Retry with latest state.").

(** The move of the run a callback asks for. *)
Definition applyTransition (env : request_env) (payload : TenantProvisioningRuntimeCallback)
    (targetState : WorkflowRunState) : M (RoutesWorld O) unit :=
  let tn := wi_tenantId (rc_input payload) in
  let wf := wi_workflowId (rc_input payload) in
  if rd_runs deps then
    run ← on_runs (re_get env) (fun _ => InMemoryRuns.getByWorkflowId tn wf);
    let priorState := (run_state <$> run) ?: run_requested in
    match validateWorkflowTransition priorState targetState with
    | TransitionError reason _ _ => throw (ConflictError reason)
    | TransitionOk _ =>
        updated ← on_runs (re_transition env) (fun e =>
          InMemoryRuns.transitionState e tn wf priorState targetState (rc_failureCode payload));
        if bool_decide (updated = None) && negb (bool_decide (priorState = targetState))
        then throw (concurrentConflict wf) else mret tt
    end
  else
    match validateWorkflowTransition run_in_progress targetState with
    | TransitionError reason _ _ => throw (ConflictError reason)
    | TransitionOk _ => mret tt
    end.

Definition terminalCommand (now : Z) (payload : TenantProvisioningRuntimeCallback) :
    result EnqueueOutboxEvent :=
  match rc_callbackType payload ?: cb_completed with
  | cb_failed => createTenantProvisioningFailedOutboxCommand now payload
  | _ => createTenantProvisioningCompletedOutboxCommand now payload
  end.

(** [POST /runtime-callbacks/tenant-provisioning], once the callback is read *)
Definition acceptCallback (env : request_env) (payload : TenantProvisioningRuntimeCallback) :
    M (RoutesWorld O) Response :=
  let targetState := callbackTypeToState (rc_callbackType payload ?: cb_completed) in
  applyTransition env payload targetState;;
  progressCommand ← lift (createTenantProvisioningProgressOutboxCommand (re_now env) payload);
  enqueue_event (re_progress env) progressCommand;;
  terminal ← lift (terminalCommand (re_now env) payload);
  event ← enqueue_event (re_event env) terminal;
  mret (callbackAccepted payload targetState event).

Definition postRuntimeCallback (env : request_env) (rawPayload : string) (signature : option string) :
    M (RoutesWorld O) Response :=
  require_outbox;;
  check_signature rawPayload signature;;
  raw ← lift (parse_json rawPayload); object ← lift (object_of raw);
  payload ← lift (parseRuntimeCallback object);
  acceptCallback env payload.

(** [POST /runtime-callbacks/tenant-provisioning/progress] *)
Definition postRuntimeProgress (env : request_env) (rawPayload : string) (signature : option string) :
    M (RoutesWorld O) Response :=
  require_outbox;;
  check_signature rawPayload signature;;
  raw ← lift (parse_json rawPayload);
  payload ← lift (parseRuntimeCallback (mapSet "callbackType" (JStr "progress") (spread raw)));
  command ← lift (createTenantProvisioningProgressOutboxCommand (re_now env) payload);
  event ← enqueue_event (re_event env) command;
  mret (callbackAccepted payload run_in_progress event).
End routes.

(** ** Lemmas *)

Section lemmas.
Context `{Z : Zod} {ZL : ZodLaws Z} `{Hmac} {O : Type} {P : OutboxPort O} {OS : OutboxStore O P}.
Context (parse_json : string -> result json) (deps : WorkflowRouteDependencies).
Implicit Types (w : RoutesWorld O) (env : request_env) (c : TenantProvisioningRuntimeCallback).

Definition callback_run w c : option WorkflowRun :=
  mapGet (run_key (wi_tenantId (rc_input c)) (wi_workflowId (rc_input c))) (rw_runs w).
Definition callback_target c : WorkflowRunState := callbackTypeToState (rc_callbackType c ?: cb_completed).
(** The keys of the two events an accepted callback leads to. *)
Definition callback_progress_key c : outbox_key :=
  progress_key_of (rc_input c) (rc_callbackId c) (rc_progressStep c ?: "callback_received").
Definition callback_terminal_key c : outbox_key :=
  match rc_callbackType c ?: cb_completed with
  | cb_failed => failed_key_of (rc_input c) (rc_callbackId c)
  | _ => completed_key_of (rc_input c) (rc_callbackId c)
  end.

Lemma terminal_builds now c : builds (terminalCommand now c) c (callback_terminal_key c).
Proof.
  unfold terminalCommand, callback_terminal_key.
  destruct (rc_callbackType c ?: cb_completed); [apply completed_builds..|apply failed_builds].
Qed.

Lemma valid_builds r c key : tenantProvisioningRuntimeCallbackSchema c = Ok c -> builds r c key ->
  exists cmd, r = Ok cmd /\ command_ok cmd /\ command_key cmd = key.
Proof. unfold builds. by intros ->. Qed.

Lemma enqueue_event_ok (env : db_call) cmd w e w' : store_wf (rw_outbox w) -> command_ok cmd ->
  enqueue_event env cmd w = (Ok e, w') ->
  env.2 = NoFault /\ w' = mkRoutesWorld (rw_runs w) (rw_outbox w') (rw_started w) /\
  store_wf (rw_outbox w') /\ outbox_grows (rw_outbox w) (rw_outbox w') /\
  stored_event (rw_outbox w') (command_key cmd) = Some e /\
  (forall k, is_Some (stored_event (rw_outbox w') k) ->
     is_Some (stored_event (rw_outbox w) k) \/ k = command_key cmd).
Proof.
  intros Hw Hc [Hf He]%faulty_ok. destruct (enqueue_stored env.1 cmd (rw_outbox w) Hw Hc)
    as (e' & o' & Ho & Hw' & Hg & Hs & Hn). rewrite Ho in He. injection He as <- <-. done.
Qed.

Lemma enqueue_event_nofault (env : db_call) cmd w : env.2 = NoFault -> store_wf (rw_outbox w) -> command_ok cmd ->
  exists e w', enqueue_event env cmd w = (Ok e, w').
Proof.
  intros Hf Hw Hc. destruct (enqueue_stored env.1 cmd (rw_outbox w) Hw Hc) as (e & o' & Ho & _).
  unfold enqueue_event. rewrite Hf. simpl. rewrite Ho. eauto.
Qed.

(** Reading the run. *)
Lemma get_run (env : db_call) w tn wf :
  on_runs (O := O) env (fun _ => InMemoryRuns.getByWorkflowId tn wf) w =
    (match env.2 with NoFault => Ok (mapGet (run_key tn wf) (rw_runs w)) | FailBefore e | FailAfter e => Err e end, w).
Proof. unfold on_runs, InMemoryRuns.getByWorkflowId, gets. by destruct env as [? []], w. Qed.

(** A terminal run admits no transition. *)
Lemma terminal_refused env w c r : rd_runs deps = true -> callback_run w c = Some r ->
  isTerminalState (run_state r) = true ->
  exists e, applyTransition deps env c (callback_target c) w = (Err e, w).
Proof.
  intros Hd Hr Ht. unfold applyTransition. rewrite Hd. unfold mbind, M_bind. rewrite get_run.
  destruct (re_get env).2; [|eauto..]. unfold callback_run in Hr. rewrite Hr. simpl.
  assert (forall s, validateWorkflowTransition (run_state r) s =
    TransitionError ("Illegal workflow state transition: '" +:+ WorkflowRunState_str (run_state r) +:+ "' → '" +:+
     WorkflowRunState_str s +:+ "'. Terminal states accept no further transitions.") (run_state r) s) as ->
    by (intros s; destruct (run_state r); done).
  eauto.
Qed.

(** What a transition that is applied does to the run. *)
Lemma applied_run env w c w' : rd_runs deps = true -> runs_inv (rw_runs w) ->
  applyTransition deps env c (callback_target c) w = (Ok tt, w') ->
  exists r r', callback_run w c = Some r /\ callback_run w' c = Some r' /\
    validateWorkflowTransition (run_state r) (callback_target c) = TransitionOk (callback_target c) /\
    run_state r' = callback_target c /\
    w' = mkRoutesWorld (rw_runs w') (rw_outbox w) (rw_started w) /\ runs_inv (rw_runs w').
Proof.
  intros Hd Hi. unfold applyTransition. rewrite Hd. intros (o & w1 & Hg & Hk)%bind_ok.
  rewrite get_run in Hg. destruct (re_get env).2; [|done..]. injection Hg as <- <-.
  unfold callback_run. set (k := run_key _ _) in *.
  destruct (validateWorkflowTransition _ _) as [s|] eqn:Hv; [|done].
  apply bind_ok in Hk as (o & w2 & [_ Ht]%faulty_ok & Hk).
  unfold InMemoryRuns.transitionState, gets in Ht. unfold mbind at 1, M_bind at 1 in Ht. fold k in Ht.
  destruct (mapGet k (rw_runs w)) as [r|] eqn:Hr; simpl in Hv, Ht.
  - unfold validateWorkflowTransition in Hv.
    destruct (bool_decide (callback_target c ∈ ALLOWED_TRANSITIONS (run_state r))) eqn:Ha; [|done].
    injection Hv as <-.
    assert (negb (bool_decide (run_state r = run_state r)) || bool_decide (run_state r = run_completed) ||
      bool_decide (run_state r = run_failed) = false) as Hcas by (revert Ha; by destruct (run_state r)).
    rewrite Hcas in Ht. unfold mbind, M_bind, lift in Ht.
    rewrite workflowRunSchema_update in Ht by (apply (proj2 Hi _ _ Hr)).
    simpl in Ht. injection Ht as <- <-. injection Hk as <-.
    exists r. eexists. split_and!; [done|apply mapGet_set_eq|by unfold validateWorkflowTransition; rewrite Ha|done|done|].
    simpl. apply runs_inv_set; [done|exact (proj2 (proj1 Hi) _ _ Hr)|].
    apply workflowRunSchema_update, (proj2 Hi _ _ Hr).
  - injection Ht as <- <-. simpl in Hk. exfalso. unfold callback_target in Hk.
    by destruct (rc_callbackType c ?: cb_completed).
Qed.

(** Without a store of runs there is nothing to move. *)
Lemma applied_without_runs env w c w' : rd_runs deps = false ->
  applyTransition deps env c (callback_target c) w = (Ok tt, w') -> w' = w.
Proof. intros Hd. unfold applyTransition. rewrite Hd. destruct (validateWorkflowTransition _ _); [by intros [= <-]|done]. Qed.

(** What a callback that is acknowledged has done. *)
Lemma accepted_callback_effect env c w rsp w' : runs_inv (rw_runs w) -> store_wf (rw_outbox w) ->
  acceptCallback deps env c w = (Ok rsp, w') ->
  (exists e, rsp = callbackAccepted c (callback_target c) e /\
     stored_event (rw_outbox w') (callback_terminal_key c) = Some e) /\
  is_Some (stored_event (rw_outbox w') (callback_progress_key c)) /\
  outbox_grows (rw_outbox w) (rw_outbox w') /\
  (rd_runs deps = true -> exists r r', callback_run w c = Some r /\ callback_run w' c = Some r' /\
     isTerminalState (run_state r) = false /\ run_state r' = callback_target c) /\
  (rd_runs deps = false -> rw_runs w' = rw_runs w).
Proof.
  intros Hi Hw. unfold acceptCallback. fold (callback_target c).
  intros ([] & w1 & Ha & Hk)%bind_ok.
  assert (rw_outbox w1 = rw_outbox w /\
    (rd_runs deps = true -> exists r r', callback_run w c = Some r /\ callback_run w1 c = Some r' /\
       isTerminalState (run_state r) = false /\ run_state r' = callback_target c) /\
    (rd_runs deps = false -> rw_runs w1 = rw_runs w)) as (Eo & Hrun & Hno).
  { destruct (rd_runs deps) eqn:Hd.
    - destruct (applied_run _ _ _ _ Hd Hi Ha) as (r & r' & Hr & Hr' & Hv & Hst & Ew & _).
      split_and!; [by rewrite Ew| |done]. intros _. exists r, r'. split_and!; [done..| |done]. by destruct (run_state r).
    - by rewrite (applied_without_runs _ _ _ _ Hd Ha). }
  apply bind_ok in Hk as (cmd1 & ? & [= Ht1 <-] & Hk).
  destruct (built_command _ _ _ _ (progress_builds (re_now env) c) Ht1) as (Hc1 & Hk1 & _).
  apply bind_ok in Hk as (e1 & w2 & He1 & Hk). apply bind_ok in Hk as (cmd2 & ? & [= Ht2 <-] & Hk).
  destruct (built_command _ _ _ _ (terminal_builds (re_now env) c) Ht2) as (Hc2 & Hk2 & _).
  apply bind_ok in Hk as (e2 & w3 & He2 & Hk). injection Hk as <- <-.
  assert (store_wf (rw_outbox w1)) as Hw1 by (by rewrite Eo).
  destruct (enqueue_event_ok _ _ _ _ _ Hw1 Hc1 He1) as (_ & Ew2 & Hw2 & Hg2 & Hs2 & _).
  destruct (enqueue_event_ok _ _ _ _ _ Hw2 Hc2 He2) as (_ & Ew3 & Hw3 & Hg3 & Hs3 & _).
  rewrite Hk1 in Hs2. rewrite Hk2 in Hs3. rewrite Eo in Hg2. assert (rw_runs w3 = rw_runs w1) as Er by (by rewrite Ew3, Ew2).
  split_and!; [by exists e2|eexists; by apply Hg3|by etrans| |by rewrite Er].
  unfold callback_run in *. by rewrite Er.
Qed.

(** What passes the check carries the signature of the body. *)
Lemma checked_signature raw signature w w' : check_signature (O := O) deps raw signature w = (Ok tt, w') ->
  w' = w /\ forall secret, rd_callbackSecret deps = Some secret -> secret ≠ "" ->
    exists s, signature = Some s /\ trim s = hmac_hex secret raw.
Proof.
  unfold check_signature. destruct (rd_callbackSecret deps) as [[|ch k]|];
    [intros [= <-]; split; [done|by intros ? [= <-]]| |intros [= <-]; by split].
  intros (v & w1 & Hv & Hk)%bind_ok. destruct v; [|done]. injection Hk as <-.
  unfold lift in Hv. injection Hv as Hv <-. split; [done|]. intros secret [= <-] _.
  unfold isRuntimeCallbackSignatureValid in Hv. destruct signature as [s|]; [|done]. exists s. split; [done|].
  revert Hv. destruct (negb (truthy (Some s))); [done|]. simpl nullish.
  destruct (negb (Nat.eqb _ _)); [done|]. destruct (negb (is_ascii _)); [done|].
  intros [= Hv]. by apply String.eqb_eq in Hv.
Qed.

(** A legal move of a stored run is applied when the calls go through. *)
Lemma apply_total env c w r : rd_runs deps = true -> runs_inv (rw_runs w) ->
  callback_run w c = Some r -> isTerminalState (run_state r) = false ->
  (re_get env).2 = NoFault -> (re_transition env).2 = NoFault ->
  exists w', applyTransition deps env c (callback_target c) w = (Ok tt, w').
Proof.
  intros Hd Hi Hr Ht Hf1 Hf2. unfold applyTransition. rewrite Hd. unfold mbind at 1, M_bind at 1.
  rewrite get_run, Hf1. unfold callback_run in Hr. set (k := run_key _ _) in *. rewrite Hr. simpl.
  assert (forall ty, validateWorkflowTransition (run_state r) (callbackTypeToState ty) =
    TransitionOk (callbackTypeToState ty)) as Hv by (intros ty; by destruct (run_state r), ty).
  unfold callback_target. rewrite Hv.
  unfold on_runs, faulty. rewrite Hf2. unfold InMemoryRuns.transitionState. msimpl. fold k. rewrite Hr. simpl.
  assert (negb (bool_decide (run_state r = run_state r)) || bool_decide (run_state r = run_completed) ||
    bool_decide (run_state r = run_failed) = false) as -> by (by destruct (run_state r)).
  rewrite workflowRunSchema_update by (apply (proj2 Hi _ _ Hr)). simpl. eauto.
Qed.

(** Without faults a callback for a run that is not over is acknowledged. *)
Lemma accept_total env c w r :
  rd_runs deps = true -> runs_inv (rw_runs w) -> store_wf (rw_outbox w) ->
  tenantProvisioningRuntimeCallbackSchema c = Ok c ->
  callback_run w c = Some r -> isTerminalState (run_state r) = false ->
  (re_get env).2 = NoFault -> (re_transition env).2 = NoFault ->
  (re_progress env).2 = NoFault -> (re_event env).2 = NoFault ->
  exists rsp w', acceptCallback deps env c w = (Ok rsp, w').
Proof.
  intros Hd Hi Hw Hc Hr Ht Hf1 Hf2 Hf3 Hf4. unfold acceptCallback. fold (callback_target c).
  destruct (apply_total env c w r Hd Hi Hr Ht Hf1 Hf2) as [w1 Ha]. rewrite (bind_eq _ _ _ _ _ Ha).
  destruct (applied_run _ _ _ _ Hd Hi Ha) as (_ & _ & _ & _ & _ & _ & Ew & _).
  destruct (valid_builds _ _ _ Hc (progress_builds (re_now env) c)) as (cmd1 & Ht1 & Hc1 & Hk1).
  destruct (valid_builds _ _ _ Hc (terminal_builds (re_now env) c)) as (cmd2 & Ht2 & Hc2 & Hk2).
  assert (store_wf (rw_outbox w1)) as Hw1 by (by rewrite Ew).
  destruct (enqueue_event_nofault _ cmd1 w1 Hf3 Hw1 Hc1) as (e1 & w2 & He1).
  destruct (enqueue_event_ok _ _ _ _ _ Hw1 Hc1 He1) as (_ & _ & Hw2 & _).
  destruct (enqueue_event_nofault _ cmd2 w2 Hf4 Hw2 Hc2) as (e2 & w3 & He2).
  rewrite Ht1, (bind_eq _ _ _ cmd1 w1) by done. rewrite (bind_eq _ _ _ _ _ He1).
  rewrite Ht2, (bind_eq _ _ _ cmd2 w2) by done. rewrite (bind_eq _ _ _ _ _ He2). msimpl. eauto.
Qed.
End lemmas.

(** ** Theorems *)

Section theorems.
Context `{Z : Zod} {ZL : ZodLaws Z} `{Hm : Hmac} {O : Type} {P : OutboxPort O} {OS : OutboxStore O P}.
Context (parse_json : string -> result json) (deps : WorkflowRouteDependencies).
Implicit Types (w : RoutesWorld O) (env : request_env) (c : TenantProvisioningRuntimeCallback).

(** C29. A callback is acknowledged only when its consequences are durable.
    Whatever calls fail on the way, and with no other request in between, if
    POST /runtime-callbacks/tenant-provisioning answers, then the outbox is configured, the body parses to a callback and,
    when a callback secret is set, it carries the signature of that body; the
    answer is the acknowledgement of that callback with the event it has
    stored, which is the failed event for a callback of type failed and the
    completed event for the other two types, progress included (the plan
    promises one progress event for those: a finding); its progress event is
    stored as well and no event is lost.  With a store of workflow runs the
    callback's run was not over and is now in the state the callback names;
    without one, no run moves. *)
Theorem accepted_callback_is_announced env raw signature w rsp w' :
  runs_inv (rw_runs w) -> store_wf (rw_outbox w) ->
  postRuntimeCallback parse_json deps env raw signature w = (Ok rsp, w') ->
  rd_outbox deps = true /\
  (forall secret, rd_callbackSecret deps = Some secret -> secret ≠ "" ->
     exists s, signature = Some s /\ trim s = hmac_hex secret raw) /\
  exists v fields c e, parse_json raw = Ok v /\ object_of v = Ok fields /\ parseRuntimeCallback fields = Ok c /\
    rsp = callbackAccepted c (callback_target c) e /\
    stored_event (rw_outbox w') (callback_terminal_key c) = Some e /\
    is_Some (stored_event (rw_outbox w') (callback_progress_key c)) /\
    outbox_grows (rw_outbox w) (rw_outbox w') /\
    (rd_runs deps = true -> exists r r', callback_run w c = Some r /\ callback_run w' c = Some r' /\
       isTerminalState (run_state r) = false /\ run_state r' = callback_target c) /\
    (rd_runs deps = false -> rw_runs w' = rw_runs w).
Proof.
  intros Hi Hw. unfold postRuntimeCallback, require_outbox. destruct (rd_outbox deps); [|done].
  intros ([] & ? & [= <-] & Hk)%bind_ok. apply bind_ok in Hk as ([] & ? & Hs & Hk).
  apply checked_signature in Hs as [-> Hs].
  apply bind_ok in Hk as (v & ? & [= Hv <-] & Hk). apply bind_ok in Hk as (fields & ? & [= Hf <-] & Hk).
  apply bind_ok in Hk as (c & ? & [= Hc <-] & Hk).
  destruct (accepted_callback_effect deps env c w rsp w' Hi Hw Hk) as ((e & Hr & He) & Hrest).
  split_and!; [done|done|]. by exists v, fields, c, e.
Qed.

(** A run that is over admits no callback: whatever the callback says
    and whatever fails on the way, it is refused and nothing changes. *)
Theorem terminal_run_refuses_callbacks env c w r :
  rd_runs deps = true -> callback_run w c = Some r -> isTerminalState (run_state r) = true ->
  exists e, acceptCallback deps env c w = (Err e, w).
Proof.
  intros Hd Hr Ht. destruct (terminal_refused deps env w c r Hd Hr Ht) as [e He].
  exists e. unfold acceptCallback. by apply bind_err.
Qed.

(** A progress callback announces the completion of its workflow: it
    leaves the run in progress, and puts the completed event in the outbox. *)
Theorem progress_callback_announces_completion env c w r :
  rd_runs deps = true -> runs_inv (rw_runs w) -> store_wf (rw_outbox w) ->
  tenantProvisioningRuntimeCallbackSchema c = Ok c -> rc_callbackType c = Some cb_progress ->
  callback_run w c = Some r -> run_state r = run_in_progress ->
  (re_get env).2 = NoFault -> (re_transition env).2 = NoFault ->
  (re_progress env).2 = NoFault -> (re_event env).2 = NoFault ->
  exists rsp w' r', acceptCallback deps env c w = (Ok rsp, w') /\
    callback_run w' c = Some r' /\ run_state r' = run_in_progress /\
    is_Some (stored_event (rw_outbox w') (completed_key_of (rc_input c) (rc_callbackId c))).
Proof.
  intros Hd Hi Hw Hc Hty Hr Hst Hf1 Hf2 Hf3 Hf4.
  destruct (accept_total deps env c w r) as (rsp & w' & Ha); try done; [by rewrite Hst|].
  destruct (accepted_callback_effect deps env c w rsp w' Hi Hw Ha) as ((e & _ & Hs) & _ & _ & Hrun & _).
  destruct (Hrun Hd) as (_ & r' & _ & Hr' & _ & Hst'). exists rsp, w', r'. unfold callback_target, callback_terminal_key in *.
  rewrite Hty in *. split_and!; [done..|by exists e].
Qed.

(** A callback that is interrupted is never announced: when the calls
    break down after the run was moved to its final state, the caller gets an
    error, and every callback of that workflow that follows is refused and
    changes nothing, so the closing event is never written. *)
Theorem interrupted_callback_is_never_announced env c w r e later :
  rd_runs deps = true -> runs_inv (rw_runs w) -> store_wf (rw_outbox w) ->
  tenantProvisioningRuntimeCallbackSchema c = Ok c -> isTerminalState (callback_target c) = true ->
  callback_run w c = Some r -> isTerminalState (run_state r) = false ->
  stored_event (rw_outbox w) (callback_terminal_key c) = None ->
  (re_get env).2 = NoFault -> (re_transition env).2 = NoFault -> (re_progress env).2 = FailBefore e ->
  Forall (fun l => wi_tenantId (rc_input l.2) = wi_tenantId (rc_input c) /\
    wi_workflowId (rc_input l.2) = wi_workflowId (rc_input c)) later ->
  let attempt l w := (acceptCallback deps l.1 l.2 w).2 in
  let w' := fold_left (fun w l => attempt l w) later (attempt (env, c) w) in
  (acceptCallback deps env c w).1 = Err e /\
  (exists r', callback_run w' c = Some r' /\ run_state r' = callback_target c) /\
  stored_event (rw_outbox w') (callback_terminal_key c) = None.
Proof.
  intros Hd Hi Hw Hc Htt Hr Ht Hn Hf1 Hf2 Hf3 Hl attempt.
  destruct (apply_total deps env c w r Hd Hi Hr Ht Hf1 Hf2) as [w1 Ha].
  destruct (applied_run _ _ _ _ _ Hd Hi Ha) as (_ & r' & _ & Hr' & _ & Hst & Ew & _).
  destruct (valid_builds _ _ _ Hc (progress_builds (re_now env) c)) as (cmd1 & Ht1 & _).
  assert (acceptCallback deps env c w = (Err e, w1)) as E1.
  { unfold acceptCallback. fold (callback_target c). rewrite (bind_eq _ _ _ _ _ Ha), Ht1.
    rewrite (bind_eq _ _ _ cmd1 w1) by done. apply bind_err. unfold enqueue_event. by rewrite Hf3. }
  cbv zeta. assert (attempt (env, c) w = w1) as -> by (unfold attempt; simpl; by rewrite E1).
  assert (fold_left (fun w l => attempt l w) later w1 = w1) as ->.
  { clear E1. induction Hl as [|[env' c'] later [Htn Hwf] Hl IH]; [done|]. simpl in *.
    destruct (terminal_refused deps env' w1 c' r') as [x Hx]; [done| |by rewrite Hst|].
    - unfold callback_run. by rewrite Htn, Hwf.
    - unfold attempt. simpl. unfold acceptCallback. fold (callback_target c').
      by rewrite (bind_err _ _ _ _ _ Hx). }
  split_and!; [by rewrite E1|by exists r'|]. by rewrite Ew.
Qed.

(** A callback for a run that was never recorded is always refused with
    a conflict, whatever its type, and changes nothing. *)
Theorem callback_without_run_conflicts env c w :
  rd_runs deps = true -> callback_run w c = None ->
  (re_get env).2 = NoFault -> (re_transition env).2 = NoFault ->
  exists m, acceptCallback deps env c w = (Err (ConflictError m), w).
Proof.
  intros Hd Hr Hf1 Hf2. eexists. unfold acceptCallback. apply bind_err.
  unfold applyTransition. rewrite Hd. unfold mbind at 1, M_bind at 1. rewrite get_run, Hf1.
  unfold callback_run in Hr. rewrite Hr. simpl.
  assert (forall ty, validateWorkflowTransition run_requested (callbackTypeToState ty) =
    TransitionOk (callbackTypeToState ty) /\ run_requested ≠ callbackTypeToState ty) as Hs by (by intros []).
  destruct (Hs (rc_callbackType c ?: cb_completed)) as [-> Hne].
  unfold on_runs, faulty. rewrite Hf2. unfold InMemoryRuns.transitionState. msimpl. rewrite Hr. simpl.
  rewrite (bool_decide_false _ Hne). by destruct w.
Qed.

(** C30. A forged callback is refused before anything is read or written:
    with a callback secret configured, a request whose signature is not the
    HMAC of its exact body gets an error from both callback routes, and the
    runs and the outbox stay as they were. *)
Theorem forged_callback_is_refused env raw signature w secret :
  rd_callbackSecret deps = Some secret -> secret ≠ "" ->
  (forall s, signature = Some s -> trim s ≠ hmac_hex secret raw) ->
  (exists e, postRuntimeCallback parse_json deps env raw signature w = (Err e, w)) /\
  (exists e, postRuntimeProgress parse_json deps env raw signature w = (Err e, w)).
Proof.
  intros Hd Hs Hf. assert (exists e, check_signature (O := O) deps raw signature w = (Err e, w)) as [e He].
  { unfold check_signature. rewrite Hd. destruct secret as [|ch secret]; [done|].
    unfold isRuntimeCallbackSignatureValid. destruct signature as [s|]; [|by eexists].
    destruct (negb (truthy (Some s))); [by eexists|]. simpl nullish.
    destruct (negb (Nat.eqb (String.length (trim s)) _)); [by eexists|].
    destruct (negb (is_ascii (trim s))); [by eexists|].
    rewrite (proj2 (String.eqb_neq _ _)); [by eexists|]. intros E. by apply (Hf s). }
  unfold postRuntimeCallback, postRuntimeProgress, require_outbox.
  destruct (rd_outbox deps); [|by split; eexists].
  split; exists e; rewrite (bind_eq _ _ w tt w) by done; by apply bind_err.
Qed.
End theorems.

(** ** Witnesses *)

Module RoutesExample.
Import ZodExample.

Definition input : TenantProvisioningWorkflowInput :=
  mkProvisioning tenant "wf-1" "dedupe-1" "acme" "Acme" "founder".
Definition callback (ty : CallbackType) : TenantProvisioningRuntimeCallback :=
  mkRuntimeCallback input "cb-1" (Some ty) None None None None None None.
Definition running : WorkflowRun := mkRun id1 tenant "wf-1" "dedupe-1" run_in_progress None 1000 1000.
Definition over : WorkflowRun := mkRun id1 tenant "wf-1" "dedupe-1" run_completed None 1000 2000.
Definition deps : WorkflowRouteDependencies := mkRouteDeps true true false (Some "s3cret").
Definition ok (e : call_env) : db_call := (e, NoFault).
Definition env : request_env := mkRequestEnv 3000 (ok env1) (ok env2) (ok env2) (ok env3) (ok env3).
Definition broken : request_env :=
  mkRequestEnv 3000 (ok env1) (ok env2) (ok env2) (env3, FailBefore (JsError "connection lost")) (ok env3).
Definition world (r : WorkflowRun) : RoutesWorld InMemoryOutbox.State :=
  mkRoutesWorld [(run_key tenant "wf-1", r)] InMemoryOutbox.init [].
Definition no_runs : RoutesWorld InMemoryOutbox.State := mkRoutesWorld [] InMemoryOutbox.init [].
(** A signed request with the completed callback for its body. *)
Definition parse_body (raw : string) : result json :=
  Ok (JObj [("tenantId", JStr tenant); ("workflowId", JStr "wf-1"); ("dedupeKey", JStr "dedupe-1");
    ("tenantExternalId", JStr "acme"); ("tenantName", JStr "Acme"); ("requestedBy", JStr "founder");
    ("callbackId", JStr "cb-1"); ("callbackType", JStr "completed")]).
Definition signature : string := hmac_hex (Hmac := N8nExample.example_hmac) "s3cret" "body".
Definition posted : result Response * RoutesWorld InMemoryOutbox.State :=
  postRuntimeCallback (H0 := N8nExample.example_hmac) parse_body deps env "body" (Some signature) (world running).

Lemma world_inv r : run_tenantId r = tenant -> run_workflowId r = "wf-1" -> workflowRunSchema r = Ok r ->
  runs_inv (rw_runs (world r)).
Proof.
  intros Ht Hw Hs. unfold world. simpl. change [(run_key tenant "wf-1", r)] with (mapSet (run_key tenant "wf-1") r []).
  apply runs_inv_set; [|unfold run_kf; by rewrite Ht, Hw|done]. split; [apply keyed_nil|done].
Qed.
End RoutesExample.

Section witnesses.
Import ZodExample RoutesExample.

Lemma accepted_callback_is_announced_witness :
  exists rsp w', posted = (Ok rsp, w') /\
    is_Some (stored_event (rw_outbox w') (callback_terminal_key (callback cb_completed))).
Proof.
  destruct posted as [[rsp|e] w'] eqn:E.
  - exists rsp, w'. split; [done|].
    destruct (accepted_callback_is_announced (OS := in_memory_outbox_store) (Hm := N8nExample.example_hmac)
      parse_body deps env "body" (Some signature) (world running) rsp w' (world_inv running eq_refl eq_refl eq_refl)
      outbox_inv_init E) as (_ & _ & v & fields & c & e & Hv & Hf & Hc & _ & He & _).
    injection Hv as <-. injection Hf as <-. vm_compute in Hc. injection Hc as <-. by exists e.
  - exfalso. assert ((fun x : result Response => match x with Ok _ => true | Err _ => false end) posted.1 = true) as Hok
      by (vm_compute; reflexivity). by rewrite E in Hok.
Defined.

Lemma terminal_run_refuses_callbacks_witness :
  exists e, acceptCallback deps env (callback cb_failed) (world over) = (Err e, world over).
Proof.
  apply (terminal_run_refuses_callbacks deps env (callback cb_failed) (world over) over);
    vm_compute; reflexivity.
Defined.

Lemma progress_callback_announces_completion_witness :
  exists rsp w' r', acceptCallback deps env (callback cb_progress) (world running) = (Ok rsp, w') /\
    callback_run w' (callback cb_progress) = Some r' /\ run_state r' = run_in_progress /\
    is_Some (stored_event (rw_outbox w') (completed_key_of input "cb-1")).
Proof.
  apply (progress_callback_announces_completion (OS := in_memory_outbox_store) deps env (callback cb_progress)
    (world running) running); try reflexivity; [by apply world_inv|exact outbox_inv_init].
Defined.

Lemma interrupted_callback_is_never_announced_witness :
  (acceptCallback deps broken (callback cb_completed) (world running)).1 = Err (JsError "connection lost").
Proof.
  apply (interrupted_callback_is_never_announced (OS := in_memory_outbox_store) deps broken
    (callback cb_completed) (world running) running (JsError "connection lost") []);
    try reflexivity; [by apply world_inv|exact outbox_inv_init|constructor].
Defined.

Lemma callback_without_run_conflicts_witness :
  exists m, acceptCallback deps env (callback cb_completed) no_runs = (Err (ConflictError m), no_runs).
Proof. apply callback_without_run_conflicts; reflexivity. Defined.

Lemma forged_callback_is_refused_witness :
  exists e, postRuntimeCallback (H0 := N8nExample.example_hmac) (fun _ => Err ZodError) deps env "body" (Some "forged")
    (world running) = (Err e, world running).
Proof.
  apply (forged_callback_is_refused (Hm := N8nExample.example_hmac) (fun _ => Err ZodError) deps env "body"
    (Some "forged") (world running) "s3cret"); [reflexivity|discriminate|].
  intros s [= <-]. intros E. vm_compute in E. discriminate E.
Defined.
End witnesses.
