(* ===== verification/N8nRoutes.v ===== *)
(** * The n8n routes of the API

    [apps/api/src/routes/n8n.ts]: signals come in from n8n, actions are
    dispatched to it, and their results come back. The routes keep their
    signals and their actions in the in-memory repositories, the actions'
    events in any outbox; a call to a repository may fail (type [db_call]).
    The field errors in the body of a refusal are the validation library's:
    they are the argument [field_errors]. *)

From S2P Require Import Prelude Numbers JsRuntime Json StableId Domain Zod ZodJson N8n Sql Outbox Http ControlPlane Signals ExternalActions WorkflowRoutes ActionLife ActionProps.

(** ** The routes *)

(** [N8nRouteDependencies]: what may be [null] and is only tested is a boolean. *)
Record N8nRouteDependencies := mkN8nDeps {
  nd_signals : bool;
  nd_actions : bool;
  nd_sharedSecret : option string;
  nd_dispatchClient : bool;
  nd_dispatchWebhookUrl : option string;
  nd_dispatchResultCallbackUrl : option string;
}.

Record N8nWorld (O : Type) := mkN8nWorld {
  nw_signals : InMemorySignals.State;
  nw_actions : InMemoryActions.State O;
}.
Arguments mkN8nWorld {O} nw_signals nw_actions.
Arguments nw_signals {O} n.
Arguments nw_actions {O} n.

(** Properties of a value that has passed its schema. *)
Definition text_at (k : string) (fs : jobject) : string :=
  match mapGet k fs with Some (JStr s) => s | _ => "" end.
Definition opt_text_at (k : string) (fs : jobject) : option string :=
  match mapGet k fs with Some (JStr s) => Some s | _ => None end.

Definition signalTypes : list SignalType :=
  [sig_competitive; sig_community; sig_icp; sig_product; sig_market; sig_internal].

(** [error.message] of the three errors of the action repository *)
Definition action_error_message (e : js_error) : string :=
  match e with
  | ExternalActionNotFoundError actionId => "External action not found: " +:+ actionId
  | ExternalActionConflictError m | ExternalActionStateError m => m
  | _ => ""
  end.

Section routes.
Context `{Zod} `{ZodFormats} `{Hmac} `{Sha256} {O : Type} `{!OutboxPort O}.
Context (parse_json : string -> result json) (field_errors : json -> json).
Context (deps : N8nRouteDependencies).

Definition on_signals {A} (c : db_call) (m : call_env -> M InMemorySignals.State A) : M (N8nWorld O) A :=
  faulty c.2 (fun w => let '(r, s) := m c.1 (nw_signals w) in (r, mkN8nWorld s (nw_actions w))).
Definition on_actions {A} (c : db_call) (m : call_env -> M (InMemoryActions.State O) A) :
    M (N8nWorld O) A :=
  faulty c.2 (fun w => let '(r, s) := m c.1 (nw_actions w) in (r, mkN8nWorld (nw_signals w) s)).

Definition tenantIdHeaderSchema (v : option string) : result string :=
  match v with Some s => uuid s | None => Err ZodError end.
Definition idempotencyKeyHeaderSchema (v : option string) : result string :=
  match v with Some s => bounded_text 1 255 s | None => Err ZodError end.

(** [parseJsonBody(rawBody)]: [null] when the text is not JSON *)
Definition parseJsonBody (rawBody : string) : json :=
  match parse_json rawBody with Ok v => v | Err _ => JNull end.

Definition isDispatchConfigured : bool :=
  nd_actions deps && truthy (nd_sharedSecret deps) && truthy (nd_dispatchResultCallbackUrl deps) &&
  (nd_dispatchClient deps || truthy (nd_dispatchWebhookUrl deps)).

Definition invalid (error : string) (raw : json) : Response :=
  mkResponse 422 [("error", JStr error); ("details", field_errors raw)].
Definition noTenant : Response := refusal 400 "X-Tenant-Id header is required".
Definition notJson : Response := refusal 400 "Request body must be valid JSON".

(** The payload of a signal: what the envelope carries, and where it came from. *)
Definition signalPayload (envelope : jobject) (idempotencyKey : string) : jobject :=
  mapSet "n8n" (JObj ([("eventId", JStr (text_at "eventId" envelope));
      ("source", JStr (text_at "source" envelope));
      ("occurredAt", JStr (text_at "occurredAt" envelope));
      ("idempotencyKey", JStr idempotencyKey)] ++
      spread_truthy "workflowId" (opt_text_at "workflowId" envelope) ++
      spread_truthy "executionId" (opt_text_at "executionId" envelope)))
    (json_record (mapGet "payload" envelope)).

(** [POST /signals] *)
Definition postSignals (env : db_call) (tenantHeader idempotencyHeader signature : option string)
    (rawBody : string) : M (N8nWorld O) Response :=
  if negb (nd_signals deps) then
    throw (ServiceUnavailableError "Signal events repository is not configured. Set DATABASE_URL.")
  else if negb (truthy (nd_sharedSecret deps)) then
    throw (ServiceUnavailableError "N8N_SHARED_SECRET is required for n8n signal ingestion.")
  else
    match tenantIdHeaderSchema tenantHeader with
    | Err _ => mret noTenant
    | Ok tenantId =>
        match idempotencyKeyHeaderSchema idempotencyHeader with
        | Err _ => mret (refusal 400 "Idempotency-Key header is required")
        | Ok idempotencyKey =>
            if negb (verifyN8nSignature rawBody signature (nd_sharedSecret deps ?: ""))
            then mret (refusal 401 "Invalid n8n signature")
            else
              let parsedBody := parseJsonBody rawBody in
              if falsy parsedBody then mret notJson
              else
                match n8nCanonicalSignalEnvelopeSchema (Some parsedBody) with
                | Ok (Some (JObj envelope)) =>
                    signalType ← lift (enum_field signalTypes SignalType_str (mapGet "signalType" envelope));
                    result ← on_signals env (fun e => InMemorySignals.ingest e
                      (mkIngestParams tenantId signalType ("n8n:" +:+ text_at "source" envelope)
                         (Some (text_at "eventId" envelope)) (signalPayload envelope idempotencyKey)));
                    mret (mkResponse 202 [("accepted", JBool true);
                      ("inserted", JBool (negb (ir_isDuplicate result)));
                      ("signalId", JStr (string_of_N (sg_id (ir_event result))))])
                | _ => mret (invalid "Invalid n8n signal envelope" parsedBody)
                end
        end
    end.

Definition actionRequest (tenantId : string) (request : jobject) : ExternalActionRequest :=
  mkRequest tenantId (text_at "actionId" request) (text_at "actionType" request)
    (text_at "approvedBy" request) (text_at "idempotencyKey" request)
    (json_record (mapGet "payload" request)).

(** [POST /dispatch] *)
Definition postDispatch (env : db_call) (tenantHeader : option string) (body : result json) :
    M (N8nWorld O) Response :=
  if negb (nd_actions deps) then
    throw (ServiceUnavailableError "External actions repository is not configured. Set DATABASE_URL.")
  else if negb isDispatchConfigured then
    throw (ServiceUnavailableError ("n8n dispatch is not fully configured. Set N8N_DISPATCH_WEBHOOK_URL, " +:+
      "N8N_DISPATCH_RESULT_CALLBACK_URL, and N8N_SHARED_SECRET."))
  else
    match tenantIdHeaderSchema tenantHeader with
    | Err _ => mret noTenant
    | Ok tenantId =>
        let raw := match body with Ok v => v | Err _ => JNull end in
        if falsy raw then mret notJson
        else
          match (object ← object_of raw; n8nTypedDispatchRequestSchema object) with
          | Err _ => mret (invalid "Invalid n8n dispatch request" raw)
          | Ok request =>
              if negb (String.eqb (text_at "tenantId" request) tenantId)
              then mret (refusal 403 "tenantId must match the X-Tenant-Id header")
              else
                result ← on_actions env (fun e =>
                  InMemoryActions.enqueueRequested e (actionRequest tenantId request));
                mret (mkResponse 202 [("accepted", JBool true);
                  ("actionId", JStr (ea_actionId (er_action result)));
                  ("externalActionId", JStr (ea_id (er_action result)));
                  ("state", JStr (ExternalActionState_str (ea_state (er_action result))));
                  ("duplicate", JBool (er_isDuplicate result));
                  ("eventId", JStr (oe_id (er_event result)));
                  ("trackingId", JStr (tenantId +:+ ":" +:+ text_at "idempotencyKey" request));
                  ("eventType", JStr (oe_eventType (er_event result)))])
          end
    end.

(** What a callback tells the repository; a date that cannot be read is
    refused there. *)
Definition outcomeOf (callback : jobject) : result RecordExternalActionOutcome :=
  occurredAt ← (match opt_text_at "occurredAt" callback with
    | Some (String _ _ as text) =>
        match date_of text with Some t => mret (Some t) | None => Err ZodError end
    | _ => mret None
    end);
  mret (mkOutcome (text_at "tenantId" callback) (text_at "actionId" callback)
    (text_at "idempotencyKey" callback) (text_at "callbackId" callback)
    (if String.eqb (text_at "status" callback) "completed" then oc_completed else oc_failed)
    (opt_text_at "workflowId" callback) (opt_text_at "executionId" callback)
    (opt_text_at "providerReference" callback) (Some (json_record (mapGet "outcome" callback)))
    (opt_text_at "errorCode" callback) (opt_text_at "errorMessage" callback) occurredAt).

(** [POST /dispatch-results] *)
Definition postDispatchResults (env : db_call) (signature : option string) (rawBody : string) :
    M (N8nWorld O) Response :=
  if negb (nd_actions deps) then
    throw (ServiceUnavailableError "External actions repository is not configured. Set DATABASE_URL.")
  else if negb (truthy (nd_sharedSecret deps)) then
    throw (ServiceUnavailableError "N8N_SHARED_SECRET is required for n8n dispatch result callbacks.")
  else if negb (verifyN8nSignature rawBody signature (nd_sharedSecret deps ?: "")) then
    throw (UnauthorizedError "Invalid n8n signature")
  else
    let parsedBody := parseJsonBody rawBody in
    if falsy parsedBody then mret notJson
    else
      match n8nDispatchResultCallbackSchema (Some parsedBody) with
      | Ok (Some (JObj callback)) =>
          outcome ← catching (on_actions env (fun e =>
            input ← lift (outcomeOf callback); InMemoryActions.recordOutcome e input));
          match outcome with
          | Ok result =>
              mret (mkResponse 202 [("accepted", JBool true);
                ("duplicate", JBool (rr_isDuplicate result));
                ("actionId", JStr (ea_actionId (rr_action result)));
                ("externalActionId", JStr (ea_id (rr_action result)));
                ("state", JStr (ExternalActionState_str (ea_state (rr_action result))))])
          | Err (ExternalActionNotFoundError _ as e) => mret (refusal 404 (action_error_message e))
          | Err (ExternalActionConflictError _ as e) | Err (ExternalActionStateError _ as e) =>
              mret (refusal 409 (action_error_message e))
          | Err e => throw e
          end
      | _ => mret (invalid "Invalid n8n dispatch result callback" parsedBody)
      end.
End routes.

(** ** Theorems *)

Section theorems.
Context `{Z : Zod} {ZL : ZodLaws Z} `{F : ZodFormats} `{Hm : Hmac} {HmL : HmacLaws Hm}.
Context `{H : Sha256} {HL : Sha256Laws H} {Hids : ActionIds Z}.
Context {O : Type} `{P : !OutboxPort O} {OL : OutboxLaws O P}.
Context (parse_json : string -> result json) (field_errors : json -> json).
Context (deps : N8nRouteDependencies).
Implicit Types (env : db_call) (w : N8nWorld O).

Abbreviation signals := (postSignals (O := O) parse_json field_errors deps).
Abbreviation dispatched := (postDispatch (O := O) field_errors deps).
Abbreviation results := (postDispatchResults (O := O) parse_json field_errors deps).

(** The repositories of the routes are in order, with room for two more
    writes of each kind. *)
Record routes_inv (w : N8nWorld O) : Prop := {
  ri_signals : signal_inv (nw_signals w);
  ri_actions : act_inv (nw_actions w);
  ri_room : (InMemoryActions.sequence (nw_actions w) + 4 < 10 ^ 12)%N;
  ri_outbox : outbox_wf (InMemoryActions.outbox (nw_actions w));
}.

Definition accepted {A} (x : result Response * A) : Prop :=
  exists resp, x.1 = Ok resp /\ rsp_status resp = 202.

Definition refused {A} (x : result Response * A) (w : A) : Prop := x.2 = w /\ ~ accepted x.

Lemma refused_throw w e : refused (Err e, w) w.
Proof. split; [done|]. by intros (? & ? & _). Qed.

Lemma refused_ret w resp : rsp_status resp ≠ 202 -> refused (Ok resp, w) w.
Proof. intros Hs. split; [done|]. intros (? & [= <-] & ?). done. Qed.

(** Branch by branch. *)
Ltac refuse := repeat case_match; first [apply refused_throw|apply refused_ret; discriminate].

Lemma accepted_ret w resp : rsp_status resp ≠ 202 -> ~ accepted (Ok resp, w).
Proof. by intros Hs (? & [= <-] & ?). Qed.

Ltac skip_refusal :=
  intros Ha; exfalso; revert Ha; first [apply (proj2 (refused_throw _ _))|apply accepted_ret; discriminate].

(** What does not carry the signature of its own text is refused. *)
Lemma signals_unsigned env tn ik sg raw w : verifyN8nSignature raw sg (nd_sharedSecret deps ?: "") = false ->
  refused (signals env tn ik sg raw w) w.
Proof. intros Hv. unfold postSignals. rewrite Hv. simpl. refuse. Qed.

Lemma results_unsigned env sg raw w : verifyN8nSignature raw sg (nd_sharedSecret deps ?: "") = false ->
  refused (results env sg raw w) w.
Proof. intros Hv. unfold postDispatchResults. rewrite Hv. simpl. refuse. Qed.

Lemma verified_parts raw sg secret : verifyN8nSignature raw sg (secret ?: "") = true ->
  exists k s, secret = Some k /\ k ≠ "" /\ sg = Some s /\
    lower_string (normalizeSignature s) = signN8nPayload raw k.
Proof.
  intros Hv. destruct secret as [k|]; simpl in Hv.
  2: { unfold verifyN8nSignature in Hv. by rewrite orb_true_r in Hv. }
  destruct (String.eqb_spec k "") as [->|Hk].
  { unfold verifyN8nSignature in Hv. by rewrite orb_true_r in Hv. }
  destruct sg as [s|]; [|done]. exists k, s. split_and!; try done. by apply verified_signature.
Qed.

(** C31. Nothing is written, and nothing accepted, without the signature of
    the text that was sent: either the request to [/signals] or to
    [/dispatch-results] carries a signature which, trimmed, without its prefix
    and in lower case, is the HMAC of its own body under the configured,
    non-empty secret, or it leaves both repositories and the outbox as they
    were and is not answered 202, whatever the database does. *)
Theorem n8n_writes_are_signed env tn ik sg raw w x :
  x = signals env tn ik sg raw w \/ x = results env sg raw w ->
  (exists secret s, nd_sharedSecret deps = Some secret /\ secret ≠ "" /\ sg = Some s /\
     lower_string (normalizeSignature s) = signN8nPayload raw secret) \/
  x.2 = w /\ forall resp, x.1 = Ok resp -> rsp_status resp ≠ 202.
Proof.
  intros Hx. destruct (verifyN8nSignature raw sg (nd_sharedSecret deps ?: "")) eqn:Hv.
  - left. by apply verified_parts.
  - right. assert (refused x w) as [Hw Hn].
    { destruct Hx as [->| ->]; [by apply signals_unsigned|by apply results_unsigned]. }
    split; [done|]. intros resp Hr Hs. apply Hn. by exists resp.
Qed.

Lemma typed_action_id v r : n8nTypedDispatchRequestSchema v = Ok r ->
  mapGet "actionId" v = Some (JStr (text_at "actionId" r)).
Proof.
  intros (tn & aid & ty & by_ & ik & payload & cb & q & -> & _ & Ha & _ & _ & _ & _ & _ & _ & _ & -> & _)%typed_shape.
  by destruct aid.
Qed.

(** What a call to a repository does to the world. *)
Lemma on_actions_state {A} env (m : call_env -> M (InMemoryActions.State O) A) w :
  (on_actions env m w).2 = w \/
  (on_actions env m w).2 = mkN8nWorld (nw_signals w) (m env.1 (nw_actions w)).2.
Proof.
  unfold on_actions. destruct (faulty_state env.2 (fun w : N8nWorld O =>
    let '(r, s) := m env.1 (nw_actions w) in (r, mkN8nWorld (nw_signals w) s)) w) as [->| ->]; [by left|].
  right. by destruct (m env.1 (nw_actions w)).
Qed.

Lemma on_actions_ok {A} env (m : call_env -> M (InMemoryActions.State O) A) w a w' :
  on_actions env m w = (Ok a, w') -> nw_signals w' = nw_signals w /\
    m env.1 (nw_actions w) = (Ok a, nw_actions w').
Proof.
  intros [_ Hr]%faulty_ok. destruct (m env.1 (nw_actions w)). by injection Hr as -> <-.
Qed.

Lemma on_signals_ok {A} env (m : call_env -> M InMemorySignals.State A) w a w' :
  on_signals env m w = (Ok a, w') -> nw_actions w' = nw_actions w /\
    m env.1 (nw_signals w) = (Ok a, nw_signals w').
Proof.
  intros [_ Hr]%faulty_ok. destruct (m env.1 (nw_signals w)). by injection Hr as -> <-.
Qed.

Lemma on_actions_again {A} env (m : call_env -> M (InMemoryActions.State O) A) w a : env.2 = NoFault ->
  m env.1 (nw_actions w) = (Ok a, nw_actions w) -> on_actions env m w = (Ok a, w).
Proof. intros He Hr. unfold on_actions. rewrite He. simpl. rewrite Hr. by destruct w. Qed.

Lemma on_signals_again {A} env (m : call_env -> M InMemorySignals.State A) w a : env.2 = NoFault ->
  m env.1 (nw_signals w) = (Ok a, nw_signals w) -> on_signals env m w = (Ok a, w).
Proof. intros He Hr. unfold on_signals. rewrite He. simpl. rewrite Hr. by destruct w. Qed.

(** The actions after an enqueue. *)
Lemma enqueued_actions e q s id a : act_inv s -> room s ->
  mapGet id (InMemoryActions.actionsById (InMemoryActions.enqueueRequested e q s).2) = Some a ->
  mapGet id (InMemoryActions.actionsById s) = Some a \/
  exists n, a = new_action n (externalActionRequestDigest q) q (env_now e).
Proof.
  intros Hs Hroom. destruct (enqueue_effect q e s Hs Hroom) as (s' & He & _ & Hsame).
  simpl in Hsame. rewrite run_snd in Hsame. rewrite Hsame.
  inversion He as [|? ? ? ? ? ? ? Hl|q' Hq']; subst; [by left|done|].
  injection Hq' as <-. simpl. rewrite mapGet_set. case_bool_decide; [|by left].
  intros [= <-]. right. eauto.
Qed.

Lemma enqueue_keeps_actions e q s id a : act_inv s -> room s ->
  mapGet id (InMemoryActions.actionsById s) = Some a ->
  mapGet id (InMemoryActions.actionsById (InMemoryActions.enqueueRequested e q s).2) = Some a.
Proof.
  intros Hs Hroom Ha. destruct (exec_step (AEnqueue q) e s Hs Hroom) as (_ & _ & Hstep).
  simpl in Hstep. rewrite run_snd in Hstep.
  destruct (Hstep id a Ha) as (a' & Ha' & [[-> _]|(l & _ & _ & _ & Hl & _)]); done.
Qed.

(** ** What an accepted request runs *)

Definition signalAccepted (result : IngestSignalResult) : Response :=
  mkResponse 202 [("accepted", JBool true); ("inserted", JBool (negb (ir_isDuplicate result)));
    ("signalId", JStr (string_of_N (sg_id (ir_event result))))].

Lemma envelope_event v fs : n8nCanonicalSignalEnvelopeSchema v = Ok (Some (JObj fs)) ->
  truthy (Some (text_at "eventId" fs)) = true.
Proof.
  intros (o & fs' & _ & Hf & [= <-])%j_object_some.
  apply (j_fields_get _ _ _ "eventId" (j_string 1 255)) in Hf; [|apply (bool_decide_unpack _); vm_compute; exact I|left].
  unfold text_at. revert Hf. destruct (mapGet "eventId" o) as [[| | |e| |]|]; try done. simpl.
  destruct (length_in 1 255 e) eqn:He; [|done]. intros [= <-]. by destruct e.
Qed.

Definition resultAccepted (result : RecordExternalActionOutcomeResult) : Response :=
  mkResponse 202 [("accepted", JBool true); ("duplicate", JBool (rr_isDuplicate result));
    ("actionId", JStr (ea_actionId (rr_action result)));
    ("externalActionId", JStr (ea_id (rr_action result)));
    ("state", JStr (ExternalActionState_str (ea_state (rr_action result))))].

Definition dispatchAccepted (tenantId idempotencyKey : string) (result : EnqueueExternalActionResult) : Response :=
  mkResponse 202 [("accepted", JBool true); ("actionId", JStr (ea_actionId (er_action result)));
    ("externalActionId", JStr (ea_id (er_action result)));
    ("state", JStr (ExternalActionState_str (ea_state (er_action result))));
    ("duplicate", JBool (er_isDuplicate result)); ("eventId", JStr (oe_id (er_event result)));
    ("trackingId", JStr (tenantId +:+ ":" +:+ idempotencyKey));
    ("eventType", JStr (oe_eventType (er_event result)))].

Lemma signals_reaches env tn ik sg raw w : accepted (signals env tn ik sg raw w) ->
  exists p, zod_uuid (ip_tenantId p) = true /\ truthy (ip_externalId p) = true /\
    forall env w, signals env tn ik sg raw w =
      (result ← on_signals env (fun e => InMemorySignals.ingest e p); mret (signalAccepted result)) w.
Proof.
  unfold postSignals, tenantIdHeaderSchema.
  repeat (case_match; try discriminate; try solve [skip_refusal]).
  all: unfold lift; destruct (enum_field _ _ _) as [ty|]; [|skip_refusal]; intros _; subst;
    eexists; split_and!; [| |intros; by rewrite (bind_eq _ _ _ ty _ eq_refl)]; simpl;
    [by match goal with E : uuid _ = Ok _ |- _ => apply uuid_ok in E as [? ->] end|by eapply envelope_event].
Qed.

Lemma results_reaches env sg raw w : accepted (results env sg raw w) ->
  exists i, forall env w, results env sg raw w =
    (outcome ← catching (on_actions env (fun e => input ← lift i; InMemoryActions.recordOutcome e input));
     match outcome with
     | Ok result => mret (resultAccepted result)
     | Err (ExternalActionNotFoundError _ as e) => mret (refusal 404 (action_error_message e))
     | Err (ExternalActionConflictError _ as e) | Err (ExternalActionStateError _ as e) =>
         mret (refusal 409 (action_error_message e))
     | Err e => throw e
     end) w.
Proof.
  unfold postDispatchResults. repeat (case_match; try discriminate; try solve [skip_refusal]).
  intros _. by exists (outcomeOf fields).
Qed.

Lemma dispatch_reaches env tn body w : refused (dispatched env tn body w) w \/
  exists tenantId object request, tn = Some tenantId /\ body = Ok (JObj object) /\
    n8nTypedDispatchRequestSchema object = Ok request /\ text_at "tenantId" request = tenantId /\
    forall env w, dispatched env tn body w =
      (result ← on_actions env (fun e => InMemoryActions.enqueueRequested e (actionRequest tenantId request));
       mret (dispatchAccepted tenantId (text_at "idempotencyKey" request) result)) w.
Proof.
  unfold postDispatch, tenantIdHeaderSchema.
  repeat (case_match; try discriminate; try solve [left; refuse]).
  right. match goal with E : uuid _ = Ok _ |- _ => apply uuid_ok in E as [_ ->] end.
  match goal with E : (_ ≫= _) = Ok ?r, N : negb _ = false |- _ =>
    apply negb_false_iff, String.eqb_eq in N; rename r into request; revert E end.
  destruct a0 as [| | | | |object]; msimpl; try done. destruct (n8nTypedDispatchRequestSchema object) eqn:Hp; [|done].
  intros [= ->]. by exists s, object, request.
Qed.

(** A dispatch request stays in the tenant of its header: whatever the
    database does, it leaves the signals and every stored action as they were,
    and the only action it can add is the one its body describes, freshly
    requested, of the tenant that both the header and the body name; an
    accepted request is stored under that tenant with the action id of its
    body. *)
Theorem dispatch_stays_in_tenant env tn body w : routes_inv w ->
  let x := dispatched env tn body w in
  let before := InMemoryActions.actionsById (nw_actions w) in
  let after := InMemoryActions.actionsById (nw_actions x.2) in
  nw_signals x.2 = nw_signals w /\
  (forall id a, mapGet id before = Some a -> mapGet id after = Some a) /\
  (forall id a, mapGet id after = Some a -> mapGet id before = Some a \/
     exists object request n, body = Ok (JObj object) /\
       n8nTypedDispatchRequestSchema object = Ok request /\ tn = Some (text_at "tenantId" request) /\
       let q := actionRequest (text_at "tenantId" request) request in
       a = new_action n (externalActionRequestDigest q) q (env_now env.1)) /\
  (accepted x -> exists id a object, mapGet id after = Some a /\ tn = Some (ea_tenantId a) /\
     body = Ok (JObj object) /\ mapGet "actionId" object = Some (JStr (ea_actionId a))).
Proof.
  intros [Hsig Hs Hr _] x before after. unfold after, x.
  assert (room (nw_actions w)) as Hroom by (unfold room; lia).
  destruct (dispatch_reaches env tn body w) as [[-> Hno]|(tenantId & object & request & -> & -> & Hp & Ht & ->)].
  { split_and!; [done|done|intros; by left|by intros ?%Hno]. }
  rewrite answered_state. set (q := actionRequest tenantId request). split_and!.
  - by destruct (on_actions_state env (fun e => InMemoryActions.enqueueRequested e q) w) as [->| ->].
  - intros id a Ha. destruct (on_actions_state env (fun e => InMemoryActions.enqueueRequested e q) w)
      as [->| ->]; [done|]. by apply enqueue_keeps_actions.
  - intros id a Ha. destruct (on_actions_state env (fun e => InMemoryActions.enqueueRequested e q) w)
      as [E|E]; rewrite E in Ha; [by left|].
    destruct (enqueued_actions _ _ _ _ _ Hs Hroom Ha) as [|[n ->]]; [by left|right].
    exists object, request, n. by rewrite Ht.
  - intros (resp & Hx & _). destruct (on_actions _ _ w) as [[res|e] w'] eqn:Hon; unfold mbind, M_bind in Hx;
      rewrite Hon in Hx; [|done].
    apply on_actions_ok in Hon as [_ Hon].
    destruct (request_accepted _ _ _ _ _ Hs Hroom Hon) as (_ & _ & _ & Ha & Hat & Haid & _).
    exists (ea_id (er_action res)), (er_action res), object. split_and!; [done|by rewrite Hat|done|].
    rewrite Haid. simpl. by apply typed_action_id.
Qed.

(** The answer to the second delivery: the first one's, but for one field. *)
Definition redelivered (k : string) (b : bool) (resp : Response) : Response :=
  mkResponse (rsp_status resp) (mapSet k (JBool b) (rsp_body resp)).

Lemma answered {A B} (m : M (N8nWorld O) A) (f : A -> B) w b w' : (a ← m; mret (f a)) w = (Ok b, w') ->
  exists a, m w = (Ok a, w') /\ b = f a.
Proof. intros (a & w1 & Hr & [= <- <-])%bind_ok. eauto. Qed.

Lemma same_request_refl q : same_request q q.
Proof. split_and!; try done. constructor. Qed.

Lemma enqueue_room e q s : act_inv s -> (InMemoryActions.sequence s + 4 < 10 ^ 12)%N ->
  room (InMemoryActions.enqueueRequested e q s).2.
Proof.
  intros Hs Hr. destruct (exec_step (AEnqueue q) e s Hs) as (_ & Hle & _); [unfold room; lia|].
  simpl in Hle. rewrite run_snd in Hle. unfold room. lia.
Qed.

(** n8n may deliver again: a signal, a dispatch request or a result that
    was answered 202, sent again as it was, is answered with the same ids and
    the same state, flagged as not inserted or as a duplicate, and changes
    nothing, neither the repositories nor the outbox. *)
Theorem n8n_redelivery_changes_nothing env env' w w' : routes_inv w -> env'.2 = NoFault ->
  (forall tn ik sg raw resp, signals env tn ik sg raw w = (Ok resp, w') -> rsp_status resp = 202 ->
     signals env' tn ik sg raw w' = (Ok (redelivered "inserted" false resp), w')) /\
  (forall tn body resp, dispatched env tn body w = (Ok resp, w') -> rsp_status resp = 202 ->
     dispatched env' tn body w' = (Ok (redelivered "duplicate" true resp), w')) /\
  (forall sg raw resp, results env sg raw w = (Ok resp, w') -> rsp_status resp = 202 ->
     results env' sg raw w' = (Ok (redelivered "duplicate" true resp), w')).
Proof.
  intros [Hsig Hs Hr Hob] Hnf. assert (room (nw_actions w)) as Hroom by (unfold room; lia). split_and!.
  - intros tn ik sg raw resp Hx Hst.
    destruct (signals_reaches env tn ik sg raw w) as (p & Ht & Hext & E); [rewrite Hx; by exists resp|].
    rewrite E in Hx |- *. apply answered in Hx as (res & Hon & ->).
    apply on_signals_ok in Hon as [_ Hi]. apply (ingested_again _ env'.1 _ _ _ _ Hsig Ht Hext) in Hi.
    rewrite (bind_eq _ _ _ _ _ (on_signals_again _ _ _ _ Hnf Hi)). reflexivity.
  - intros tn body resp Hx Hst.
    destruct (dispatch_reaches env tn body w) as [[_ Hno]|(tenantId & object & request & _ & _ & _ & _ & E)].
    { destruct Hno. rewrite Hx. by exists resp. }
    rewrite E in Hx |- *. apply answered in Hx as (res & Hon & ->).
    apply on_actions_ok in Hon as [_ Hq].
    pose proof (enqueue_room env.1 (actionRequest tenantId request) _ Hs Hr) as Hroom'. rewrite Hq in Hroom'.
    apply (request_replayed _ env'.1 _ (actionRequest tenantId request) _ _ _ Hs Hroom Hroom' Hob) in Hq;
      [|apply same_request_refl].
    rewrite (bind_eq _ _ _ _ _ (on_actions_again _ _ _ _ Hnf Hq)). reflexivity.
  - intros sg raw resp Hx Hst.
    destruct (results_reaches env sg raw w) as [i E]; [rewrite Hx; by exists resp|].
    rewrite E in Hx |- *. apply bind_ok in Hx as (r & w1 & Hc & Hx).
    unfold catching in Hc. destruct (on_actions _ _ w) as [r0 w0] eqn:Hon. injection Hc as <- <-.
    destruct r0 as [res|[]]; try (injection Hx as <- <-; done); try done. injection Hx as <- <-.
    apply on_actions_ok in Hon as [_ Hq]. apply bind_ok in Hq as (j & s1 & [= -> <-] & Hq).
    apply (outcome_again _ env'.1 _ _ _ _ Hs Hroom) in Hq.
    rewrite (bind_eq _ _ _ (Ok (mkOutcomeResult (rr_action res) true)) w0); [reflexivity|].
    unfold catching. by rewrite (on_actions_again _ _ _ (mkOutcomeResult (rr_action res) true) Hnf).
Qed.
End theorems.

(** ** Witnesses *)

Module N8nRoutesExample.
Import ZodExample ShaExample N8nExample.
#[export] Existing Instance ActionExample.example_ids.

Definition deps : N8nRouteDependencies :=
  mkN8nDeps true true (Some "s3cret") true None (Some "https://growth/results").
Definition start : N8nWorld InMemoryOutbox.State :=
  mkN8nWorld InMemorySignals.init (init InMemoryOutbox.init).
Definition no_json (_ : string) : result json := Err ZodError.
Definition no_errors (_ : json) : json := JNull.
Definition body : result json := Ok (JObj payload).
Definition first : result Response * N8nWorld InMemoryOutbox.State :=
  postDispatch no_errors deps (env1, NoFault) (Some tenant) body start.
Definition first_response : Response := match first.1 with Ok r => r | Err _ => mkResponse 0 [] end.

Lemma start_inv : routes_inv start.
Proof. split; [apply signal_inv_init|apply act_inv_init|vm_compute; done|apply outbox_inv_init]. Qed.
End N8nRoutesExample.

Section witnesses.
Import ZodExample ShaExample N8nExample N8nRoutesExample.

Lemma n8n_writes_are_signed_witness :
  (postSignals (O := InMemoryOutbox.State) no_json no_errors deps (env1, NoFault) (Some tenant) (Some "k") None
     "body" start).2 = start.
Proof.
  destruct (n8n_writes_are_signed (O := InMemoryOutbox.State) no_json no_errors deps (env1, NoFault)
    (Some tenant) (Some "k") None "body" start _ (or_introl eq_refl)) as [(? & ? & _ & _ & [=] & _)|[Hw _]].
  exact Hw.
Defined.

Lemma dispatch_stays_in_tenant_witness :
  exists a, mapGet (InMemoryActions.id_text 1) (InMemoryActions.actionsById (nw_actions first.2)) = Some a /\
    tenant = ea_tenantId a /\ ea_approvedBy a = "founder".
Proof.
  destruct (dispatch_stays_in_tenant no_errors deps (env1, NoFault) (Some tenant) body start start_inv)
    as (_ & _ & Hnew & _). fold first in Hnew.
  destruct (mapGet (InMemoryActions.id_text 1) (InMemoryActions.actionsById (nw_actions first.2))) as [a|] eqn:Ha.
  2: { vm_compute in Ha. discriminate Ha. }
  exists a. split; [done|].
  destruct (Hnew _ _ Ha) as [H|(object & request & n & [= <-] & Hq & [= Ht] & ->)]; [discriminate H|].
  split; [exact Ht|]. vm_compute in Hq. injection Hq as <-. reflexivity.
Defined.

Lemma n8n_redelivery_changes_nothing_witness :
  postDispatch no_errors deps (env2, NoFault) (Some tenant) body first.2 =
    (Ok (redelivered "duplicate" true first_response), first.2).
Proof.
  apply (n8n_redelivery_changes_nothing no_json no_errors deps (env1, NoFault) (env2, NoFault) start first.2
    start_inv eq_refl); vm_compute; reflexivity.
Defined.
End witnesses.
