(* ===== verification/Provisioning.v ===== *)
(** * Tenant provisioning

    [packages/core/src/tenant-provisioning.ts] (the orchestrator of the seven
    idempotent steps), [packages/secrets/src/tenant-secrets-service.ts] (the
    part that writes a tenant's secrets) and
    [apps/worker-workflow-callback/src/]: the requested event
    ([tenant-provisioning-request.ts]), the reporter
    ([outbox-progress-reporter.ts]) and the worker
    ([workflow-callback-worker.ts]) with both its paths.  What the
    environment does at each call - the time, a database fault, the answers
    of the external clients and of the workflow runtime - is the [moment] of
    that call; a history of attempts runs along a script of moments.  The
    clients are interfaces in the source: their answers are parameters. *)

From S2P Require Import Prelude Numbers JsRuntime Json Domain Zod ZodJson Sql Outbox Subjects Workflow WorkflowEvents.
Import WorkflowState.

(** ** The external systems *)

Inductive ProvisioningStep :=
  | zitadel_org | paperclip_company | gitea_workspace_repo | nats_consumer_groups
  | minio_bucket | lago_customer | seed_founder_doc.

#[export] Instance ProvisioningStep_eq_dec : EqDecision ProvisioningStep.
Proof. solve_decision. Defined.

Definition ProvisioningStep_str (s : ProvisioningStep) : string :=
  match s with
  | zitadel_org => "zitadel_org"
  | paperclip_company => "paperclip_company"
  | gitea_workspace_repo => "gitea_workspace_repo"
  | nats_consumer_groups => "nats_consumer_groups"
  | minio_bucket => "minio_bucket"
  | lago_customer => "lago_customer"
  | seed_founder_doc => "seed_founder_doc"
  end.

(** The requests to the external systems, with their parameters. *)
Inductive ClientCall :=
  | CreateOrg (name : string)
  | CreateServiceAccount (orgId userName displayName : string)
  | ProvisionCompany (tenantId externalId name : string)
  | ProvisionWorkspaceRepo (tenantId templateRepo repoName : string)
  | ProvisionConsumerGroup (tenantId filterSubject consumerName : string)
  | ProvisionBucket (bucketName tenantId : string)
  | CreateCustomer (externalId name : string)
  | AssignPlan (customerExternalId planCode subscriptionExternalId : string)
  | CreateOrUpdateFile (tenantId repoName filePath content commitMessage : string)
  | PutSecret (path value : string).

(** Their answers: an identifier and, where the interface says so, whether
    the resource is new. *)
Record Clients := mkClients {
  cl_createOrg : string -> result (string * string);
  cl_createServiceAccount : string -> string -> string -> result unit;
  cl_provisionCompany : string -> string -> string -> result (string * bool);
  cl_provisionWorkspaceRepo : string -> string -> string -> result (string * bool);
  cl_provisionConsumerGroup : string -> string -> string -> result (string * bool);
  cl_provisionBucket : string -> string -> result (string * bool);
  cl_createCustomer : string -> string -> result string;
  cl_assignPlan : string -> string -> string -> result (string * string);
  cl_createOrUpdateFile : string -> string -> string -> string -> string -> result (string * bool);
  cl_putSecret : string -> string -> result unit;
}.

(** ** Names *)

Definition PLAN_CODE_MOTION_ACTIVE : string := "motion_active".

Definition tenantBucketName (tenantId : string) : string := "growthos-" +:+ tenantId.
Definition tenantWorkspaceRepoName (tenantId : string) : string := "workspace-" +:+ tenantId.
Definition tenantNatsConsumerName (tenantId : string) : string := "tenant-" +:+ tenantId +:+ "-all".
Definition tenantNatsFilterSubject (tenantId : string) : string := "t." +:+ tenantId +:+ ".>".
Definition tenantZitadelOrgName (tenantName : string) : string := "growthos-" +:+ tenantName.
Definition tenantLagoCustomerId (tenantId : string) : string := tenantId.
Definition tenantLagoMotionSubId (tenantId : string) : string := tenantId +:+ "-motion-active".

Definition FOUNDER_MD_TEMPLATE (tenantName tenantId : string) : string :=
  "# " +:+ tenantName +:+ " — GrowthOS Workspace

Tenant ID: `" +:+ tenantId +:+ "`

## Mission

This repository is the working memory for your GrowthOS agents. Skills, playbooks,
brand context, and approved content live here. Agents read from and write to this
workspace under your direction.

## Directory structure

```
docs/
  FOUNDER.md        — this file (founder profile + brand context)
  brand_rules.md    — positioning rules, approved stats, competitor notes
skills/             — tenant-specific skill overrides (optional)
content/            — approved drafts, published pieces
intel/              — weekly intelligence briefs
```

## Founder profile

<!-- Fill in: your name, role, preferred communication style, vocabulary to use/avoid -->

## Brand context

<!-- Fill in: one-sentence positioning, ICP description, top 3 proof points, approved stats -->

## Setup checklist

- [ ] Complete the Founder profile section
- [ ] Complete the Brand context section
- [ ] Run motion scoring: `POST /v1/motions/score` with your company signals
- [ ] Review and approve your motion stack
".

(** ** The world of the worker *)

(** What happens around one call. *)
Record moment := mkMoment {
  mo_env : call_env;
  mo_fault : fault;
  mo_clients : Clients;
  mo_runtime : result TenantProvisioningRuntimeState;
}.

Record ProvisioningWorld (O : Type) := mkProvisioningWorld {
  vw_runs : jsmap WorkflowRun;
  vw_outbox : O;
  vw_calls : list ClientCall;
  vw_tick : nat;
}.
Arguments mkProvisioningWorld {O} vw_runs vw_outbox vw_calls vw_tick.
Arguments vw_runs {O} p.
Arguments vw_outbox {O} p.
Arguments vw_calls {O} p.
Arguments vw_tick {O} p.

Record ProvisioningStepResult := mkStepResult {
  sr_step : ProvisioningStep;
  sr_skipped : bool;
  sr_output : jobject;
}.

Record TenantProvisioningResult := mkProvisioningResult {
  tp_tenantId : string;
  tp_workflowId : string;
  tp_steps : list ProvisioningStepResult;
  tp_completedAt : string;
}.

(** [/^[a-z0-9_/-]+$/] *)
Definition secret_char (c : Ascii.ascii) : bool :=
  is_lower c || is_digit c || bool_decide (Ascii.nat_of_ascii c ∈ [95; 47; 45]%nat).
Definition secretPathSchema : string -> result string :=
  refine (fun s => (1 <=? String.length s)%nat && forallb secret_char (String.list_ascii_of_string s)).

(** [z.string().min(1).max(128)] for the name, as the orchestrator wants it. *)
Definition tenantProvisioningInputV1Schema `{Zod} (i : TenantProvisioningWorkflowInput) :
    result TenantProvisioningWorkflowInput :=
  tn ← uuid (wi_tenantId i); name ← bounded_text 1 128 (wi_tenantName i);
  ext ← min1_text (wi_tenantExternalId i); by_ ← min1_text (wi_requestedBy i);
  wf ← min1_text (wi_workflowId i); dk ← min1_text (wi_dedupeKey i);
  mret (mkProvisioning tn wf dk ext name by_).

Section provisioning.
Context `{Zod} `{ZodFormats} `{ErrorText} {O : Type} `{!OutboxPort O}.
Context (script : nat -> moment).

(** The moment of the next call. *)
Definition next : M (ProvisioningWorld O) moment := fun w =>
  (Ok (script (vw_tick w)), mkProvisioningWorld (vw_runs w) (vw_outbox w) (vw_calls w) (vw_tick w + 1)).

Definition on_runs {A} (m : call_env -> M (jsmap WorkflowRun) A) : M (ProvisioningWorld O) A :=
  mo ← next;
  faulty (mo_fault mo) (fun w => let '(r, s) := m (mo_env mo) (vw_runs w) in
    (r, mkProvisioningWorld s (vw_outbox w) (vw_calls w) (vw_tick w))).

(** Build a command at the time of the call and enqueue it. *)
Definition emit (command : Z -> result EnqueueOutboxEvent) : M (ProvisioningWorld O) unit :=
  mo ← next;
  c ← lift (command (env_now (mo_env mo)));
  faulty (mo_fault mo) (fun w => let '(r, o) := outbox_enqueue (mo_env mo) c (vw_outbox w) in
    (r, mkProvisioningWorld (vw_runs w) o (vw_calls w) (vw_tick w)));;
  mret tt.

(** A request to an external system leaves, then is answered. *)
Definition client {A} (call : ClientCall) (answer : Clients -> result A) : M (ProvisioningWorld O) A :=
  mo ← next;
  modify (fun w => mkProvisioningWorld (vw_runs w) (vw_outbox w) (vw_calls w ++ [call]) (vw_tick w));;
  lift (answer (mo_clients mo)).

(** ** The orchestrator *)

(** [ProvisioningProgressReporter.report] *)
Context (report : ProvisioningStep -> Z -> string -> M (ProvisioningWorld O) unit).

Definition zitadelStep (i : TenantProvisioningWorkflowInput) : M (ProvisioningWorld O) ProvisioningStepResult :=
  report zitadel_org 5 ("Provisioning Zitadel organisation for " +:+ wi_tenantName i);;
  let name := tenantZitadelOrgName (wi_tenantName i) in
  org ← client (CreateOrg name) (fun c => cl_createOrg c name);
  client (CreateServiceAccount (org : string * string).1 "growthos-api" "GrowthOS API Service Account")
    (fun c => cl_createServiceAccount c org.1 "growthos-api" "GrowthOS API Service Account");;
  mret (mkStepResult zitadel_org false [("orgId", JStr org.1); ("orgName", JStr org.2)]).

Definition paperclipStep (i : TenantProvisioningWorkflowInput) : M (ProvisioningWorld O) ProvisioningStepResult :=
  report paperclip_company 15 ("Provisioning Paperclip company for " +:+ wi_tenantName i);;
  company ← client (ProvisionCompany (wi_tenantId i) (wi_tenantExternalId i) (wi_tenantName i))
    (fun c => cl_provisionCompany c (wi_tenantId i) (wi_tenantExternalId i) (wi_tenantName i));
  mret (mkStepResult paperclip_company (negb (company : string * bool).2) [("companyId", JStr company.1)]).

Definition giteaStep (i : TenantProvisioningWorkflowInput) : M (ProvisioningWorld O) ProvisioningStepResult :=
  report gitea_workspace_repo 35 ("Provisioning workspace repository for tenant " +:+ wi_tenantId i);;
  let repoName := tenantWorkspaceRepoName (wi_tenantId i) in
  repo ← client (ProvisionWorkspaceRepo (wi_tenantId i) "growthos-ws-template" repoName)
    (fun c => cl_provisionWorkspaceRepo c (wi_tenantId i) "growthos-ws-template" repoName);
  mret (mkStepResult gitea_workspace_repo (negb (repo : string * bool).2) [("repoUrl", JStr repo.1)]).

Definition natsStep (i : TenantProvisioningWorkflowInput) : M (ProvisioningWorld O) ProvisioningStepResult :=
  report nats_consumer_groups 52 ("Provisioning NATS consumer group for tenant " +:+ wi_tenantId i);;
  let filterSubject := tenantNatsFilterSubject (wi_tenantId i) in
  let consumerName := tenantNatsConsumerName (wi_tenantId i) in
  group ← client (ProvisionConsumerGroup (wi_tenantId i) filterSubject consumerName)
    (fun c => cl_provisionConsumerGroup c (wi_tenantId i) filterSubject consumerName);
  mret (mkStepResult nats_consumer_groups (negb (group : string * bool).2) [("consumerName", JStr group.1)]).

Definition minioStep (i : TenantProvisioningWorkflowInput) : M (ProvisioningWorld O) ProvisioningStepResult :=
  let bucketName := tenantBucketName (wi_tenantId i) in
  report minio_bucket 67 ("Provisioning MinIO bucket " +:+ bucketName);;
  bucket ← client (ProvisionBucket bucketName (wi_tenantId i))
    (fun c => cl_provisionBucket c bucketName (wi_tenantId i));
  mret (mkStepResult minio_bucket (negb (bucket : string * bool).2) [("bucketName", JStr bucket.1)]).

Definition lagoStep (i : TenantProvisioningWorkflowInput) : M (ProvisioningWorld O) ProvisioningStepResult :=
  report lago_customer 80 ("Provisioning Lago billing customer for tenant " +:+ wi_tenantId i);;
  let customerId := tenantLagoCustomerId (wi_tenantId i) in
  customer ← client (CreateCustomer customerId (wi_tenantName i))
    (fun c => cl_createCustomer c customerId (wi_tenantName i));
  let subId := tenantLagoMotionSubId (wi_tenantId i) in
  sub ← client (AssignPlan customerId PLAN_CODE_MOTION_ACTIVE subId)
    (fun c => cl_assignPlan c customerId PLAN_CODE_MOTION_ACTIVE subId);
  mret (mkStepResult lago_customer false
    [("lagoCustomerId", JStr customer); ("subscriptionId", JStr (sub : string * string).1);
     ("planCode", JStr sub.2)]).

Definition founderDocStep (i : TenantProvisioningWorkflowInput) : M (ProvisioningWorld O) ProvisioningStepResult :=
  report seed_founder_doc 90 "Seeding FOUNDER.md in workspace repository";;
  let repoName := tenantWorkspaceRepoName (wi_tenantId i) in
  let content := FOUNDER_MD_TEMPLATE (wi_tenantName i) (wi_tenantId i) in
  let message := "chore: seed FOUNDER.md from GrowthOS template" in
  file ← client (CreateOrUpdateFile (wi_tenantId i) repoName "docs/FOUNDER.md" content message)
    (fun c => cl_createOrUpdateFile c (wi_tenantId i) repoName "docs/FOUNDER.md" content message);
  mret (mkStepResult seed_founder_doc (negb (file : string * bool).2) [("sha", JStr file.1)]).

(** [TenantProvisioningOrchestrator.run] *)
Definition run (input : TenantProvisioningWorkflowInput) : M (ProvisioningWorld O) TenantProvisioningResult :=
  parsed ← lift (tenantProvisioningInputV1Schema input);
  s0 ← zitadelStep parsed;
  s1 ← paperclipStep parsed;
  s2 ← giteaStep parsed;
  s3 ← natsStep parsed;
  s4 ← minioStep parsed;
  s5 ← lagoStep parsed;
  s6 ← founderDocStep parsed;
  report seed_founder_doc 100 ("Tenant " +:+ wi_tenantName parsed +:+ " provisioned successfully");;
  mo ← next;
  mret (mkProvisioningResult (wi_tenantId parsed) (wi_workflowId parsed) [s0; s1; s2; s3; s4; s5; s6]
    (toISOString (env_now (mo_env mo)))).
End provisioning.

(** ** Secrets *)

Section secrets.
Context `{Zod} {O : Type} (script : nat -> moment).

Definition scopedPath (tenantId key : string) : result string :=
  tenantIdSchema tenantId;; secretPathSchema ("tenants/" +:+ tenantId +:+ "/" +:+ key).

(** [TenantSecretsService.put] *)
Definition putSecret (tenantId key value : string) : M (ProvisioningWorld O) unit :=
  path ← lift (scopedPath tenantId key);
  client script (PutSecret path value) (fun c => cl_putSecret c path value).

(** [Promise.all]: every write is started; the first failure is the outcome. *)
Fixpoint put_all (tenantId : string) (secrets : list (string * string)) : M (ProvisioningWorld O) unit :=
  match secrets with
  | [] => mret tt
  | (key, value) :: rest =>
      first ← catching (putSecret tenantId key value);
      others ← catching (put_all tenantId rest);
      lift (first;; others)
  end.

Definition provisionTenant (tenantId : string) (secrets : list (string * string)) :
    M (ProvisioningWorld O) unit :=
  put_all tenantId (bfilter (fun kv => negb (String.eqb kv.2 "")) secrets).
End secrets.

(** ** The requested event *)

Definition MISMATCH : js_error := JsError "Tenant provisioning payload tenant does not match subject".

Section requested_event.
Context `{Zod}.

(** [tenantProvisioningRequestedOutboxPayloadSchema]: its tenant and dedupe
    key may be missing. *)
Definition parseRequestedPayload (p : jobject) :
    result (option string * option string * (string * string * string * string)) :=
  tn ← optional_field (string_field uuid) (mapGet "tenant_id" p);
  wf ← string_field min1_text (mapGet "workflow_id" p);
  dk ← optional_field (string_field min1_text) (mapGet "dedupe_key" p);
  ext ← string_field min1_text (mapGet "tenant_external_id" p);
  name ← string_field min1_text (mapGet "tenant_name" p);
  by_ ← string_field min1_text (mapGet "requested_by" p);
  mret (tn, dk, (wf, ext, name, by_)).

Definition parseTenantProvisioningRequestedEvent (payload : jobject) (subject : string) :
    result TenantProvisioningWorkflowInput :=
  tenantId ← tenantIdFromTenantScopedSubject subject;
  match parseProvisioningInput payload with
  | Ok data => if negb (String.eqb (wi_tenantId data) tenantId) then Err MISMATCH else mret data
  | Err _ =>
      '(tenant, dedupe, (wf, ext, name, by_)) ← parseRequestedPayload payload;
      if truthy tenant && negb (bool_decide (tenant = Some tenantId)) then Err MISMATCH
      else tenantProvisioningWorkflowInputSchema (mkProvisioning tenantId wf (dedupe ?: wf) ext name by_)
  end.

(** [enqueueWorkflowCallbackDeadLetter]: the command it enqueues *)
Definition workflowCallbackDeadLetter (now : Z) (payload : option jobject) (subject : string)
    (streamSequence redeliveryCount : Z) (error : string) : result EnqueueOutboxEvent :=
  tenantId ← tenantIdFromTenantScopedSubject subject;
  mret (mkEnqueue tenantId "worker.dead_lettered.v1"
    ("workflow-callback:" +:+ num_to_string (num_of_Z streamSequence))
    [("worker", JStr "workflow_callback"); ("source_subject", JStr subject);
     ("stream_sequence", jint streamSequence); ("redelivery_count", jint redeliveryCount);
     ("error", JStr error); ("failed_payload", JObj (payload ?: []));
     ("occurred_at", JStr (toISOString now))]).
End requested_event.

(** ** The worker *)

Definition orchestrator_cid (wf what : string) : string := "orchestrator:" +:+ wf +:+ ":" +:+ what.
Definition restate_cid (wf : string) : string := "worker-callback:" +:+ wf.
Definition PROVISIONING_ERROR : string := "PROVISIONING_ERROR".

Section worker.
Context `{Zod} `{ErrorText} {O : Type} `{!OutboxPort O}.
Context (script : nat -> moment).

(** [OutboxProvisioningProgressReporter.report] *)
Definition outboxReport (ctx : TenantProvisioningWorkflowInput) (step : ProvisioningStep)
    (progressPercent : Z) (message : string) : M (ProvisioningWorld O) unit :=
  let callbackId := orchestrator_cid (wi_workflowId ctx)
    (ProvisioningStep_str step +:+ ":" +:+ num_to_string (num_of_Z progressPercent)) in
  emit script (fun now => createTenantProvisioningProgressOutboxCommand now
    (mkRuntimeCallback ctx callbackId (Some cb_progress) None (Some (ProvisioningStep_str step))
       (Some message) (Some (num_of_Z progressPercent)) None None)).

Definition is_over (r : WorkflowRun) : bool :=
  bool_decide (run_state r = run_completed) || bool_decide (run_state r = run_failed).

(** Create the run if it is not there, and take it in progress. *)
Definition upsertRun (i : TenantProvisioningWorkflowInput) : M (ProvisioningWorld O) WorkflowRun :=
  on_runs script (fun env => InMemoryRuns.upsertRequested env (wi_tenantId i) (wi_workflowId i) (wi_dedupeKey i)).
Definition moveRun (i : TenantProvisioningWorkflowInput) (from to : WorkflowRunState) (code : option string) :
    M (ProvisioningWorld O) unit :=
  on_runs script (fun env => InMemoryRuns.transitionState env (wi_tenantId i) (wi_workflowId i) from to code);;
  mret tt.
Definition startRun (i : TenantProvisioningWorkflowInput) (r : WorkflowRun) : M (ProvisioningWorld O) unit :=
  if bool_decide (run_state r = run_requested) then moveRun i run_requested run_in_progress None else mret tt.

(** Announce the end of the run, then record it. *)
Definition completeRun (i : TenantProvisioningWorkflowInput) (callbackId : string) (runtimeRunId : option string) :
    M (ProvisioningWorld O) unit :=
  emit script (fun now => createTenantProvisioningCompletedOutboxCommand now
    (mkRuntimeCallback i callbackId (Some cb_completed) runtimeRunId None None None None None));;
  moveRun i run_in_progress run_completed None.
Definition failRun (i : TenantProvisioningWorkflowInput) (callbackId : string)
    (runtimeRunId code message : option string) : M (ProvisioningWorld O) unit :=
  emit script (fun now => createTenantProvisioningFailedOutboxCommand now
    (mkRuntimeCallback i callbackId (Some cb_failed) runtimeRunId None None None code message));;
  moveRun i run_in_progress run_failed code.

Definition stepHistory (completedAt : string) (s : ProvisioningStepResult) : RuntimeHistoryEvent :=
  let step := ProvisioningStep_str (sr_step s) in
  mkHistoryEvent step
    (step +:+ (if sr_skipped s then " skipped (already exists)" else " completed")) None completedAt.

(** The work that counts as provisioning: its failure fails the run. *)
Definition provision (secrets : option (list (string * string))) (request : TenantProvisioningWorkflowInput) :
    M (ProvisioningWorld O) TenantProvisioningResult :=
  result ← run script (outboxReport request) request;
  match secrets with
  | Some secrets => provisionTenant script (wi_tenantId request) secrets
  | None => mret tt
  end;;
  mret result.

Definition processWithOrchestrator (secrets : option (list (string * string)))
    (request : TenantProvisioningWorkflowInput) : M (ProvisioningWorld O) TenantProvisioningRuntimeState :=
  let tn := wi_tenantId request in
  let wf := wi_workflowId request in
  currentRun ← upsertRun request;
  if is_over currentRun
  then mret (mkRuntimeState wf tn None (run_state currentRun) [] (run_failureCode currentRun) None)
  else
    startRun request currentRun;;
    outcome ← catching (provision secrets request);
    match outcome with
    | Err err =>
        failRun request (orchestrator_cid wf "failed") None (Some PROVISIONING_ERROR)
          (Some (error_message err));;
        mret (mkRuntimeState wf tn None run_failed [] (Some PROVISIONING_ERROR) (Some (error_message err)))
    | Ok result =>
        completeRun request (orchestrator_cid wf "completed") None;;
        mret (mkRuntimeState (tp_workflowId result) (tp_tenantId result) None run_completed
          (stepHistory (tp_completedAt result) <$> tp_steps result) None None)
    end.

(** [runtimeStateVerifier.getTenantProvisioningRuntimeState] *)
Definition runtimeState : M (ProvisioningWorld O) TenantProvisioningRuntimeState :=
  mo ← next script; lift (mo_runtime mo).

Definition emitProgressEvent (request : TenantProvisioningWorkflowInput) (callbackId : string)
    (runtimeRunId : option string) (event : RuntimeHistoryEvent) : M (ProvisioningWorld O) unit :=
  emit script (fun now => createTenantProvisioningProgressOutboxCommand now
    (mkRuntimeCallback request callbackId (Some cb_progress) runtimeRunId (Some (he_step event))
       (Some (he_message event)) (he_percent event) None None)).

Fixpoint emitHistory (request : TenantProvisioningWorkflowInput) (callbackId : string)
    (runtimeRunId : option string) (events : list RuntimeHistoryEvent) : M (ProvisioningWorld O) unit :=
  match events with
  | [] => mret tt
  | event :: rest =>
      emitProgressEvent request callbackId runtimeRunId event;;
      emitHistory request callbackId runtimeRunId rest
  end.

Definition processWithRuntime (request : TenantProvisioningWorkflowInput) :
    M (ProvisioningWorld O) TenantProvisioningRuntimeState :=
  let callbackId := restate_cid (wi_workflowId request) in
  currentRun ← upsertRun request;
  if is_over currentRun then runtimeState
  else
    startRun request currentRun;;
    state ← runtimeState;
    emitHistory request callbackId (rt_runtimeRunId state) (rt_history state);;
    match rt_state state with
    | run_completed => completeRun request callbackId (rt_runtimeRunId state);; mret state
    | run_failed =>
        failRun request callbackId (rt_runtimeRunId state) (rt_failureCode state) (rt_failureMessage state);;
        mret state
    | other => throw (JsError ("Runtime state '" +:+ WorkflowRunState_str other +:+
        "' is not terminal for workflow callback completion"))
    end.

(** [direct] says whether the provisioning clients are injected. *)
Definition processTenantProvisioningCompletion (direct : bool) (secrets : option (list (string * string)))
    (input : jobject) : M (ProvisioningWorld O) TenantProvisioningRuntimeState :=
  request ← lift (parseProvisioningInput input);
  if direct then processWithOrchestrator secrets request else processWithRuntime request.

(** Deliveries of requests, one after the other; a failed one is retried by
    the consumer, as one more delivery. *)
Record delivery := mkDelivery {
  dv_direct : bool;
  dv_secrets : option (list (string * string));
  dv_input : jobject;
}.

Definition deliver (w : ProvisioningWorld O) (d : delivery) : ProvisioningWorld O :=
  (processTenantProvisioningCompletion (dv_direct d) (dv_secrets d) (dv_input d) w).2.
Definition deliveries (ds : list delivery) (w : ProvisioningWorld O) : ProvisioningWorld O :=
  fold_left deliver ds w.
End worker.

(** ** What an attempt may do *)

Section lemmas.
Context `{Z : Zod} {ZL : ZodLaws Z} `{ErrorText} {O : Type} {P : OutboxPort O} {OS : OutboxStore O P}.
Context (script : nat -> moment).
Implicit Types (w : ProvisioningWorld O) (i : TenantProvisioningWorkflowInput).

(** The keys under which the end of a run may be announced. *)
Definition closing_key (tn wf : string) (s : WorkflowRunState) (k : outbox_key) : Prop :=
  exists i cb, wi_tenantId i = tn /\
    match s with
    | run_completed => k = completed_key_of i cb /\ cb ∈ [orchestrator_cid wf "completed"; restate_cid wf]
    | run_failed => k = failed_key_of i cb /\ cb ∈ [orchestrator_cid wf "failed"; restate_cid wf]
    | _ => False
    end.

(** The end of the run is in the outbox. *)
Definition announced (r : WorkflowRun) (o : O) : Prop :=
  exists k, closing_key (run_tenantId r) (run_workflowId r) (run_state r) k /\ is_Some (stored_event o k).

Record world_inv w : Prop := {
  wv_runs : runs_inv (vw_runs w);
  wv_outbox : store_wf (vw_outbox w);
  wv_announced k r : mapGet k (vw_runs w) = Some r -> is_over r = true -> announced r (vw_outbox w);
}.

(** [K] bounds the events that may be added. *)
Definition keeps (K : outbox_key -> Prop) w w' : Prop :=
  world_inv w -> world_inv w' /\ outbox_grows (vw_outbox w) (vw_outbox w') /\
    forall k, is_Some (stored_event (vw_outbox w') k) -> is_Some (stored_event (vw_outbox w) k) \/ K k.

#[export] Instance keeps_preorder K : PreOrder (keeps K).
Proof.
  split.
  - intros w Hw. split_and!; [done|by intros k e|by left].
  - intros w1 w2 w3 H1 H2 Hw. destruct (H1 Hw) as (Hw2 & G1 & K1). destruct (H2 Hw2) as (Hw3 & G2 & K2).
    split_and!; [done|by etrans|]. intros k Hk. destruct (K2 k Hk) as [Hk'|]; [by apply K1|by right].
Qed.

Lemma announced_stays r o o' : outbox_grows o o' -> announced r o -> announced r o'.
Proof. intros Hg (k & Hk & [e He]). exists k. split; [done|]. exists e. by apply Hg. Qed.

(** The runs and the outbox stay as they are. *)
Lemma keeps_same K w w' : vw_runs w' = vw_runs w -> vw_outbox w' = vw_outbox w -> keeps K w w'.
Proof.
  intros Hr Ho [H1 H2 H3]. split_and!; [|by rewrite Ho|rewrite Ho; by left].
  split; rewrite ?Hr, ?Ho; done.
Qed.

Lemma next_keeps K : preserves (keeps K) (next (O := O) script).
Proof. intros w. by apply keeps_same. Qed.

Lemma lift_keeps K {A} (r : result A) : preserves (keeps K) (lift (S := ProvisioningWorld O) r).
Proof. intros w. done. Qed.

Lemma client_keeps K {A} call (answer : Clients -> result A) :
  preserves (keeps K) (client (O := O) script call answer).
Proof.
  unfold client. apply preserves_bind; [apply _|apply next_keeps|]. intros mo.
  apply preserves_bind; [apply _| |intros []; apply lift_keeps].
  intros w. by apply keeps_same.
Qed.

(** Commands that are well-formed, under keys [K]. *)
Definition commands_in (K : outbox_key -> Prop) (command : BinNums.Z -> result EnqueueOutboxEvent) : Prop :=
  forall now c, command now = Ok c -> command_ok c /\ K (command_key c).

Lemma enqueue_keeps K (env : call_env) c : command_ok c -> K (command_key c) ->
  preserves (keeps K) (fun w => let '(r, o) := outbox_enqueue env c (vw_outbox w) in
    (r, mkProvisioningWorld (vw_runs w) o (vw_calls w) (vw_tick w))).
Proof.
  intros Hc HK w [Hr Ho Ha]. destruct (enqueue_stored env c (vw_outbox w) Ho Hc)
    as (e & o' & -> & Ho' & Hg & _ & Hn).
  split_and!; [split; [done|done|]|done|].
  - intros k r Hk Hov. eapply announced_stays; [exact Hg|by eapply Ha].
  - intros k Hk. destruct (Hn k Hk) as [Hk1| ->]; auto.
Qed.

Lemma emit_keeps K command : commands_in K command -> preserves (keeps K) (emit (O := O) script command).
Proof.
  intros Hc. unfold emit. apply preserves_bind; [apply _|apply next_keeps|]. intros mo.
  destruct (command _) as [c|x] eqn:Hcmd; [|by intros w].
  destruct (Hc _ _ Hcmd) as [Hok HK].
  change (preserves (keeps K) (e ← faulty (mo_fault mo) (fun w =>
    let '(r, o) := outbox_enqueue (mo_env mo) c (vw_outbox w) in
    (r, mkProvisioningWorld (vw_runs w) o (vw_calls w) (vw_tick w))); mret tt)).
  apply preserves_bind; [apply _| |by intros e w].
  apply preserves_faulty; [apply _|by apply enqueue_keeps].
Qed.

(** A call to the runs, all of whose closed runs were closed before or are
    announced. *)
Lemma runs_keeps_at K {A} (m : call_env -> M (jsmap WorkflowRun) A) w :
  (forall env, runs_inv (vw_runs w) -> runs_inv (m env (vw_runs w)).2 /\
     forall k r, mapGet k (m env (vw_runs w)).2 = Some r -> is_over r = true ->
       mapGet k (vw_runs w) = Some r \/ announced r (vw_outbox w)) ->
  keeps K w (on_runs (O := O) script m w).2.
Proof.
  intros Hm. unfold on_runs. rewrite (bind_eq _ _ w (script (vw_tick w))
    (mkProvisioningWorld (vw_runs w) (vw_outbox w) (vw_calls w) (vw_tick w + 1))) by done.
  set (w1 := mkProvisioningWorld _ _ _ _). set (op := fun w0 : ProvisioningWorld O => _).
  destruct (faulty_state (mo_fault (script (vw_tick w))) op w1) as [->| ->]; [by apply keeps_same|].
  intros [Hr Ho Ha]. unfold op. simpl. destruct (Hm (mo_env (script (vw_tick w))) Hr) as [Hr' Hn].
  destruct (m _ _) as [x s]. simpl in *. split_and!; [|by intros k e|by left].
  split; [done|done|]. intros k r Hk Hov. destruct (Hn k r Hk Hov) as [Hk'|]; [by eapply Ha|done].
Qed.

(** A call to the runs that closes none. *)
Lemma runs_keeps K {A} (m : call_env -> M (jsmap WorkflowRun) A) :
  (forall env s, runs_inv s -> runs_inv (m env s).2 /\
     forall k r, mapGet k (m env s).2 = Some r -> is_over r = true -> mapGet k s = Some r) ->
  preserves (keeps K) (on_runs (O := O) script m).
Proof.
  intros Hm w. apply runs_keeps_at. intros env Hr. destruct (Hm env _ Hr) as [Hr' Hn].
  split; [done|]. left. by apply Hn.
Qed.

Lemma upsert_keeps K i : preserves (keeps K) (upsertRun (O := O) script i).
Proof.
  apply runs_keeps. intros env s Hs. split.
  { pose proof (memory_call_inv (UpsertRequested (wi_tenantId i) (wi_workflowId i) (wi_dedupeKey i)) env s Hs) as H'.
    simpl in H'. unfold mbind, M_bind in H'. by destruct (InMemoryRuns.upsertRequested _ _ _ _ s) as [[] ?]. }
  intros k r. unfold InMemoryRuns.upsertRequested. msimpl. destruct (mapGet (run_key _ _) s) eqn:E; [done|].
  destruct (workflowRunSchema _) as [x|] eqn:Ex; [|done]. apply workflowRunSchema_fields in Ex as [-> _].
  simpl. rewrite mapGet_set. case_bool_decide; [|done]. by intros [= <-].
Qed.

(** A transition to a state that is not final closes no run. *)
Lemma move_keeps K i from to code : isTerminalState to = false ->
  preserves (keeps K) (moveRun (O := O) script i from to code).
Proof.
  intros Ht. unfold moveRun. apply preserves_bind; [apply _| |by intros x w].
  apply runs_keeps. intros env s Hs.
  split; [exact (memory_call_inv (TransitionState _ _ _ _ _) env s Hs)|].
  intros k r. unfold InMemoryRuns.transitionState. msimpl. destruct (mapGet (run_key _ _) s) as [x|] eqn:E; [|done].
  case_match; [done|]. rewrite workflowRunSchema_update by (apply (proj2 Hs _ _ E)). simpl.
  rewrite mapGet_set. destruct (bool_decide (run_key _ _ = k)); [|done]. intros [= <-]. unfold is_over, upd. simpl. by destruct to.
Qed.

(** A run is closed once its end is in the outbox. *)
Lemma closing_move_keeps K i from to code key w : zod_uuid (wi_tenantId i) = true ->
  closing_key (wi_tenantId i) (wi_workflowId i) to key -> is_Some (stored_event (vw_outbox w) key) ->
  keeps K w (moveRun (O := O) script i from to code w).2.
Proof.
  intros Hz Hc Hs. unfold moveRun. set (m := fun env : call_env => _).
  assert (keeps K w (on_runs (O := O) script m w).2) as Hk.
  { apply runs_keeps_at. intros env Hr. subst m.
    split; [exact (memory_call_inv (TransitionState _ _ _ _ _) env _ Hr)|].
    intros k r. unfold InMemoryRuns.transitionState. msimpl.
    destruct (mapGet (run_key _ _) _) as [x|] eqn:E; [|by left].
    case_match; [by left|]. rewrite workflowRunSchema_update by (apply (proj2 Hr _ _ E)). simpl.
    rewrite mapGet_set. destruct (bool_decide (run_key _ _ = k)); [|by left].
    intros [= <-] _. right. exists key. split; [|done]. unfold upd. simpl.
    pose proof (proj2 (proj1 Hr) _ _ E) as Hkf.
    destruct (workflowRunSchema_fields _ _ (proj2 Hr _ _ E)) as [_ Ht].
    apply run_key_inj in Hkf as [-> ->]; done. }
  unfold mbind, M_bind. by destruct (on_runs _ _ w) as [[?|?] ?].
Qed.

Lemma emit_stored command key w w' : world_inv w ->
  (forall now c, command now = Ok c -> command_ok c /\ command_key c = key) ->
  emit (O := O) script command w = (Ok tt, w') -> is_Some (stored_event (vw_outbox w') key).
Proof.
  intros [_ Ho _] Hc. unfold emit. intros (mo & w1 & [= <- <-] & He)%bind_ok.
  apply bind_ok in He as (c & w2 & Hl & He). unfold lift in Hl. injection Hl as Hl <-.
  destruct (Hc _ _ Hl) as [Hok <-].
  apply bind_ok in He as (e & w3 & [_ He]%faulty_ok & [= <-]). simpl in He.
  destruct (enqueue_stored (mo_env (script (vw_tick w))) c (vw_outbox w) Ho Hok) as (e' & o' & He' & _ & _ & Hs & _).
  rewrite He' in He. injection He as _ <-. simpl. by eexists.
Qed.

Lemma close_keeps K i command from to code key : zod_uuid (wi_tenantId i) = true ->
  (forall now c, command now = Ok c -> command_ok c /\ command_key c = key) -> K key ->
  closing_key (wi_tenantId i) (wi_workflowId i) to key ->
  preserves (keeps K) (emit (O := O) script command;; moveRun script i from to code).
Proof.
  intros Hz Hc HK Hcl w. pose proof (emit_keeps K command) as Hk.
  assert (commands_in K command) as Hin by (intros now c Hb; by destruct (Hc now c Hb) as [? ->]).
  specialize (Hk Hin w). unfold mbind, M_bind. destruct (emit _ _ w) as [[[]|e] w1] eqn:He; [|done].
  intros Hw. destruct (Hk Hw) as (Hw1 & _). simpl in *.
  refine (transitivity (R := keeps K) Hk _ Hw).
  apply (closing_move_keeps K i from to code key); [done..|]. exact (emit_stored command key w w1 Hw Hc He).
Qed.
End lemmas.

(** *** The attempts *)

Section attempts.
Context `{Z : Zod} {ZL : ZodLaws Z} `{ErrorText} {O : Type} {P : OutboxPort O} {OS : OutboxStore O P}.
Context (script : nat -> moment).
Implicit Types (w : ProvisioningWorld O) (i : TenantProvisioningWorkflowInput).

Definition reported : list (ProvisioningStep * BinNums.Z) :=
  [(zitadel_org, 5); (paperclip_company, 15); (gitea_workspace_repo, 35); (nats_consumer_groups, 52);
   (minio_bucket, 67); (lago_customer, 80); (seed_founder_doc, 90); (seed_founder_doc, 100)].

Definition report_key i (sp : ProvisioningStep * BinNums.Z) : outbox_key :=
  progress_key_of i (orchestrator_cid (wi_workflowId i)
      (ProvisioningStep_str sp.1 +:+ ":" +:+ num_to_string (num_of_Z sp.2)))
    (ProvisioningStep_str sp.1).

(** The events an attempt by the orchestrator may write: one per report, and
    one per outcome. *)
Definition request_keys i : list outbox_key :=
  (report_key i <$> reported) ++
  [completed_key_of i (orchestrator_cid (wi_workflowId i) "completed");
   failed_key_of i (orchestrator_cid (wi_workflowId i) "failed")].

Lemma report_keeps K i step pct message : K (report_key i (step, pct)) ->
  preserves (keeps K) (outboxReport (O := O) script i step pct message).
Proof.
  intros HK. apply emit_keeps. intros now c Hc.
  destruct (built_command _ _ _ _ (progress_builds now _) Hc) as (Hok & Hk & _).
  split; [done|]. by rewrite Hk.
Qed.

Lemma putSecret_keeps K tn k v : preserves (keeps K) (putSecret (O := O) script tn k v).
Proof.
  unfold putSecret. apply preserves_bind; [apply _|apply lift_keeps|]. intros path. apply client_keeps.
Qed.

Lemma secrets_keeps K tn secrets : preserves (keeps K) (provisionTenant (O := O) script tn secrets).
Proof.
  unfold provisionTenant. induction (bfilter _ secrets) as [|[k v] l IH]; simpl; [apply (lift_keeps K (Ok tt))|].
  apply preserves_bind; [apply _|apply preserves_catching, putSecret_keeps|]. intros r1.
  apply preserves_bind; [apply _|by apply preserves_catching|]. intros r2. apply lift_keeps.
Qed.

#[local] Ltac keep_call :=
  first [ apply next_keeps | apply lift_keeps | apply client_keeps | apply secrets_keeps
        | apply upsert_keeps | apply move_keeps; reflexivity ].

Lemma run_keeps K i : (forall sp, sp ∈ reported -> K (report_key i sp)) ->
  preserves (keeps K) (run (O := O) script (outboxReport script i) i).
Proof.
  intros HK. unfold run. apply preserves_bind; [apply _|apply lift_keeps|]. intros p.
  unfold zitadelStep, paperclipStep, giteaStep, natsStep, minioStep, lagoStep, founderDocStep.
  solve_preserves ltac:(first [ keep_call
    | apply report_keeps, HK; apply (bool_decide_unpack _); reflexivity ]).
Qed.

Lemma completed_closes i now c rid : forall cb,
  createTenantProvisioningCompletedOutboxCommand now
    (mkRuntimeCallback i cb (Some cb_completed) rid None None None None None) = Ok c ->
  command_ok c /\ command_key c = completed_key_of i cb.
Proof. intros cb Hc. by destruct (built_command _ _ _ _ (completed_builds now _) Hc) as (? & ? & _). Qed.

Lemma failed_closes i now c rid code msg : forall cb,
  createTenantProvisioningFailedOutboxCommand now
    (mkRuntimeCallback i cb (Some cb_failed) rid None None None code msg) = Ok c ->
  command_ok c /\ command_key c = failed_key_of i cb.
Proof. intros cb Hc. by destruct (built_command _ _ _ _ (failed_builds now _) Hc) as (? & ? & _). Qed.

Lemma complete_keeps K i cb rid : zod_uuid (wi_tenantId i) = true ->
  cb ∈ [orchestrator_cid (wi_workflowId i) "completed"; restate_cid (wi_workflowId i)] ->
  K (completed_key_of i cb) -> preserves (keeps K) (completeRun (O := O) script i cb rid).
Proof.
  intros Hz Hcb HK. unfold completeRun. apply (close_keeps script K i _ _ _ _ (completed_key_of i cb)); [done| |done|].
  - intros now c. apply completed_closes.
  - by exists i, cb.
Qed.

Lemma fail_keeps K i cb rid code msg : zod_uuid (wi_tenantId i) = true ->
  cb ∈ [orchestrator_cid (wi_workflowId i) "failed"; restate_cid (wi_workflowId i)] ->
  K (failed_key_of i cb) -> preserves (keeps K) (failRun (O := O) script i cb rid code msg).
Proof.
  intros Hz Hcb HK. unfold failRun. apply (close_keeps script K i _ _ _ _ (failed_key_of i cb)); [done| |done|].
  - intros now c. apply failed_closes.
  - by exists i, cb.
Qed.

Lemma start_keeps K i r : preserves (keeps K) (startRun (O := O) script i r).
Proof. unfold startRun. case_match; [by apply move_keeps|apply (lift_keeps K (Ok tt))]. Qed.

Lemma orchestrator_keeps K secrets i : zod_uuid (wi_tenantId i) = true ->
  (forall k, k ∈ request_keys i -> K k) ->
  preserves (keeps K) (processWithOrchestrator (O := O) script secrets i).
Proof.
  intros Hz HK. unfold processWithOrchestrator.
  apply preserves_bind; [apply _|apply upsert_keeps|]. intros r.
  destruct (is_over r); [apply (lift_keeps K (Ok _))|].
  apply preserves_bind; [apply _|apply start_keeps|]. intros _.
  apply preserves_bind; [apply _|apply preserves_catching|].
  - unfold provision. apply preserves_bind; [apply _| |].
    + apply run_keeps. intros sp Hsp. apply HK, elem_of_app. left. by apply list_elem_of_fmap_2.
    + intros res. apply preserves_bind; [apply _| |by intros _ w].
      destruct secrets; [apply secrets_keeps|apply (lift_keeps K (Ok tt))].
  - intros [res|err]; (apply preserves_bind; [apply _| |intros _; apply (lift_keeps K (Ok _))]).
    + apply complete_keeps; [done|by left|]. apply HK, elem_of_app. right. by left.
    + apply fail_keeps; [done|by left|]. apply HK, elem_of_app. right. right. by left.
Qed.

Lemma history_keeps i cb rid events :
  preserves (keeps (fun _ => True)) (emitHistory (O := O) script i cb rid events).
Proof.
  induction events as [|e events IH]; simpl; [apply (lift_keeps _ (Ok tt))|].
  apply preserves_bind; [apply _| |by intros _]. apply emit_keeps. intros now c Hc.
  split; [|done]. by destruct (built_command _ _ _ _ (progress_builds now _) Hc) as (? & _).
Qed.

Lemma runtime_keeps i : zod_uuid (wi_tenantId i) = true ->
  preserves (keeps (fun _ => True)) (processWithRuntime (O := O) script i).
Proof.
  intros Hz. unfold processWithRuntime, runtimeState.
  apply preserves_bind; [apply _|apply upsert_keeps|]. intros r. destruct (is_over r).
  { apply preserves_bind; [apply _|apply next_keeps|]. intros mo. apply lift_keeps. }
  apply preserves_bind; [apply _|apply start_keeps|]. intros _.
  apply preserves_bind; [apply _| |].
  { apply preserves_bind; [apply _|apply next_keeps|]. intros mo. apply lift_keeps. }
  intros st. apply preserves_bind; [apply _|apply history_keeps|]. intros _.
  assert (forall e, preserves (keeps (fun _ => True))
    (throw (S := ProvisioningWorld O) (A := TenantProvisioningRuntimeState) e)) as Ht by (by intros e w).
  destruct (rt_state st); [apply Ht..| |]; (apply preserves_bind; [apply _| |intros _; apply (lift_keeps _ (Ok _))]).
  - apply complete_keeps; [done|right; by left|done].
  - apply fail_keeps; [done|right; by left|done].
Qed.

Lemma parsed_request p i : parseProvisioningInput p = Ok i ->
  tenantProvisioningWorkflowInputSchema i = Ok i /\ zod_uuid (wi_tenantId i) = true.
Proof.
  intros Hi%parse_input_ok. split; [done|]. by destruct (provisioning_input_same _ _ Hi) as (_ & ? & _).
Qed.

Lemma delivery_keeps w d : keeps (fun _ => True) w (deliver (O := O) script w d).
Proof.
  unfold deliver, processTenantProvisioningCompletion.
  destruct (parseProvisioningInput (dv_input d)) as [i|e] eqn:Hi; [|by apply (lift_keeps _ (Err e))].
  destruct (parsed_request _ _ Hi) as [_ Hz].
  rewrite (bind_eq _ _ w i w) by done. destruct (dv_direct d).
  - by apply orchestrator_keeps.
  - by apply runtime_keeps.
Qed.

Lemma deliveries_keep ds w : keeps (fun _ => True) w (deliveries (O := O) script ds w).
Proof.
  revert w. induction ds as [|d ds IH]; intros w; [reflexivity|].
  change (deliveries script (d :: ds) w) with (deliveries script ds (deliver script w d)).
  etrans; [apply delivery_keeps|apply IH].
Qed.

Definition request_run w i : option WorkflowRun :=
  mapGet (run_key (wi_tenantId i) (wi_workflowId i)) (vw_runs w).

(** A run that is there is returned as it is. *)
Lemma upsert_existing w i r : request_run w i = Some r ->
  exists x, upsertRun (O := O) script i w =
    (x, mkProvisioningWorld (vw_runs w) (vw_outbox w) (vw_calls w) (vw_tick w + 1)) /\
    (x = Ok r \/ exists e, x = Err e).
Proof.
  intros Hr. unfold upsertRun, on_runs, InMemoryRuns.upsertRequested. unfold request_run in Hr.
  unfold next. msimpl. destruct (mo_fault _); simpl; unfold mbind, M_bind; simpl; rewrite ?Hr; eauto 6.
Qed.
End attempts.

(** *** The requests to the external systems *)

Section calls.
Context `{Z : Zod} `{ErrorText} {O : Type} {P : OutboxPort O}.
Context (script : nat -> moment).
Implicit Types (w : ProvisioningWorld O) (i : TenantProvisioningWorkflowInput).

(** The nine requests of a complete attempt, in order. *)
Definition step_calls i (orgId : string) : list ClientCall :=
  [CreateOrg (tenantZitadelOrgName (wi_tenantName i));
   CreateServiceAccount orgId "growthos-api" "GrowthOS API Service Account";
   ProvisionCompany (wi_tenantId i) (wi_tenantExternalId i) (wi_tenantName i);
   ProvisionWorkspaceRepo (wi_tenantId i) "growthos-ws-template" (tenantWorkspaceRepoName (wi_tenantId i));
   ProvisionConsumerGroup (wi_tenantId i) (tenantNatsFilterSubject (wi_tenantId i))
     (tenantNatsConsumerName (wi_tenantId i));
   ProvisionBucket (tenantBucketName (wi_tenantId i)) (wi_tenantId i);
   CreateCustomer (tenantLagoCustomerId (wi_tenantId i)) (wi_tenantName i);
   AssignPlan (tenantLagoCustomerId (wi_tenantId i)) PLAN_CODE_MOTION_ACTIVE
     (tenantLagoMotionSubId (wi_tenantId i));
   CreateOrUpdateFile (wi_tenantId i) (tenantWorkspaceRepoName (wi_tenantId i)) "docs/FOUNDER.md"
     (FOUNDER_MD_TEMPLATE (wi_tenantName i) (wi_tenantId i))
     "chore: seed FOUNDER.md from GrowthOS template"].

(** The program makes the calls [l]; one that throws has made the first of them. *)
Definition traced {A} (l : list ClientCall) (m : M (ProvisioningWorld O) A) : Prop :=
  forall w, match m w with
  | (Ok _, w') => vw_calls w' = vw_calls w ++ l
  | (Err _, w') => exists pre, pre `prefix_of` l /\ vw_calls w' = vw_calls w ++ pre
  end.

Lemma traced_bind {A B} l1 l2 (m : M (ProvisioningWorld O) A) (k : A -> M (ProvisioningWorld O) B) :
  traced l1 m -> (forall a, traced l2 (k a)) -> traced (l1 ++ l2) (a ← m; k a).
Proof.
  intros Hm Hk w. specialize (Hm w). unfold mbind, M_bind. destruct (m w) as [[a|e] w1].
  - specialize (Hk a w1). destruct (k a w1) as [[b|e] w2].
    + by rewrite Hk, Hm, <- app_assoc.
    + destruct Hk as (pre & Hp & Hc). exists (l1 ++ pre). split; [by apply prefix_app|].
      by rewrite Hc, Hm, <- app_assoc.
  - destruct Hm as (pre & Hp & Hc). exists pre. split; [by apply prefix_app_r|done].
Qed.

Lemma traced_quiet {A} (m : M (ProvisioningWorld O) A) : (forall w, vw_calls (m w).2 = vw_calls w) -> traced [] m.
Proof.
  intros Hm w. specialize (Hm w). destruct (m w) as [[a|e] w']; simpl in *; [by rewrite app_nil_r|].
  exists []. split; [done|]. by rewrite app_nil_r.
Qed.

Lemma next_quiet : traced [] (next (O := O) script).
Proof. by apply traced_quiet. Qed.

Lemma client_traced {A} call (answer : Clients -> result A) : traced [call] (client (O := O) script call answer).
Proof.
  intros w. unfold client, next. msimpl. destruct (answer _); [done|]. by exists [call].
Qed.

Lemma emit_quiet command w : vw_calls (emit (O := O) script command w).2 = vw_calls w.
Proof.
  unfold emit. unfold next at 1. unfold mbind at 1, M_bind at 1. simpl.
  destruct (command _) as [c|x]; [|done]. unfold mbind at 1, M_bind at 1. simpl.
  set (op := fun w0 : ProvisioningWorld O => _). set (w1 := mkProvisioningWorld _ _ _ _).
  assert (forall f, vw_calls (faulty f op w1).2 = vw_calls w1) as Hf.
  { intros f. destruct (faulty_state f op w1) as [->| ->]; [done|]. unfold op. by destruct (outbox_enqueue _ _ _). }
  specialize (Hf (mo_fault (script (vw_tick w)))). unfold mbind, M_bind.
  by destruct (faulty _ op w1) as [[?|?] ?].
Qed.

Lemma report_quiet i step pct message : traced [] (outboxReport (O := O) script i step pct message).
Proof. apply traced_quiet. intros w. apply emit_quiet. Qed.

Lemma ret_quiet {A} (a : A) : traced [] (mret a : M (ProvisioningWorld O) A).
Proof. by apply traced_quiet. Qed.

Section orchestrator.
Context (report : ProvisioningStep -> BinNums.Z -> string -> M (ProvisioningWorld O) unit).
Context (Hreport : forall step pct message, traced [] (report step pct message)).

(** A step that reports, makes one call and returns. *)
Lemma one_call {A B} step pct message call (answer : Clients -> result A) (f : A -> B) :
  traced [call] (report step pct message;; x ← client (O := O) script call answer; mret (f x)).
Proof.
  apply (traced_bind [] [call]); [apply Hreport|]. intros _.
  apply (traced_bind [call] []); [apply client_traced|]. intros x. apply ret_quiet.
Qed.

Lemma zitadel_traced i w : exists orgId,
  match zitadelStep script report i w with
  | (Ok _, w') => vw_calls w' = vw_calls w ++ take 2 (step_calls i orgId)
  | (Err _, w') => exists pre, pre `prefix_of` take 2 (step_calls i orgId) /\ vw_calls w' = vw_calls w ++ pre
  end.
Proof.
  unfold zitadelStep. pose proof (Hreport zitadel_org 5 ("Provisioning Zitadel organisation for " +:+ wi_tenantName i) w) as Hr.
  unfold mbind at 1, M_bind at 1. destruct (report _ _ _ w) as [[[]|e] w1].
  2: { exists "". destruct Hr as (pre & Hp & Hc). exists pre. split; [|done]. by apply (prefix_app_r _ _ _ Hp). }
  rewrite app_nil_r in Hr.
  set (name := tenantZitadelOrgName (wi_tenantName i)).
  pose proof (client_traced (CreateOrg name) (fun c => cl_createOrg c name) w1) as H1.
  unfold mbind at 1, M_bind at 1. destruct (client _ _ _ w1) as [[org|e] w2].
  2: { exists "". destruct H1 as (pre & Hp & Hc). exists pre. split; [|by rewrite Hc, Hr].
       apply (prefix_app_r _ _ [CreateServiceAccount "" "growthos-api" "GrowthOS API Service Account"] Hp). }
  exists org.1. pose proof (traced_bind [CreateServiceAccount org.1 "growthos-api" "GrowthOS API Service Account"] [] _
    (fun _ => mret (mkStepResult zitadel_org false [("orgId", JStr org.1); ("orgName", JStr org.2)]))
    (client_traced _ (fun c => cl_createServiceAccount c org.1 "growthos-api" "GrowthOS API Service Account"))
    (fun _ => ret_quiet _) w2) as H2.
  rewrite app_nil_r in H2. simpl in H2 |- *.
  destruct (mbind (M := M (ProvisioningWorld O)) _ _ w2) as [[x|e] w3]; [by rewrite H2, H1, Hr, <- app_assoc|].
  destruct H2 as (pre & Hp & Hc). exists (CreateOrg name :: pre). split; [by apply prefix_cons|].
  by rewrite Hc, H1, Hr, <- app_assoc.
Qed.

(** The calls of [run]: the first of the nine, all of them if it returns. *)
Lemma run_traced i w : exists orgId,
  match run script report i w with
  | (Ok _, w') => vw_calls w' = vw_calls w ++ step_calls i orgId
  | (Err _, w') => exists pre, pre `prefix_of` step_calls i orgId /\ vw_calls w' = vw_calls w ++ pre
  end.
Proof.
  unfold run. unfold mbind at 1, M_bind at 1, lift at 1.
  destruct (tenantProvisioningInputV1Schema i) as [p|e] eqn:Hp.
  2: { exists "", []. split; [apply prefix_nil|by rewrite app_nil_r]. }
  assert (p = i) as ->.
  { unfold tenantProvisioningInputV1Schema in Hp. schema_fields Hp. by destruct i. }
  destruct (zitadel_traced i w) as [orgId Hz]. exists orgId.
  unfold mbind at 1, M_bind at 1. destruct (zitadelStep _ _ i w) as [[s0|e] w1].
  2: { destruct Hz as (pre & Hpre & Hc). exists pre. split; [|done].
       rewrite <- (take_drop 2 (step_calls i orgId)). by apply prefix_app_r. }
  set (rest := mbind (M := M (ProvisioningWorld O)) _ _ w1). assert (match rest with
    | (Ok _, w') => vw_calls w' = vw_calls w1 ++ drop 2 (step_calls i orgId)
    | (Err _, w') => exists pre, pre `prefix_of` drop 2 (step_calls i orgId) /\ vw_calls w' = vw_calls w1 ++ pre
    end) as Hrest.
  { subst rest. revert w1 Hz. intros w1 _. match goal with |- context [?m w1] => apply (fun H : traced _ m => H w1) end.
    unfold step_calls. simpl drop.
    apply (traced_bind [_] [_; _; _; _; _; _]); [apply one_call|intros s1].
    apply (traced_bind [_] [_; _; _; _; _]); [apply one_call|intros s2].
    apply (traced_bind [_] [_; _; _; _]); [apply one_call|intros s3].
    apply (traced_bind [_] [_; _; _]); [apply one_call|intros s4].
    apply (traced_bind [_; _] [_]); [|intros s5].
    { apply (traced_bind [] [_; _]); [apply Hreport|intros _].
      apply (traced_bind [_] [_]); [apply client_traced|intros customer].
      apply (traced_bind [_] []); [apply client_traced|intros sub; apply ret_quiet]. }
    apply (traced_bind [_] []); [apply one_call|intros s6].
    apply (traced_bind [] []); [apply Hreport|intros _].
    apply (traced_bind [] []); [apply next_quiet|intros mo; apply ret_quiet]. }
  rewrite <- (take_drop 2 (step_calls i orgId)). destruct rest as [[x|e] w2]; [by rewrite Hrest, Hz, <- app_assoc|].
  destruct Hrest as (pre & Hpre & Hc). eexists. split; [by apply prefix_app|]. by rewrite Hc, Hz, <- app_assoc.
Qed.
End orchestrator.
(** *** Secrets *)

Definition is_put (c : ClientCall) : Prop := exists path value, c = PutSecret path value.

(** The program makes only calls that write secrets. *)
Definition puts_only {A} (m : M (ProvisioningWorld O) A) : Prop :=
  forall w, exists l, Forall is_put l /\ vw_calls (m w).2 = vw_calls w ++ l.

Lemma puts_bind {A B} (m : M (ProvisioningWorld O) A) (k : A -> M (ProvisioningWorld O) B) :
  puts_only m -> (forall a, puts_only (k a)) -> puts_only (a ← m; k a).
Proof.
  intros Hm Hk w. destruct (Hm w) as (l1 & Hl1 & H1). unfold mbind, M_bind. destruct (m w) as [[a|e] w1]; [|eauto].
  destruct (Hk a w1) as (l2 & Hl2 & H2). exists (l1 ++ l2). split; [by apply Forall_app|].
  simpl in H1. by rewrite H2, H1, <- app_assoc.
Qed.

Lemma puts_none {A} (m : M (ProvisioningWorld O) A) : (forall w, vw_calls (m w).2 = vw_calls w) -> puts_only m.
Proof. intros Hm w. exists []. by rewrite Hm, app_nil_r. Qed.

Lemma puts_catching {A} (m : M (ProvisioningWorld O) A) : puts_only m -> puts_only (catching m).
Proof. intros Hm w. destruct (Hm w) as (l & Hl & Hc). exists l. unfold catching. by destruct (m w). Qed.

Lemma secrets_puts tn secrets : puts_only (provisionTenant (O := O) script tn secrets).
Proof.
  unfold provisionTenant. induction (bfilter _ secrets) as [|[k v] l IH]; simpl; [by apply puts_none|].
  apply puts_bind; [apply puts_catching|].
  - unfold putSecret. apply puts_bind; [by apply puts_none|]. intros path w.
    exists [PutSecret path v]. split; [repeat constructor; by exists path, v|].
    unfold client, next. done.
  - intros r1. apply puts_bind; [by apply puts_catching|]. intros r2. by apply puts_none.
Qed.

Lemma runs_quiet {A} (m : call_env -> M (jsmap WorkflowRun) A) w : vw_calls (on_runs (O := O) script m w).2 = vw_calls w.
Proof.
  unfold on_runs. rewrite (bind_eq _ _ w (script (vw_tick w))
    (mkProvisioningWorld (vw_runs w) (vw_outbox w) (vw_calls w) (vw_tick w + 1))) by done.
  set (op := fun w0 : ProvisioningWorld O => _). set (w1 := mkProvisioningWorld _ _ _ _).
  destruct (faulty_state (mo_fault (script (vw_tick w))) op w1) as [->| ->]; [done|]. unfold op. by destruct (m _ _).
Qed.

Lemma quiet_run_bind {A B} (m : M (ProvisioningWorld O) A) (k : A -> M (ProvisioningWorld O) B) w :
  (forall w, vw_calls (m w).2 = vw_calls w) -> (forall a w, vw_calls (k a w).2 = vw_calls w) ->
  vw_calls ((a ← m; k a) w).2 = vw_calls w.
Proof.
  intros Hm Hk. unfold mbind, M_bind. specialize (Hm w). destruct (m w) as [[a|e] w1]; simpl in *; [|done].
  by rewrite Hk.
Qed.

Lemma move_quiet i from to code w : vw_calls (moveRun (O := O) script i from to code w).2 = vw_calls w.
Proof. apply quiet_run_bind; [apply runs_quiet|done]. Qed.
Lemma start_quiet i r w : vw_calls (startRun (O := O) script i r w).2 = vw_calls w.
Proof. unfold startRun. case_match; [apply move_quiet|done]. Qed.

(** The calls of [provision]: those of the orchestrator, and once it has
    returned those that write the secrets. *)
Lemma provision_calls secrets i w : exists orgId pre puts,
  vw_calls (provision (O := O) script secrets i w).2 = vw_calls w ++ pre ++ puts /\
  pre `prefix_of` step_calls i orgId /\ Forall is_put puts /\
  (puts ≠ [] \/ is_Ok (provision (O := O) script secrets i w).1 -> pre = step_calls i orgId).
Proof.
  unfold provision. destruct (run_traced (outboxReport script i) (report_quiet i) i w) as [orgId Hr].
  unfold mbind at 1 3, M_bind at 1 3. destruct (run _ _ i w) as [[res|e] w1].
  - set (m := match secrets with Some _ => _ | None => _ end).
    assert (puts_only m) as Hm.
    { unfold m. destruct secrets; [apply secrets_puts|by apply puts_none]. }
    destruct (Hm w1) as (l & Hl & Hc). exists orgId, (step_calls i orgId), l.
    split_and!; [|done|done|done]. unfold mbind, M_bind. rewrite app_assoc, <- Hr, <- Hc.
    by destruct (m w1) as [[[]|e] w2].
  - destruct Hr as (pre & Hp & Hc). exists orgId, pre, []. rewrite app_nil_r.
    split_and!; [done|done|constructor|]. intros [|[x Hx]]; done.
Qed.

Lemma orchestrator_calls secrets i w : exists orgId pre puts,
  vw_calls (processWithOrchestrator (O := O) script secrets i w).2 = vw_calls w ++ pre ++ puts /\
  pre `prefix_of` step_calls i orgId /\ Forall is_put puts /\ (puts ≠ [] -> pre = step_calls i orgId).
Proof.
  assert (forall w1 : ProvisioningWorld O, vw_calls w1 = vw_calls w -> exists orgId pre puts,
    vw_calls w1 = vw_calls w ++ pre ++ puts /\ pre `prefix_of` step_calls i orgId /\
    Forall is_put puts /\ (puts ≠ [] -> pre = step_calls i orgId)) as Hnone.
  { intros w1 ->. exists "", [], []. rewrite app_nil_r. split_and!; [done|apply prefix_nil|constructor|done]. }
  unfold processWithOrchestrator. unfold mbind at 1, M_bind at 1.
  pose proof (runs_quiet (fun env => InMemoryRuns.upsertRequested env (wi_tenantId i) (wi_workflowId i) (wi_dedupeKey i)) w) as H1.
  fold (upsertRun (O := O) script i) in H1. destruct (upsertRun script i w) as [[r|e] w1]; [|by apply Hnone].
  destruct (is_over r); [by apply Hnone|]. simpl in H1.
  unfold mbind at 1, M_bind at 1. pose proof (start_quiet i r w1) as H2.
  destruct (startRun script i r w1) as [[[]|e] w2]; simpl in H2; [|apply Hnone; simpl; congruence].
  destruct (provision_calls secrets i w2) as (orgId & pre & puts & Hc & Hp & Hput & Hfull).
  exists orgId, pre, puts. split_and!; [|done|done|auto]. unfold mbind at 1, M_bind at 1, catching.
  destruct (provision script secrets i w2) as [outcome w3]. simpl in Hc. rewrite <- H1, <- H2, <- Hc.
  destruct outcome; (rewrite quiet_run_bind; [done|intros w4|done]).
  - unfold completeRun. apply quiet_run_bind; [apply emit_quiet|]. intros _. apply move_quiet.
  - unfold failRun. apply quiet_run_bind; [apply emit_quiet|]. intros _. apply move_quiet.
Qed.
End calls.

(** *** Attempts on which nothing breaks down *)

Definition clients_ok (c : Clients) : Prop :=
  (forall a, is_Ok (cl_createOrg c a)) /\ (forall a b d, is_Ok (cl_createServiceAccount c a b d)) /\
  (forall a b d, is_Ok (cl_provisionCompany c a b d)) /\ (forall a b d, is_Ok (cl_provisionWorkspaceRepo c a b d)) /\
  (forall a b d, is_Ok (cl_provisionConsumerGroup c a b d)) /\ (forall a b, is_Ok (cl_provisionBucket c a b)) /\
  (forall a b, is_Ok (cl_createCustomer c a b)) /\ (forall a b d, is_Ok (cl_assignPlan c a b d)) /\
  (forall a b d e f, is_Ok (cl_createOrUpdateFile c a b d e f)) /\ (forall a b, is_Ok (cl_putSecret c a b)).

Section progress.
Context `{Z : Zod} {ZL : ZodLaws Z} `{ErrorText} {O : Type} {P : OutboxPort O} {OS : OutboxStore O P}.
Context (script : nat -> moment).
Implicit Types (w : ProvisioningWorld O) (i : TenantProvisioningWorkflowInput).

Definition step w (o : O) : ProvisioningWorld O := mkProvisioningWorld (vw_runs w) o (vw_calls w) (vw_tick w + 1).

(** A command that is always built, under one key. *)
Definition built_as (command : BinNums.Z -> result EnqueueOutboxEvent) (key : outbox_key) : Prop :=
  forall now, exists c, command now = Ok c /\ command_ok c /\ command_key c = key.

Lemma emit_ok command key w : world_inv w -> mo_fault (script (vw_tick w)) = NoFault -> built_as command key ->
  exists o', emit (O := O) script command w = (Ok tt, step w o') /\ world_inv (step w o') /\
    outbox_grows (vw_outbox w) o' /\ is_Some (stored_event o' key).
Proof.
  intros Hw Hf Hb. destruct (Hb (env_now (mo_env (script (vw_tick w))))) as (c & Hc & Hok & Hk).
  destruct (enqueue_stored (mo_env (script (vw_tick w))) c (vw_outbox w) (wv_outbox _ Hw) Hok)
    as (e & o' & He & Ho' & Hg & Hs & _).
  exists o'. rewrite Hk in Hs. split_and!; [|split|done|by eexists].
  - unfold emit, next. msimpl. rewrite Hc, Hf. simpl. by rewrite He.
  - apply Hw.
  - done.
  - intros k r Hr Hov. eapply announced_stays; [exact Hg|by eapply wv_announced].
Qed.

Lemma emit_broken command key w e : mo_fault (script (vw_tick w)) = FailBefore e -> built_as command key ->
  emit (O := O) script command w = (Err e, step w (vw_outbox w)).
Proof.
  intros Hf Hb. destruct (Hb (env_now (mo_env (script (vw_tick w))))) as (c & Hc & _).
  unfold emit, next. msimpl. by rewrite Hc, Hf.
Qed.

Definition with_run w i (r : WorkflowRun) : ProvisioningWorld O :=
  mkProvisioningWorld (mapSet (run_key (wi_tenantId i) (wi_workflowId i)) r (vw_runs w)) (vw_outbox w)
    (vw_calls w) (vw_tick w + 1).

Lemma with_run_get w i r : request_run (with_run w i r) i = Some r.
Proof. apply mapGet_set_eq. Qed.

Lemma move_ok w i r from to code : world_inv w -> mo_fault (script (vw_tick w)) = NoFault ->
  request_run w i = Some r -> run_state r = from -> isTerminalState from = false ->
  exists r', moveRun (O := O) script i from to code w = (Ok tt, with_run w i r') /\ run_state r' = to.
Proof.
  intros Hw Hf Hr Hst Ht. exists (r <| run_state := to |> <| run_failureCode := code ?:? run_failureCode r |>
    <| run_updatedAt := env_now (mo_env (script (vw_tick w))) |>). split; [|done].
  unfold moveRun, on_runs, next, InMemoryRuns.transitionState. unfold request_run in Hr. msimpl. rewrite Hf. simpl.
  rewrite Hr. assert (negb (bool_decide (run_state r = from)) || bool_decide (run_state r = run_completed) ||
      bool_decide (run_state r = run_failed) = false) as -> by (rewrite Hst; by destruct from).
  rewrite workflowRunSchema_update by (apply (proj2 (wv_runs _ Hw) _ _ Hr)). done.
Qed.

Lemma move_broken w i from to code e : mo_fault (script (vw_tick w)) = FailBefore e ->
  moveRun (O := O) script i from to code w = (Err e, step w (vw_outbox w)).
Proof. intros Hf. unfold moveRun, on_runs, next. msimpl. by rewrite Hf. Qed.

Lemma upsert_found w i r : mo_fault (script (vw_tick w)) = NoFault -> request_run w i = Some r ->
  upsertRun (O := O) script i w = (Ok r, step w (vw_outbox w)).
Proof.
  intros Hf Hr. unfold upsertRun, on_runs, next, InMemoryRuns.upsertRequested. unfold request_run in Hr.
  msimpl. rewrite Hf. simpl. by rewrite Hr.
Qed.

Lemma upsert_new w i : mo_fault (script (vw_tick w)) = NoFault -> request_run w i = None ->
  tenantProvisioningWorkflowInputSchema i = Ok i -> zod_uuid (env_uuid (mo_env (script (vw_tick w)))) = true ->
  exists r, upsertRun (O := O) script i w = (Ok r, with_run w i r) /\ run_state r = run_requested.
Proof.
  intros Hf Hr Hi Hu. destruct (provisioning_input_same _ _ Hi) as (_ & Ht & Hwf & Hd).
  unfold upsertRun, on_runs, next, InMemoryRuns.upsertRequested. unfold request_run in Hr.
  msimpl. rewrite Hf. simpl. rewrite Hr. unfold workflowRunSchema. msimpl.
  rewrite !(proj2 (uuid_ok _ _)) by done. rewrite !(proj2 (min1_text_ok _ _)) by done. eauto.
Qed.

Lemma completed_built i cb : tenantProvisioningWorkflowInputSchema i = Ok i -> cb ≠ "" ->
  built_as (fun now => createTenantProvisioningCompletedOutboxCommand now
    (mkRuntimeCallback i cb (Some cb_completed) None None None None None None)) (completed_key_of i cb).
Proof.
  intros Hi Hc now. pose proof (completed_builds now (mkRuntimeCallback i cb (Some cb_completed) None None None None None None)) as Hb.
  unfold builds in Hb. destruct (plain_callback_ok i cb (Some cb_completed) None None None Hi Hc) as [x Hx]; [done..|].
  by rewrite Hx in Hb.
Qed.

Lemma failed_built i cb code msg : tenantProvisioningWorkflowInputSchema i = Ok i -> cb ≠ "" -> code ≠ "" -> msg ≠ "" ->
  built_as (fun now => createTenantProvisioningFailedOutboxCommand now
    (mkRuntimeCallback i cb (Some cb_failed) None None None None (Some code) (Some msg))) (failed_key_of i cb).
Proof.
  intros Hi Hc Hcode Hmsg now.
  pose proof (failed_builds now (mkRuntimeCallback i cb (Some cb_failed) None None None None (Some code) (Some msg))) as Hb.
  unfold builds in Hb. destruct (plain_callback_ok i cb (Some cb_failed) None (Some code) (Some msg) Hi Hc) as [x Hx];
    [done|congruence..|]. by rewrite Hx in Hb.
Qed.

Lemma report_built i (st : ProvisioningStep) pct message : tenantProvisioningWorkflowInputSchema i = Ok i ->
  (st, pct) ∈ reported -> message ≠ "" ->
  built_as (fun now => createTenantProvisioningProgressOutboxCommand now
    (mkRuntimeCallback i (orchestrator_cid (wi_workflowId i) (ProvisioningStep_str st +:+ ":" +:+ num_to_string (num_of_Z pct)))
       (Some cb_progress) None (Some (ProvisioningStep_str st)) (Some message) (Some (num_of_Z pct)) None None))
    (report_key i (st, pct)).
Proof.
  intros Hi Hin Hm now. set (c := mkRuntimeCallback _ _ _ _ _ _ _ _ _).
  pose proof (progress_builds now c) as Hb. unfold builds in Hb.
  assert (exists x, tenantProvisioningRuntimeCallbackSchema c = Ok x) as [x Hx]; [|by rewrite Hx in Hb].
  unfold tenantProvisioningRuntimeCallbackSchema. simpl. rewrite Hi. unfold mbind, result_bind.
  assert (percent (num_of_Z pct) = Ok (num_of_Z pct)) as ->.
  { assert (forallb (fun sp => match percent (num_of_Z sp.2) with Ok _ => true | Err _ => false end) reported = true)
      as Hall by (vm_compute; reflexivity).
    rewrite forallb_forall in Hall. specialize (Hall (st, pct)). rewrite <- list_elem_of_In in Hall.
    specialize (Hall Hin). simpl in Hall. destruct (percent (num_of_Z pct)) as [y|] eqn:E; [|done].
    by rewrite (same_parse _ _ E). }
  rewrite (proj2 (min1_text_ok _ _)) by (by destruct st). rewrite (proj2 (min1_text_ok _ _)) by done.
  simpl. by eexists.
Qed.
(** The first report of an attempt cannot be written. *)
Lemma broken_provision i w e : tenantProvisioningWorkflowInputSchema i = Ok i ->
  tenantProvisioningInputV1Schema i = Ok i -> mo_fault (script (vw_tick w)) = FailBefore e ->
  catching (provision script None i) w = (Ok (Err e), step w (vw_outbox w)).
Proof.
  intros Hi Hv Hf. assert (zitadelStep script (outboxReport script i) i w = (Err e, step w (vw_outbox w))) as Hz.
  { unfold zitadelStep. apply bind_err. apply (emit_broken _ (report_key i (zitadel_org, 5))); [done|].
    apply report_built; [done|by left|done]. }
  unfold catching, provision. rewrite (bind_err _ _ _ e (step w (vw_outbox w))); [done|].
  unfold run. rewrite Hv, (bind_eq _ _ w i w) by done. by apply bind_err.
Qed.

(** The secrets can be stored: a non-empty value has a path the secrets
    service accepts. *)
Definition storable (tn : string) (secrets : option (list (string * string))) : Prop :=
  forall l k v, secrets = Some l -> (k, v) ∈ l -> v ≠ "" ->
    is_Ok (secretPathSchema ("tenants/" +:+ tn +:+ "/" +:+ k)).
(** The writes of the secrets. *)
Definition put_calls (tn : string) (secrets : list (string * string)) : list ClientCall :=
  (fun kv => PutSecret ("tenants/" +:+ tn +:+ "/" +:+ kv.1) kv.2) <$>
    bfilter (fun kv => negb (String.eqb kv.2 "")) secrets.
Definition secret_calls (tn : string) (secrets : option (list (string * string))) : list ClientCall :=
  match secrets with Some l => put_calls tn l | None => [] end.

(** The end of a failed run: announced and recorded, or announced only. *)
Definition fail_orchestrated w i (message : string) : result unit * ProvisioningWorld O :=
  failRun script i (orchestrator_cid (wi_workflowId i) "failed") None (Some PROVISIONING_ERROR) (Some message) w.
Definition failed_event w i : Prop :=
  is_Some (stored_event (vw_outbox w) (failed_key_of i (orchestrator_cid (wi_workflowId i) "failed"))).

Lemma failure_announced i w r message : world_inv w -> tenantProvisioningWorkflowInputSchema i = Ok i ->
  message ≠ "" -> mo_fault (script (vw_tick w)) = NoFault ->
  request_run w i = Some r -> run_state r = run_in_progress ->
  exists o', let w1 := step w o' in world_inv w1 /\ failed_event w1 i /\
    (mo_fault (script (vw_tick w + 1)) = NoFault ->
     exists r', fail_orchestrated w i message = (Ok tt, with_run w1 i r') /\ run_state r' = run_failed) /\
    (forall e, mo_fault (script (vw_tick w + 1)) = FailBefore e ->
     fail_orchestrated w i message = (Err e, step w1 o')).
Proof.
  intros Hw Hi Hm Hf Hr Hst.
  pose proof (failed_built i (orchestrator_cid (wi_workflowId i) "failed") PROVISIONING_ERROR message Hi
    ltac:(done) ltac:(done) Hm) as Hb.
  destruct (emit_ok _ _ w Hw Hf Hb) as (o' & He & Hw1 & _ & Hs). exists o'. cbv zeta.
  unfold fail_orchestrated, failRun. rewrite (bind_eq _ _ _ _ _ He). split_and!; [done|done| |].
  - intros Hf1. by apply (move_ok (step w o') i r).
  - intros e Hf1. by apply (move_broken (step w o')).
Qed.

(** From the moment [n] on, nothing breaks down. *)
Definition smooth (n : nat) : Prop :=
  forall m, (n <= m)%nat -> mo_fault (script m) = NoFault /\ clients_ok (mo_clients (script m)).

Section smooth.
Context (n : nat) (Hsmooth : smooth n).

Record good w : Prop := { good_inv : world_inv w; good_tick : (n <= vw_tick w)%nat }.

(** The program returns, with an answer in [Q], and leaves the runs alone. *)
Definition goes_on {A} (Q : A -> Prop) (m : M (ProvisioningWorld O) A) : Prop :=
  forall w, good w -> exists a w', m w = (Ok a, w') /\ Q a /\ good w' /\ vw_runs w' = vw_runs w.

Lemma goes_on_bind {A B} (Q : A -> Prop) (R : B -> Prop) (m : M (ProvisioningWorld O) A) (k : A -> M (ProvisioningWorld O) B) :
  goes_on Q m -> (forall a, Q a -> goes_on R (k a)) -> goes_on R (a ← m; k a).
Proof.
  intros Hm Hk w Hw. destruct (Hm w Hw) as (a & w1 & Ha & HQ & Hw1 & Hr1).
  destruct (Hk a HQ w1 Hw1) as (b & w2 & Hb & HR & Hw2 & Hr2).
  exists b, w2. rewrite (bind_eq _ _ _ _ _ Ha). split_and!; [done|done|done|congruence].
Qed.

Lemma goes_on_ret {A} (Q : A -> Prop) a : Q a -> goes_on Q (mret a).
Proof. intros HQ w Hw. by exists a, w. Qed.

Lemma next_goes_on : goes_on (fun _ => True) (next (O := O) script).
Proof.
  intros w [Hw Ht]. eexists _, _. split_and!; [reflexivity|done|split; [|simpl; lia]|done].
  by apply (next_keeps script (fun _ => True) w).
Qed.

Lemma client_answers {A} call (answer : Clients -> result A) :
  (forall c, clients_ok c -> is_Ok (answer c)) -> forall w, good w ->
  exists a, client (O := O) script call answer w =
    (Ok a, mkProvisioningWorld (vw_runs w) (vw_outbox w) (vw_calls w ++ [call]) (vw_tick w + 1)) /\
    good (mkProvisioningWorld (vw_runs w) (vw_outbox w) (vw_calls w ++ [call]) (vw_tick w + 1)).
Proof.
  intros Ha w [Hw Ht]. destruct (Hsmooth (vw_tick w) Ht) as [_ Hc]. destruct (Ha _ Hc) as [a Hok].
  assert (client (O := O) script call answer w =
    (Ok a, mkProvisioningWorld (vw_runs w) (vw_outbox w) (vw_calls w ++ [call]) (vw_tick w + 1))) as E.
  { unfold client, next. msimpl. by rewrite Hok. }
  pose proof (client_keeps script (fun _ => True) call answer w Hw) as (Hk & _). rewrite E in Hk.
  exists a. split; [done|]. split; [done|simpl; lia].
Qed.

Lemma client_goes_on {A} call (answer : Clients -> result A) :
  (forall c, clients_ok c -> is_Ok (answer c)) -> goes_on (fun _ => True) (client (O := O) script call answer).
Proof.
  intros Ha w Hw. destruct (client_answers call answer Ha w Hw) as (a & E & Hg).
  eexists _, _. split_and!; [exact E|done|done|done].
Qed.

Lemma report_goes_on i st pct message : tenantProvisioningWorkflowInputSchema i = Ok i ->
  (st, pct) ∈ reported -> message ≠ "" ->
  goes_on (fun _ => True) (outboxReport (O := O) script i st pct message).
Proof.
  intros Hi Hin Hm w [Hw Ht]. destruct (Hsmooth (vw_tick w) Ht) as [Hf _].
  destruct (emit_ok _ _ w Hw Hf (report_built i st pct message Hi Hin Hm)) as (o' & He & Hw' & _).
  unfold outboxReport. rewrite He. eexists _, _. split_and!; [reflexivity|done|split; [done|simpl; lia]|done].
Qed.

#[local] Ltac report_on :=
  apply report_goes_on; [done|apply (bool_decide_unpack _); reflexivity|done].
#[local] Ltac client_on :=
  apply client_goes_on; intros c Hc; unfold clients_ok in Hc; destruct_and!; eauto.
#[local] Ltac step_on :=
  apply (goes_on_bind (fun _ => True)); [first [report_on|client_on|apply next_goes_on]|intros ? _].

(** The orchestrator returns its seven steps. *)
Lemma run_goes_on i : tenantProvisioningWorkflowInputSchema i = Ok i -> tenantProvisioningInputV1Schema i = Ok i ->
  goes_on (fun res => tp_workflowId res = wi_workflowId i /\ tp_tenantId res = wi_tenantId i /\
    sr_step <$> tp_steps res = [zitadel_org; paperclip_company; gitea_workspace_repo; nats_consumer_groups;
      minio_bucket; lago_customer; seed_founder_doc])
    (run (O := O) script (outboxReport script i) i).
Proof.
  intros Hi Hv. unfold run. apply (goes_on_bind (fun p => p = i)).
  { intros w Hw. exists i, w. unfold lift. by rewrite Hv. }
  intros p ->.
  apply (goes_on_bind (fun s => sr_step s = zitadel_org));
    [unfold zitadelStep; repeat step_on; by apply goes_on_ret|intros s0 H0].
  apply (goes_on_bind (fun s => sr_step s = paperclip_company));
    [unfold paperclipStep; repeat step_on; by apply goes_on_ret|intros s1 H1].
  apply (goes_on_bind (fun s => sr_step s = gitea_workspace_repo));
    [unfold giteaStep; repeat step_on; by apply goes_on_ret|intros s2 H2].
  apply (goes_on_bind (fun s => sr_step s = nats_consumer_groups));
    [unfold natsStep; repeat step_on; by apply goes_on_ret|intros s3 H3].
  apply (goes_on_bind (fun s => sr_step s = minio_bucket));
    [unfold minioStep; repeat step_on; by apply goes_on_ret|intros s4 H4].
  apply (goes_on_bind (fun s => sr_step s = lago_customer));
    [unfold lagoStep; repeat step_on; by apply goes_on_ret|intros s5 H5].
  apply (goes_on_bind (fun s => sr_step s = seed_founder_doc));
    [unfold founderDocStep; repeat step_on; by apply goes_on_ret|intros s6 H6].
  repeat step_on. apply goes_on_ret. split_and!; [done|done|]. csimpl. by rewrite H0, H1, H2, H3, H4, H5, H6.
Qed.

(** The secrets are all written, in order. *)
Lemma put_all_goes_on tn l w : good w -> zod_uuid tn = true ->
  (forall k v, (k, v) ∈ l -> is_Ok (secretPathSchema ("tenants/" +:+ tn +:+ "/" +:+ k))) ->
  exists w', put_all script tn l w = (Ok tt, w') /\ good w' /\ vw_runs w' = vw_runs w /\
    vw_calls w' = vw_calls w ++ ((fun kv => PutSecret ("tenants/" +:+ tn +:+ "/" +:+ kv.1) kv.2) <$> l).
Proof.
  intros Hw Ht. revert w Hw. induction l as [|[k v] l IH]; intros w Hw Hl.
  { exists w. rewrite app_nil_r. by split_and!. }
  set (path := "tenants/" +:+ tn +:+ "/" +:+ k).
  destruct (client_answers (PutSecret path v) (fun c => cl_putSecret c path v)) with (w := w) as ([] & E & Hg);
    [intros c Hc; apply Hc|done|].
  destruct (IH _ Hg) as (w' & E' & Hw' & Hr & Hc); [intros k' v' Hin; apply (Hl k' v'); by right|].
  exists w'. split_and!; [|done|done|].
  - assert (putSecret script tn k v w = client script (PutSecret path v) (fun c => cl_putSecret c path v) w) as Hput.
    { unfold putSecret. destruct (Hl k v) as [path' Hp]; [by left|]. apply refine_ok in Hp as Hp'.
      destruct Hp' as [_ ->]. rewrite (bind_eq _ _ w path w); [done|]. unfold lift, scopedPath.
      rewrite (proj2 (tenantIdSchema_ok _ _) (conj Ht eq_refl)). simpl. by rewrite Hp. }
    simpl. assert (forall A (m : M (ProvisioningWorld O) A) a u u', m u = (Ok a, u') ->
      catching m u = (Ok (Ok a), u')) as Hcatch by (intros A m a u u' Hm; unfold catching; by rewrite Hm).
    rewrite (bind_eq _ _ _ _ _ (Hcatch _ _ _ _ _ (eq_trans Hput E))).
    by rewrite (bind_eq _ _ _ _ _ (Hcatch _ _ _ _ _ E')).
  - rewrite Hc. simpl. by rewrite <- app_assoc.
Qed.

(** The work of an attempt: the seven steps, then the secrets. *)
Lemma provision_goes_on secrets i w : good w -> tenantProvisioningWorkflowInputSchema i = Ok i ->
  tenantProvisioningInputV1Schema i = Ok i -> zod_uuid (wi_tenantId i) = true -> storable (wi_tenantId i) secrets ->
  exists res w' orgId, provision script secrets i w = (Ok res, w') /\
    (tp_workflowId res = wi_workflowId i /\ tp_tenantId res = wi_tenantId i /\
     sr_step <$> tp_steps res = [zitadel_org; paperclip_company; gitea_workspace_repo; nats_consumer_groups;
       minio_bucket; lago_customer; seed_founder_doc]) /\
    good w' /\ vw_runs w' = vw_runs w /\
    vw_calls w' = vw_calls w ++ step_calls i orgId ++ secret_calls (wi_tenantId i) secrets.
Proof.
  intros Hw Hi Hv Ht Hs. destruct (run_goes_on i Hi Hv w Hw) as (res & w1 & Hrun & Hres & Hw1 & Hr1).
  destruct (run_traced script (outboxReport script i) (report_quiet script i) i w) as [orgId Hc]. rewrite Hrun in Hc.
  unfold provision. rewrite (bind_eq _ _ _ _ _ Hrun). destruct secrets as [l|].
  - destruct (put_all_goes_on (wi_tenantId i) (bfilter (fun kv => negb (String.eqb kv.2 "")) l) w1 Hw1 Ht)
      as (w2 & E & Hw2 & Hr2 & Hc2).
    { intros k v [Hv' Hin]%elem_of_bfilter. apply (Hs l k v eq_refl Hin). simpl in Hv'. intros ->. by simpl in Hv'. }
    exists res, w2, orgId. rewrite (bind_eq _ _ _ _ _ E). split; [done|]. split; [exact Hres|].
    split; [done|]. split; [congruence|]. by rewrite Hc2, Hc, <- app_assoc.
  - exists res, w1, orgId. unfold secret_calls. rewrite app_nil_r. split; [done|]. by split.
Qed.

(** The run of a request is created, or found, and then taken in progress. *)
Lemma upsert_open i w : good w -> tenantProvisioningWorkflowInputSchema i = Ok i ->
  (request_run w i = None -> zod_uuid (env_uuid (mo_env (script (vw_tick w)))) = true) ->
  (forall r, request_run w i = Some r -> is_over r = false) ->
  exists r w', upsertRun script i w = (Ok r, w') /\ good w' /\ request_run w' i = Some r /\
    is_over r = false /\ vw_calls w' = vw_calls w.
Proof.
  intros [Hw Ht] Hi Hu Hr. destruct (Hsmooth (vw_tick w) Ht) as [Hf _].
  assert (keeps (fun _ => True) w (upsertRun (O := O) script i w).2) as Hk by apply upsert_keeps.
  destruct (request_run w i) as [r|] eqn:Er.
  - pose proof (upsert_found w i r Hf Er) as Hup. rewrite Hup in Hk. destruct (Hk Hw) as (Hw1 & _).
    exists r, (step w (vw_outbox w)). split_and!; [done|split; [done|simpl; lia]|done|by apply Hr|done].
  - destruct (upsert_new w i Hf Er Hi (Hu eq_refl)) as (r & Hup & Hst). rewrite Hup in Hk.
    destruct (Hk Hw) as (Hw1 & _). exists r, (with_run w i r).
    split_and!; [done|split; [done|simpl; lia]|apply with_run_get|unfold is_over; by rewrite Hst|done].
Qed.

Lemma start_open i w r : good w -> request_run w i = Some r -> is_over r = false ->
  exists r' w', startRun script i r w = (Ok tt, w') /\ good w' /\ request_run w' i = Some r' /\
    run_state r' = run_in_progress /\ vw_calls w' = vw_calls w.
Proof.
  intros [Hw Ht] Hr Ho. unfold startRun. destruct (run_state r) eqn:Hst;
    [rewrite bool_decide_true by done|rewrite bool_decide_false by done|unfold is_over in Ho; by rewrite Hst in Ho..].
  - destruct (Hsmooth (vw_tick w) Ht) as [Hf _].
    destruct (move_ok w i r run_requested run_in_progress None Hw Hf Hr Hst eq_refl) as (r' & Hm & Hst').
    pose proof (move_keeps script (fun _ => True) i run_requested run_in_progress None eq_refl w) as Hk.
    rewrite Hm in Hk. destruct (Hk Hw) as (Hw' & _). exists r', (with_run w i r').
    split_and!; [done|split; [done|simpl; lia]|apply with_run_get|done|done].
  - exists r, w. by split_and!.
Qed.

(** From a run in progress, a smooth attempt completes it. *)
Lemma smooth_finish secrets i w r : good w -> tenantProvisioningWorkflowInputSchema i = Ok i ->
  tenantProvisioningInputV1Schema i = Ok i -> request_run w i = Some r -> run_state r = run_in_progress ->
  zod_uuid (wi_tenantId i) = true -> storable (wi_tenantId i) secrets ->
  exists st w' r',
    (outcome ← catching (provision script secrets i);
     match outcome with
     | Err err =>
         failRun script i (orchestrator_cid (wi_workflowId i) "failed") None (Some PROVISIONING_ERROR)
           (Some (error_message err));;
         mret (mkRuntimeState (wi_workflowId i) (wi_tenantId i) None run_failed [] (Some PROVISIONING_ERROR)
           (Some (error_message err)))
     | Ok result =>
         completeRun script i (orchestrator_cid (wi_workflowId i) "completed") None;;
         mret (mkRuntimeState (tp_workflowId result) (tp_tenantId result) None run_completed
           (stepHistory (tp_completedAt result) <$> tp_steps result) None None)
     end) w = (Ok st, w') /\
    rt_state st = run_completed /\
    he_step <$> rt_history st = ["zitadel_org"; "paperclip_company"; "gitea_workspace_repo";
      "nats_consumer_groups"; "minio_bucket"; "lago_customer"; "seed_founder_doc"] /\
    request_run w' i = Some r' /\ run_state r' = run_completed /\
    is_Some (stored_event (vw_outbox w') (completed_key_of i (orchestrator_cid (wi_workflowId i) "completed"))) /\
    exists orgId, vw_calls w' = vw_calls w ++ step_calls i orgId ++ secret_calls (wi_tenantId i) secrets.
Proof.
  intros Hw Hi Hv Hr Hst Ht Hsec.
  destruct (provision_goes_on secrets i w Hw Hi Hv Ht Hsec)
    as (res & w1 & orgId & Hrun & (Hwf & Htn & Hsteps) & [Hw1 Ht1] & Hruns & Hcalls).
  assert (catching (provision script secrets i) w = (Ok (Ok res), w1)) as Hc.
  { unfold catching. by rewrite Hrun. }
  rewrite (bind_eq _ _ _ _ _ Hc). cbn beta iota.
  destruct (Hsmooth (vw_tick w1) Ht1) as [Hf _].
  destruct (emit_ok _ _ w1 Hw1 Hf (completed_built i (orchestrator_cid (wi_workflowId i) "completed") Hi ltac:(done)))
    as (o' & He & Hw2 & _ & Hs).
  destruct (Hsmooth (vw_tick (step w1 o'))) as [Hf2 _]; [simpl; lia|].
  assert (request_run (step w1 o') i = Some r) as Hr2 by (unfold request_run in *; simpl; by rewrite Hruns).
  destruct (move_ok (step w1 o') i r run_in_progress run_completed None Hw2 Hf2 Hr2 Hst eq_refl) as (r' & Hm & Hst').
  eexists _, _, r'. rewrite (bind_eq _ _ w1 tt (with_run (step w1 o') i r')).
  2: { unfold completeRun. by rewrite (bind_eq _ _ _ _ _ He). }
  split_and!; [reflexivity|done| |apply with_run_get|done|done|by exists orgId].
  simpl. rewrite <- list_fmap_compose. revert Hsteps. generalize (tp_steps res). intros l Hl.
  change (he_step ∘ stepHistory (tp_completedAt res)) with (ProvisioningStep_str ∘ sr_step).
  by rewrite list_fmap_compose, Hl.
Qed.
End smooth.
End progress.

(** ** Theorems *)

Section theorems.
Context `{Z : Zod} {ZL : ZodLaws Z} `{ErrorText} {O : Type} {P : OutboxPort O} {OS : OutboxStore O P}.
Context (script : nat -> moment).
Implicit Types (w : ProvisioningWorld O) (i : TenantProvisioningWorkflowInput) (ds : list delivery).

(** C18. A run that is over has been announced: whatever requests are
    delivered, on either path, and whatever breaks down - the database before
    or after a statement, a client, the runtime - every run recorded as
    completed or failed has its completed or failed event in the outbox, and
    no event is ever lost. *)
Theorem run_over_is_announced ds w : world_inv w ->
  (forall k r, mapGet k (vw_runs (deliveries script ds w)) = Some r -> is_over r = true ->
     announced r (vw_outbox (deliveries script ds w))) /\
  outbox_grows (vw_outbox w) (vw_outbox (deliveries script ds w)).
Proof.
  intros Hw. destruct (deliveries_keep script ds w Hw) as (Hw' & Hg & _). split; [|done].
  apply (wv_announced _ Hw').
Qed.

(** Redelivery adds nothing new: however often a request is delivered to
    the orchestrator and however the attempts go, the events it adds to the
    outbox are under ten keys, eight for progress and one for each outcome. *)
Theorem redelivery_adds_no_events i secrets inputs w k :
  world_inv w -> zod_uuid (wi_tenantId i) = true ->
  Forall (fun p => parseProvisioningInput p = Ok i) inputs ->
  is_Some (stored_event (vw_outbox (deliveries script (mkDelivery true secrets <$> inputs) w)) k) ->
  is_Some (stored_event (vw_outbox w) k) \/ k ∈ request_keys i.
Proof.
  intros Hw Hz Hin. assert (keeps (fun k => k ∈ request_keys i) w
    (deliveries script (mkDelivery true secrets <$> inputs) w)) as Hk; [|by apply Hk].
  clear Hw. revert w. induction Hin as [|p inputs Hp Hin IH]; intros w; [reflexivity|].
  change (deliveries script (mkDelivery true secrets <$> p :: inputs) w) with
    (deliveries script (mkDelivery true secrets <$> inputs) (deliver script w (mkDelivery true secrets p))).
  etrans; [|apply IH]. unfold deliver, processTenantProvisioningCompletion. simpl. rewrite Hp.
  rewrite (bind_eq _ _ w i w) by done. by apply orchestrator_keeps.
Qed.

(** A run that is over is never provisioned again: a redelivery returns
    the recorded outcome, or the error of the database, without a request to
    any external system, an event or a change of a run. *)
Theorem run_over_is_not_repeated secrets p i w r :
  parseProvisioningInput p = Ok i -> request_run w i = Some r -> is_over r = true ->
  exists x, processTenantProvisioningCompletion script true secrets p w =
    (x, mkProvisioningWorld (vw_runs w) (vw_outbox w) (vw_calls w) (vw_tick w + 1)) /\
    (x = Ok (mkRuntimeState (wi_workflowId i) (wi_tenantId i) None (run_state r) [] (run_failureCode r) None) \/
     exists e, x = Err e).
Proof.
  intros Hp Hr Ho. unfold processTenantProvisioningCompletion. rewrite Hp.
  rewrite (bind_eq _ _ w i w) by done. unfold processWithOrchestrator.
  destruct (upsert_existing script w i r Hr) as (x & Hx & [->|[e ->]]).
  - rewrite (bind_eq _ _ _ _ _ Hx), Ho. eauto.
  - rewrite (bind_err _ _ _ _ _ Hx). eauto.
Qed.

(** A request never leaves the tenant of its subject: whatever tenant
    its payload names, in either of its two forms, a request that is accepted
    is for the tenant the subject carries, and is well-formed. *)
Theorem request_stays_in_its_tenant payload subject i :
  parseTenantProvisioningRequestedEvent payload subject = Ok i ->
  tenantIdFromTenantScopedSubject subject = Ok (wi_tenantId i) /\
  tenantProvisioningWorkflowInputSchema i = Ok i.
Proof.
  unfold parseTenantProvisioningRequestedEvent. unfold mbind at 1, result_bind at 1.
  destruct (tenantIdFromTenantScopedSubject subject) as [tn|e] eqn:Hs; [|done].
  destruct (parseProvisioningInput payload) as [d|e] eqn:Hp.
  - destruct (String.eqb_spec (wi_tenantId d) tn) as [<-|]; [|done]. intros [= <-].
    split; [done|]. by eapply parse_input_ok.
  - unfold mbind, result_bind. destruct (parseRequestedPayload payload) as [[[t dk] [[[wf ext] name] by_]]|]; [|done].
    destruct (_ && _); [done|]. intros Hi. pose proof Hi as Hi'.
    destruct (provisioning_input_same _ _ Hi) as [-> _]. done.
Qed.

(** What the API requests is what the worker reads, except for its
    dedupe key: the payload does not carry it, so the worker takes the
    workflow id in its place. *)
Theorem requested_event_round_trip now i cmd subject :
  createTenantProvisioningWorkflowOutboxCommand now i = Ok cmd ->
  tenantScopedSubject (oc_tenantId cmd) (oc_eventType cmd) = Ok subject ->
  parseTenantProvisioningRequestedEvent (oc_payload cmd) subject =
    Ok (mkProvisioning (wi_tenantId i) (wi_workflowId i) (wi_workflowId i) (wi_tenantExternalId i)
          (wi_tenantName i) (wi_requestedBy i)).
Proof.
  unfold createTenantProvisioningWorkflowOutboxCommand. unfold mbind at 1, result_bind at 1.
  destruct (tenantProvisioningWorkflowInputSchema i) as [i'|] eqn:Hi; [|done].
  destruct (provisioning_input_same _ _ Hi) as (-> & Ht & Hw & Hd). intros [= <-]. simpl.
  intros Hs. assert (subject = "t." +:+ wi_tenantId i +:+ "." +:+ PROVISIONING_REQUESTED) as ->.
  { revert Hs. unfold tenantScopedSubject, mbind, result_bind.
    rewrite (proj2 (tenantIdSchema_ok _ _)) by done. by intros [= <-]. }
  unfold parseTenantProvisioningRequestedEvent. rewrite subject_tenant by done.
  unfold mbind at 1, result_bind at 1. unfold parseProvisioningInput, mbind, result_bind. simpl.
  revert Hi. unfold tenantProvisioningWorkflowInputSchema at 1. intros Hi.
  cbv beta delta [mbind result_bind] in Hi.
  destruct (uuid (wi_tenantId i)) as [t|] eqn:E1; [|done].
  destruct (min1_text (wi_workflowId i)) as [wf|] eqn:E2; [|done].
  destruct (min1_text (wi_dedupeKey i)) as [dk|] eqn:E3; [|done].
  destruct (min1_text (wi_tenantExternalId i)) as [ext|] eqn:E4; [|done].
  destruct (min1_text (wi_tenantName i)) as [name|] eqn:E5; [|done].
  destruct (min1_text (wi_requestedBy i)) as [by_|] eqn:E6; [|done]. injection Hi as <-. simpl in *.
  unfold parseRequestedPayload, mbind, result_bind, string_field. simpl. rewrite E2, E4, E5, E6. simpl.
  unfold tenantProvisioningWorkflowInputSchema, mbind, result_bind. simpl. by rewrite E1, E2, E4, E5, E6.
Qed.
(** Nothing leaves out of order: the requests an attempt sends to the
    external systems are the first of the nine of the seven steps, with their
    exact parameters, and the tenant's secrets are written only after all
    nine have been answered. *)
Theorem requests_go_out_in_order secrets i w : exists orgId pre puts,
  vw_calls (processWithOrchestrator script secrets i w).2 = vw_calls w ++ pre ++ puts /\
  pre `prefix_of` step_calls i orgId /\ Forall is_put puts /\ (puts ≠ [] -> pre = step_calls i orgId).
Proof. apply orchestrator_calls. Qed.

(** C19. Direct provisioning makes progress.  Suppose that from the moment [n]
    on no call fails, to the database or to an external system; that the
    worker provisions directly; that the request parses and passes the
    orchestrator's schema (its name has at most 128 characters); that its run
    is new (the database then gives it a uuid) or is not over, and nobody else
    moves it meanwhile; and that the secrets the worker was given can be stored: if any is non-empty, the
    tenant id is written in lower case, as secret paths are.  Then the attempt
    returns the completed state with the seven steps, has announced the
    completion and recorded the run as completed, and the requests it has
    sent are the nine of the steps followed by the write of every non-empty
    secret under the tenant's path. *)
Theorem smooth_attempt_completes n secrets p i w :
  smooth script n -> (n <= vw_tick w)%nat -> world_inv w -> parseProvisioningInput p = Ok i ->
  tenantProvisioningInputV1Schema i = Ok i -> storable (wi_tenantId i) secrets ->
  (request_run w i = None -> zod_uuid (env_uuid (mo_env (script (vw_tick w)))) = true) ->
  (forall r, request_run w i = Some r -> is_over r = false) ->
  exists st w' r, processTenantProvisioningCompletion script true secrets p w = (Ok st, w') /\
    rt_state st = run_completed /\
    he_step <$> rt_history st = ["zitadel_org"; "paperclip_company"; "gitea_workspace_repo";
      "nats_consumer_groups"; "minio_bucket"; "lago_customer"; "seed_founder_doc"] /\
    request_run w' i = Some r /\ run_state r = run_completed /\
    is_Some (stored_event (vw_outbox w') (completed_key_of i (orchestrator_cid (wi_workflowId i) "completed"))) /\
    exists orgId, vw_calls w' = vw_calls w ++ step_calls i orgId ++ secret_calls (wi_tenantId i) secrets.
Proof.
  intros Hs Hn Hw Hp Hv Hsec Hu Hr. destruct (parsed_request _ _ Hp) as [Hi Ht].
  unfold processTenantProvisioningCompletion. rewrite Hp, (bind_eq _ _ w i w) by done.
  unfold processWithOrchestrator. destruct (upsert_open script n Hs i w) as (r & w1 & Hup & Hw1 & Hr1 & Ho & Hc1);
    [by split|done..|].
  rewrite (bind_eq _ _ _ _ _ Hup), Ho.
  destruct (start_open script n Hs i w1 r) as (r2 & w2 & Hst & Hw2 & Hr2 & Hs2 & Hc2); [done..|].
  rewrite (bind_eq _ _ _ _ _ Hst), <- Hc1, <- Hc2. by apply (smooth_finish script n Hs secrets i w2 r2).
Qed.

(** An outage of the database is taken for a failure of the provisioning:
    when the first progress report cannot be written and the database works
    again right after, the attempt records and announces the run as failed,
    for good, without having asked any external system for anything. *)
Theorem outage_fails_the_run p i w e :
  let t := vw_tick w in
  world_inv w -> parseProvisioningInput p = Ok i -> tenantProvisioningInputV1Schema i = Ok i ->
  request_run w i = None -> zod_uuid (env_uuid (mo_env (script t))) = true -> error_message e ≠ "" ->
  mo_fault (script (t + 2)) = FailBefore e ->
  (forall m, m ∈ [0; 1; 3; 4]%nat -> mo_fault (script (t + m)) = NoFault) ->
  exists st w' r, processTenantProvisioningCompletion script true None p w = (Ok st, w') /\
    rt_state st = run_failed /\ request_run w' i = Some r /\ run_state r = run_failed /\
    is_Some (stored_event (vw_outbox w') (failed_key_of i (orchestrator_cid (wi_workflowId i) "failed"))) /\
    vw_calls w' = vw_calls w.
Proof.
  intros t Hw Hp Hv Er Hu Hmsg Hf2 Hf. destruct (parsed_request _ _ Hp) as [Hi _].
  unfold processTenantProvisioningCompletion. rewrite Hp, (bind_eq _ _ w i w) by done.
  unfold processWithOrchestrator.
  assert (mo_fault (script (vw_tick w)) = NoFault) as Hf0.
  { rewrite <- (Nat.add_0_r (vw_tick w)). apply Hf. by left. }
  destruct (upsert_new script w i Hf0 Er Hi Hu) as (r & Hup & Hst).
  pose proof (upsert_keeps script (fun _ => True) i w) as Hk. rewrite Hup in Hk. destruct (Hk Hw) as (Hw1 & _).
  rewrite (bind_eq _ _ _ _ _ Hup). assert (is_over r = false) as -> by (unfold is_over; by rewrite Hst).
  destruct (move_ok script (with_run w i r) i r run_requested run_in_progress None Hw1) as (r1 & Hm & Hst1);
    [apply Hf; by repeat constructor|apply with_run_get|done|done|].
  pose proof (move_keeps script (fun _ => True) i run_requested run_in_progress None eq_refl (with_run w i r)) as Hk2.
  rewrite Hm in Hk2. destruct (Hk2 Hw1) as (Hw2 & _). set (w2 := with_run (with_run w i r) i r1) in *.
  rewrite (bind_eq _ _ _ tt w2) by (unfold startRun; by rewrite Hst).
  assert (vw_tick w2 = t + 2)%nat as Et by (simpl; unfold t; lia).
  assert (catching (provision script None i) w2 = (Ok (Err e), step w2 (vw_outbox w2))) as Hc.
  { apply broken_provision; [done|done|by rewrite Et]. }
  rewrite (bind_eq _ _ _ _ _ Hc). cbn beta iota.
  set (w3 := step w2 (vw_outbox w2)) in *. assert (world_inv w3) as Hw3 by (by split; apply Hw2).
  assert (vw_tick w3 = t + 3)%nat as Et3 by (simpl; unfold t; lia).
  destruct (failure_announced script i w3 r1 (error_message e)) as (o' & _ & Hs & Hok & _); try done.
  { rewrite Et3. apply Hf. by repeat constructor. }
  { exact (with_run_get (with_run w i r) i r1). }
  destruct Hok as (r2 & Hok & Hst2).
  { rewrite Et3, <- Nat.add_assoc. apply Hf. by repeat constructor. }
  eexists _, _, r2. rewrite (bind_eq _ _ _ tt _ Hok).
  split_and!; [reflexivity|done|apply with_run_get|done|done|done].
Qed.

(** Both ends of one run can be announced: when the attempt fails and
    the database breaks down after the failure was announced and before it
    was recorded, the redelivery provisions the tenant again; if that goes
    well, the outbox holds the failed and the completed event of the run. *)
Theorem both_ends_announced p i w r e e2 :
  let t := vw_tick w in
  world_inv w -> parseProvisioningInput p = Ok i -> tenantProvisioningInputV1Schema i = Ok i ->
  request_run w i = Some r -> run_state r = run_in_progress -> error_message e ≠ "" ->
  mo_fault (script t) = NoFault -> mo_fault (script (t + 1)) = FailBefore e ->
  mo_fault (script (t + 2)) = NoFault -> mo_fault (script (t + 3)) = FailBefore e2 ->
  smooth script (t + 4) ->
  let d := mkDelivery true None p in
  let w' := deliveries script [d; d] w in
  is_Some (stored_event (vw_outbox w') (failed_key_of i (orchestrator_cid (wi_workflowId i) "failed"))) /\
  is_Some (stored_event (vw_outbox w') (completed_key_of i (orchestrator_cid (wi_workflowId i) "completed"))) /\
  exists r', request_run w' i = Some r' /\ run_state r' = run_completed.
Proof.
  intros t Hw Hp Hv Er Hst Hmsg Hf0 Hf1 Hf2 Hf3 Hs d. destruct (parsed_request _ _ Hp) as [Hi Htn].
  assert (is_over r = false) as Ho by (unfold is_over; by rewrite Hst).
  pose proof (upsert_found script w i r Hf0 Er) as Hup. set (w1 := step w (vw_outbox w)) in *.
  assert (world_inv w1) as Hw1 by (by split; apply Hw).
  assert (catching (provision script None i) w1 = (Ok (Err e), step w1 (vw_outbox w1))) as Hc
    by (by apply broken_provision).
  set (w2 := step w1 (vw_outbox w1)) in *. assert (world_inv w2) as Hw2 by (by split; apply Hw).
  assert (vw_tick w2 = t + 2)%nat as Et2 by (simpl; unfold t; lia).
  destruct (failure_announced script i w2 r (error_message e)) as (o' & Hw3 & Hs3 & _ & Hno); try done.
  { by rewrite Et2. }
  set (w4 := step (step w2 o') o') in *.
  assert (deliver script w d = w4) as Ed.
  { unfold deliver, processTenantProvisioningCompletion. simpl. rewrite Hp, (bind_eq _ _ w i w) by done.
    unfold processWithOrchestrator. rewrite (bind_eq _ _ _ _ _ Hup), Ho.
    rewrite (bind_eq _ _ _ tt w1) by (unfold startRun; by rewrite Hst).
    rewrite (bind_eq _ _ _ _ _ Hc). cbn beta iota. rewrite (bind_err _ _ _ e2 w4); [done|].
    apply Hno. by rewrite Et2, <- Nat.add_assoc. }
  assert (world_inv w4) as Hw4 by (by split; apply Hw3).
  set (w' := deliveries script [d; d] w). assert (w' = deliver script w4 d) as Ew' by (unfold w'; simpl; by rewrite Ed).
  pose proof (delivery_keeps script w4 d Hw4) as (_ & Hg & _). rewrite <- Ew' in Hg.
  assert (exists st r', processTenantProvisioningCompletion script true None p w4 = (Ok st, w') /\
    request_run w' i = Some r' /\ run_state r' = run_completed /\
    is_Some (stored_event (vw_outbox w') (completed_key_of i (orchestrator_cid (wi_workflowId i) "completed"))))
    as (st & r' & _ & Hr' & Hst' & Hcs).
  2: { split_and!; [|done|by exists r']. destruct Hs3 as [x Hx]. exists x. by apply Hg. }
  assert (vw_tick w4 = t + 4)%nat as Et by (simpl; unfold t; lia).
  rewrite Ew'. unfold deliver, processTenantProvisioningCompletion. simpl dv_direct. simpl dv_input. simpl dv_secrets.
  rewrite Hp, (bind_eq _ _ w4 i w4) by done. unfold processWithOrchestrator.
  pose proof (upsert_found script w4 i r (proj1 (Hs (vw_tick w4) ltac:(lia))) Er) as Hup4.
  rewrite (bind_eq _ _ _ _ _ Hup4), Ho.
  rewrite (bind_eq _ _ _ tt (step w4 (vw_outbox w4))) by (unfold startRun; by rewrite Hst).
  destruct (smooth_finish script (t + 4) Hs None i (step w4 (vw_outbox w4)) r) as (st & w5 & r' & Hfin & _ & _ & Hr' & Hst' & Hcs & _);
    [split; [by split; apply Hw3|simpl vw_tick; lia]|done..|].
  rewrite Hfin. simpl. by exists st, r'.
Qed.
End theorems.

(** ** Witnesses *)

Module ProvisioningExample.
Import ZodExample.

#[export] Instance example_text : ErrorText := {| zod_error_message := "invalid input" |}.

Definition payload : jobject :=
  [("tenantId", JStr tenant); ("workflowId", JStr "wf-1"); ("dedupeKey", JStr "dedupe-1");
   ("tenantExternalId", JStr "acme"); ("tenantName", JStr "Acme"); ("requestedBy", JStr "founder")].
Definition request : TenantProvisioningWorkflowInput :=
  mkProvisioning tenant "wf-1" "dedupe-1" "acme" "Acme" "founder".
Definition clients : Clients :=
  mkClients (fun n => Ok ("org-1", n)) (fun _ _ _ => Ok tt) (fun _ _ _ => Ok ("company-1", true))
    (fun _ _ _ => Ok ("https://gitea/acme", true)) (fun _ _ c => Ok (c, false)) (fun b _ => Ok (b, true))
    (fun _ _ => Ok "lago-1") (fun _ p _ => Ok ("sub-1", p)) (fun _ _ _ _ _ => Ok ("sha-1", true))
    (fun _ _ => Ok tt).
Definition outage : js_error := JsError "connection lost".
(** The moments at which the database is away. *)
Definition script (away : list nat) (n : nat) : moment :=
  mkMoment env1 (if bool_decide (n ∈ away) then FailBefore outage else NoFault) clients (Err outage).
Definition empty : ProvisioningWorld InMemoryOutbox.State :=
  mkProvisioningWorld [] InMemoryOutbox.init [] 0.
Definition started : ProvisioningWorld InMemoryOutbox.State :=
  mkProvisioningWorld [(run_key tenant "wf-1", mkRun id1 tenant "wf-1" "dedupe-1" run_in_progress None 1000 1000)]
    InMemoryOutbox.init [] 0.
Definition over : WorkflowRun := mkRun id1 tenant "wf-1" "dedupe-1" run_completed None 1000 2000.
Definition finished : ProvisioningWorld InMemoryOutbox.State :=
  mkProvisioningWorld [(run_key tenant "wf-1", over)] InMemoryOutbox.init [] 0.
Definition secrets : list (string * string) := [("openai_api_key", "sk-1"); ("gitea_token", "")].
(** The same request with the tenant id in upper case. *)
Definition upper : string := "7C9E6679-7425-40DE-944B-E07FC1F90AE7".
Definition upper_payload : jobject :=
  [("tenantId", JStr upper); ("workflowId", JStr "wf-1"); ("dedupeKey", JStr "dedupe-1");
   ("tenantExternalId", JStr "acme"); ("tenantName", JStr "Acme"); ("requestedBy", JStr "founder")].
Definition upper_request : TenantProvisioningWorkflowInput :=
  mkProvisioning upper "wf-1" "dedupe-1" "acme" "Acme" "founder".
Definition attempt : delivery := mkDelivery true None payload.
Definition final : ProvisioningWorld InMemoryOutbox.State := deliveries (script []) [attempt] empty.
Definition final_run : WorkflowRun := match request_run final request with Some r => r | None => over end.

Lemma runs_inv_nil : runs_inv [].
Proof. split; [apply keyed_nil|done]. Qed.

Lemma empty_inv : world_inv (OS := in_memory_outbox_store) empty.
Proof. split; [exact runs_inv_nil|exact outbox_inv_init|done]. Qed.

Lemma started_inv : world_inv (OS := in_memory_outbox_store) started.
Proof.
  split; [|exact outbox_inv_init|].
  - apply (runs_inv_set [] (run_key tenant "wf-1") (mkRun id1 tenant "wf-1" "dedupe-1" run_in_progress None 1000 1000));
      [exact runs_inv_nil|reflexivity|reflexivity].
  - intros k r. simpl. case_bool_decide; [|done]. by intros [= <-].
Qed.

Lemma script_smooth away n : (forall m, m ∈ away -> (m < n)%nat) -> smooth (script away) n.
Proof.
  intros Ha m Hm. split.
  - simpl. rewrite bool_decide_false; [done|]. intros Hin. specialize (Ha m Hin). lia.
  - unfold clients_ok. split_and!; intros; by eexists.
Qed.
End ProvisioningExample.

Section witnesses.
Import ZodExample ProvisioningExample.

(** A tenant id in upper case is a valid request, all nine provisioning
    requests succeed, and then the path of the first secret is refused, before
    any secret is written: the run ends failed.  Without a secret to store the
    same request completes. *)
Theorem upper_case_tenant_fails :
  let x := processTenantProvisioningCompletion (script []) true
    (Some secrets) upper_payload empty in
  let y := processTenantProvisioningCompletion (script []) true None
    upper_payload empty in
  (exists st, x.1 = Ok st /\ rt_state st = run_failed) /\
  vw_calls x.2 = step_calls upper_request "org-1" /\
  (exists st, y.1 = Ok st /\ rt_state st = run_completed).
Proof.
  cbv zeta. split_and!; [|vm_compute; reflexivity|]; eexists; split; vm_compute; reflexivity.
Qed.

Lemma run_over_is_announced_witness : announced (OS := in_memory_outbox_store) final_run (vw_outbox final).
Proof.
  refine (proj1 (run_over_is_announced (OS := in_memory_outbox_store) (script []) [attempt] empty empty_inv)
    (run_key tenant "wf-1") final_run _ _); vm_compute; reflexivity.
Defined.

Lemma redelivery_adds_no_events_witness :
  is_Some (stored_event (vw_outbox empty) (completed_key_of request (orchestrator_cid "wf-1" "completed"))) \/
  completed_key_of request (orchestrator_cid "wf-1" "completed") ∈ request_keys request.
Proof.
  apply (redelivery_adds_no_events (OS := in_memory_outbox_store) (script []) request None [payload; payload] empty);
    [exact empty_inv|reflexivity|repeat constructor|].
  assert (bool_decide (is_Some (stored_event (OutboxStore := in_memory_outbox_store)
    (vw_outbox (deliveries (script []) (mkDelivery true None <$> [payload; payload]) empty))
    (completed_key_of request (orchestrator_cid "wf-1" "completed")))) = true) as Hb by (vm_compute; reflexivity).
  by apply bool_decide_eq_true in Hb.
Defined.

Lemma run_over_is_not_repeated_witness :
  exists x, processTenantProvisioningCompletion (script []) true None payload finished =
    (x, mkProvisioningWorld (vw_runs finished) (vw_outbox finished) (vw_calls finished) 1).
Proof.
  destruct (run_over_is_not_repeated (script []) None payload request finished over) as (x & Hx & _);
    [reflexivity..|]. by exists x.
Defined.

Lemma request_stays_in_its_tenant_witness :
  tenantIdFromTenantScopedSubject ("t." +:+ tenant +:+ "." +:+ PROVISIONING_REQUESTED) = Ok (wi_tenantId request).
Proof.
  apply (request_stays_in_its_tenant payload). vm_compute. reflexivity.
Defined.

Lemma requested_event_round_trip_witness :
  parseTenantProvisioningRequestedEvent
    [("workflow_id", JStr "wf-1"); ("tenant_external_id", JStr "acme"); ("tenant_name", JStr "Acme");
     ("requested_by", JStr "founder"); ("requested_at", JStr (toISOString 1000))]
    ("t." +:+ tenant +:+ "." +:+ PROVISIONING_REQUESTED) =
  Ok (mkProvisioning tenant "wf-1" "wf-1" "acme" "Acme" "founder").
Proof.
  apply (requested_event_round_trip 1000 request (mkEnqueue tenant PROVISIONING_REQUESTED "dedupe-1"
    [("workflow_id", JStr "wf-1"); ("tenant_external_id", JStr "acme"); ("tenant_name", JStr "Acme");
     ("requested_by", JStr "founder"); ("requested_at", JStr (toISOString 1000))])); reflexivity.
Defined.

Lemma smooth_attempt_completes_witness :
  exists st w' r, processTenantProvisioningCompletion (script []) true (Some secrets) payload empty = (Ok st, w') /\
    request_run w' request = Some r /\ run_state r = run_completed /\
    last (vw_calls w') = Some (PutSecret ("tenants/" +:+ tenant +:+ "/openai_api_key") "sk-1").
Proof.
  destruct (smooth_attempt_completes (OS := in_memory_outbox_store) (script []) 0 (Some secrets) payload request empty)
    as (st & w' & r & H1 & _ & _ & H2 & H3 & _ & orgId & H4);
    [|lia|exact empty_inv|(vm_compute; reflexivity)..| |intros _; vm_compute; reflexivity|done|].
  - apply script_smooth. intros m Hm. by apply not_elem_of_nil in Hm.
  - intros l k v [= <-] [[= -> ->]|[[= -> ->]|Hin%not_elem_of_nil]%elem_of_cons]%elem_of_cons Hv; [by eexists|done..].
  - exists st, w', r. refine (conj H1 (conj H2 (conj H3 _))). rewrite H4, !last_app. reflexivity.
Defined.

Lemma outage_fails_the_run_witness :
  exists st w' r, processTenantProvisioningCompletion (script [2%nat]) true None payload empty = (Ok st, w') /\
    request_run w' request = Some r /\ run_state r = run_failed /\ vw_calls w' = [].
Proof.
  destruct (outage_fails_the_run (OS := in_memory_outbox_store) (script [2%nat]) payload request empty outage)
    as (st & w' & r & H1 & _ & H2 & H3 & _ & H4); [exact empty_inv|(vm_compute; reflexivity)..|discriminate|reflexivity| |exists st, w', r; exact (conj H1 (conj H2 (conj H3 H4)))].
  intros m Hm. repeat (apply elem_of_cons in Hm as [->|Hm]; [reflexivity|]). by apply not_elem_of_nil in Hm.
Defined.

Lemma both_ends_announced_witness :
  let w' := deliveries (script [1%nat; 3%nat]) [attempt; attempt] started in
  is_Some (stored_event (vw_outbox w') (failed_key_of request (orchestrator_cid "wf-1" "failed"))) /\
  is_Some (stored_event (vw_outbox w') (completed_key_of request (orchestrator_cid "wf-1" "completed"))).
Proof.
  destruct (both_ends_announced (OS := in_memory_outbox_store) (script [1%nat; 3%nat]) payload request started
    (mkRun id1 tenant "wf-1" "dedupe-1" run_in_progress None 1000 1000) outage outage) as (H1 & H2 & _);
    [exact started_inv|reflexivity|reflexivity|reflexivity|reflexivity|discriminate|reflexivity..| |exact (conj H1 H2)].
  apply script_smooth. intros m Hm. repeat (apply elem_of_cons in Hm as [->|Hm]; [simpl; lia|]). by apply not_elem_of_nil in Hm.
Defined.
End witnesses.
