(* ===== verification/Playbooks.v ===== *)
(** * Playbook versions

    [packages/db/src/playbook-versions-repository.ts]: the in-memory
    repository (module [InMemoryPlaybooks]) and the Postgres one (module
    [PostgresPlaybooks]), with the equivalence of the two and the version
    numbers they give out. *)

From S2P Require Import Prelude Numbers JsRuntime Zod Sql ControlPlane.

(** ** Records *)

Inductive PlaybookType := pt_content_brief | pt_intel_brief | pt_blog_draft | pt_custom.

#[export] Instance PlaybookType_eq_dec : EqDecision PlaybookType.
Proof. solve_decision. Defined.

Definition PlaybookType_str (t : PlaybookType) : string :=
  match t with
  | pt_content_brief => "content_brief"
  | pt_intel_brief => "intel_brief"
  | pt_blog_draft => "blog_draft"
  | pt_custom => "custom"
  end.

#[export] Instance PlaybookType_str_inj : Inj (=) (=) PlaybookType_str.
Proof. by intros [] []. Qed.

Record PlaybookVersionRecord := mkPlaybook {
  pv_id : string;
  pv_tenantId : string;
  pv_playbookType : PlaybookType;
  pv_version : Z;
  pv_name : string;
  pv_description : option string;
  pv_content : jobject;
  pv_effectiveAt : Z;
  pv_retiredAt : option Z;
  pv_createdBy : string;
  pv_createdAt : Z;
}.

#[export] Instance playbook_eta : Eta PlaybookVersionRecord := fun r =>
  mkPlaybook (pv_id r) (pv_tenantId r) (pv_playbookType r) (pv_version r) (pv_name r)
    (pv_description r) (pv_content r) (pv_effectiveAt r) (pv_retiredAt r) (pv_createdBy r)
    (pv_createdAt r).

Record CreatePlaybookVersionParams := mkCreatePlaybook {
  cp_playbookType : PlaybookType;
  cp_name : string;
  cp_description : option string;
  cp_content : jobject;
  cp_createdBy : string;
  cp_effectiveAt : option Z;
}.

Definition playbookVersionRecordSchema `{Zod} (r : PlaybookVersionRecord) : result PlaybookVersionRecord :=
  id ← uuid (pv_id r); tn ← uuid (pv_tenantId r); v ← positive_int (pv_version r);
  name ← min1_text (pv_name r); by_ ← min1_text (pv_createdBy r);
  mret (mkPlaybook id tn (pv_playbookType r) v name (pv_description r) (pv_content r)
    (pv_effectiveAt r) (pv_retiredAt r) by_ (pv_createdAt r)).

(** The record both repositories make. *)
Definition newPlaybook (env : call_env) (tenantId : string) (params : CreatePlaybookVersionParams)
    (version : Z) : PlaybookVersionRecord :=
  mkPlaybook (env_uuid env) tenantId (cp_playbookType params) version (cp_name params)
    (cp_description params) (cp_content params) (cp_effectiveAt params ?: env_now env) None
    (cp_createdBy params) (env_now env).

(** Newest version first. *)
Definition newer (a b : PlaybookVersionRecord) : bool := pv_version b <=? pv_version a.

(** ** The in-memory repository *)

Module InMemoryPlaybooks.
Record State := mkState {
  records : jsmap PlaybookVersionRecord;
  versionCounters : jsmap Z;
}.

#[export] Instance state_eta : Eta State := fun s => mkState (records s) (versionCounters s).

Definition init : State := mkState [] [].

Definition typeKey (tenantId : string) (playbookType : PlaybookType) : string :=
  tenantId +:+ ":" +:+ PlaybookType_str playbookType.

Definition of_type (tenantId : string) (playbookType : PlaybookType) (r : PlaybookVersionRecord) : bool :=
  bool_decide (pv_tenantId r = tenantId) && bool_decide (pv_playbookType r = playbookType).
Definition active (tenantId : string) (playbookType : PlaybookType) (r : PlaybookVersionRecord) : bool :=
  of_type tenantId playbookType r && bool_decide (pv_retiredAt r = None).

Definition getActive (tenantId : string) (playbookType : PlaybookType) :
    M State (option PlaybookVersionRecord) :=
  gets (fun s => head (sort_by newer (bfilter (active tenantId playbookType) (mapValues (records s))))).

Definition listAll (tenantId : string) (playbookType : PlaybookType) :
    M State (list PlaybookVersionRecord) :=
  gets (fun s => sort_by newer (bfilter (of_type tenantId playbookType) (mapValues (records s)))).

Section ops.
Context `{Zod}.

(** The counter advances before the record is validated. *)
Definition create (env : call_env) (tenantId : string) (params : CreatePlaybookVersionParams) :
    M State PlaybookVersionRecord :=
  lift (tenantIdSchema tenantId);;
  let key := typeKey tenantId (cp_playbookType params) in
  counter ← gets (fun s => mapGet key (versionCounters s));
  let nextVersion := (counter ?: 0) + 1 in
  modify (fun s => s <| versionCounters := mapSet key nextVersion (versionCounters s) |>);;
  record ← lift (playbookVersionRecordSchema (newPlaybook env tenantId params nextVersion));
  modify (fun s => s <| records := mapSet (pv_id record) record (records s) |>);;
  mret record.
End ops.

Definition retire (env : call_env) (tenantId id : string) : M State unit :=
  record ← gets (fun s => mapGet id (records s));
  match record with
  | None => mret tt
  | Some r =>
      if negb (bool_decide (pv_tenantId r = tenantId)) then mret tt
      else if negb (bool_decide (pv_retiredAt r = None)) then mret tt
      else modify (fun s => s <| records := mapSet id (r <| pv_retiredAt := Some (env_now env) |>) (records s) |>)
  end.
End InMemoryPlaybooks.

(** ** The Postgres repository *)

Module PostgresPlaybooks.
Section ops.
Context `{Zod} {E : SqlEngine}.

Definition mapRow (row : PlaybookVersionRecord) : result PlaybookVersionRecord :=
  playbookVersionRecordSchema row.

Definition where_type (tenantId : string) (playbookType : PlaybookType) (r : PlaybookVersionRecord) : tri :=
  sql_all [col_eq (pv_tenantId r) tenantId; col_eq (pv_playbookType r) playbookType].

Definition getActive (tenantId : string) (playbookType : PlaybookType) :
    M (table PlaybookVersionRecord) (option PlaybookVersionRecord) :=
  parsedTenantId ← lift (db_uuid tenantId);
  transaction (
    found ← tx_select (fun r => holds (sql_and (where_type parsedTenantId playbookType r) (is_null (pv_retiredAt r))));
    match take 1 (sort_by newer found) with
    | row :: _ => r ← lift (mapRow row); mret (Some r)
    | [] => mret None
    end).

Definition listAll (tenantId : string) (playbookType : PlaybookType) :
    M (table PlaybookVersionRecord) (list PlaybookVersionRecord) :=
  parsedTenantId ← lift (db_uuid tenantId);
  transaction (
    found ← tx_select (fun r => holds (where_type parsedTenantId playbookType r));
    lift (zod_array_map mapRow (sort_by newer found))).

(** [unique (tenant_id, playbook_type, version)] *)
Definition same_version (a b : PlaybookVersionRecord) : bool :=
  bool_decide (pv_tenantId a = pv_tenantId b) &&
  bool_decide (pv_playbookType a = pv_playbookType b) &&
  bool_decide (pv_version a = pv_version b).

(** [SELECT MAX(version)], [NULL] over no rows *)
Definition max_version (rows : list PlaybookVersionRecord) : option Z :=
  foldr (fun r acc => Some (Z.max (pv_version r) (acc ?: pv_version r))) None rows.

(** The parameters of the insert, as their columns keep them. *)
Definition playbook_columns (p : CreatePlaybookVersionParams) : CreatePlaybookVersionParams :=
  mkCreatePlaybook (cp_playbookType p) (cp_name p) (cp_description p) (jsonb_in (cp_content p))
    (cp_createdBy p) (cp_effectiveAt p).

(** [others] is what concurrent transactions commit between the two
    statements; a plain [INSERT] throws on a unique violation. *)
Definition create (others : table PlaybookVersionRecord -> table PlaybookVersionRecord) (env : call_env)
    (tenantId : string) (params : CreatePlaybookVersionParams) :
    M (table PlaybookVersionRecord) PlaybookVersionRecord :=
  parsedTenantId ← lift (db_uuid tenantId);
  transaction_with others (
    found ← tx_select (fun r => holds (where_type parsedTenantId (cp_playbookType params) r));
    let nextVersion := (max_version found ?: 0) + 1 in
    await others;;
    inserted ← tx_insert same_version (newPlaybook env parsedTenantId (playbook_columns params) nextVersion);
    match inserted with
    | row :: _ => lift (mapRow row)
    | [] => throw (JsError "duplicate key value violates unique constraint")
    end).

(** The id is not parsed: the database refuses one that is no UUID. *)
Definition retire (env : call_env) (tenantId id : string) : M (table PlaybookVersionRecord) unit :=
  parsedTenantId ← lift (db_uuid tenantId);
  transaction (
    rowId ← lift (uuid_in id);
    tx_update (fun r => holds (sql_all [col_eq (pv_tenantId r) parsedTenantId; col_eq (pv_id r) rowId;
        is_null (pv_retiredAt r)]))
      (fun r => r <| pv_retiredAt := Some (env_now env) |>);;
    mret tt).
End ops.
End PostgresPlaybooks.

(** ** Histories *)

Inductive playbook_call :=
  | PGetActive (tenantId : string) (playbookType : PlaybookType)
  | PListAll (tenantId : string) (playbookType : PlaybookType)
  | PCreate (tenantId : string) (params : CreatePlaybookVersionParams)
  | PRetire (tenantId id : string).

Inductive playbook_answer :=
  | PA_record (r : option PlaybookVersionRecord)
  | PA_list (l : list PlaybookVersionRecord)
  | PA_done.

Section exec.
Context `{Zod} {E : SqlEngine}.

Definition memory_exec (c : playbook_call) (env : call_env) : M InMemoryPlaybooks.State playbook_answer :=
  match c with
  | PGetActive tn ty => r ← InMemoryPlaybooks.getActive tn ty; mret (PA_record r)
  | PListAll tn ty => l ← InMemoryPlaybooks.listAll tn ty; mret (PA_list l)
  | PCreate tn p => r ← InMemoryPlaybooks.create env tn p; mret (PA_record (Some r))
  | PRetire tn id => InMemoryPlaybooks.retire env tn id;; mret PA_done
  end.

Definition postgres_exec (c : playbook_call) (env : call_env) :
    M (table PlaybookVersionRecord) playbook_answer :=
  match c with
  | PGetActive tn ty => r ← PostgresPlaybooks.getActive tn ty; mret (PA_record r)
  | PListAll tn ty => l ← PostgresPlaybooks.listAll tn ty; mret (PA_list l)
  | PCreate tn p => r ← PostgresPlaybooks.create (fun t => t) env tn p; mret (PA_record (Some r))
  | PRetire tn id => PostgresPlaybooks.retire env tn id;; mret PA_done
  end.

(** What is created passes the record's schema. *)
Definition accepted (p : CreatePlaybookVersionParams) : bool :=
  negb (String.eqb (cp_name p) "") && negb (String.eqb (cp_createdBy p) "").

(** The ids are UUIDs written as the database prints them, what is created
    passes the record's schema, and its content keeps its keys in order. *)
Definition playbook_call_ok (c : playbook_call) : Prop :=
  match c with
  | PGetActive tn _ | PListAll tn _ => canonical tn
  | PRetire tn id => canonical tn /\ canonical id
  | PCreate tn p => canonical tn /\ accepted p = true /\ jsonb_in (cp_content p) = cp_content p
  end.

(** The ids the runtime hands out are UUIDs that are not in use. *)
Fixpoint playbook_ids_fresh (cs : list (playbook_call * call_env)) (s : InMemoryPlaybooks.State) : Prop :=
  match cs with
  | [] => True
  | (c, env) :: cs' =>
      zod_uuid (env_uuid env) = true /\ mapGet (env_uuid env) (InMemoryPlaybooks.records s) = None /\
      playbook_ids_fresh cs' (memory_exec c env s).2
  end.
End exec.

(** ** Versions are given out in sequence *)

(** The attempts to create a version of one type of one tenant, in order:
    whether each was accepted. *)
Definition attempts (tn : string) (ty : PlaybookType) (cs : list (playbook_call * call_env)) : list bool :=
  omap (fun ce => match ce.1 with
    | PCreate tn' p => if bool_decide (tn' = tn) && bool_decide (cp_playbookType p = ty)
                       then Some (accepted p) else None
    | _ => None
    end) cs.
#[global] Arguments attempts : simpl never.

(** Every attempt takes the next number, from [k] on; the accepted ones keep
    theirs. *)
Fixpoint numbered (k : Z) (l : list bool) : list Z :=
  match l with
  | [] => []
  | b :: l' => (if b then [k] else []) ++ numbered (k + 1) l'
  end.

Lemma numbered_app k l l' : numbered k (l ++ l') = numbered k l ++ numbered (k + Z.of_nat (length l)) l'.
Proof.
  revert k. induction l as [|b l IH]; intros k; simpl; [by rewrite Z.add_0_r|].
  rewrite IH, <- app_assoc. do 3 f_equal. lia.
Qed.

Lemma numbered_bounds k l x : x ∈ numbered k l -> k <= x < k + Z.of_nat (length l).
Proof.
  revert k. induction l as [|b l IH]; intros k; simpl; [by intros ?%not_elem_of_nil|].
  intros [Hx|Hx%IH]%elem_of_app; [|lia].
  destruct b; [apply list_elem_of_singleton in Hx; lia|by apply not_elem_of_nil in Hx].
Qed.

Lemma numbered_accepted k l : Forall (fun b => b = true) l -> numbered k l = seqZ k (Z.of_nat (length l)).
Proof.
  intros H. revert k. induction H as [|b l -> H IH]; intros k; [done|]. simpl. rewrite IH.
  rewrite (seqZ_cons k) by lia. simpl. do 2 f_equal; lia.
Qed.

(** Read from the end, they go down. *)
Lemma numbered_sorted k l : StronglySorted (fun a b : Z => b <= a) (reverse (numbered k l)).
Proof.
  induction l as [|b l IH] using rev_ind; [constructor|]. rewrite numbered_app, reverse_app. simpl.
  destruct b; simpl; [|done]. constructor; [done|].
  apply Forall_forall. intros x. rewrite elem_of_reverse. intros ?%numbered_bounds. lia.
Qed.

Section lemmas.
Context `{Z : Zod} {ZL : ZodLaws Z}.
Import InMemoryPlaybooks.
Implicit Types (s : State) (r : PlaybookVersionRecord) (l : list PlaybookVersionRecord).

Definition counter s tn ty : BinNums.Z := mapGet (typeKey tn ty) (versionCounters s) ?: 0.
Definition typed s tn ty : list PlaybookVersionRecord := bfilter (of_type tn ty) (mapValues (records s)).

(** The repository after the attempts [ls]. *)
Record playbook_state (ls : string -> PlaybookType -> list bool) s : Prop := {
  ps_keyed : keyed pv_id (records s);
  ps_valid r : r ∈ mapValues (records s) -> playbookVersionRecordSchema r = Ok r;
  ps_counter tn ty : zod_uuid tn = true -> counter s tn ty = BinInt.Z.of_nat (length (ls tn ty));
  ps_versions tn ty : zod_uuid tn = true -> pv_version <$> typed s tn ty = numbered 1 (ls tn ty);
}.

(** No attempt was refused. *)
Definition playbook_inv s : Prop := exists ls, playbook_state ls s /\
  forall tn ty, zod_uuid tn = true -> Forall (fun b => b = true) (ls tn ty).

Lemma playbook_state_init : playbook_state (fun _ _ => []) init.
Proof. split; [apply keyed_nil|set_solver|done|done]. Qed.
Lemma playbook_inv_init : playbook_inv init.
Proof. eexists. split; [apply playbook_state_init|constructor]. Qed.

Lemma pl_keyed s : playbook_inv s -> keyed pv_id (records s).
Proof. by intros (ls & [? _ _ _] & _). Qed.
Lemma pl_valid s : playbook_inv s -> forall r, r ∈ mapValues (records s) -> playbookVersionRecordSchema r = Ok r.
Proof. by intros (ls & [_ ? _ _] & _). Qed.
Lemma pl_counter s : playbook_inv s -> forall tn ty, zod_uuid tn = true -> 0 <= counter s tn ty.
Proof. intros (ls & Hs & _) tn ty Ht. rewrite (ps_counter _ _ Hs) by done. lia. Qed.
Lemma pl_versions s : playbook_inv s -> forall tn ty, zod_uuid tn = true ->
  pv_version <$> typed s tn ty = seqZ 1 (counter s tn ty).
Proof.
  intros (ls & Hs & Hls) tn ty Ht. rewrite (ps_versions _ _ Hs), (ps_counter _ _ Hs) by done.
  by apply numbered_accepted, Hls.
Qed.

Lemma playbook_schema_ok r : playbookVersionRecordSchema r = Ok r <->
  zod_uuid (pv_id r) = true /\ zod_uuid (pv_tenantId r) = true /\ 0 < pv_version r /\
  pv_name r ≠ "" /\ pv_createdBy r ≠ "".
Proof.
  unfold playbookVersionRecordSchema, mbind, result_bind. split.
  - destruct (uuid (pv_id r)) eqn:E1; [|done]. destruct (uuid (pv_tenantId r)) eqn:E2; [|done].
    destruct (positive_int (pv_version r)) eqn:E3; [|done]. destruct (min1_text (pv_name r)) eqn:E4; [|done].
    destruct (min1_text (pv_createdBy r)) eqn:E5; [|done]. intros _.
    apply uuid_ok in E1 as [? _], E2 as [? _]. apply min1_text_ok in E4 as [? _], E5 as [? _].
    apply refine_ok in E3 as [?%BinInt.Z.ltb_lt _]. done.
  - intros (H1 & H2 & H3 & H4 & H5). rewrite !(proj2 (uuid_ok _ _)) by done.
    unfold positive_int. rewrite (proj2 (refine_ok _ _ _)) by (split; [by apply BinInt.Z.ltb_lt|done]).
    rewrite !(proj2 (min1_text_ok _ _)) by done. by destruct r.
Qed.

Lemma playbook_schema_same r r' : playbookVersionRecordSchema r = Ok r' -> r' = r.
Proof.
  unfold playbookVersionRecordSchema. intros H. schema_fields H. subst r'. by destruct r.
Qed.

Lemma playbook_schema_error r x : playbookVersionRecordSchema r = Err x -> x = ZodError.
Proof.
  unfold playbookVersionRecordSchema, positive_int, min1_text, uuid, refine. msimpl.
  intros H. repeat (case_match; simplify_eq/=; try done).
Qed.

Lemma accepted_spec p : accepted p = true <-> cp_name p ≠ "" /\ cp_createdBy p ≠ "".
Proof. unfold accepted. by rewrite andb_true_iff, !negb_true_iff, !String.eqb_neq. Qed.

Lemma type_key_inj tn ty tn' ty' : zod_uuid tn = true -> zod_uuid tn' = true ->
  typeKey tn ty = typeKey tn' ty' -> tn = tn' /\ ty = ty'.
Proof.
  intros Ht Ht' H. unfold typeKey in H. apply colon_key_inj in H as [-> H]; [|by apply zod_uuid_no_colon..].
  by apply (inj PlaybookType_str) in H as ->.
Qed.

Lemma of_type_self tn ty r : of_type tn ty r = true <-> pv_tenantId r = tn /\ pv_playbookType r = ty.
Proof. unfold of_type. by rewrite andb_true_iff, !bool_decide_eq_true. Qed.

(** An attempt to create takes the next number; the record is kept when it is
    accepted. *)
Lemma create_eq env tn p s : zod_uuid tn = true -> zod_uuid (env_uuid env) = true ->
  0 <= counter s tn (cp_playbookType p) ->
  let new := newPlaybook env tn p (counter s tn (cp_playbookType p) + 1) in
  let counters := mapSet (typeKey tn (cp_playbookType p)) (pv_version new) (versionCounters s) in
  (playbookVersionRecordSchema new = Ok new <-> accepted p = true) /\
  create env tn p s = if accepted p then (Ok new, mkState (mapSet (pv_id new) new (records s)) counters)
                      else (Err ZodError, mkState (records s) counters).
Proof.
  intros Ht Hu Hpos new counters.
  assert (playbookVersionRecordSchema new = Ok new <-> accepted p = true) as Hiff.
  { rewrite playbook_schema_ok, accepted_spec. simpl. naive_solver lia. }
  split; [done|]. unfold create. msimpl. rewrite (proj2 (tenantIdSchema_ok _ _)) by done. simpl.
  change (newPlaybook env tn p _) with new. destruct (accepted p); [by rewrite (proj2 Hiff)|].
  destruct (playbookVersionRecordSchema new) as [r|x] eqn:Hr.
  - apply playbook_schema_same in Hr as Hr'. subst r. discriminate (proj1 Hiff eq_refl).
  - apply playbook_schema_error in Hr as ->. done.
Qed.

Lemma create_ok env tn p s : playbook_inv s -> zod_uuid tn = true -> accepted p = true ->
  zod_uuid (env_uuid env) = true ->
  create env tn p s =
    let new := newPlaybook env tn p (counter s tn (cp_playbookType p) + 1) in
    (Ok new, mkState (mapSet (pv_id new) new (records s))
      (mapSet (typeKey tn (cp_playbookType p)) (pv_version new) (versionCounters s))).
Proof.
  intros Hs Ht Ha Hu. destruct (create_eq env tn p s Ht Hu (pl_counter s Hs _ _ Ht)) as [_ ->]. by rewrite Ha.
Qed.

Lemma attempts_snoc tn ty cs ce : attempts tn ty (cs ++ [ce]) = attempts tn ty cs ++ attempts tn ty [ce].
Proof. apply omap_app. Qed.

Lemma attempts_create tn ty tn' p env : attempts tn ty [(PCreate tn' p, env)] =
  if bool_decide (tn' = tn) && bool_decide (cp_playbookType p = ty) then [accepted p] else [].
Proof. unfold attempts. simpl. by destruct (_ && _). Qed.

Lemma state_same ls ls' s : playbook_state ls s ->
  (forall tn ty, zod_uuid tn = true -> ls' tn ty = ls tn ty) -> playbook_state ls' s.
Proof. intros [? ? Hc Hv] H. split; [done..| |]; intros tn ty Ht; rewrite H by done; [by apply Hc|by apply Hv]. Qed.

(** What an attempt does to a counter. *)
Lemma counter_set rs tn ty n s tn' ty' : zod_uuid tn = true -> zod_uuid tn' = true ->
  counter (mkState rs (mapSet (typeKey tn ty) n (versionCounters s))) tn' ty' =
  if bool_decide (tn = tn') && bool_decide (ty = ty') then n else counter s tn' ty'.
Proof.
  intros Ht Ht'. unfold counter. simpl. rewrite mapGet_set. case_bool_decide as Hk.
  - apply type_key_inj in Hk as [-> ->]; [|done..]. by rewrite !bool_decide_true.
  - do 2 (case_bool_decide; [|done]). subst. done.
Qed.

Lemma create_state ls env tn p s : playbook_state ls s -> zod_uuid (env_uuid env) = true ->
  mapGet (env_uuid env) (records s) = None ->
  playbook_state (fun tn' ty' => ls tn' ty' ++ attempts tn' ty' [(PCreate tn p, env)]) (create env tn p s).2.
Proof.
  intros Hs Hu Hf. destruct (zod_uuid tn) eqn:Ht.
  2: { unfold create. msimpl. destruct (tenantIdSchema tn) as [t|] eqn:E.
       { apply tenantIdSchema_ok in E as [? _]. congruence. }
       apply (state_same ls); [done|]. intros tn' ty' Ht'. cbv beta. rewrite attempts_create.
       rewrite bool_decide_false by congruence. simpl. by rewrite app_nil_r. }
  pose proof (ps_counter _ _ Hs tn (cp_playbookType p) Ht) as Hn.
  destruct (create_eq env tn p s Ht Hu) as [Hnew ->]; [lia|]. cbv zeta in Hnew.
  set (new := newPlaybook _ _ _ _) in *.
  assert (forall tn' ty', of_type tn' ty' new = bool_decide (tn = tn') && bool_decide (cp_playbookType p = ty'))
    as Hof by done.
  assert (forall rs tn' ty', zod_uuid tn' = true ->
    counter (mkState rs (mapSet (typeKey tn (cp_playbookType p)) (pv_version new) (versionCounters s))) tn' ty' =
    BinInt.Z.of_nat (length (ls tn' ty' ++ attempts tn' ty' [(PCreate tn p, env)]))) as Hcount.
  { intros rs tn' ty' Ht'. rewrite counter_set, length_app, attempts_create by done.
    destruct (bool_decide (tn = tn')) eqn:E1, (bool_decide (cp_playbookType p = ty')) eqn:E2; simpl;
      rewrite ?(ps_counter _ _ Hs tn' ty') by done; b2p; subst; lia. }
  destruct (accepted p) eqn:Ha; (split; simpl; [| |intros; by apply Hcount|]).
  - change (keyed pv_id (mapSet (pv_id new) new (records s))). apply keyed_set, Hs.
  - intros r. rewrite mapValues_set_new by done. rewrite elem_of_app, list_elem_of_singleton.
    intros [Hr| ->]; [by apply (ps_valid _ _ Hs)|by apply Hnew].
  - intros tn' ty' Ht'. unfold typed. simpl. rewrite mapValues_set_new, bfilter_app, fmap_app by done.
    fold (typed s tn' ty'). rewrite (ps_versions _ _ Hs tn' ty' Ht'), numbered_app, attempts_create, bfilter_cons, Hof.
    destruct (bool_decide (tn = tn')) eqn:E1, (bool_decide (cp_playbookType p = ty')) eqn:E2; simpl; try done.
    rewrite Ha. b2p. subst. simpl. do 2 f_equal. lia.
  - apply Hs.
  - apply (ps_valid _ _ Hs).
  - intros tn' ty' Ht'. change (typed _ tn' ty') with (typed s tn' ty').
    rewrite (ps_versions _ _ Hs tn' ty' Ht'), numbered_app, attempts_create.
    destruct (_ && _); simpl; rewrite ?Ha; by rewrite app_nil_r.
Qed.

Lemma retire_state ls env tn id s : playbook_state ls s -> playbook_state ls (retire env tn id s).2.
Proof.
  intros Hs. unfold retire. msimpl. destruct (mapGet id (records s)) as [r|] eqn:Hr; [|done]. simpl.
  destruct (negb (bool_decide (pv_tenantId r = tn))); [done|].
  destruct (negb (bool_decide (pv_retiredAt r = None))); [done|]. simpl.
  pose proof (ps_keyed _ _ Hs) as Hk.
  set (r' := r <| pv_retiredAt := Some (env_now env) |>).
  assert (pv_id r' = id) as Hid by (exact (proj2 Hk _ _ Hr)).
  assert (playbookVersionRecordSchema r = Ok r) as Hv.
  { apply (ps_valid _ _ Hs). apply elem_of_mapValues; [apply Hk|eauto]. }
  assert (mapValues (mapSet id r' (records s)) =
    (fun u => if String.eqb (pv_id u) id then r' else u) <$> mapValues (records s)) as Hvals.
  { apply (mapValues_set_old pv_id id r' _ r); [apply Hk|apply Hk|done]. }
  assert (forall u, u ∈ mapValues (records s) -> String.eqb (pv_id u) id = true -> u = r) as Hsame.
  { intros u Hin Hu'. apply String.eqb_eq in Hu'. apply (keyed_values pv_id) in Hin; [|apply Hk].
    rewrite Hu' in Hin. congruence. }
  split; simpl.
  - by apply (keyed_update pv_id _ id r).
  - intros u. rewrite Hvals. intros (v & -> & Hv')%list_elem_of_fmap. case_match; [|by apply (ps_valid _ _ Hs)].
    by apply playbook_schema_ok in Hv as Hv2; apply playbook_schema_ok.
  - apply (ps_counter _ _ Hs).
  - intros tn' ty' Ht'. rewrite <- (ps_versions _ _ Hs tn' ty' Ht'). unfold typed. simpl.
    rewrite Hvals, bfilter_fmap. rewrite (bfilter_ext _ (of_type tn' ty')).
    2: { intros u Hu'. destruct (String.eqb (pv_id u) id) eqn:E; [|done]. by rewrite (Hsame u Hu' E). }
    rewrite <- list_fmap_compose. apply list_fmap_ext. intros j u Hu'%list_elem_of_lookup_2.
    apply elem_of_bfilter in Hu' as [_ Hu']. simpl. destruct (String.eqb (pv_id u) id) eqn:E; [|done].
    by rewrite (Hsame u Hu' E).
Qed.

(** Any call, whatever its parameters. *)
Lemma exec_state ls c env s : playbook_state ls s -> zod_uuid (env_uuid env) = true ->
  mapGet (env_uuid env) (records s) = None ->
  playbook_state (fun tn ty => ls tn ty ++ attempts tn ty [(c, env)]) (memory_exec c env s).2.
Proof.
  intros Hs Hu Hf. destruct c as [tn ty|tn ty|tn p|tn id]; simpl.
  - apply (state_same ls); [done|]. intros. simpl. by rewrite app_nil_r.
  - apply (state_same ls); [done|]. intros. simpl. by rewrite app_nil_r.
  - pose proof (create_state ls env tn p s Hs Hu Hf) as H. msimpl. by destruct (create env tn p s) as [[?|?] ?].
  - apply (state_same ls); [|intros; simpl; by rewrite app_nil_r].
    pose proof (retire_state ls env tn id s Hs) as H. msimpl. by destruct (retire env tn id s) as [[?|?] ?].
Qed.

Lemma history_state ls (cs : list (playbook_call * call_env)) s : playbook_state ls s ->
  playbook_ids_fresh cs s ->
  playbook_state (fun tn ty => ls tn ty ++ attempts tn ty cs) (history memory_exec cs s).2.
Proof.
  revert ls s. induction cs as [|[c env] cs IH]; intros ls s Hs; simpl.
  { intros _. apply (state_same ls); [done|]. intros. by rewrite app_nil_r. }
  intros (Hu & Hf & Hfs). pose proof (exec_state ls c env s Hs Hu Hf) as Hs1.
  destruct (memory_exec c env s) as [a s1]. specialize (IH _ s1 Hs1 Hfs).
  destruct (history memory_exec cs s1) as [? s2]. simpl in *.
  eapply state_same; [exact IH|]. intros tn ty _. cbv beta. rewrite <- app_assoc. f_equal.
  apply (omap_app _ [(c, env)] cs).
Qed.

Lemma exec_inv c env s : playbook_inv s -> (forall tn p, c = PCreate tn p -> accepted p = true) ->
  zod_uuid (env_uuid env) = true -> mapGet (env_uuid env) (records s) = None ->
  playbook_inv (memory_exec c env s).2.
Proof.
  intros (ls & Hs & Hls) Hc Hu Hf. eexists. split; [by apply exec_state|]. simpl. intros tn ty Ht.
  apply Forall_app. split; [by apply Hls|]. destruct c as [| |tn' p|]; try constructor.
  rewrite attempts_create. destruct (_ && _); [|constructor]. rewrite (Hc tn' p eq_refl). by repeat constructor.
Qed.

(** *** The order of versions *)

Lemma newer_sorted l : StronglySorted newer (sort_by newer l).
Proof.
  apply sort_by_sorted; unfold newer; intros; rewrite !BinInt.Z.leb_le in *; lia.
Qed.

(** Rows in any order sort to the same list. *)
Lemma sort_newer_unique l l' : NoDup (pv_version <$> l) -> l ≡ₚ l' -> sort_by newer l = sort_by newer l'.
Proof.
  intros Hd Hl. apply (StronglySorted_unique_strong newer).
  - intros x y Hx Hy H1%Is_true_eq_true H2%Is_true_eq_true. unfold newer in *. b2p.
    apply elem_of_sort_by in Hx, Hy. rewrite <- Hl in Hy.
    apply (nodup_key_inj pv_version l); [done..|lia].
  - apply newer_sorted.
  - apply newer_sorted.
  - by rewrite !sort_by_perm.
Qed.

Lemma max_version_perm l l' : l ≡ₚ l' -> PostgresPlaybooks.max_version l = PostgresPlaybooks.max_version l'.
Proof.
  induction 1 as [|r l l' Hl IH|r r' l|l1 l2 l3 H1 IH1 H2 IH2]; simpl.
  - done.
  - by rewrite IH.
  - f_equal. destruct (PostgresPlaybooks.max_version l); simpl; lia.
  - by rewrite IH1.
Qed.

Lemma max_version_seq l (n : BinNums.Z) : pv_version <$> l = seqZ 1 n -> 0 <= n -> PostgresPlaybooks.max_version l ?: 0 = n.
Proof.
  intros Hl Hn. enough (forall m k l', pv_version <$> l' = seqZ k m -> 0 < m ->
    PostgresPlaybooks.max_version l' = Some (k + m - 1)) as H.
  { destruct (decide (n = 0)) as [->|]; [by destruct l|]. rewrite (H n 1 l) by (done || lia). simpl. lia. }
  clear l n Hl Hn. intros m k l'. revert m k. induction l' as [|r l' IH]; intros m k Hl Hm.
  { apply (f_equal length) in Hl. rewrite length_seqZ in Hl. simpl in Hl. lia. }
  rewrite seqZ_cons in Hl by lia. injection Hl as Hr Hl. simpl. f_equal.
  destruct (decide (m = 1)) as [->|].
  - destruct l'; [simpl; lia|]. apply (f_equal length) in Hl. rewrite length_seqZ in Hl. done.
  - rewrite (IH (BinInt.Z.pred m) (BinInt.Z.succ k)) by (done || lia). simpl. lia.
Qed.

Lemma typed_nodup s tn ty : playbook_inv s -> zod_uuid tn = true -> NoDup (pv_version <$> typed s tn ty).
Proof. intros Hs Ht. rewrite (pl_versions _ Hs tn ty Ht). apply NoDup_seqZ. Qed.

Lemma typed_valid s tn ty r : playbook_inv s -> r ∈ typed s tn ty -> playbookVersionRecordSchema r = Ok r.
Proof. intros Hs [_ Hr]%elem_of_bfilter. by apply (pl_valid _ Hs). Qed.

(** *** The Postgres repository against the in-memory one *)

Context {E : SqlEngine} {L : SqlLaws E}.
Implicit Types t : table PlaybookVersionRecord.

Definition playbook_rel s t : Prop := table_rel (records s) t.

Lemma holds_where_type tn ty r : holds (PostgresPlaybooks.where_type tn ty r) = of_type tn ty r.
Proof. unfold PostgresPlaybooks.where_type. by sql_simpl. Qed.

Lemma select_typed s t tn ty : playbook_rel s t ->
  select (fun r => holds (PostgresPlaybooks.where_type tn ty r)) t ≡ₚ typed s tn ty.
Proof.
  intros Ht. rewrite select_rows, Ht. unfold typed.
  by rewrite (bfilter_ext _ (of_type tn ty)) by (intros; apply holds_where_type).
Qed.

Lemma map_rows_valid l : (forall r, r ∈ l -> playbookVersionRecordSchema r = Ok r) ->
  zod_array_map PostgresPlaybooks.mapRow l = Ok l.
Proof. intros H. by apply zod_array_map_id. Qed.

Lemma active_typed s tn ty : bfilter (active tn ty) (mapValues (records s)) =
  bfilter (fun r => bool_decide (pv_retiredAt r = None)) (typed s tn ty).
Proof.
  unfold typed, bfilter. rewrite list_filter_filter. apply list_filter_iff. intros r.
  unfold active. rewrite andb_true_iff. tauto.
Qed.

Lemma getActive_refines tn ty s t : playbook_inv s -> playbook_rel s t -> canonical tn ->
  PostgresPlaybooks.getActive tn ty t = ((getActive tn ty s).1, t).
Proof.
  intros Hs Ht Hc. pose proof (canonical_uuid _ Hc) as Hz. unfold PostgresPlaybooks.getActive, getActive, transaction, tx_select. msimpl.
  rewrite (db_uuid_canonical tn), active_typed by done. simpl.
  set (l := bfilter _ (typed s tn ty)).
  assert (NoDup (pv_version <$> l)) as Hd.
  { eapply sublist_NoDup; [apply (typed_nodup s tn ty Hs Hz)|]. apply fmap_sublist, sublist_filter. }
  rewrite (sort_newer_unique _ l).
  - destruct (sort_by newer l) as [|r l'] eqn:Hl; [done|]. simpl. unfold PostgresPlaybooks.mapRow.
    rewrite (typed_valid s tn ty r Hs); [done|]. assert (r ∈ l) as Hr.
    { apply (elem_of_sort_by newer). rewrite Hl. by left. }
    by apply elem_of_bfilter in Hr as [_ Hr].
  - rewrite select_rows, Ht. rewrite (bfilter_ext _ (active tn ty)), active_typed; [done|].
    intros r _. by rewrite holds_and, holds_where_type, holds_is_null.
  - rewrite select_rows, Ht. rewrite (bfilter_ext _ (active tn ty)), active_typed; [done|].
    intros r _. by rewrite holds_and, holds_where_type, holds_is_null.
Qed.

Lemma listAll_refines tn ty s t : playbook_inv s -> playbook_rel s t -> canonical tn ->
  PostgresPlaybooks.listAll tn ty t = ((listAll tn ty s).1, t).
Proof.
  intros Hs Ht Hc. pose proof (canonical_uuid _ Hc) as Hz. unfold PostgresPlaybooks.listAll, listAll, transaction, tx_select. msimpl.
  rewrite (db_uuid_canonical tn) by done. simpl.
  pose proof (select_typed s t tn ty Ht) as Hsel.
  rewrite (sort_newer_unique _ (typed s tn ty)); [|by rewrite Hsel; apply typed_nodup|done].
  rewrite map_rows_valid; [done|]. intros r Hr%elem_of_sort_by. by apply (typed_valid s tn ty).
Qed.

Lemma playbook_create_refines env tn p s t : playbook_inv s -> playbook_rel s t ->
  playbook_call_ok (PCreate tn p) -> zod_uuid (env_uuid env) = true ->
  mapGet (env_uuid env) (records s) = None ->
  (create env tn p s).1 = (PostgresPlaybooks.create (fun t => t) env tn p t).1 /\
  playbook_rel (create env tn p s).2 (PostgresPlaybooks.create (fun t => t) env tn p t).2.
Proof.
  intros Hs Ht (Hc & Ha & Hj) Hu Hf. pose proof (canonical_uuid _ Hc) as Hz.
  rewrite create_ok by done. simpl. apply accepted_spec in Ha as [Hn Hb].
  assert (PostgresPlaybooks.playbook_columns p = p) as Hcol.
  { unfold PostgresPlaybooks.playbook_columns. rewrite Hj. by destruct p. }
  unfold PostgresPlaybooks.create, transaction_with, tx_select, tx_insert. msimpl.
  rewrite (db_uuid_canonical tn), Hcol by done. simpl.
  pose proof (pl_counter _ Hs tn (cp_playbookType p) Hz) as Hpos.
  pose proof (pl_versions _ Hs tn (cp_playbookType p) Hz) as Hver.
  rewrite (max_version_perm _ _ (select_typed s t tn (cp_playbookType p) Ht)).
  rewrite (max_version_seq _ _ Hver) by done. set (new := newPlaybook _ _ _ _).
  destruct (set_new_rel pv_id (records s) t new PostgresPlaybooks.same_version Hf Ht) as [Hi Hrel].
  { apply not_true_iff_false. rewrite existsb_elem. intros (r & Hr & Hk).
    unfold PostgresPlaybooks.same_version in Hk. rewrite !andb_true_iff, !bool_decide_eq_true in Hk.
    destruct Hk as [[H1 H2] H3]. simpl in H1, H2, H3.
    assert (pv_version r ∈ seqZ 1 (counter s tn (cp_playbookType p))) as Hin.
    { rewrite <- Hver. apply list_elem_of_fmap_2, elem_of_bfilter. split; [by apply of_type_self|done]. }
    apply elem_of_seqZ in Hin. lia. }
  destruct (insert _ new t) as [ins t']. simpl in Hi, Hrel. rewrite Hi. unfold PostgresPlaybooks.mapRow.
  rewrite (proj2 (playbook_schema_ok new)); [done|]. simpl. split_and!; [done|done|lia|done|done].
Qed.

Lemma retire_refines env tn id s t : playbook_inv s -> playbook_rel s t -> canonical tn -> canonical id ->
  (retire env tn id s).1 = (PostgresPlaybooks.retire env tn id t).1 /\
  playbook_rel (retire env tn id s).2 (PostgresPlaybooks.retire env tn id t).2.
Proof.
  intros Hs Ht Hc Hi. unfold PostgresPlaybooks.retire, retire, transaction, tx_update. msimpl.
  rewrite (db_uuid_canonical tn) by done. simpl. rewrite (proj2 Hi). simpl.
  set (p := fun r : PlaybookVersionRecord => holds _). set (f := fun r : PlaybookVersionRecord => _).
  assert (forall r, r ∈ mapValues (records s) -> p r = bool_decide (pv_id r = id) &&
    (bool_decide (pv_tenantId r = tn) && bool_decide (pv_retiredAt r = None))) as Hp.
  { intros r _. unfold p. sql_simpl. rewrite holds_is_null.
    by destruct (bool_decide (pv_tenantId r = tn)), (bool_decide (pv_id r = id)). }
  pose proof (cas_refines pv_id _ t id p _ f (pl_keyed _ Hs) Ht Hp (fun _ => eq_refl)) as Hcas.
  destruct (update p f t) as [us t']. destruct (mapGet id (records s)) as [r|]; [|by destruct Hcas].
  destruct (bool_decide (pv_tenantId r = tn)); [|by destruct Hcas].
  destruct (bool_decide (pv_retiredAt r = None)); by destruct Hcas.
Qed.

Lemma playbook_exec_refines c env s t : playbook_inv s -> playbook_rel s t -> playbook_call_ok c ->
  zod_uuid (env_uuid env) = true -> mapGet (env_uuid env) (records s) = None ->
  (memory_exec c env s).1 = (postgres_exec c env t).1 /\
  playbook_rel (memory_exec c env s).2 (postgres_exec c env t).2.
Proof.
  intros Hs Ht Hc Hu Hf. destruct c as [tn ty|tn ty|tn p|tn id]; simpl; msimpl.
  - by rewrite (getActive_refines tn ty s t).
  - by rewrite (listAll_refines tn ty s t).
  - destruct (playbook_create_refines env tn p s t Hs Ht Hc Hu Hf) as [H1 H2].
    destruct (create env tn p s) as [[?|?] ?], (PostgresPlaybooks.create _ env tn p t) as [[?|?] ?];
      simpl in *; by simplify_eq.
  - destruct Hc as [Hz Hi]. destruct (retire_refines env tn id s t Hs Ht Hz Hi) as [H1 H2].
    destruct (retire env tn id s) as [[?|?] ?], (PostgresPlaybooks.retire env tn id t) as [[?|?] ?];
      simpl in *; by simplify_eq.
Qed.

(** The versions given out, newest first. *)
Lemma sorted_versions l ls : pv_version <$> l = numbered 1 ls ->
  pv_version <$> sort_by newer l = reverse (numbered 1 ls).
Proof.
  intros Hl. apply (StronglySorted_unique_strong (fun a b : BinNums.Z => b <= a)).
  - intros. lia.
  - eapply StronglySorted_fmap, newer_sorted. unfold newer. intros x y H%Is_true_eq_true. by b2p.
  - apply numbered_sorted.
  - by rewrite sort_by_perm, Hl, reverse_Permutation.
Qed.

Lemma numbered_nodup k ls : NoDup (numbered k ls).
Proof.
  revert k. induction ls as [|b ls IH]; intros k; simpl; [constructor|]. destruct b; simpl; [|done].
  constructor; [|done]. intros ?%numbered_bounds. lia.
Qed.

(** The head of the retained rows of a sorted list. *)
Lemma head_sort_filter (q : PlaybookVersionRecord -> bool) l : NoDup (pv_version <$> l) ->
  sort_by newer (bfilter q l) = bfilter q (sort_by newer l).
Proof.
  intros Hd. apply (StronglySorted_unique_strong newer).
  - intros x y Hx Hy H1%Is_true_eq_true H2%Is_true_eq_true. unfold newer in *. b2p.
    apply elem_of_sort_by, elem_of_bfilter in Hx as [_ Hx].
    apply elem_of_bfilter in Hy as [_ Hy%elem_of_sort_by].
    apply (nodup_key_inj pv_version l); [done..|lia].
  - apply newer_sorted.
  - apply StronglySorted_filter, newer_sorted.
  - by rewrite !sort_by_perm.
Qed.

(** A successful creation stores a row with the version after the greatest. *)
Lemma create_stored env tn p t r t' :
  PostgresPlaybooks.create (fun t => t) env tn p t = (Ok r, t') ->
  exists u, u ∈ rows t' /\ db_uuid tn = Ok (pv_tenantId u) /\ pv_playbookType u = cp_playbookType p /\
    pv_version u = (PostgresPlaybooks.max_version (select (fun r =>
      holds (PostgresPlaybooks.where_type (pv_tenantId u) (cp_playbookType p) r)) t) ?: 0) + 1.
Proof.
  unfold PostgresPlaybooks.create, transaction_with, tx_select, tx_insert. msimpl.
  destruct (db_uuid tn) as [tn'|] eqn:Ht; [|done]. simpl.
  set (new := newPlaybook _ _ _ _). intros Hc. exists new. split_and!; try done.
  destruct (existsb (PostgresPlaybooks.same_version new) (rows t)) eqn:Hex.
  - rewrite insert_conflict in Hc by done. done.
  - destruct (insert_fresh _ _ _ Hex) as [Hi Hr].
    destruct (insert PostgresPlaybooks.same_version new t) as [ins t1]. simpl in Hi, Hr. subst ins. simpl in Hc.
    destruct (PostgresPlaybooks.mapRow new); [|done]. injection Hc as _ <-. rewrite Hr. by left.
Qed.
End lemmas.

(** ** Properties *)

Section theorems.
Context `{Z : Zod} {ZL : ZodLaws Z}.
Import InMemoryPlaybooks.
Implicit Types (cs : list (playbook_call * call_env)).

(** C38. Whatever the history of calls, with any parameters: the n-th attempt to
    create a version of a playbook type of a tenant takes number n, and the
    stored versions are exactly those of the attempts that were accepted (a
    name and a creator that are not empty); so no number is given twice, and
    they are 1, 2, ..., n without a gap when no attempt was refused.  A refused
    one leaves a gap ([rejected_creation_leaves_a_gap]).  [listAll] gives the
    versions newest first, and [getActive] is the newest that is not retired.
    The ids that are handed out are new UUIDs. *)
Theorem playbook_versions_are_sequential cs tn ty s' :
  playbook_ids_fresh cs init -> zod_uuid tn = true -> (history memory_exec cs init).2 = s' ->
  exists all, (listAll tn ty s').1 = Ok all /\
    pv_version <$> all = reverse (numbered 1 (attempts tn ty cs)) /\ NoDup (pv_version <$> all) /\
    (Forall (fun b => b = true) (attempts tn ty cs) ->
     pv_version <$> all = reverse (seqZ 1 (BinInt.Z.of_nat (length (attempts tn ty cs))))) /\
    (getActive tn ty s').1 = Ok (head (bfilter (fun r => bool_decide (pv_retiredAt r = None)) all)).
Proof.
  intros Hf Hz <-. pose proof (history_state _ cs init playbook_state_init Hf) as Hs.
  set (s := (history memory_exec cs init).2) in *. simpl in Hs.
  pose proof (ps_versions _ _ Hs tn ty Hz) as Hv.
  exists (sort_by newer (typed s tn ty)). split; [done|]. rewrite (sorted_versions _ _ Hv). split_and!.
  - done.
  - rewrite reverse_Permutation. apply numbered_nodup.
  - intros Ha. by rewrite numbered_accepted.
  - unfold getActive, gets. simpl. rewrite active_typed, head_sort_filter; [done|].
    rewrite Hv. apply numbered_nodup.
Qed.
End theorems.

Section postgres_theorems.
Context `{Z : Zod} {ZL : ZodLaws Z} {E : SqlEngine} {L : SqlLaws E}.
Implicit Types (cs : list (playbook_call * call_env)) (t : table PlaybookVersionRecord).

(** As long as no two creations overlap, the in-memory repository and the
    Postgres one give the same answers on every history of calls (the version
    counter and [MAX(version) + 1] agree) and hold the same bag of versions,
    provided no creation is refused, ids are UUIDs as the database prints them
    and contents have their keys in the order [jsonb] keeps. *)
Theorem playbooks_postgres_refines_memory cs s t : playbook_inv s -> playbook_rel s t ->
  Forall (fun ce => playbook_call_ok ce.1) cs -> playbook_ids_fresh cs s ->
  (history memory_exec cs s).1 = (history postgres_exec cs t).1 /\
  playbook_rel (history memory_exec cs s).2 (history postgres_exec cs t).2.
Proof.
  intros Hs Ht Hcs. revert s t Hs Ht.
  induction Hcs as [|[c env] cs Hc Hcs IH]; intros s t Hs Ht; simpl; [done|]. intros (Hu & Hf & Hfs).
  destruct (playbook_exec_refines c env s t Hs Ht Hc Hu Hf) as [Ha Hrel].
  assert (forall tn p, c = PCreate tn p -> accepted p = true) as Hacc by (intros tn p ->; apply Hc).
  pose proof (exec_inv c env s Hs Hacc Hu Hf) as Hs'.
  destruct (memory_exec c env s) as [a s1], (postgres_exec c env t) as [a' t1]. simpl in *.
  destruct (IH s1 t1 Hs' Hrel Hfs) as [H1 H2].
  destruct (history memory_exec cs s1), (history postgres_exec cs t1). simpl in *. by subst.
Qed.

(** The transaction does not serialise concurrent creations: when another
    one of the same type commits between the maximum read and the insertion,
    the later creation throws, and only the other's version is stored. *)
Theorem concurrent_creation_throws env env' tn p p' t r t' :
  cp_playbookType p' = cp_playbookType p ->
  PostgresPlaybooks.create (fun t => t) env' tn p' t = (Ok r, t') ->
  PostgresPlaybooks.create
    (fun t => (PostgresPlaybooks.create (fun t => t) env' tn p' t).2) env tn p t =
  (Err (JsError "duplicate key value violates unique constraint"), t').
Proof.
  intros Hty Ho. destruct (create_stored env' tn p' t r t' Ho) as (u & Hu & Htn & Hpt & Hv).
  set (others := fun t => (PostgresPlaybooks.create (fun t => t) env' tn p' t).2).
  assert (others t = t') as Hot by (unfold others; by rewrite Ho).
  clearbody others.
  unfold PostgresPlaybooks.create, transaction_with, tx_select, tx_insert, await. msimpl.
  rewrite Htn. simpl. rewrite Hot. rewrite Hty in Hpt, Hv.
  rewrite insert_conflict; [done|]. apply existsb_elem. exists u. split; [done|].
  unfold PostgresPlaybooks.same_version. simpl. by rewrite Hpt, Hv, !bool_decide_true.
Qed.
End postgres_theorems.

(** ** Witnesses *)

Module PlaybookExample.
Import ZodExample InMemoryPlaybooks.

Definition brief (name : string) : CreatePlaybookVersionParams :=
  mkCreatePlaybook pt_content_brief name None [] "system" None.
Definition calls : list (playbook_call * call_env) :=
  [(PCreate tenant (brief "First"), env1); (PCreate tenant (brief "Second"), env2);
   (PRetire tenant id2, env3); (PGetActive tenant pt_content_brief, env3);
   (PListAll tenant pt_content_brief, env3)].

Lemma calls_ok : Forall (fun ce => playbook_call_ok (E := ListEngine.list_engine) ce.1) calls.
Proof. repeat apply Forall_cons_2; try apply Forall_nil_2; vm_compute; repeat split. Qed.
(** The first attempt has no name. *)
Definition refused_first : list (playbook_call * call_env) :=
  [(PCreate tenant (brief ""), env1); (PCreate tenant (brief "First"), env2);
   (PListAll tenant pt_content_brief, env3)].
Lemma refused_fresh : playbook_ids_fresh refused_first init.
Proof. vm_compute. repeat split. Qed.
Lemma calls_fresh : playbook_ids_fresh calls init.
Proof. vm_compute. repeat split. Qed.

Definition no_rows : table (SqlEngine := ListEngine.list_engine) PlaybookVersionRecord := [].
Definition one_row : table (SqlEngine := ListEngine.list_engine) PlaybookVersionRecord :=
  [newPlaybook env1 tenant (brief "First") 1].
Definition two_rows : table (SqlEngine := ListEngine.list_engine) PlaybookVersionRecord :=
  newPlaybook env2 tenant (brief "Second") 2 :: one_row.
End PlaybookExample.

Section witnesses.
Import ZodExample InMemoryPlaybooks PlaybookExample.

(** The in-memory counter advances before the record is validated, the
    transaction of Postgres is rolled back: after a refused creation the first
    version of the one is 2, and of the other 1. *)
Theorem rejected_creation_leaves_a_gap :
  pv_version <$> mapValues (records (history memory_exec refused_first init).2) = [2] /\
  pv_version <$> (history (postgres_exec (E := ListEngine.list_engine)) refused_first no_rows).2 = [1].
Proof. split; vm_compute; reflexivity. Qed.

Lemma playbook_versions_are_sequential_witness :
  exists all, (listAll tenant pt_content_brief (history memory_exec calls init).2).1 = Ok all /\
    pv_version <$> all = [2; 1] /\
    (pv_version <$> head (bfilter (fun r => bool_decide (pv_retiredAt r = None)) all)) = Some 1.
Proof.
  destruct (playbook_versions_are_sequential calls tenant pt_content_brief _ calls_fresh
    eq_refl eq_refl) as (all & Hl & Hv & _).
  exists all. split; [exact Hl|]. split; [exact Hv|]. vm_compute in Hl. injection Hl as <-. reflexivity.
Defined.

Lemma playbooks_postgres_refines_memory_witness :
  (history memory_exec calls init).1 =
  (history (postgres_exec (E := ListEngine.list_engine)) calls no_rows).1.
Proof.
  refine (proj1 (playbooks_postgres_refines_memory (E := ListEngine.list_engine)
    (L := ListEngine.list_laws) calls init no_rows playbook_inv_init _ calls_ok calls_fresh)).
  exact (Permutation_refl _).
Defined.

Lemma concurrent_creation_throws_witness :
  PostgresPlaybooks.create (E := ListEngine.list_engine)
    (fun t => (PostgresPlaybooks.create (fun t => t) env2 tenant (brief "Second") t).2)
    env3 tenant (brief "Third") one_row =
  (Err (JsError "duplicate key value violates unique constraint"), two_rows).
Proof.
  refine (concurrent_creation_throws (E := ListEngine.list_engine) (L := ListEngine.list_laws)
    env3 env2 tenant (brief "Third") (brief "Second") one_row
    (newPlaybook env2 tenant (brief "Second") 2) two_rows eq_refl _).
  vm_compute. reflexivity.
Defined.
End witnesses.
