(* ===== verification/Learning.v ===== *)
(** * The learning worker

    [apps/worker-learning/src/contracts.ts] and [learning-worker.ts]: the
    approval-feedback path (section [feedback]) and the critique path (section
    [worker]), which turns the critiques of an artifact into learning
    proposals and new playbook versions.  The evidence provider is a
    parameter; the repositories are the ones of [Proposals.v], [Playbooks.v]
    and [Outbox.v]. *)

From S2P Require Import Prelude Numbers JsRuntime Json Domain Zod ZodJson Harness Sql Outbox ControlPlane Proposals Playbooks.

(** ** Contracts *)

Inductive CritiqueVerdict := verdict_approve | verdict_revise | verdict_reject.

#[export] Instance CritiqueVerdict_eq_dec : EqDecision CritiqueVerdict.
Proof. solve_decision. Defined.

Definition CritiqueVerdict_str (v : CritiqueVerdict) : string :=
  match v with
  | verdict_approve => "approve"
  | verdict_revise => "revise"
  | verdict_reject => "reject"
  end.

Record CritiqueCompletedPayload := mkCritique {
  cq_critique_id : string;
  cq_source : string;
  cq_artifact_kind : string;
  cq_artifact_id : string;
  cq_experiment_id : option string;
  cq_change_risk : option ChangeRisk;
  cq_prompt_version : string;
  cq_verdict : CritiqueVerdict;
  cq_confidence_score : num;
  cq_reasons : list string;
  cq_critiqued_at : string;
}.

Record LearnerRubricCriterion := mkCriterion {
  cr_id : string;
  cr_weight : num;
  cr_description : string;
  cr_check : string;
}.

Record LearnerRubricContent := mkRubric {
  ru_rubric : list LearnerRubricCriterion;
  ru_min_word_count : option num;
  ru_max_word_count : option num;
  ru_forbidden_phrases : option (list string);
}.

Inductive ApprovalFeedbackAction := fb_approved | fb_edited_then_approved | fb_rejected | fb_auto_approved.

#[export] Instance ApprovalFeedbackAction_eq_dec : EqDecision ApprovalFeedbackAction.
Proof. solve_decision. Defined.

Definition ApprovalFeedbackAction_str (a : ApprovalFeedbackAction) : string :=
  match a with
  | fb_approved => "approved"
  | fb_edited_then_approved => "edited_then_approved"
  | fb_rejected => "rejected"
  | fb_auto_approved => "auto_approved"
  end.

Record LearningSignal := mkLearningSignal {
  ls_tenantId : string;
  ls_learningId : string;
  ls_dedupeKey : string;
  ls_source : string;
  ls_issueId : string;
  ls_outputType : string;
  ls_action : ApprovalFeedbackAction;
  ls_editDistance : option num;
  ls_rubricFailures : list string;
  ls_reviewerNote : option string;
  ls_learnOptIn : bool;
}.

Inductive LearningPriority := pri_high | pri_medium | pri_low.
Definition LearningPriority_str (p : LearningPriority) : string :=
  match p with pri_high => "high" | pri_medium => "medium" | pri_low => "low" end.
Inductive LearningDisposition := disp_candidate | disp_discarded.
Definition LearningDisposition_str (d : LearningDisposition) : string :=
  match d with disp_candidate => "candidate" | disp_discarded => "discarded" end.

(** The fields [synthesizeLearningCandidate] computes. *)
Record Synthesis := mkSynthesis {
  sy_disposition : LearningDisposition;
  sy_priority : LearningPriority;
  sy_confidenceScore : num;
  sy_reasons : list string;
}.

Record LearningCandidate := mkCandidate {
  lc_signal : LearningSignal;
  lc_synthesis : Synthesis;
  lc_synthesizedAt : Z;
}.

Section contracts.
Context `{Zod} `{ZodFormats}.

Definition min1_field : option json -> result string := string_field min1_text.
Definition texts_field : option json -> result (list string) := array_field (fun j => min1_field (Some j)).

Definition critiqueCompletedPayloadSchema (p : jobject) : result CritiqueCompletedPayload :=
  cid ← min1_field (mapGet "critique_id" p);
  source ← min1_field (mapGet "source" p);
  kind ← min1_field (mapGet "artifact_kind" p);
  aid ← min1_field (mapGet "artifact_id" p);
  exp ← optional_field (string_field uuid) (mapGet "experiment_id" p);
  risk ← optional_field (enum_field [risk_low; risk_medium; risk_high; risk_critical] ChangeRisk_str)
    (mapGet "change_risk" p);
  pv ← min1_field (mapGet "prompt_version" p);
  verdict ← enum_field [verdict_approve; verdict_revise; verdict_reject] CritiqueVerdict_str
    (mapGet "verdict" p);
  conf ← number_field unit_number (mapGet "confidence_score" p);
  reasons ← texts_field (mapGet "reasons" p);
  at_ ← string_field (refine zod_datetime_offset) (mapGet "critiqued_at" p);
  mret (mkCritique cid source kind aid exp risk pv verdict conf reasons at_).

Definition learnerRubricCriterionSchema (j : json) : result LearnerRubricCriterion :=
  fs ← record_field (Some j);
  id ← min1_field (mapGet "id" fs);
  weight ← number_field unit_number (mapGet "weight" fs);
  description ← min1_field (mapGet "description" fs);
  check ← min1_field (mapGet "check" fs);
  mret (mkCriterion id weight description check).

Definition learnerRubricContentSchema (p : jobject) : result LearnerRubricContent :=
  rubric ← array_field learnerRubricCriterionSchema (mapGet "rubric" p);
  rubric' ← refine (fun l => negb (Nat.eqb (length l) 0)) rubric;
  lo ← optional_field positive_field (mapGet "min_word_count" p);
  hi ← optional_field positive_field (mapGet "max_word_count" p);
  phrases ← optional_field texts_field (mapGet "forbidden_phrases" p);
  mret (mkRubric rubric' lo hi phrases).

Definition learningSignalSchema (p : jobject) : result LearningSignal :=
  tn ← string_field uuid (mapGet "tenantId" p);
  lid ← min1_field (mapGet "learningId" p);
  key ← min1_field (mapGet "dedupeKey" p);
  source ← min1_field (mapGet "source" p);
  issue ← string_field uuid (mapGet "issueId" p);
  output ← min1_field (mapGet "outputType" p);
  action ← enum_field [fb_approved; fb_edited_then_approved; fb_rejected; fb_auto_approved]
    ApprovalFeedbackAction_str (mapGet "action" p);
  distance ← nullish_field (number_field unit_number) (mapGet "editDistance" p);
  failures ← default_field [] texts_field (mapGet "rubricFailures" p);
  note ← optional_field (string_field mret) (mapGet "reviewerNote" p);
  optIn ← default_field true boolean_field (mapGet "learnOptIn" p);
  mret (mkLearningSignal tn lid key source issue output action distance failures note optIn).

(** [learningCandidateSchema.parse({ ...signal, ... })] *)
Definition learningCandidateSchema (c : LearningCandidate) : result LearningCandidate :=
  let s := lc_signal c in
  tn ← uuid (ls_tenantId s);
  lid ← min1_text (ls_learningId s);
  key ← min1_text (ls_dedupeKey s);
  source ← min1_text (ls_source s);
  issue ← uuid (ls_issueId s);
  output ← min1_text (ls_outputType s);
  distance ← zod_optional unit_number (ls_editDistance s);
  failures ← zod_array min1_text (ls_rubricFailures s);
  conf ← unit_number (sy_confidenceScore (lc_synthesis c));
  reasons ← zod_array min1_text (sy_reasons (lc_synthesis c));
  mret (mkCandidate
    (mkLearningSignal tn lid key source issue output (ls_action s) distance failures
       (ls_reviewerNote s) (ls_learnOptIn s))
    (mkSynthesis (sy_disposition (lc_synthesis c)) (sy_priority (lc_synthesis c)) conf reasons)
    (lc_synthesizedAt c)).

(** The payload of a proposed change, as the proposal keeps it. *)
Record PersistedCritique := mkPersisted {
  pc_tenant_id : string;
  pc_proposal_id : string;
  pc_change_risk : ChangeRisk;
  pc_playbook_type : PlaybookType;
  pc_critique : CritiqueCompletedPayload;
}.

Definition persistedCritiqueProposalPayloadSchema (p : jobject) : result PersistedCritique :=
  tn ← string_field uuid (mapGet "tenant_id" p);
  pid ← min1_field (mapGet "proposal_id" p);
  exp ← optional_field (string_field uuid) (mapGet "experiment_id" p);
  risk ← enum_field [risk_low; risk_medium; risk_high; risk_critical] ChangeRisk_str
    (mapGet "change_risk" p);
  ty ← enum_field [pt_blog_draft; pt_content_brief; pt_intel_brief; pt_custom] PlaybookType_str
    (mapGet "playbook_type" p);
  kind ← min1_field (mapGet "artifact_kind" p);
  aid ← min1_field (mapGet "artifact_id" p);
  cid ← min1_field (mapGet "critique_id" p);
  source ← min1_field (mapGet "source" p);
  pv ← min1_field (mapGet "prompt_version" p);
  verdict ← enum_field [verdict_revise; verdict_reject] CritiqueVerdict_str (mapGet "verdict" p);
  conf ← number_field unit_number (mapGet "confidence_score" p);
  reasons ← texts_field (mapGet "failure_reasons" p);
  at_ ← string_field (refine zod_datetime_offset) (mapGet "critiqued_at" p);
  status ← string_field (refine (String.eqb "awaiting_evidence")) (mapGet "status" p);
  proposed ← string_field (refine zod_datetime_offset) (mapGet "proposed_at" p);
  mret (mkPersisted tn pid risk ty
    (mkCritique cid source kind aid exp (Some risk) pv verdict conf reasons at_)).
End contracts.

#[global] Arguments min1_field : simpl never.
#[global] Arguments texts_field : simpl never.

(** ** Playbook types *)

Definition ARTIFACT_KIND_TO_PLAYBOOK_TYPE : jsmap PlaybookType :=
  [("blog_draft", pt_blog_draft); ("blog_draft.v1", pt_blog_draft);
   ("content_brief", pt_content_brief); ("content_brief.v1", pt_content_brief);
   ("intel_brief", pt_intel_brief); ("intel_brief.v1", pt_intel_brief); ("custom", pt_custom)].

(** Own properties only: the names [Object.prototype] has are not artifact
    kinds. *)
Definition resolvePlaybookType (artifactKind : string) : option PlaybookType :=
  match mapGet artifactKind ARTIFACT_KIND_TO_PLAYBOOK_TYPE with
  | Some t => Some t
  | None =>
      if String.prefix "blog_draft" artifactKind then Some pt_blog_draft
      else if String.prefix "content_brief" artifactKind then Some pt_content_brief
      else if String.prefix "intel_brief" artifactKind then Some pt_intel_brief
      else if String.prefix "custom" artifactKind then Some pt_custom
      else None
  end.

(** ** Rubric updates *)

Definition DEFAULT_RUBRIC_CONTENT : LearnerRubricContent :=
  let w := num_lit 25 100 in
  mkRubric
    [mkCriterion "default-has_cta" w "Content includes a clear call to action" "has_cta";
     mkCriterion "default-has_evidence" w "Content includes quantitative evidence or statistics" "has_evidence";
     mkCriterion "default-length_ok" w "Content meets expected word count range" "length_ok";
     mkCriterion "default-has_headings" w "Content uses markdown headings for structure" "has_headings"]
    None None None.

Definition corrective (criteriaTimestamp : Z) (i : nat) (reason : string) : LearnerRubricCriterion :=
  mkCriterion ("auto-" +:+ num_to_string (num_of_Z criteriaTimestamp) +:+ "-" +:+ pretty i) (num_lit 1 10)
    (if (120 <? String.length reason)%nat then String.substring 0 117 reason +:+ "..." else reason) "custom".

Definition criterion_json (c : LearnerRubricCriterion) : json :=
  JObj [("id", JStr (cr_id c)); ("weight", JNum (cr_weight c));
    ("description", JStr (cr_description c)); ("check", JStr (cr_check c))].

(** The object that is stored as the playbook's content. *)
Definition rubric_json (r : LearnerRubricContent) : jobject :=
  [("rubric", JArr (criterion_json <$> ru_rubric r))] ++
  match ru_min_word_count r with Some n => [("min_word_count", JNum n)] | None => [] end ++
  match ru_max_word_count r with Some n => [("max_word_count", JNum n)] | None => [] end ++
  match ru_forbidden_phrases r with Some l => [("forbidden_phrases", JArr (JStr <$> l))] | None => [] end.

Definition buildUpdatedRubricContent (existingContent : option jobject) (failureReasons : list string)
    (criteriaTimestamp : Z) : LearnerRubricContent * list LearnerRubricCriterion :=
  let baseline :=
    match existingContent with
    | None => DEFAULT_RUBRIC_CONTENT
    | Some c => match learnerRubricContentSchema c with Ok r => r | Err _ => DEFAULT_RUBRIC_CONTENT end
    end in
  let existingIds := cr_id <$> ru_rubric baseline in
  let newCriteria := bfilter (fun c => negb (bool_decide (cr_id c ∈ existingIds)))
    (imap (corrective criteriaTimestamp) failureReasons) in
  (mkRubric (ru_rubric baseline ++ newCriteria) (ru_min_word_count baseline) (ru_max_word_count baseline)
     (ru_forbidden_phrases baseline), newCriteria).

(** ** The approval-feedback path *)

Definition synthesizeLearningCandidate (input : LearningSignal) : Synthesis :=
  let distance := ls_editDistance input ?: num_zero in
  if negb (ls_learnOptIn input) then
    mkSynthesis disp_discarded pri_low (num_lit 15 100)
      ["Founder disabled learning capture for this approval decision."]
  else if bool_decide (ls_action input = fb_rejected) || (0 <? length (ls_rubricFailures input))%nat then
    mkSynthesis disp_candidate pri_high (num_lit 82 100)
      ["Rejection/rubric failures provide direct corrective signal for playbook updates."]
  else if bool_decide (ls_action input = fb_edited_then_approved) && num_leb (num_lit 15 100) distance then
    mkSynthesis disp_candidate pri_medium (num_lit 69 100)
      ["Significant founder edits indicate an improvable generation pattern."]
  else if bool_decide (ls_action input = fb_approved) && num_ltb distance (num_lit 1 10) then
    mkSynthesis disp_candidate pri_low (num_lit 56 100)
      ["Low-edit approval confirms existing playbook behavior for this output type."]
  else
    mkSynthesis disp_discarded pri_low (num_lit 24 100)
      ["Signal quality is below learning candidate thresholds."].

Definition learningCandidateCommand (c : LearningCandidate) : EnqueueOutboxEvent :=
  let s := lc_signal c in
  let y := lc_synthesis c in
  mkEnqueue (ls_tenantId s) "learning.candidate.synthesized.v1" (ls_dedupeKey s)
    [("learning_id", JStr (ls_learningId s)); ("source", JStr (ls_source s));
     ("issue_id", JStr (ls_issueId s)); ("output_type", JStr (ls_outputType s));
     ("action", JStr (ApprovalFeedbackAction_str (ls_action s)));
     ("disposition", JStr (LearningDisposition_str (sy_disposition y)));
     ("priority", JStr (LearningPriority_str (sy_priority y)));
     ("confidence_score", JNum (sy_confidenceScore y));
     ("reasons", JArr (JStr <$> sy_reasons y));
     ("rubric_failures", JArr (JStr <$> ls_rubricFailures s));
     ("edit_distance", match ls_editDistance s with Some d => JNum d | None => JNull end);
     ("learn_opt_in", JBool (ls_learnOptIn s));
     ("synthesized_at", JStr (toISOString (lc_synthesizedAt c)))].

Section feedback.
Context `{Zod} {O : Type} `{!OutboxPort O}.

(** [LearningWorker.process] *)
Definition process (env : call_env) (input : jobject) : M O LearningCandidate :=
  signal ← lift (learningSignalSchema input);
  candidate ← lift (learningCandidateSchema
    (mkCandidate signal (synthesizeLearningCandidate signal) (env_now env)));
  outbox_enqueue env (learningCandidateCommand candidate);;
  mret candidate.
End feedback.

(** ** The critique path *)

(** What the repositories hold; the proposals come with their outbox. *)
Record Shared (O : Type) := mkShared {
  sh_proposals : InMemoryProposals.State O;
  sh_playbooks : InMemoryPlaybooks.State;
}.
Arguments mkShared {O} _ _.
Arguments sh_proposals {O} _.
Arguments sh_playbooks {O} _.

Definition sh_outbox {O} (s : Shared O) : O := InMemoryProposals.outbox (sh_proposals s).

(** One awaited call: its environment, its fault, and the answer of the
    evidence provider if it is asked. *)
Record turn := mkTurn {
  tu_env : call_env;
  tu_fault : fault;
  tu_evidence : result (option LearningProposalEvaluation);
}.

Record LearningWorld (O : Type) := mkLearningWorld {
  lw_shared : Shared O;
  lw_tick : nat;
}.
Arguments mkLearningWorld {O} _ _.
Arguments lw_shared {O} _.
Arguments lw_tick {O} _.

Record LearningWorkerDependencies := mkDeps {
  ld_playbookRepository : bool;
  ld_learningProposalRepository : bool;
  ld_promotionEvidenceProvider : bool;
  ld_learningPolicy : option PartialLearningPolicy;
}.

Record PlaybookChangeProposal := mkChange {
  ch_tenantId : string;
  ch_proposalId : string;
  ch_artifactKind : string;
  ch_artifactId : string;
  ch_playbookType : PlaybookType;
  ch_verdict : CritiqueVerdict;
}.

Definition learningProposalIdField (p : option LearningProposalRecord) : jobject :=
  match p with Some r => [("learning_proposal_id", JStr (lp_id r))] | None => [] end.

Definition createdByCritique (c : CritiqueCompletedPayload) : string := "critique:" +:+ cq_critique_id c.

Section worker.
Context `{Zod} `{ZodFormats} {O : Type} `{!OutboxPort O}.

(** The calls of one delivery, in order; before each, [others] is what the
    rest of the system did to the repositories since the last one. *)
Context (script : nat -> turn) (others : nat -> Shared O -> Shared O).
Context (deps : LearningWorkerDependencies).

Definition on_proposals {A} (m : M (InMemoryProposals.State O) A) : M (Shared O) A := fun s =>
  let '(r, p) := m (sh_proposals s) in (r, mkShared p (sh_playbooks s)).
Definition on_playbooks {A} (m : M InMemoryPlaybooks.State A) : M (Shared O) A := fun s =>
  let '(r, p) := m (sh_playbooks s) in (r, mkShared (sh_proposals s) p).

Definition call {A} (m : turn -> M (Shared O) A) : M (LearningWorld O) A := fun w =>
  let t := script (lw_tick w) in
  let '(r, s) := faulty (tu_fault t) (m t) (others (lw_tick w) (lw_shared w)) in
  (r, mkLearningWorld s (S (lw_tick w))).

(** [new Date()] between two calls: the instant of the next one. *)
Definition clock : M (LearningWorld O) Z := gets (fun w => env_now (tu_env (script (lw_tick w)))).

Definition enqueue (command : EnqueueOutboxEvent) : M (LearningWorld O) unit :=
  call (fun t => on_proposals (InMemoryProposals.with_outbox (outbox_enqueue (tu_env t) command)));; mret tt.

Definition getEvaluation (proposal : PlaybookChangeProposal) :
    M (LearningWorld O) (option LearningProposalEvaluation) :=
  call (fun t => lift (tu_evidence t)).

Definition persistProposal (tenantId : string) (proposal : PlaybookChangeProposal)
    (critique : CritiqueCompletedPayload) (risk : ChangeRisk) (proposedPayload : jobject) :
    M (LearningWorld O) (option LearningProposalRecord) :=
  if negb (ld_learningProposalRepository deps) then mret None
  else
    r ← call (fun t => on_proposals (InMemoryProposals.create (tu_env t) tenantId
      (mkCreateProposal (ch_proposalId proposal)
        (if truthy (cq_experiment_id critique) then cq_experiment_id critique else None)
        (PlaybookType_str (ch_playbookType proposal)) (ch_artifactId proposal) risk proposedPayload
        None None (createdByCritique critique))));
    mret (Some r).

Definition recordPromotionDecision (tenantId : string) (persistedProposal : option LearningProposalRecord)
    (evaluation : LearningProposalEvaluation) (promotion : LearningDecision) : M (LearningWorld O) bool :=
  match persistedProposal, ld_learningProposalRepository deps with
  | Some p, true =>
      let evidence :=
        [("evidence_count", jint (evidenceCount evaluation));
         ("unique_entities", jint (uniqueEntities evaluation)); ("confidence", JNum (confidence evaluation))] in
      let metrics :=
        [("baseline_metric", JNum (baselineMetric evaluation));
         ("candidate_metric", JNum (candidateMetric evaluation));
         ("worst_guardrail_regression", JNum (worstGuardrailRegression evaluation))] in
      recorded ← call (fun t => on_proposals (InMemoryProposals.recordEvaluation (tu_env t) tenantId (lp_id p)
        (mkEvaluationParams (decision promotion) (evidence ++ metrics)
          ([("proposal_id", JStr (proposalId evaluation)); ("risk", JStr (ChangeRisk_str (risk evaluation)))] ++
           evidence ++ [("metric_direction", JStr (MetricDirection_str (metricDirection evaluation)))] ++ metrics ++
           [("human_approved", JBool (humanApproved evaluation)); ("relative_lift", JNum (relativeLift promotion))])
          (reasons promotion))));
      mret (bool_decide (lp_status <$> recorded = Some prop_approved))
  | _, _ => mret true
  end.

Definition enqueuePlaybookUpdated (tenantId : string) (proposal : PlaybookChangeProposal)
    (critique : CritiqueCompletedPayload) (playbookType : PlaybookType)
    (persistedProposal : option LearningProposalRecord) (playbookVersionId : string) (criteriaAdded : nat)
    (lift_ : num) : M (LearningWorld O) unit :=
  now ← clock;
  enqueue (mkEnqueue tenantId "learning.playbook.updated.v1" ("playbook-update:" +:+ cq_critique_id critique)
    ([("tenant_id", JStr tenantId); ("playbook_version_id", JStr playbookVersionId);
      ("playbook_type", JStr (PlaybookType_str playbookType)); ("artifact_kind", JStr (cq_artifact_kind critique));
      ("artifact_id", JStr (cq_artifact_id critique)); ("critique_id", JStr (cq_critique_id critique));
      ("verdict", JStr (CritiqueVerdict_str (cq_verdict critique)));
      ("criteria_added", jint (Z.of_nat criteriaAdded)); ("proposal_id", JStr (ch_proposalId proposal))] ++
     learningProposalIdField persistedProposal ++
     [("relative_lift", JNum lift_); ("updated_at", JStr (toISOString now))])).

Definition markProposalPromoted (tenantId : string) (proposal : option LearningProposalRecord)
    (versionId : string) (promotionClaimToken : option string) : M (LearningWorld O) unit :=
  match proposal, ld_learningProposalRepository deps with
  | Some p, true =>
      if negb (truthy promotionClaimToken)
      then throw (JsError ("Missing promotion claim for learning proposal " +:+ lp_id p +:+ "."))
      else
        marked ← call (fun t => on_proposals (InMemoryProposals.markPromoted (tu_env t) tenantId (lp_id p)
          versionId (promotionClaimToken ?: "")));
        match marked with
        | Some _ => mret tt
        | None =>
            current ← call (fun _ => on_proposals (InMemoryProposals.getById tenantId (lp_id p)));
            if bool_decide (lp_status <$> current = Some prop_promoted) &&
               bool_decide (lp_promotedVersionRef <$> current = Some (Some versionId))
            then mret tt
            else throw (JsError ("Unable to mark learning proposal " +:+ lp_id p +:+ " as promoted."))
        end
  | _, _ => mret tt
  end.

(** Announce the version, then record the promotion. *)
Definition finishPromotion (tenantId : string) (proposal : PlaybookChangeProposal)
    (critique : CritiqueCompletedPayload) (playbookType : PlaybookType)
    (persistedProposal : option LearningProposalRecord) (token : option string) (lift_ : num)
    (version : PlaybookVersionRecord) (criteriaAdded : nat) :
    M (LearningWorld O) (option PlaybookVersionRecord) :=
  enqueuePlaybookUpdated tenantId proposal critique playbookType persistedProposal (pv_id version)
    criteriaAdded lift_;;
  markProposalPromoted tenantId persistedProposal (pv_id version) token;;
  mret (Some version).

Definition updatedVersion (critique : CritiqueCompletedPayload) (playbookType : PlaybookType)
    (content : LearnerRubricContent) (addedCriteria : nat) (now : Z) : CreatePlaybookVersionParams :=
  mkCreatePlaybook playbookType
    (PlaybookType_str playbookType +:+ " rubric — critique " +:+ String.substring 0 8 (cq_critique_id critique))
    (Some ("Auto-updated from critique verdict " +:+ double_quote +:+
      CritiqueVerdict_str (cq_verdict critique) +:+ double_quote +:+ ". Added " +:+ pretty addedCriteria +:+
      " criterion(s) from " +:+ pretty (length (cq_reasons critique)) +:+ " failure reason(s)."))
    (rubric_json content) (createdByCritique critique) (Some now).

(** The claim of a proposal that has been persisted. *)
Definition claimPersisted (tenantId : string) (persistedProposal : option LearningProposalRecord) :
    M (LearningWorld O) (option PromotionClaim) :=
  match persistedProposal, ld_learningProposalRepository deps with
  | Some p, true =>
      call (fun t => on_proposals (InMemoryProposals.claimPromotion (tu_env t) tenantId (lp_id p)
        (mkClaimOptions None None)))
  | _, _ => mret None
  end.

Definition promotePlaybookChange (tenantId : string) (proposal : PlaybookChangeProposal)
    (critique : CritiqueCompletedPayload) (playbookType : PlaybookType)
    (persistedProposal : option LearningProposalRecord) (lift_ : num) :
    M (LearningWorld O) (option PlaybookVersionRecord) :=
  if negb (ld_playbookRepository deps)
  then throw (JsError "Playbook repository is required to promote a proposal.")
  else
    promotionClaim ← claimPersisted tenantId persistedProposal;
    if bool_decide (is_Some persistedProposal) && negb (bool_decide (is_Some promotionClaim)) then mret None
    else
      let token := claim_token <$> promotionClaim in
      priorVersions ← call (fun _ => on_playbooks (InMemoryPlaybooks.listAll tenantId playbookType));
      match List.find (fun v => String.eqb (pv_createdBy v) (createdByCritique critique)) priorVersions with
      | Some existingPromotion =>
          finishPromotion tenantId proposal critique playbookType persistedProposal token lift_
            existingPromotion 0
      | None =>
          existing ← call (fun _ => on_playbooks (InMemoryPlaybooks.getActive tenantId playbookType));
          now ← clock;
          let '(updatedContent, addedCriteria) :=
            buildUpdatedRubricContent (pv_content <$> existing) (cq_reasons critique) now in
          newVersion ← call (fun t => on_playbooks (InMemoryPlaybooks.create (tu_env t) tenantId
            (updatedVersion critique playbookType updatedContent (length addedCriteria) now)));
          finishPromotion tenantId proposal critique playbookType persistedProposal token lift_
            newVersion (length addedCriteria)
      end.

(** Evidence, decision, record and promotion: the common end of both
    deliveries. *)
Definition decideAndPromote (tenantId : string) (proposal : PlaybookChangeProposal)
    (critique : CritiqueCompletedPayload) (playbookType : PlaybookType)
    (persistedProposal : option LearningProposalRecord) :
    M (LearningWorld O) (option PlaybookVersionRecord) :=
  evaluation ← getEvaluation proposal;
  match evaluation with
  | None => mret None
  | Some evaluation =>
      promotion ← lift (evaluateLearningProposal evaluation (ld_learningPolicy deps ?: defaultLearningPolicy));
      eligible ← recordPromotionDecision tenantId persistedProposal evaluation promotion;
      if negb (eligible : bool) || negb (bool_decide (decision promotion = dec_promote)) then mret None
      else promotePlaybookChange tenantId proposal critique playbookType persistedProposal (relativeLift promotion)
  end.

Definition proposedPayload (tenantId : string) (proposal : PlaybookChangeProposal)
    (critique : CritiqueCompletedPayload) (risk : ChangeRisk) (now : Z) : jobject :=
  [("tenant_id", JStr tenantId); ("proposal_id", JStr (ch_proposalId proposal))] ++
  spread_truthy "experiment_id" (cq_experiment_id critique) ++
  [("change_risk", JStr (ChangeRisk_str risk));
   ("playbook_type", JStr (PlaybookType_str (ch_playbookType proposal)));
   ("artifact_kind", JStr (cq_artifact_kind critique)); ("artifact_id", JStr (cq_artifact_id critique));
   ("critique_id", JStr (cq_critique_id critique)); ("source", JStr (cq_source critique));
   ("prompt_version", JStr (cq_prompt_version critique));
   ("verdict", JStr (CritiqueVerdict_str (cq_verdict critique)));
   ("confidence_score", JNum (cq_confidence_score critique));
   ("failure_reasons", JArr (JStr <$> cq_reasons critique)); ("critiqued_at", JStr (cq_critiqued_at critique));
   ("status", JStr "awaiting_evidence"); ("proposed_at", JStr (toISOString now))].

Definition processFromCritique (tenantId : string) (rawPayload : jobject) :
    M (LearningWorld O) (option PlaybookVersionRecord) :=
  critique ← lift (critiqueCompletedPayloadSchema rawPayload);
  if bool_decide (cq_verdict critique = verdict_approve) then mret None
  else match resolvePlaybookType (cq_artifact_kind critique) with
  | None => mret None
  | Some playbookType =>
      let proposal := mkChange tenantId (createdByCritique critique) (cq_artifact_kind critique)
        (cq_artifact_id critique) playbookType (cq_verdict critique) in
      let risk := cq_change_risk critique ?: risk_high in
      now ← clock;
      let payload := proposedPayload tenantId proposal critique risk now in
      persistedProposal ← persistProposal tenantId proposal critique risk payload;
      enqueue (mkEnqueue tenantId "learning.playbook.change.proposed.v1"
        ("playbook-proposal:" +:+ cq_critique_id critique)
        (payload ++ learningProposalIdField persistedProposal));;
      if negb (ld_playbookRepository deps) || negb (ld_promotionEvidenceProvider deps) then mret None
      else decideAndPromote tenantId proposal critique playbookType persistedProposal
  end.

Definition processApprovedProposal (tenantId proposalId : string) :
    M (LearningWorld O) (option PlaybookVersionRecord) :=
  if negb (ld_learningProposalRepository deps) || negb (ld_playbookRepository deps) ||
     negb (ld_promotionEvidenceProvider deps)
  then mret None
  else
    persistedProposal ← call (fun _ => on_proposals (InMemoryProposals.getById tenantId proposalId));
    match persistedProposal with
    | None => mret None
    | Some persisted =>
        if negb (bool_decide (lp_status persisted = prop_approved)) then mret None
        else
          stored ← lift (persistedCritiqueProposalPayloadSchema (lp_proposalPayload persisted));
          let s := pc_critique stored in
          critique ← lift (critiqueCompletedPayloadSchema
            ([("critique_id", JStr (cq_critique_id s)); ("source", JStr (cq_source s));
              ("artifact_kind", JStr (cq_artifact_kind s)); ("artifact_id", JStr (cq_artifact_id s))] ++
             spread_truthy "experiment_id" (cq_experiment_id s) ++
             [("change_risk", JStr (ChangeRisk_str (pc_change_risk stored)));
              ("prompt_version", JStr (cq_prompt_version s));
              ("verdict", JStr (CritiqueVerdict_str (cq_verdict s)));
              ("confidence_score", JNum (cq_confidence_score s)); ("reasons", JArr (JStr <$> cq_reasons s));
              ("critiqued_at", JStr (cq_critiqued_at s))]));
          let proposal := mkChange tenantId (pc_proposal_id stored) (cq_artifact_kind s) (cq_artifact_id s)
            (pc_playbook_type stored) (cq_verdict s) in
          decideAndPromote tenantId proposal critique (pc_playbook_type stored) (Some persisted)
    end.

(** The messages the worker consumes. *)
Inductive learning_message :=
  | CritiqueCompleted (tenantId : string) (payload : jobject)
  | ProposalApproved (tenantId proposalId : string).

Definition process_message (m : learning_message) : M (LearningWorld O) (option PlaybookVersionRecord) :=
  match m with
  | CritiqueCompleted tn p => processFromCritique tn p
  | ProposalApproved tn id => processApprovedProposal tn id
  end.

(** Deliveries one after the other; a failed one is retried by the consumer,
    as one more delivery. *)
Definition process_messages (ms : list learning_message) (w : LearningWorld O) : LearningWorld O :=
  fold_left (fun w m => (process_message m w).2) ms w.
End worker.

(** ** What the schemas accept *)

Section schema_lemmas.
Context `{Z : Zod} {ZL : ZodLaws Z} `{ZodFormats}.

Lemma min1_field_ok v s : min1_field v = Ok s <-> v = Some (JStr s) /\ s ≠ "".
Proof.
  split.
  - intros [-> Hs]%string_field_ok; [|apply _]. apply min1_text_ok in Hs as [? _]. done.
  - intros [-> Hs]. by apply min1_text_ok.
Qed.

Lemma texts_field_ok v l : texts_field v = Ok l <-> v = Some (JArr (JStr <$> l)) /\ Forall (.≠ "") l.
Proof.
  unfold texts_field, array_field. split.
  - destruct v as [[| | | |js|]|]; try done. revert l.
    induction js as [|j js IH]; intros l; msimpl; [by intros [= <-]|].
    destruct (min1_field (Some j)) as [s|] eqn:Ej; [|done].
    destruct (zod_array_map _ js) as [l'|]; [|done]. intros [= <-].
    apply min1_field_ok in Ej as [[= ->] Hs]. destruct (IH l' eq_refl) as [[= ->] Hl].
    split; [done|by constructor].
  - intros [-> Hl]. induction Hl as [|s l Hs Hl IH]; [done|]. csimpl. msimpl.
    rewrite (proj2 (min1_field_ok _ s)) by done. by rewrite IH.
Qed.

Lemma texts_ok (l : list string) : Forall (.≠ "") l -> zod_array min1_text l = Ok l.
Proof.
  induction 1 as [|s l Hs Hl IH]; [done|]. msimpl. rewrite (proj2 (min1_text_ok s s)) by done. by rewrite IH.
Qed.

Lemma synthesis_ok s : let y := synthesizeLearningCandidate s in
  unit_number (sy_confidenceScore y) = Ok (sy_confidenceScore y) /\
  zod_array min1_text (sy_reasons y) = Ok (sy_reasons y).
Proof.
  unfold synthesizeLearningCandidate.
  repeat match goal with |- context [if ?b then _ else _] => destruct b end; vm_compute; done.
Qed.

(** Every accepted signal makes an acceptable candidate. *)
Lemma candidate_ok p s now : learningSignalSchema p = Ok s ->
  learningCandidateSchema (mkCandidate s (synthesizeLearningCandidate s) now) =
    Ok (mkCandidate s (synthesizeLearningCandidate s) now) /\
  zod_uuid (ls_tenantId s) = true /\ ls_dedupeKey s ≠ "".
Proof.
  unfold learningSignalSchema. msimpl.
  destruct (string_field uuid (mapGet "tenantId" p)) as [tn|] eqn:E1; [|done].
  destruct (min1_field (mapGet "learningId" p)) as [lid|] eqn:E2; [|done].
  destruct (min1_field (mapGet "dedupeKey" p)) as [key|] eqn:E3; [|done].
  destruct (min1_field (mapGet "source" p)) as [source|] eqn:E4; [|done].
  destruct (string_field uuid (mapGet "issueId" p)) as [issue|] eqn:E5; [|done].
  destruct (min1_field (mapGet "outputType" p)) as [output|] eqn:E6; [|done].
  destruct (enum_field _ _ _) as [action|]; [|done].
  destruct (nullish_field _ _) as [distance|] eqn:E8; [|done].
  destruct (default_field [] texts_field _) as [failures|] eqn:E9; [|done].
  destruct (optional_field _ _) as [note|]; [|done].
  destruct (default_field true _ _) as [optIn|]; [|done]. intros [= <-].
  apply string_field_ok in E1 as [_ E1], E5 as [_ E5]; [|apply _..].
  apply min1_field_ok in E2 as [_ ?], E3 as [_ ?], E4 as [_ ?], E6 as [_ ?].
  assert (zod_optional unit_number distance = Ok distance) as Hd.
  { revert E8. unfold nullish_field, number_field. destruct (mapGet "editDistance" p) as [[| |n| | |]|]; msimpl; try done; try by intros [= <-].
    destruct (unit_number n) as [d|] eqn:Ed; [|done]. intros [= <-]. simpl.
    pose proof (same_parse _ _ Ed) as ->. by rewrite Ed. }
  assert (zod_array min1_text failures = Ok failures) as Hf.
  { revert E9. unfold default_field. destruct (mapGet "rubricFailures" p); [|by intros [= <-]].
    intros [_ Hl]%texts_field_ok. by apply texts_ok. }
  split; [|split; [by apply uuid_ok in E1 as [? _]|done]].
  set (s := mkLearningSignal _ _ _ _ _ _ _ _ _ _ _).
  unfold learningCandidateSchema. msimpl. rewrite E1, E5, (proj2 (min1_text_ok lid lid)), (proj2 (min1_text_ok key key)),
    (proj2 (min1_text_ok source source)), (proj2 (min1_text_ok output output)) by done.
  rewrite Hd, Hf. destruct (synthesis_ok s) as [-> ->]. by destruct (synthesizeLearningCandidate s).
Qed.

(** *** Rubrics *)

Record criterion_ok (c : LearnerRubricCriterion) : Prop := {
  ck_id : cr_id c ≠ "";
  ck_weight : unit_number (cr_weight c) = Ok (cr_weight c);
  ck_description : cr_description c ≠ "";
  ck_check : cr_check c ≠ "";
}.

Definition count_ok (o : option num) : Prop :=
  match o with Some n => positive_field (Some (JNum n)) = Ok n | None => True end.

Record rubric_ok (r : LearnerRubricContent) : Prop := {
  rk_some : ru_rubric r ≠ [];
  rk_criteria : Forall criterion_ok (ru_rubric r);
  rk_min : count_ok (ru_min_word_count r);
  rk_max : count_ok (ru_max_word_count r);
  rk_phrases : Forall (.≠ "") (ru_forbidden_phrases r ?: []);
}.

Lemma criterion_schema_ok j c : learnerRubricCriterionSchema j = Ok c -> criterion_ok c.
Proof.
  unfold learnerRubricCriterionSchema. msimpl. destruct j as [| | | | |fs]; try done. simpl.
  destruct (min1_field (mapGet "id" fs)) as [i|] eqn:E1; [|done].
  destruct (number_field unit_number _) as [w|] eqn:E2; [|done].
  destruct (min1_field (mapGet "description" fs)) as [d|] eqn:E3; [|done].
  destruct (min1_field (mapGet "check" fs)) as [k|] eqn:E4; [|done]. intros [= <-].
  apply min1_field_ok in E1 as [_ ?], E3 as [_ ?], E4 as [_ ?]. split; try done. simpl.
  unfold number_field in E2. destruct (mapGet "weight" fs) as [[]|]; try done.
  pose proof (same_parse _ _ E2) as ->. done.
Qed.

Lemma criterion_json_ok c : criterion_ok c -> learnerRubricCriterionSchema (criterion_json c) = Ok c.
Proof.
  intros [H1 H2 H3 H4]. unfold learnerRubricCriterionSchema. msimpl. rewrite H2.
  rewrite (proj2 (min1_field_ok _ (cr_id c))), (proj2 (min1_field_ok _ (cr_description c))),
    (proj2 (min1_field_ok _ (cr_check c))) by done. by destruct c.
Qed.

Lemma criteria_ok js cs : zod_array_map learnerRubricCriterionSchema js = Ok cs -> Forall criterion_ok cs.
Proof.
  revert cs. induction js as [|j js IH]; intros cs; msimpl; [by intros [= <-]|].
  destruct (learnerRubricCriterionSchema j) as [c|] eqn:Ej; [|done].
  destruct (zod_array_map _ js) as [cs'|]; [|done]. intros [= <-].
  constructor; [by apply criterion_schema_ok in Ej|by apply IH].
Qed.

Lemma criteria_json_ok cs : Forall criterion_ok cs ->
  zod_array_map learnerRubricCriterionSchema (criterion_json <$> cs) = Ok cs.
Proof.
  induction 1 as [|c cs Hc Hcs IH]; [done|]. rewrite fmap_cons. cbn [zod_array_map].
  rewrite criterion_json_ok by done. unfold mbind, result_bind. by rewrite IH.
Qed.

Lemma optional_count_ok v o : optional_field positive_field v = Ok o -> count_ok o.
Proof.
  unfold optional_field, mbind, result_bind, mret, result_ret. destruct v as [v|]; [|by intros [= <-]].
  destruct (positive_field (Some v)) as [n|] eqn:E; [|done]. intros [= <-]. unfold count_ok.
  destruct v as [| |m| | |]; try done. pose proof E as E'.
  unfold positive_field, number_field in E. apply refine_ok in E as [_ ->]. done.
Qed.

Lemma rubric_schema_ok p r : learnerRubricContentSchema p = Ok r -> rubric_ok r.
Proof.
  unfold learnerRubricContentSchema. msimpl.
  destruct (array_field _ _) as [cs|] eqn:E1; [|done]. destruct (refine _ cs) as [cs'|] eqn:E2; [|done].
  apply refine_ok in E2 as [Hne ->]. destruct (optional_field _ (mapGet "min_word_count" p)) as [lo|] eqn:E3; [|done].
  destruct (optional_field _ (mapGet "max_word_count" p)) as [hi|] eqn:E4; [|done].
  destruct (optional_field _ (mapGet "forbidden_phrases" p)) as [ph|] eqn:E5; [|done]. intros [= <-].
  split; simpl.
  - by intros ->.
  - unfold array_field in E1. destruct (mapGet "rubric" p) as [[]|]; try done. by eapply criteria_ok.
  - by eapply optional_count_ok.
  - by eapply optional_count_ok.
  - unfold optional_field in E5. destruct (mapGet "forbidden_phrases" p) as [v|]; msimpl; [|by simplify_eq].
    destruct (texts_field (Some v)) as [l|] eqn:El; [|done]. injection E5 as <-. by apply texts_field_ok in El as [_ ?].
Qed.

Lemma rubric_json_ok r : rubric_ok r -> learnerRubricContentSchema (rubric_json r) = Ok r.
Proof.
  intros [H1 H2 H3 H4 H5]. destruct r as [cs lo hi ph]. unfold learnerRubricContentSchema. cbn in H1, H2, H3, H4, H5.
  assert (array_field learnerRubricCriterionSchema (mapGet "rubric" (rubric_json (mkRubric cs lo hi ph))) = Ok cs)
    as -> by (by apply criteria_json_ok).
  unfold mbind, result_bind. rewrite (proj2 (refine_ok _ cs cs)) by (by destruct cs).
  assert (forall l, Forall (.≠ "") l -> texts_field (Some (JArr (JStr <$> l))) = Ok l) as Ht
    by (intros l Hl; by apply texts_field_ok).
  destruct lo as [lo|], hi as [hi|], ph as [ph|]; cbn in H3, H4, H5; simpl; unfold mbind, result_bind;
    rewrite ?H3; simpl; rewrite ?H4; simpl; rewrite ?(Ht ph H5); done.
Qed.

Lemma corrective_ok t i reason : reason ≠ "" -> criterion_ok (corrective t i reason).
Proof.
  intros Hr. split; simpl; [done|by vm_compute| |done].
  case_match; [|done]. by destruct (String.substring 0 117 reason).
Qed.
End schema_lemmas.

(** ** Properties of the feedback path and of the rubrics *)

Section feedback_theorems.
Context `{Z : Zod} {ZL : ZodLaws Z} `{ZodFormats} {O : Type} {P : OutboxPort O} {OS : OutboxStore O P}.

(** Every signal that the contract accepts becomes a candidate, with the
    disposition the heuristic gives it, and is announced once under its
    deduplication key, whatever the outbox holds already. *)
Theorem accepted_signal_is_announced (env : call_env) (input : jobject) s (o : O) : store_wf o ->
  learningSignalSchema input = Ok s ->
  exists e o', process env input o =
      (Ok (mkCandidate s (synthesizeLearningCandidate s) (env_now env)), o') /\
    store_wf o' /\ outbox_grows o o' /\
    stored_event o' (ls_tenantId s, "learning.candidate.synthesized.v1", ls_dedupeKey s) = Some e.
Proof.
  intros Ho Hs. destruct (candidate_ok input s (env_now env) Hs) as (Hc & Ht & Hk).
  destruct (enqueue_stored env (learningCandidateCommand
    (mkCandidate s (synthesizeLearningCandidate s) (env_now env))) o Ho) as (e & o' & He & Ho' & Hg & Hst & _).
  { by split_and!. }
  exists e, o'. split_and!; [|done..]. unfold process. msimpl. rewrite Hs, Hc. by rewrite He.
Qed.

(** The content written for a new version is read back as it is by the
    next update, which only adds to it: the rubric that was there (the
    default one when the stored content does not parse) is kept as a prefix,
    and what is appended has new ids. *)
Theorem rubric_update_reads_back existing reasons now content added : Forall (.≠ "") reasons ->
  buildUpdatedRubricContent existing reasons now = (content, added) ->
  learnerRubricContentSchema (rubric_json content) = Ok content /\
  (exists base, rubric_ok base /\ ru_rubric content = ru_rubric base ++ added /\
    (forall c, c ∈ added -> cr_id c ∉ (cr_id <$> ru_rubric base)) /\
    forall c r, existing = Some c -> learnerRubricContentSchema c = Ok r -> base = r).
Proof.
  intros Hr. unfold buildUpdatedRubricContent.
  set (base := match existing with Some _ => _ | None => _ end). set (l := bfilter _ _).
  assert (rubric_ok base) as Hb.
  { subst base. destruct existing as [c|]; [destruct (learnerRubricContentSchema c) eqn:E|];
      [by eapply rubric_schema_ok|..]; (split; [done|repeat constructor; by vm_compute|done|done|constructor]). }
  intros [= <- <-]. split.
  - apply rubric_json_ok. destruct Hb as [H1 H2 H3 H4 H5]. split; [simpl; by destruct (ru_rubric base)| |done..].
    simpl. apply Forall_app. split; [done|]. apply Forall_forall. intros c [_ Hc]%elem_of_bfilter.
    apply elem_of_lookup_imap in Hc as (i & reason & -> & Hi). apply corrective_ok.
    rewrite Forall_forall in Hr. by eapply Hr, list_elem_of_lookup_2.
  - exists base. split_and!; [done|done| |].
    + intros c [Hc _]%elem_of_bfilter. by b2p.
    + intros c r -> Hc. subst base. simpl. by rewrite Hc.
Qed.
End feedback_theorems.

(** ** What a call does to the repositories *)

Section call_lemmas.
Context `{Z : Zod} {ZL : ZodLaws Z} {O : Type} {P : OutboxPort O} {OL : OutboxLaws O P}.
Import InMemoryProposals.
Implicit Types (s : State O) (q r : LearningProposalRecord).

(** The records after a call were there, or satisfy [Q]; only [env]'s id is
    new. *)
Record pstep (Q : LearningProposalRecord -> Prop) (env : call_env) s s' : Prop := {
  ps_inv : prop_inv s';
  ps_outbox : outbox s' = outbox s;
  ps_records id q : mapGet id (recordsById s') = Some q ->
    mapGet id (recordsById s) = Some q \/ Q q /\ (mapGet id (recordsById s) ≠ None \/ id = env_uuid env);
}.

Lemma pstep_same Q env s : prop_inv s -> pstep Q env s s.
Proof. intros Hs. split; auto. Qed.

Lemma pstep_store Q env s s' id r : prop_inv s' -> outbox s' = outbox s ->
  recordsById s' = mapSet id r (recordsById s) -> Q r ->
  mapGet id (recordsById s) ≠ None \/ id = env_uuid env -> pstep Q env s s'.
Proof.
  intros Hs Ho Hr HQ Hid. split; [done..|]. intros id' q. rewrite Hr, mapGet_set.
  case_bool_decide; [|by left]. intros [= <-]. subst id'. by right.
Qed.

Lemma create_pstep env tn p s : prop_inv s -> mapGet (env_uuid env) (recordsById s) = None ->
  pstep (fun q => lp_status q = prop_awaiting_evidence) env s (create env tn p s).2.
Proof.
  intros Hs Hf. pose proof (proj1 (create_exec env tn p s Hs Hf)) as Hs'. revert Hs'.
  unfold create, store. msimpl. destruct (tenantIdSchema tn) as [tn'|]; [|by intros; apply pstep_same].
  destruct (createLearningProposalParamsSchema p) as [p'|]; [|by intros; apply pstep_same].
  destruct (indexed _ _ _); [by intros; apply pstep_same|].
  destruct (learningProposalRecordSchema _) as [r|] eqn:Hr; [|by intros; apply pstep_same].
  apply proposalSchema_fields in Hr as (_ & _ & Hid & _ & _ & Hst & _). intros Hs'.
  apply (pstep_store _ _ _ _ (lp_id r) r); [done|done|done|done|]. right. by rewrite Hid.
Qed.

Lemma evaluate_pstep env tn id p s : prop_inv s ->
  pstep (fun q => lp_status q ≠ prop_promoted) env s (recordEvaluation env tn id p s).2.
Proof.
  intros Hs. pose proof (proj1 (evaluate_exec env tn id p s Hs)) as Hs'. revert Hs'.
  unfold recordEvaluation, store. msimpl. destruct (tenantIdSchema tn) as [tn'|]; [|by intros; apply pstep_same].
  destruct (recordLearningProposalEvaluationParamsSchema p) as [p'|]; [|by intros; apply pstep_same].
  destruct (findScopedRecord tn' id s) as [r|] eqn:Hf; [|by intros; apply pstep_same].
  destruct (_ || _); [by intros; apply pstep_same|].
  destruct (learningProposalRecordSchema _) as [u|] eqn:Hr; [|by intros; apply pstep_same].
  apply proposalSchema_fields in Hr as (_ & _ & _ & _ & _ & Hst & _). apply find_some in Hf as [Hf _]. intros Hs'.
  apply (pstep_store _ _ _ _ id u); [done|done|done| |by left; rewrite Hf].
  rewrite Hst. simpl. by destruct (re_decision p').
Qed.

Lemma claim_pstep env tn id o s : prop_inv s -> zod_uuid (env_uuid env) = true ->
  pstep (fun q => lp_status q ≠ prop_promoted) env s (claimPromotion env tn id o s).2.
Proof.
  intros Hs Hu. pose proof (proj1 (claim_exec env tn id o s Hs Hu)) as Hs'. revert Hs'.
  unfold claimPromotion, store. msimpl. destruct (tenantIdSchema tn) as [tn'|]; [|by intros; apply pstep_same].
  destruct (promotionClaimOptionsSchema o) as [o'|]; [|by intros; apply pstep_same].
  destruct (findScopedRecord tn' id s) as [r|] eqn:Hf; [|by intros; apply pstep_same].
  case_bool_decide as Ha; simpl; [|by intros; apply pstep_same].
  destruct (hasActivePromotionClaim r _); [by intros; apply pstep_same|].
  destruct (learningProposalRecordSchema _) as [u|] eqn:Hr; [|by intros; apply pstep_same].
  apply proposalSchema_fields in Hr as (_ & _ & _ & _ & _ & Hst & _). apply find_some in Hf as [Hf _]. intros Hs'.
  apply (pstep_store _ _ _ _ id u); [done|done|done| |by left; rewrite Hf].
  rewrite Hst. simpl. by rewrite Ha.
Qed.

Lemma promote_pstep env tn id v token s : prop_inv s ->
  pstep (fun q => lp_tenantId q = tn /\ lp_promotedVersionRef q = Some (trim v)) env s
    (markPromoted env tn id v token s).2.
Proof.
  intros Hs. pose proof (proj1 (promote_exec env tn id v token s Hs)) as Hs'. revert Hs'.
  unfold markPromoted, store. msimpl. destruct (tenantIdSchema tn) as [tn'|] eqn:Ht; [|by intros; apply pstep_same].
  apply tenantIdSchema_ok in Ht as [_ ->].
  destruct (nonEmptyText v) as [v'|] eqn:Hv; [|by intros; apply pstep_same].
  destruct (uuid token) as [tok|]; [|by intros; apply pstep_same].
  destruct (findScopedRecord tn id s) as [r|] eqn:Hf; [|by intros; apply pstep_same].
  destruct (_ || _); [by intros; apply pstep_same|].
  destruct (learningProposalRecordSchema _) as [u|] eqn:Hr; [|by intros; apply pstep_same].
  apply find_some in Hf as [Hf Htn]. pose proof (ri_valid _ (pi_records _ Hs) _ _ Hf) as Hval.
  rewrite promoted_valid in Hr by done. injection Hr as <-. intros Hs'.
  apply nonEmptyText_ok in Hv as [_ ->].
  apply (pstep_store _ _ _ _ id (promoted r (trim v) (env_now env))); [done|done|done|done|by left; rewrite Hf].
Qed.
End call_lemmas.

(** ** What a delivery keeps, whatever else runs *)

Section worker_lemmas.
Context `{Z : Zod} {ZL : ZodLaws Z} `{ZodFormats} {O : Type} {P : OutboxPort O}.
Context {OL : OutboxLaws O P} {OS : OutboxStore O P}.
Context (script : nat -> turn) (others : nat -> Shared O -> Shared O) (deps : LearningWorkerDependencies).
(** The number of calls the script is about. *)
Context (N : nat).
Implicit Types (s : Shared O) (w : LearningWorld O) (v : PlaybookVersionRecord).

Definition versions s : list PlaybookVersionRecord := mapValues (InMemoryPlaybooks.records (sh_playbooks s)).

(** A version with this id, tenant and author is stored. *)
Definition has_version s (tn id by_ : string) : Prop :=
  exists v, v ∈ versions s /\ pv_id v = id /\ pv_tenantId v = tn /\ pv_createdBy v = by_.

Definition update_key (tn critiqueId : string) : outbox_key :=
  (tn, "learning.playbook.updated.v1", "playbook-update:" +:+ critiqueId).

(** A promoted proposal names a stored version, whose update is in the
    outbox. *)
Definition promotion_announced s (p : LearningProposalRecord) : Prop :=
  exists id critiqueId, lp_promotedVersionRef p = Some id /\
    has_version s (lp_tenantId p) id ("critique:" +:+ critiqueId) /\
    is_Some (stored_event (sh_outbox s) (update_key (lp_tenantId p) critiqueId)).

Definition unused_id s (id : string) : Prop :=
  mapGet id (InMemoryProposals.recordsById (sh_proposals s)) = None /\
  mapGet id (InMemoryPlaybooks.records (sh_playbooks s)) = None.

(** The state before the call number [t] of the script. *)
Record shared_ok (t : nat) s : Prop := {
  so_proposals : prop_inv (sh_proposals s);
  so_outbox : store_wf (sh_outbox s);
  so_playbooks : playbook_inv (sh_playbooks s);
  so_promoted id p : mapGet id (InMemoryProposals.recordsById (sh_proposals s)) = Some p ->
    lp_status p = prop_promoted -> promotion_announced s p;
  so_unused t' : (t <= t' < N)%nat -> unused_id s (env_uuid (tu_env (script t')));
}.

(** Events and versions stay. *)
Definition grows s s' : Prop :=
  outbox_grows (sh_outbox s) (sh_outbox s') /\
  forall tn id by_, has_version s tn id by_ -> has_version s' tn id by_.

#[export] Instance grows_preorder : PreOrder grows.
Proof.
  split; [by intros s|]. intros s1 s2 s3 [H1 H2] [H3 H4]. split; [by etrans|]. intros. by apply H4, H2.
Qed.

Lemma promotion_announced_grows s s' p : grows s s' -> promotion_announced s p -> promotion_announced s' p.
Proof.
  intros [Ho Hv] (id & cid & Hid & Hver & [e He]). exists id, cid. split_and!; [done|by apply Hv|].
  exists e. by apply Ho.
Qed.

Definition evolves w w' : Prop := shared_ok (lw_tick w) (lw_shared w) ->
  shared_ok (lw_tick w') (lw_shared w') /\ grows (lw_shared w) (lw_shared w').

#[export] Instance evolves_preorder : PreOrder evolves.
Proof.
  split; [by intros w|]. intros w1 w2 w3 H1 H2 Hw. destruct (H1 Hw) as [Hw2 G1].
  destruct (H2 Hw2) as [Hw3 G2]. split; [done|by etrans].
Qed.

Lemma evolves_intro w w' : (shared_ok (lw_tick w) (lw_shared w) -> evolves w w') -> evolves w w'.
Proof. intros Hi Hw. exact (Hi Hw Hw). Qed.

(** The ids of the script are UUIDs and differ from each other; from call
    number [N] on the repositories are out of reach; and the rest of the
    system keeps the invariant, neither removes anything nor takes the ids of
    the calls to come. *)
Context (ids_ok : forall t, zod_uuid (env_uuid (tu_env (script t))) = true).
Context (ids_differ : forall t t', (t < N)%nat -> (t' < N)%nat ->
  env_uuid (tu_env (script t)) = env_uuid (tu_env (script t')) -> t = t').
Context (ends : forall t, (N <= t)%nat -> exists e, tu_fault (script t) = FailBefore e).
Context (rely : forall t s, shared_ok t s -> shared_ok t (others t s) /\ grows s (others t s)).

Notation call := (call (O := O) script others).

(** A body that may run as call number [t]. *)
Definition safe_call {A} t (m : M (Shared O) A) s : Prop :=
  (t < N)%nat -> shared_ok t s -> shared_ok (S t) (m s).2 /\ grows s (m s).2.

Lemma shared_ok_next t s : shared_ok t s -> shared_ok (S t) s.
Proof. intros [? ? ? ? Hu]. split; try done. intros t' Ht. apply Hu. lia. Qed.

(** A call from [w] whose body is safe in every state the others leave. *)
Lemma call_evolves_at {A} (m : turn -> M (Shared O) A) w :
  (forall s, grows (lw_shared w) s -> safe_call (lw_tick w) (m (script (lw_tick w))) s) ->
  evolves w (call m w).2.
Proof.
  intros Hm Hw. unfold Learning.call. destruct (rely _ _ Hw) as [Hs Hg].
  set (s := others _ _) in *. destruct (decide (lw_tick w < N)%nat) as [Ht|Ht].
  2: { destruct (ends (lw_tick w)) as [e ->]; [lia|]. simpl. split; [by apply shared_ok_next|done]. }
  destruct (Hm _ Hg Ht Hs) as [Hs' Hg']. pose proof (faulty_state (tu_fault (script (lw_tick w))) (m (script (lw_tick w))) s) as Hf.
  destruct (faulty _ _ s) as [r s']. simpl in *. destruct Hf as [->| ->].
  - split; [by apply shared_ok_next|done].
  - split; [done|by etrans].
Qed.

Lemma call_evolves {A} (m : turn -> M (Shared O) A) :
  (forall t s, safe_call t (m (script t)) s) -> preserves evolves (call m).
Proof. intros Hm w. apply call_evolves_at. auto. Qed.

(** A call that answered: the state its body ran in, and what it did. *)
Lemma call_ok {A} (m : turn -> M (Shared O) A) w a w' : call m w = (Ok a, w') ->
  m (script (lw_tick w)) (others (lw_tick w) (lw_shared w)) = (Ok a, lw_shared w') /\ lw_tick w' = S (lw_tick w).
Proof.
  unfold Learning.call. destruct (faulty _ _ _) as [r s] eqn:Hf. intros [= -> <-].
  apply faulty_ok in Hf as [_ ?]. done.
Qed.

Lemma call_in_time {A} (m : turn -> M (Shared O) A) w a w' : call m w = (Ok a, w') -> (lw_tick w < N)%nat.
Proof.
  unfold Learning.call. intros Hc. destruct (decide (lw_tick w < N)%nat) as [|Ht]; [done|].
  destruct (ends (lw_tick w)) as [e He]; [lia|]. by rewrite He in Hc.
Qed.

(** *** Each kind of call *)

Lemma read_safe {A} t (m : M (Shared O) A) s : (m s).2 = s -> safe_call t m s.
Proof. intros Hm _ Hs. rewrite Hm. split; [by apply shared_ok_next|done]. Qed.

Lemma proposals_safe {A} t (m : M (InMemoryProposals.State O) A) Q s :
  (prop_inv (sh_proposals s) -> pstep Q (tu_env (script t)) (sh_proposals s) (m (sh_proposals s)).2) ->
  (forall q, Q q -> lp_status q = prop_promoted -> promotion_announced s q) ->
  safe_call t (on_proposals m) s.
Proof.
  intros Hm HQ Htn Hs. destruct (Hm (so_proposals _ _ Hs)) as [Hi Ho Hr]. unfold on_proposals.
  destruct (m (sh_proposals s)) as [x p]. simpl in *.
  assert (grows s (mkShared p (sh_playbooks s))) as Hg by (split; [|done]; unfold sh_outbox; simpl; by rewrite Ho).
  split; [|done]. split; simpl.
  - done.
  - unfold sh_outbox. simpl. rewrite Ho. apply (so_outbox _ _ Hs).
  - apply (so_playbooks _ _ Hs).
  - intros id q Hq Hst. apply (promotion_announced_grows s); [done|].
    destruct (Hr id q Hq) as [Hq'|[HQq _]]; [by eapply (so_promoted _ _ Hs)|by apply HQ].
  - intros t' Ht. destruct (so_unused _ _ Hs t') as [Hu1 Hu2]; [lia|]. split; [|done]. simpl.
    destruct (mapGet _ (InMemoryProposals.recordsById p)) as [q|] eqn:Hq; [|done]. exfalso.
    destruct (Hr _ q Hq) as [?|[_ [?|Hid]]]; [congruence..|]. apply ids_differ in Hid; lia.
Qed.

Lemma playbooks_safe {A} t (m : M InMemoryPlaybooks.State A) s :
  ((t < N)%nat -> shared_ok t s -> (playbook_inv (m (sh_playbooks s)).2 /\
    (forall v, v ∈ versions s -> v ∈ mapValues (InMemoryPlaybooks.records (m (sh_playbooks s)).2)) /\
    forall id, mapGet id (InMemoryPlaybooks.records (m (sh_playbooks s)).2) ≠ None ->
      mapGet id (InMemoryPlaybooks.records (sh_playbooks s)) ≠ None \/ id = env_uuid (tu_env (script t)))) ->
  safe_call t (on_playbooks m) s.
Proof.
  intros Hm Htn Hs. destruct (Hm Htn Hs) as (Hi & Hv & Hid). unfold on_playbooks.
  destruct (m (sh_playbooks s)) as [x p]. simpl in *.
  assert (grows s (mkShared (sh_proposals s) p)) as Hg.
  { split; [done|]. intros tn id by_ (v & Hin & Hp). exists v. split; [by apply Hv|done]. }
  split; [|done]. destruct Hs as [H1 H2 H3 H4 H5]. split; simpl; try done.
  - intros id q Hq Hst. apply (promotion_announced_grows s); [done|by eapply H4].
  - intros t' Ht. destruct (H5 t') as [Hu1 Hu2]; [lia|]. split; [done|]. simpl.
    destruct (mapGet _ (InMemoryPlaybooks.records p)) as [q|] eqn:Hq; [|done]. exfalso.
    destruct (Hid (env_uuid (tu_env (script t')))) as [?|Hid']; [by rewrite Hq|done|].
    apply ids_differ in Hid'; lia.
Qed.

Lemma enqueue_safe t c s : command_ok c ->
  safe_call t (on_proposals (InMemoryProposals.with_outbox (outbox_enqueue (tu_env (script t)) c))) s.
Proof.
  intros Hc Htn Hs. destruct Hs as [H1 H2 H3 H4 H5]. unfold on_proposals, InMemoryProposals.with_outbox.
  destruct (enqueue_stored (tu_env (script t)) c _ H2 Hc) as (e & o' & He & Ho' & Hg & _).
  destruct (outbox_accepts (tu_env (script t)) c _ (pi_outbox _ H1) Hc) as (e2 & o2 & He2 & Ho2 & _).
  unfold sh_outbox in *. rewrite He in He2. injection He2 as <- <-. rewrite He. simpl.
  set (s' := mkShared _ _). assert (grows s s') as Hg' by done.
  split; [|done]. split; simpl.
  - split; [by apply records_inv_outbox, H1|done].
  - done.
  - done.
  - intros id q Hq Hst. apply (promotion_announced_grows s); [done|by eapply H4].
  - intros t' Ht. apply H5. lia.
Qed.

Lemma create_version_safe t tn p s : zod_uuid tn = true -> cp_name p ≠ "" -> cp_createdBy p ≠ "" ->
  safe_call t (on_playbooks (InMemoryPlaybooks.create (tu_env (script t)) tn p)) s.
Proof.
  intros Hz Hn Hb. apply playbooks_safe. intros Htn Hs. destruct (so_unused _ _ Hs t) as [_ Hu]; [lia|].
  pose proof (so_playbooks _ _ Hs) as Hp.
  assert (accepted p = true) as Ha by (by apply accepted_spec).
  assert (forall tn' p', PCreate tn p = PCreate tn' p' -> accepted p' = true) as Hacc by (by intros ? ? [= _ <-]).
  pose proof (exec_inv (PCreate tn p) (tu_env (script t)) _ Hp Hacc (ids_ok t) Hu) as Hi.
  simpl in Hi. unfold mbind, M_bind in Hi. unfold versions.
  rewrite create_ok in Hi |- * by done. simpl in *. split_and!; [done| |].
  - intros v Hv. rewrite mapValues_set_new by done. apply elem_of_app. by left.
  - intros id. rewrite mapGet_set. case_bool_decide as Hid; [by right|by left].
Qed.

Lemma enqueue_evolves c : command_ok c -> preserves evolves (enqueue script others c).
Proof.
  intros Hc. unfold enqueue. apply preserves_bind; [apply _| |by intros e w].
  apply call_evolves. intros t s. by apply enqueue_safe.
Qed.

Lemma evidence_evolves proposal : preserves evolves (getEvaluation (O := O) script others proposal).
Proof. apply call_evolves. intros t s. by apply read_safe. Qed.

Lemma persist_evolves tn proposal critique risk payload :
  preserves evolves (persistProposal script others deps tn proposal critique risk payload).
Proof.
  unfold persistProposal. destruct (negb _); [by intros w|].
  apply preserves_bind; [apply _| |by intros r w]. apply call_evolves. intros t s Htn Hs.
  eapply proposals_safe; [| |done|done].
  - intros Hp. apply create_pstep; [done|]. apply (so_unused _ _ Hs t). lia.
  - simpl. intros q -> ?. done.
Qed.

Lemma decision_evolves tn p evaluation promotion :
  preserves evolves (recordPromotionDecision script others deps tn p evaluation promotion).
Proof.
  unfold recordPromotionDecision. destruct p as [p|]; [|by intros w].
  destruct (ld_learningProposalRepository deps); [|by intros w].
  apply preserves_bind; [apply _| |by intros r w]. apply call_evolves. intros t s.
  eapply proposals_safe; [intros Hp; by apply evaluate_pstep|done].
Qed.

Lemma claim_evolves tn p : preserves evolves (claimPersisted script others deps tn p).
Proof.
  unfold claimPersisted. destruct p as [p|]; [|by intros w].
  destruct (ld_learningProposalRepository deps); [|by intros w].
  apply call_evolves. intros t s. apply (proposals_safe t _ (fun q => lp_status q ≠ prop_promoted)); [|done].
  intros Hp. by apply claim_pstep.
Qed.

(** *** Finishing a promotion *)

Lemma has_version_uuid t s tn id by_ : shared_ok t s -> has_version s tn id by_ -> zod_uuid id = true.
Proof.
  intros Hs (v & Hv & <- & _). by apply (pl_valid _ (so_playbooks _ _ Hs)), playbook_schema_ok in Hv as [? _].
Qed.

Lemma getById_read tn id s : (on_proposals (InMemoryProposals.getById tn id) s).2 = s.
Proof.
  unfold on_proposals, InMemoryProposals.getById. msimpl. by destruct s, (tenantIdSchema tn).
Qed.

Lemma mark_evolves tn p id critiqueId token w :
  has_version (lw_shared w) tn id ("critique:" +:+ critiqueId) ->
  is_Some (stored_event (sh_outbox (lw_shared w)) (update_key tn critiqueId)) ->
  evolves w (markProposalPromoted script others deps tn p id token w).2.
Proof.
  intros Hv [e He]. apply evolves_intro. intros Hw.
  assert (zod_uuid id = true) as Hu by (by eapply has_version_uuid). unfold markProposalPromoted. destruct p as [p|]; [|done].
  destruct (ld_learningProposalRepository deps); [|done]. destruct (negb _); [done|].
  set (m := fun t : turn => on_proposals (InMemoryProposals.markPromoted (tu_env t) tn (lp_id p) id (token ?: ""))).
  assert (evolves w (call m w).2) as Hm.
  { apply call_evolves_at. intros s [Ho Hg]. subst m. cbv beta.
    apply (proposals_safe _ _ (fun q => lp_tenantId q = tn /\ lp_promotedVersionRef q = Some (trim id)));
      [intros Hs; by apply promote_pstep|]. intros q [Htn Href] _. exists id, critiqueId. rewrite Htn, Href, uuid_trim by done.
    split_and!; [done|by apply Hg|]. exists e. by apply Ho. }
  apply preserves_bind_at; [apply _|done|]. intros [q|] w' _; [by intros ?|].
  apply preserves_bind_at; [apply _|apply call_evolves; intros t s; apply read_safe, getById_read|].
  intros current w2 _. by destruct (_ && _).
Qed.

Lemma enqueue_stores c w w' : command_ok c -> shared_ok (lw_tick w) (lw_shared w) ->
  enqueue script others c w = (Ok tt, w') -> is_Some (stored_event (sh_outbox (lw_shared w')) (command_key c)).
Proof.
  intros Hc Hw. unfold enqueue. intros (e & w1 & He & [= <-])%bind_ok. apply call_ok in He as [He _].
  destruct (rely _ _ Hw) as [Hs _]. unfold on_proposals, InMemoryProposals.with_outbox in He.
  destruct (enqueue_stored (tu_env (script (lw_tick w))) c _ (so_outbox _ _ Hs) Hc)
    as (e' & o' & Hx & _ & _ & Hst & _).
  unfold sh_outbox in *. rewrite Hx in He. injection He as <- <-. simpl. eauto.
Qed.

(** The update event is one command, built at the instant of the call. *)
Lemma update_command tn proposal critique ty p id n lift_ w : zod_uuid tn = true -> exists c,
  command_ok c /\ command_key c = update_key tn (cq_critique_id critique) /\
  enqueuePlaybookUpdated script others tn proposal critique ty p id n lift_ w = enqueue script others c w.
Proof. intros Hz. eexists. split; [|split; [|reflexivity]]; [by split_and!|done]. Qed.

Lemma finish_evolves tn proposal critique ty p token lift_ v n w : zod_uuid tn = true ->
  has_version (lw_shared w) tn (pv_id v) (createdByCritique critique) ->
  evolves w (finishPromotion script others deps tn proposal critique ty p token lift_ v n w).2.
Proof.
  intros Hz Hv. apply evolves_intro. intros Hw. unfold finishPromotion.
  destruct (update_command tn proposal critique ty p (pv_id v) n lift_ w Hz) as (c & Hc & Hk & He).
  pose proof (enqueue_evolves c Hc w) as Hev. rewrite <- He in Hev.
  apply preserves_bind_at; [apply _|done|]. intros [] w1 H1. rewrite H1 in Hev.
  destruct (Hev Hw) as [Hw1 [_ Hg]]. rewrite He in H1.
  apply preserves_bind_at; [apply _| |by intros [] w2 _].
  apply (mark_evolves _ _ _ (cq_critique_id critique)); [by apply Hg|].
  rewrite <- Hk. by apply (enqueue_stores c w).
Qed.

(** *** Promotion *)

Lemma on_playbooks_ok {A} (m : M InMemoryPlaybooks.State A) s a s' : on_playbooks m s = (Ok a, s') ->
  m (sh_playbooks s) = (Ok a, sh_playbooks s') /\ sh_proposals s' = sh_proposals s.
Proof. unfold on_playbooks. destruct (m (sh_playbooks s)) as [x p]. by intros [= -> <-]. Qed.

Lemma listAll_ok tn ty (ps ps' : InMemoryPlaybooks.State) l : InMemoryPlaybooks.listAll tn ty ps = (Ok l, ps') ->
  ps' = ps /\
  forall v, v ∈ l <-> v ∈ mapValues (InMemoryPlaybooks.records ps) /\ pv_tenantId v = tn /\ pv_playbookType v = ty.
Proof.
  unfold InMemoryPlaybooks.listAll, gets. intros [= <- <-]. split; [done|]. intros v.
  rewrite elem_of_sort_by, elem_of_bfilter, of_type_self. clear. tauto.
Qed.

Lemma found_version critique l v :
  List.find (fun v => String.eqb (pv_createdBy v) (createdByCritique critique)) l = Some v ->
  v ∈ l /\ pv_createdBy v = createdByCritique critique.
Proof. intros [Hv He]%List.find_some. apply list_elem_of_In in Hv. by apply String.eqb_eq in He. Qed.

Lemma updatedVersion_ok critique ty content n now :
  cp_name (updatedVersion critique ty content n now) ≠ "" /\
  cp_createdBy (updatedVersion critique ty content n now) ≠ "".
Proof. by destruct ty. Qed.

Lemma playbooks_read {A} (m : M InMemoryPlaybooks.State A) s : (m (sh_playbooks s)).2 = sh_playbooks s ->
  (on_playbooks m s).2 = s.
Proof. unfold on_playbooks. intros Hm. destruct (m (sh_playbooks s)) as [x p]. simpl in *. subst p. by destruct s. Qed.

Lemma create_answer env tn p (ps ps' : InMemoryPlaybooks.State) v : playbook_inv ps ->
  zod_uuid tn = true -> accepted p = true -> zod_uuid (env_uuid env) = true ->
  mapGet (env_uuid env) (InMemoryPlaybooks.records ps) = None ->
  InMemoryPlaybooks.create env tn p ps = (Ok v, ps') ->
  v ∈ mapValues (InMemoryPlaybooks.records ps') /\ pv_tenantId v = tn /\ pv_createdBy v = cp_createdBy p.
Proof.
  intros Hs Hp Ha Hu Hf. rewrite create_ok by done. simpl. intros [= <- <-]. simpl.
  rewrite mapValues_set_new by done. split; [|done]. apply elem_of_app. right. by apply list_elem_of_singleton.
Qed.

Lemma promote_evolves tn proposal critique ty p lift_ : zod_uuid tn = true ->
  preserves evolves (promotePlaybookChange script others deps tn proposal critique ty p lift_).
Proof.
  intros Hz. unfold promotePlaybookChange. destruct (negb _); [by intros w|].
  apply preserves_bind; [apply _|apply claim_evolves|]. intros claim. destruct (_ && _); [by intros w|]. intros w.
  apply preserves_bind_at; [apply _|by apply call_evolves; intros t s; apply read_safe, playbooks_read|].
  intros prior w1 Hprior. destruct (List.find _ prior) as [v|] eqn:Hfind.
  - apply finish_evolves; [done|]. apply found_version in Hfind as [Hin Hby].
    apply call_ok in Hprior as [[Hl _]%on_playbooks_ok _]. apply listAll_ok in Hl as [Hs Hl].
    apply Hl in Hin as (Hin & Htn & _). exists v. split; [by unfold versions; rewrite Hs|done].
  - apply preserves_bind_at; [apply _|by apply call_evolves; intros t s; apply read_safe, playbooks_read|].
    intros existing w2 _. unfold clock. rewrite gets_bind. destruct (buildUpdatedRubricContent _ _ _) as [content added].
    set (params := updatedVersion _ _ _ _ _). destruct (updatedVersion_ok critique ty content (length added)
      (env_now (tu_env (script (lw_tick w2))))) as [Hn Hb].
    apply evolves_intro. intros Hw2. apply preserves_bind_at; [apply _| |].
    { apply call_evolves. intros t s. by apply create_version_safe. }
    intros v w3 Hc. pose proof (call_in_time _ _ _ _ Hc) as Ht.
    apply call_ok in Hc as [[Hv _]%on_playbooks_ok _]. destruct (rely _ _ Hw2) as [Hs _].
    apply create_answer in Hv as (Hv & Htn & Hby); [|apply (so_playbooks _ _ Hs)|done|by apply accepted_spec|done|apply (so_unused _ _ Hs); lia].
    apply finish_evolves; [done|]. by exists v.
Qed.

Lemma decide_evolves tn proposal critique ty p : zod_uuid tn = true ->
  preserves evolves (decideAndPromote script others deps tn proposal critique ty p).
Proof.
  intros Hz. unfold decideAndPromote. apply preserves_bind; [apply _|apply evidence_evolves|].
  intros [evaluation|]; [|by intros w]. apply preserves_bind; [apply _|by intros w|]. intros promotion.
  apply preserves_bind; [apply _|apply decision_evolves|]. intros eligible.
  destruct (_ || _); [by intros w|by apply promote_evolves].
Qed.

Definition message_tenant (m : learning_message) : string :=
  match m with CritiqueCompleted tn _ | ProposalApproved tn _ => tn end.

Lemma message_evolves m : zod_uuid (message_tenant m) = true ->
  preserves evolves (process_message script others deps m).
Proof.
  intros Hz. destruct m as [tn p|tn id]; simpl in *.
  - unfold processFromCritique. apply preserves_bind; [apply _|by intros w|]. intros critique.
    destruct (bool_decide _); [by intros w|]. destruct (resolvePlaybookType _) as [ty|]; [|by intros w].
    apply preserves_bind; [apply _|by intros w|]. intros now.
    apply preserves_bind; [apply _|apply persist_evolves|]. intros persisted.
    apply preserves_bind; [apply _|by apply enqueue_evolves; split_and!|]. intros [].
    destruct (_ || _); [by intros w|by apply decide_evolves].
  - unfold processApprovedProposal. destruct (_ || _); [by intros w|].
    apply preserves_bind; [apply _|by apply call_evolves; intros t s; apply read_safe, getById_read|].
    intros [persisted|]; [|by intros w]. destruct (negb _); [by intros w|].
    apply preserves_bind; [apply _|by intros w|]. intros stored.
    apply preserves_bind; [apply _|by intros w|]. intros critique. by apply decide_evolves.
Qed.

Lemma messages_evolve ms w : Forall (fun m => zod_uuid (message_tenant m) = true) ms ->
  evolves w (process_messages script others deps ms w).
Proof.
  intros Hms. revert w. induction Hms as [|m ms Hm Hms IH]; intros w; [done|]. simpl.
  etrans; [by apply message_evolves|apply IH].
Qed.

(** A founder's approval is one of the things the rest of the system may do. *)
Lemma approval_safe t (env : call_env) tn id by_ s : shared_ok t s ->
  let s' := (on_proposals (InMemoryProposals.approveAndEnqueue (fun p => p) env tn id by_) s).2 in
  shared_ok t s' /\ grows s s'.
Proof.
  intros Hs. cbv zeta. pose proof Hs as [H1 H2 H3 H4 H5]. unfold on_proposals.
  destruct (tenantIdSchema tn) as [tn'|] eqn:Ht.
  2: { unfold InMemoryProposals.approveAndEnqueue. rewrite Ht. by destruct s. }
  apply tenantIdSchema_ok in Ht as [Hz ->]. destruct (nonEmptyText by_) as [by'|] eqn:Hb.
  2: { unfold InMemoryProposals.approveAndEnqueue. msimpl. rewrite (proj2 (tenantIdSchema_ok tn tn)), Hb by done.
       by destruct s. }
  rewrite (approve_eq (fun p => p) env tn id by_ by' _ (pi_records _ H1) Hz Hb).
  pose proof (approve_guarded env tn id by_ by' _ H1 Hz Hb) as Hg. revert Hg. unfold guarded_update.
  destruct (InMemoryProposals.findScopedRecord tn id (sh_proposals s)) as [r|] eqn:Hf; [|by destruct s].
  destruct (bool_decide _); [|by destruct s]. intros (Hs1 & _ & Hv). specialize (Hv _ eq_refl).
  apply find_some in Hf as [Hf _]. set (u := approved r by' (env_now env)) in *.
  destruct (enqueue_stored env _ _ H2 (approval_command_ok _ Hv)) as (e & o & He & Ho & Hgr & _).
  destruct (outbox_accepts env _ _ (pi_outbox _ H1) (approval_command_ok _ Hv)) as (e2 & o2 & He2 & Hwf & _).
  unfold sh_outbox in *. rewrite He in He2. injection He2 as <- <-.
  unfold InMemoryProposals.with_outbox. simpl. rewrite He. simpl.
  match goal with |- shared_ok t ?x /\ _ => assert (grows s x) as Hgs by done end. split; [|done].
  split; simpl; [split; [by apply records_inv_outbox, Hs1|done]|done|done| |].
  - intros i q Hq Hst. apply (promotion_announced_grows s); [done|]. rewrite mapGet_set in Hq.
    case_bool_decide; [|by eapply H4]. injection Hq as <-. by subst u.
  - intros t' Ht. destruct (H5 t' Ht) as [Hu1 Hu2]. split; [|done]. simpl. rewrite mapGet_set.
    case_bool_decide as Hi; [|done]. congruence.
Qed.
End worker_lemmas.

(** ** What a delivery does when it runs alone *)

Section alone.
Context `{Z : Zod} {ZL : ZodLaws Z} `{ZodFormats} {O : Type} {P : OutboxPort O}.
Context {OL : OutboxLaws O P} {OS : OutboxStore O P}.
Context (script : nat -> turn) (deps : LearningWorkerDependencies) (N : nat).
Implicit Types (s : Shared O) (w : LearningWorld O) (v : PlaybookVersionRecord).

Definition nobody (t : nat) (s : Shared O) : Shared O := s.

Definition stored w (id : string) : option LearningProposalRecord :=
  mapGet id (InMemoryProposals.recordsById (sh_proposals (lw_shared w))).
Definition world_versions w : list PlaybookVersionRecord := versions (lw_shared w).

(** One version is added, the first of its kind by this author. *)
Definition creates w w' (tn : string) (ty : PlaybookType) (by_ : string) v : Prop :=
  world_versions w' = world_versions w ++ [v] /\ pv_tenantId v = tn /\ pv_playbookType v = ty /\
  pv_createdBy v = by_ /\
  forall u, u ∈ world_versions w -> pv_tenantId u = tn -> pv_playbookType u = ty -> pv_createdBy u ≠ by_.

(** The stored proposal that allows the version: decided for promotion, and
    either claimed or promoted to that very version. *)
Definition licensed w (id : string) v : Prop :=
  exists r, stored w id = Some r /\ lp_tenantId r = pv_tenantId v /\ lp_decision r = Some dec_promote /\
    (lp_status r = prop_approved /\ lp_promotionClaimToken r ≠ None \/
     lp_status r = prop_promoted /\ lp_promotedVersionRef r = Some (pv_id v)).

Context (ids_ok : forall t, zod_uuid (env_uuid (tu_env (script t))) = true).
Context (ids_differ : forall t t', (t < N)%nat -> (t' < N)%nat ->
  env_uuid (tu_env (script t)) = env_uuid (tu_env (script t')) -> t = t').
Context (ends : forall t, (N <= t)%nat -> exists e, tu_fault (script t) = FailBefore e).

Notation call := (call (O := O) script nobody).
Notation world_ok w := (shared_ok script N (lw_tick w) (lw_shared w)).

Lemma nobody_rely t s : shared_ok script N t s -> shared_ok script N t (nobody t s) /\ grows s (nobody t s).
Proof. done. Qed.

Lemma call_state {A} (m : turn -> M (Shared O) A) w : exists f, f = tu_fault (script (lw_tick w)) /\
  lw_shared (call m w).2 = (faulty f (m (script (lw_tick w))) (lw_shared w)).2 /\
  (call m w).1 = (faulty f (m (script (lw_tick w))) (lw_shared w)).1.
Proof. exists (tu_fault (script (lw_tick w))). unfold Learning.call, nobody. by destruct (faulty _ _ _). Qed.

Lemma call_quiet {A} (m : turn -> M (Shared O) A) w :
  (forall t s, sh_playbooks (m t s).2 = sh_playbooks s) -> world_versions (call m w).2 = world_versions w.
Proof.
  intros Hm. destruct (call_state m w) as (f & _ & Hs & _). unfold world_versions, versions. rewrite Hs.
  by destruct (faulty_state f (m (script (lw_tick w))) (lw_shared w)) as [->| ->]; rewrite ?Hm.
Qed.

Lemma on_proposals_quiet {A} (m : M (InMemoryProposals.State O) A) s :
  sh_playbooks (on_proposals m s).2 = sh_playbooks s.
Proof. unfold on_proposals. by destruct (m (sh_proposals s)). Qed.

(** *** The proposal of a version, while its promotion is finished *)

Definition marks (versionId id : string) w w' : Prop :=
  world_versions w' = world_versions w /\
  forall r, stored w id = Some r -> exists r', stored w' id = Some r' /\
    lp_tenantId r' = lp_tenantId r /\ lp_decision r' = lp_decision r /\
    (r' = r \/ lp_status r' = prop_promoted /\ lp_promotedVersionRef r' = Some versionId).

#[export] Instance marks_preorder vid id : PreOrder (marks vid id).
Proof.
  split.
  - intros w. split; [done|]. intros r Hr. exists r. auto.
  - intros w1 w2 w3 [V1 M1] [V2 M2]. split; [congruence|]. intros r1 Hr1.
    destruct (M1 r1 Hr1) as (r2 & Hr2 & T2 & D2 & C2). destruct (M2 r2 Hr2) as (r3 & Hr3 & T3 & D3 & C3).
    exists r3. split_and!; [done|congruence|congruence|]. destruct C3 as [->|?]; auto.
Qed.

Lemma marks_call {A} vid id (m : turn -> M (Shared O) A) w :
  sh_playbooks (m (script (lw_tick w)) (lw_shared w)).2 = sh_playbooks (lw_shared w) ->
  (forall r, stored w id = Some r -> exists r',
    mapGet id (InMemoryProposals.recordsById (sh_proposals (m (script (lw_tick w)) (lw_shared w)).2)) = Some r' /\
    lp_tenantId r' = lp_tenantId r /\ lp_decision r' = lp_decision r /\
    (r' = r \/ lp_status r' = prop_promoted /\ lp_promotedVersionRef r' = Some vid)) ->
  marks vid id w (call m w).2.
Proof.
  intros Hq Hm. destruct (call_state m w) as (f & _ & Hs & _).
  destruct (faulty_state f (m (script (lw_tick w))) (lw_shared w)) as [E|E]; rewrite E in Hs;
    unfold marks, world_versions, versions, stored in *; rewrite Hs; (split; [congruence|]); [|done].
  intros r Hr. exists r. auto.
Qed.

Lemma marks_same {A} vid id (m : turn -> M (Shared O) A) w :
  sh_playbooks (m (script (lw_tick w)) (lw_shared w)).2 = sh_playbooks (lw_shared w) ->
  InMemoryProposals.recordsById (sh_proposals (m (script (lw_tick w)) (lw_shared w)).2) =
    InMemoryProposals.recordsById (sh_proposals (lw_shared w)) ->
  marks vid id w (call m w).2.
Proof. intros Hq Hr. apply marks_call; [done|]. intros r Hs. exists r. rewrite Hr. auto. Qed.

Lemma markPromoted_effect env tn pid (v : string) token (ps : InMemoryProposals.State O) id r : prop_inv ps ->
  mapGet id (InMemoryProposals.recordsById ps) = Some r ->
  exists r', mapGet id (InMemoryProposals.recordsById (InMemoryProposals.markPromoted env tn pid v token ps).2) =
    Some r' /\ lp_tenantId r' = lp_tenantId r /\ lp_decision r' = lp_decision r /\
    (r' = r \/ lp_status r' = prop_promoted /\ lp_promotedVersionRef r' = Some (trim v)).
Proof.
  intros Hs Hr. destruct (proj2 (promote_exec env tn pid v token ps Hs) id r Hr) as (r' & Hr' & Hc).
  exists r'. split; [done|]. destruct Hc as [->|(l & _ & Hl & Hstep)]; [auto|].
  destruct l as [d|b|tok e|tok v'|v']; try done. simpl in Hl. destruct Hl as [_ ->].
  inversion Hstep; subst. simpl. auto.
Qed.

Lemma finish_marks tn proposal critique ty p token lift_ v n w id : zod_uuid tn = true ->
  zod_uuid (pv_id v) = true -> world_ok w ->
  marks (pv_id v) id w (finishPromotion script nobody deps tn proposal critique ty p token lift_ v n w).2.
Proof.
  intros Hz Hu Hw. unfold finishPromotion.
  destruct (update_command script nobody tn proposal critique ty p (pv_id v) n lift_ w Hz) as (c & Hc & _ & He).
  pose proof (enqueue_evolves script nobody N ends nobody_rely c Hc w) as Hev. rewrite <- He in Hev.
  apply preserves_bind_at; [apply _| |].
  { rewrite He. unfold enqueue. apply preserves_bind_at; [apply _| |by intros e w1 _].
    apply marks_same; [apply on_proposals_quiet|]. unfold on_proposals, InMemoryProposals.with_outbox.
    by destruct (outbox_enqueue _ _ _). }
  intros [] w1 H1. rewrite H1 in Hev. destruct (Hev Hw) as [Hw1 _].
  apply preserves_bind_at; [apply _| |by intros [] w2 _].
  unfold markProposalPromoted. destruct p as [q|]; [|done].
  destruct (ld_learningProposalRepository deps); [|done]. destruct (negb _); [done|].
  apply preserves_bind_at; [apply _| |].
  - apply marks_call; [apply on_proposals_quiet|]. intros r Hr. unfold on_proposals.
    destruct (markPromoted_effect (tu_env (script (lw_tick w1))) tn (lp_id q) (pv_id v) (token ?: "")
      (sh_proposals (lw_shared w1)) id r (so_proposals _ _ _ _ Hw1) Hr) as (r' & Hr' & T & D & C).
    rewrite uuid_trim in C by done. destruct (InMemoryProposals.markPromoted _ _ _ _ _ _). eauto 6.
  - intros [x|] w2 _; [done|]. apply preserves_bind_at; [apply _| |intros cur w3 _; by destruct (_ && _)].
    apply marks_same; by rewrite getById_read.
Qed.

(** *** What the calls before it answer *)

Lemma decision_answer tn q evaluation promotion w w' : zod_uuid tn = true -> world_ok w ->
  ld_learningProposalRepository deps = true ->
  recordPromotionDecision script nobody deps tn (Some q) evaluation promotion w = (Ok true, w') ->
  exists r, stored w' (lp_id q) = Some r /\ lp_tenantId r = tn /\ lp_decision r = Some (decision promotion).
Proof.
  intros Hz Hw Hd. unfold recordPromotionDecision. rewrite Hd.
  intros (rec & w1 & Hc & [= Hst <-])%bind_ok. apply call_ok in Hc as [Hc _]. unfold nobody in Hc.
  apply bool_decide_eq_true in Hst. destruct rec as [u|]; [|done]. unfold stored. revert Hc. unfold on_proposals.
  set (params := mkEvaluationParams _ _ _ _). set (env := tu_env _).
  pose proof (so_proposals _ _ _ _ Hw) as Hs. set (ps := sh_proposals (lw_shared w)) in *.
  destruct (recordLearningProposalEvaluationParamsSchema params) as [p'|] eqn:Hp.
  2: { unfold InMemoryProposals.recordEvaluation. msimpl.
       by rewrite (proj2 (tenantIdSchema_ok tn tn)), Hp by done. }
  rewrite (recordEvaluation_eq env tn (lp_id q) params p' ps (pi_records _ Hs) Hz Hp).
  apply evaluationParams_fields in Hp as [Hdec _]. unfold guarded_update.
  destruct (InMemoryProposals.findScopedRecord tn (lp_id q) ps) as [r|] eqn:Hf; [|done].
  destruct (_ && _); [|done]. intros [= <- <-]. simpl. rewrite mapGet_set_eq.
  apply find_some in Hf as [_ Htn]. eexists. split; [done|]. simpl. by rewrite Hdec.
Qed.

Lemma claim_answer tn q c w w' r : zod_uuid tn = true -> world_ok w ->
  ld_learningProposalRepository deps = true -> stored w (lp_id q) = Some r ->
  claimPersisted script nobody deps tn (Some q) w = (Ok (Some c), w') ->
  exists r', stored w' (lp_id q) = Some r' /\ lp_tenantId r' = lp_tenantId r /\
    lp_decision r' = lp_decision r /\ lp_status r' = prop_approved /\ lp_promotionClaimToken r' ≠ None.
Proof.
  intros Hz Hw Hd Hr. unfold claimPersisted. rewrite Hd. intros [Hc _]%call_ok. unfold nobody in Hc.
  unfold stored in *. revert Hc. unfold on_proposals. set (env := tu_env _).
  pose proof (so_proposals _ _ _ _ Hw) as Hs. set (ps := sh_proposals (lw_shared w)) in *.
  destruct (promotionClaimOptionsSchema (mkClaimOptions None None)) as [o'|] eqn:Ho; [|by vm_compute in Ho].
  destruct (claimOptions_fields _ _ Ho) as (_ & ms & Hms & _).
  rewrite (claimPromotion_eq env tn (lp_id q) _ o' ms ps (pi_records _ Hs) Hz (ids_ok _) Ho Hms). cbv zeta.
  unfold guarded_update. destruct (InMemoryProposals.findScopedRecord tn (lp_id q) ps) as [x|] eqn:Hf; [|done].
  apply find_some in Hf as [Hf _]. assert (x = r) as -> by congruence.
  destruct (_ && _) eqn:Hg; [|done]. apply andb_true_iff in Hg as [Hg _]. apply bool_decide_eq_true in Hg.
  intros [= <- <-]. simpl. rewrite mapGet_set_eq. eexists. split; [done|]. by rewrite <- Hg.
Qed.

(** *** The creation of a version *)

Lemma call_read {A} (m : turn -> M (Shared O) A) w : (forall t s, (m t s).2 = s) ->
  lw_shared (call m w).2 = lw_shared w.
Proof. intros Hm. destruct (call_state m w) as (f & _ & -> & _). by apply faulty_read. Qed.

Lemma create_effect tn p w : zod_uuid tn = true -> cp_name p ≠ "" -> cp_createdBy p ≠ "" -> world_ok w ->
  let res := call (fun t => on_playbooks (InMemoryPlaybooks.create (tu_env t) tn p)) w in
  lw_shared res.2 = lw_shared w /\ (forall v, res.1 ≠ Ok v) \/
  exists v, world_versions res.2 = world_versions w ++ [v] /\ pv_tenantId v = tn /\
    pv_playbookType v = cp_playbookType p /\ pv_createdBy v = cp_createdBy p /\ zod_uuid (pv_id v) = true /\
    (forall id, stored res.2 id = stored w id) /\ forall u, res.1 = Ok u -> u = v.
Proof.
  intros Hz Hn Hb Hw. cbv zeta. set (m := fun t : turn => _).
  destruct (decide (lw_tick w < N)%nat) as [Ht|Ht].
  2: { destruct (call_state m w) as (f & Hf & Hs & Hr). destruct (ends (lw_tick w)) as [e He]; [lia|].
       rewrite He in Hf. subst f. left. by rewrite Hs, Hr. }
  destruct (so_unused _ _ _ _ Hw (lw_tick w)) as [_ Hu]; [lia|].
  assert (exists v ps, m (script (lw_tick w)) (lw_shared w) = (Ok v, mkShared (sh_proposals (lw_shared w)) ps) /\
    mapValues (InMemoryPlaybooks.records ps) = world_versions w ++ [v] /\ pv_tenantId v = tn /\
    pv_playbookType v = cp_playbookType p /\ pv_createdBy v = cp_createdBy p /\ zod_uuid (pv_id v) = true)
    as (v & ps & Hm & Hps & H1 & H2 & H3 & H4).
  { unfold m, on_playbooks.
    rewrite create_ok by (done || apply (so_playbooks _ _ _ _ Hw) || by apply accepted_spec).
    eexists _, _. split; [reflexivity|]. simpl. by rewrite mapValues_set_new. }
  destruct (call_state m w) as (f & Hf & Hs & Hr). rewrite Hs, Hr. unfold world_versions, stored, versions. rewrite Hs.
  destruct f as [|e|e]; simpl; unfold mbind, M_bind; rewrite ?Hm; simpl.
  - right. exists v. split_and!; try done. by intros u [= ->].
  - left. by split.
  - right. exists v. by split_and!.
Qed.

Lemma licensed_marks id w w' v r : marks (pv_id v) id w w' -> stored w id = Some r ->
  lp_tenantId r = pv_tenantId v -> lp_decision r = Some dec_promote -> lp_status r = prop_approved ->
  lp_promotionClaimToken r ≠ None -> licensed w' id v.
Proof.
  intros [_ Hm] Hr Ht Hd Hs Hk. destruct (Hm r Hr) as (r' & Hr' & T & D & C). exists r'.
  split_and!; [done|congruence|congruence|]. destruct C as [->|C]; auto.
Qed.

Lemma claim_quiet tn p w : world_versions (claimPersisted script nobody deps tn p w).2 = world_versions w.
Proof.
  unfold claimPersisted. destruct p as [q|]; [|done]. destruct (ld_learningProposalRepository deps); [|done].
  apply call_quiet. intros. apply on_proposals_quiet.
Qed.

(** What is known of the proposal before its promotion. *)
Definition decided w (tn : string) (p : option LearningProposalRecord) : Prop :=
  forall q, p = Some q -> ld_learningProposalRepository deps = true ->
    exists r, stored w (lp_id q) = Some r /\ lp_tenantId r = tn /\ lp_decision r = Some dec_promote.

Lemma claim_licenses tn p c w w' : zod_uuid tn = true -> world_ok w -> decided w tn p ->
  claimPersisted script nobody deps tn p w = (Ok c, w') ->
  bool_decide (is_Some p) && negb (bool_decide (is_Some c)) = false ->
  forall q, p = Some q -> ld_learningProposalRepository deps = true ->
    exists r, stored w' (lp_id q) = Some r /\ lp_tenantId r = tn /\ lp_decision r = Some dec_promote /\
      lp_status r = prop_approved /\ lp_promotionClaimToken r ≠ None.
Proof.
  intros Hz Hw Hp Hc Hg q -> Hd. destruct c as [c|]; [|done].
  destruct (Hp q eq_refl Hd) as (r & Hr & Ht & Hdec).
  destruct (claim_answer tn q c w w' r Hz Hw Hd Hr Hc) as (r' & ? & ? & ? & ? & ?).
  exists r'. split_and!; congruence || done.
Qed.

(** The outcome of a promotion from [w], in the world [w']. *)
Definition promotes w tn critique ty (p : option LearningProposalRecord) w' : Prop :=
  world_versions w' = world_versions w \/
  exists v, creates w w' tn ty (createdByCritique critique) v /\
    forall q, p = Some q -> ld_learningProposalRepository deps = true -> licensed w' (lp_id q) v.

Lemma promotes_shared w w1 tn critique ty p w' : world_versions w1 = world_versions w ->
  promotes w1 tn critique ty p w' -> promotes w tn critique ty p w'.
Proof. unfold promotes, creates. by intros ->. Qed.

Lemma call_ok_evolves {A} (m : turn -> M (Shared O) A) w :
  (forall t s, (m t s).2 = s) -> world_ok w -> world_ok (call m w).2.
Proof.
  intros Hm Hw. refine (proj1 (call_evolves script nobody N ends nobody_rely m _ w Hw)).
  intros t s. by apply read_safe.
Qed.

(** The new version is made and the promotion finished. *)
Lemma version_effect tn proposal critique ty p token lift_ content n now w : zod_uuid tn = true ->
  world_ok w ->
  (forall q, p = Some q -> ld_learningProposalRepository deps = true ->
    exists r, stored w (lp_id q) = Some r /\ lp_tenantId r = tn /\ lp_decision r = Some dec_promote /\
      lp_status r = prop_approved /\ lp_promotionClaimToken r ≠ None) ->
  (forall u, u ∈ world_versions w -> pv_tenantId u = tn -> pv_playbookType u = ty ->
    pv_createdBy u ≠ createdByCritique critique) ->
  promotes w tn critique ty p
    ((v ← call (fun t => on_playbooks (InMemoryPlaybooks.create (tu_env t) tn
        (updatedVersion critique ty content n now)));
      finishPromotion script nobody deps tn proposal critique ty p token lift_ v n) w).2.
Proof.
  intros Hz Hw Hlic Hnone. destruct (updatedVersion_ok critique ty content n now) as [Hn Hb].
  pose proof (create_effect tn _ w Hz Hn Hb Hw) as Heff.
  assert (world_ok (call (fun t => on_playbooks (InMemoryPlaybooks.create (tu_env t) tn
    (updatedVersion critique ty content n now))) w).2) as Hw'.
  { refine (proj1 (call_evolves script nobody N ends nobody_rely _ _ w Hw)).
    intros t s. by apply create_version_safe. }
  assert (forall w' w2 v, world_versions w' = world_versions w ++ [v] -> pv_tenantId v = tn ->
    pv_playbookType v = ty -> pv_createdBy v = createdByCritique critique ->
    (forall id, stored w' id = stored w id) -> (forall id, marks (pv_id v) id w' w2) ->
    promotes w tn critique ty p w2) as Hmade.
  { intros w' w2 v Hv H1 H2 H3 Hst Hm. right. exists v. split.
    - split_and!; try done. by rewrite (proj1 (Hm "")).
    - intros q Hq Hd. destruct (Hlic q Hq Hd) as (r & Hr & ? & ? & ? & ?).
      eapply licensed_marks; [apply Hm|by rewrite Hst|congruence|done|done|done]. }
  revert Heff Hw'. cbv zeta. set (c := call _). intros Heff Hw'.
  apply bind_post.
  - intros e w' Hc. rewrite Hc in Heff. simpl in Heff.
    destruct Heff as [[Hs _]|(v & Hv & H1 & H2 & H3 & _ & Hst & _)].
    + left. unfold world_versions. by rewrite Hs.
    + by apply (Hmade w' w' v).
  - intros v' w' Hc. rewrite Hc in Heff, Hw'. simpl in Heff, Hw'.
    destruct Heff as [[_ Hs]|(v & Hv & H1 & H2 & H3 & Hu & Hst & He)]; [by destruct (Hs v')|].
    rewrite (He v' eq_refl). apply (Hmade w' _ v); try done. intros id. by apply finish_marks.
Qed.

Lemma promote_effect tn proposal critique ty p lift_ w : zod_uuid tn = true -> world_ok w ->
  decided w tn p ->
  promotes w tn critique ty p (promotePlaybookChange script nobody deps tn proposal critique ty p lift_ w).2.
Proof.
  intros Hz Hw Hp. unfold promotePlaybookChange. destruct (negb (ld_playbookRepository deps)); [by left|].
  pose proof (claim_quiet tn p w) as V1.
  pose proof (claim_evolves script nobody deps N ids_ok ids_differ ends nobody_rely tn p w Hw) as [Hw1 _].
  apply bind_post; [intros e w1 Hc; left; by rewrite Hc in V1|]. intros c w1 Hc. rewrite Hc in V1, Hw1.
  destruct (bool_decide (is_Some p) && _) eqn:Hg; [by left|].
  pose proof (claim_licenses tn p c w w1 Hz Hw Hp Hc Hg) as Hlic. apply (promotes_shared w w1); [done|].
  simpl in Hw1. clear Hw Hp Hc Hg V1. set (mp := fun _ : turn => on_playbooks (InMemoryPlaybooks.listAll tn ty)).
  assert (forall t s, (mp t s).2 = s) as Hr by (intros; by apply playbooks_read).
  pose proof (call_read mp w1 Hr) as S1. pose proof (call_ok_evolves mp w1 Hr Hw1) as Hw2.
  apply bind_post; [intros e w2 H2; rewrite H2 in S1; simpl in S1; left; unfold world_versions; by rewrite S1|].
  intros prior w2 H2. rewrite H2 in S1, Hw2. simpl in S1, Hw2.
  apply call_ok in H2 as [H2 _]. apply on_playbooks_ok in H2 as [Hl _]. apply listAll_ok in Hl as [_ Hl].
  apply (promotes_shared w1 w2); [unfold world_versions; by rewrite S1|].
  destruct (List.find _ prior) as [v|] eqn:Hf.
  - left. apply found_version in Hf as [[Hin _]%Hl _]. unfold nobody in Hin.
    refine (proj1 (finish_marks _ _ _ _ _ _ _ v _ w2 "" Hz _ Hw2)).
    apply (pl_valid _ (so_playbooks _ _ _ _ Hw1)), playbook_schema_ok in Hin. apply Hin.
  - set (mg := fun _ : turn => on_playbooks (InMemoryPlaybooks.getActive tn ty)).
    assert (forall t s, (mg t s).2 = s) as Hr2 by (intros; by apply playbooks_read).
    pose proof (call_read mg w2 Hr2) as S2. pose proof (call_ok_evolves mg w2 Hr2 Hw2) as Hw3.
    apply bind_post; [intros e w3 H3; rewrite H3 in S2; simpl in S2; left; unfold world_versions; by rewrite S2|].
    intros existing w3 H3. rewrite H3 in S2, Hw3. simpl in S2, Hw3.
    apply (promotes_shared w2 w3); [unfold world_versions; by rewrite S2|].
    unfold clock. rewrite gets_bind. destruct (buildUpdatedRubricContent _ _ _) as [content added].
    apply version_effect; [done|done| |].
    + intros q Hq Hd. unfold stored. rewrite S2, S1. by apply Hlic.
    + intros u Hu Ht Hty Hby. unfold world_versions in Hu. rewrite S2, S1 in Hu.
      eapply List.find_none in Hf; [|apply list_elem_of_In, Hl; split; [exact Hu|done]].
      by apply String.eqb_neq in Hf.
Qed.

(** *** A whole delivery *)

(** Evidence was given that passes the promotion policy. *)
Definition gate_passed : Prop := exists t e d, tu_evidence (script t) = Ok (Some e) /\
  evaluateLearningProposal e (ld_learningPolicy deps ?: defaultLearningPolicy) = Ok d /\
  decision d = dec_promote.

Definition delivers w tn w' : Prop :=
  world_versions w' = world_versions w \/
  exists v critiqueId, creates w w' tn (pv_playbookType v) ("critique:" +:+ critiqueId) v /\ gate_passed /\
    (ld_learningProposalRepository deps = true -> exists id, licensed w' id v).

Lemma delivers_shared w w1 tn w' : world_versions w1 = world_versions w -> delivers w1 tn w' -> delivers w tn w'.
Proof. unfold delivers, creates. by intros ->. Qed.

Lemma bind_quiet {A B} (m : M (LearningWorld O) A) (k : A -> M (LearningWorld O) B) w :
  world_versions (m w).2 = world_versions w -> (forall a w', world_versions (k a w').2 = world_versions w') ->
  world_versions ((a ← m; k a) w).2 = world_versions w.
Proof.
  intros Hm Hk. unfold mbind, M_bind. destruct (m w) as [[a|e] w']; [|done]. simpl in *. by rewrite Hk.
Qed.

Lemma proposals_quiet {A} (m : turn -> M (InMemoryProposals.State O) A) w :
  world_versions (call (fun t => on_proposals (m t)) w).2 = world_versions w.
Proof. apply call_quiet. intros. apply on_proposals_quiet. Qed.

Lemma decision_quiet tn p evaluation promotion w :
  world_versions (recordPromotionDecision script nobody deps tn p evaluation promotion w).2 = world_versions w.
Proof.
  unfold recordPromotionDecision. destruct p as [p|]; [|done].
  destruct (ld_learningProposalRepository deps); [|done]. apply bind_quiet; [apply proposals_quiet|done].
Qed.

Lemma persist_quiet tn proposal critique risk payload w :
  world_versions (persistProposal script nobody deps tn proposal critique risk payload w).2 = world_versions w.
Proof.
  unfold persistProposal. destruct (negb _); [done|]. apply bind_quiet; [apply proposals_quiet|done].
Qed.

Lemma enqueue_quiet c w : world_versions (enqueue script nobody c w).2 = world_versions w.
Proof. unfold enqueue. apply bind_quiet; [apply proposals_quiet|done]. Qed.

Lemma decide_effect tn proposal critique ty p w : zod_uuid tn = true -> world_ok w ->
  (ld_learningProposalRepository deps = true -> is_Some p) ->
  delivers w tn (decideAndPromote script nobody deps tn proposal critique ty p w).2.
Proof.
  intros Hz Hw Hp. unfold decideAndPromote, getEvaluation.
  set (me := fun t : turn => lift (tu_evidence t)).
  assert (forall t (s : Shared O), (me t s).2 = s) as Hr by done.
  pose proof (call_read me w Hr) as S1. pose proof (call_ok_evolves me w Hr Hw) as Hw1.
  apply bind_post; [intros e w1 H1; rewrite H1 in S1; simpl in S1; left; unfold world_versions; by rewrite S1|].
  intros evaluation w1 H1. rewrite H1 in S1, Hw1. simpl in S1, Hw1.
  assert (world_versions w1 = world_versions w) as V1 by (unfold world_versions; by rewrite S1).
  apply call_ok in H1 as [[= He _] _]. destruct evaluation as [evaluation|]; [|by left].
  apply bind_post; [intros e w2 [= _ <-]; by left|]. intros promotion w2 [= Hpro <-].
  apply (delivers_shared w w1); [done|].
  pose proof (decision_quiet tn p evaluation promotion w1) as V2.
  pose proof (decision_evolves script nobody deps N ids_differ ends nobody_rely tn p evaluation promotion w1 Hw1) as [Hw2 _].
  apply bind_post; [intros e w2 H2; rewrite H2 in V2; by left|].
  intros eligible w2 H2. rewrite H2 in V2, Hw2. simpl in V2, Hw2. apply (delivers_shared w1 w2); [done|].
  destruct eligible; [|by left]. case_bool_decide as Hdec; simpl; [|by left].
  destruct (promote_effect tn proposal critique ty p (relativeLift promotion) w2 Hz Hw2) as [Hq|(v & Hc & Hl)];
    [|by left|].
  - intros q -> Hd. destruct (decision_answer tn q evaluation promotion w1 w2 Hz Hw1 Hd H2) as (r & ? & ? & Hr2).
    exists r. by rewrite Hr2, Hdec.
  - right. exists v, (cq_critique_id critique). split_and!.
    + destruct Hc as (? & ? & <- & ? & ?). done.
    + by exists (lw_tick w), evaluation, promotion.
    + intros Hd. destruct (Hp Hd) as [q ->]. exists (lp_id q). by apply Hl.
Qed.

Lemma persist_some tn proposal critique risk payload w r w' : ld_learningProposalRepository deps = true ->
  persistProposal script nobody deps tn proposal critique risk payload w = (Ok r, w') -> is_Some r.
Proof. unfold persistProposal. intros ->. intros (x & w1 & _ & [= <- _])%bind_ok. by eexists. Qed.

Lemma message_effect m w : zod_uuid (message_tenant m) = true -> world_ok w ->
  delivers w (message_tenant m) (process_message script nobody deps m w).2.
Proof.
  intros Hz Hw. destruct m as [tn payload|tn id]; simpl in *.
  - unfold processFromCritique. apply bind_post; [intros e w1 [= _ <-]; by left|]. intros critique w1 [= _ <-].
    destruct (bool_decide _); [by left|]. destruct (resolvePlaybookType _) as [ty|]; [|by left].
    unfold clock. rewrite gets_bind. set (proposal := mkChange _ _ _ _ _ _).
    match goal with |- context [persistProposal script nobody deps tn proposal critique ?r ?p] =>
      pose proof (persist_quiet tn proposal critique r p w) as V1;
      pose proof (persist_evolves script nobody deps N ids_differ ends nobody_rely tn proposal critique r p w Hw) as [Hw1 _] end.
    apply bind_post; [intros e w1 H1; rewrite H1 in V1; by left|]. intros persisted w1 H1.
    rewrite H1 in V1, Hw1. simpl in V1, Hw1. apply (delivers_shared w w1); [done|].
    match goal with |- context [enqueue script nobody ?c] =>
      pose proof (enqueue_quiet c w1) as V2;
      pose proof (enqueue_evolves script nobody N ends nobody_rely c ltac:(by split_and!) w1 Hw1) as [Hw2 _] end.
    apply bind_post; [intros e w2 H2; rewrite H2 in V2; by left|]. intros [] w2 H2.
    rewrite H2 in V2, Hw2. simpl in V2, Hw2. apply (delivers_shared w1 w2); [done|].
    destruct (_ || _); [by left|]. apply decide_effect; [done|done|]. intros Hd. by eapply persist_some.
  - unfold processApprovedProposal. destruct (_ || _); [by left|].
    set (mg := fun _ : turn => on_proposals (InMemoryProposals.getById tn id)).
    assert (forall t s, (mg t s).2 = s) as Hr by (intros; by apply getById_read).
    pose proof (call_read mg w Hr) as S1. pose proof (call_ok_evolves mg w Hr Hw) as Hw1.
    apply bind_post; [intros e w1 H1; rewrite H1 in S1; simpl in S1; left; unfold world_versions; by rewrite S1|].
    intros persisted w1 H1. rewrite H1 in S1, Hw1. simpl in S1, Hw1.
    apply (delivers_shared w w1); [unfold world_versions; by rewrite S1|].
    destruct persisted as [persisted|]; [|by left]. destruct (negb _); [by left|].
    apply bind_post; [intros e w2 [= _ <-]; by left|]. intros stored2 w2 [= _ <-].
    apply bind_post; [intros e w2 [= _ <-]; by left|]. intros critique w2 [= _ <-].
    apply decide_effect; [done|done|]. by eexists.
Qed.
End alone.

(** ** Properties of the critique path *)

Section learning_theorems.
Context `{Z : Zod} {ZL : ZodLaws Z} `{ZodFormats} {O : Type} {P : OutboxPort O}.
Context {OL : OutboxLaws O P} {OS : OutboxStore O P}.
Context (script : nat -> turn) (deps : LearningWorkerDependencies) (N : nat).
Implicit Types (w : LearningWorld O) (v : PlaybookVersionRecord).

(** The calls have fresh UUIDs, and after the last one the repositories are
    out of reach. *)
Context (ids_ok : forall t, zod_uuid (env_uuid (tu_env (script t))) = true).
Context (ids_differ : forall t t', (t < N)%nat -> (t' < N)%nat ->
  env_uuid (tu_env (script t)) = env_uuid (tu_env (script t')) -> t = t').
Context (ends : forall t, (N <= t)%nat -> exists e, tu_fault (script t) = FailBefore e).

(** C2. A delivery that runs alone adds a playbook version only with a
    license, whatever call of it fails: the evidence it read passes the
    promotion policy, and when it ends, be it with an error, the tenant's
    proposal is decided for promotion and either under a claim or promoted to
    exactly this version. *)
Theorem new_version_is_licensed m w v : zod_uuid (message_tenant m) = true ->
  shared_ok script N (lw_tick w) (lw_shared w) -> ld_learningProposalRepository deps = true ->
  let w' := process_message script nobody deps m w in
  v ∈ world_versions w'.2 -> v ∉ world_versions w ->
  pv_tenantId v = message_tenant m /\ gate_passed script deps /\ exists id, licensed w'.2 id v.
Proof.
  intros Hz Hw Hd. cbv zeta. intros Hv Hn.
  destruct (message_effect script deps N ids_ok ids_differ ends m w Hz Hw) as [E|(u & cid & Hc & Hg & Hl)].
  { by rewrite E in Hv. }
  destruct Hc as (E & Ht & _). rewrite E in Hv.
  apply elem_of_app in Hv as [?| ->%list_elem_of_singleton]; [done|]. split_and!; auto.
Qed.

(** At most one version of a type by one critique. *)
Definition one_per_critique (l : list PlaybookVersionRecord) : Prop :=
  forall u v critiqueId, u ∈ l -> v ∈ l -> pv_tenantId u = pv_tenantId v ->
    pv_playbookType u = pv_playbookType v -> pv_createdBy u = "critique:" +:+ critiqueId ->
    pv_createdBy v = "critique:" +:+ critiqueId -> u = v.

(** C3. However often critiques and approvals are delivered again, and at
    whatever call a delivery dies, one critique makes at most one version of
    a playbook, as long as one delivery runs at a time. *)
Theorem one_version_per_critique ms w : Forall (fun m => zod_uuid (message_tenant m) = true) ms ->
  shared_ok script N (lw_tick w) (lw_shared w) -> one_per_critique (world_versions w) ->
  one_per_critique (world_versions (process_messages script nobody deps ms w)).
Proof.
  intros Hms. revert w. induction Hms as [|m ms Hz Hms IH]; intros w Hw Hu; [done|]. simpl.
  destruct (message_evolves script nobody deps N ids_ok ids_differ ends (nobody_rely script N) m Hz w Hw) as [Hw' _].
  apply IH; [done|].
  destruct (message_effect script deps N ids_ok ids_differ ends m w Hz Hw) as [E|(x & cid & Hc & _)]; [by rewrite E|].
  destruct Hc as (E & Ht & _ & Hby & Hfirst). rewrite E. intros u v c Hin Hin' Htn Hty Hcu Hcv.
  apply elem_of_app in Hin as [Hin| ->%list_elem_of_singleton],
    Hin' as [Hin'| ->%list_elem_of_singleton]; [by eapply Hu| | |done].
  - destruct (Hfirst u Hin); congruence.
  - destruct (Hfirst v Hin'); congruence.
Qed.

(** C4. Whatever else runs in between, provided it keeps the same invariant and
    removes nothing (as a founder's approval does), and whatever call fails: a
    proposal that is recorded as promoted
    names a stored version of its tenant, and the update event of that
    version's critique is in the outbox. *)
Theorem promotion_is_announced (others : nat -> Shared O -> Shared O) ms w id p :
  (forall t s, shared_ok script N t s -> shared_ok script N t (others t s) /\ grows s (others t s)) ->
  Forall (fun m => zod_uuid (message_tenant m) = true) ms ->
  shared_ok script N (lw_tick w) (lw_shared w) ->
  stored (process_messages script others deps ms w) id = Some p -> lp_status p = prop_promoted ->
  promotion_announced (lw_shared (process_messages script others deps ms w)) p.
Proof.
  intros Hr Hms Hw Hp Hst.
  destruct (messages_evolve script others deps N ids_ok ids_differ ends Hr ms w Hms Hw) as [Hw' _].
  by apply (so_promoted _ _ _ _ Hw' id p).
Qed.
End learning_theorems.

(** ** Examples *)

Module LearningExample.
Import ZodExample.

#[export] Instance formats : ZodFormats := {|
  zod_url := String.prefix "https://"; zod_email s := String.eqb s "a@b.c";
  zod_datetime_offset s := negb (String.eqb s ""); zod_datetime s := negb (String.eqb s "") |}.

Definition two_digits (n : nat) : string := if (n <? 10)%nat then "0" +:+ pretty n else pretty n.
Definition uid (n : nat) : string := "00000000-0000-4000-8000-0000000000" +:+ two_digits n.
Definition env_at (now : BinNums.Z) (n : nat) : call_env := {| env_now := now; env_uuid := uid n; env_serial := N.of_nat n |}.

(** Evidence that passes the policy, with or without a founder's approval, and
    evidence of a broken guardrail. *)
Definition good (approved : bool) : result (option LearningProposalEvaluation) :=
  Ok (Some (HarnessExample.evaluation <| humanApproved := approved |>)).
Definition bad : result (option LearningProposalEvaluation) :=
  Ok (Some (HarnessExample.evaluation <| worstGuardrailRegression := num_lit 1 2 |>)).

(** Calls a second apart, from [start] on, with ids from [first] on. *)
Definition turns (start : BinNums.Z) (first : nat) (evidence : list (result (option LearningProposalEvaluation))) : list turn :=
  imap (fun i e => mkTurn (env_at (start + 1000 * Z.of_nat i) (first + i)) NoFault e) evidence.
Definition dead : turn := mkTurn (env_at 0 99) (FailBefore (JsError "gone")) (Ok None).
Definition script_of (l : list turn) (t : nat) : turn := default dead (l !! t).

Lemma script_ids_ok l : forallb (fun t => zod_uuid (env_uuid (tu_env t))) l = true ->
  forall t, zod_uuid (env_uuid (tu_env (script_of l t))) = true.
Proof.
  rewrite forallb_forall. intros Hl t. unfold script_of. destruct (l !! t) as [x|] eqn:Hx; [|done].
  apply Hl, list_elem_of_In. by eapply list_elem_of_lookup_2.
Qed.

Lemma script_ids_differ l : NoDup ((fun t => env_uuid (tu_env t)) <$> l) -> forall t t',
  (t < length l)%nat -> (t' < length l)%nat ->
  env_uuid (tu_env (script_of l t)) = env_uuid (tu_env (script_of l t')) -> t = t'.
Proof.
  intros Hd t t' Ht Ht'. unfold script_of.
  destruct (lookup_lt_is_Some_2 l t Ht) as [x Hx], (lookup_lt_is_Some_2 l t' Ht') as [y Hy].
  rewrite Hx, Hy. simpl. intros He. eapply (NoDup_lookup _ t t'); [exact Hd| |];
    rewrite list_lookup_fmap, ?Hx, ?Hy; simpl; [done|by rewrite He].
Qed.

Lemma script_ends l t : (length l <= t)%nat -> exists e, tu_fault (script_of l t) = FailBefore e.
Proof. intros Ht. unfold script_of. rewrite lookup_ge_None_2 by done. simpl. by eexists. Qed.

Definition critique (risk : string) : jobject :=
  [("critique_id", JStr "c-1"); ("source", JStr "worker-critique"); ("artifact_kind", JStr "blog_draft.v1");
   ("artifact_id", JStr "draft-7"); ("change_risk", JStr risk); ("prompt_version", JStr "p1");
   ("verdict", JStr "revise"); ("confidence_score", JNum (num_lit 8 10));
   ("reasons", JArr [JStr "No evidence for the main claim"]); ("critiqued_at", JStr "2026-01-01T00:00:00Z")].

Definition deps : LearningWorkerDependencies := mkDeps true true true None.
Definition empty : LearningWorld InMemoryOutbox.State :=
  mkLearningWorld (mkShared (InMemoryProposals.mkState [] [] InMemoryOutbox.init) InMemoryPlaybooks.init) 0.

Lemma empty_ok script N : shared_ok (OS := in_memory_outbox_store) script N 0 (lw_shared empty).
Proof.
  split; [split; [split; [apply index_inv_nil|done..]|apply outbox_inv_init]|apply outbox_inv_init|
    apply playbook_inv_init|done|done].
Qed.

(** A critique of high risk, the founder's approval, and the promotion. *)
Definition life : list turn :=
  turns 1000 0 [Ok None; Ok None; good false; Ok None; Ok None; good true; Ok None; Ok None; Ok None;
    Ok None; Ok None; Ok None; Ok None].
Definition messages : list learning_message :=
  [CritiqueCompleted tenant (critique "high"); ProposalApproved tenant (uid 0)].
Definition founder (t : nat) (s : Shared InMemoryOutbox.State) : Shared InMemoryOutbox.State :=
  if (t =? 4)%nat
  then (on_proposals (InMemoryProposals.approveAndEnqueue (fun p => p) (env_at 4500 90) tenant (uid 0) "founder") s).2
  else s.

(** A critique of low risk, alone. *)
Definition evidence_at_2 (e : result (option LearningProposalEvaluation)) : list (result (option LearningProposalEvaluation)) :=
  [Ok None; Ok None; e; Ok None; Ok None; Ok None; Ok None; Ok None].
Definition alone_script : list turn := turns 1000 0 (evidence_at_2 (good true) ++ [Ok None; Ok None]).

(** The connection breaks after the new version is stored; later the message
    is delivered again, with the evidence [e]. *)
Definition broken (e : result (option LearningProposalEvaluation)) : list turn :=
  turns 1000 0 (evidence_at_2 (good true)) ++
  [mkTurn (env_at 9000 8) (FailBefore (JsError "connection lost")) (Ok None)] ++
  turns 100000 9 [Ok None; Ok None; e; Ok None; Ok None; Ok None; Ok None; Ok None].
Definition redelivered : list learning_message :=
  [CritiqueCompleted tenant (critique "low"); CritiqueCompleted tenant (critique "low")].

(** A second worker, whose whole delivery runs while the first one stands
    between its look at the versions and its creation, the lease having run
    out. *)
Definition second_worker (s : Shared InMemoryOutbox.State) : Shared InMemoryOutbox.State :=
  lw_shared (process_message (script_of (turns 100000 30 (Ok None :: good true :: replicate 7 (Ok None)))) nobody deps
    (ProposalApproved tenant (uid 0)) (mkLearningWorld s 0)).2.
Definition stalled : list turn :=
  turns 1000 0 (evidence_at_2 (good true)) ++ turns 200000 10 (replicate 3 (Ok None)).
Definition meanwhile (t : nat) (s : Shared InMemoryOutbox.State) : Shared InMemoryOutbox.State :=
  if (t =? 7)%nat then second_worker s else s.

Definition blog_drafts (w : LearningWorld InMemoryOutbox.State) : list PlaybookVersionRecord :=
  bfilter (InMemoryPlaybooks.active tenant pt_blog_draft) (world_versions w).
End LearningExample.

(** ** Two limits of the protocol *)

Section limits.
Import ZodExample LearningExample.

(** The lease fences the record of the promotion, not the new version: a
    worker that stands still until its lease has run out, while another one
    takes over and finishes, still creates its version.  Its delivery throws,
    and two versions by one critique are active, the newer one of which no
    proposal names. *)
Theorem stale_worker_creates_a_second_version :
  let run := process_message (script_of stalled) meanwhile deps (CritiqueCompleted tenant (critique "low")) empty in
  run.1 = Err (JsError ("Unable to mark learning proposal " +:+ uid 0 +:+ " as promoted.")) /\
  (fun v => (pv_version v, pv_id v, pv_createdBy v)) <$> blog_drafts run.2 =
    [(1, uid 36, "critique:c-1"); (2, uid 7, "critique:c-1")] /\
  (fun p => (lp_status p, lp_promotedVersionRef p)) <$> stored run.2 (uid 0) =
    Some (prop_promoted, Some (uid 36)).
Proof. vm_compute. split; [reflexivity|]. split; reflexivity. Qed.

(** A version goes live before its promotion is recorded.  When the worker
    dies in between and the evidence has turned by the next delivery, the
    proposal is recorded as rejected, nothing is announced, and the version
    stays active. *)
Theorem rejected_proposal_stays_live :
  let w := process_messages (script_of (broken bad)) nobody deps redelivered empty in
  lp_status <$> stored w (uid 0) = Some prop_rejected /\
  (fun v => (pv_id v, pv_createdBy v)) <$> blog_drafts w = [(uid 7, "critique:c-1")] /\
  stored_event (sh_outbox (lw_shared w)) (update_key tenant "c-1") = None.
Proof. vm_compute. split; [reflexivity|]. split; reflexivity. Qed.
End limits.


(** ** Witnesses *)

Section witnesses.
Import ZodExample LearningExample.

Definition feedback : jobject :=
  [("tenantId", JStr tenant); ("learningId", JStr "l-1"); ("dedupeKey", JStr "k-1"); ("source", JStr "approval");
   ("issueId", JStr id1); ("outputType", JStr "blog_draft"); ("action", JStr "rejected")].
Definition signal : LearningSignal :=
  mkLearningSignal tenant "l-1" "k-1" "approval" id1 "blog_draft" fb_rejected None [] None true.

Lemma accepted_signal_is_announced_witness :
  exists e o', process env1 feedback InMemoryOutbox.init =
      (Ok (mkCandidate signal (synthesizeLearningCandidate signal) (env_now env1)), o') /\
    stored_event (OutboxStore := in_memory_outbox_store) o'
      (tenant, "learning.candidate.synthesized.v1", "k-1") = Some e.
Proof.
  destruct (accepted_signal_is_announced (OS := in_memory_outbox_store) env1 feedback signal InMemoryOutbox.init)
    as (e & o' & H1 & _ & _ & H2); [apply outbox_inv_init|vm_compute; reflexivity|].
  exists e, o'. exact (conj H1 H2).
Defined.

Lemma rubric_update_reads_back_witness :
  learnerRubricContentSchema (rubric_json (buildUpdatedRubricContent None ["Too vague"] 5).1) =
    Ok (buildUpdatedRubricContent None ["Too vague"] 5).1 /\
  length (ru_rubric (buildUpdatedRubricContent None ["Too vague"] 5).1) = 5%nat.
Proof.
  split; [|vm_compute; reflexivity].
  refine (proj1 (rubric_update_reads_back None ["Too vague"] 5 _ (buildUpdatedRubricContent None ["Too vague"] 5).2 _ _)).
  - constructor; [discriminate|constructor].
  - destruct (buildUpdatedRubricContent None ["Too vague"] 5). reflexivity.
Defined.

Lemma new_version_is_licensed_witness :
  exists v id, v ∈ world_versions (process_message (script_of alone_script) nobody deps
      (CritiqueCompleted tenant (critique "low")) empty).2 /\
    licensed (process_message (script_of alone_script) nobody deps
      (CritiqueCompleted tenant (critique "low")) empty).2 id v.
Proof.
  destruct (world_versions (process_message (script_of alone_script) nobody deps
      (CritiqueCompleted tenant (critique "low")) empty).2) as [|v l] eqn:Hl.
  { vm_compute in Hl. discriminate Hl. }
  destruct (new_version_is_licensed (script_of alone_script) deps 10
    (script_ids_ok alone_script eq_refl)
    (script_ids_differ alone_script ltac:(apply (bool_decide_unpack _); vm_compute; exact I))
    (script_ends alone_script) (CritiqueCompleted tenant (critique "low")) empty v eq_refl
    (empty_ok _ _) eq_refl) as (_ & _ & id & Hlic).
  - rewrite Hl. left.
  - apply not_elem_of_nil.
  - exists v, id. split; [left|exact Hlic].
Defined.

Lemma one_version_per_critique_witness :
  one_per_critique (world_versions (process_messages (script_of (broken (good true))) nobody deps redelivered empty)) /\
  length (blog_drafts (process_messages (script_of (broken (good true))) nobody deps redelivered empty)) = 1%nat /\
  lp_status <$> stored (process_messages (script_of (broken (good true))) nobody deps redelivered empty) (uid 0) =
    Some prop_promoted.
Proof.
  split; [|split; vm_compute; reflexivity].
  apply (one_version_per_critique (script_of (broken (good true))) deps 17
    (script_ids_ok (broken (good true)) eq_refl)
    (script_ids_differ (broken (good true)) ltac:(apply (bool_decide_unpack _); vm_compute; exact I))
    (script_ends (broken (good true))) redelivered empty); [|apply empty_ok|].
  - repeat constructor.
  - intros u v c Hu. destruct (not_elem_of_nil _ Hu).
Defined.

Lemma promotion_is_announced_witness :
  exists p, stored (process_messages (script_of life) founder deps messages empty) (uid 0) = Some p /\
    promotion_announced (lw_shared (process_messages (script_of life) founder deps messages empty)) p.
Proof.
  destruct (stored (process_messages (script_of life) founder deps messages empty) (uid 0)) as [p|] eqn:Hp.
  2: { vm_compute in Hp. discriminate Hp. }
  exists p. split; [reflexivity|].
  apply (promotion_is_announced (script_of life) deps 13 (script_ids_ok life eq_refl)
    (script_ids_differ life ltac:(apply (bool_decide_unpack _); vm_compute; exact I))
    (script_ends life) founder messages empty (uid 0) p); [| |apply empty_ok|exact Hp|].
  - intros t s Hs. unfold founder. destruct (t =? 4)%nat; [by apply approval_safe|by split].
  - repeat constructor.
  - vm_compute in Hp. injection Hp as <-. reflexivity.
Defined.
End witnesses.
