(* ===== verification/Handoff.v ===== *)
(** * The handoff contracts

    [packages/core/src/handoff-contracts.ts]: the versioned payloads the agent
    workers hand to each other through the outbox, the registry that maps a
    version to its schema and the parser of any of them.  A schema keeps what
    it declares and drops the rest ([ZodJson.v]), so a payload that was
    validated on its way out is validated unchanged on its way in. *)

From S2P Require Import Prelude Numbers JsRuntime Zod ZodJson.

(** [z.string().min(lo)] and [z.string().max(hi)] *)
Definition j_string_max (hi : nat) : schema := j_text (fun s => String.length s <=? hi)%nat.
(** [p.nullable()] *)
Definition j_nullable (p : schema) : schema := fun v =>
  match v with Some JNull => Ok (Some JNull) | _ => p v end.
(** [z.number().int().positive()] and [z.number().int().nonnegative()] *)
Definition j_positive : schema :=
  j_number (fun n => match num_to_Z n with Some z => 0 <? z | None => false end).
Definition j_count : schema :=
  j_number (fun n => match num_to_Z n with Some z => 0 <=? z | None => false end).
(** [z.number().min(0).max(hi)] *)
Definition j_between (hi : num) : schema := j_number (fun n => num_leb num_zero n && num_leb n hi).
(** [z.array(p).max(hi)] *)
Definition j_array_max (hi : nat) (p : schema) : schema := fun v =>
  match v with
  | Some (JArr l) => if (length l <=? hi)%nat then j_array 0 p v else Err ZodError
  | _ => Err ZodError
  end.

#[export] Instance j_nullable_idem p `{!IdemSchema p} : IdemSchema (j_nullable p).
Proof.
  intros v w. destruct v as [[]|]; simpl; try (by intros [= <-]); intros Hp;
    apply idem_schema in Hp; by destruct w as [[]|].
Qed.
#[export] Instance j_nullable_total p `{!TotalSchema p} : TotalSchema (j_nullable p).
Proof. intros v w. destruct v; simpl; try (by intros [= <-]; eauto); apply total_schema. Qed.

#[export] Instance j_array_max_idem hi p `{!IdemSchema p, !TotalSchema p} : IdemSchema (j_array_max hi p).
Proof.
  intros [[| | | |l|]|] w; try done. unfold j_array_max.
  destruct (length l <=? hi)%nat eqn:Hl; [|done]. intros Hp.
  pose proof (idem_schema _ _ Hp) as Hw. revert Hp Hw. unfold j_array at 1. msimpl.
  destruct (j_elements p l) as [l'|] eqn:E; [|done]. intros [= <-].
  destruct (j_elements_idem p _ _ E) as [_ Hlen]. by rewrite Hlen, Hl.
Qed.
#[export] Instance j_array_max_total hi p : TotalSchema (j_array_max hi p).
Proof. intros v w. unfold j_array_max. destruct v; try done. case_match; [|done]. apply total_schema. Qed.

Section contracts.
Context `{Zod} `{ZodFormats}.

(** [/^\d{4}-\d{2}-\d{2}$/] *)
Definition is_digit_char (c : Ascii.ascii) : bool :=
  let n := Ascii.nat_of_ascii c in ((48 <=? n) && (n <=? 57))%nat.
Definition is_dash (c : Ascii.ascii) : bool := (Ascii.nat_of_ascii c =? 45)%nat.
Definition dateStringSchema : schema := j_text (fun s =>
  match String.list_ascii_of_string s with
  | [y1; y2; y3; y4; d1; m1; m2; d2; a; b] =>
      forallb is_digit_char [y1; y2; y3; y4; m1; m2; a; b] && is_dash d1 && is_dash d2
  | _ => false
  end).
Definition datetimeSchema : schema := j_datetime.
Definition urgencySchema : schema := j_enum ["now"; "this_week"; "this_month"].
Definition motionLabelSchema : schema := j_enum
  ["inbound_content"; "community_engagement"; "outbound_multichannel"; "lifecycle_expansion";
   "partners"; "paid"; "plg"; "abm"].

(** *** intel_brief.v1 *)

Definition competitiveSignalSchema : schema := j_object
  [("competitor", j_string_min 1);
   ("signal_type", j_enum ["pricing_change"; "product_launch"; "positioning_shift"; "job_posting";
      "content_spike"]);
   ("summary", j_string_min 1); ("source_url", j_optional j_url); ("confidence", j_between num_one);
   ("is_persisting", j_default (JBool false) j_boolean)].

Definition communitySignalSchema : schema := j_object
  [("platform", j_string_min 1);
   ("signal_type", j_enum ["question_spike"; "pain_point"; "feature_request"; "competitor_mention";
      "category_interest"]);
   ("summary", j_string_min 1);
   ("sample_posts", j_default (JArr []) (j_array_max 3 (j_string_max 280)));
   ("confidence", j_between num_one);
   ("motion_fit", j_default (JArr []) (j_array 0 motionLabelSchema))].

Definition briefOpportunityRefSchema : schema := j_object
  [("opportunity_id", j_uuid); ("title", j_string_min 1); ("rationale", j_string_min 1);
   ("urgency", urgencySchema); ("motion_fit", j_array 0 motionLabelSchema);
   ("score", j_between (num_of_Z 2))].

Definition intelBriefV1Schema : schema := j_object
  [("schema_version", j_literal "intel_brief.v1"); ("tenant_id", j_uuid);
   ("experiment_id", j_optional j_uuid); ("brief_id", j_uuid); ("generated_at", datetimeSchema);
   ("period", j_object [("from", dateStringSchema); ("to", dateStringSchema)]);
   ("competitive_signals", j_array 0 competitiveSignalSchema);
   ("community_signals", j_array 0 communitySignalSchema);
   ("content_opportunities", j_array 1 briefOpportunityRefSchema);
   ("recommended_focus", j_string_min 1)].

(** *** content_opportunity.v1 *)

Definition opportunityEvidenceSchema : schema := j_object
  [("type", j_enum ["competitor_move"; "community_pain"; "search_trend"; "customer_feedback"]);
   ("description", j_string_min 1); ("source_url", j_optional j_url)].

Definition contentOpportunityV1Schema : schema := j_object
  [("schema_version", j_literal "content_opportunity.v1"); ("tenant_id", j_uuid);
   ("experiment_id", j_optional j_uuid); ("opportunity_id", j_uuid); ("source_brief_id", j_uuid);
   ("title", j_string_min 1); ("hook", j_string_min 10); ("rationale", j_string_min 1);
   ("target_audience", j_array 1 (j_string_min 1)); ("motion_fit", j_array 1 motionLabelSchema);
   ("urgency", urgencySchema);
   ("content_format", j_enum ["long_form_blog"; "short_form_post"; "video_script"; "email"; "case_study"]);
   ("evidence", j_array 1 opportunityEvidenceSchema); ("score", j_between (num_of_Z 2));
   ("created_at", datetimeSchema)].

(** *** content_brief.v1 *)

Definition briefOutlineSectionSchema : schema := j_object
  [("section_title", j_string_min 1); ("key_points", j_array 1 (j_string_min 1));
   ("word_count_target", j_optional j_positive)].

Definition internalLinkSuggestionSchema : schema := j_object
  [("anchor", j_string_min 1); ("target_url", j_string_min 1)].

Definition contentBriefV1Schema : schema := j_object
  [("schema_version", j_literal "content_brief.v1"); ("tenant_id", j_uuid);
   ("experiment_id", j_optional j_uuid); ("brief_id", j_uuid); ("opportunity_id", j_uuid);
   ("generated_at", datetimeSchema); ("title", j_string_min 1); ("hook", j_string_min 10);
   ("target_audience", j_array 1 (j_string_min 1));
   ("search_intent", j_enum ["informational"; "commercial"; "transactional"; "navigational"]);
   ("primary_keyword", j_string_min 1);
   ("secondary_keywords", j_default (JArr []) (j_array 0 (j_string_min 1)));
   ("outline", j_array 4 briefOutlineSectionSchema); ("tone_notes", j_string_min 1);
   ("claims_to_avoid", j_default (JArr []) (j_array 0 (j_string_min 0)));
   ("internal_links_suggested", j_default (JArr []) (j_array 0 internalLinkSuggestionSchema));
   ("cta", j_string_min 1); ("estimated_word_count", j_positive);
   ("motion_fit", j_array 1 motionLabelSchema); ("confidence_score", j_between num_one)].

(** *** blog_draft.v1 *)

Definition draftClaimSchema : schema := j_object
  [("text", j_string_min 1); ("type", j_enum ["stat"; "comparison"; "prediction"; "definition"]);
   ("requires_verification", j_boolean); ("source_url", j_optional j_url)].

Definition draftQualityIndicatorsSchema : schema := j_object
  [("flesch_score", j_nullable (j_between (num_of_Z 100)));
   ("grade_level", j_nullable (j_number (fun n => negb (is_nan n)))); ("has_cta", j_boolean);
   ("has_internal_links", j_boolean); ("heading_count", j_count)].

Definition blogDraftV1Schema : schema := j_object
  [("schema_version", j_literal "blog_draft.v1"); ("tenant_id", j_uuid);
   ("experiment_id", j_optional j_uuid); ("draft_id", j_uuid); ("brief_id", j_uuid);
   ("generated_at", datetimeSchema); ("iteration", j_default (jint 1) j_positive);
   ("title", j_string_min 1); ("meta_description", j_string_max 160);
   ("body_markdown", j_string_min 100); ("word_count", j_positive);
   ("reading_time_minutes", j_positive);
   ("estimated_claims", j_default (JArr []) (j_array 0 draftClaimSchema));
   ("quality_indicators", draftQualityIndicatorsSchema);
   ("status", j_default (JStr "draft") (j_enum ["draft"; "pending_review"; "approved"; "rejected"]))].

(** *** The registry *)

Definition HANDOFF_CONTRACT_SCHEMAS : list (string * schema) :=
  [("intel_brief.v1", intelBriefV1Schema); ("content_opportunity.v1", contentOpportunityV1Schema);
   ("content_brief.v1", contentBriefV1Schema); ("blog_draft.v1", blogDraftV1Schema)].

(** What [in] also finds in an object literal: the properties of its prototype. *)
Definition object_prototype : list string :=
  ["constructor"; "__defineGetter__"; "__defineSetter__"; "hasOwnProperty"; "__lookupGetter__";
   "__lookupSetter__"; "isPrototypeOf"; "propertyIsEnumerable"; "toString"; "valueOf"; "__proto__";
   "toLocaleString"].

Definition isHandoffContractVersion (v : string) : bool :=
  bool_decide (v ∈ HANDOFF_CONTRACT_SCHEMAS.*1) || bool_decide (v ∈ object_prototype).

(** An array passes [typeof payload === "object"] and has no [schema_version]. *)
Definition parseHandoffContract (payload : json) : result jobject :=
  match payload with
  | JObj fields =>
      match mapGet "schema_version" fields with
      | Some (JStr version) =>
          if negb (isHandoffContractVersion version)
          then Err (JsError ("Unknown handoff contract version: " +:+ version))
          else
            match mapGet version HANDOFF_CONTRACT_SCHEMAS with
            | None => Err (JsError "HANDOFF_CONTRACT_SCHEMAS[version].parse is not a function")
            | Some contract =>
                parsed ← contract (Some payload);
                match parsed with Some (JObj fields') => mret fields' | _ => Err ZodError end
            end
      | _ => Err (JsError "Handoff contract payload missing schema_version field")
      end
  | _ => Err (JsError "Handoff contract payload missing schema_version field")
  end.
End contracts.

(** ** Theorems *)

Section theorems.
Context `{Zod} `{ZodFormats}.

Lemma intelBrief_idem : IdemSchema intelBriefV1Schema.
Proof.
  unfold intelBriefV1Schema, competitiveSignalSchema, communitySignalSchema, briefOpportunityRefSchema,
    motionLabelSchema, urgencySchema, datetimeSchema, dateStringSchema. solve_schema; apply _.
Qed.

Lemma contentOpportunity_idem : IdemSchema contentOpportunityV1Schema.
Proof.
  unfold contentOpportunityV1Schema, opportunityEvidenceSchema, motionLabelSchema, urgencySchema,
    datetimeSchema. solve_schema.
Qed.

Lemma contentBrief_idem : IdemSchema contentBriefV1Schema.
Proof.
  unfold contentBriefV1Schema, briefOutlineSectionSchema, internalLinkSuggestionSchema, motionLabelSchema,
    datetimeSchema. solve_schema.
Qed.

Lemma blogDraft_idem : IdemSchema blogDraftV1Schema.
Proof.
  unfold blogDraftV1Schema, draftClaimSchema, draftQualityIndicatorsSchema, datetimeSchema. solve_schema; apply _.
Qed.

(** A contract is an object schema with its version and its tenant, which it
    keeps as they are. *)
Lemma registered v contract : mapGet v HANDOFF_CONTRACT_SCHEMAS = Some contract ->
  IdemSchema contract /\ exists shape, contract = j_object shape /\ NoDup (shape.*1) /\
    ("schema_version", j_literal v) ∈ shape /\ ("tenant_id", j_uuid) ∈ shape /\
    ("experiment_id", j_optional j_uuid) ∈ shape.
Proof.
  unfold HANDOFF_CONTRACT_SCHEMAS. cbn [mapGet].
  repeat (case_bool_decide as Hv; [intros [= <-]; subst v; split;
    [auto using intelBrief_idem, contentOpportunity_idem, contentBrief_idem, blogDraft_idem|];
    eexists; split; [reflexivity|]; split; [apply (bool_decide_unpack _); vm_compute; exact I|];
    split_and!; [left|right; left|right; right; left]|clear Hv]).
  done.
Qed.

Lemma j_text_same p v w : j_text p v = Ok w -> w = v.
Proof. destruct v as [[]|]; simpl; try done. case_match; [|done]. by intros [= <-]. Qed.

(** What a parsed contract has established. *)
Lemma parse_inv p r : parseHandoffContract p = Ok r ->
  exists fields v contract, p = JObj fields /\ mapGet "schema_version" fields = Some (JStr v) /\
    mapGet v HANDOFF_CONTRACT_SCHEMAS = Some contract /\ contract (Some p) = Ok (Some (JObj r)).
Proof.
  unfold parseHandoffContract. destruct p as [| | | | |fields]; try done.
  destruct (mapGet "schema_version" fields) as [[| | |v| |]|] eqn:Hv; try done.
  destruct (negb _); [done|]. destruct (mapGet v HANDOFF_CONTRACT_SCHEMAS) as [contract|] eqn:Hc; [|done].
  unfold mbind, result_bind, mret, result_ret.
  destruct (contract _) as [[[]|]|] eqn:Hp; try done. intros [= ->]. by exists fields, v, contract.
Qed.

Lemma registered_key v contract : mapGet v HANDOFF_CONTRACT_SCHEMAS = Some contract ->
  v ∈ HANDOFF_CONTRACT_SCHEMAS.*1.
Proof.
  intros Hc. destruct (decide (v ∈ HANDOFF_CONTRACT_SCHEMAS.*1)) as [|Hn]; [done|].
  apply mapGet_None in Hn. congruence.
Qed.

Lemma parse_registered fields v contract r : mapGet "schema_version" fields = Some (JStr v) ->
  mapGet v HANDOFF_CONTRACT_SCHEMAS = Some contract -> contract (Some (JObj fields)) = Ok (Some (JObj r)) ->
  parseHandoffContract (JObj fields) = Ok r.
Proof.
  intros Hv Hc Hp. unfold parseHandoffContract. rewrite Hv, Hc.
  assert (isHandoffContractVersion v = true) as ->.
  { unfold isHandoffContractVersion. by rewrite bool_decide_true by (by eapply registered_key). }
  simpl. by rewrite Hp.
Qed.

(** C8. A handoff survives being validated on both sides of the outbox: what
    parsing a payload produced is parsed again to itself, under the same
    version, and its version, its tenant and its experiment are those of the
    payload; nothing but an object that names a registered version is ever
    accepted. *)
Theorem handoff_contract_round_trip p r : parseHandoffContract p = Ok r ->
  parseHandoffContract (JObj r) = Ok r /\
  exists fields v, p = JObj fields /\ v ∈ HANDOFF_CONTRACT_SCHEMAS.*1 /\
    mapGet "schema_version" r = Some (JStr v) /\
    forall k, k ∈ ["schema_version"; "tenant_id"; "experiment_id"] -> mapGet k r = mapGet k fields.
Proof.
  intros (fields & v & contract & -> & Hv & Hc & Hp)%parse_inv.
  destruct (registered v contract Hc) as (Hidem & shape & -> & Hd & Hversion & Htenant & Hexp).
  assert (forall k, k ∈ ["schema_version"; "tenant_id"; "experiment_id"] -> mapGet k r = mapGet k fields) as Hk.
  { apply j_object_some in Hp as (o & fs & [= <-] & Hp & [= <-]). intros k Hin.
    repeat (apply elem_of_cons in Hin as [->|Hin]); [..|by apply not_elem_of_nil in Hin].
    - apply (j_fields_get _ _ _ _ _ Hd Hp) in Hversion. by eapply j_text_same.
    - apply (j_fields_get _ _ _ _ _ Hd Hp) in Htenant. by eapply j_text_same.
    - apply (j_fields_get _ _ _ _ _ Hd Hp) in Hexp. revert Hexp.
      destruct (mapGet "experiment_id" fields) eqn:He; rewrite ?He; [apply j_text_same|by intros [= <-]]. }
  assert (mapGet "schema_version" r = Some (JStr v)) as Hr by (rewrite <- Hv; apply Hk; left).
  split; [apply (parse_registered _ v _ r Hr Hc); by eapply Hidem|]. exists fields, v. split_and!; [done| |done|exact Hk].
  by eapply registered_key.
Qed.

(** The names every object has pass for versions, and then the call fails. *)
Lemma inherited_name_is_a_version : isHandoffContractVersion "toString" = true /\
  parseHandoffContract (JObj [("schema_version", JStr "toString")]) =
    Err (JsError "HANDOFF_CONTRACT_SCHEMAS[version].parse is not a function").
Proof. split; vm_compute; reflexivity. Qed.
End theorems.

(** ** Witnesses *)

Module HandoffExample.
Import ZodExample.
#[export] Instance example_formats : ZodFormats := {|
  zod_url := String.prefix "https://"; zod_email s := String.eqb s "a@b.c";
  zod_datetime_offset s := negb (String.eqb s ""); zod_datetime s := negb (String.eqb s "") |}.

Definition body : string :=
  "A hundred characters at least: the draft explains how signals are routed to agents and what they cost.".
Definition draft : jobject :=
  [("schema_version", JStr "blog_draft.v1"); ("tenant_id", JStr tenant); ("draft_id", JStr tenant);
   ("brief_id", JStr tenant); ("generated_at", JStr "2024-02-29T12:00:00.000Z"); ("title", JStr "Signals");
   ("meta_description", JStr ""); ("body_markdown", JStr body); ("word_count", jint 17);
   ("reading_time_minutes", jint 1);
   ("quality_indicators", JObj [("flesch_score", jint 60); ("grade_level", JNull); ("has_cta", JBool false);
      ("has_internal_links", JBool false); ("heading_count", jint 0)]); ("unknown", JNull)].
Definition parsed : jobject :=
  match parseHandoffContract (JObj draft) with Ok r => r | Err _ => [] end.
End HandoffExample.

Lemma handoff_contract_round_trip_witness :
  parseHandoffContract (H := ZodExample.zod_example) (H0 := HandoffExample.example_formats) (JObj HandoffExample.parsed) =
    Ok HandoffExample.parsed /\ mapGet "status" HandoffExample.parsed = Some (JStr "draft").
Proof.
  split; [|vm_compute; reflexivity].
  apply (handoff_contract_round_trip (H := ZodExample.zod_example) (H0 := HandoffExample.example_formats) (JObj HandoffExample.draft)).
  vm_compute. reflexivity.
Defined.
