(* ===== verification/Critique.v ===== *)
(** * The critique worker

    [apps/worker-critique/src/]: [contracts.ts], the rubric of
    [playbook-rubric.ts] and the worker of [critique-worker.ts], which scores a
    candidate with a language model, an active playbook or a heuristic and
    announces the verdict through the outbox.  The learning worker of
    [Learning.v] reads that announcement and writes the playbooks this one
    reads.  The answers of the language model are the argument [run]; the
    patterns of the rubric are run by the matcher [regex_test].  The dashes and
    the infinity sign of the messages stand in UTF-8. *)

From S2P Require Import Prelude Numbers JsRuntime Json StableId Domain Zod ZodJson Sql Outbox ControlPlane Playbooks Learning Handoff.

(** ** Regular expressions: sequences of character classes and assertions *)

Inductive regex_item :=
  | One (p : Ascii.ascii -> bool)
  | Opt (p : Ascii.ascii -> bool)
  | Plus (p : Ascii.ascii -> bool)
  | LineStart
  | WordBoundary.

Definition in_range (lo hi : nat) (c : Ascii.ascii) : bool :=
  let n := Ascii.nat_of_ascii c in ((lo <=? n) && (n <=? hi))%nat.
(** [\d], [\w], and the line terminators below 256 *)
Definition is_decimal : Ascii.ascii -> bool := in_range 48 57.
Definition is_word (c : Ascii.ascii) : bool :=
  is_decimal c || in_range 65 90 c || in_range 97 122 c || char_is 95 c.
Definition is_line_end (c : Ascii.ascii) : bool := char_is 10 c || char_is 13 c.
Definition is_word_opt (c : option Ascii.ascii) : bool := match c with Some c => is_word c | None => false end.

(** A match of [r] that begins here, [prev] being the character before. *)
Fixpoint match_here (l : list Ascii.ascii) : option Ascii.ascii -> list regex_item -> bool :=
  fix go (prev : option Ascii.ascii) (r : list regex_item) : bool :=
    match r with
    | [] => true
    | One p :: r' => match l with c :: l' => p c && match_here l' (Some c) r' | [] => false end
    | Opt p :: r' =>
        match l with c :: l' => p c && match_here l' (Some c) r' | [] => false end || go prev r'
    | Plus p :: r' =>
        match l with
        | c :: l' => p c && (match_here l' (Some c) (Plus p :: r') || match_here l' (Some c) r')
        | [] => false
        end
    | LineStart :: r' => match prev with Some c => is_line_end c | None => true end && go prev r'
    | WordBoundary :: r' => xorb (is_word_opt prev) (is_word_opt (head l)) && go prev r'
    end.

Fixpoint match_from (prev : option Ascii.ascii) (r : list regex_item) (l : list Ascii.ascii) : bool :=
  match_here l prev r || match l with c :: l' => match_from (Some c) r l' | [] => false end.

(** [pattern.test(text)] *)
Definition regex_test (r : list regex_item) (text : string) : bool :=
  match_from None r (String.list_ascii_of_string text).

(** A word, in any case. *)
Definition word_i (w : string) : list regex_item :=
  (fun c => One (fun d => Ascii.eqb (to_lower d) c)) <$> String.list_ascii_of_string w.
(** Words with [\s+] between them. *)
Fixpoint phrase_i (ws : list string) : list regex_item :=
  match ws with
  | [] => []
  | [w] => word_i w
  | w :: ws' => word_i w ++ Plus is_space :: phrase_i ws'
  end.

Example regex_phrase : regex_test (phrase_i ["get"; "started"]) "Now GET  Started" = true /\
  regex_test (phrase_i ["get"; "started"]) "getstarted" = false.
Proof. split; reflexivity. Qed.

(** ** Contracts *)

Record CritiqueRequest := mkCritiqueRequest {
  qr_tenantId : string;
  qr_critiqueId : string;
  qr_dedupeKey : string;
  qr_source : string;
  qr_artifactKind : string;
  qr_artifactId : string;
  qr_experimentId : option string;
  qr_changeRisk : option ChangeRisk;
  qr_promptVersion : string;
  qr_candidateOutput : string;
  qr_reviewerNotes : list string;
}.

(** What the three scorers return. *)
Record Scoring := mkScoring {
  sc_verdict : CritiqueVerdict;
  sc_confidenceScore : num;
  sc_reasons : list string;
}.

Record CritiqueResult := mkCritiqueResult {
  qs_request : CritiqueRequest;
  qs_scoring : Scoring;
  qs_critiquedAt : Z;
}.

Section contracts.
Context `{Zod}.

Definition critiqueRequestSchema (r : CritiqueRequest) : result CritiqueRequest :=
  tn ← uuid (qr_tenantId r); cid ← min1_text (qr_critiqueId r); key ← min1_text (qr_dedupeKey r);
  source ← min1_text (qr_source r); kind ← min1_text (qr_artifactKind r);
  aid ← min1_text (qr_artifactId r); exp ← zod_optional uuid (qr_experimentId r);
  pv ← min1_text (qr_promptVersion r); out ← min1_text (qr_candidateOutput r);
  notes ← zod_array min1_text (qr_reviewerNotes r);
  mret (mkCritiqueRequest tn cid key source kind aid exp (qr_changeRisk r) pv out notes).

Definition critiqueResultSchema (r : CritiqueResult) : result CritiqueResult :=
  request ← critiqueRequestSchema (qs_request r);
  conf ← unit_number (sc_confidenceScore (qs_scoring r));
  reasons ← zod_array min1_text (sc_reasons (qs_scoring r));
  mret (mkCritiqueResult request (mkScoring (sc_verdict (qs_scoring r)) conf reasons) (qs_critiquedAt r)).
End contracts.

(** ** The rubric of a playbook *)

(** [rubricCriterionSchema] and [rubricPlaybookContentSchema]: the types are
    those of the learning worker's copy. *)
Abbreviation RubricCriterion := LearnerRubricCriterion.
Abbreviation RubricPlaybookContent := LearnerRubricContent.

Definition rubricCriterionSchema (j : json) : result RubricCriterion :=
  fs ← record_field (Some j);
  id ← min1_field (mapGet "id" fs); weight ← number_field unit_number (mapGet "weight" fs);
  description ← min1_field (mapGet "description" fs); check ← min1_field (mapGet "check" fs);
  mret (mkCriterion id weight description check).

Definition rubricPlaybookContentSchema (p : jobject) : result RubricPlaybookContent :=
  rubric ← array_field rubricCriterionSchema (mapGet "rubric" p);
  rubric' ← refine (fun l => negb (Nat.eqb (length l) 0)) rubric;
  lo ← optional_field positive_field (mapGet "min_word_count" p);
  hi ← optional_field positive_field (mapGet "max_word_count" p);
  phrases ← optional_field texts_field (mapGet "forbidden_phrases" p);
  mret (mkRubric rubric' lo hi phrases).

Record CriterionResult := mkCriterionResult {
  ct_id : string;
  ct_passed : bool;
  ct_weight : num;
  ct_description : string;
  ct_details : string;
}.

Definition CTA_PATTERNS : list (list regex_item) := phrase_i <$>
  [["book"; "a"]; ["start"; "your"]; ["get"; "started"]; ["sign"; "up"]; ["learn"; "more"]; ["try"; "it"];
   ["contact"; "us"]; ["schedule"; "a"]; ["request"; "a"; "demo"]; ["free"; "trial"]].

Definition EVIDENCE_PATTERNS : list (list regex_item) :=
  [[Plus is_decimal; One (char_is 37)]; [One (char_is 36); One is_decimal];
   Plus is_decimal :: word_i "x" ++ [WordBoundary];
   [Plus is_decimal; Plus is_space] ++ word_i "times"] ++
  (phrase_i <$> [["according"; "to"]; ["study"; "shows"]; ["research"; "found"]; ["data"; "shows"];
                 ["survey"]]).

(** The runs of characters that are not spaces. *)
Fixpoint count_runs (inside : bool) (l : list Ascii.ascii) : N :=
  match l with
  | [] => 0
  | c :: l' =>
      if is_space c then count_runs false l' else ((if inside then 0 else 1) + count_runs true l')%N
  end.
Definition countWords (text : string) : N := count_runs false (String.list_ascii_of_string (trim text)).

Record EvaluateConfig := mkEvaluateConfig {
  ec_minWordCount : option num;
  ec_maxWordCount : option num;
  ec_forbiddenPhrases : option (list string);
}.

(** [text.toLowerCase()] of code units below 256 *)
Definition lower_char (c : Ascii.ascii) : Ascii.ascii :=
  if in_range 192 222 c && negb (char_is 215 c)
  then Ascii.ascii_of_nat (Ascii.nat_of_ascii c + 32) else to_lower c.
Definition lower_text (s : string) : string :=
  String.string_of_list_ascii (lower_char <$> String.list_ascii_of_string s).
(** [text.includes(part)] *)
Definition includes (text part : string) : bool :=
  match String.index 0 part text with Some _ => true | None => false end.
(** [text.slice(0, n)] *)
Definition slice_text (n : nat) (s : string) : string := String.substring 0 n s.

Definition json_fields (v : option json) : jobject := match v with Some (JObj fs) => fs | _ => [] end.

Definition is_infinite (x : num) : bool := match x with S754_infinity false => true | _ => false end.

Definition headings_pattern : list regex_item :=
  [LineStart; One (char_is 35); Opt (char_is 35); Plus is_space; One (fun c => negb (is_space c))].

(** [`"${s}"`] *)
Definition quoted (s : string) : string := double_quote +:+ s +:+ double_quote.

Definition autoPassed (check : string) : string :=
  "Unknown check " +:+ quoted check +:+ " — auto-passed (no LLM configured)".

(** The text passes, and why. *)
Definition evaluateCriterion (check text : string) (config : EvaluateConfig) : bool * string :=
  if String.eqb check "has_cta" then
    let found := existsb (fun p => regex_test p text) CTA_PATTERNS in
    (found, if found then "CTA phrase detected" else "No recognised CTA phrase found")
  else if String.eqb check "has_evidence" then
    let found := existsb (fun p => regex_test p text) EVIDENCE_PATTERNS in
    (found, if found then "Evidence pattern detected" else "No quantitative evidence found")
  else if String.eqb check "no_forbidden" then
    let phrases := ec_forbiddenPhrases config ?: [] in
    let found := bfilter (fun p => includes (lower_text text) (lower_text p)) phrases in
    let passed := Nat.eqb (length found) 0 in
    (passed, if passed then "No forbidden phrases found"
             else "Forbidden phrases: " +:+ String.concat ", " found)
  else if String.eqb check "length_ok" then
    let wc := num_of_Z (Z.of_N (countWords text)) in
    let min := ec_minWordCount config ?: num_zero in
    let max := ec_maxWordCount config ?: S754_infinity false in
    (num_leb min wc && num_leb wc max,
     "Word count: " +:+ num_to_string wc +:+ " (expected " +:+ num_to_string min +:+ "–" +:+
       (if is_infinite max then "∞" else num_to_string max) +:+ ")")
  else if String.eqb check "has_headings" then
    let found := regex_test headings_pattern text in
    (found, if found then "Markdown headings present" else "No markdown headings")
  else if String.eqb check "has_hook" then
    let passed := (40 <=? String.length (trim (slice_text 120 text)))%nat in
    (passed, if passed then "Opening segment is substantive" else "Opening is too short to be a hook")
  else (true, autoPassed check).

Definition KNOWN_CHECKS : list string :=
  ["has_cta"; "has_evidence"; "no_forbidden"; "length_ok"; "has_headings"; "has_hook"].
Definition isKnownCheck (check : string) : bool := bool_decide (check ∈ KNOWN_CHECKS).

(** *** The language model *)

Inductive Prompt := CRITIQUE_EVALUATE_PROMPT | RUBRIC_CRITERION_EVALUATE_PROMPT.

(** [runner.run(prompt, variables)]: the content of the answer to the [n]-th
    call, or an exception. *)
Abbreviation LlmCallRunner := (nat -> Prompt -> list (string * string) -> result string).

Definition criterionLlmResponseSchema (j : json) : result (bool * option string) :=
  fs ← record_field (Some j);
  passed ← boolean_field (mapGet "passed" fs);
  optional_field (number_field unit_number) (mapGet "confidence" fs);;
  explanation ← optional_field (string_field mret) (mapGet "explanation" fs);
  mret (passed, explanation).

Definition llmCritiqueResponseSchema (j : json) : result Scoring :=
  fs ← record_field (Some j);
  verdict ← enum_field [verdict_approve; verdict_revise; verdict_reject] CritiqueVerdict_str
    (mapGet "verdict" fs);
  snake ← optional_field (number_field unit_number) (mapGet "confidence_score" fs);
  camel ← optional_field (number_field unit_number) (mapGet "confidenceScore" fs);
  reasons ← array_field (fun j => string_field mret (Some j)) (mapGet "reasons" fs);
  reasons' ← refine (fun l => negb (Nat.eqb (length l) 0)) reasons;
  mret (mkScoring verdict ((camel ?:? snake) ?: num_lit 7 10) reasons').

Definition mapContent (content : RubricPlaybookContent) : EvaluateConfig :=
  mkEvaluateConfig (ru_min_word_count content) (ru_max_word_count content) (ru_forbidden_phrases content).

Definition criterion_result (c : RubricCriterion) (r : bool * string) : CriterionResult :=
  mkCriterionResult (cr_id c) r.1 (cr_weight c) (cr_description c) r.2.

Record RubricEvaluationResult := mkRubricEvaluation {
  re_score : num;
  re_criteriaResults : list CriterionResult;
  re_reasons : list string;
}.

(** The second half of [evaluateRubric] and of [evaluateRubricAsync]. *)
Definition weighRubric (criteriaResults : list CriterionResult) : RubricEvaluationResult :=
  let totalWeight := foldl (fun s c => num_add s (ct_weight c)) num_zero criteriaResults in
  let normalisedScore :=
    if num_ltb num_zero totalWeight
    then foldl (fun s c => num_add s (if ct_passed c then num_div (ct_weight c) totalWeight else num_zero))
           num_zero criteriaResults
    else num_zero in
  let failedReasons := (fun c => ct_description c +:+ ": " +:+ ct_details c) <$>
    bfilter (fun c => negb (ct_passed c)) criteriaResults in
  mkRubricEvaluation (num_min num_one (num_max num_zero normalisedScore)) criteriaResults
    (match failedReasons with [] => ["All rubric criteria passed."] | _ => failedReasons end).

Definition evaluateRubric (content : RubricPlaybookContent) (candidateText : string) :
    RubricEvaluationResult :=
  weighRubric ((fun c => criterion_result c (evaluateCriterion (cr_check c) candidateText (mapContent content)))
    <$> ru_rubric content).

Section llm.
Context (parse_json : string -> result json).

Definition evaluateCriterionWithLlm (criterion : RubricCriterion) (text : string) (run : LlmCallRunner)
    (call : nat) : bool * string :=
  let auto_ why := (true, why +:+ " — auto-passed for " +:+ quoted (cr_check criterion)) in
  match run call RUBRIC_CRITERION_EVALUATE_PROMPT
      [("criterionId", cr_id criterion); ("criterionDescription", cr_description criterion);
       ("candidateText", text)] with
  | Err _ => auto_ "LLM runner error"
  | Ok content =>
      match json_part content with
      | None => auto_ "LLM returned no JSON"
      | Some part =>
          match parse_json part with
          | Err _ => auto_ "LLM JSON parse error"
          | Ok j =>
              match criterionLlmResponseSchema j with
              | Err _ => auto_ "LLM response schema invalid"
              | Ok (passed, explanation) =>
                  (passed, explanation ?:
                     (if passed then "LLM: criterion satisfied" else "LLM: criterion not satisfied"))
              end
          end
      end
  end.

(** The [n]-th criterion asks the language model in call [first + n]. *)
Definition evaluateRubricAsync (content : RubricPlaybookContent) (candidateText : string)
    (llmRunner : option LlmCallRunner) (first : nat) : RubricEvaluationResult :=
  weighRubric (imap (fun n c => criterion_result c
    (if isKnownCheck (cr_check c) then evaluateCriterion (cr_check c) candidateText (mapContent content)
     else match llmRunner with
          | Some run => evaluateCriterionWithLlm c candidateText run (first + n)
          | None => (true, autoPassed (cr_check c))
          end)) (ru_rubric content)).

Definition artifactKindToPlaybookType (artifactKind : string) : option PlaybookType :=
  if String.prefix "blog_draft" artifactKind then Some pt_blog_draft
  else if String.prefix "content_brief" artifactKind then Some pt_content_brief
  else if String.prefix "intel_brief" artifactKind then Some pt_intel_brief
  else if String.prefix "custom" artifactKind then Some pt_custom
  else None.

(** ** The worker *)

(** [Number(process.env.CRITIQUE_APPROVE_THRESHOLD)] and its sibling. *)
Context (env_approve env_revise : num).

Definition CRITIQUE_APPROVE_THRESHOLD : num :=
  if is_finite env_approve && num_ltb num_zero env_approve && num_leb env_approve num_one
  then env_approve else num_lit 8 10.
Definition CRITIQUE_REVISE_THRESHOLD : num :=
  if is_finite env_revise && num_ltb num_zero env_revise && num_ltb env_revise CRITIQUE_APPROVE_THRESHOLD
  then env_revise else num_lit 5 10.

Definition verdictFromScore (score : num) : CritiqueVerdict :=
  if num_leb CRITIQUE_APPROVE_THRESHOLD score then verdict_approve
  else if num_leb CRITIQUE_REVISE_THRESHOLD score then verdict_revise
  else verdict_reject.

Definition scoreCritique (input : CritiqueRequest) : Scoring :=
  let candidateLength := String.length (trim (qr_candidateOutput input)) in
  let hasReviewerNotes := (0 <? length (qr_reviewerNotes input))%nat in
  if (candidateLength <? 120)%nat || hasReviewerNotes then
    mkScoring verdict_revise (num_lit 52 100) ["Output needs stronger evidence and tighter structure."]
  else if (1200 <? candidateLength)%nat then
    mkScoring verdict_reject (num_lit 34 100)
      ["Output is too long for the current distribution channel."]
  else mkScoring verdict_approve (num_lit 86 100) ["Output passes structural quality checks."].

Definition scoreWithRubric (r : RubricEvaluationResult) : Scoring :=
  mkScoring (verdictFromScore (re_score r)) (re_score r) (re_reasons r).

Definition critiqueWithLlm (request : CritiqueRequest) (run : LlmCallRunner) : option Scoring :=
  let rubricHint := match qr_reviewerNotes request with
    | [] => "No reviewer notes provided."
    | notes => "Reviewer notes: " +:+ String.concat "; " notes
    end in
  match run O CRITIQUE_EVALUATE_PROMPT
      [("artifactKind", qr_artifactKind request); ("candidateOutput", qr_candidateOutput request);
       ("rubricCriteria", rubricHint)] with
  | Err _ => None
  | Ok content =>
      part ← json_part content;
      match parse_json part with
      | Err _ => None
      | Ok j => match llmCritiqueResponseSchema j with Ok s => Some s | Err _ => None end
      end
  end.

Section draft.
Context `{Zod} `{ZodFormats} `{Sha256}.

(** The properties of a parsed draft. *)
Definition draft_text (k : string) (fs : jobject) : string :=
  match mapGet k fs with Some (JStr s) => s | _ => "" end.
Definition draft_number (k : string) (fs : jobject) : string :=
  match mapGet k fs with Some (JNum n) => num_to_string n | _ => "" end.

Definition createBlogDraftCritiqueRequest (input : json) : result CritiqueRequest :=
  parsed ← blogDraftV1Schema (Some input);
  let draft := json_fields parsed in
  let experiment := match mapGet "experiment_id" draft with Some (JStr s) => Some s | _ => None end in
  critiqueRequestSchema (mkCritiqueRequest (draft_text "tenant_id" draft)
    (deterministicUuid ("critique:blog-draft:" +:+ draft_text "draft_id" draft))
    ("critique:blog-draft:" +:+ draft_text "draft_id" draft +:+ ":iteration:" +:+ draft_number "iteration" draft)
    "blog_draft_worker" "blog_draft.v1" (draft_text "draft_id" draft)
    (if truthy experiment then experiment else None) None "blog_draft.v1" (draft_text "body_markdown" draft) []).
End draft.

(** The optional collaborators of the worker. *)
Record CritiqueWorkerDependencies := mkCritiqueDeps {
  cd_llmCallRunner : option LlmCallRunner;
  cd_playbookRepository : bool;
}.

Record CritiqueWorld (O : Type) := mkCritiqueWorld {
  cw_outbox : O;
  cw_playbooks : InMemoryPlaybooks.State;
}.
Arguments mkCritiqueWorld {O} cw_outbox cw_playbooks.
Arguments cw_outbox {O} c.
Arguments cw_playbooks {O} c.

(** The two calls to the database of one critique; between them [critiquedAt]
    is read. *)
Record critique_env := mkCritiqueEnv {
  qe_read : db_call;
  qe_critiquedAt : Z;
  qe_write : db_call;
}.

Section worker.
Context `{Zod} {O : Type} `{!OutboxPort O}.
Context (deps : CritiqueWorkerDependencies).

Definition scoreWithPlaybook (env : critique_env) (request : CritiqueRequest) :
    M (CritiqueWorld O) (option Scoring) :=
  if negb (cd_playbookRepository deps) then mret None
  else
    match artifactKindToPlaybookType (qr_artifactKind request) with
    | None => mret None
    | Some playbookType =>
        playbook ← faulty (qe_read env).2 (fun w =>
          let '(r, s) := InMemoryPlaybooks.getActive (qr_tenantId request) playbookType (cw_playbooks w) in
          (r, mkCritiqueWorld (cw_outbox w) s));
        match playbook with
        | None => mret None
        | Some playbook =>
            match rubricPlaybookContentSchema (pv_content playbook) with
            | Err _ => mret None
            | Ok content =>
                mret (Some (scoreWithRubric (evaluateRubricAsync content (qr_candidateOutput request)
                  (cd_llmCallRunner deps) 1)))
            end
        end
    end.

Definition critiquePayload (result : CritiqueResult) : jobject :=
  let request := qs_request result in
  [("critique_id", JStr (qr_critiqueId request)); ("source", JStr (qr_source request));
   ("artifact_kind", JStr (qr_artifactKind request)); ("artifact_id", JStr (qr_artifactId request))] ++
  spread_truthy "experiment_id" (qr_experimentId request) ++
  spread_truthy "change_risk" (ChangeRisk_str <$> qr_changeRisk request) ++
  [("prompt_version", JStr (qr_promptVersion request));
   ("verdict", JStr (CritiqueVerdict_str (sc_verdict (qs_scoring result))));
   ("confidence_score", JNum (sc_confidenceScore (qs_scoring result)));
   ("reasons", JArr (JStr <$> sc_reasons (qs_scoring result)));
   ("critiqued_at", JStr (toISOString (qs_critiquedAt result)))].

Definition critiqueCommand (result : CritiqueResult) : EnqueueOutboxEvent :=
  mkEnqueue (qr_tenantId (qs_request result)) "critique.completed.v1" (qr_dedupeKey (qs_request result))
    (critiquePayload result).

Definition critique (env : critique_env) (input : CritiqueRequest) : M (CritiqueWorld O) CritiqueResult :=
  request ← lift (critiqueRequestSchema input);
  let llmScore := run ← cd_llmCallRunner deps; critiqueWithLlm request run in
  playbookScore ← (match llmScore with Some _ => mret None | None => scoreWithPlaybook env request end);
  let scoring := (llmScore ?:? playbookScore) ?: scoreCritique request in
  result ← lift (critiqueResultSchema (mkCritiqueResult request scoring (qe_critiquedAt env)));
  faulty (qe_write env).2 (fun w =>
    let '(r, o) := outbox_enqueue (qe_write env).1 (critiqueCommand result) (cw_outbox w) in
    (r, mkCritiqueWorld o (cw_playbooks w)));;
  mret result.

(** The message handler of [index.ts]. *)
Definition handleBlogDraft `{ZodFormats} `{Sha256} (env : critique_env) (payload : json) :
    M (CritiqueWorld O) unit :=
  request ← lift (createBlogDraftCritiqueRequest payload); critique env request;; mret tt.
End worker.
End llm.
Arguments mkCritiqueWorld {O} cw_outbox cw_playbooks.
Arguments cw_outbox {O} c.
Arguments cw_playbooks {O} c.

(** ** Scores *)

Definition unit (x : num) : Prop := num_leb num_zero x = true /\ num_leb x num_one = true.

Lemma unit_number_ok x y : unit_number x = Ok y <-> unit x /\ y = x.
Proof. unfold unit_number, number_in. rewrite refine_ok, andb_true_iff. done. Qed.

Lemma foldl_nonneg {A} (f : A -> num) l x : (forall a, a ∈ l -> num_leb num_zero (f a) = true) ->
  num_leb num_zero x = true -> num_leb num_zero (foldl (fun s a => num_add s (f a)) x l) = true.
Proof.
  revert x. induction l as [|a l IH]; intros x Hf Hx; [done|]. simpl.
  apply IH; [intros; apply Hf; by right|]. apply num_add_nonneg; [done|]. apply Hf. by left.
Qed.

(** Whatever the weights in the unit interval, the score is in it: no
    rounding and no empty sum leads out of it or to [NaN]. *)
Lemma weighed_score l : (forall c, c ∈ l -> unit (ct_weight c)) -> unit (re_score (weighRubric l)).
Proof.
  intros Hl. simpl. apply num_clamp_unit. destruct (num_ltb num_zero _) eqn:Ht; [|done].
  apply foldl_nonneg; [|done]. intros c Hc. destruct (Hl c Hc) as [H0 H1].
  destruct (ct_passed c); [|done]. apply num_div_nonneg; [by apply num_leb_one_finite|done|done].
Qed.

Lemma app_nonempty s t : t ≠ "" -> s +:+ t ≠ "".
Proof. by destruct s. Qed.

Lemma weighed_reasons l : (forall c, c ∈ l -> ct_description c ≠ "") ->
  re_reasons (weighRubric l) ≠ [] /\ Forall (.≠ "") (re_reasons (weighRubric l)).
Proof.
  intros Hl. simpl. set (failed := _ <$> _).
  assert (Forall (.≠ "") failed) as Hf.
  { apply Forall_fmap, Forall_forall. intros c [_ Hc]%elem_of_bfilter. simpl.
    specialize (Hl c Hc). by destruct (ct_description c). }
  destruct failed; [|done]. split; [done|]. by repeat constructor.
Qed.

Section rubric_theorems.
Context (parse_json : string -> result json).

Lemma known_criterion check text config : isKnownCheck check = false ->
  evaluateCriterion check text config = (true, autoPassed check).
Proof.
  intros Hk%bool_decide_eq_false. unfold evaluateCriterion.
  repeat (match goal with |- context [String.eqb check ?k] => destruct (String.eqb_spec check k) as [->|_] end;
    [exfalso; apply Hk; apply (bool_decide_unpack _); vm_compute; exact I|]).
  done.
Qed.

(** C7. The two evaluators of a rubric agree: without a language model, or
    when every check of the rubric is a known one, whatever the language
    model would have answered, [evaluateRubricAsync] returns what
    [evaluateRubric] returns. *)
Theorem async_evaluation_agrees content text llmRunner first :
  llmRunner = None \/ (forall c, c ∈ ru_rubric content -> isKnownCheck (cr_check c) = true) ->
  evaluateRubricAsync parse_json content text llmRunner first = evaluateRubric content text.
Proof.
  intros Hc. unfold evaluateRubricAsync, evaluateRubric. f_equal.
  apply list_eq. intros n. rewrite list_lookup_imap, list_lookup_fmap.
  destruct (ru_rubric content !! n) as [c|] eqn:Hn; [|done]. simpl. do 2 f_equal.
  destruct (isKnownCheck (cr_check c)) eqn:Hk; [done|]. rewrite known_criterion by done.
  destruct Hc as [->|Hall]; [done|]. rewrite Hall in Hk; [done|]. by apply list_elem_of_lookup_2 in Hn.
Qed.

Lemma async_results content text llmRunner first c :
  c ∈ re_criteriaResults (evaluateRubricAsync parse_json content text llmRunner first) ->
  exists k, k ∈ ru_rubric content /\ ct_weight c = cr_weight k /\ ct_description c = cr_description k.
Proof.
  unfold evaluateRubricAsync. cbn [weighRubric re_criteriaResults].
  intros [n Hn]%list_elem_of_lookup. rewrite list_lookup_imap in Hn.
  destruct (ru_rubric content !! n) as [k|] eqn:Hk; [|done]. injection Hn as <-.
  exists k. split; [by apply list_elem_of_lookup_2 in Hk|done].
Qed.

Lemma usable_rubric p content text llmRunner first :
  rubricPlaybookContentSchema p = Ok content ->
  let r := evaluateRubricAsync parse_json content text llmRunner first in
  num_leb num_zero (re_score r) = true /\ num_leb (re_score r) num_one = true /\
  ct_id <$> re_criteriaResults r = cr_id <$> ru_rubric content /\
  re_reasons r ≠ [] /\ Forall (.≠ "") (re_reasons r).
Proof.
  intros Hp r. destruct (rubric_schema_ok p content Hp) as [_ Hcs _ _ _]. rewrite Forall_forall in Hcs.
  pose proof (async_results content text llmRunner first) as Hres.
  destruct (weighed_score (re_criteriaResults r)) as [H0 H1].
  { intros c (k & Hk & -> & _)%Hres. by destruct (proj1 (unit_number_ok _ _) (ck_weight _ (Hcs k Hk))). }
  destruct (weighed_reasons (re_criteriaResults r)) as [H2 H3].
  { intros c (k & Hk & _ & ->)%Hres. by apply Hcs. }
  split_and!; [exact H0|exact H1| |exact H2|exact H3].
  unfold r, evaluateRubricAsync. cbn [weighRubric re_criteriaResults]. apply list_eq. intros n.
  rewrite !list_lookup_fmap, list_lookup_imap. by destruct (ru_rubric content !! n).
Qed.

(** C6. A rubric always yields a usable verdict: whatever the candidate and
    whatever the language model answers or throws, evaluating a playbook
    content that passes its schema gives a score between 0 and 1, never NaN
    in spite of the rounding of its weights, one result per criterion in the
    order of the rubric, and at least one reason, none of them empty. *)
Theorem rubric_score_is_in_the_unit_interval p content text llmRunner first :
  rubricPlaybookContentSchema p = Ok content ->
  let r := evaluateRubricAsync parse_json content text llmRunner first in
  num_leb num_zero (re_score r) = true /\ num_leb (re_score r) num_one = true /\
  ct_id <$> re_criteriaResults r = cr_id <$> ru_rubric content /\
  re_reasons r ≠ [] /\ Forall (.≠ "") (re_reasons r).
Proof. apply usable_rubric. Qed.
End rubric_theorems.

(** ** The worker *)

Section worker_theorems.
Context `{Z : Zod} {ZL : ZodLaws Z} {F : ZodFormats} {Sh : Sha256} {O : Type} {P : OutboxPort O}.
Context (parse_json : string -> result json) (env_approve env_revise : num).
Implicit Types (w : CritiqueWorld O) (env : critique_env) (deps : CritiqueWorkerDependencies).

Abbreviation critique := (critique parse_json env_approve env_revise (O := O)).
Abbreviation handle := (handleBlogDraft parse_json env_approve env_revise (O := O)).

Record request_ok (r : CritiqueRequest) : Prop := {
  qo_tenant : zod_uuid (qr_tenantId r) = true;
  qo_id : qr_critiqueId r ≠ "";
  qo_key : qr_dedupeKey r ≠ "";
  qo_source : qr_source r ≠ "";
  qo_kind : qr_artifactKind r ≠ "";
  qo_artifact : qr_artifactId r ≠ "";
  qo_experiment : forall x, qr_experimentId r = Some x -> zod_uuid x = true;
  qo_prompt : qr_promptVersion r ≠ "";
}.

#[local] Instance texts_same : SameParse (zod_array min1_text).
Proof.
  intros l. induction l as [|t l IH]; intros l'; msimpl; [by intros [= <-]|].
  destruct (min1_text t) eqn:Et; [|done]. destruct (zod_array _ l) eqn:El; [|done]. intros [= <-].
  apply min1_text_ok in Et as [_ ->]. by rewrite (IH _ eq_refl).
Qed.

Lemma request_schema_ok r r' : critiqueRequestSchema r = Ok r' -> r' = r /\ request_ok r.
Proof.
  unfold critiqueRequestSchema. intros Hr. schema_fields Hr. subst r'. split; [by destruct r|].
  split; try (by apply uuid_ok in E as [? _]); 
    try (by match goal with M : min1_text ?x = Ok _ |- ?x ≠ "" => apply min1_text_ok in M as [? _] end).
  intros x Hx. rewrite Hx in E5. revert E5. msimpl. destruct (uuid x) eqn:Hu; [|done]. by apply uuid_ok in Hu as [? _].
Qed.

Lemma texts_nonempty l l' : zod_array min1_text l = Ok l' -> Forall (.≠ "") l.
Proof.
  revert l'. induction l as [|t l IH]; intros l'; msimpl; [done|].
  destruct (min1_text t) eqn:Et; [|done]. destruct (zod_array _ l) eqn:El; [|done]. intros _.
  apply min1_text_ok in Et as [? _]. constructor; [done|]. by eapply IH.
Qed.

(** A result is accepted when its scoring is one. *)
Definition scoring_ok (s : Scoring) : Prop := unit (sc_confidenceScore s) /\ Forall (.≠ "") (sc_reasons s).

Lemma result_schema_ok r s t : critiqueRequestSchema r = Ok r -> scoring_ok s ->
  critiqueResultSchema (mkCritiqueResult r s t) = Ok (mkCritiqueResult r s t).
Proof.
  intros Hr [Hu Hs]. unfold critiqueResultSchema, mbind, result_bind. simpl. rewrite Hr.
  rewrite (proj2 (unit_number_ok _ (sc_confidenceScore s))) by done. rewrite texts_ok by done. by destruct s.
Qed.

Lemma result_schema_inv r s t x : critiqueResultSchema (mkCritiqueResult r s t) = Ok x ->
  x = mkCritiqueResult r s t /\ request_ok r /\ scoring_ok s.
Proof.
  unfold critiqueResultSchema, mbind, result_bind. simpl.
  destruct (critiqueRequestSchema r) as [r'|] eqn:Hr; [|done]. apply request_schema_ok in Hr as [-> Hr].
  destruct (unit_number _) as [c|] eqn:Hc; [|done]. apply unit_number_ok in Hc as [Hc ->].
  destruct (zod_array _ _) as [l|] eqn:Hl; [|done]. pose proof (texts_nonempty _ _ Hl).
  rewrite texts_ok in Hl by done. injection Hl as <-. intros [= <-]. by destruct s.
Qed.

(** *** The announcement is one the learning worker accepts *)

Definition critiqueOf (result : CritiqueResult) : CritiqueCompletedPayload :=
  let r := qs_request result in
  mkCritique (qr_critiqueId r) (qr_source r) (qr_artifactKind r) (qr_artifactId r) (qr_experimentId r)
    (qr_changeRisk r) (qr_promptVersion r) (sc_verdict (qs_scoring result))
    (sc_confidenceScore (qs_scoring result)) (sc_reasons (qs_scoring result))
    (toISOString (qs_critiquedAt result)).

Lemma payload_accepted r s t : request_ok r -> scoring_ok s -> zod_datetime_offset (toISOString t) = true ->
  critiqueCompletedPayloadSchema (critiquePayload (mkCritiqueResult r s t)) =
    Ok (critiqueOf (mkCritiqueResult r s t)).
Proof.
  intros Hr [Hu Hs] Ht.
  assert (forall f, f ≠ "" -> min1_field (Some (JStr f)) = Ok f) as Hm by (intros f Hf; by apply min1_field_ok).
  assert (texts_field (Some (JArr (JStr <$> sc_reasons s))) = Ok (sc_reasons s)) as Hx by (by apply texts_field_ok).
  assert (unit_number (sc_confidenceScore s) = Ok (sc_confidenceScore s)) as Hn by (by apply unit_number_ok).
  assert (refine zod_datetime_offset (toISOString t) = Ok (toISOString t)) as Hd by (by apply refine_ok).
  destruct Hr as [_ H1 _ H2 H3 H4 H5 H6].
  unfold critiqueCompletedPayloadSchema, critiquePayload, critiqueOf. cbn [qs_request qs_scoring qs_critiquedAt].
  destruct (qr_experimentId r) as [[|a e]|]; [by destruct (uuid_nonempty "" (H5 _ eq_refl))|..];
    [assert (uuid (String a e) = Ok (String a e)) as He by (apply uuid_ok; by split; [apply H5|])|];
    destruct (qr_changeRisk r) as [[]|], s as [[] conf reasons]; cbn [sc_confidenceScore sc_reasons] in *;
    simpl; unfold mbind, result_bind; rewrite ?Hm by done; rewrite ?He, ?Hn, ?Hx, ?Hd; done.
Qed.

(** *** Every tier yields a usable scoring *)

Lemma heuristic_ok r : scoring_ok (scoreCritique r).
Proof.
  unfold scoring_ok, scoreCritique. repeat case_match; split;
    try (split; vm_compute; reflexivity); by repeat constructor.
Qed.

Lemma optional_unit v o x : optional_field (number_field unit_number) v = Ok o -> o = Some x -> unit x.
Proof.
  unfold optional_field, mbind, result_bind, mret, result_ret. destruct v as [[]|]; try done.
  - simpl. destruct (unit_number n) eqn:Hn; [|done]. intros [= <-] [= <-]. by apply unit_number_ok in Hn as [? ->].
  - by intros [= <-].
Qed.

Lemma llm_confidence r run s : critiqueWithLlm parse_json r run = Some s -> unit (sc_confidenceScore s).
Proof.
  unfold critiqueWithLlm. destruct (run _ _ _) as [content|]; [|done].
  destruct (json_part content) as [part|]; [|done]. simpl. destruct (parse_json part) as [j|]; [|done].
  destruct (llmCritiqueResponseSchema j) as [s'|] eqn:Hs; [|done]. intros [= ->].
  unfold llmCritiqueResponseSchema, mbind, result_bind, mret, result_ret in Hs.
  destruct (record_field _) as [fs|]; [|done]. destruct (enum_field _ _ _) as [v|]; [|done].
  destruct (optional_field _ (mapGet "confidence_score" fs)) as [snake|] eqn:H1; [|done].
  destruct (optional_field _ (mapGet "confidenceScore" fs)) as [camel|] eqn:H2; [|done].
  destruct (array_field _ _) as [l|]; [|done]. destruct (refine _ l) as [l'|]; [|done]. injection Hs as <-.
  simpl. destruct camel as [x|]; [by apply (optional_unit _ _ x H2)|].
  destruct snake as [x|]; [by apply (optional_unit _ _ x H1)|].
  split; vm_compute; reflexivity.
Qed.

Lemma playbook_scoring env deps r w : (scoreWithPlaybook parse_json env_approve env_revise deps env r w).2 = w /\
  ((qe_read env).2 = NoFault -> exists o,
     (scoreWithPlaybook parse_json env_approve env_revise deps env r w).1 = Ok o /\
     forall s, o = Some s -> scoring_ok s).
Proof.
  unfold scoreWithPlaybook. destruct (negb _); [split; [done|by exists None]|].
  destruct (artifactKindToPlaybookType _) as [ty|]; [|split; [done|by exists None]].
  destruct w as [o ps], (qe_read env) as [c [|e|e]]; [|by split; [|intros [=]]..].
  cbn [snd faulty]. unfold mbind, M_bind, mret, M_ret, InMemoryPlaybooks.getActive, gets. simpl.
  destruct (hd_error _) as [v|]; [|split; [done|by exists None]].
  destruct (rubricPlaybookContentSchema (pv_content v)) as [content|] eqn:Hc; [|split; [done|by exists None]].
  split; [done|]. intros _. eexists. split; [done|]. intros s [= <-].
  destruct (usable_rubric parse_json (pv_content v) content (qr_candidateOutput r) (cd_llmCallRunner deps) 1 Hc)
    as (? & ? & _ & _ & ?). done.
Qed.

(** The last step: the announcement. *)
Definition announce env (r : CritiqueRequest) (s : Scoring) : M (CritiqueWorld O) CritiqueResult :=
  faulty (qe_write env).2 (fun w =>
    let '(x, o) := outbox_enqueue (qe_write env).1
      (critiqueCommand (mkCritiqueResult r s (qe_critiquedAt env))) (cw_outbox w) in
    (x, mkCritiqueWorld o (cw_playbooks w)));;
  mret (mkCritiqueResult r s (qe_critiquedAt env)).

(** With the database in reach, every valid request gets a usable scoring. *)
Lemma critique_scored env deps r w : critiqueRequestSchema r = Ok r -> (qe_read env).2 = NoFault ->
  (forall run s, cd_llmCallRunner deps = Some run -> critiqueWithLlm parse_json r run = Some s ->
     Forall (.≠ "") (sc_reasons s)) ->
  exists s, scoring_ok s /\ critique deps env r w =
    announce env r s w.
Proof.
  intros Hr Hread Hllm. unfold Critique.critique.
  rewrite (bind_eq _ _ _ r w) by (unfold lift; by rewrite Hr). cbv zeta.
  set (llm := mbind _ (cd_llmCallRunner deps)).
  assert (forall s, llm = Some s -> scoring_ok s) as Hl.
  { unfold llm. destruct (cd_llmCallRunner deps) as [run|] eqn:Hd; [|done]. simpl. intros s Hs.
    split; [by eapply llm_confidence|by eapply Hllm]. }
  assert (exists o, (match llm with Some _ => mret None
      | None => scoreWithPlaybook parse_json env_approve env_revise deps env r end) w = (Ok o, w) /\
      forall s, (llm ?:? o) ?: scoreCritique r = s -> scoring_ok s) as (o & Hp & Ho).
  { destruct llm as [s|]; [by exists None; split; [|intros ? <-; apply Hl]|].
    destruct (playbook_scoring env deps r w) as [Hw Hx]. destruct (Hx Hread) as (o & Hs & Hok).
    exists o. split; [by apply injective_projections|].
    intros s <-. destruct o as [s|]; [by apply Hok|apply heuristic_ok]. }
  rewrite (bind_eq _ _ _ o w Hp). specialize (Ho _ eq_refl). eexists. split; [exact Ho|].
  rewrite (bind_eq _ _ _ _ w) by (unfold lift; by rewrite (result_schema_ok _ _ _ Hr Ho)). done.
Qed.

(** C5. The learning loop closes: for a valid request whose key is new to the
    outbox, with the database in reach, the worker always reaches a verdict,
    whether the language model answers, throws or talks nonsense (provided it
    gives no empty reason), whether there is a playbook and whatever it
    holds; it announces the verdict under the request's tenant and key, and
    the announcement passes the learning worker's schema with exactly the
    request's lineage and the verdict's score and reasons. *)
Theorem critique_reaches_the_learner {OS : OutboxStore O P} {OP : OutboxPayloads O P} env deps r w :
  store_wf (cw_outbox w) -> critiqueRequestSchema r = Ok r ->
  (qe_read env).2 = NoFault -> (qe_write env).2 = NoFault ->
  zod_datetime_offset (toISOString (qe_critiquedAt env)) = true ->
  stored_event (cw_outbox w) (qr_tenantId r, "critique.completed.v1", qr_dedupeKey r) = None ->
  (forall run s, cd_llmCallRunner deps = Some run -> critiqueWithLlm parse_json r run = Some s ->
     Forall (.≠ "") (sc_reasons s)) ->
  exists result w' e, critique deps env r w = (Ok result, w') /\ qs_request result = r /\
    cw_playbooks w' = cw_playbooks w /\
    stored_event (cw_outbox w') (qr_tenantId r, "critique.completed.v1", qr_dedupeKey r) = Some e /\
    critiqueCompletedPayloadSchema (oe_payload e) = Ok (critiqueOf result).
Proof.
  intros Hwf Hr Hread Hwrite Hiso Hnew Hllm. destruct (request_schema_ok r r Hr) as [_ Hok].
  destruct (critique_scored env deps r w Hr Hread Hllm) as (s & Hs & ->).
  set (result := mkCritiqueResult r s (qe_critiquedAt env)).
  destruct (enqueue_stored (qe_write env).1 (critiqueCommand result) (cw_outbox w) Hwf)
    as (e & o' & He & _ & _ & Hst & _).
  { split_and!; [apply Hok|reflexivity|apply Hok]. }
  unfold announce. rewrite Hwrite. unfold mbind, M_bind. cbn [faulty].
  fold result. rewrite He.
  exists result, (mkCritiqueWorld o' (cw_playbooks w)), e. split_and!; [done..|exact Hst|].
  rewrite (store_payload (qe_write env).1 (critiqueCommand result) (cw_outbox w) e o'); try done.
  - by apply payload_accepted.
  - split_and!; [apply Hok|reflexivity|apply Hok].
Qed.

(** A critique that does not get as far has changed nothing. *)
Lemma critique_shape env deps r w : (exists e, critique deps env r w = (Err e, w)) \/
  exists s, critique deps env r w = announce env r s w.
Proof.
  unfold Critique.critique. destruct (critiqueRequestSchema r) as [r'|e] eqn:Hr; [|left; by exists e].
  destruct (request_schema_ok r r' Hr) as [-> _].
  rewrite (bind_eq _ _ _ r w) by done. cbv zeta. set (llm := mbind _ (cd_llmCallRunner deps)).
  assert (exists x, (match llm with Some _ => mret None
      | None => scoreWithPlaybook parse_json env_approve env_revise deps env r end) w = (x, w)) as [x Hx].
  { destruct llm; [by exists (Ok None)|]. destruct (playbook_scoring env deps r w) as [Hw _].
    eexists. by apply injective_projections. }
  destruct x as [o|e]; [|left; exists e; by apply bind_err].
  rewrite (bind_eq _ _ _ o w Hx). set (s := _ ?: scoreCritique r).
  destruct (critiqueResultSchema (mkCritiqueResult r s (qe_critiquedAt env))) as [res|e] eqn:Hs.
  2: { left. exists e. by apply bind_err. }
  rewrite (bind_eq _ _ _ res w) by done.
  apply result_schema_inv in Hs as [-> _]. right. by exists s.
Qed.

Lemma announced env r s w res w1 : announce env r s w = (Ok res, w1) ->
  exists e, outbox_enqueue (qe_write env).1 (critiqueCommand (mkCritiqueResult r s (qe_critiquedAt env)))
    (cw_outbox w) = (Ok e, cw_outbox w1).
Proof.
  intros (e & w' & [_ He]%faulty_ok & [= _ <-])%bind_ok.
  destruct (outbox_enqueue _ _ _) as [x o]. injection He as -> <-. by exists e.
Qed.

Lemma announce_outbox env r s w : cw_outbox (announce env r s w).2 = cw_outbox w \/
  cw_outbox (announce env r s w).2 = (outbox_enqueue (qe_write env).1
    (critiqueCommand (mkCritiqueResult r s (qe_critiquedAt env))) (cw_outbox w)).2.
Proof.
  unfold announce. destruct (qe_write env) as [c [|e|e]]; [right|by left|right];
    unfold mbind, M_bind; simpl; unfold mbind, M_bind; by destruct (outbox_enqueue _ _ _) as [[]].
Qed.

(** A draft is announced once however often it is delivered: after a
    delivery that was acknowledged, any further delivery of the same draft,
    whatever the language model, the playbooks, the clock and the database do
    then, whether it succeeds or throws, leaves the outbox as it was. *)
Theorem redelivered_draft_is_announced_once {OL : OutboxLaws O P} env env' deps deps' payload w w1 w2 :
  outbox_wf (cw_outbox w) -> handle deps env payload w = (Ok tt, w1) ->
  cw_outbox w2 = cw_outbox w1 -> cw_outbox (handle deps' env' payload w2).2 = cw_outbox w1.
Proof.
  intros Hwf Hh Hw. unfold handleBlogDraft in *.
  destruct (createBlogDraftCritiqueRequest payload) as [r|e]; [|done].
  rewrite (bind_eq _ _ _ r w) in Hh by done. rewrite (bind_eq _ _ _ r w2) by done.
  apply bind_ok in Hh as (res & w1' & Hc & [= ->]).
  destruct (critique_shape env deps r w) as [[e E]|[s E]]; [congruence|]. rewrite E in Hc.
  apply announced in Hc as [e He].
  rewrite (answered_state (critique deps' env' r) (fun _ => tt)).
  destruct (critique_shape env' deps' r w2) as [[e' ->]|[s' ->]]; [done|].
  destruct (announce_outbox env' r s' w2) as [->| ->]; [done|]. rewrite Hw.
  by rewrite (outbox_again _ (qe_write env').1 _ _ _ _ _ Hwf He).
Qed.
End worker_theorems.

(** ** Witnesses *)

Module CritiqueExample.
Import ZodExample HandoffExample.

Definition ok (e : call_env) : db_call := (e, NoFault).
Definition env : critique_env := mkCritiqueEnv (ok env1) 1709210096789 (ok env1).
Definition later : critique_env := mkCritiqueEnv (ok env2) 1709210099999 (env2, FailAfter (JsError "timeout")).
Definition empty : CritiqueWorld InMemoryOutbox.State := mkCritiqueWorld InMemoryOutbox.init InMemoryPlaybooks.init.
Definition request : CritiqueRequest :=
  mkCritiqueRequest tenant "c1" "critique:c1" "blog_draft_worker" "blog_draft.v1" "d1" None (Some risk_low)
    "blog_draft.v1" HandoffExample.body [].
Definition rubric : jobject :=
  [("rubric", JArr [JObj [("id", JStr "cta"); ("weight", JNum (num_lit 1 10)); ("description", JStr "CTA");
      ("check", JStr "has_cta")];
    JObj [("id", JStr "tone"); ("weight", JNum (num_lit 2 10)); ("description", JStr "Tone");
      ("check", JStr "on_brand")]])].
(** A language model that answers with a JSON object, which [blank] reads as
    an approval whose only reason is empty. *)
Definition run : LlmCallRunner := fun _ _ _ => Ok "{}".
Definition blank (_ : string) : result json :=
  Ok (JObj [("verdict", JStr "approve"); ("reasons", JArr [JStr ""])]).
Definition no_json (_ : string) : result json := Err (JsError "Unexpected token").
Definition deps : CritiqueWorkerDependencies := mkCritiqueDeps None true.
Definition with_llm : CritiqueWorkerDependencies := mkCritiqueDeps (Some run) true.
Definition content : RubricPlaybookContent :=
  match rubricPlaybookContentSchema rubric with Ok c => c | Err _ => mkRubric [] None None None end.
End CritiqueExample.

Section witnesses.
Import ZodExample HandoffExample ShaExample CritiqueExample.
Abbreviation nan := S754_nan.

Lemma async_evaluation_agrees_witness :
  evaluateRubricAsync no_json content "Sign up" None 1 = evaluateRubric content "Sign up" /\
  num_leb (re_score (evaluateRubric content "nothing")) num_one = true.
Proof.
  split; [|vm_compute; reflexivity]. apply (async_evaluation_agrees no_json content "Sign up" None 1). by left.
Defined.

Lemma rubric_score_is_in_the_unit_interval_witness :
  num_leb num_zero (re_score (evaluateRubricAsync no_json content "nothing" (Some run) 1)) = true.
Proof.
  apply (rubric_score_is_in_the_unit_interval no_json rubric content "nothing" (Some run) 1).
  vm_compute. reflexivity.
Defined.

Lemma critique_reaches_the_learner_witness :
  exists result w', critique no_json nan nan with_llm env request empty = (Ok result, w').
Proof.
  destruct (critique_reaches_the_learner (P := in_memory_outbox_port) (OS := in_memory_outbox_store)
    no_json nan nan env with_llm request empty) as (result & w' & e & H & _);
    [apply outbox_inv_init|vm_compute; reflexivity..| |].
  - intros ? s [= <-] Hs. vm_compute in Hs. discriminate Hs.
  - exists result, w'. exact H.
Defined.

Lemma redelivered_draft_is_announced_once_witness :
  let first := handleBlogDraft no_json nan nan deps env (JObj draft) empty in
  cw_outbox (handleBlogDraft no_json nan nan with_llm later (JObj draft) first.2).2 = cw_outbox first.2.
Proof.
  intros first.
  apply (redelivered_draft_is_announced_once (OL := in_memory_outbox_laws) no_json nan nan env later deps
    with_llm (JObj draft) empty first.2 first.2); [apply outbox_inv_init|vm_compute; reflexivity|reflexivity].
Defined.

(** An empty reason of the language model passes the schema of its answer but
    not the one of the result: the critique throws instead of falling back to
    the playbook or to the heuristic, which accept this request. *)
Lemma blank_reason_fails_the_critique :
  critique blank nan nan with_llm env request empty = (Err ZodError, empty) /\
  exists result w', critique blank nan nan deps env request empty = (Ok result, w').
Proof. split; [vm_compute; reflexivity|]. eexists _, _. vm_compute. reflexivity. Qed.
End witnesses.
